(* ===== verification/_CoqProject ===== *)
-Q . S2P
Prelude.v
Opcode.v
ScriptNum.v
Script.v
ScriptFacts.v
SigEncoding.v
ScriptProps.v
Interp.v
InterpFacts.v
InterpSafe.v
Multisig.v
InterpProps.v
Der.v
LegacyInterp.v
LegacyRefines.v
Serialize.v
Transaction.v
TransactionProps.v
SigHash.v
SigHashProps.v
Bignum.v
Chain.v
TxConnect.v
TxConnectProps.v
Proofs.v
Stake.v
StakeProps.v
Standard.v
StandardProps.v
Policy.v
Mempool.v
MempoolProps.v
Merkle.v
MerkleProps.v
Block.v
BlockProps.v
ChainState.v
ChainTree.v
ChainLinks.v
Reorg.v
ChainStateProps.v
NodeProps.v
TxDB.v
ChainLoad.v
ChainLoadProps.v
Orphans.v
OrphansProps.v
OrphanBlocks.v
OrphanBlocksProps.v
HashStream.v
HashWords.v
Sha256.v
Sha512.v
Sha1.v
Ripemd160.v
Hasher.v
Hash.v
HashProps.v
Genesis.v
Base58.v
Base58Props.v
Keys.v
KeysProps.v
Address.v
AddressProps.v
Sign.v
SignProps.v
Encodings.v
EncodingsProps.v
NetAddr.v
AddrMan.v
AddrManTables.v
AddrManProps.v
Wallet.v
Payment.v
SelectProps.v
PaymentProps.v
Coins.v
CoinsProps.v
