(* ===== verification/Prelude.v ===== *)
(** * Sphinxcoin: a verification library for the consensus code

    This library models the parts of the Sphinxcoin node (a Bitcoin-derived
    proof-of-stake currency; C++ sources under [src/]) that decide whether a
    transaction or a block is valid, its keys, payments and addresses of peers,
    and proves what makes them correct.

    ** The program

    The node reads transactions and blocks from the network and the disk
    ([serialize.h], [primitives/]), tests them on their own
    ([CTransaction::CheckTransaction]) and in the context of the chain
    ([FetchInputs], [ConnectInputs], [DisconnectInputs]), where spending an
    output means running two scripts ([script/interpreter.cpp]) that ask for
    ECDSA signatures over a modified copy of the transaction
    ([SignatureHash]).  The transaction index ([CTxIndex], one entry per
    transaction with a spent pointer per output) is the state these
    operations share: the database keeps it, a block being connected collects
    its changes in a pending map ([mapTestPool]) and writes them when the
    whole block is accepted.  The age of the outputs a proof-of-stake
    transaction spends ([GetCoinAge]) determines its reward.

    ** Conventions

    A C++ function is a Rocq function in the outcome monad below: it returns
    ([Ok]), returns its failure value with an error code or a denial-of-service
    score ([Err]), throws ([Throw]) or fails an assertion ([Crash]).  Integers
    are [Z] with the wrap-around of their width written out ([to_i64],
    [to_u32], ...); byte vectors are lists of [Z] with [bytes_ok] where their
    range matters; [std::map] and [std::set] are [gmap] and [gset].  A vector
    used as a stack is a list with its top first.  Iterators into a script are
    the rest of the script.  Loops that read a script take its length as fuel:
    every round reads at least one byte, and the theorems show that the fuel
    never runs out (running out is [Crash]).

    Code outside the repository enters as classes and arguments: the hash
    functions ([ScriptHashes]), libsecp256k1 ([ECDSA]), the database and block
    files ([gmap]s and [ReadTxFromDisk]), [GetRandHash].  Laws about them are
    separate ([ScriptHashesOk]: digests are bytes of the documented length)
    and every theorem that uses one has an instance in its witness.

    ** The files

    - [Prelude]: the outcome monad with its inversion lemmas and tactics,
      bytes, little-endian encodings, machine integers.
    - [Opcode], [ScriptNum], [Script], [SigEncoding]: [script/script.h] and
      [script/script.cpp]: opcodes, [CScriptNum], the container [CScript] with
      its instruction reader, [FindAndDelete], signature-operation counts and
      templates; the encoding rules of [interpreter.cpp].  [ScriptFacts] has
      the theory of instructions ([instr], [parses]) the other files build on;
      [ScriptProps] and [Der] have properties.
    - [Interp]: [EvalScript] and [VerifyScript] with a signature checker, one
      definition per group of opcodes, a loop over a state record.
      [InterpFacts] has the invariant of the state and its preservation,
      [InterpSafe] the exceptions each opcode can raise, the fuel
      and induction on runs, [Multisig] the matching loop of CHECKMULTISIG,
      [InterpProps] the properties.
    - [LegacyInterp], [LegacyRefines]: the older overloads with a transaction,
      which the consensus code still calls, and their refinement of the newer
      ones.
    - [Serialize]: stream readers and writers; the class [Serialize] has the
      operations the macro IMPLEMENT_SERIALIZE generates and
      [SerializeLaws] what a format promises (round trip, canonicity, totality);
      integers, compact sizes, vectors, pairs and isomorphic records inherit
      the laws.
    - [Transaction], [TransactionProps]: [primitives/transaction.h] and the
      context-free tests.
    - [SigHash], [SigHashProps]: [SignatureHash], [CheckSig] and the signature
      cache of [script/sigcache.cpp].
    - [TxConnect], [TxConnectProps]: fetching, connecting and disconnecting
      inputs and the coin age, [primitives/transaction.cpp].
    - [Bignum]: [CBigNum] as far as compact targets need it.  [Chain]:
      [CBlockIndex] as chains of ancestors.  [Proofs]: rewards,
      the retarget rule, proof of work, checkpoints ([proofs.cpp],
      [checkpoints.cpp]).  [Stake], [StakeProps]: stake modifiers and the kernel
      ([stake.cpp]).
    - [Standard], [StandardProps]: the script templates ([script/standard.cpp]).
      [Policy]: relay rules.  [Mempool], [MempoolProps]: the memory pool and
      [AcceptToMemoryPool].
    - [Merkle], [MerkleProps], [Block], [BlockProps]: the block with its tests,
      [ConnectBlock] and [DisconnectBlock] on the transaction index.
    - [ChainState]: the globals of the node as one record, [Reorganize],
      [SetBestChain], [AddToBlockIndex], [AcceptBlock].  [ChainTree] (the
      index as a tree), [ChainLinks] ([pnext] and the
      transaction index as the ledger of a chain), [Reorg], [ChainStateProps] and
      [NodeProps] build the invariant of the node up to its properties.
    - [TxDB]: [CTxDB] over LevelDB, with its batch.  [ChainLoad],
      [ChainLoadProps]: rebuilding the index at startup.
    - [Orphans], [OrphansProps], [OrphanBlocks], [OrphanBlocksProps]: the
      transactions and blocks that wait for their parents, and [ProcessBlock].
    - [HashStream] (the buffer shared by the hash classes of [crypto/], written
      once over chunk size, length field and compression function), [HashWords]
      (words and the standards), [Sha256], [Sha512], [Sha1], [Ripemd160] (the
      unrolled compression functions), [Hasher] (the interface [hasher] with its
      laws, HMAC), [Hash] and [HashProps] ([hash.h], [hash.cpp]).
    - [Genesis]: the parameters and genesis blocks of [chainparams.cpp], run
      with these hash functions.
    - [Base58], [Base58Props], [Keys], [KeysProps], [Address], [AddressProps]:
      the base-58 codec, private, public and extended keys over the class
      [Secp256k1] with the laws [Secp256k1Laws], addresses and secrets
      ([base58.cpp], [key.cpp], [pubkey.cpp]).
    - [Sign], [SignProps]: key stores, [IsMine], signing and combining
      signatures ([keystore.cpp], [script/ismine.cpp], [script/sign.cpp]).
    - [Encodings], [EncodingsProps]: hexadecimal, base 64 and base 32 texts
      ([util.cpp], [utilstrencodings.cpp]).  [NetAddr]:
      addresses of peers, their kinds, texts and groups, subnets
      ([netbase.cpp]).  [AddrMan], [AddrManTables] (the invariants of its
      indexes and buckets, with the steps that keep them) and [AddrManProps]: the
      address manager ([addrman.h], [addrman.cpp]).
    - [Wallet] (transactions, spent flags, balance, available coins, key pool,
      [CommitTransaction]) and [Payment] (mixing rounds, subset sums,
      [SelectCoins], [CreateTransaction]) of [wallet.cpp] and [wallet.h], with
      [SelectProps] (the choice among coins, the available coins and what is
      selected of them) and [PaymentProps] (the inputs that stay signed, the
      balance of a round, the fees, committing).
    - [Coins], [CoinsProps]: views of the unspent outputs as a class of
      operations with laws, and the cache over one ([coins.h], [coins.cpp]).

    ** What is shown

    Scripts.  [EvalScript] ends on every byte vector, no assertion of it fails
    and its stacks stay bounded; what it accepts is a sequence of complete
    admissible instructions; CHECKMULTISIG is the ordered matching it means to
    be; the verdict on the standard spends is computed on every branch; the
    older interpreter refines the newer one.  Numbers, signatures and
    transactions have the encodings their decoders accept.

    Transactions and blocks.  [CheckTransaction] is the declarative
    well-formedness; accepted transactions spend distinct unspent outputs and
    create no value; disconnecting a block undoes it; the recorded supply grows
    by at most the subsidy, unless a coinstake hides in a proof-of-work block.

    The node.  Block index, links, records and ledger stay consistent: a
    refused block leaves a sound node with the same best block, and so does an
    accepted one, unless a block refused before was left in the index heavier
    than the best; what holds then is stated too, and an example shows it.  [Reorganize]
    finds the fork and disconnects without failing, and then does exactly what
    connecting the new branch does; the database is a finite map with
    transactions; a restart restores the index, and verification at any level
    passes exactly when every block it reads does; the orphans of an accepted
    block are tried in order, generation by generation, and the collections
    are bounded and consistent; the memory pool is consistent and its recursive
    removal exact.  [CheckProofOfStake] accepts exactly the valid kernels.

    Cryptography and wallets.  The hash classes and HMAC compute their
    standards for every way of cutting the message into writes; signatures of
    keys verify; public derivation agrees with private derivation; addresses
    and base 58 round trip; [SignSignature] signs whatever the store has the
    keys of; the answer of [IsMine] is given for every script, and combining
    two signed multisignatures loses no signature that a key is missing.

    Peers.  The address manager keeps its tables consistent under every
    operation and every outcome of its random choices, so that its own check
    never finds anything; the texts of bytes are decoded to what was encoded
    and nothing else is accepted; the texts of Tor addresses are read back,
    those of I2P addresses are not; what a subnet matches is computed.

    The wallet.  [SelectCoins] returns available coins with their exact total,
    and an ordinary payment fails only when the coins it may use do not
    suffice; a transaction [CreateTransaction] returns is complete and signed,
    spends exactly what it pays out and its fee, and gives back all that is
    left as change unless that is dust; committing it marks its
    coins, which are never listed again.

    Coin views.  A cache answers every history of operations as a store of
    slots does, in which a coin is absent, gone but remembered, or present, and
    flushing it hands its base the coins of the slots.

    Fuel.  Loops over scripts and byte vectors take the length of what they
    read; walks along [pprev] take the number of entries of the index, which
    bounds a path of distinct blocks; work lists take the number of waiting
    elements; a payment takes one round more than there are fees a standard size
    can ask for.  The termination theorems and the invariants show that none of
    them runs out.

    ** What is not modelled

    The graphical interface, the RPC server and its commands, the network
    threads and sockets, the database and the encryption of the wallet, its
    accounts, rescans, stealth payments and [CreateCoinStake], masternodes and the
    payment schemes built on them (stashed sends, instant transactions),
    encrypted messages and stealth addresses: large components on top of the
    core, most of them input and output, threads or timers.  The X11 hash
    functions of [crypto/*.c], libsecp256k1, LevelDB and the JSON libraries are
    vendored code and enter as parameters.  The chances the
    address manager computes in double are arguments, its file of peers is left
    out; so is the compressed form of coins ([compressor.h]).  Failing writes to the disk and
    running out of memory are not modelled. *)

From stdpp Require Export prelude list numbers.
From stdpp Require Export gmap.
From stdpp Require Export strings.
From Stdlib Require Strings.String Strings.Ascii.
#[global] Open Scope Z_scope.

(** ** Outcomes of C++ code *)

(** The four ways a modelled C++ function ends: it returns normally, it
    returns its failure value with an error code, it throws, or an [assert]
    of its body fails and the process aborts. *)
Inductive outcome (E A : Type) : Type :=
| Ok (a : A)
| Err (e : E)
| Throw
| Crash.
Arguments Ok {E A} a.
Arguments Err {E A} e.
Arguments Throw {E A}.
Arguments Crash {E A}.

#[export] Instance outcome_ret E : MRet (outcome E) := fun A a => Ok a.
#[export] Instance outcome_bind E : MBind (outcome E) := fun A B f m =>
  match m with
  | Ok a => f a
  | Err e => Err e
  | Throw => Throw
  | Crash => Crash
  end.

#[export] Instance outcome_fmap E : FMap (outcome E) := fun A B f m =>
  match m with
  | Ok a => Ok (f a)
  | Err e => Err e
  | Throw => Throw
  | Crash => Crash
  end.

(** [if (b) return e;] *)
Definition fail_if {E} (b : bool) (e : E) : outcome E unit :=
  if b then Err e else Ok tt.

(** [if (b) throw ...;] *)
Definition throw_if {E} (b : bool) : outcome E unit :=
  if b then Throw else Ok tt.

(** [assert(b);] *)
Definition assert_that {E} (b : bool) : outcome E unit :=
  if b then Ok tt else Crash.

(** An option whose [None] stands for an exception ([std::vector::at]). *)
Definition or_throw {E A} (o : option A) : outcome E A :=
  match o with Some a => Ok a | None => Throw end.

(** The function does not reach a failing [assert]. *)
Definition no_crash {E A} (m : outcome E A) : Prop :=
  match m with Crash => False | _ => True end.

Section outcome_lemmas.
Context {E A B : Type}.
Implicit Types (m : outcome E A) (f : A -> outcome E B).

Lemma bind_Ok m f b : (m ≫= f) = Ok b <-> exists a, m = Ok a /\ f a = Ok b.
Proof. destruct m as [a| | |]; cbn; split; [intros H; by exists a|by intros (?&[= ->]&?)|..]; try done; by intros (?&?&?). Qed.

Lemma fmap_Ok (g : A -> B) m b : (g <$> m) = Ok b <-> exists a, m = Ok a /\ b = g a.
Proof. destruct m as [a| | |]; cbn; split; [intros [= <-]; by exists a|by intros (?&[= ->]&->)|..]; try done; by intros (?&?&?). Qed.

Lemma no_crash_fmap (g : A -> B) m : no_crash m -> no_crash (g <$> m).
Proof. by destruct m. Qed.

Lemma bind_Err m f e :
  (m ≫= f) = Err e <-> m = Err e \/ exists a, m = Ok a /\ f a = Err e.
Proof.
  destruct m as [a|e'| |]; cbn; split.
  - intros ?. right. by exists a.
  - by intros [[=]|(?&[= ->]&?)].
  - intros [= ->]. by left.
  - by intros [[= ->]|(?&?&?)].
  - done.
  - by intros [?|(?&?&?)].
  - done.
  - by intros [?|(?&?&?)].
Qed.

Lemma bind_Throw m f :
  (m ≫= f) = Throw <-> m = Throw \/ exists a, m = Ok a /\ f a = Throw.
Proof.
  destruct m as [a|e'| |]; cbn; split.
  - intros ?. right. by exists a.
  - by intros [[=]|(?&[= ->]&?)].
  - done.
  - by intros [?|(?&?&?)].
  - by left.
  - done.
  - done.
  - by intros [?|(?&?&?)].
Qed.

Lemma fmap_Throw (g : A -> B) m : (g <$> m) = Throw <-> m = Throw.
Proof. by destruct m. Qed.

Lemma fail_if_not_Throw (b : bool) (e : E) : fail_if b e <> Throw.
Proof. by destruct b. Qed.

Lemma fail_if_Ok (b : bool) (e : E) u : fail_if b e = Ok u <-> b = false.
Proof. by destruct b, u. Qed.

Lemma throw_if_Ok (b : bool) u : throw_if (E:=E) b = Ok u <-> b = false.
Proof. by destruct b, u. Qed.

Lemma assert_that_Ok (b : bool) u : assert_that (E:=E) b = Ok u <-> b = true.
Proof. by destruct b, u. Qed.

Lemma or_throw_Ok (o : option A) a : or_throw (E:=E) o = Ok a <-> o = Some a.
Proof. destruct o; cbn; split; congruence. Qed.

Lemma no_crash_bind m f :
  no_crash m -> (forall a, m = Ok a -> no_crash (f a)) -> no_crash (m ≫= f).
Proof. destruct m; cbn; auto. Qed.

Lemma no_crash_fail_if (b : bool) (e : E) : no_crash (fail_if b e).
Proof. by destruct b. Qed.

Lemma no_crash_throw_if (b : bool) : no_crash (throw_if (E:=E) b).
Proof. by destruct b. Qed.

Lemma no_crash_or_throw (o : option A) : no_crash (or_throw (E:=E) o).
Proof. by destruct o. Qed.

Lemma no_crash_assert (b : bool) : b = true -> no_crash (assert_that (E:=E) b).
Proof. by intros ->. Qed.
End outcome_lemmas.

Create HintDb outcome.

#[export] Hint Resolve no_crash_fail_if no_crash_throw_if no_crash_or_throw
  no_crash_assert no_crash_fmap : outcome.
#[export] Hint Extern 1 (no_crash (Ok _)) => exact I : outcome.
#[export] Hint Extern 1 (no_crash (Err _)) => exact I : outcome.
#[export] Hint Extern 1 (no_crash Throw) => exact I : outcome.
#[export] Hint Extern 1 (no_crash (mret _)) => exact I : outcome.

(** Inverts hypotheses saying that a monadic computation returned [Ok]. *)
Ltac mon_inv :=
  repeat match goal with
  | H : (_ ≫= _) = Ok _ |- _ => apply bind_Ok in H as (? & ? & ?)
  | H : (_ <$> _) = Ok _ |- _ => apply fmap_Ok in H as (? & ? & ?)
  | H : mret _ = Ok _ |- _ => injection H as H
  | H : Ok _ = Ok _ |- _ => injection H as H
  | H : fail_if _ _ = Ok _ |- _ => apply fail_if_Ok in H
  | H : throw_if _ = Ok _ |- _ => apply throw_if_Ok in H
  | H : assert_that _ = Ok _ |- _ => apply assert_that_Ok in H
  | H : or_throw _ = Ok _ |- _ => apply or_throw_Ok in H
  | H : Err _ = Ok _ |- _ => discriminate H
  | H : Throw = Ok _ |- _ => discriminate H
  | H : Crash = Ok _ |- _ => discriminate H
  end.

(** Proves [no_crash] of a monadic computation, one bind at a time. *)
Ltac no_crash_step :=
  match goal with
  | |- no_crash (_ ≫= _) => apply no_crash_bind; [eauto with outcome | intros ? ?; mon_inv]
  | |- no_crash (if ?b then _ else _) => destruct b eqn:?
  | |- no_crash _ => solve [eauto with outcome]
  end.

(** Settles a closed decidable proposition by evaluation. *)
Ltac decide_now := refine (bool_decide_unpack _ _); vm_compute; exact I.

(** ** Bytes *)

(** A C++ [unsigned char] is an integer of [0, 255]; a byte vector
    ([std::vector<unsigned char>], [valtype]) is the list of its bytes. *)
Abbreviation valtype := (list Z) (only parsing).

Definition byte_ok (b : Z) : Prop := 0 <= b < 256.
Abbreviation bytes_ok := (Forall byte_ok).

#[export] Instance byte_ok_dec b : Decision (byte_ok b).
Proof. unfold byte_ok. apply _. Defined.

(** [v.size()] *)
Definition zlen {A} (l : list A) : Z := Z.of_nat (length l).

Lemma zlen_nil {A} : zlen (@nil A) = 0.
Proof. done. Qed.
Lemma zlen_cons {A} (x : A) l : zlen (x :: l) = 1 + zlen l.
Proof. unfold zlen. cbn [length]. lia. Qed.
Lemma zlen_app {A} (l k : list A) : zlen (l ++ k) = zlen l + zlen k.
Proof. unfold zlen. rewrite length_app. lia. Qed.
Lemma zlen_nonneg {A} (l : list A) : 0 <= zlen l.
Proof. unfold zlen. lia. Qed.
Lemma zlen_0 {A} (l : list A) : zlen l = 0 -> l = [].
Proof. destruct l; unfold zlen; cbn; [done | lia]. Qed.
#[export] Hint Resolve zlen_nonneg : core.
Create Rewrite HintDb zlen.
#[export] Hint Rewrite @zlen_nil @zlen_cons @zlen_app : zlen.

(** Turns every [zlen] of the context into the length as an integer. *)
Ltac zlen_lia := autorewrite with zlen in *; unfold zlen in *; cbn [length] in *; lia.

(** [v[i]] for an index already known to be in range. *)
Definition byte_at (l : list Z) (i : Z) : Z := nth (Z.to_nat i) l 0.

Lemma byte_at_ok l i : bytes_ok l -> byte_ok (byte_at l i).
Proof.
  intros Hl. unfold byte_at. destruct (decide (Z.to_nat i < length l)%nat) as [Hi|Hi].
  - rewrite Forall_forall in Hl. apply Hl, list_elem_of_In, nth_In, Hi.
  - rewrite nth_overflow by lia. unfold byte_ok. lia.
Qed.

(** ** Runs of elements *)

Fixpoint drop_while {A} (f : A -> bool) (l : list A) : list A :=
  match l with [] => [] | x :: l' => if f x then drop_while f l' else l end.

Fixpoint take_while {A} (f : A -> bool) (l : list A) : list A :=
  match l with [] => [] | x :: l' => if f x then x :: take_while f l' else [] end.

Lemma drop_while_app {A} (f : A -> bool) l k : forallb f l = true -> drop_while f (l ++ k) = drop_while f k.
Proof. induction l as [|x l IH]; cbn; [done|]. intros [-> H]%andb_true_iff. auto. Qed.

Lemma drop_while_split {A} (f : A -> bool) l :
  l = take_while f l ++ drop_while f l /\ forallb f (take_while f l) = true.
Proof.
  induction l as [|x l [IH1 IH2]]; [done|]. cbn. destruct (f x) eqn:E; [|done].
  cbn. rewrite E. split; [by f_equal|done].
Qed.

(** The list does not start with an element that satisfies [f]. *)
Definition stops {A} (f : A -> bool) (l : list A) : Prop :=
  match l with [] => True | x :: _ => f x = false end.

Lemma drop_while_stops {A} (f : A -> bool) l : stops f (drop_while f l).
Proof. induction l as [|x l IH]; cbn; [done|]. by destruct (f x) eqn:E. Qed.

Lemma drop_while_id {A} (f : A -> bool) l : stops f l -> drop_while f l = l.
Proof. destruct l; cbn; [done|]. by intros ->. Qed.

Lemma take_while_run {A} (f : A -> bool) l k : forallb f l = true -> stops f k -> take_while f (l ++ k) = l.
Proof.
  intros Hl Hk. induction l as [|x l IH]; cbn in *.
  - destruct k; cbn in *; [done|]. by rewrite Hk.
  - apply andb_true_iff in Hl as [-> Hl]. f_equal. auto.
Qed.

Lemma forallb_replicate {A} (f : A -> bool) n x : f x = true -> forallb f (replicate n x) = true.
Proof. intros Hx. induction n; cbn; [done|]. by rewrite Hx. Qed.

(** The bytes of a string literal. *)
Fixpoint cstr (s : String.string) : list Z :=
  match s with
  | String.EmptyString => []
  | String.String c s => Z.of_N (Ascii.N_of_ascii c) :: cstr s
  end.
Arguments cstr _%_stdpp.

(** ** Little-endian integers, the memory layout [memcpy] relies on *)

Fixpoint le_encode (n : nat) (z : Z) : list Z :=
  match n with
  | O => []
  | S n => z mod 256 :: le_encode n (z / 256)
  end.

Fixpoint le_decode (l : list Z) : Z :=
  match l with
  | [] => 0
  | b :: l => b + 256 * le_decode l
  end.

Lemma length_le_encode n z : length (le_encode n z) = n.
Proof. revert z. induction n; intros; cbn; auto. Qed.

Lemma zlen_le_encode n z : zlen (le_encode n z) = Z.of_nat n.
Proof. unfold zlen. by rewrite length_le_encode. Qed.

Lemma le_encode_ok n z : bytes_ok (le_encode n z).
Proof.
  revert z. induction n; intros; cbn; constructor; auto.
  apply Z.mod_pos_bound. lia.
Qed.

Lemma pow256_S n : 256 ^ Z.of_nat (S n) = 256 * 256 ^ Z.of_nat n.
Proof. rewrite Nat2Z.inj_succ, Z.pow_succ_r by lia. done. Qed.

Lemma le_decode_encode n z : le_decode (le_encode n z) = z mod 256 ^ Z.of_nat n.
Proof.
  revert z. induction n as [|n IH]; intros z.
  - cbn. by rewrite Z.mod_1_r.
  - cbn [le_encode le_decode]. rewrite IH, pow256_S.
    rewrite Z.rem_mul_r by lia. lia.
Qed.

Lemma le_decode_encode_small n z :
  0 <= z < 256 ^ Z.of_nat n -> le_decode (le_encode n z) = z.
Proof. intros. rewrite le_decode_encode. by apply Z.mod_small. Qed.

Lemma le_decode_bound l : bytes_ok l -> 0 <= le_decode l < 256 ^ zlen l.
Proof.
  induction 1 as [|b l Hb _ IH]; [by split|].
  unfold zlen in *. cbn [le_decode length]. rewrite pow256_S. unfold byte_ok in Hb. nia.
Qed.

Lemma le_encode_decode l : bytes_ok l -> le_encode (length l) (le_decode l) = l.
Proof.
  induction 1 as [|b l Hb _ IH]; [done|]. cbn [length le_encode le_decode].
  unfold byte_ok in Hb.
  assert ((b + 256 * le_decode l) mod 256 = b) as ->.
  { rewrite Z.mul_comm, Z.mod_add by lia. by apply Z.mod_small. }
  assert ((b + 256 * le_decode l) / 256 = le_decode l) as ->.
  { rewrite Z.mul_comm, Z.div_add by lia. rewrite Z.div_small by lia. lia. }
  by rewrite IH.
Qed.

(** The bytes above a number are zero. *)
Lemma le_encode_high n m z :
  0 <= z < 256 ^ Z.of_nat n -> le_encode (n + m) z = le_encode n z ++ replicate m 0.
Proof.
  revert z. induction n as [|n IH]; intros z Hz.
  - change (256 ^ Z.of_nat 0) with 1 in Hz. assert (z = 0) as -> by lia.
    cbn [Nat.add le_encode app]. clear. induction m as [|m IH]; [done|].
    cbn [le_encode replicate]. by rewrite Z.mod_0_l, Z.div_0_l, IH by lia.
  - cbn [Nat.add le_encode app]. f_equal. apply IH.
    rewrite pow256_S in Hz. split; [by apply Z.div_pos; lia|]. by apply Z.div_lt_upper_bound; lia.
Qed.

Lemma le_decode_app l k : le_decode (l ++ k) = le_decode l + 256 ^ zlen l * le_decode k.
Proof.
  induction l as [|b l IH]; [unfold zlen; cbn [app le_decode length]; change (256 ^ Z.of_nat 0) with 1; lia|].
  cbn [app le_decode]. rewrite IH. unfold zlen. cbn [length]. rewrite pow256_S. lia.
Qed.

(** ** Machine-width integers *)

Definition INT_MAX : Z := 2 ^ 31 - 1.
Definition INT_MIN : Z := - 2 ^ 31.
Definition INT64_MAX : Z := 2 ^ 63 - 1.
Definition INT64_MIN : Z := - 2 ^ 63.

(** Conversion to [uint32_t], [uint64_t], [int64_t] and [int]. *)
Definition to_u32 (z : Z) : Z := z mod 2 ^ 32.
Definition to_u64 (z : Z) : Z := z mod 2 ^ 64.
Definition to_i64 (z : Z) : Z := (z + 2 ^ 63) mod 2 ^ 64 - 2 ^ 63.
Definition to_i32 (z : Z) : Z := (z + 2 ^ 31) mod 2 ^ 32 - 2 ^ 31.

Lemma to_i64_id z : INT64_MIN <= z <= INT64_MAX -> to_i64 z = z.
Proof.
  unfold to_i64, INT64_MIN, INT64_MAX. intros.
  rewrite Z.mod_small; lia.
Qed.
Lemma to_u32_id z : 0 <= z < 2 ^ 32 -> to_u32 z = z.
Proof. intros. by apply Z.mod_small. Qed.
Lemma to_u64_id z : 0 <= z < 2 ^ 64 -> to_u64 z = z.
Proof. intros. by apply Z.mod_small. Qed.

(** ** Facts about bytes by enumeration *)

Lemma byte_enum (P : Z -> bool) :
  forallb P (seqZ 0 256) = true -> forall b, byte_ok b -> P b = true.
Proof.
  rewrite forallb_forall. intros H b Hb. apply H, list_elem_of_In, elem_of_seqZ.
  unfold byte_ok in Hb. lia.
Qed.

Lemma byte_high_bit b : byte_ok b -> (Z.land b 0x80 =? 0) = (b <? 128).
Proof. intros Hb. apply eqb_true_iff. revert b Hb. by apply byte_enum. Qed.

Lemma byte_low_bits b : byte_ok b -> Z.land b 0x7f = b mod 128.
Proof. intros Hb. apply Z.eqb_eq. revert b Hb. by apply byte_enum. Qed.

Lemma land_ff z : Z.land z 0xff = z mod 256.
Proof. change 0xff with (Z.ones 8). by rewrite Z.land_ones. Qed.

Lemma shiftr_8 z : Z.shiftr z 8 = z / 256.
Proof. by rewrite Z.shiftr_div_pow2. Qed.

(** Disjoint bit fields add up. *)
Lemma lor_shiftl_add r b k : 0 <= k -> 0 <= r < 2 ^ k -> Z.lor r (Z.shiftl b k) = r + 2 ^ k * b.
Proof.
  intros Hk Hr. rewrite Z.shiftl_mul_pow2 by done. rewrite (Z.mul_comm _ b).
  assert (Z.land r (b * 2 ^ k) = 0) as Hland.
  { apply Z.bits_inj'. intros i Hi. rewrite Z.land_spec, Z.bits_0.
    destruct (decide (i < k)).
    - rewrite Z.mul_pow2_bits_low by done. apply andb_false_r.
    - rewrite <-(Z.mod_small r (2 ^ k)) by done.
      rewrite Z.mod_pow2_bits_high by lia. done. }
  pose proof (Z.add_lor_land r (b * 2 ^ k)). lia.
Qed.

(** Clearing the top bit of a number of [p + 1] bits. *)
Lemma clear_top_bit a p :
  0 <= p -> 2 ^ p <= a < 2 ^ (p + 1) -> Z.land a (Z.lnot (2 ^ p)) = a - 2 ^ p.
Proof.
  intros Hp Ha. rewrite <-Z.ldiff_land. symmetry. apply Z.sub_nocarry_ldiff.
  apply Z.bits_inj'. intros i Hi. rewrite Z.ldiff_spec, Z.bits_0.
  rewrite Z.pow2_bits_eqb by done. destruct (Z.eqb_spec p i) as [<-|]; [|done].
  assert (Z.testbit a p = true) as ->; [|done].
  apply Z.testbit_true; [done|].
  replace (a / 2 ^ p) with 1; [done|].
  rewrite Z.pow_add_r in Ha by lia.
  apply Z.div_unique with (a - 2 ^ p); lia.
Qed.

(** Lists seen from the back, as C++ vectors are. *)
Lemma last_snoc {A} (l : list A) x d : List.last (l ++ [x]) d = x.
Proof. apply List.last_last. Qed.

Lemma removelast_snoc {A} (l : list A) x : removelast (l ++ [x]) = l.
Proof. apply List.removelast_last. Qed.

Lemma snoc_inv {A} (l : list A) : l = [] \/ exists k x, l = k ++ [x].
Proof. destruct l using rev_ind; [by left | right; eauto]. Qed.

#[export] Hint Rewrite @last_snoc @removelast_snoc : zlen.
