(* ===== verification/ScriptNum.v ===== *)
(** * CScriptNum

    The numbers of the script machine ([class CScriptNum] of
    [script/script.h]): the byte encoding, the minimality check of the
    constructor, the saturating conversion [getint] and the arithmetic with
    its assertions.  A [CScriptNum] is its field [m_value], an [int64_t]. *)

From S2P Require Import Prelude.

Local Open Scope Z_scope.

(** ** Decoding *)

Definition nMaxNumSize : Z := 4.

(** The loop of [set_vch]: [result |= (int64_t)vch[i] << 8*i]. *)
Fixpoint set_vch_loop (i : Z) (vch : valtype) (result : Z) : Z :=
  match vch with
  | [] => result
  | b :: vch => set_vch_loop (i + 1) vch (Z.lor result (Z.shiftl b (8 * i)))
  end.

(** [set_vch]: called on at most [nMaxNumSize] bytes, so no shift leaves the
    64 bits of the result. *)
Definition set_vch (vch : valtype) : Z :=
  match vch with
  | [] => 0
  | _ =>
    let result := set_vch_loop 0 vch 0 in
    if negb (Z.land (List.last vch 0) 0x80 =? 0)
    then - Z.land result (Z.lnot (Z.shiftl 0x80 (8 * (zlen vch - 1))))
    else result
  end.

(** The minimality test of the constructor: [true] when it throws. *)
Definition non_minimal (vch : valtype) : bool :=
  (Z.land (List.last vch 0) 0x7f =? 0) &&
  ((zlen vch <=? 1) || (Z.land (byte_at vch (zlen vch - 2)) 0x80 =? 0)).

(** [CScriptNum(vch, fRequireMinimal)]: throws [scriptnum_error]. *)
Definition CScriptNum {E} (vch : valtype) (fRequireMinimal : bool) : outcome E Z :=
  _ ← throw_if (nMaxNumSize <? zlen vch);
  _ ← throw_if (fRequireMinimal && (0 <? zlen vch) && non_minimal vch);
  mret (set_vch vch).

(** ** Encoding *)

(** [while (absvalue) { result.push_back(absvalue & 0xff); absvalue >>= 8; }];
    eight rounds exhaust a [uint64_t]. *)
Fixpoint serialize_abs (fuel : nat) (absvalue : Z) : valtype :=
  match fuel with
  | O => []
  | S fuel =>
    if absvalue =? 0 then []
    else Z.land absvalue 0xff :: serialize_abs fuel (Z.shiftr absvalue 8)
  end.

(** [result.back() |= 0x80] *)
Definition or_back (l : valtype) (m : Z) : valtype :=
  removelast l ++ [Z.lor (List.last l 0) m].

(** [CScriptNum::serialize] *)
Definition serialize (value : Z) : valtype :=
  if value =? 0 then []
  else
    let neg := value <? 0 in
    let absvalue := if neg then - value else value in
    let result := serialize_abs 8 absvalue in
    if negb (Z.land (List.last result 0) 0x80 =? 0)
    then result ++ [if neg then 0x80 else 0]
    else if neg then or_back result 0x80
    else result.

(** [getint]: saturates to the range of [int]. *)
Definition getint (m_value : Z) : Z :=
  if INT_MAX <? m_value then INT_MAX
  else if m_value <? INT_MIN then INT_MIN
  else m_value.

(** ** Arithmetic *)

(** [operator-()]: [assert(m_value != INT64_MIN)]. *)
Definition num_neg {E} (m_value : Z) : outcome E Z :=
  _ ← assert_that (negb (m_value =? INT64_MIN));
  mret (- m_value).

(** [operator+=] with its overflow assertion. *)
Definition num_add_assign {E} (m_value rhs : Z) : outcome E Z :=
  _ ← assert_that ((rhs =? 0) || ((0 <? rhs) && (m_value <=? INT64_MAX - rhs))
                 || ((rhs <? 0) && (INT64_MIN - rhs <=? m_value)));
  mret (m_value + rhs).

(** [operator-=] with its overflow assertion. *)
Definition num_sub_assign {E} (m_value rhs : Z) : outcome E Z :=
  _ ← assert_that ((rhs =? 0) || ((0 <? rhs) && (INT64_MIN + rhs <=? m_value))
                 || ((rhs <? 0) && (m_value <=? INT64_MAX + rhs)));
  mret (m_value - rhs).

(** [operator+] and [operator-]: no assertion, the machine's 64-bit result. *)
Definition num_add (a b : Z) : Z := to_i64 (a + b).
Definition num_sub (a b : Z) : Z := to_i64 (a - b).

(** ** The encoding as little-endian sign and magnitude *)

Lemma set_vch_loop_spec vch i result :
  0 <= i -> 0 <= result < 2 ^ (8 * i) -> bytes_ok vch ->
  set_vch_loop i vch result = result + 2 ^ (8 * i) * le_decode vch.
Proof.
  intros Hi Hr Hv. revert i result Hi Hr.
  induction Hv as [|b vch Hb Hv IH]; intros i result Hi Hr; cbn [set_vch_loop le_decode]; [lia|].
  rewrite lor_shiftl_add by lia.
  assert (2 ^ (8 * (i + 1)) = 256 * 2 ^ (8 * i)) as Hp.
  { rewrite Z.mul_add_distr_l, Z.pow_add_r by lia. change (2 ^ (8 * 1)) with 256. lia. }
  unfold byte_ok in Hb. rewrite IH; rewrite ?Hp; nia.
Qed.

Lemma pow256_pow2 n : 0 <= n -> 256 ^ n = 2 ^ (8 * n).
Proof. intros. change 256 with (2 ^ 8). by rewrite <-Z.pow_mul_r by lia. Qed.

Lemma set_vch_snoc l m :
  bytes_ok (l ++ [m]) ->
  set_vch (l ++ [m]) =
    if m <? 128 then le_decode l + 256 ^ zlen l * m
    else - (le_decode l + 256 ^ zlen l * (m - 128)).
Proof.
  intros Hok. pose proof Hok as Hok'. apply Forall_app in Hok' as [Hl Hm].
  apply Forall_inv in Hm. pose proof (le_decode_bound _ Hl) as Hb.
  assert (set_vch (l ++ [m]) =
    if negb (Z.land m 0x80 =? 0)
    then - Z.land (set_vch_loop 0 (l ++ [m]) 0) (Z.lnot (Z.shiftl 0x80 (8 * (zlen (l ++ [m]) - 1))))
    else set_vch_loop 0 (l ++ [m]) 0) as ->.
  { unfold set_vch. rewrite last_snoc. by destruct l. }
  autorewrite with zlen. rewrite set_vch_loop_spec by (done || (cbn; lia)).
  rewrite le_decode_app. cbn [le_decode]. rewrite byte_high_bit by done.
  rewrite Z.mul_0_r. change (2 ^ 0) with 1. unfold byte_ok in Hm.
  destruct (Z.ltb_spec m 128); cbn [negb]; [lia|]. f_equal.
  rewrite Z.shiftl_mul_pow2 by (pose proof (zlen_nonneg l); lia).
  replace (8 * (zlen l + (1 + 0) - 1)) with (8 * zlen l) by lia.
  pose proof (zlen_nonneg l). rewrite pow256_pow2 in * by done.
  assert (0x80 * 2 ^ (8 * zlen l) = 2 ^ (8 * zlen l + 7)) as ->
    by (rewrite Z.pow_add_r by lia; change (2 ^ 7) with 128; lia).
  rewrite clear_top_bit; [|lia|].
  - rewrite Z.pow_add_r by lia. change (2 ^ 7) with 128. lia.
  - rewrite <-Z.add_assoc, !(Z.pow_add_r 2 (8 * zlen l)) by lia.
    change (2 ^ 7) with 128. change (2 ^ (7 + 1)) with 256. nia.
Qed.

Lemma serialize_abs_decode n l :
  bytes_ok l -> (length l <= n)%nat -> List.last l 1 <> 0 ->
  serialize_abs n (le_decode l) = l.
Proof.
  intros Hl. revert n. induction Hl as [|b l Hb Hl IH]; intros n Hn Hlast.
  - destruct n; reflexivity.
  - cbn [length] in Hn. destruct n as [|n]; [lia|]. cbn [le_decode serialize_abs].
    pose proof (le_decode_bound _ Hl) as Hbd. unfold byte_ok in Hb.
    rewrite land_ff, shiftr_8.
    assert (l = [] \/ 0 < le_decode l) as Hpos.
    { destruct l as [|c l]; [by left|right]. assert (le_decode (c :: l) <> 0); [|lia].
      intros E. specialize (IH (length (c :: l)) ltac:(lia) Hlast). rewrite E in IH. discriminate. }
    assert (b + 256 * le_decode l <> 0) as Hnz.
    { destruct Hpos as [->|]; [|lia]. cbn in Hlast |- *. lia. }
    rewrite (proj2 (Z.eqb_neq _ _) Hnz).
    assert ((b + 256 * le_decode l) mod 256 = b) as ->
      by (rewrite Z.mul_comm, Z.mod_add by lia; apply Z.mod_small; lia).
    assert ((b + 256 * le_decode l) / 256 = le_decode l) as ->
      by (rewrite Z.mul_comm, Z.div_add by lia; rewrite Z.div_small by lia; lia).
    f_equal. apply IH; [lia|]. destruct l; [done|exact Hlast].
Qed.

(** Every magnitude has a canonical digit list, the one [serialize_abs] finds. *)
Lemma magnitude_digits n a :
  0 <= a < 256 ^ Z.of_nat n ->
  exists l, bytes_ok l /\ (length l <= n)%nat /\ List.last l 1 <> 0 /\ le_decode l = a.
Proof.
  revert a. induction n as [|n IH]; intros a Ha.
  - exists []. cbn. split_and!; [constructor|lia|done|]. change (256 ^ Z.of_nat 0) with 1 in Ha. lia.
  - destruct (decide (a = 0)) as [->|Hnz]; [exists []; cbn; split_and!; [constructor|lia|done|done]|].
    rewrite pow256_S in Ha. pose proof (Z.div_mod a 256 ltac:(lia)) as Hdm.
    pose proof (Z.mod_pos_bound a 256 ltac:(lia)) as Hm.
    destruct (IH (a / 256)) as (l & Hl & Hn & Hlast & Hd).
    { split; [apply Z.div_pos; lia|apply Z.div_lt_upper_bound; lia]. }
    exists (a mod 256 :: l). cbn [length le_decode]. split_and!.
    + constructor; [exact Hm|done].
    + lia.
    + destruct l as [|c l]; [cbn in Hd |- *; lia|exact Hlast].
    + lia.
Qed.

Lemma set_vch_digits l m (neg : bool) :
  bytes_ok (l ++ [m]) -> m < 128 ->
  set_vch (l ++ [if neg then m + 128 else m]) =
    (if neg then - le_decode (l ++ [m]) else le_decode (l ++ [m])).
Proof.
  intros Hok Hm. apply Forall_app in Hok as [Hl Hmok]. apply Forall_inv in Hmok.
  unfold byte_ok in Hmok. rewrite set_vch_snoc, le_decode_app; cbn [le_decode].
  - destruct neg; [rewrite (proj2 (Z.ltb_ge _ _))|rewrite (proj2 (Z.ltb_lt _ _))]; lia.
  - apply Forall_app. split; [done|]. repeat constructor; destruct neg; lia.
Qed.

(** What [serialize] emits for a magnitude with digits [l ++ [m]]. *)
Lemma serialize_digits l m (neg : bool) :
  bytes_ok (l ++ [m]) -> m <> 0 -> (length l < 8)%nat ->
  serialize (if neg then - le_decode (l ++ [m]) else le_decode (l ++ [m])) =
    if m <? 128 then l ++ [if neg then m + 128 else m]
    else l ++ [m] ++ [if neg then 128 else 0].
Proof.
  intros Hok Hm Hlen. set (v := le_decode (l ++ [m])).
  pose proof Hok as Hok'. apply Forall_app in Hok' as [Hl Hmok]. apply Forall_inv in Hmok.
  assert (0 < v) as Hv.
  { unfold v. rewrite le_decode_app. cbn [le_decode]. pose proof (le_decode_bound _ Hl).
    assert (0 < 256 ^ zlen l) by (pose proof (zlen_nonneg l); apply Z.pow_pos_nonneg; lia).
    unfold byte_ok in Hmok. nia. }
  assert (serialize_abs 8 v = l ++ [m]) as Habs.
  { apply serialize_abs_decode; [done|rewrite length_app; cbn; lia|by rewrite last_snoc]. }
  assert (Z.lor m 0x80 = if m <? 128 then m + 128 else m) as Hor.
  { apply Z.eqb_eq. clear -Hmok. revert m Hmok.
    by apply (byte_enum (fun m => Z.lor m 0x80 =? (if m <? 128 then m + 128 else m))). }
  unfold serialize.
  assert (((if neg then - v else v) =? 0) = false) as -> by (destruct neg; lia).
  assert (((if neg then - v else v) <? 0) = neg) as -> by (destruct neg; lia).
  assert ((if neg then - (if neg then - v else v) else (if neg then - v else v)) = v) as ->
    by (destruct neg; lia).
  cbn [snd]. rewrite Habs, last_snoc, byte_high_bit by done. unfold or_back.
  rewrite removelast_snoc, last_snoc, Hor.
  destruct (m <? 128) eqn:E, neg; cbn [negb]; rewrite <-?app_assoc; done.
Qed.

(** Every non-zero 64-bit magnitude is a sign and a digit list. *)
Lemma num_digits n :
  n <> 0 -> Z.abs n < 2 ^ 63 ->
  exists l m neg, bytes_ok (l ++ [m]) /\ m <> 0 /\ (length l < 8)%nat /\
    le_decode (l ++ [m]) = Z.abs n /\
    n = (if neg : bool then - le_decode (l ++ [m]) else le_decode (l ++ [m])).
Proof.
  intros Hn Hb. destruct (magnitude_digits 8 (Z.abs n)) as (d & Hd & Hlen & Hlast & Hv).
  { change (256 ^ Z.of_nat 8) with (2 ^ 64). lia. }
  destruct (snoc_inv d) as [->|(l & m & ->)]; [cbn in Hv; lia|].
  rewrite last_snoc in Hlast. rewrite length_app in Hlen. cbn [length] in Hlen.
  exists l, m, (n <? 0). split_and!; [done|done|lia|done|].
  rewrite Hv. destruct (Z.ltb_spec n 0); lia.
Qed.

Lemma set_vch_serialize n : Z.abs n < 2 ^ 63 -> set_vch (serialize n) = n.
Proof.
  intros Hb. destruct (decide (n = 0)) as [->|Hn]; [done|].
  destruct (num_digits n Hn Hb) as (l & m & neg & Hok & Hm & Hlen & _ & ->).
  rewrite serialize_digits by done. destruct (Z.ltb_spec m 128).
  - by apply set_vch_digits.
  - rewrite app_assoc. replace (if neg then 128 else 0) with (if neg then 0 + 128 else 0) by by destruct neg.
    rewrite set_vch_digits; [|apply Forall_app; split; [done|repeat constructor; lia]|lia].
    rewrite !(le_decode_app (l ++ [m])). cbn [le_decode]. destruct neg; lia.
Qed.

Lemma serialize_bytes_ok n : Z.abs n < 2 ^ 63 -> bytes_ok (serialize n).
Proof.
  intros Hb. destruct (decide (n = 0)) as [->|Hn]; [constructor|].
  destruct (num_digits n Hn Hb) as (l & m & neg & Hok & Hm & Hlen & _ & ->).
  rewrite serialize_digits by done. apply Forall_app in Hok as [Hl Hmok].
  apply Forall_inv in Hmok. unfold byte_ok in *. destruct (Z.ltb_spec m 128).
  - apply Forall_app. split; [done|]. repeat constructor; destruct neg; unfold byte_ok; lia.
  - apply Forall_app. split; [done|]. repeat constructor; destruct neg; unfold byte_ok; lia.
Qed.

(** The encoder's output passes the minimality test. *)
Lemma serialize_minimal n : Z.abs n < 2 ^ 63 -> n <> 0 -> non_minimal (serialize n) = false.
Proof.
  intros Hb Hn. destruct (num_digits n Hn Hb) as (l & m & neg & Hok & Hm & Hlen & _ & ->).
  rewrite serialize_digits by done. apply Forall_app in Hok as [Hl Hmok].
  apply Forall_inv in Hmok. unfold non_minimal. pose proof Hmok as Hmr. unfold byte_ok in Hmr.
  destruct (Z.ltb_spec m 128).
  - rewrite last_snoc, byte_low_bits by (destruct neg; unfold byte_ok; lia).
    assert ((if neg then m + 128 else m) mod 128 = m) as ->.
    { destruct neg; [rewrite <-(Z.mod_small m 128) at 2 by lia|apply Z.mod_small; lia].
      rewrite <-(Z.mul_1_l 128) at 1. apply Z.mod_add. lia. }
    by rewrite (proj2 (Z.eqb_neq _ _) Hm).
  - rewrite app_assoc, last_snoc.
    autorewrite with zlen. unfold byte_at.
    replace (Z.to_nat _) with (length l) by (unfold zlen; lia).
    rewrite <-app_assoc. cbn [app]. rewrite nth_middle, byte_high_bit by done.
    rewrite (proj2 (Z.ltb_ge _ _)) by done.
    rewrite (proj2 (Z.leb_gt _ _)) by zlen_lia. by rewrite andb_false_r.
Qed.

Lemma serialize_length n : Z.abs n < 2 ^ 63 -> zlen (serialize n) <= 9.
Proof.
  intros Hb. destruct (decide (n = 0)) as [->|Hn]; [done|].
  destruct (num_digits n Hn Hb) as (l & m & neg & Hok & Hm & Hlen & _ & ->).
  rewrite serialize_digits by done. destruct (m <? 128); autorewrite with zlen; unfold zlen; lia.
Qed.

(** A magnitude below 2^31 takes at most four bytes. *)
Lemma serialize_short n : Z.abs n < 2 ^ 31 -> zlen (serialize n) <= 4.
Proof.
  intros Hb. destruct (decide (n = 0)) as [->|Hn]; [done|].
  destruct (num_digits n Hn ltac:(lia)) as (l & m & neg & Hok & Hm & Hlen & Habs & Heq).
  rewrite Heq, serialize_digits by done. clear Heq. rewrite le_decode_app in Habs. cbn [le_decode] in Habs.
  apply Forall_app in Hok as [Hl Hmok]. apply Forall_inv in Hmok. unfold byte_ok in Hmok.
  pose proof (le_decode_bound _ Hl) as Hld. pose proof (zlen_nonneg l).
  assert (~ 4 <= zlen l).
  { intros H4. apply (Z.pow_le_mono_r 256) in H4; [|lia]. change (256 ^ 4) with (2 ^ 32) in H4. nia. }
  destruct (Z.ltb_spec m 128); [autorewrite with zlen; lia|].
  assert (~ 3 <= zlen l).
  { intros H3. apply (Z.pow_le_mono_r 256) in H3; [|lia]. change (256 ^ 3) with (2 ^ 24) in H3. nia. }
  autorewrite with zlen. lia.
Qed.

Lemma CScriptNum_range {E} (vch : valtype) (fRequireMinimal : bool) (n : Z)
    (Hok : bytes_ok vch) (Hdec : CScriptNum (E:=E) vch fRequireMinimal = Ok n) :
  Z.abs n < 2 ^ 31.
Proof.
  unfold CScriptNum in Hdec. mon_inv. subst n.
  match goal with H : (_ <? _) = false |- _ => apply Z.ltb_ge in H; unfold nMaxNumSize in H end.
  destruct (snoc_inv vch) as [->|(l & m & ->)]; [done|].
  rewrite set_vch_snoc by done. apply Forall_app in Hok as [Hl Hm]. apply Forall_inv in Hm.
  pose proof (le_decode_bound _ Hl) as Hb. unfold byte_ok in Hm. autorewrite with zlen in *.
  pose proof (zlen_nonneg l).
  assert (256 ^ zlen l <= 2 ^ 24) by (change (2 ^ 24) with (256 ^ 3); apply Z.pow_le_mono_r; lia).
  destruct (Z.ltb_spec m 128); nia.
Qed.

Lemma getint_id n : Z.abs n < 2 ^ 31 -> getint n = n.
Proof.
  intros H. unfold getint, INT_MAX, INT_MIN.
  rewrite (proj2 (Z.ltb_ge _ _)) by lia. by rewrite (proj2 (Z.ltb_ge _ _)) by lia.
Qed.

Lemma CScriptNum_serialize {E} n f : Z.abs n < 2 ^ 31 -> CScriptNum (E:=E) (serialize n) f = Ok n.
Proof.
  intros Hn. unfold CScriptNum, nMaxNumSize. pose proof (serialize_short n Hn).
  assert ((4 <? zlen (serialize n)) = false) as -> by lia.
  assert (f && (0 <? zlen (serialize n)) && non_minimal (serialize n) = false) as ->.
  { destruct (decide (n = 0)) as [->|]; [by rewrite andb_false_r|].
    rewrite serialize_minimal by (done || lia). apply andb_false_r. }
  cbn. by rewrite set_vch_serialize by lia.
Qed.

(** ** Properties *)

(** Whatever integer of the script range is encoded, decoding it with the
    minimality rule on gives it back. *)
Lemma num_roundtrip (n : Z) (fRequireMinimal : bool) (Hn : Z.abs n < 2 ^ 31) :
  CScriptNum (E:=unit) (serialize n) fRequireMinimal = Ok n.
Proof.
  by apply CScriptNum_serialize.
Qed.

(** Under the minimality rule a number has one encoding: a byte vector
    the constructor accepts is the one [serialize] produces. *)
Lemma num_unique (vch : valtype) (n : Z)
    (Hok : bytes_ok vch) (Hdec : CScriptNum (E:=unit) vch true = Ok n) :
  serialize n = vch.
Proof.
  unfold CScriptNum in Hdec. mon_inv. subst n.
  match goal with H : (_ && _ && _) = false |- _ => rename H into Hmin end.
  match goal with H : (_ <? _) = false |- _ => rename H into Hlen end.
  apply Z.ltb_ge in Hlen. unfold nMaxNumSize in Hlen.
  destruct (snoc_inv vch) as [->|(l & m & ->)]; [done|].
  assert (non_minimal (l ++ [m]) = false) as Hnm.
  { rewrite (proj2 (Z.ltb_lt _ _)) in Hmin by zlen_lia. done. }
  clear Hmin. unfold non_minimal in Hnm. rewrite last_snoc in Hnm.
  pose proof Hok as Hok'. apply Forall_app in Hok' as [Hl Hm]. apply Forall_inv in Hm.
  rewrite byte_low_bits in Hnm by done. autorewrite with zlen in *.
  assert (m mod 128 = if m <? 128 then m else m - 128) as Hmod.
  { apply Z.eqb_eq. clear -Hm. revert m Hm.
    by apply (byte_enum (fun m => m mod 128 =? (if m <? 128 then m else m - 128))). }
  unfold byte_ok in Hm. destruct (Z.eqb_spec (m mod 128) 0) as [Hz|Hnz]; cycle 1.
  - (* the last digit carries magnitude bits *)
    set (m' := if m <? 128 then m else m - 128) in *.
    assert (m = if negb (m <? 128) then m' + 128 else m') as Hmm
      by (unfold m'; destruct (Z.ltb_spec m 128); cbn; lia).
    assert (bytes_ok (l ++ [m'])) as Hok'
      by (apply Forall_app; split; [done|]; repeat constructor; unfold m', byte_ok; destruct (Z.ltb_spec m 128); lia).
    assert (m' < 128) by (unfold m'; destruct (Z.ltb_spec m 128); lia).
    rewrite Hmm. rewrite set_vch_digits by done.
    rewrite serialize_digits; [by rewrite (proj2 (Z.ltb_lt m' 128))|done|congruence|unfold zlen in *; lia].
  - (* a pure sign byte after a digit with its high bit set *)
    cbn [andb] in Hnm.
    destruct (snoc_inv l) as [->|(l2 & k & ->)]; [discriminate|].
    apply orb_false_iff in Hnm as [_ Hk]. autorewrite with zlen in *. unfold byte_at in Hk.
    replace (Z.to_nat _) with (length l2) in Hk by (unfold zlen; lia).
    rewrite <-app_assoc in Hk. cbn [app] in Hk. rewrite nth_middle in Hk.
    pose proof Hl as Hl'. apply Forall_app in Hl' as [Hl2 Hkok]. apply Forall_inv in Hkok.
    rewrite byte_high_bit in Hk by done. apply Z.ltb_ge in Hk.
    assert (exists neg : bool, m = if neg then 0 + 128 else 0) as [neg ->]
      by (exists (negb (m <? 128)); rewrite Hmod in Hz; destruct (Z.ltb_spec m 128); cbn; lia).
    rewrite set_vch_digits; [|apply Forall_app; split; [done|repeat constructor; lia]|lia].
    rewrite (le_decode_app (l2 ++ [k]) [0]). cbn [le_decode].
    replace (256 ^ zlen (l2 ++ [k]) * (0 + 256 * 0)) with 0 by lia. rewrite Z.add_0_r.
    rewrite serialize_digits; [|done|lia|unfold zlen in *; lia].
    rewrite (proj2 (Z.ltb_ge _ _)) by done. by rewrite <-app_assoc; destruct neg.
Qed.

(** Script numbers are a codec.  Under the minimality rule a byte vector is
    accepted as the number [n] exactly when [n] is in the script range and the
    vector is the one [serialize] writes; without the rule the encoding of [n]
    is still read as [n]. *)
Theorem CScriptNum_codec (vch : valtype) (n : Z) (Hok : bytes_ok vch) :
  (CScriptNum (E:=unit) vch true = Ok n <-> Z.abs n < 2 ^ 31 /\ vch = serialize n) /\
  (Z.abs n < 2 ^ 31 -> CScriptNum (E:=unit) (serialize n) false = Ok n).
Proof.
  split; [split|]; [|by intros [? ->]; apply CScriptNum_serialize|by apply CScriptNum_serialize].
  intros H. split; [by eapply CScriptNum_range|]. symmetry. by apply num_unique.
Qed.

Lemma CScriptNum_codec_witness :
  CScriptNum (E:=unit) [0xff; 0x80] true = Ok (-255) /\ [0xff; 0x80] = serialize (-255).
Proof.
  split; [reflexivity|]. apply (CScriptNum_codec [0xff; 0x80] (-255)); [repeat constructor; lia|reflexivity].
Defined.
