(* ===== verification/Script.v ===== *)
(** * Scripts as byte vectors

    [class CScript] of [script/script.h] and its members of
    [script/script.cpp]: reading instructions ([GetOp2]), pushing data,
    [FindAndDelete], [Find], signature-operation counting and the shape tests.
    A [const_iterator] into a script is the list of the bytes from it to
    [end()]: [end() - pc] is the length of that list and [*pc++] its head. *)

From S2P Require Import Prelude Opcode ScriptNum.
From stdpp Require Import strings.

Local Open Scope Z_scope.

Definition MAX_SCRIPT_ELEMENT_SIZE : Z := 520.

(** ** Reading instructions *)

(** What [GetOp2] leaves behind: its result, [opcodeRet], [*pvchRet] and the
    advanced iterator (also on failure). *)
Record getop := GetOpRes {
  go_ok : bool;
  go_opcode : opcodetype;
  go_data : valtype;
  go_pc : list Z;
}.

Definition getop_fail (pc : list Z) : getop := GetOpRes false OP_INVALIDOPCODE [] pc.

(** The length operand of a push opcode at [pc]: [nSize] and the iterator
    behind it, or the iterator where the operand is cut off. *)
Definition push_size (opcode : Z) (pc : list Z) : Z * list Z + list Z :=
  if opcode <? 0x4c then inl (opcode, pc)
  else if opcode =? 0x4c then
    (if zlen pc <? 1 then inr pc else inl (byte_at pc 0, drop 1 pc))
  else if opcode =? 0x4d then
    (if zlen pc <? 2 then inr pc else inl (le_decode (take 2 pc), drop 2 pc))
  else
    (if zlen pc <? 4 then inr pc else inl (le_decode (take 4 pc), drop 4 pc)).

(** [GetOp2]: [opcode <= OP_PUSHDATA4] takes an immediate operand. *)
Definition GetOp2 (pc : list Z) : getop :=
  match pc with
  | [] => getop_fail []
  | opcode :: pc =>
    if opcode <=? 0x4e then
      match push_size opcode pc with
      | inr pc => getop_fail pc
      | inl (nSize, pc) =>
        if zlen pc <? nSize then getop_fail pc
        else GetOpRes true (opcode_of_byte opcode)
               (take (Z.to_nat nSize) pc) (drop (Z.to_nat nSize) pc)
      end
    else GetOpRes true (opcode_of_byte opcode) [] pc
  end.

(** ** Building scripts *)

(** [operator<<(opcodetype)] *)
Definition push_op (op : opcodetype) (s : list Z) : list Z := s ++ [op_code op].

(** The bytes [operator<<(const vector<unsigned char>&)] appends. *)
Definition push_data (b : valtype) : list Z :=
  if zlen b <? 0x4c then [zlen b] ++ b
  else if zlen b <=? 0xff then [0x4c; zlen b] ++ b
  else if zlen b <=? 0xffff then [0x4d] ++ le_encode 2 (zlen b) ++ b
  else [0x4e] ++ le_encode 4 (zlen b) ++ b.

(** [push_int64] *)
Definition push_int64 (n : Z) : list Z :=
  if (n =? -1) || ((1 <=? n) && (n <=? 16)) then [n + (0x51 - 1)]
  else if n =? 0 then [0x00]
  else push_data (serialize n).

(** [DecodeOP_N] and [EncodeOP_N] with their assertions. *)
Definition DecodeOP_N {E} (opcode : opcodetype) : outcome E Z :=
  if op_eqb opcode OP_0 then mret 0
  else
    _ ← assert_that (op_leb OP_1 opcode && op_leb opcode OP_16);
    mret (op_code opcode - (op_code OP_1 - 1)).

Definition EncodeOP_N {E} (n : Z) : outcome E opcodetype :=
  _ ← assert_that ((0 <=? n) && (n <=? 16));
  if n =? 0 then mret OP_0 else mret (opcode_of_byte (op_code OP_1 + n - 1)).

(** ** Scanning scripts *)

(** [end() - pc >= b.size() && memcmp(&pc[0], &b[0], b.size()) == 0] *)
Definition starts_with (b pc : list Z) : bool :=
  bool_decide (take (length b) pc = b).

(** The bytes between an iterator and a later one. *)
Definition consumed (pc pc' : list Z) : list Z := take (length pc - length pc') pc.

(** [FindAndDelete] from the iterator [pc] on: the number of deletions and the
    script from [pc] on afterwards.  Each round deletes an occurrence of [b]
    at [pc] or steps over one instruction. *)
Fixpoint FindAndDelete_loop (fuel : nat) (b pc : list Z) : Z * list Z :=
  match fuel with
  | O => (0, pc)
  | S fuel =>
    if starts_with b pc then
      let '(nFound, rest) := FindAndDelete_loop fuel b (drop (length b) pc) in
      (1 + nFound, rest)
    else
      let g := GetOp2 pc in
      if go_ok g then
        let '(nFound, rest) := FindAndDelete_loop fuel b (go_pc g) in
        (nFound, consumed pc (go_pc g) ++ rest)
      else (0, pc)
  end.

Definition FindAndDelete (script b : list Z) : Z * list Z :=
  match b with
  | [] => (0, script)
  | _ => FindAndDelete_loop (S (length script)) b script
  end.

(** [Find] *)
Fixpoint Find_loop (fuel : nat) (op : opcodetype) (pc : list Z) : Z :=
  match fuel with
  | O => 0
  | S fuel =>
    match pc with
    | [] => 0
    | _ =>
      let g := GetOp2 pc in
      if go_ok g then
        (if op_eqb (go_opcode g) op then 1 else 0) + Find_loop fuel op (go_pc g)
      else 0
    end
  end.

Definition Find (script : list Z) (op : opcodetype) : Z := Find_loop (length script) op script.

(** [GetSigOpCount(bool)]: [n] is an [unsigned int]. *)
Fixpoint SigOpCount_loop {E} (fuel : nat) (fAccurate : bool)
    (lastOpcode : opcodetype) (n : Z) (pc : list Z) : outcome E Z :=
  match fuel, pc with
  | O, _ | _, [] => mret n
  | S fuel, _ =>
    let g := GetOp2 pc in
    if negb (go_ok g) then mret n
    else
      let opcode := go_opcode g in
      n' ← (if op_eqb opcode OP_CHECKSIG || op_eqb opcode OP_CHECKSIGVERIFY then
              mret (to_u32 (n + 1))
            else if op_eqb opcode OP_CHECKMULTISIG || op_eqb opcode OP_CHECKMULTISIGVERIFY then
              if fAccurate && op_leb OP_1 lastOpcode && op_leb lastOpcode OP_16 then
                k ← DecodeOP_N lastOpcode; mret (to_u32 (n + k))
              else mret (to_u32 (n + 20))
            else mret n);
      SigOpCount_loop fuel fAccurate opcode n' (go_pc g)
  end.

Definition GetSigOpCount {E} (script : list Z) (fAccurate : bool) : outcome E Z :=
  SigOpCount_loop (length script) fAccurate OP_INVALIDOPCODE 0 script.

(** [IsPayToScriptHash] *)
Definition IsPayToScriptHash (script : list Z) : bool :=
  (zlen script =? 23) && (byte_at script 0 =? op_code OP_HASH160) &&
  (byte_at script 1 =? 0x14) && (byte_at script 22 =? op_code OP_EQUAL).

(** The scan of [GetSigOpCount(const CScript&)] over [scriptSig]: the last
    pushed datum, or [None] where the method returns 0. *)
Fixpoint last_push (fuel : nat) (data : valtype) (pc : list Z) : option valtype :=
  match fuel, pc with
  | O, _ | _, [] => Some data
  | S fuel, _ =>
    let g := GetOp2 pc in
    if negb (go_ok g) then None
    else if op_gtb (go_opcode g) OP_16 then None
    else last_push fuel (go_data g) (go_pc g)
  end.

(** [GetSigOpCount(const CScript& scriptSig)] *)
Definition GetSigOpCount_P2SH {E} (script scriptSig : list Z) : outcome E Z :=
  if negb (IsPayToScriptHash script) then GetSigOpCount script true
  else
    match last_push (length scriptSig) [] scriptSig with
    | None => mret 0
    | Some subscript => GetSigOpCount subscript true
    end.

(** [IsPushOnly] *)
Fixpoint IsPushOnly_loop (fuel : nat) (pc : list Z) : bool :=
  match fuel, pc with
  | O, _ | _, [] => true
  | S fuel, _ =>
    let g := GetOp2 pc in
    if negb (go_ok g) then false
    else if op_gtb (go_opcode g) OP_16 then false
    else IsPushOnly_loop fuel (go_pc g)
  end.

Definition IsPushOnly (script : list Z) : bool := IsPushOnly_loop (length script) script.

(** [IsUnspendable] *)
Definition IsUnspendable (script : list Z) : bool :=
  (0 <? zlen script) && (byte_at script 0 =? op_code OP_RETURN).

(** The push tests of [HasCanonicalPushes]: [true] when the push is rejected. *)
Definition non_canonical_push (opcode : opcodetype) (data : valtype) : bool :=
  (op_gtb OP_PUSHDATA1 opcode && op_gtb opcode OP_0 &&
     ((zlen data =? 1) && (byte_at data 0 <=? 16)))
  || (op_eqb opcode OP_PUSHDATA1 && (zlen data <? op_code OP_PUSHDATA1))
  || (op_eqb opcode OP_PUSHDATA2 && (zlen data <=? 0xFF))
  || (op_eqb opcode OP_PUSHDATA4 && (zlen data <=? 0xFFFF)).

(** [HasCanonicalPushes] *)
Fixpoint HasCanonicalPushes_loop (fuel : nat) (pc : list Z) : bool :=
  match fuel, pc with
  | O, _ | _, [] => true
  | S fuel, _ =>
    let g := GetOp2 pc in
    if negb (go_ok g) then false
    else if op_gtb (go_opcode g) OP_16 then HasCanonicalPushes_loop fuel (go_pc g)
    else if non_canonical_push (go_opcode g) (go_data g) then false
    else HasCanonicalPushes_loop fuel (go_pc g)
  end.

Definition HasCanonicalPushes (script : list Z) : bool :=
  HasCanonicalPushes_loop (length script) script.

(** [SetMultisig]: [CPubKey]s are byte vectors here; [operator<<] asserts
    their size is below [OP_PUSHDATA1]. *)
Definition push_pubkey {E} (key : valtype) (s : list Z) : outcome E (list Z) :=
  _ ← assert_that (zlen key <? op_code OP_PUSHDATA1);
  mret (s ++ [zlen key] ++ key).

Fixpoint push_pubkeys {E} (keys : list valtype) (s : list Z) : outcome E (list Z) :=
  match keys with
  | [] => mret s
  | key :: keys => s' ← push_pubkey key s; push_pubkeys keys s'
  end.

Definition SetMultisig {E} (nRequired : Z) (keys : list valtype) : outcome E (list Z) :=
  m ← EncodeOP_N nRequired;
  s ← push_pubkeys keys (push_op m []);
  n ← EncodeOP_N (zlen keys);
  mret (push_op OP_CHECKMULTISIG (push_op n s)).

(** [IsNormalPaymentScript]: the result of [GetOp] is not looked at. *)
Fixpoint IsNormalPaymentScript_loop (fuel : nat) (i : Z) (pc : list Z) : bool :=
  match fuel, pc with
  | O, _ | _, [] => true
  | S fuel, _ =>
    let g := GetOp2 pc in
    let opcode := go_opcode g in
    if (i =? 0) && negb (op_eqb opcode OP_DUP) then false
    else if (i =? 1) && negb (op_eqb opcode OP_HASH160) then false
    else if (i =? 3) && negb (op_eqb opcode OP_EQUALVERIFY) then false
    else if (i =? 4) && negb (op_eqb opcode OP_CHECKSIG) then false
    else if i =? 5 then false
    else IsNormalPaymentScript_loop fuel (i + 1) (go_pc g)
  end.

Definition IsNormalPaymentScript (script : list Z) : bool :=
  if negb (zlen script =? 25) then false
  else IsNormalPaymentScript_loop (length script) 0 script.
