(* ===== verification/ScriptFacts.v ===== *)
(** * Facts about scripts

    The instruction view of a script: every script is a sequence of complete
    instructions followed by a tail [GetOp] cannot read.  The scanning loops
    of [Script] are related to it. *)

From S2P Require Import Prelude Opcode ScriptNum Script.

Local Open Scope Z_scope.

(** ** One instruction *)

(** [chunk] is one complete instruction: [GetOp] reads exactly it, whatever
    follows. *)
Definition instr (chunk : list Z) (op : opcodetype) (data : valtype) : Prop :=
  chunk <> [] /\ forall r, GetOp2 (chunk ++ r) = GetOpRes true op data r.

Lemma push_size_ok opcode pc n pc1 :
  push_size opcode pc = inl (n, pc1) ->
  exists hdr, pc = hdr ++ pc1 /\ forall r, push_size opcode (hdr ++ r) = inl (n, r).
Proof.
  unfold push_size. intros H. repeat case_match; simplify_eq.
  - by exists [].
  - destruct pc as [|x pc]; [discriminate|]. exists [x]. split; [done|]. intros r.
    by rewrite (proj2 (Z.ltb_ge _ _)) by zlen_lia.
  - destruct pc as [|x [|y pc]]; [discriminate..|]. exists [x; y]. split; [done|]. intros r.
    by rewrite (proj2 (Z.ltb_ge _ _)) by zlen_lia.
  - destruct pc as [|x [|y [|z [|t pc]]]]; [discriminate..|]. exists [x; y; z; t]. split; [done|].
    intros r. by rewrite (proj2 (Z.ltb_ge _ _)) by zlen_lia.
Qed.

Lemma GetOp2_instr pc :
  go_ok (GetOp2 pc) = true ->
  exists chunk, pc = chunk ++ go_pc (GetOp2 pc) /\
    instr chunk (go_opcode (GetOp2 pc)) (go_data (GetOp2 pc)).
Proof.
  unfold GetOp2. destruct pc as [|opcode pc]; [discriminate|].
  destruct (opcode <=? 0x4e) eqn:Hop; cycle 1.
  { intros _. exists [opcode]. split; [done|]. split; [done|]. intros r. cbn.
    by rewrite Hop. }
  destruct (push_size opcode pc) as [[n pc1]|] eqn:Hp; [|discriminate].
  destruct (zlen pc1 <? n) eqn:Hn; [discriminate|]. intros _. cbn.
  destruct (push_size_ok _ _ _ _ Hp) as (hdr & -> & Hhdr).
  exists (opcode :: hdr ++ take (Z.to_nat n) pc1). split.
  { cbn. by rewrite <-app_assoc, take_drop. }
  split; [done|]. intros r. cbn. rewrite Hop, <-app_assoc, Hhdr.
  apply Z.ltb_ge in Hn.
  assert (length (take (Z.to_nat n) pc1) = Z.to_nat n) as Hlen
    by (rewrite length_take; unfold zlen in Hn; lia).
  rewrite (proj2 (Z.ltb_ge _ _)) by (autorewrite with zlen; unfold zlen; lia).
  rewrite take_app_length', drop_app_length' by done. done.
Qed.

Lemma GetOp2_shorter pc :
  go_ok (GetOp2 pc) = true -> (length (go_pc (GetOp2 pc)) < length pc)%nat.
Proof.
  intros H. destruct (GetOp2_instr _ H) as (chunk & Hpc & Hne & _).
  rewrite Hpc at 2. rewrite length_app. destruct chunk; [done|cbn; lia].
Qed.

Lemma instr_GetOp2 chunk op data r :
  instr chunk op data -> GetOp2 (chunk ++ r) = GetOpRes true op data r.
Proof. intros [_ H]. apply H. Qed.

Lemma instr_det c1 c2 op1 op2 d1 d2 r1 r2 :
  instr c1 op1 d1 -> instr c2 op2 d2 -> c1 ++ r1 = c2 ++ r2 -> c1 = c2 /\ r1 = r2.
Proof.
  intros H1 H2 E. pose proof (instr_GetOp2 _ _ _ r1 H1) as G1.
  rewrite E, (instr_GetOp2 _ _ _ r2 H2) in G1. injection G1 as _ _ <-.
  by apply app_inv_tail in E.
Qed.

Lemma consumed_app chunk r : consumed (chunk ++ r) r = chunk.
Proof. unfold consumed. rewrite length_app. apply take_app_length'. lia. Qed.

Lemma opcode_instr b : 0x4e < b -> instr [b] (opcode_of_byte b) [].
Proof.
  intros Hb. split; [done|]. intros r. cbn. by rewrite (proj2 (Z.leb_gt _ _)).
Qed.

(** The opcode of the push [operator<<] chooses for [b]. *)
Definition push_opcode (b : valtype) : opcodetype :=
  if zlen b <? 0x4c then opcode_of_byte (zlen b)
  else if zlen b <=? 0xff then OP_PUSHDATA1
  else if zlen b <=? 0xffff then OP_PUSHDATA2
  else OP_PUSHDATA4.

Lemma push_opcode_range b : 0 <= op_code (push_opcode b) <= 0x4e.
Proof.
  unfold push_opcode. pose proof (zlen_nonneg b). repeat case_match; rewrite ?op_code_of_byte; cbn; lia.
Qed.

(** A push of data is one instruction that reads back as the data. *)
Lemma push_data_instr b : zlen b < 2 ^ 32 -> instr (push_data b) (push_opcode b) b.
Proof.
  intros Hb. pose proof (zlen_nonneg b). unfold push_data, push_opcode.
  assert (forall r, take (Z.to_nat (zlen b)) (b ++ r) = b /\ drop (Z.to_nat (zlen b)) (b ++ r) = r) as Htd.
  { intros r. unfold zlen. rewrite Nat2Z.id, take_app_length, drop_app_length. done. }
  assert (forall r, (zlen (b ++ r) <? zlen b) = false) as Hlt.
  { intros r. apply Z.ltb_ge. autorewrite with zlen. pose proof (zlen_nonneg r). lia. }
  destruct (Z.ltb_spec (zlen b) 0x4c); [|destruct (Z.leb_spec (zlen b) 0xff);
    [|destruct (Z.leb_spec (zlen b) 0xffff)]].
  - split; [done|]. intros r. cbn [app GetOp2]. rewrite (proj2 (Z.leb_le _ _)) by lia.
    unfold push_size. rewrite (proj2 (Z.ltb_lt _ _)) by done.
    destruct (Htd r) as [Ht Hd]. by rewrite Hlt, Ht, Hd.
  - split; [done|]. intros r. cbn [app GetOp2].
    change (0x4c <=? 0x4e) with true. cbn match. unfold push_size.
    change (0x4c <? 0x4c) with false. change (0x4c =? 0x4c) with true. cbn match.
    autorewrite with zlen. rewrite (proj2 (Z.ltb_ge _ _)) by (pose proof (zlen_nonneg r); lia).
    change (drop 1 (zlen b :: b ++ r)) with (b ++ r).
    change (byte_at (zlen b :: b ++ r) 0) with (zlen b).
    destruct (Htd r) as [Ht Hd]. by rewrite Hlt, Ht, Hd.
  - split; [done|]. intros r. cbn [app GetOp2].
    change (0x4d <=? 0x4e) with true. cbn match. unfold push_size.
    change (0x4d <? 0x4c) with false. change (0x4d =? 0x4c) with false.
    change (0x4d =? 0x4d) with true. cbn match. rewrite <-app_assoc.
    rewrite (proj2 (Z.ltb_ge _ _))
      by (autorewrite with zlen; rewrite zlen_le_encode; pose proof (zlen_nonneg r); lia).
    rewrite take_app_length', drop_app_length' by (by rewrite length_le_encode).
    rewrite le_decode_encode_small by (change (256 ^ Z.of_nat 2) with 65536; lia).
    destruct (Htd r) as [Ht Hd]. by rewrite Hlt, Ht, Hd.
  - split; [done|]. intros r. cbn [app GetOp2].
    change (0x4e <=? 0x4e) with true. cbn match. unfold push_size.
    change (0x4e <? 0x4c) with false. change (0x4e =? 0x4c) with false.
    change (0x4e =? 0x4d) with false. cbn match. rewrite <-app_assoc.
    rewrite (proj2 (Z.ltb_ge _ _))
      by (autorewrite with zlen; rewrite zlen_le_encode; pose proof (zlen_nonneg r); lia).
    rewrite take_app_length', drop_app_length' by (by rewrite length_le_encode).
    rewrite le_decode_encode_small by (change (256 ^ Z.of_nat 4) with (2 ^ 32); lia).
    destruct (Htd r) as [Ht Hd]. by rewrite Hlt, Ht, Hd.
Qed.

(** ** The instruction sequence of a script *)

(** [parses pc cs tl]: from [pc], [GetOp] reads the instructions [cs] and then
    fails at [tl] (at the end of the script [tl] is empty). *)
Inductive parses : list Z -> list (list Z) -> list Z -> Prop :=
| parses_stop tl : go_ok (GetOp2 tl) = false -> parses tl [] tl
| parses_step chunk op data pc cs tl :
    instr chunk op data -> parses pc cs tl -> parses (chunk ++ pc) (chunk :: cs) tl.

(** Induction on scripts, instruction by instruction. *)
Lemma script_ind (P : list Z -> Prop) :
  (forall tl, go_ok (GetOp2 tl) = false -> P tl) ->
  (forall chunk op data pc, instr chunk op data -> P pc -> P (chunk ++ pc)) ->
  forall pc, P pc.
Proof.
  intros Hstop Hstep pc. remember (length pc) as n eqn:Hn. revert pc Hn.
  induction n as [n IH] using lt_wf_ind. intros pc ->.
  destruct (go_ok (GetOp2 pc)) eqn:Hok; [|by apply Hstop].
  pose proof (GetOp2_shorter _ Hok) as Hlt.
  destruct (GetOp2_instr _ Hok) as (chunk & Hpc & Hins). rewrite Hpc.
  eapply Hstep; [done|]. eapply IH; [exact Hlt|done].
Qed.

Lemma parses_exists pc : exists cs tl, parses pc cs tl.
Proof.
  induction pc as [tl Hf|chunk op data pc Hi (cs & tl & IH)] using script_ind.
  - exists [], tl. by constructor.
  - exists (chunk :: cs), tl. by econstructor.
Qed.

Lemma instr_parses_tl chunk op data pc tl :
  instr chunk op data -> go_ok (GetOp2 tl) = false -> chunk ++ pc <> tl.
Proof. intros Hi Hf <-. by rewrite (instr_GetOp2 _ _ _ _ Hi) in Hf. Qed.

Lemma parses_det pc cs tl cs' tl' :
  parses pc cs tl -> parses pc cs' tl' -> cs = cs' /\ tl = tl'.
Proof.
  intros H. revert cs' tl'. induction H as [tl Hf|chunk op data pc cs tl Hi Hp IH]; intros cs' tl' H'.
  - inversion H' as [|chunk op data pc cs ? Hi Hp E]; [done|]. by edestruct instr_parses_tl.
  - inversion H' as [? Hf E|chunk' op' data' pc' cs'' ? Hi' Hp' E]; [by edestruct instr_parses_tl|].
    subst. edestruct (instr_det _ _ _ _ _ _ _ _ Hi' Hi E) as [-> ->].
    by destruct (IH _ _ Hp') as [-> ->].
Qed.

Lemma parses_concat pc cs tl : parses pc cs tl -> pc = concat cs ++ tl.
Proof. induction 1; cbn; [done|]. subst. by rewrite app_assoc. Qed.

Lemma parses_build cs tl :
  Forall (fun c => exists op data, instr c op data) cs -> go_ok (GetOp2 tl) = false ->
  parses (concat cs ++ tl) cs tl.
Proof.
  intros Hcs Htl. induction Hcs as [|c cs (op & data & Hi) _ IH]; cbn; [by constructor|].
  rewrite <-app_assoc. by econstructor.
Qed.

Lemma parses_instrs pc cs tl :
  parses pc cs tl -> Forall (fun c => exists op data, instr c op data) cs /\ go_ok (GetOp2 tl) = false.
Proof. induction 1 as [|???????? []]; split; eauto. Qed.

Lemma length_concat_instrs cs :
  Forall (fun c => exists op data, instr c op data) cs -> (length cs <= length (concat cs))%nat.
Proof.
  induction 1 as [|c cs (op & data & [Hne _]) _ IH]; cbn; [lia|].
  rewrite length_app. destruct c; [done|cbn; lia].
Qed.

(** ** Scripts of pushes *)

(** An opcode of a push, with or without operand. *)
Definition is_push (c : list Z) : Prop :=
  exists op data, instr c op data /\ op_gtb op OP_16 = false.

Lemma IsPushOnly_loop_spec fuel pc :
  (length pc <= fuel)%nat ->
  IsPushOnly_loop fuel pc = true <-> exists cs, Forall is_push cs /\ pc = concat cs.
Proof.
  revert pc. induction fuel as [|fuel IH]; intros pc Hf;
    (destruct pc as [|b pc]; [split; [by exists []|done]|]); [cbn in Hf; lia|].
  cbn [IsPushOnly_loop]. set (s := b :: pc) in *. split.
  - destruct (go_ok (GetOp2 s)) eqn:Hok; [|done]. cbn [negb].
    pose proof (GetOp2_shorter _ Hok) as Hlt. destruct (GetOp2_instr _ Hok) as (c & Hpc & Hi).
    destruct (op_gtb _ OP_16) eqn:Hop; [done|]. intros (cs & Hcs & Epc)%IH; [|lia].
    exists (c :: cs). split; [constructor; [by eexists _, _|done]|]. cbn. congruence.
  - intros (cs & Hcs & E). destruct Hcs as [|c cs (op & data & Hi & Hop) Hcs]; [done|].
    cbn in E. rewrite E, (instr_GetOp2 _ _ _ _ Hi). cbn. rewrite Hop.
    apply IH; [|by exists cs]. assert (length s = length (c ++ concat cs)) as Hl by congruence.
    rewrite length_app in Hl. destruct Hi as [Hne _]. subst s. destruct c; [done|cbn in Hl, Hf; lia].
Qed.

Lemma IsPushOnly_spec script :
  IsPushOnly script = true <-> exists cs, Forall is_push cs /\ script = concat cs.
Proof. by apply IsPushOnly_loop_spec. Qed.

Lemma push_data_is_push b : zlen b < 2 ^ 32 -> is_push (push_data b).
Proof.
  intros Hb. exists (push_opcode b), b. split; [by apply push_data_instr|].
  pose proof (push_opcode_range b). unfold op_gtb. cbn. lia.
Qed.

(** ** Pushes of twenty bytes *)

Lemma zlen_push20 h : zlen h = 20 -> push_data h = 20 :: h.
Proof. intros Hh. unfold push_data. by rewrite Hh. Qed.

(** The shape of a pay-to-script-hash output. *)
Lemma IsPayToScriptHash_shape script :
  IsPayToScriptHash script = true ->
  exists h, zlen h = 20 /\ script = 0xa9 :: push_data h ++ [0x87].
Proof.
  unfold IsPayToScriptHash, byte_at. intros H.
  apply andb_prop in H as [H H22]. apply andb_prop in H as [H H1]. apply andb_prop in H as [H H0].
  assert (length script = 23%nat) as Hlen by (unfold zlen in H; lia).
  change (Z.to_nat 0) with 0%nat in H0. change (Z.to_nat 1) with 1%nat in H1.
  change (Z.to_nat 22) with 22%nat in H22.
  destruct script as [|b0 [|b1 r]]; try done. cbn in Hlen, H0, H1, H22. cbn [drop length] in *.
  exists (take 20 r). assert (zlen (take 20 r) = 20) as Hh by (unfold zlen; rewrite length_take; lia).
  split; [done|]. unfold push_data. rewrite Hh. change (20 <? 0x4c) with true. cbn [app].
  f_equal; [lia|]. f_equal; [lia|]. rewrite <-(take_drop 20 r) at 1. f_equal.
  destruct (drop 20 r) as [|x [|y t]] eqn:E.
  - apply (f_equal length) in E. rewrite length_drop in E. cbn in E. lia.
  - f_equal. rewrite <-(take_drop 20 r), E in H22. rewrite app_nth2 in H22 by (rewrite length_take; lia).
    rewrite length_take in H22. replace (20 - 20 `min` length r)%nat with 0%nat in H22 by lia. cbn in H22. lia.
  - apply (f_equal length) in E. rewrite length_drop in E. cbn in E. lia.
Qed.

Lemma IsPayToScriptHash_push h : zlen h = 20 -> IsPayToScriptHash (0xa9 :: push_data h ++ [0x87]) = true.
Proof.
  intros Hh. rewrite zlen_push20 by done. unfold IsPayToScriptHash, byte_at. cbn [app].
  change (Z.to_nat 22) with 22%nat. cbn [nth]. assert (length h = 20%nat) as Hl by (unfold zlen in Hh; lia).
  rewrite app_nth2 by lia. rewrite Hl. autorewrite with zlen. rewrite Hh. done.
Qed.

(** ** FindAndDelete *)

Lemma starts_with_app b r : starts_with b (b ++ r) = true.
Proof. unfold starts_with. apply bool_decide_eq_true. apply take_app_length. Qed.

Lemma starts_with_true b pc : starts_with b pc = true -> exists r, pc = b ++ r.
Proof.
  unfold starts_with. intros H%bool_decide_eq_true. exists (drop (length b) pc).
  rewrite <-H at 1. by rewrite take_drop.
Qed.

(** The number of occurrences of an instruction. *)
Definition count_instr (b : list Z) (cs : list (list Z)) : Z :=
  zlen (filter (fun c => c = b) cs).

Lemma FindAndDelete_loop_instr fuel b op data pc cs tl :
  instr b op data -> parses pc cs tl -> (length pc < fuel)%nat ->
  FindAndDelete_loop fuel b pc =
    (count_instr b cs, concat (filter (fun c => c <> b) cs) ++ tl).
Proof.
  intros Hb Hp. revert fuel.
  induction Hp as [tl Hf|chunk op' data' pc cs tl Hi Hp IH]; intros [|fuel] Hfuel; try lia; cbn.
  - destruct (starts_with b tl) eqn:E; [|by rewrite Hf].
    apply starts_with_true in E as [r ->]. by rewrite (instr_GetOp2 _ _ _ _ Hb) in Hf.
  - rewrite length_app in Hfuel. unfold count_instr. rewrite !filter_cons.
    assert (0 < length chunk)%nat by (destruct Hi as [Hne _]; destruct chunk; [done|cbn; lia]).
    destruct (starts_with b (chunk ++ pc)) eqn:E.
    + apply starts_with_true in E as [r E].
      destruct (instr_det _ _ _ _ _ _ _ _ Hi Hb E) as [-> <-]. rewrite drop_app_length.
      rewrite IH by lia. rewrite decide_True by done. rewrite decide_False by congruence.
      by rewrite zlen_cons.
    + rewrite (instr_GetOp2 _ _ _ _ Hi). cbn. rewrite IH by lia.
      assert (chunk <> b) as Hne.
      { intros ->. by rewrite starts_with_app in E. }
      rewrite decide_False by done. rewrite decide_True by done.
      by rewrite consumed_app; cbn; rewrite app_assoc.
Qed.

Lemma FindAndDelete_instr b op data script cs tl :
  instr b op data -> parses script cs tl ->
  FindAndDelete script b = (count_instr b cs, concat (filter (fun c => c <> b) cs) ++ tl).
Proof.
  intros Hb Hp. unfold FindAndDelete. destruct b as [|x b]; [by destruct Hb|].
  eapply FindAndDelete_loop_instr; [done..|lia].
Qed.

(** ** Signature-operation counts *)

Lemma SigOpCount_loop_bounds {E} fuel last n n' pc :
  (length pc <= fuel)%nat -> 0 <= n <= n' -> n' + 20 * zlen pc < 2 ^ 32 ->
  exists a l, SigOpCount_loop (E:=E) fuel true last n pc = Ok a /\
    SigOpCount_loop (E:=E) fuel false last n' pc = Ok l /\
    0 <= a <= l /\ l <= n' + 20 * zlen pc.
Proof.
  revert last n n' pc. induction fuel as [|fuel IH]; intros last n n' pc Hfuel Hn Hb;
    (destruct pc as [|x pc]; [exists n, n'; rewrite (@zlen_nil Z); cbn; split_and!; done || lia|]).
  { cbn in Hfuel. lia. }
  cbn [SigOpCount_loop]. pose proof (zlen_nonneg (x :: pc)) as Hz.
  destruct (go_ok (GetOp2 (x :: pc))) eqn:Hok; cbn [negb]; [|exists n, n'; split_and!; done || lia].
  pose proof (GetOp2_shorter _ Hok) as Hlt. set (g := GetOp2 (x :: pc)) in *.
  assert (zlen (go_pc g) + 1 <= zlen (x :: pc)) as Hzlt by (unfold zlen; lia).
  assert (forall k k', 0 <= k <= k' -> k' <= 20 ->
    exists a l, SigOpCount_loop (E:=E) fuel true (go_opcode g) (to_u32 (n + k)) (go_pc g) = Ok a /\
    SigOpCount_loop (E:=E) fuel false (go_opcode g) (to_u32 (n' + k')) (go_pc g) = Ok l /\
    0 <= a <= l /\ l <= n' + 20 * zlen (x :: pc)) as Hstep.
  { intros k k' Hk Hk'. pose proof (zlen_nonneg (go_pc g)). rewrite !to_u32_id by lia.
    destruct (IH (go_opcode g) (n + k) (n' + k') (go_pc g)) as (a & l & ? & ? & ? & ?);
      [lia..|]. exists a, l. split_and!; done || lia. }
  destruct (op_eqb _ OP_CHECKSIG || _); [by apply (Hstep 1 1); lia|].
  destruct (op_eqb _ OP_CHECKMULTISIG || _).
  - cbn [andb]. unfold DecodeOP_N.
    destruct (op_leb OP_1 last) eqn:H1, (op_leb last OP_16) eqn:H16; cbn [andb];
      try by apply (Hstep 20 20); lia.
    assert (op_eqb last OP_0 = false) as ->.
    { unfold op_leb, op_eqb in *. cbn in *. lia. }
    cbn. apply (Hstep (op_code last - 80) 20); [|lia].
    unfold op_leb in *. cbn in *. lia.
  - destruct (Hstep 0 0) as (a & l & Ha & Hl & H); [lia..|].
    rewrite !to_u32_id in Ha, Hl by lia. rewrite !Z.add_0_r in Ha, Hl.
    exists a, l. split_and!; done || lia.
Qed.
