(* ===== verification/SigEncoding.v ===== *)
(** * Encoding rules of signatures, public keys and pushes

    [IsDERSignature] of [script/script.cpp] and the static checks at the top
    of [script/interpreter.cpp], with the script error codes of
    [script/script_error.h] and the verification flags of [policy/policy.h].
    [CPubKey::CheckLowS] rests on the vendored elliptic-curve library and is a
    parameter. *)

From S2P Require Import Prelude Opcode ScriptNum Script ScriptFacts.

Local Open Scope Z_scope.

(** ** Error codes and flags *)

Inductive ScriptError : Type :=
| SCRIPT_ERR_UNKNOWN_ERROR
| SCRIPT_ERR_EVAL_FALSE
| SCRIPT_ERR_OP_RETURN
| SCRIPT_ERR_SCRIPT_SIZE
| SCRIPT_ERR_PUSH_SIZE
| SCRIPT_ERR_OP_COUNT
| SCRIPT_ERR_STACK_SIZE
| SCRIPT_ERR_SIG_COUNT
| SCRIPT_ERR_PUBKEY_COUNT
| SCRIPT_ERR_VERIFY
| SCRIPT_ERR_EQUALVERIFY
| SCRIPT_ERR_CHECKMULTISIGVERIFY
| SCRIPT_ERR_CHECKSIGVERIFY
| SCRIPT_ERR_NUMEQUALVERIFY
| SCRIPT_ERR_BAD_OPCODE
| SCRIPT_ERR_DISABLED_OPCODE
| SCRIPT_ERR_INVALID_STACK_OPERATION
| SCRIPT_ERR_INVALID_ALTSTACK_OPERATION
| SCRIPT_ERR_UNBALANCED_CONDITIONAL
| SCRIPT_ERR_SIG_HASHTYPE
| SCRIPT_ERR_SIG_DER
| SCRIPT_ERR_MINIMALDATA
| SCRIPT_ERR_SIG_PUSHONLY
| SCRIPT_ERR_SIG_HIGH_S
| SCRIPT_ERR_SIG_NULLDUMMY
| SCRIPT_ERR_PUBKEYTYPE
| SCRIPT_ERR_DISCOURAGE_UPGRADABLE_NOPS.

#[export] Instance ScriptError_eq_dec : EqDecision ScriptError.
Proof. solve_decision. Defined.

Definition SCRIPT_VERIFY_NONE : Z := 0.
Definition SCRIPT_VERIFY_NOCACHE : Z := Z.shiftl 1 0.
Definition SCRIPT_VERIFY_P2SH : Z := Z.shiftl 1 0.
Definition SCRIPT_VERIFY_STRICTENC : Z := Z.shiftl 1 1.
Definition SCRIPT_VERIFY_DERSIG : Z := Z.shiftl 1 2.
Definition SCRIPT_VERIFY_LOW_S : Z := Z.shiftl 1 3.
Definition SCRIPT_VERIFY_NULLDUMMY : Z := Z.shiftl 1 4.
Definition SCRIPT_VERIFY_SIGPUSHONLY : Z := Z.shiftl 1 5.
Definition SCRIPT_VERIFY_MINIMALDATA : Z := Z.shiftl 1 6.
Definition SCRIPT_VERIFY_DISCOURAGE_UPGRADABLE_NOPS : Z := Z.shiftl 1 7.

Definition MANDATORY_SCRIPT_VERIFY_FLAGS : Z := SCRIPT_VERIFY_NONE.
Definition STANDARD_SCRIPT_VERIFY_FLAGS : Z :=
  Z.lor (Z.lor (Z.lor MANDATORY_SCRIPT_VERIFY_FLAGS SCRIPT_VERIFY_STRICTENC)
    SCRIPT_VERIFY_NULLDUMMY) SCRIPT_VERIFY_DISCOURAGE_UPGRADABLE_NOPS.
Definition STANDARD_NOT_MANDATORY_VERIFY_FLAGS : Z :=
  Z.land STANDARD_SCRIPT_VERIFY_FLAGS (Z.lnot MANDATORY_SCRIPT_VERIFY_FLAGS).

(** [(flags & mask) != 0] *)
Definition has_flag (flags mask : Z) : bool := negb (Z.land flags mask =? 0).

Definition SIGHASH_ALL : Z := 1.
Definition SIGHASH_NONE : Z := 2.
Definition SIGHASH_SINGLE : Z := 3.
Definition SIGHASH_ANYONECANPAY : Z := 0x80.

(** ** Signatures *)

(** The test [IsDERSignature] repeats for [R] and [S]: the integer of [nLen]
    bytes at offset [at_] is positive and not padded. *)
Definition der_int_ok (sig : valtype) (at_ nLen : Z) : bool :=
  (byte_at sig (at_ - 2) =? 0x02) && negb (nLen =? 0) &&
  (Z.land (byte_at sig at_) 0x80 =? 0) &&
  negb ((1 <? nLen) && (byte_at sig at_ =? 0) && (Z.land (byte_at sig (at_ + 1)) 0x80 =? 0)).

(** [IsDERSignature] *)
Definition IsDERSignature (vchSig : valtype) (haveHashType : bool) : bool :=
  if zlen vchSig <? 9 then false
  else if 73 <? zlen vchSig then false
  else if negb (byte_at vchSig 0 =? 0x30) then false
  else if negb (byte_at vchSig 1 =? zlen vchSig - (if haveHashType then 3 else 2)) then false
  else
    let nLenR := byte_at vchSig 3 in
    if zlen vchSig <=? 5 + nLenR then false
    else
      let nLenS := byte_at vchSig (5 + nLenR) in
      if negb (nLenR + nLenS + (if haveHashType then 7 else 6) =? zlen vchSig) then false
      else der_int_ok vchSig 4 nLenR && der_int_ok vchSig (6 + nLenR) nLenS.

(** [IsDefinedHashtypeSignature] *)
Definition IsDefinedHashtypeSignature (vchSig : valtype) : bool :=
  if zlen vchSig =? 0 then false
  else
    let nHashType := Z.land (byte_at vchSig (zlen vchSig - 1)) (Z.lnot SIGHASH_ANYONECANPAY) in
    negb ((nHashType <? SIGHASH_ALL) || (SIGHASH_SINGLE <? nHashType)).

(** [IsCompressedOrUncompressedPubKey] *)
Definition IsCompressedOrUncompressedPubKey (vchPubKey : valtype) : bool :=
  if zlen vchPubKey <? 33 then false
  else if byte_at vchPubKey 0 =? 0x04 then zlen vchPubKey =? 65
  else if (byte_at vchPubKey 0 =? 0x02) || (byte_at vchPubKey 0 =? 0x03) then zlen vchPubKey =? 33
  else false.

(** [CheckPubKeyEncoding], without and with flags. *)
Definition CheckPubKeyEncoding_legacy (vchPubKey : valtype) : bool :=
  IsCompressedOrUncompressedPubKey vchPubKey.

Definition CheckPubKeyEncoding (vchPubKey : valtype) (flags : Z) : outcome ScriptError unit :=
  fail_if (has_flag flags SCRIPT_VERIFY_STRICTENC && negb (IsCompressedOrUncompressedPubKey vchPubKey))
    SCRIPT_ERR_PUBKEYTYPE.

Section low_s.
(** [CPubKey::CheckLowS] *)
Variable CheckLowS : valtype -> bool.

(** [IsLowDERSignature(vchSig)] *)
Definition IsLowDERSignature_legacy (vchSig : valtype) : bool :=
  if negb (IsDERSignature vchSig true) then false
  else CheckLowS (removelast vchSig).

(** [IsLowDERSignature(vchSig, serror)]: where the low-S test itself fails,
    [serror] keeps the value it had on entry. *)
Definition IsLowDERSignature (vchSig : valtype) (serror : ScriptError) : outcome ScriptError unit :=
  _ ← fail_if (negb (IsDERSignature vchSig true)) SCRIPT_ERR_SIG_DER;
  fail_if (negb (CheckLowS (removelast vchSig))) serror.

(** [CheckSignatureEncoding(vchSig)] *)
Definition CheckSignatureEncoding_legacy (vchSig : valtype) : bool :=
  if negb (IsLowDERSignature_legacy vchSig) then false
  else if negb (IsDefinedHashtypeSignature vchSig) then false
  else true.

(** [CheckSignatureEncoding(vchSig, flags, serror)] *)
Definition CheckSignatureEncoding (vchSig : valtype) (flags : Z) (serror : ScriptError)
    : outcome ScriptError unit :=
  _ ← fail_if (has_flag flags (Z.lor (Z.lor SCRIPT_VERIFY_DERSIG SCRIPT_VERIFY_LOW_S) SCRIPT_VERIFY_STRICTENC)
               && negb (IsDERSignature vchSig true)) SCRIPT_ERR_SIG_DER;
  _ ← (if has_flag flags SCRIPT_VERIFY_LOW_S then IsLowDERSignature vchSig serror else mret tt);
  fail_if (has_flag flags SCRIPT_VERIFY_STRICTENC && negb (IsDefinedHashtypeSignature vchSig))
    SCRIPT_ERR_SIG_HASHTYPE.
End low_s.

(** ** Pushes *)

(** [CheckMinimalPush] *)
Definition CheckMinimalPush (data : valtype) (opcode : opcodetype) : bool :=
  if zlen data =? 0 then op_code opcode =? op_code OP_0
  else if (zlen data =? 1) && (1 <=? byte_at data 0) && (byte_at data 0 <=? 16) then
    op_code opcode =? op_code OP_1 + (byte_at data 0 - 1)
  else if (zlen data =? 1) && (byte_at data 0 =? 0x81) then op_code opcode =? op_code OP_1NEGATE
  else if zlen data <=? 75 then op_code opcode =? zlen data
  else if zlen data <=? 255 then op_code opcode =? op_code OP_PUSHDATA1
  else if zlen data <=? 65535 then op_code opcode =? op_code OP_PUSHDATA2
  else true.

(** [CastToBool]: zero in any length is false, and so is negative zero. *)
Fixpoint CastToBool_loop (vch : valtype) : bool :=
  match vch with
  | [] => false
  | b :: vch =>
    if negb (b =? 0) then
      match vch with [] => negb (b =? 0x80) | _ => true end
    else CastToBool_loop vch
  end.

Definition CastToBool (vch : valtype) : bool := CastToBool_loop vch.
