(* ===== verification/ScriptProps.v ===== *)
(** * Properties of scripts *)

From S2P Require Import Prelude Opcode ScriptNum Script ScriptFacts SigEncoding.

Local Open Scope Z_scope.

(** ** Minimal pushes *)

(** The shape of a push with operand. *)
Lemma instr_push_shape c op data :
  bytes_ok c -> instr c op data -> op_code op <= 0x4e ->
  exists hdr, c = op_code op :: hdr ++ data /\
    ((op_code op < 0x4c /\ hdr = [] /\ zlen data = op_code op) \/
     (op_code op = 0x4c /\ hdr = [zlen data]) \/
     (op_code op = 0x4d /\ hdr = le_encode 2 (zlen data)) \/
     (op_code op = 0x4e /\ hdr = le_encode 4 (zlen data))).
Proof.
  intros Hc Hi Hop. pose proof (instr_GetOp2 _ _ _ [] Hi) as G. rewrite app_nil_r in G.
  destruct c as [|b c]; [by destruct Hi|]. apply Forall_cons in Hc as [Hb Hc].
  unfold byte_ok in Hb. unfold GetOp2 in G.
  destruct (Z.leb_spec b 0x4e); [|injection G as <- _ _; rewrite op_code_of_byte in Hop; lia].
  destruct (push_size b c) as [[n pc]|] eqn:Hp; [|done].
  destruct (Z.ltb_spec (zlen pc) n); [done|]. injection G as <- Hd Hr.
  rewrite op_code_of_byte.
  assert (0 <= n -> data = pc /\ zlen data = n) as Hdata.
  { intros Hn. rewrite <-(take_drop (Z.to_nat n) pc), Hr, Hd, app_nil_r. split; [done|].
    rewrite <-Hd. unfold zlen in *. rewrite length_take. lia. }
  unfold push_size in Hp. repeat case_match; simplify_eq.
  - destruct Hdata as [Ht Hz]; [lia|]. rewrite Ht in Hz |- *. exists []. split; [done|]. left. split_and!; done || lia.
  - destruct c as [|x c]; [done|]. apply Forall_cons in Hc as [Hx _]. unfold byte_ok in Hx.
    change (byte_at (x :: c) 0) with x in *. change (drop 1 (x :: c)) with c in *.
    destruct Hdata as [Ht Hz]; [lia|]. rewrite Ht in Hz |- *. exists [x]. split; [done|]. right; left. split; [lia|]. congruence.
  - destruct c as [|x [|y c]]; [done..|].
    change (take 2 (x :: y :: c)) with [x; y] in *. change (drop 2 (x :: y :: c)) with c in *.
    assert (bytes_ok [x; y]) as Hxy by (by apply (Forall_take _ 2 (x :: y :: c))).
    pose proof (le_decode_bound _ Hxy). destruct Hdata as [Ht Hz]; [lia|]. rewrite Ht in Hz |- *.
    exists [x; y]. split; [done|]. right; right; left. split; [lia|].
    rewrite Hz. symmetry. by apply (le_encode_decode [x; y]).
  - destruct c as [|x [|y [|z [|t c]]]]; [done..|].
    change (take 4 (x :: y :: z :: t :: c)) with [x; y; z; t] in *.
    change (drop 4 (x :: y :: z :: t :: c)) with c in *.
    assert (bytes_ok [x; y; z; t]) as Hxy by (by apply (Forall_take _ 4 (x :: y :: z :: t :: c))).
    pose proof (le_decode_bound _ Hxy). destruct Hdata as [Ht Hz]; [lia|]. rewrite Ht in Hz |- *.
    exists [x; y; z; t]. split; [done|]. right; right; right. split; [lia|].
    rewrite Hz. symmetry. by apply (le_encode_decode [x; y; z; t]).
Qed.

(** Under the minimality rule a datum can be pushed in one way only: a push
    of up to 65535 bytes that passes is the one [operator<<] writes. *)
Theorem CheckMinimalPush_unique c op data
    (Hc : bytes_ok c) (Hi : instr c op data) (Hop : op_code op <= 0x4e)
    (Hlen : zlen data <= 65535) (Hmin : CheckMinimalPush data op = true) :
  c = push_data data.
Proof.
  destruct (instr_push_shape _ _ _ Hc Hi Hop) as (hdr & -> & Hcase). pose proof (zlen_nonneg data).
  unfold CheckMinimalPush in Hmin. unfold push_data.
  repeat case_match; cbn in Hmin, Hop; destruct Hcase as [(?&->&?)|[(?&->)|[(?&->)|(?&->)]]]; try lia;
    cbn [app]; repeat f_equal; lia.
Qed.

Lemma CheckMinimalPush_unique_witness :
  CheckMinimalPush [5; 6] (OP_BYTE 2) = true /\ [2; 5; 6] = push_data [5; 6].
Proof.
  split; [done|]. apply (CheckMinimalPush_unique [2; 5; 6] (OP_BYTE 2) [5; 6]); try done; [decide_now|].
  by apply (push_data_instr [5; 6]).
Defined.

(** ** FindAndDelete *)

(** [FindAndDelete] of an instruction removes exactly the instructions of
    the script equal to it, leaves the others and the unreadable tail in place
    and returns how many it removed. *)
Theorem FindAndDelete_filters script b op data (Hb : instr b op data) :
  exists cs tl, parses script cs tl /\
    FindAndDelete script b =
      (zlen (filter (fun c => c = b) cs), concat (filter (fun c => c <> b) cs) ++ tl).
Proof.
  destruct (parses_exists script) as (cs & tl & Hp). exists cs, tl. split; [done|].
  by eapply FindAndDelete_instr.
Qed.

Lemma FindAndDelete_filters_witness :
  exists cs tl, parses [1; 5; 1; 6; 1; 5; 2] cs tl /\
    FindAndDelete [1; 5; 1; 6; 1; 5; 2] (push_data [5]) =
      (zlen (filter (fun c => c = push_data [5]) cs), concat (filter (fun c => c <> push_data [5]) cs) ++ tl).
Proof.
  apply (FindAndDelete_filters _ (push_data [5]) (OP_BYTE 1) [5]). by apply (push_data_instr [5]).
Defined.

(** ** Signature operations *)

(** Neither count of signature operations fails its assertion or overflows;
    the accurate one is at most the other, which is at most 20 per byte. *)
Theorem GetSigOpCount_bounds script (Hlen : 20 * zlen script < 2 ^ 32) :
  exists a l, GetSigOpCount (E:=unit) script true = Ok a /\ GetSigOpCount (E:=unit) script false = Ok l /\
    0 <= a <= l /\ l <= 20 * zlen script.
Proof.
  unfold GetSigOpCount. destruct (SigOpCount_loop_bounds (E:=unit) (length script) OP_INVALIDOPCODE 0 0 script)
    as (a & l & H1 & H2 & H3 & H4); [lia..|]. exists a, l. split_and!; done || lia.
Qed.

Lemma GetSigOpCount_bounds_witness :
  exists a l, GetSigOpCount (E:=unit) [0x52; 0xae] true = Ok a /\ GetSigOpCount (E:=unit) [0x52; 0xae] false = Ok l /\
    0 <= a <= l /\ l <= 20 * zlen [0x52; 0xae].
Proof. by apply (GetSigOpCount_bounds [0x52; 0xae]). Defined.
