(* ===== verification/Interp.v ===== *)
(** * The script interpreter

    [EvalScript] and [VerifyScript] of [script/interpreter.cpp] in the form
    that reports a [ScriptError] and asks a [BaseSignatureChecker] about
    signatures.  The stack, the alternative stack and the condition stack are
    C++ vectors used from the back; here the head of the list is the back, so
    [stacktop(-i)] is the element at position [i - 1].  [return
    set_error(serror, e)] is [Err e], [return set_success(serror)] is [Ok].
    Exceptions ([vector::at], [popstack], [scriptnum_error]) are [Throw],
    caught at the end of [EvalScript]; failing assertions are [Crash]. *)

From S2P Require Import Prelude Opcode ScriptNum Script SigEncoding.

Local Open Scope Z_scope.

(** The hash functions of [crypto/] and [hash.h] that scripts can call. *)
Class ScriptHashes := {
  h_ripemd160 : valtype -> valtype;
  h_sha1 : valtype -> valtype;
  h_sha256 : valtype -> valtype;
  h_hash160 : valtype -> valtype;
  h_hash256 : valtype -> valtype;
}.

(** What the interpreter relies on of the signature machinery: a
    [BaseSignatureChecker] and [CPubKey::CheckLowS]. *)
Class SigBackend := {
  CheckLowS : valtype -> bool;
  checker_CheckSig : valtype -> valtype -> list Z -> bool;
}.

Definition vchFalse : valtype := [].
Definition vchTrue : valtype := [1].

Definition bool_vch (b : bool) : valtype := if b then vchTrue else vchFalse.
Definition bool_num (b : bool) : Z := if b then 1 else 0.

(** ** Stack access *)

(** [stacktop(-i)], [popstack] and [swap(stacktop(-i), stacktop(-j))]. *)
Definition stacktop {E} (stack : list valtype) (i : Z) : outcome E valtype :=
  or_throw (stack !! Z.to_nat (i - 1)).

Definition popstack {E} (stack : list valtype) : outcome E (list valtype) :=
  match stack with [] => Throw | _ :: stack => mret stack end.

Definition swaptop {E} (stack : list valtype) (i j : Z) : outcome E (list valtype) :=
  vi ← stacktop stack i;
  vj ← stacktop stack j;
  mret (<[Z.to_nat (i - 1) := vj]> (<[Z.to_nat (j - 1) := vi]> stack)).

(** [stack.erase(stack.end()-i, stack.end()-j)] *)
Definition erasetop (stack : list valtype) (i j : Z) : list valtype :=
  take (Z.to_nat j) stack ++ drop (Z.to_nat i) stack.

(** Opcodes refused wherever they stand in a script. *)
Definition disabled_opcode (op : opcodetype) : bool :=
  match op with
  | OP_CAT | OP_SUBSTR | OP_LEFT | OP_RIGHT | OP_INVERT | OP_AND | OP_OR | OP_XOR
  | OP_2MUL | OP_2DIV | OP_MUL | OP_DIV | OP_MOD | OP_LSHIFT | OP_RSHIFT => true
  | _ => false
  end.

(** ** The cases of the switch *)

(** OP_1NEGATE, OP_1 to OP_16 *)
Definition exec_push (op : opcodetype) (stack : list valtype) : list valtype :=
  serialize (op_code op - (op_code OP_1 - 1)) :: stack.

(** OP_IF and OP_NOTIF: the new condition, and the stack without it. *)
Definition exec_if (op : opcodetype) (fExec : bool) (stack : list valtype) (vfExec : list bool)
    : outcome ScriptError (list valtype * list bool) :=
  if fExec then
    _ ← fail_if (zlen stack <? 1) SCRIPT_ERR_UNBALANCED_CONDITIONAL;
    vch ← stacktop stack 1;
    let fValue := CastToBool vch in
    let fValue := match op with OP_NOTIF => negb fValue | _ => fValue end in
    stack ← popstack stack;
    mret (stack, fValue :: vfExec)
  else mret (stack, false :: vfExec).

(** OP_ELSE and OP_ENDIF *)
Definition exec_else (vfExec : list bool) : outcome ScriptError (list bool) :=
  match vfExec with
  | [] => Err SCRIPT_ERR_UNBALANCED_CONDITIONAL
  | b :: vfExec => mret (negb b :: vfExec)
  end.

Definition exec_endif (vfExec : list bool) : outcome ScriptError (list bool) :=
  match vfExec with
  | [] => Err SCRIPT_ERR_UNBALANCED_CONDITIONAL
  | _ :: vfExec => mret vfExec
  end.

(** OP_VERIFY *)
Definition exec_verify (stack : list valtype) : outcome ScriptError (list valtype) :=
  _ ← fail_if (zlen stack <? 1) SCRIPT_ERR_INVALID_STACK_OPERATION;
  vch ← stacktop stack 1;
  if CastToBool vch then popstack stack else Err SCRIPT_ERR_VERIFY.

(** OP_TOALTSTACK and OP_FROMALTSTACK: the stack and the alternative stack. *)
Definition exec_toaltstack (stack altstack : list valtype)
    : outcome ScriptError (list valtype * list valtype) :=
  _ ← fail_if (zlen stack <? 1) SCRIPT_ERR_INVALID_STACK_OPERATION;
  vch ← stacktop stack 1;
  stack ← popstack stack;
  mret (stack, vch :: altstack).

Definition exec_fromaltstack (stack altstack : list valtype)
    : outcome ScriptError (list valtype * list valtype) :=
  _ ← fail_if (zlen altstack <? 1) SCRIPT_ERR_INVALID_ALTSTACK_OPERATION;
  vch ← stacktop altstack 1;
  altstack ← popstack altstack;
  mret (vch :: stack, altstack).

(** The guard the stack operations start with. *)
Definition need (stack : list valtype) (n : Z) : outcome ScriptError unit :=
  fail_if (zlen stack <? n) SCRIPT_ERR_INVALID_STACK_OPERATION.

(** OP_2DROP to OP_TUCK and OP_SIZE *)
Definition exec_stack (op : opcodetype) (fRequireMinimal : bool) (stack : list valtype)
    : outcome ScriptError (list valtype) :=
  match op with
  | OP_2DROP =>
    _ ← need stack 2; stack ← popstack stack; popstack stack
  | OP_2DUP =>
    _ ← need stack 2;
    vch1 ← stacktop stack 2; vch2 ← stacktop stack 1;
    mret (vch2 :: vch1 :: stack)
  | OP_3DUP =>
    _ ← need stack 3;
    vch1 ← stacktop stack 3; vch2 ← stacktop stack 2; vch3 ← stacktop stack 1;
    mret (vch3 :: vch2 :: vch1 :: stack)
  | OP_2OVER =>
    _ ← need stack 4;
    vch1 ← stacktop stack 4; vch2 ← stacktop stack 3;
    mret (vch2 :: vch1 :: stack)
  | OP_2ROT =>
    _ ← need stack 6;
    vch1 ← stacktop stack 6; vch2 ← stacktop stack 5;
    mret (vch2 :: vch1 :: erasetop stack 6 4)
  | OP_2SWAP =>
    _ ← need stack 4;
    stack ← swaptop stack 4 2; swaptop stack 3 1
  | OP_IFDUP =>
    _ ← need stack 1;
    vch ← stacktop stack 1;
    mret (if CastToBool vch then vch :: stack else stack)
  | OP_DEPTH => mret (serialize (zlen stack) :: stack)
  | OP_DROP => _ ← need stack 1; popstack stack
  | OP_DUP => _ ← need stack 1; vch ← stacktop stack 1; mret (vch :: stack)
  | OP_NIP => _ ← need stack 2; mret (erasetop stack 2 1)
  | OP_OVER => _ ← need stack 2; vch ← stacktop stack 2; mret (vch :: stack)
  | OP_PICK | OP_ROLL =>
    _ ← need stack 2;
    vchn ← stacktop stack 1;
    bn ← CScriptNum vchn fRequireMinimal;
    let n := getint bn in
    stack ← popstack stack;
    _ ← fail_if ((n <? 0) || (zlen stack <=? n)) SCRIPT_ERR_INVALID_STACK_OPERATION;
    vch ← stacktop stack (n + 1);
    let stack := match op with OP_ROLL => erasetop stack (n + 1) n | _ => stack end in
    mret (vch :: stack)
  | OP_ROT => _ ← need stack 3; stack ← swaptop stack 3 2; swaptop stack 2 1
  | OP_SWAP => _ ← need stack 2; swaptop stack 2 1
  | OP_TUCK =>
    _ ← need stack 2;
    vch ← stacktop stack 1;
    mret (take 2 stack ++ [vch] ++ drop 2 stack)
  | OP_SIZE =>
    _ ← need stack 1;
    vch ← stacktop stack 1;
    mret (serialize (zlen vch) :: stack)
  | _ => Err SCRIPT_ERR_BAD_OPCODE
  end.

(** OP_EQUAL and OP_EQUALVERIFY *)
Definition exec_equal (op : opcodetype) (stack : list valtype) : outcome ScriptError (list valtype) :=
  _ ← need stack 2;
  vch1 ← stacktop stack 2; vch2 ← stacktop stack 1;
  let fEqual := bool_decide (vch1 = vch2) in
  stack ← popstack stack; stack ← popstack stack;
  let stack := bool_vch fEqual :: stack in
  match op with
  | OP_EQUALVERIFY => if fEqual then popstack stack else Err SCRIPT_ERR_EQUALVERIFY
  | _ => mret stack
  end.

(** OP_1ADD, OP_1SUB, OP_NEGATE, OP_ABS, OP_NOT, OP_0NOTEQUAL *)
Definition unary_num {E} (op : opcodetype) (bn : Z) : outcome E Z :=
  match op with
  | OP_1ADD => num_add_assign bn 1
  | OP_1SUB => num_sub_assign bn 1
  | OP_NEGATE => num_neg bn
  | OP_ABS => if bn <? 0 then num_neg bn else mret bn
  | OP_NOT => mret (bool_num (bn =? 0))
  | OP_0NOTEQUAL => mret (bool_num (negb (bn =? 0)))
  | _ => Crash
  end.

Definition exec_unary (op : opcodetype) (fRequireMinimal : bool) (stack : list valtype)
    : outcome ScriptError (list valtype) :=
  _ ← need stack 1;
  vch ← stacktop stack 1;
  bn ← CScriptNum vch fRequireMinimal;
  bn ← unary_num op bn;
  stack ← popstack stack;
  mret (serialize bn :: stack).

(** OP_ADD to OP_MAX *)
Definition binary_num {E} (op : opcodetype) (bn1 bn2 : Z) : outcome E Z :=
  match op with
  | OP_ADD => mret (num_add bn1 bn2)
  | OP_SUB => mret (num_sub bn1 bn2)
  | OP_BOOLAND => mret (bool_num (negb (bn1 =? 0) && negb (bn2 =? 0)))
  | OP_BOOLOR => mret (bool_num (negb (bn1 =? 0) || negb (bn2 =? 0)))
  | OP_NUMEQUAL | OP_NUMEQUALVERIFY => mret (bool_num (bn1 =? bn2))
  | OP_NUMNOTEQUAL => mret (bool_num (negb (bn1 =? bn2)))
  | OP_LESSTHAN => mret (bool_num (bn1 <? bn2))
  | OP_GREATERTHAN => mret (bool_num (bn2 <? bn1))
  | OP_LESSTHANOREQUAL => mret (bool_num (bn1 <=? bn2))
  | OP_GREATERTHANOREQUAL => mret (bool_num (bn2 <=? bn1))
  | OP_MIN => mret (if bn1 <? bn2 then bn1 else bn2)
  | OP_MAX => mret (if bn2 <? bn1 then bn1 else bn2)
  | _ => Crash
  end.

Definition exec_binary (op : opcodetype) (fRequireMinimal : bool) (stack : list valtype)
    : outcome ScriptError (list valtype) :=
  _ ← need stack 2;
  vch1 ← stacktop stack 2;
  bn1 ← CScriptNum vch1 fRequireMinimal;
  vch2 ← stacktop stack 1;
  bn2 ← CScriptNum vch2 fRequireMinimal;
  bn ← binary_num op bn1 bn2;
  stack ← popstack stack; stack ← popstack stack;
  let stack := serialize bn :: stack in
  match op with
  | OP_NUMEQUALVERIFY =>
    vch ← stacktop stack 1;
    if CastToBool vch then popstack stack else Err SCRIPT_ERR_NUMEQUALVERIFY
  | _ => mret stack
  end.

(** OP_WITHIN *)
Definition exec_within (fRequireMinimal : bool) (stack : list valtype)
    : outcome ScriptError (list valtype) :=
  _ ← need stack 3;
  vch1 ← stacktop stack 3; bn1 ← CScriptNum vch1 fRequireMinimal;
  vch2 ← stacktop stack 2; bn2 ← CScriptNum vch2 fRequireMinimal;
  vch3 ← stacktop stack 1; bn3 ← CScriptNum vch3 fRequireMinimal;
  let fValue := (bn2 <=? bn1) && (bn1 <? bn3) in
  stack ← popstack stack; stack ← popstack stack; stack ← popstack stack;
  mret (bool_vch fValue :: stack).

Section eval.
Context {SH : ScriptHashes} {SB : SigBackend}.

(** OP_RIPEMD160 to OP_HASH256 *)
Definition exec_hash (op : opcodetype) (stack : list valtype) : outcome ScriptError (list valtype) :=
  _ ← need stack 1;
  vch ← stacktop stack 1;
  let vchHash := match op with
    | OP_RIPEMD160 => h_ripemd160 vch
    | OP_SHA1 => h_sha1 vch
    | OP_SHA256 => h_sha256 vch
    | OP_HASH160 => h_hash160 vch
    | _ => h_hash256 vch
    end in
  stack ← popstack stack;
  mret (vchHash :: stack).

(** [CheckSignatureEncoding(...) && CheckPubKeyEncoding(...)]; on entry
    [serror] is the unknown error [EvalScript] stored at its start. *)
Definition check_encodings (vchSig vchPubKey : valtype) (flags : Z) : outcome ScriptError unit :=
  _ ← CheckSignatureEncoding CheckLowS vchSig flags SCRIPT_ERR_UNKNOWN_ERROR;
  CheckPubKeyEncoding vchPubKey flags.

(** OP_CHECKSIG and OP_CHECKSIGVERIFY; [codehash] is the script from
    [pbegincodehash] to [pend]. *)
Definition exec_checksig (op : opcodetype) (flags : Z) (codehash : list Z) (stack : list valtype)
    : outcome ScriptError (list valtype) :=
  _ ← need stack 2;
  vchSig ← stacktop stack 2;
  vchPubKey ← stacktop stack 1;
  let scriptCode := snd (FindAndDelete codehash (push_data vchSig)) in
  _ ← check_encodings vchSig vchPubKey flags;
  let fSuccess := checker_CheckSig vchSig vchPubKey scriptCode in
  stack ← popstack stack; stack ← popstack stack;
  let stack := bool_vch fSuccess :: stack in
  match op with
  | OP_CHECKSIGVERIFY => if fSuccess then popstack stack else Err SCRIPT_ERR_CHECKSIGVERIFY
  | _ => mret stack
  end.

(** The loop dropping the signatures [stacktop(-isig-k)], [k < n]. *)
Fixpoint drop_sigs {E} (n : nat) (isig : Z) (stack : list valtype) (scriptCode : list Z)
    : outcome E (list Z) :=
  match n with
  | O => mret scriptCode
  | S n =>
    vchSig ← stacktop stack isig;
    drop_sigs n (isig + 1) stack (snd (FindAndDelete scriptCode (push_data vchSig)))
  end.

(** [while (fSuccess && nSigsCount > 0)]: a round uses up one key, so
    [nKeysCount] rounds are enough; out of fuel is [Crash]. *)
Fixpoint multisig_loop (fuel : nat) (flags : Z) (stack : list valtype) (scriptCode : list Z)
    (isig ikey nSigsCount nKeysCount : Z) (fSuccess : bool) : outcome ScriptError bool :=
  if negb (fSuccess && (0 <? nSigsCount)) then mret fSuccess
  else
    match fuel with
    | O => Crash
    | S fuel =>
      vchSig ← stacktop stack isig;
      vchPubKey ← stacktop stack ikey;
      _ ← check_encodings vchSig vchPubKey flags;
      let fOk := checker_CheckSig vchSig vchPubKey scriptCode in
      let isig := if fOk then isig + 1 else isig in
      let nSigsCount := if fOk then nSigsCount - 1 else nSigsCount in
      let ikey := ikey + 1 in
      let nKeysCount := nKeysCount - 1 in
      multisig_loop fuel flags stack scriptCode isig ikey nSigsCount nKeysCount
        (if nKeysCount <? nSigsCount then false else fSuccess)
    end.

(** [while (i-- > 1) popstack(stack);] *)
Fixpoint pop_n {E} (n : nat) (stack : list valtype) : outcome E (list valtype) :=
  match n with
  | O => mret stack
  | S n => stack ← popstack stack; pop_n n stack
  end.

(** OP_CHECKMULTISIG and OP_CHECKMULTISIGVERIFY: the stack and [nOpCount]. *)
Definition exec_checkmultisig (op : opcodetype) (flags : Z) (fRequireMinimal : bool)
    (codehash : list Z) (nOpCount : Z) (stack : list valtype)
    : outcome ScriptError (list valtype * Z) :=
  _ ← need stack 1;
  vchn ← stacktop stack 1;
  bnk ← CScriptNum vchn fRequireMinimal;
  let nKeysCount := getint bnk in
  _ ← fail_if ((nKeysCount <? 0) || (20 <? nKeysCount)) SCRIPT_ERR_PUBKEY_COUNT;
  let nOpCount := nOpCount + nKeysCount in
  _ ← fail_if (201 <? nOpCount) SCRIPT_ERR_OP_COUNT;
  let ikey := 2 in
  let i := ikey + nKeysCount in
  _ ← need stack i;
  vchm ← stacktop stack i;
  bns ← CScriptNum vchm fRequireMinimal;
  let nSigsCount := getint bns in
  _ ← fail_if ((nSigsCount <? 0) || (nKeysCount <? nSigsCount)) SCRIPT_ERR_SIG_COUNT;
  let isig := i + 1 in
  let i := isig + nSigsCount in
  _ ← need stack i;
  scriptCode ← drop_sigs (Z.to_nat nSigsCount) isig stack codehash;
  fSuccess ← multisig_loop (Z.to_nat nKeysCount) flags stack scriptCode
               isig ikey nSigsCount nKeysCount true;
  stack ← pop_n (Z.to_nat (i - 1)) stack;
  _ ← need stack 1;
  dummy ← stacktop stack 1;
  _ ← fail_if (has_flag flags SCRIPT_VERIFY_NULLDUMMY && negb (zlen dummy =? 0)) SCRIPT_ERR_SIG_NULLDUMMY;
  stack ← popstack stack;
  let stack := bool_vch fSuccess :: stack in
  match op with
  | OP_CHECKMULTISIGVERIFY =>
    if fSuccess then stack ← popstack stack; mret (stack, nOpCount)
    else Err SCRIPT_ERR_CHECKMULTISIGVERIFY
  | _ => mret (stack, nOpCount)
  end.

(** ** The main loop *)

(** The local variables of [EvalScript]. *)
Record eval_state := EvalState {
  es_pc : list Z;
  es_codehash : list Z;
  es_stack : list valtype;
  es_altstack : list valtype;
  es_vfExec : list bool;
  es_nOpCount : Z;
}.

Definition with_stack (st : eval_state) (stack : list valtype) : eval_state :=
  EvalState (es_pc st) (es_codehash st) stack (es_altstack st) (es_vfExec st) (es_nOpCount st).
Definition with_stacks (st : eval_state) (s : list valtype * list valtype) : eval_state :=
  EvalState (es_pc st) (es_codehash st) s.1 s.2 (es_vfExec st) (es_nOpCount st).
Definition with_cond (st : eval_state) (s : list valtype * list bool) : eval_state :=
  EvalState (es_pc st) (es_codehash st) s.1 (es_altstack st) s.2 (es_nOpCount st).

(** [switch (opcode)], on the state after the instruction was read. *)
Definition exec_op (op : opcodetype) (flags : Z) (fExec : bool) (st : eval_state)
    : outcome ScriptError eval_state :=
  let fRequireMinimal := has_flag flags SCRIPT_VERIFY_MINIMALDATA in
  let stack := es_stack st in
  match op with
  | OP_1NEGATE | OP_1 | OP_2 | OP_3 | OP_4 | OP_5 | OP_6 | OP_7 | OP_8 | OP_9 | OP_10
  | OP_11 | OP_12 | OP_13 | OP_14 | OP_15 | OP_16 => mret (with_stack st (exec_push op stack))
  | OP_NOP => mret st
  | OP_NOP1 | OP_NOP2 | OP_NOP3 | OP_NOP4 | OP_NOP5
  | OP_NOP6 | OP_NOP7 | OP_NOP8 | OP_NOP9 | OP_NOP10 =>
    _ ← fail_if (has_flag flags SCRIPT_VERIFY_DISCOURAGE_UPGRADABLE_NOPS)
          SCRIPT_ERR_DISCOURAGE_UPGRADABLE_NOPS;
    mret st
  | OP_IF | OP_NOTIF => with_cond st <$> exec_if op fExec stack (es_vfExec st)
  | OP_ELSE => (fun v => with_cond st (stack, v)) <$> exec_else (es_vfExec st)
  | OP_ENDIF => (fun v => with_cond st (stack, v)) <$> exec_endif (es_vfExec st)
  | OP_VERIFY => with_stack st <$> exec_verify stack
  | OP_RETURN => Err SCRIPT_ERR_OP_RETURN
  | OP_TOALTSTACK => with_stacks st <$> exec_toaltstack stack (es_altstack st)
  | OP_FROMALTSTACK => with_stacks st <$> exec_fromaltstack stack (es_altstack st)
  | OP_2DROP | OP_2DUP | OP_3DUP | OP_2OVER | OP_2ROT | OP_2SWAP | OP_IFDUP | OP_DEPTH
  | OP_DROP | OP_DUP | OP_NIP | OP_OVER | OP_PICK | OP_ROLL | OP_ROT | OP_SWAP | OP_TUCK
  | OP_SIZE => with_stack st <$> exec_stack op fRequireMinimal stack
  | OP_EQUAL | OP_EQUALVERIFY => with_stack st <$> exec_equal op stack
  | OP_1ADD | OP_1SUB | OP_NEGATE | OP_ABS | OP_NOT | OP_0NOTEQUAL =>
    with_stack st <$> exec_unary op fRequireMinimal stack
  | OP_ADD | OP_SUB | OP_BOOLAND | OP_BOOLOR | OP_NUMEQUAL | OP_NUMEQUALVERIFY
  | OP_NUMNOTEQUAL | OP_LESSTHAN | OP_GREATERTHAN | OP_LESSTHANOREQUAL
  | OP_GREATERTHANOREQUAL | OP_MIN | OP_MAX => with_stack st <$> exec_binary op fRequireMinimal stack
  | OP_WITHIN => with_stack st <$> exec_within fRequireMinimal stack
  | OP_RIPEMD160 | OP_SHA1 | OP_SHA256 | OP_HASH160 | OP_HASH256 =>
    with_stack st <$> exec_hash op stack
  | OP_CODESEPARATOR =>
    mret (EvalState (es_pc st) (es_pc st) stack (es_altstack st) (es_vfExec st) (es_nOpCount st))
  | OP_CHECKSIG | OP_CHECKSIGVERIFY =>
    with_stack st <$> exec_checksig op flags (es_codehash st) stack
  | OP_CHECKMULTISIG | OP_CHECKMULTISIGVERIFY =>
    (fun '(stack, nOpCount) =>
       EvalState (es_pc st) (es_codehash st) stack (es_altstack st) (es_vfExec st) nOpCount)
    <$> exec_checkmultisig op flags fRequireMinimal (es_codehash st) (es_nOpCount st) stack
  | _ => Err SCRIPT_ERR_BAD_OPCODE
  end.

(** What a round of the loop does with the instruction [opcode] and its
    operand, [pc] being the iterator behind it. *)
Definition eval_instr (flags : Z) (opcode : opcodetype) (vchPushValue : valtype) (pc : list Z)
    (st : eval_state) : outcome ScriptError eval_state :=
  let fExec := forallb id (es_vfExec st) in
  _ ← fail_if (MAX_SCRIPT_ELEMENT_SIZE <? zlen vchPushValue) SCRIPT_ERR_PUSH_SIZE;
  let nOpCount := if op_gtb opcode OP_16 then es_nOpCount st + 1 else es_nOpCount st in
  _ ← fail_if (op_gtb opcode OP_16 && (201 <? nOpCount)) SCRIPT_ERR_OP_COUNT;
  _ ← fail_if (disabled_opcode opcode) SCRIPT_ERR_DISABLED_OPCODE;
  let st := EvalState pc (es_codehash st) (es_stack st) (es_altstack st) (es_vfExec st) nOpCount in
  st ← (if fExec && op_leb OP_0 opcode && op_leb opcode OP_PUSHDATA4 then
          _ ← fail_if (has_flag flags SCRIPT_VERIFY_MINIMALDATA && negb (CheckMinimalPush vchPushValue opcode))
                SCRIPT_ERR_MINIMALDATA;
          mret (with_stack st (vchPushValue :: es_stack st))
        else if fExec || (op_leb OP_IF opcode && op_leb opcode OP_ENDIF) then exec_op opcode flags fExec st
        else mret st);
  _ ← fail_if (1000 <? zlen (es_stack st) + zlen (es_altstack st)) SCRIPT_ERR_STACK_SIZE;
  mret st.

(** One round of [while (pc < pend)]. *)
Definition eval_step (flags : Z) (st : eval_state) : outcome ScriptError eval_state :=
  let g := GetOp2 (es_pc st) in
  _ ← fail_if (negb (go_ok g)) SCRIPT_ERR_BAD_OPCODE;
  eval_instr flags (go_opcode g) (go_data g) (go_pc g) st.

(** The loop reads at least one byte per round, so the length of the script
    is fuel enough; out of fuel is [Crash]. *)
Fixpoint eval_loop (fuel : nat) (flags : Z) (st : eval_state) : outcome ScriptError eval_state :=
  match es_pc st with
  | [] => mret st
  | _ =>
    match fuel with
    | O => Crash
    | S fuel => st ← eval_step flags st; eval_loop fuel flags st
    end
  end.

Definition eval_init (script : list Z) (stack : list valtype) : eval_state :=
  EvalState script script stack [] [] 0.

(** [EvalScript(stack, script, flags, checker, serror)] *)
Definition EvalScript (stack : list valtype) (script : list Z) (flags : Z)
    : outcome ScriptError (list valtype) :=
  _ ← fail_if (10000 <? zlen script) SCRIPT_ERR_SCRIPT_SIZE;
  match eval_loop (length script) flags (eval_init script stack) with
  | Ok st =>
    _ ← fail_if (negb (zlen (es_vfExec st) =? 0)) SCRIPT_ERR_UNBALANCED_CONDITIONAL;
    mret (es_stack st)
  | Err e => Err e
  | Throw => Err SCRIPT_ERR_UNKNOWN_ERROR
  | Crash => Crash
  end.

(** [VerifyScript(scriptSig, scriptPubKey, flags, checker, serror)] *)
Definition VerifyScript (scriptSig scriptPubKey : list Z) (flags : Z) : outcome ScriptError unit :=
  _ ← fail_if (has_flag flags SCRIPT_VERIFY_SIGPUSHONLY && negb (IsPushOnly scriptSig))
        SCRIPT_ERR_SIG_PUSHONLY;
  stack ← EvalScript [] scriptSig flags;
  let stackCopy := if has_flag flags SCRIPT_VERIFY_P2SH then stack else [] in
  stack ← EvalScript stack scriptPubKey flags;
  match stack with
  | [] => Err SCRIPT_ERR_EVAL_FALSE
  | top :: _ =>
    _ ← fail_if (negb (CastToBool top)) SCRIPT_ERR_EVAL_FALSE;
    if has_flag flags SCRIPT_VERIFY_P2SH && IsPayToScriptHash scriptPubKey then
      _ ← fail_if (negb (IsPushOnly scriptSig)) SCRIPT_ERR_SIG_PUSHONLY;
      match stackCopy with
      | [] => Crash
      | pubKey2 :: stackCopy =>
        stackCopy ← EvalScript stackCopy pubKey2 flags;
        match stackCopy with
        | [] => Err SCRIPT_ERR_EVAL_FALSE
        | top :: _ => fail_if (negb (CastToBool top)) SCRIPT_ERR_EVAL_FALSE
        end
      end
    else mret tt
  end.
End eval.
