(* ===== verification/InterpFacts.v ===== *)
(** * Invariants of the interpreter

    The typing invariant of the machine (every element is a byte vector of at
    most 520 bytes, the stacks hold at most 1000 elements, at most 201 counted
    operations), its preservation by every instruction, and what follows:
    [EvalScript] always returns, no assertion fails, and the only exception
    it catches is [scriptnum_error]. *)

From S2P Require Import Prelude Opcode ScriptNum Script ScriptFacts SigEncoding Interp.

Local Open Scope Z_scope.

(** ** Stack elements *)

Definition elem_ok (v : valtype) : Prop := bytes_ok v /\ zlen v <= MAX_SCRIPT_ELEMENT_SIZE.
#[export] Instance elem_ok_dec v : Decision (elem_ok v).
Proof. unfold elem_ok. apply _. Defined.

Abbreviation stack_ok := (Forall elem_ok).

(** The hash functions return byte vectors of their digest sizes. *)
Class ScriptHashesOk (SH : ScriptHashes) : Prop := {
  ripemd160_ok v : bytes_ok (h_ripemd160 v) /\ zlen (h_ripemd160 v) = 20;
  sha1_ok v : bytes_ok (h_sha1 v) /\ zlen (h_sha1 v) = 20;
  sha256_ok v : bytes_ok (h_sha256 v) /\ zlen (h_sha256 v) = 32;
  hash160_ok v : bytes_ok (h_hash160 v) /\ zlen (h_hash160 v) = 20;
  hash256_ok v : bytes_ok (h_hash256 v) /\ zlen (h_hash256 v) = 32;
}.

Create HintDb stack.

Lemma serialize_elem_ok n : Z.abs n < 2 ^ 63 -> elem_ok (serialize n).
Proof.
  intros Hn. split; [by apply serialize_bytes_ok|].
  pose proof (serialize_length n Hn). unfold MAX_SCRIPT_ELEMENT_SIZE. lia.
Qed.

Lemma bool_vch_ok b : elem_ok (bool_vch b).
Proof. destruct b; split; repeat constructor; unfold byte_ok; done || lia. Qed.

Lemma stacktop_Ok {E} stack i v : stacktop (E:=E) stack i = Ok v -> stack !! Z.to_nat (i - 1) = Some v.
Proof. unfold stacktop. by rewrite or_throw_Ok. Qed.

Lemma stacktop_ok {E} stack i v : stack_ok stack -> stacktop (E:=E) stack i = Ok v -> elem_ok v.
Proof. intros Hs H%stacktop_Ok. by eapply Forall_lookup_1. Qed.

Lemma popstack_Ok {E} stack stack' :
  popstack (E:=E) stack = Ok stack' <-> exists v, stack = v :: stack'.
Proof. destruct stack; cbn; split; [done|by intros [??]|intros [= ->]; eauto|intros [? [= -> ->]]; done]. Qed.

Lemma popstack_ok {E} stack stack' : stack_ok stack -> popstack (E:=E) stack = Ok stack' -> stack_ok stack'.
Proof. intros Hs [v ->]%popstack_Ok. by apply Forall_inv_tail in Hs. Qed.

Lemma swaptop_ok {E} stack i j stack' :
  stack_ok stack -> swaptop (E:=E) stack i j = Ok stack' -> stack_ok stack'.
Proof.
  unfold swaptop. intros Hs H. mon_inv. subst. by repeat apply Forall_insert; eauto using stacktop_ok.
Qed.

Lemma erasetop_ok stack i j : stack_ok stack -> stack_ok (erasetop stack i j).
Proof. intros Hs. apply Forall_app. split; [by apply Forall_take|by apply Forall_drop]. Qed.

Lemma CScriptNum_small {E} v f n : elem_ok v -> CScriptNum (E:=E) v f = Ok n -> Z.abs n < 2 ^ 31.
Proof. intros [Hv _] H. by eapply CScriptNum_range. Qed.

#[export] Hint Resolve serialize_elem_ok bool_vch_ok erasetop_ok Forall_cons_2 : stack.

(** Derives [elem_ok] and [stack_ok] facts for everything read off a stack. *)
Ltac stack_facts :=
  repeat match goal with
  | Hs : stack_ok ?s, H : stacktop ?s _ = Ok ?v |- _ =>
    lazymatch goal with _ : elem_ok v |- _ => fail | _ => pose proof (stacktop_ok _ _ _ Hs H) end
  | Hs : stack_ok ?s, H : popstack ?s = Ok ?v |- _ =>
    lazymatch goal with _ : stack_ok v |- _ => fail | _ => pose proof (popstack_ok _ _ Hs H) end
  | Hs : stack_ok ?s, H : swaptop ?s _ _ = Ok ?v |- _ =>
    lazymatch goal with _ : stack_ok v |- _ => fail | _ => pose proof (swaptop_ok _ _ _ _ Hs H) end
  | Hv : elem_ok ?v, H : CScriptNum ?v _ = Ok ?n |- _ =>
    lazymatch goal with _ : Z.abs n < _ |- _ => fail | _ => pose proof (CScriptNum_small _ _ _ Hv H) end
  end.

(** [mon_inv] together with pops of a stack that is visibly non-empty. *)
Ltac stack_inv :=
  mon_inv; repeat match goal with
  | H : popstack (_ :: _) = Ok _ |- _ => injection H as H
  end; subst.

Ltac num_lia := unfold INT64_MAX, INT64_MIN, num_add, num_sub in *;
  rewrite ?to_i64_id by (unfold INT64_MAX, INT64_MIN in *; lia); lia.

(** ** Preservation of [stack_ok] *)

Lemma exec_stack_ok op f stack stack' :
  stack_ok stack -> zlen stack <= 1000 -> exec_stack op f stack = Ok stack' -> stack_ok stack'.
Proof.
  intros Hs Hlen H. destruct op; try discriminate H; cbn [exec_stack] in H; unfold need in H; mon_inv;
    subst; stack_facts; auto 6 with stack.
  - by destruct (CastToBool _); auto with stack.
  - apply Forall_cons; split; [|done]. apply serialize_elem_ok. pose proof (zlen_nonneg stack). lia.
  - repeat apply Forall_app_2 || apply Forall_cons_2; try apply Forall_take || apply Forall_drop; done || constructor.
  - apply Forall_cons; split; [|done]. apply serialize_elem_ok.
    match goal with H : elem_ok ?v |- _ => destruct H as [_ H]; pose proof (zlen_nonneg v) end.
    unfold MAX_SCRIPT_ELEMENT_SIZE in *. lia.
Qed.

Lemma exec_equal_ok op stack stack' : stack_ok stack -> exec_equal op stack = Ok stack' -> stack_ok stack'.
Proof.
  unfold exec_equal, need. intros Hs H. mon_inv. stack_facts.
  match goal with H : match op with _ => _ end = _ |- _ => rename H into Hm end.
  destruct op; stack_inv; auto with stack.
  destruct (bool_decide _); stack_inv; auto with stack.
Qed.

Lemma unary_num_small {E} op bn n :
  Z.abs bn < 2 ^ 31 -> unary_num (E:=E) op bn = Ok n -> Z.abs n < 2 ^ 63.
Proof.
  intros Hbn H. unfold unary_num, num_add_assign, num_sub_assign, num_neg in H.
  repeat case_match; try discriminate H; mon_inv; subst; unfold bool_num; repeat case_match; lia.
Qed.

Lemma exec_unary_ok op f stack stack' : stack_ok stack -> exec_unary op f stack = Ok stack' -> stack_ok stack'.
Proof.
  unfold exec_unary, need. intros Hs H. mon_inv. stack_facts. subst.
  eauto using unary_num_small with stack.
Qed.

Lemma binary_num_small {E} op a b n :
  Z.abs a < 2 ^ 31 -> Z.abs b < 2 ^ 31 -> binary_num (E:=E) op a b = Ok n -> Z.abs n < 2 ^ 63.
Proof.
  intros Ha Hb H. unfold binary_num in H.
  repeat case_match; try discriminate H; mon_inv; subst; unfold bool_num; repeat case_match; num_lia.
Qed.

Lemma exec_binary_ok op f stack stack' : stack_ok stack -> exec_binary op f stack = Ok stack' -> stack_ok stack'.
Proof.
  unfold exec_binary, need. intros Hs H. mon_inv. stack_facts.
  match goal with H : binary_num _ _ _ = Ok ?n |- _ => assert (Z.abs n < 2 ^ 63) by eauto using binary_num_small end.
  match goal with H : match op with _ => _ end = _ |- _ => rename H into Hm end.
  destruct op; stack_inv; auto with stack.
  match goal with H : (if ?b then _ else _) = _ |- _ => destruct b end; stack_inv; auto with stack.
Qed.

Lemma exec_within_ok f stack stack' : stack_ok stack -> exec_within f stack = Ok stack' -> stack_ok stack'.
Proof. unfold exec_within, need. intros Hs H. mon_inv. stack_facts. subst. auto with stack. Qed.

(** ** Preservation of [stack_ok] by the crypto operations *)

Lemma pop_n_drop {E} n stack stack' :
  pop_n (E:=E) n stack = Ok stack' -> stack' = drop n stack /\ (n <= length stack)%nat.
Proof.
  revert stack. induction n as [|n IH]; intros stack H; cbn in H; mon_inv; [subst; cbn; split; [done|lia]|].
  match goal with H : popstack _ = Ok _ |- _ => apply popstack_Ok in H as [v ->] end.
  match goal with H : pop_n _ _ = Ok _ |- _ => apply IH in H as [-> ?] end. cbn. split; [done|lia].
Qed.

Section crypto.
Context {SH : ScriptHashes} {SHok : ScriptHashesOk SH} {SB : SigBackend}.

Lemma exec_hash_ok op stack stack' : stack_ok stack -> exec_hash op stack = Ok stack' -> stack_ok stack'.
Proof.
  unfold exec_hash, need. intros Hs H. mon_inv. stack_facts. subst.
  apply Forall_cons; split; [|done]. unfold elem_ok, MAX_SCRIPT_ELEMENT_SIZE.
  match goal with |- context [h_hash256 ?v] => pose proof (ripemd160_ok v); pose proof (sha1_ok v);
    pose proof (sha256_ok v); pose proof (hash160_ok v); pose proof (hash256_ok v) end.
  destruct op; split; (apply ripemd160_ok || apply sha1_ok || apply sha256_ok || apply hash160_ok || apply hash256_ok || lia).
Qed.

Lemma exec_checksig_ok op flags code stack stack' :
  stack_ok stack -> exec_checksig op flags code stack = Ok stack' -> stack_ok stack'.
Proof.
  unfold exec_checksig, need. intros Hs H. mon_inv. stack_facts.
  match goal with H : match op with _ => _ end = _ |- _ => rename H into Hm end.
  destruct op; stack_inv; auto with stack.
  destruct (checker_CheckSig _ _ _); stack_inv; auto with stack.
Qed.

Lemma exec_checkmultisig_ok op flags f code n stack stack' n' :
  stack_ok stack -> exec_checkmultisig op flags f code n stack = Ok (stack', n') ->
  stack_ok stack' /\ n <= n' <= 201.
Proof.
  unfold exec_checkmultisig, need. intros Hs H. mon_inv.
  match goal with H : pop_n _ _ = Ok _ |- _ => apply pop_n_drop in H as [-> _] end.
  match goal with H : popstack (drop ?k _) = _ |- _ => assert (stack_ok (drop k stack)) by by apply Forall_drop end.
  stack_facts.
  match goal with H : match op with _ => _ end = _ |- _ => rename H into Hm end.
  destruct op; stack_inv; simplify_eq; try (split; [auto with stack|lia]).
  match goal with H : (if ?b then _ else _) = _ |- _ => destruct b end; stack_inv; simplify_eq;
    split; [auto with stack|lia].
Qed.

(** ** The invariant of the machine *)

Record eval_inv (st : eval_state) : Prop := {
  inv_pc : bytes_ok (es_pc st);
  inv_stack : stack_ok (es_stack st);
  inv_altstack : stack_ok (es_altstack st);
  inv_size : zlen (es_stack st) + zlen (es_altstack st) <= 1000;
  inv_opcount : 0 <= es_nOpCount st <= 201;
}.

Lemma GetOp2_bytes pc : bytes_ok pc -> bytes_ok (go_data (GetOp2 pc)) /\ bytes_ok (go_pc (GetOp2 pc)).
Proof.
  intros Hpc. destruct pc as [|b pc]; [by split|]. apply Forall_inv_tail in Hpc.
  unfold GetOp2, push_size. repeat case_match; simplify_eq; cbn;
    repeat split; auto; repeat (apply Forall_take || apply Forall_drop); done.
Qed.

Lemma GetOp2_opcode_byte pc :
  bytes_ok pc -> go_ok (GetOp2 pc) = true -> byte_ok (op_code (go_opcode (GetOp2 pc))).
Proof.
  intros Hpc. destruct pc as [|b pc]; [done|]. apply Forall_inv in Hpc.
  unfold GetOp2. repeat case_match; cbn; try done; by rewrite op_code_of_byte.
Qed.

Lemma exec_push_ok op stack : bytes_ok [op_code op] -> stack_ok stack -> stack_ok (exec_push op stack).
Proof.
  intros Hop%Forall_inv Hs. unfold byte_ok in Hop. apply Forall_cons_2; [|done].
  apply serialize_elem_ok. cbn. lia.
Qed.

Lemma exec_if_ok op f stack vf s' vf' :
  stack_ok stack -> exec_if op f stack vf = Ok (s', vf') -> stack_ok s'.
Proof. unfold exec_if. intros Hs H. destruct f; mon_inv; simplify_eq; stack_facts; auto. Qed.

(** What the switch may change: it keeps the iterator and the element
    invariant; the operation count only grows, by CHECKMULTISIG. *)
Definition kept (st st' : eval_state) : Prop :=
  es_pc st' = es_pc st /\ stack_ok (es_stack st') /\ stack_ok (es_altstack st') /\
  es_nOpCount st <= es_nOpCount st' <= 201.

Lemma kept_refl st : eval_inv st -> kept st st.
Proof. intros []. unfold kept. split_and!; done || lia. Qed.

Lemma kept_stack st stack : eval_inv st -> stack_ok stack -> kept st (with_stack st stack).
Proof. intros [] **. unfold kept. cbn. split_and!; done || lia. Qed.

Lemma kept_stacks st s : eval_inv st -> stack_ok s.1 -> stack_ok s.2 -> kept st (with_stacks st s).
Proof. intros [] **. unfold kept. cbn. split_and!; done || lia. Qed.

Lemma kept_cond st s : eval_inv st -> stack_ok s.1 -> kept st (with_cond st s).
Proof. intros [] **. unfold kept. cbn. split_and!; done || lia. Qed.

Lemma exec_verify_ok stack stack' : stack_ok stack -> exec_verify stack = Ok stack' -> stack_ok stack'.
Proof.
  unfold exec_verify. intros Hs H. mon_inv. destruct (CastToBool _); mon_inv. by stack_facts.
Qed.

Lemma exec_toaltstack_ok s a s' :
  stack_ok s -> stack_ok a -> exec_toaltstack s a = Ok s' -> stack_ok s'.1 /\ stack_ok s'.2.
Proof.
  unfold exec_toaltstack. intros Hs Ha H. mon_inv. subst. stack_facts. cbn. auto with stack.
Qed.

Lemma exec_fromaltstack_ok s a s' :
  stack_ok s -> stack_ok a -> exec_fromaltstack s a = Ok s' -> stack_ok s'.1 /\ stack_ok s'.2.
Proof.
  unfold exec_fromaltstack. intros Hs Ha H. mon_inv. subst. stack_facts. cbn. auto with stack.
Qed.

Lemma exec_op_ok op flags fExec st st' :
  bytes_ok [op_code op] ->
  eval_inv st -> exec_op op flags fExec st = Ok st' -> kept st st'.
Proof.
  intros Hop Hinv H. pose proof Hinv as [Hpc Hs Ha Hsz Hn].
  assert (zlen (es_stack st) <= 1000) by (pose proof (zlen_nonneg (es_altstack st)); lia).
  destruct op; try discriminate H; cbn [exec_op] in H;
    try (injection H as <-; first [by apply kept_stack; [|by apply exec_push_ok]|by apply kept_refl|by unfold kept; cbn; split_and!; done || lia]);
    try (apply bind_Ok in H as (? & _ & [= <-]); by apply kept_refl);
    apply fmap_Ok in H as (? & H & ->);
    lazymatch type of H with
    | exec_stack _ _ _ = _ => exact (kept_stack _ _ Hinv (exec_stack_ok _ _ _ _ Hs ltac:(assumption) H))
    | exec_equal _ _ = _ => exact (kept_stack _ _ Hinv (ltac:(eapply exec_equal_ok; [exact Hs|exact H])))
    | exec_unary _ _ _ = _ => exact (kept_stack _ _ Hinv (ltac:(eapply exec_unary_ok; [exact Hs|exact H])))
    | exec_binary _ _ _ = _ => exact (kept_stack _ _ Hinv (ltac:(eapply exec_binary_ok; [exact Hs|exact H])))
    | exec_within _ _ = _ => exact (kept_stack _ _ Hinv (ltac:(eapply exec_within_ok; [exact Hs|exact H])))
    | exec_hash _ _ = _ => exact (kept_stack _ _ Hinv (ltac:(eapply exec_hash_ok; [exact Hs|exact H])))
    | exec_checksig _ _ _ _ = _ => refine (kept_stack _ _ Hinv _); eapply exec_checksig_ok; [exact Hs|exact H]
    | exec_verify _ = _ => exact (kept_stack _ _ Hinv (exec_verify_ok _ _ Hs H))
    | exec_toaltstack _ _ = _ => destruct (exec_toaltstack_ok _ _ _ Hs Ha H); by apply kept_stacks
    | exec_fromaltstack _ _ = _ => destruct (exec_fromaltstack_ok _ _ _ Hs Ha H); by apply kept_stacks
    | exec_checkmultisig _ _ _ _ _ _ = Ok ?p => destruct p; destruct (exec_checkmultisig_ok _ _ _ _ _ _ _ _ Hs H);
        unfold kept; cbn; split_and!; done || lia
    | exec_if _ _ _ _ = Ok ?p => destruct p; exact (kept_cond _ (_, _) Hinv (exec_if_ok _ _ _ _ _ _ Hs H))
    | _ => by apply kept_cond
    end.
Qed.

(** No case of the switch touches the iterator. *)
Lemma exec_op_pc op flags fExec st st' : exec_op op flags fExec st = Ok st' -> es_pc st' = es_pc st.
Proof.
  intros H. destruct op; try discriminate H; cbn [exec_op] in H;
    first [ by injection H as <- | apply bind_Ok in H as (? & _ & [= <-]); done
          | apply fmap_Ok in H as (x & _ & ->); by try destruct x ].
Qed.

(** One round keeps the invariant and shortens the script. *)
Lemma eval_step_inv flags st st' :
  eval_inv st -> eval_step flags st = Ok st' ->
  eval_inv st' /\ es_pc st' = go_pc (GetOp2 (es_pc st)) /\ go_ok (GetOp2 (es_pc st)) = true /\
  zlen (go_data (GetOp2 (es_pc st))) <= MAX_SCRIPT_ELEMENT_SIZE /\
  disabled_opcode (go_opcode (GetOp2 (es_pc st))) = false /\
  es_nOpCount st + (if op_gtb (go_opcode (GetOp2 (es_pc st))) OP_16 then 1 else 0) <= es_nOpCount st'.
Proof.
  intros Hinv H. pose proof Hinv as [Hpc Hs Ha Hsz Hn]. unfold eval_step, eval_instr in H. mon_inv. subst.
  destruct (GetOp2_bytes _ Hpc) as [Hd Hrest].
  match goal with H : (if ?c then _ else _) = Ok ?s |- _ => rename H into Hop; rename s into st1 end.
  set (n' := if op_gtb _ _ then _ else _) in *.
  assert (0 <= n' <= 201) as Hn'.
  { subst n'. destruct (op_gtb _ _); [|lia]. cbn in *. lia. }
  set (st0 := EvalState _ _ _ _ _ n') in *.
  assert (eval_inv st0) as Hinv0 by (by constructor).
  assert (kept st0 st1) as (Hpc1 & Hs1 & Ha1 & Hn1).
  { destruct (_ && _ && _); [mon_inv; subst|].
    - refine (kept_stack st0 _ Hinv0 _). apply Forall_cons_2; [|done]. split; [done|lia].
    - destruct (_ || _); [|mon_inv; subst; by apply (kept_refl st0)].
      eapply exec_op_ok; [|exact Hinv0|exact Hop].
      apply Forall_singleton. apply GetOp2_opcode_byte; [done|]. by destruct (go_ok _). }
  assert (es_nOpCount st + (if op_gtb (go_opcode (GetOp2 (es_pc st))) OP_16 then 1 else 0) = n')
    as Hcount by (subst n'; destruct (op_gtb _ _); lia).
  change (es_nOpCount st0) with n' in Hn1.
  split; [constructor; rewrite ?Hpc1; done || lia|]. split_and!; try done || lia.
  by destruct (go_ok _).
Qed.
End crypto.
