(* ===== verification/InterpSafe.v ===== *)
(** * Exceptions and assertions of the interpreter

    Every access of the switch to the stack is guarded by a size check, every
    assertion of the number class holds for operands of at most four bytes and
    every loop ends.  The only exception the handler of [EvalScript] can see is
    [scriptnum_error], for an element of the stack read as a number. *)

From S2P Require Import Prelude Opcode ScriptNum Script ScriptFacts SigEncoding Interp InterpFacts.

Local Open Scope Z_scope.

(** ** Computations that throw only for a reason *)

(** [m] passes its assertions, and throws only if [P]. *)
Definition raises {E A} (P : Prop) (m : outcome E A) : Prop :=
  match m with Crash => False | Throw => P | _ => True end.

Section raises_lemmas.
Context {E A B : Type} (P : Prop).
Implicit Types (m : outcome E A) (f : A -> outcome E B).

Lemma raises_bind m f :
  raises P m -> (forall a, m = Ok a -> raises P (f a)) -> raises P (m ≫= f).
Proof. destruct m; cbn; auto. Qed.

Lemma raises_fmap (g : A -> B) m : raises P m -> raises P (g <$> m).
Proof. by destruct m. Qed.

Lemma raises_fail_if (b : bool) (e : E) : raises P (fail_if b e).
Proof. by destruct b. Qed.

Lemma raises_weaken (Q : Prop) m : (P -> Q) -> raises P m -> raises Q m.
Proof. destruct m; cbn; auto. Qed.

Lemma raises_no_crash m : raises P m -> no_crash m.
Proof. by destruct m. Qed.

Lemma raises_assert (b : bool) : b = true -> raises P (assert_that (E:=E) b).
Proof. by intros ->. Qed.
End raises_lemmas.

Lemma raises_stacktop {E} P stack i :
  1 <= i <= zlen stack -> raises P (stacktop (E:=E) stack i).
Proof.
  intros Hi. unfold stacktop, zlen in *.
  destruct (lookup_lt_is_Some_2 stack (Z.to_nat (i - 1))) as [v ->]; [lia|done].
Qed.

Lemma raises_popstack {E} P stack : 1 <= zlen stack -> raises P (popstack (E:=E) stack).
Proof. destruct stack; [done|done]. Qed.

Lemma need_Ok stack n : n <= zlen stack -> need stack n = Ok tt.
Proof. intros Hn. unfold need. assert ((zlen stack <? n) = false) as -> by lia. done. Qed.

Lemma popstack_zlen {E} stack stack' : popstack (E:=E) stack = Ok stack' -> zlen stack = 1 + zlen stack'.
Proof. intros [v ->]%popstack_Ok. by rewrite zlen_cons. Qed.

Lemma raises_swaptop {E} P stack i j :
  1 <= i <= zlen stack -> 1 <= j <= zlen stack -> raises P (swaptop (E:=E) stack i j).
Proof.
  intros Hi Hj. unfold swaptop. repeat (apply raises_bind; [by apply raises_stacktop|intros ? _]). done.
Qed.

Lemma swaptop_zlen {E} stack i j stack' : swaptop (E:=E) stack i j = Ok stack' -> zlen stack' = zlen stack.
Proof. unfold swaptop. intros H. mon_inv. subst. unfold zlen. by rewrite !length_insert. Qed.

(** Some element of [stack] is refused by [CScriptNum]. *)
Definition bad_num (f : bool) (stack : list valtype) : Prop :=
  exists v, v ∈ stack /\ CScriptNum (E:=ScriptError) v f = Throw.

Lemma stacktop_elem {E} stack i v : stacktop (E:=E) stack i = Ok v -> v ∈ stack.
Proof. intros H%stacktop_Ok. by apply list_elem_of_lookup_2 in H. Qed.

Lemma raises_CScriptNum v f stack :
  v ∈ stack -> raises (bad_num f stack) (CScriptNum (E:=ScriptError) v f).
Proof.
  intros Hv. destruct (CScriptNum v f) eqn:E; cbn; [done..|by exists v|].
  unfold CScriptNum in E. by destruct (nMaxNumSize <? zlen v), (_ && _) in E.
Qed.

(** Sizes of the stacks popped so far, for [lia]. *)
Ltac stack_sizes :=
  repeat match goal with
  | H : popstack ?s = Ok ?s' |- _ =>
    lazymatch goal with _ : zlen s = 1 + zlen s' |- _ => fail | _ => pose proof (popstack_zlen s s' H) end
  | H : swaptop ?s _ _ = Ok ?s' |- _ =>
    lazymatch goal with _ : zlen s' = zlen s |- _ => fail | _ => pose proof (swaptop_zlen s _ _ s' H) end
  end.

Ltac size_lia := stack_sizes; autorewrite with zlen in *; lia.

Ltac raises_step :=
  lazymatch goal with
  | |- raises _ (_ ≫= _) => apply raises_bind; [|intros ? ?; mon_inv; subst]
  | |- raises _ (_ <$> _) => apply raises_fmap
  | |- raises _ (fail_if _ _) => apply raises_fail_if
  | |- raises _ (mret _) => exact I
  | |- raises _ (Err _) => exact I
  | |- raises _ (Ok _) => exact I
  | |- raises _ (stacktop _ _) => apply raises_stacktop; size_lia
  | |- raises _ (popstack _) => apply raises_popstack; size_lia
  | |- raises _ (swaptop _ _ _) => apply raises_swaptop; size_lia
  | |- raises _ (CScriptNum _ _) => apply raises_CScriptNum; eauto using stacktop_elem
  | |- raises _ (if ?b then _ else _) => destruct b eqn:?
  end.

Ltac raises_tac := repeat raises_step.

(** ** Every case of the switch *)

Section cases.
Implicit Types (op : opcodetype) (f : bool) (stack : list valtype).

Lemma exec_stack_raises op f stack : raises (bad_num f stack) (exec_stack op f stack).
Proof. destruct op; cbn [exec_stack]; unfold need; raises_tac. Qed.

Lemma exec_equal_raises P op stack : raises P (exec_equal op stack).
Proof. unfold exec_equal, need. raises_tac. destruct op; raises_tac. Qed.

Definition is_unary op : bool :=
  match op with OP_1ADD | OP_1SUB | OP_NEGATE | OP_ABS | OP_NOT | OP_0NOTEQUAL => true | _ => false end.

Definition is_binary op : bool :=
  match op with
  | OP_ADD | OP_SUB | OP_BOOLAND | OP_BOOLOR | OP_NUMEQUAL | OP_NUMEQUALVERIFY
  | OP_NUMNOTEQUAL | OP_LESSTHAN | OP_GREATERTHAN | OP_LESSTHANOREQUAL
  | OP_GREATERTHANOREQUAL | OP_MIN | OP_MAX => true
  | _ => false
  end.

(** The assertions of [CScriptNum] hold for operands of four bytes. *)
Lemma unary_num_raises {E} P op bn :
  Z.abs bn < 2 ^ 31 -> is_unary op -> raises P (unary_num (E:=E) op bn).
Proof.
  intros Hbn Hop. unfold unary_num, num_neg, num_add_assign, num_sub_assign, INT64_MIN, INT64_MAX.
  destruct op; try done; raises_tac; apply raises_assert; lia.
Qed.

Lemma binary_num_raises {E} P op a b : is_binary op -> raises P (binary_num (E:=E) op a b).
Proof. by destruct op. Qed.

Lemma exec_unary_raises op f stack :
  stack_ok stack -> is_unary op -> raises (bad_num f stack) (exec_unary op f stack).
Proof.
  intros Hs Hop. unfold exec_unary, need. raises_tac. stack_facts. by apply unary_num_raises.
Qed.

Lemma exec_binary_raises op f stack :
  is_binary op -> raises (bad_num f stack) (exec_binary op f stack).
Proof.
  intros Hop. unfold exec_binary, need. raises_tac; [by apply binary_num_raises|].
  destruct op; raises_tac.
Qed.

Lemma exec_within_raises f stack : raises (bad_num f stack) (exec_within f stack).
Proof. unfold exec_within, need. raises_tac. Qed.
End cases.

Section crypto_cases.
Context {SH : ScriptHashes} {SB : SigBackend}.
Implicit Types (op : opcodetype) (f : bool) (stack : list valtype).

Lemma check_encodings_raises P vchSig vchPubKey flags : raises P (check_encodings vchSig vchPubKey flags).
Proof.
  unfold check_encodings, CheckSignatureEncoding, CheckPubKeyEncoding, IsLowDERSignature. raises_tac.
Qed.

Lemma exec_hash_raises P op stack : raises P (exec_hash op stack).
Proof. unfold exec_hash, need. raises_tac. Qed.

Lemma exec_checksig_raises P op flags code stack : raises P (exec_checksig op flags code stack).
Proof.
  unfold exec_checksig, need. raises_tac; [apply check_encodings_raises|]. destruct op; raises_tac.
Qed.

Lemma drop_sigs_raises P n isig stack code :
  1 <= isig -> isig + Z.of_nat n - 1 <= zlen stack -> raises P (drop_sigs (E:=ScriptError) n isig stack code).
Proof.
  revert isig code. induction n as [|n IH]; intros isig code H1 H2; cbn [drop_sigs]; raises_tac.
  apply IH; lia.
Qed.

(** A round uses up one key; [nKeysCount] rounds are enough. *)
Lemma multisig_loop_raises P fuel flags stack code isig ikey nSigs nKeys fSuccess :
  1 <= isig -> 1 <= ikey -> isig + nSigs - 1 <= zlen stack -> ikey + nKeys - 1 <= zlen stack ->
  (fSuccess = true -> nSigs <= nKeys) -> nKeys <= Z.of_nat fuel ->
  raises P (multisig_loop fuel flags stack code isig ikey nSigs nKeys fSuccess).
Proof.
  revert isig ikey nSigs nKeys fSuccess.
  induction fuel as [|fuel IH]; intros isig ikey nSigs nKeys fSuccess H1 H2 H3 H4 H5 H6;
    cbn [multisig_loop]; (destruct (negb (fSuccess && (0 <? nSigs))) eqn:Hgo; [done|]);
    destruct fSuccess; try done; cbn in Hgo; specialize (H5 eq_refl).
  { lia. }
  raises_tac; [apply check_encodings_raises|].
  destruct (checker_CheckSig _ _ _); (apply IH; [lia..| |lia]); by case_match; lia.
Qed.

Lemma pop_n_raises P n stack : Z.of_nat n <= zlen stack -> raises P (pop_n (E:=ScriptError) n stack).
Proof.
  revert stack. induction n as [|n IH]; intros stack Hn; cbn [pop_n]; raises_tac. apply IH. size_lia.
Qed.

Lemma exec_checkmultisig_raises op flags f code n stack :
  stack_ok stack -> raises (bad_num f stack) (exec_checkmultisig op flags f code n stack).
Proof.
  intros Hs. unfold exec_checkmultisig, need. raises_tac.
  - apply drop_sigs_raises; lia.
  - apply multisig_loop_raises; intros; lia.
  - apply pop_n_raises. lia.
  - match goal with H : pop_n _ _ = Ok _ |- _ => apply pop_n_drop in H as [-> ?] end.
    destruct op; raises_tac.
Qed.

Context {SHok : ScriptHashesOk SH}.

Lemma exec_op_raises op flags fExec st :
  eval_inv st ->
  raises (bad_num (has_flag flags SCRIPT_VERIFY_MINIMALDATA) (es_stack st)) (exec_op op flags fExec st).
Proof.
  intros [Hpc Hs Ha Hsz Hn]. destruct op; cbn [exec_op]; try exact I;
    lazymatch goal with
    | |- raises _ (_ <$> _) => apply raises_fmap
    | |- _ => raises_tac
    end;
    try solve [ exact I | apply exec_stack_raises | apply exec_equal_raises | by apply exec_unary_raises
      | by apply exec_binary_raises | apply exec_within_raises | apply exec_hash_raises
      | apply exec_checksig_raises | by apply exec_checkmultisig_raises ];
    unfold exec_if, exec_else, exec_endif, exec_verify, exec_toaltstack, exec_fromaltstack;
    raises_tac; case_match; done.
Qed.

Lemma eval_step_raises flags st :
  eval_inv st ->
  raises (bad_num (has_flag flags SCRIPT_VERIFY_MINIMALDATA) (es_stack st)) (eval_step flags st).
Proof.
  intros Hinv. unfold eval_step, eval_instr. raises_tac.
  apply (exec_op_raises _ _ _ (EvalState _ _ _ _ _ _)).
  destruct Hinv as [Hpc Hs Ha Hsz Hn]. destruct (GetOp2_bytes _ Hpc) as [Hd Hrest].
  constructor; cbn; try done. destruct (op_gtb _ _); cbn in *; lia.
Qed.
End crypto_cases.

(** * Runs of the interpreter

    The main loop of [EvalScript] seen instruction by instruction: its fuel is
    enough, it preserves the invariant, and pushes of data do what they
    should. *)

(** The number of rounds left is always at most the length of the script. *)
Definition run `{ScriptHashes, SigBackend} (flags : Z) (st : eval_state) : outcome ScriptError eval_state :=
  eval_loop (length (es_pc st)) flags st.

Section run.
Context {SH : ScriptHashes} {SB : SigBackend}.
Implicit Types (flags : Z) (st : eval_state).

Lemma eval_step_shorter flags st st' :
  eval_step flags st = Ok st' ->
  go_ok (GetOp2 (es_pc st)) = true /\ (length (es_pc st') < length (es_pc st))%nat.
Proof.
  intros H. assert (go_ok (GetOp2 (es_pc st)) = true /\ es_pc st' = go_pc (GetOp2 (es_pc st))) as [Hok ->].
  { unfold eval_step, eval_instr in H. mon_inv. subst. split; [by destruct (go_ok _)|].
    match goal with H : (if ?c then _ else _) = Ok ?s |- _ => rename H into Hop end.
    destruct (_ && _ && _); [mon_inv; by subst|].
    destruct (_ || _); [|mon_inv; by subst]. by apply exec_op_pc in Hop. }
  split; [done|]. by apply GetOp2_shorter.
Qed.

Lemma eval_loop_fuel fuel flags st :
  (length (es_pc st) <= fuel)%nat -> eval_loop fuel flags st = run flags st.
Proof.
  unfold run. remember (length (es_pc st)) as n eqn:Hn. revert fuel st Hn.
  induction n as [n IH] using lt_wf_ind. intros fuel st -> Hf.
  destruct (es_pc st) as [|b pc] eqn:Hpc; [by destruct fuel; cbn; rewrite Hpc|].
  destruct fuel as [|fuel]; [cbn in Hf; lia|]. cbn in Hf |- *. rewrite Hpc.
  destruct (eval_step flags st) as [st'| | |] eqn:Hs; [|done..]. cbn.
  apply eval_step_shorter in Hs as [_ Hlt]. rewrite Hpc in Hlt. cbn in Hlt, IH.
  etrans; [|symmetry]; (eapply IH; [|reflexivity|]; lia).
Qed.

Lemma run_nil flags st : es_pc st = [] -> run flags st = Ok st.
Proof. intros H. unfold run. rewrite H. cbn. by rewrite H. Qed.

Lemma run_step flags st :
  es_pc st <> [] -> run flags st = (st' ← eval_step flags st; run flags st').
Proof.
  intros H. unfold run at 1. destruct (es_pc st) as [|b pc] eqn:Hpc; [done|]. cbn. rewrite Hpc.
  destruct (eval_step flags st) as [st'| | |] eqn:Hs; [|done..]. cbn.
  apply eval_step_shorter in Hs as [_ Hlt]. rewrite Hpc in Hlt. cbn in Hlt.
  apply eval_loop_fuel. lia.
Qed.

Lemma EvalScript_run stack script flags :
  EvalScript stack script flags =
    (_ ← fail_if (10000 <? zlen script) SCRIPT_ERR_SCRIPT_SIZE;
     match run flags (eval_init script stack) with
     | Ok st =>
       _ ← fail_if (negb (zlen (es_vfExec st) =? 0)) SCRIPT_ERR_UNBALANCED_CONDITIONAL;
       mret (es_stack st)
     | Err e => Err e
     | Throw => Err SCRIPT_ERR_UNKNOWN_ERROR
     | Crash => Crash
     end).
Proof. done. Qed.

(** Induction along a run: [P] holds of every state from which the rest of
    the run stops, and goes backwards over a round. *)
Lemma run_ind flags (P : eval_state -> outcome ScriptError eval_state -> Prop) :
  (forall st, es_pc st = [] -> P st (Ok st)) ->
  (forall st r, es_pc st <> [] ->
    (forall st', eval_step flags st = Ok st' -> P st' (run flags st')) ->
    r = (st' ← eval_step flags st; run flags st') -> P st r) ->
  forall st, P st (run flags st).
Proof.
  intros Hnil Hstep st. remember (length (es_pc st)) as n eqn:Hn. revert st Hn.
  induction n as [n IH] using lt_wf_ind. intros st ->.
  destruct (es_pc st) eqn:Hpc; [rewrite run_nil by done; auto|].
  eapply Hstep; [by rewrite Hpc| |apply run_step; by rewrite Hpc].
  intros st' Hs. apply eval_step_shorter in Hs as [_ Hlt]. rewrite Hpc in Hlt.
  by eapply IH.
Qed.

(** The loop reads the instruction it stands on. *)
Lemma run_instr flags st chunk op data rest :
  instr chunk op data -> es_pc st = chunk ++ rest ->
  run flags st = (st' ← eval_instr flags op data rest st; run flags st').
Proof.
  intros Hi Hpc. rewrite run_step.
  - unfold eval_step. by rewrite Hpc, (instr_GetOp2 _ _ _ _ Hi).
  - rewrite Hpc. by destruct Hi as [Hne _], chunk.
Qed.

Lemma disabled_opcode_high op : op_code op <= 0x4e -> disabled_opcode op = false.
Proof. by destruct op. Qed.

(** Every push but the shortest is minimal. *)
Lemma CheckMinimalPush_push b : 2 <= zlen b -> CheckMinimalPush b (push_opcode b) = true.
Proof.
  intros Hb. unfold CheckMinimalPush, push_opcode.
  assert ((zlen b =? 0) = false) as -> by lia. assert ((zlen b =? 1) = false) as -> by lia. cbn [andb].
  destruct (Z.leb_spec (zlen b) 75).
  { assert ((zlen b <? 0x4c) = true) as -> by lia. rewrite op_code_of_byte. lia. }
  assert ((zlen b <? 0x4c) = false) as -> by lia. by repeat case_match.
Qed.

(** The push fits, and is minimal if that is asked for. *)
Definition push_fits flags (d : valtype) : Prop :=
  zlen d <= MAX_SCRIPT_ELEMENT_SIZE /\
  (has_flag flags SCRIPT_VERIFY_MINIMALDATA = true -> CheckMinimalPush d (push_opcode d) = true).

Lemma run_push flags d rest code stack alt vf n :
  push_fits flags d -> forallb id vf = true -> zlen stack + zlen alt < 1000 ->
  run flags (EvalState (push_data d ++ rest) code stack alt vf n) =
  run flags (EvalState rest code (d :: stack) alt vf n).
Proof.
  intros [Hd Hmin] Hvf Hsz. unfold MAX_SCRIPT_ELEMENT_SIZE in Hd. pose proof (push_opcode_range d) as Hop.
  rewrite (run_instr flags _ _ _ _ rest (push_data_instr d ltac:(lia))) by done.
  unfold eval_instr, MAX_SCRIPT_ELEMENT_SIZE. cbn [es_vfExec es_nOpCount es_codehash es_stack es_altstack].
  assert ((520 <? zlen d) = false) as -> by lia.
  assert (op_gtb (push_opcode d) OP_16 = false) as -> by (unfold op_gtb; cbn; lia).
  rewrite disabled_opcode_high by lia. rewrite Hvf.
  assert (op_leb OP_0 (push_opcode d) = true) as -> by (unfold op_leb; cbn; lia).
  assert (op_leb (push_opcode d) OP_PUSHDATA4 = true) as -> by (unfold op_leb; cbn; lia).
  cbn [andb fail_if mbind outcome_bind].
  assert (has_flag flags SCRIPT_VERIFY_MINIMALDATA && negb (CheckMinimalPush d (push_opcode d)) = false) as ->.
  { destruct (has_flag _ _); [by rewrite Hmin|done]. }
  cbn [fail_if mbind outcome_bind with_stack es_stack es_altstack mret outcome_ret].
  rewrite zlen_cons. assert ((1000 <? 1 + zlen stack + zlen alt) = false) as -> by lia. done.
Qed.

Lemma run_pushes flags ds rest code stack alt vf n :
  Forall (push_fits flags) ds -> forallb id vf = true -> zlen stack + zlen alt + zlen ds <= 1000 ->
  run flags (EvalState (concat (map push_data ds) ++ rest) code stack alt vf n) =
  run flags (EvalState rest code (reverse ds ++ stack) alt vf n).
Proof.
  intros Hds Hvf. revert stack. induction Hds as [|d ds Hd _ IH]; intros stack Hsz; [done|].
  rewrite zlen_cons in Hsz. pose proof (zlen_nonneg ds). cbn [map concat]. rewrite <-app_assoc.
  rewrite run_push by done || lia. rewrite IH by (rewrite zlen_cons; lia).
  by rewrite reverse_cons, <-app_assoc.
Qed.

(** A script of pushes leaves the pushed data on the stack. *)
Lemma EvalScript_pushes flags ds stack :
  Forall (push_fits flags) ds -> zlen stack + zlen ds <= 1000 ->
  zlen (concat (map push_data ds)) <= 10000 ->
  EvalScript stack (concat (map push_data ds)) flags = Ok (reverse ds ++ stack).
Proof.
  intros Hds Hst Hlen. rewrite EvalScript_run.
  assert ((10000 <? zlen (concat (map push_data ds))) = false) as -> by lia. cbn [fail_if mbind outcome_bind].
  unfold eval_init. rewrite <-(app_nil_r (concat _)) at 1.
  rewrite run_pushes by (done || rewrite (@zlen_nil valtype); lia). by rewrite run_nil.
Qed.

Context {SHok : ScriptHashesOk SH}.

Lemma run_inv flags st st' : eval_inv st -> run flags st = Ok st' -> eval_inv st'.
Proof.
  revert st st'. apply (run_ind flags (fun st r => forall st', eval_inv st -> r = Ok st' -> eval_inv st')).
  - by intros st _ st' H [= <-].
  - intros st r _ IH -> st' Hinv H. mon_inv.
    match goal with H : eval_step _ _ = Ok _ |- _ => pose proof (eval_step_inv _ _ _ Hinv H) as [? _]; eauto end.
Qed.

Lemma run_raises flags st : eval_inv st -> raises True (run flags st).
Proof.
  revert st. apply (run_ind flags (fun st r => eval_inv st -> raises True r)); [done|].
  intros st r _ IH -> Hinv. apply raises_bind; [by eapply raises_weaken, eval_step_raises|].
  intros st' Hs. pose proof (eval_step_inv _ _ _ Hinv Hs) as [? _]. eauto.
Qed.

(** What the loop demands of an instruction, executed or not. *)
Definition admissible (c : list Z) : Prop :=
  exists op data, instr c op data /\ disabled_opcode op = false /\ zlen data <= MAX_SCRIPT_ELEMENT_SIZE.

(** The number of operations above [OP_16]. *)
Definition count_ops (cs : list (list Z)) : Z :=
  zlen (filter (fun c => op_gtb (go_opcode (GetOp2 c)) OP_16 = true) cs).

Lemma run_parses flags st st' :
  eval_inv st -> run flags st = Ok st' ->
  exists cs, parses (es_pc st) cs [] /\ Forall admissible cs /\
    es_nOpCount st + count_ops cs <= es_nOpCount st'.
Proof.
  revert st st'. apply (run_ind flags (fun st r => forall st', eval_inv st -> r = Ok st' ->
    exists cs, parses (es_pc st) cs [] /\ Forall admissible cs /\
      es_nOpCount st + count_ops cs <= es_nOpCount st')).
  - intros st Hpc st' _ [= <-]. exists []. rewrite Hpc. split_and!; [by apply parses_stop|done|change (count_ops []) with 0; lia].
  - intros st r _ IH -> st2 Hinv H. apply bind_Ok in H as (st1 & Hs & H).
    destruct (eval_step_inv _ _ _ Hinv Hs) as (Hinv1 & Hpc & Hok & Hd & Hdis & Hn).
    destruct (IH _ Hs _ Hinv1 H) as (cs & Hp & Hcs & Hc).
    destruct (GetOp2_instr _ Hok) as (chunk & Epc & Hi). rewrite Hpc in Hp.
    exists (chunk :: cs). split_and!.
    + rewrite Epc. by econstructor.
    + constructor; [|done]. by eexists _, _.
    + pose proof (instr_GetOp2 _ _ _ [] Hi) as Hg. rewrite app_nil_r in Hg.
      unfold count_ops in *. rewrite filter_cons, Hg. cbn [go_opcode].
      destruct (op_gtb _ OP_16); [rewrite decide_True by done|rewrite decide_False by done];
        rewrite ?zlen_cons; lia.
Qed.
End run.
