(* ===== verification/Multisig.v ===== *)
(** * CHECKMULTISIG

    The loop of OP_CHECKMULTISIG tries the signatures against the keys in
    order, giving up a key per round.  It succeeds exactly when the signatures
    match some of the keys in their order. *)

From S2P Require Import Prelude Opcode ScriptNum Script ScriptFacts SigEncoding Interp InterpFacts InterpSafe.

Local Open Scope Z_scope.

(** ** The specification *)

Section matching.
Variable ok : valtype -> valtype -> bool.

(** Each signature checks against a key of its own, the keys taken in order. *)
Definition sigs_match (sigs keys : list valtype) : Prop :=
  exists ks, ks `sublist_of` keys /\ Forall2 (fun s k => ok s k = true) sigs ks.

(** Greedy matching. *)
Fixpoint greedy (sigs keys : list valtype) : bool :=
  match sigs, keys with
  | [], _ => true
  | _, [] => false
  | s :: sigs', k :: keys => if ok s k then greedy sigs' keys else greedy sigs keys
  end.

Lemma sigs_match_tail s sigs keys : sigs_match (s :: sigs) keys -> sigs_match sigs keys.
Proof.
  intros (ks & Hks & HF). apply Forall2_cons_inv_l in HF as (k & ks' & _ & HF & ->).
  exists ks'. split; [|done]. etrans; [|exact Hks]. by constructor.
Qed.

Lemma greedy_spec sigs keys : greedy sigs keys = true <-> sigs_match sigs keys.
Proof.
  revert sigs. induction keys as [|k keys IH]; intros [|s sigs]; cbn.
  - split; [|done]. intros _. by exists [].
  - split; [done|]. intros (ks & ->%sublist_nil_r & HF). by inversion HF.
  - split; [|done]. intros _. exists []. split; [apply sublist_nil_l|done].
  - destruct (ok s k) eqn:Hok; rewrite IH; split.
    + intros (ks & Hks & HF). exists (k :: ks). split; [by constructor|by constructor].
    + intros (ks & Hks & HF). apply Forall2_cons_inv_l in HF as (k' & ks' & Hk' & HF & ->).
      exists ks'. split; [|done]. inversion Hks; subst; [done|]. etrans; [|eassumption]. by constructor.
    + intros (ks & Hks & HF). exists ks. split; [by constructor|done].
    + intros (ks & Hks & HF). inversion HF as [|? k' ? ks' Hk' HF']; subst.
      exists (k' :: ks'). split; [|by constructor]. inversion Hks; subst; congruence.
Qed.
End matching.

(** ** The loop *)

Section loop.
Context {SH : ScriptHashes} {SB : SigBackend}.

(** The script code the signatures are checked over: each is deleted from it. *)
Definition without_sigs (code : list Z) (sigs : list valtype) : list Z :=
  fold_left (fun c s => snd (FindAndDelete c (push_data s))) sigs code.

Lemma stacktop_app {E} (pre post : list valtype) v i :
  i = zlen pre + 1 -> stacktop (E:=E) (pre ++ v :: post) i = Ok v.
Proof.
  intros ->. unfold stacktop, zlen. replace (Z.to_nat _) with (length pre) by lia.
  rewrite lookup_app_r, Nat.sub_diag by lia. done.
Qed.

Lemma drop_sigs_app {E} pre sigs post code :
  drop_sigs (E:=E) (length sigs) (zlen pre + 1) (pre ++ sigs ++ post) code = Ok (without_sigs code sigs).
Proof.
  revert pre code. induction sigs as [|s sigs IH]; intros pre code; [done|].
  cbn [length drop_sigs app]. rewrite stacktop_app by done. cbn [mbind outcome_bind].
  specialize (IH (pre ++ [s]) (snd (FindAndDelete code (push_data s)))).
  rewrite <-app_assoc in IH. cbn [app] in IH. by rewrite zlen_app in IH.
Qed.

Lemma pop_n_app {E} pre post : pop_n (E:=E) (length pre) (pre ++ post) = Ok post.
Proof. induction pre as [|v pre IH]; [done|apply IH]. Qed.

(** The encodings of every pair the loop may try are accepted. *)
Definition encodings_ok (flags : Z) (sigs keys : list valtype) : Prop :=
  forall s k, s ∈ sigs -> k ∈ keys -> check_encodings s k flags = Ok tt.

Lemma multisig_loop_greedy fuel flags stack code spre sigs spost kpre keys kpost :
  stack = spre ++ sigs ++ spost -> stack = kpre ++ keys ++ kpost ->
  encodings_ok flags sigs keys -> (length sigs <= length keys)%nat -> (length keys <= fuel)%nat ->
  multisig_loop fuel flags stack code (zlen spre + 1) (zlen kpre + 1) (zlen sigs) (zlen keys) true =
    Ok (greedy (fun s k => checker_CheckSig s k code) sigs keys).
Proof.
  revert fuel spre sigs kpre. induction keys as [|k keys IH]; intros fuel spre sigs kpre Hs Hk Henc Hle Hf.
  { destruct sigs; [|cbn in Hle; lia]. by destruct fuel. }
  destruct sigs as [|s sigs]; [by destruct fuel|].
  destruct fuel as [|fuel]; [cbn in Hf; lia|]. cbn [multisig_loop length] in *.
  assert ((0 <? zlen (s :: sigs)) = true) as -> by (rewrite zlen_cons; pose proof (zlen_nonneg sigs); lia).
  cbn [andb negb].
  assert (stacktop (E:=ScriptError) stack (zlen spre + 1) = Ok s) as -> by (rewrite Hs; by apply stacktop_app).
  assert (stacktop (E:=ScriptError) stack (zlen kpre + 1) = Ok k) as -> by (rewrite Hk; by apply stacktop_app).
  cbn [mbind outcome_bind].
  rewrite Henc by set_solver. cbn [mbind outcome_bind greedy].
  assert (encodings_ok flags sigs keys) by (intros ????; apply Henc; set_solver).
  assert (encodings_ok flags (s :: sigs) keys) by (intros ????; apply Henc; set_solver).
  replace (zlen (k :: keys) - 1) with (zlen keys) by (rewrite zlen_cons; lia).
  assert (zlen kpre + 1 + 1 = zlen (kpre ++ [k]) + 1) as -> by (rewrite zlen_app; done).
  destruct (checker_CheckSig s k code).
  - replace (zlen (s :: sigs) - 1) with (zlen sigs) by (rewrite zlen_cons; lia).
    assert ((zlen keys <? zlen sigs) = false) as -> by (unfold zlen; lia).
    assert (zlen spre + 1 + 1 = zlen (spre ++ [s]) + 1) as -> by (rewrite zlen_app; done).
    apply IH; rewrite <-?app_assoc; done || lia.
  - destruct (Z.ltb_spec (zlen keys) (zlen (s :: sigs))) as [Hlt|Hge].
    + destruct fuel; cbn; destruct (greedy _ _ keys) eqn:Hg; try done;
        apply greedy_spec in Hg as (ks & Hsub & HF); apply Forall2_length in HF;
        apply sublist_length in Hsub; unfold zlen in *; cbn in *; lia.
    + apply IH; rewrite <-?app_assoc; try done; unfold zlen in *; cbn [length] in *; lia.
Qed.

(** The stack of a CHECKMULTISIG, from the top: the number of keys, the
    keys, the number of signatures, the signatures and the dummy. *)
Definition multisig_stack (sigs keys : list valtype) (dummy : valtype) (rest : list valtype) : list valtype :=
  serialize (zlen keys) :: keys ++ serialize (zlen sigs) :: sigs ++ dummy :: rest.

Lemma exec_checkmultisig_run flags f code n sigs keys dummy rest :
  zlen sigs <= zlen keys <= 20 -> n + zlen keys <= 201 ->
  encodings_ok flags sigs keys ->
  (has_flag flags SCRIPT_VERIFY_NULLDUMMY = true -> dummy = []) ->
  exec_checkmultisig OP_CHECKMULTISIG flags f code n (multisig_stack sigs keys dummy rest) =
    Ok (bool_vch (greedy (fun s k => checker_CheckSig s k (without_sigs code sigs)) sigs keys) :: rest,
        n + zlen keys).
Proof.
  intros Hlen Hn Henc Hdummy. set (stack := multisig_stack _ _ _ _).
  pose proof (zlen_nonneg sigs). pose proof (zlen_nonneg keys). pose proof (zlen_nonneg rest).
  set (kpre := [serialize (zlen keys)]).
  set (spre := kpre ++ keys ++ [serialize (zlen sigs)]).
  assert (stack = kpre ++ keys ++ serialize (zlen sigs) :: sigs ++ dummy :: rest) as Ek by done.
  assert (stack = spre ++ sigs ++ dummy :: rest) as Es by (unfold spre; cbn; by rewrite <-app_assoc).
  assert (zlen stack = zlen keys + zlen sigs + zlen rest + 3) as Hst
    by (rewrite Ek; autorewrite with zlen; unfold kpre; cbn; autorewrite with zlen; lia).
  assert (zlen spre = zlen keys + 2) as Hspre by (unfold spre, kpre; autorewrite with zlen; lia).
  unfold exec_checkmultisig.
  rewrite need_Ok by lia.
  change (stacktop stack 1) with (Ok (E:=ScriptError) (serialize (zlen keys))). cbn [mbind outcome_bind].
  rewrite CScriptNum_serialize by lia. cbn [mbind outcome_bind]. rewrite getint_id by lia.
  assert ((zlen keys <? 0) || (20 <? zlen keys) = false) as -> by lia.
  assert ((201 <? n + zlen keys) = false) as -> by lia. cbn [fail_if mbind outcome_bind].
  rewrite need_Ok by lia.
  assert (stacktop (E:=ScriptError) stack (2 + zlen keys) = Ok (serialize (zlen sigs))) as ->.
  { rewrite Ek, app_assoc. apply stacktop_app. unfold kpre. rewrite zlen_app, zlen_cons, zlen_nil. lia. }
  cbn [mbind outcome_bind].
  rewrite CScriptNum_serialize by lia. cbn [mbind outcome_bind]. rewrite getint_id by lia.
  assert ((zlen sigs <? 0) || (zlen keys <? zlen sigs) = false) as -> by lia. cbn [fail_if mbind outcome_bind].
  rewrite need_Ok by lia. cbn [mbind outcome_bind].
  replace (2 + zlen keys + 1) with (zlen spre + 1) by lia.
  assert (Z.to_nat (zlen sigs) = length sigs) as -> by (unfold zlen; lia).
  assert (Z.to_nat (zlen keys) = length keys) as -> by (unfold zlen; lia).
  rewrite Es at 1. rewrite drop_sigs_app. cbn [mbind outcome_bind].
  change 2 with (zlen kpre + 1) at 1.
  rewrite (multisig_loop_greedy _ _ _ _ spre sigs (dummy :: rest) kpre keys (serialize (zlen sigs) :: sigs ++ dummy :: rest))
    by (done || unfold zlen in *; lia).
  cbn [mbind outcome_bind].
  assert (Z.to_nat (zlen spre + 1 + zlen sigs - 1) = length (spre ++ sigs)) as ->
    by (rewrite length_app; unfold zlen; lia).
  rewrite Es, app_assoc, pop_n_app. cbn [mbind outcome_bind].
  rewrite need_Ok by (rewrite zlen_cons; lia).
  change (stacktop (dummy :: rest) 1) with (Ok (E:=ScriptError) dummy). cbn [mbind outcome_bind].
  assert (has_flag flags SCRIPT_VERIFY_NULLDUMMY && negb (zlen dummy =? 0) = false) as ->; [|done].
  destruct (has_flag _ _); [by rewrite Hdummy|done].
Qed.
End loop.

(** ** Property *)

(** C32: CHECKMULTISIG pushes true exactly when the signatures check, over the
    script without them, against keys of the list taken in order; it pops its
    arguments and the dummy and counts one operation per key. *)
Theorem CHECKMULTISIG_matches `{SB : SigBackend} flags f code n sigs keys dummy rest
    (Hlen : zlen sigs <= zlen keys <= 20) (Hn : n + zlen keys <= 201)
    (Henc : encodings_ok flags sigs keys)
    (Hdummy : has_flag flags SCRIPT_VERIFY_NULLDUMMY = true -> dummy = []) :
  exists b,
    exec_checkmultisig OP_CHECKMULTISIG flags f code n (multisig_stack sigs keys dummy rest) =
      Ok (bool_vch b :: rest, n + zlen keys) /\
    (b = true <-> sigs_match (fun s k => checker_CheckSig s k (without_sigs code sigs)) sigs keys).
Proof.
  eexists. split; [by apply exec_checkmultisig_run|]. apply greedy_spec.
Qed.

#[local] Instance eq_backend : SigBackend := {
  CheckLowS := fun _ => true;
  checker_CheckSig := fun vchSig vchPubKey _ => bool_decide (vchSig = vchPubKey);
}.

Lemma CHECKMULTISIG_matches_witness :
  exists b,
    exec_checkmultisig OP_CHECKMULTISIG 0 false [0xae] 1 (multisig_stack [[7]; [9]] [[7]; [8]; [9]] [] [[5]]) =
      Ok (bool_vch b :: [[5]], 4) /\
    (b = true <-> sigs_match (fun s k => checker_CheckSig s k (without_sigs [0xae] [[7]; [9]]))
                    [[7]; [9]] [[7]; [8]; [9]]).
Proof.
  apply (CHECKMULTISIG_matches 0 false [0xae] 1 [[7]; [9]] [[7]; [8]; [9]] [] [[5]]).
  - by vm_compute.
  - by vm_compute.
  - intros s k _ _. reflexivity.
  - done.
Defined.
