(* ===== verification/InterpProps.v ===== *)
(** * Properties of the script interpreter *)

From S2P Require Import Prelude.
From S2P Require Import Opcode.
From S2P Require Import ScriptNum.
From S2P Require Import Script.
From S2P Require Import ScriptFacts.
From S2P Require Import SigEncoding.
From S2P Require Import Interp.
From S2P Require Import InterpFacts.
From S2P Require Import InterpSafe.
From S2P Require Import InterpSafe.

Local Open Scope Z_scope.

(** A concrete instance for the witnesses: hashes of the right size and a
    checker that accepts a signature equal to its key. *)
Definition toy_hash (n : nat) (v : valtype) : valtype :=
  take n (filter (fun b => byte_ok b) v ++ replicate n 0).

#[local] Instance toy_hashes : ScriptHashes := {
  h_ripemd160 := toy_hash 20;
  h_sha1 := toy_hash 20;
  h_sha256 := toy_hash 32;
  h_hash160 := toy_hash 20;
  h_hash256 := toy_hash 32;
}.

#[local] Instance toy_backend : SigBackend := {
  CheckLowS := fun _ => true;
  checker_CheckSig := fun vchSig vchPubKey _ => bool_decide (vchSig = vchPubKey);
}.

Lemma toy_hash_ok n v : bytes_ok (toy_hash n v) /\ zlen (toy_hash n v) = Z.of_nat n.
Proof.
  unfold toy_hash. split.
  - apply Forall_take, Forall_app. split; [|apply Forall_replicate; unfold byte_ok; lia].
    apply Forall_forall. intros b [? _]%list_elem_of_filter. done.
  - unfold zlen. rewrite length_take, length_app, length_replicate. lia.
Qed.

#[local] Instance toy_hashes_ok : ScriptHashesOk toy_hashes.
Proof. split; intros v; apply toy_hash_ok. Qed.

Ltac fold_state := unfold with_stack; cbn [es_pc es_codehash es_stack es_altstack es_vfExec es_nOpCount].

Section props.
Context {SH : ScriptHashes} {SB : SigBackend} {SHok : ScriptHashesOk SH}.

Lemma eval_init_inv script stack :
  bytes_ok script -> stack_ok stack -> zlen stack <= 1000 -> eval_inv (eval_init script stack).
Proof. intros. constructor; cbn; try done; rewrite ?(@zlen_nil valtype); lia. Qed.

Lemma EvalScript_Ok stack script flags stack' :
  EvalScript stack script flags = Ok stack' ->
  exists st, run flags (eval_init script stack) = Ok st /\ es_stack st = stack' /\
    es_vfExec st = [] /\ zlen script <= 10000.
Proof.
  rewrite EvalScript_run. intros H. mon_inv.
  match goal with H : match ?m with _ => _ end = _ |- _ => destruct m as [st| | |] eqn:E; try done end.
  mon_inv. exists st. split_and!; try done; [|lia].
  apply zlen_0. by destruct (Z.eqb_spec (zlen (es_vfExec st)) 0).
Qed.

Lemma EvalScript_ends stack script flags :
  bytes_ok script -> stack_ok stack -> zlen stack <= 1000 ->
  raises False (EvalScript stack script flags).
Proof.
  intros H1 H2 H3. rewrite EvalScript_run. apply raises_bind; [apply raises_fail_if|intros _ _].
  pose proof (run_raises flags _ (eval_init_inv _ _ H1 H2 H3)) as Hr.
  destruct (run flags _); cbn in *; raises_tac; done.
Qed.

Lemma EvalScript_stack_ok stack script flags stack' :
  bytes_ok script -> stack_ok stack -> zlen stack <= 1000 ->
  EvalScript stack script flags = Ok stack' -> stack_ok stack' /\ zlen stack' <= 1000.
Proof.
  intros H1 H2 H3 (st & Hr & <- & _)%EvalScript_Ok.
  pose proof (run_inv _ _ _ (eval_init_inv _ _ H1 H2 H3) Hr) as [_ Hs _ Hsz _].
  pose proof (zlen_nonneg (es_altstack st)). split; [done|lia].
Qed.

(** ** Running templates *)

(** A step over an executed opcode above [OP_16]. *)
Lemma run_op flags b rest code stack alt vf n :
  op_code OP_16 < b -> disabled_opcode (opcode_of_byte b) = false -> forallb id vf = true -> n < 201 ->
  run flags (EvalState (b :: rest) code stack alt vf n) =
  (st ← exec_op (opcode_of_byte b) flags true (EvalState rest code stack alt vf (n + 1));
   _ ← fail_if (1000 <? zlen (es_stack st) + zlen (es_altstack st)) SCRIPT_ERR_STACK_SIZE;
   run flags st).
Proof.
  intros Hb Hdis Hvf Hn. cbn in Hb.
  rewrite (run_instr flags _ _ _ _ rest (opcode_instr b ltac:(lia))) by done.
  unfold eval_instr. cbn [es_vfExec es_nOpCount es_codehash es_stack es_altstack].
  change (MAX_SCRIPT_ELEMENT_SIZE <? zlen []) with false.
  assert (op_gtb (opcode_of_byte b) OP_16 = true) as -> by (unfold op_gtb; rewrite op_code_of_byte; cbn; lia).
  assert (op_leb (opcode_of_byte b) OP_PUSHDATA4 = false) as ->
    by (unfold op_leb; rewrite op_code_of_byte; cbn; lia).
  rewrite Hdis, Hvf, andb_false_r. assert ((201 <? n + 1) = false) as -> by lia.
  cbn [andb orb fail_if mbind outcome_bind].
  destruct (exec_op _ _ _ _) as [st| | |]; [|done..]. cbn. by destruct (fail_if _ _).
Qed.

Lemma run_op_Ok flags b rest code stack alt vf n st :
  op_code OP_16 < b -> disabled_opcode (opcode_of_byte b) = false -> forallb id vf = true -> n < 201 ->
  exec_op (opcode_of_byte b) flags true (EvalState rest code stack alt vf (n + 1)) = Ok st ->
  zlen (es_stack st) + zlen (es_altstack st) <= 1000 ->
  run flags (EvalState (b :: rest) code stack alt vf n) = run flags st.
Proof.
  intros. rewrite run_op by done.
  match goal with H : exec_op _ _ _ _ = _ |- _ => rewrite H end. cbn [mbind outcome_bind].
  assert ((1000 <? zlen (es_stack st) + zlen (es_altstack st)) = false) as -> by lia. done.
Qed.

Lemma exec_hash_top op v stack :
  exec_hash op (v :: stack) = Ok (match op with
    | OP_RIPEMD160 => h_ripemd160 v | OP_SHA1 => h_sha1 v | OP_SHA256 => h_sha256 v
    | OP_HASH160 => h_hash160 v | _ => h_hash256 v end :: stack).
Proof. unfold exec_hash. rewrite need_Ok; [done|]. rewrite zlen_cons. pose proof (zlen_nonneg stack). lia. Qed.

Lemma exec_equal_top op u v stack :
  exec_equal op (u :: v :: stack) =
  match op with
  | OP_EQUALVERIFY => if bool_decide (v = u) then Ok stack else Err SCRIPT_ERR_EQUALVERIFY
  | _ => Ok (bool_vch (bool_decide (v = u)) :: stack)
  end.
Proof.
  unfold exec_equal. rewrite need_Ok by (rewrite !zlen_cons; pose proof (zlen_nonneg stack); lia).
  change (stacktop (u :: v :: stack) 2) with (Ok (E:=ScriptError) v).
  change (stacktop (u :: v :: stack) 1) with (Ok (E:=ScriptError) u). cbn -[bool_decide].
  by destruct (bool_decide (v = u)), op.
Qed.

Lemma exec_dup_top f v stack : exec_stack OP_DUP f (v :: stack) = Ok (v :: v :: stack).
Proof. cbn. rewrite need_Ok; [done|]. rewrite zlen_cons. pose proof (zlen_nonneg stack). lia. Qed.

Lemma exec_checksig_top flags code vchSig vchPubKey stack :
  exec_checksig OP_CHECKSIG flags code (vchPubKey :: vchSig :: stack) =
  (_ ← check_encodings vchSig vchPubKey flags;
   Ok (bool_vch (checker_CheckSig vchSig vchPubKey (snd (FindAndDelete code (push_data vchSig)))) :: stack)).
Proof.
  unfold exec_checksig. rewrite need_Ok by (rewrite !zlen_cons; pose proof (zlen_nonneg stack); lia). done.
Qed.

(** A push of a hash is executed whatever the flags. *)
Lemma push20_fits flags h : zlen h = 20 -> push_fits flags h.
Proof.
  intros Hh. split; [unfold MAX_SCRIPT_ELEMENT_SIZE; lia|]. intros _. apply CheckMinimalPush_push. lia.
Qed.

(** What [OP_HASH160 <h> OP_EQUAL] computes. *)
Lemma EvalScript_p2sh h stack flags :
  zlen h = 20 -> zlen stack <= 998 ->
  EvalScript stack (0xa9 :: push_data h ++ [0x87]) flags =
  match stack with
  | [] => Err SCRIPT_ERR_INVALID_STACK_OPERATION
  | r :: stack => Ok (bool_vch (bool_decide (h_hash160 r = h)) :: stack)
  end.
Proof.
  intros Hh Hst. rewrite EvalScript_run. unfold eval_init. set (code := _ :: _) at 3.
  assert (zlen (0xa9 :: push_data h ++ [0x87]) = 23) as ->
    by (rewrite zlen_push20 by done; autorewrite with zlen; lia).
  change (fail_if (10000 <? 23) SCRIPT_ERR_SCRIPT_SIZE) with (Ok (E:=ScriptError) tt). cbn [mbind outcome_bind].
  destruct stack as [|r stack]; [by rewrite run_op|].
  pose proof (zlen_nonneg stack). rewrite zlen_cons in Hst.
  erewrite run_op_Ok; [|done..|cbn -[push_data bool_decide]; rewrite exec_hash_top; reflexivity|
    cbn; rewrite zlen_cons, (@zlen_nil valtype); lia]; fold_state.
  rewrite run_push by (done || (by apply push20_fits) || (rewrite !zlen_cons, (@zlen_nil valtype); lia)).
  erewrite run_op_Ok; [|done..|cbn -[push_data bool_decide]; rewrite exec_equal_top; reflexivity|
    cbn; rewrite zlen_cons, (@zlen_nil valtype); lia]; fold_state.
  by rewrite run_nil.
Qed.

(** What [OP_DUP OP_HASH160 <h> OP_EQUALVERIFY OP_CHECKSIG] computes. *)
Definition p2pkh (h : valtype) : list Z := [0x76; 0xa9] ++ push_data h ++ [0x88; 0xac].

Lemma EvalScript_p2pkh h vchSig vchPubKey flags :
  zlen h = 20 ->
  EvalScript [vchPubKey; vchSig] (p2pkh h) flags =
  if bool_decide (h_hash160 vchPubKey = h) then
    _ ← check_encodings vchSig vchPubKey flags;
    Ok [bool_vch (checker_CheckSig vchSig vchPubKey (snd (FindAndDelete (p2pkh h) (push_data vchSig))))]
  else Err SCRIPT_ERR_EQUALVERIFY.
Proof.
  intros Hh. rewrite EvalScript_run. unfold eval_init.
  assert (zlen (p2pkh h) = 25) as ->
    by (unfold p2pkh; rewrite zlen_push20 by done; autorewrite with zlen; lia).
  change (fail_if (10000 <? 25) SCRIPT_ERR_SCRIPT_SIZE) with (Ok (E:=ScriptError) tt). cbn [mbind outcome_bind].
  unfold p2pkh at 1. cbn [app].
  erewrite run_op_Ok; [|done..|cbn -[push_data bool_decide p2pkh exec_stack]; rewrite exec_dup_top; reflexivity|done]; fold_state.
  erewrite run_op_Ok; [|done..|cbn -[push_data bool_decide p2pkh]; rewrite exec_hash_top; reflexivity|done]; fold_state.
  rewrite run_push by (done || by apply push20_fits).
  destruct (bool_decide (h_hash160 vchPubKey = h)) eqn:Heq.
  - erewrite run_op_Ok; [|done..|cbn -[push_data bool_decide p2pkh]; rewrite exec_equal_top, Heq; reflexivity|done];
      fold_state.
    rewrite run_op by done. cbn -[bool_decide run p2pkh FindAndDelete push_data]. rewrite exec_checksig_top.
    pose proof (check_encodings_raises False vchSig vchPubKey flags).
    destruct (check_encodings _ _ _) as [[]| | |]; [|done..]. cbn -[run p2pkh FindAndDelete push_data].
    by rewrite run_nil.
  - rewrite run_op by done. cbn -[bool_decide run p2pkh push_data]. by rewrite exec_equal_top, Heq.
Qed.

Lemma IsPushOnly_pushes ds :
  Forall (fun d => zlen d < 2 ^ 32) ds -> IsPushOnly (concat (map push_data ds)) = true.
Proof.
  intros Hds. apply IsPushOnly_spec. exists (map push_data ds). split; [|done].
  apply Forall_map. eapply Forall_impl; [exact Hds|]. apply push_data_is_push.
Qed.

Lemma push_data_size d : zlen d <= 520 -> zlen (push_data d) <= 525.
Proof.
  intros Hd. unfold push_data. repeat case_match; autorewrite with zlen; rewrite ?zlen_le_encode; lia.
Qed.

(** The signature's own push is not part of the script it signs. *)
Lemma FindAndDelete_p2pkh h vchSig :
  zlen h = 20 -> 2 <= zlen vchSig <= MAX_SCRIPT_ELEMENT_SIZE -> vchSig <> h ->
  snd (FindAndDelete (p2pkh h) (push_data vchSig)) = p2pkh h.
Proof.
  unfold MAX_SCRIPT_ELEMENT_SIZE. intros Hh Hs Hne.
  assert (parses (p2pkh h) [[0x76]; [0xa9]; push_data h; [0x88]; [0xac]] []) as Hp.
  { assert (p2pkh h = concat [[0x76]; [0xa9]; push_data h; [0x88]; [0xac]] ++ []) as ->
      by (cbn [concat]; rewrite app_nil_r; done).
    apply parses_build; [|done]. repeat (apply Forall_cons_2; [|]); try apply Forall_nil_2; eexists _, _;
      (by apply opcode_instr) || (apply push_data_instr; lia). }
  assert (zlen (push_data vchSig) > 1) as Hlong.
  { unfold push_data. repeat case_match; autorewrite with zlen; rewrite ?zlen_le_encode; lia. }
  rewrite (FindAndDelete_instr _ _ _ _ _ _ (push_data_instr vchSig ltac:(lia)) Hp). cbn [snd].
  rewrite !filter_cons, filter_nil. rewrite !decide_True; [by cbn [concat]; rewrite !app_nil_r|..];
    try (intros E; rewrite <-E in Hlong; by vm_compute in Hlong).
  intros E. apply Hne. pose proof (instr_GetOp2 _ _ _ [] (push_data_instr vchSig ltac:(lia))) as G.
  rewrite <-E, (instr_GetOp2 _ _ _ [] (push_data_instr h ltac:(lia))) in G. congruence.
Qed.
End props.

(** ** Properties *)

(** C26: [EvalScript] always returns: its loop ends, none of its assertions
    fails and no exception escapes it.  The stack it leaves is well formed:
    elements are byte vectors of at most 520 bytes, at most 1000 of them. *)
Theorem EvalScript_total `{SH : ScriptHashes, SB : SigBackend} (SHok : ScriptHashesOk SH)
    stack script flags
    (Hscript : bytes_ok script) (Hstack : stack_ok stack) (Hsize : zlen stack <= 1000) :
  match EvalScript stack script flags with
  | Ok stack' => stack_ok stack' /\ zlen stack' <= 1000
  | Err _ => True
  | Throw | Crash => False
  end.
Proof.
  pose proof (EvalScript_ends _ _ flags Hscript Hstack Hsize) as Hr.
  pose proof (EvalScript_stack_ok stack script flags) as Hs.
  destruct (EvalScript stack script flags); cbn in Hr; auto.
Qed.

Lemma EvalScript_total_witness :
  match EvalScript [[1]; [2]] [0x93] 0 with
  | Ok stack' => stack_ok stack' /\ zlen stack' <= 1000
  | Err _ => True
  | Throw | Crash => False
  end.
Proof. apply (EvalScript_total _ [[1]; [2]] [0x93] 0); decide_now. Defined.

(** [VerifyScript] always returns for scripts of bytes; in particular the
    assertion [!stackCopy.empty()] of the pay-to-script-hash case holds. *)
Theorem VerifyScript_total `{SH : ScriptHashes, SB : SigBackend} (SHok : ScriptHashesOk SH)
    scriptSig scriptPubKey flags
    (Hsig : bytes_ok scriptSig) (Hkey : bytes_ok scriptPubKey) :
  match VerifyScript scriptSig scriptPubKey flags with
  | Ok _ | Err _ => True
  | Throw | Crash => False
  end.
Proof.
  enough (raises False (VerifyScript scriptSig scriptPubKey flags)) as H
    by (by destruct (VerifyScript _ _ _)).
  unfold VerifyScript. apply raises_bind; [apply raises_fail_if|intros _ _].
  apply raises_bind; [by apply EvalScript_ends|]. intros stack Hsig0.
  destruct (EvalScript_stack_ok _ _ _ _ Hsig (Forall_nil_2 _) ltac:(done) Hsig0) as [Hs Hsz].
  apply raises_bind; [by apply EvalScript_ends|]. intros stack' Hpk.
  destruct stack' as [|top stack']; [done|]. raises_tac.
  match goal with H : _ && _ = true |- _ => apply andb_prop in H as [Hflag Hp2sh] end. rewrite Hflag.
  destruct (IsPayToScriptHash_shape _ Hp2sh) as (h & Hh & ->).
  destruct stack as [|r stack]; [by rewrite EvalScript_p2sh in Hpk|].
  apply Forall_cons in Hs as [[Hr _] Hs]. rewrite zlen_cons in Hsz.
  apply raises_bind; [apply EvalScript_ends; done || lia|]. intros stack2 _.
  destruct stack2; raises_tac.
Qed.

Lemma VerifyScript_total_witness :
  match VerifyScript [1; 0x51] (0xa9 :: push_data (toy_hash 20 [0x51]) ++ [0x87]) 1 with
  | Ok _ | Err _ => True
  | Throw | Crash => False
  end.
Proof.
  apply (VerifyScript_total _ [1; 0x51] (0xa9 :: push_data (toy_hash 20 [0x51]) ++ [0x87]) 1); decide_now.
Defined.

(** C37: a script that runs to the end consists of complete instructions with
    operands of at most 520 bytes, none of them disabled, executed or not, and
    at most 201 of them are operations above [OP_16]. *)
Theorem EvalScript_admissible `{SH : ScriptHashes, SB : SigBackend} (SHok : ScriptHashesOk SH)
    stack script flags stack'
    (Hscript : bytes_ok script) (Hstack : stack_ok stack) (Hsize : zlen stack <= 1000)
    (Hrun : EvalScript stack script flags = Ok stack') :
  zlen script <= 10000 /\
  exists cs, parses script cs [] /\ Forall admissible cs /\ count_ops cs <= 201.
Proof.
  apply EvalScript_Ok in Hrun as (st & Hrun & _ & _ & Hlen). split; [done|].
  pose proof (eval_init_inv _ _ Hscript Hstack Hsize) as Hinv.
  destruct (run_parses _ _ _ Hinv Hrun) as (cs & Hp & Hcs & Hn).
  destruct (run_inv _ _ _ Hinv Hrun) as [_ _ _ _ Hn']. cbn in Hn.
  exists cs. split_and!; done || lia.
Qed.

Lemma EvalScript_admissible_witness :
  EvalScript [[1]; [2]] [0x93] 0 = Ok [[3]] /\ zlen [0x93] <= 10000 /\
  exists cs, parses [0x93] cs [] /\ Forall admissible cs /\ count_ops cs <= 201.
Proof.
  split; [by vm_compute|].
  apply (EvalScript_admissible _ [[1]; [2]] [0x93] 0 [[3]]); [decide_now..|by vm_compute].
Defined.

(** No step of the interpreter reads or pops a stack out of range: the
    exception handler of [EvalScript] is reached only when an element of the
    stack is refused as a number. *)
Theorem eval_step_throws_scriptnum `{SH : ScriptHashes, SB : SigBackend} (SHok : ScriptHashesOk SH)
    flags st
    (Hinv : eval_inv st) (Hthrow : eval_step flags st = Throw) :
  exists v, v ∈ es_stack st /\
    CScriptNum (E:=ScriptError) v (has_flag flags SCRIPT_VERIFY_MINIMALDATA) = Throw.
Proof. pose proof (eval_step_raises flags st Hinv) as Hr. by rewrite Hthrow in Hr. Qed.

Lemma eval_step_throws_scriptnum_witness :
  exists v, v ∈ [[1; 2; 3; 4; 5]] /\ CScriptNum (E:=ScriptError) v (has_flag 0 SCRIPT_VERIFY_MINIMALDATA) = Throw.
Proof.
  apply (eval_step_throws_scriptnum _ 0 (EvalState [0x8b] [0x8b] [[1; 2; 3; 4; 5]] [] [] 0)); [|by vm_compute].
  constructor; decide_now.
Defined.

(** The verdict, shared with the signing of such outputs. *)
Lemma VerifyScript_p2pkh_eq `{SH : ScriptHashes, SB : SigBackend}
    h vchSig vchPubKey flags
    (Hh : zlen h = 20)
    (Hsig : 2 <= zlen vchSig <= MAX_SCRIPT_ELEMENT_SIZE)
    (Hkey : 2 <= zlen vchPubKey <= MAX_SCRIPT_ELEMENT_SIZE)
    (Hne : vchSig <> h) :
  VerifyScript (push_data vchSig ++ push_data vchPubKey) (p2pkh h) flags =
  (_ ← fail_if (negb (bool_decide (h_hash160 vchPubKey = h))) SCRIPT_ERR_EQUALVERIFY;
   _ ← check_encodings vchSig vchPubKey flags;
   fail_if (negb (checker_CheckSig vchSig vchPubKey (p2pkh h))) SCRIPT_ERR_EVAL_FALSE).
Proof.
  pose proof Hsig as Hsig'. pose proof Hkey as Hkey'. unfold MAX_SCRIPT_ELEMENT_SIZE in Hsig', Hkey'.
  unfold VerifyScript.
  replace (push_data vchSig ++ push_data vchPubKey) with (concat (map push_data [vchSig; vchPubKey]))
    by (cbn; by rewrite app_nil_r).
  rewrite IsPushOnly_pushes by (repeat constructor; lia). rewrite andb_false_r. cbn [fail_if mbind outcome_bind].
  rewrite EvalScript_pushes; [|repeat constructor; try lia; intros _; apply CheckMinimalPush_push; lia|done|].
  2: { cbn [map concat]. rewrite app_nil_r, zlen_app. pose proof (push_data_size vchSig ltac:(lia)).
       pose proof (push_data_size vchPubKey ltac:(lia)). lia. }
  change (reverse [vchSig; vchPubKey] ++ []) with [vchPubKey; vchSig]. cbn [mbind outcome_bind].
  rewrite EvalScript_p2pkh by done. destruct (bool_decide _); [|done]. cbn [negb fail_if mbind outcome_bind].
  destruct (check_encodings _ _ _) as [[]| | |]; [|done..]. cbn [mbind outcome_bind].
  rewrite FindAndDelete_p2pkh by done.
  assert (IsPayToScriptHash (p2pkh h) = false) as ->.
  { unfold IsPayToScriptHash, p2pkh. rewrite zlen_push20 by done. autorewrite with zlen.
    assert ((1 + (1 + 0) + (1 + zlen h + (1 + (1 + 0))) =? 23) = false) as -> by lia. done. }
  rewrite andb_false_r. by destruct (checker_CheckSig _ _ _).
Qed.

(** C35: spending a pay-to-pubkey-hash output with a signature and a key
    succeeds exactly when the key has the hash, signature and key have the
    encodings the flags ask for, and the checker accepts the signature over
    the output script; otherwise it fails with the error of the first of
    these. *)
Theorem VerifyScript_p2pkh `{SH : ScriptHashes, SB : SigBackend}
    h vchSig vchPubKey flags
    (Hh : zlen h = 20)
    (Hsig : 2 <= zlen vchSig <= MAX_SCRIPT_ELEMENT_SIZE)
    (Hkey : 2 <= zlen vchPubKey <= MAX_SCRIPT_ELEMENT_SIZE)
    (Hne : vchSig <> h) :
  VerifyScript (push_data vchSig ++ push_data vchPubKey) (p2pkh h) flags =
  (_ ← fail_if (negb (bool_decide (h_hash160 vchPubKey = h))) SCRIPT_ERR_EQUALVERIFY;
   _ ← check_encodings vchSig vchPubKey flags;
   fail_if (negb (checker_CheckSig vchSig vchPubKey (p2pkh h))) SCRIPT_ERR_EVAL_FALSE).
Proof. by apply VerifyScript_p2pkh_eq. Qed.

Lemma VerifyScript_p2pkh_witness :
  let key := repeat 7 21 in let sig := [7; 7] in
  VerifyScript (push_data sig ++ push_data key) (p2pkh (toy_hash 20 key)) 0 = Err SCRIPT_ERR_EVAL_FALSE.
Proof.
  intros key sig. rewrite (VerifyScript_p2pkh (toy_hash 20 key) sig key 0); by vm_compute.
Defined.

(** The verdict, shared with the signing of such outputs. *)
Lemma VerifyScript_p2sh_eq `{SH : ScriptHashes, SB : SigBackend} h ds redeem flags
    (Hh : zlen h = 20) (Hp2sh : has_flag flags SCRIPT_VERIFY_P2SH = true)
    (Hfits : Forall (push_fits flags) (ds ++ [redeem]))
    (Hcount : zlen ds <= 997) (Hsize : zlen (concat (map push_data (ds ++ [redeem]))) <= 10000) :
  VerifyScript (concat (map push_data (ds ++ [redeem]))) (0xa9 :: push_data h ++ [0x87]) flags =
  (_ ← fail_if (negb (bool_decide (h_hash160 redeem = h))) SCRIPT_ERR_EVAL_FALSE;
   stack ← EvalScript (reverse ds) redeem flags;
   match stack with
   | [] => Err SCRIPT_ERR_EVAL_FALSE
   | top :: _ => fail_if (negb (CastToBool top)) SCRIPT_ERR_EVAL_FALSE
   end).
Proof.
  unfold VerifyScript. rewrite IsPushOnly_pushes.
  2: { eapply Forall_impl; [exact Hfits|]. intros d [Hd _]. unfold MAX_SCRIPT_ELEMENT_SIZE in Hd. lia. }
  rewrite andb_false_r. cbn [fail_if mbind outcome_bind].
  rewrite EvalScript_pushes by (done || (autorewrite with zlen; lia)).
  rewrite app_nil_r, reverse_app. cbn [reverse rev_append app mbind outcome_bind]. rewrite Hp2sh.
  change (reverse [redeem] ++ reverse ds) with (redeem :: reverse ds).
  rewrite EvalScript_p2sh by (done || (rewrite zlen_cons; unfold zlen in *; rewrite length_reverse; lia)).
  cbn [mbind outcome_bind]. destruct (bool_decide (h_hash160 redeem = h)); [|done].
  by rewrite IsPayToScriptHash_push.
Qed.

(** Spending a pay-to-script-hash output by pushes succeeds exactly when
    the last push hashes to the output's hash and, run as a script on the
    other pushes, leaves a true element on top. *)
Theorem VerifyScript_p2sh `{SH : ScriptHashes, SB : SigBackend} h ds redeem flags
    (Hh : zlen h = 20) (Hp2sh : has_flag flags SCRIPT_VERIFY_P2SH = true)
    (Hfits : Forall (push_fits flags) (ds ++ [redeem]))
    (Hcount : zlen ds <= 997) (Hsize : zlen (concat (map push_data (ds ++ [redeem]))) <= 10000) :
  VerifyScript (concat (map push_data (ds ++ [redeem]))) (0xa9 :: push_data h ++ [0x87]) flags =
  (_ ← fail_if (negb (bool_decide (h_hash160 redeem = h))) SCRIPT_ERR_EVAL_FALSE;
   stack ← EvalScript (reverse ds) redeem flags;
   match stack with
   | [] => Err SCRIPT_ERR_EVAL_FALSE
   | top :: _ => fail_if (negb (CastToBool top)) SCRIPT_ERR_EVAL_FALSE
   end).
Proof. by apply VerifyScript_p2sh_eq. Qed.

Lemma VerifyScript_p2sh_witness :
  VerifyScript (concat (map push_data ([] ++ [[0x51]]))) (0xa9 :: push_data (toy_hash 20 [0x51]) ++ [0x87]) 1
  = Ok tt.
Proof.
  rewrite (VerifyScript_p2sh (toy_hash 20 [0x51]) [] [0x51] 1); [by vm_compute|done|done| |decide_now|decide_now].
  constructor; [|done]. by split.
Defined.
