(* ===== verification/Der.v ===== *)
(** * The signature grammar

    [IsDERSignature] walks over offsets of the signature; the grammar it
    accepts is a DER sequence of two positive, minimally encoded integers. *)

From S2P Require Import Prelude SigEncoding.

Local Open Scope Z_scope.

(** A positive integer without superfluous leading zero. *)
Definition der_positive (r : valtype) : Prop :=
  exists b r', r = b :: r' /\ b < 128 /\ (b = 0 -> match r' with [] => True | c :: _ => 128 <= c end).

(** [SEQUENCE { INTEGER r, INTEGER s }] followed by [tail]. *)
Definition der_sequence (r s tail : valtype) : valtype :=
  [0x30; zlen r + zlen s + 4; 0x02; zlen r] ++ r ++ [0x02; zlen s] ++ s ++ tail.

Lemma byte_at_app pre v post i : i = zlen pre -> byte_at (pre ++ v :: post) i = v.
Proof.
  intros ->. unfold byte_at, zlen. rewrite app_nth2 by lia.
  replace (Z.to_nat _ - length pre)%nat with 0%nat by lia. done.
Qed.

Lemma der_int_ok_spec sig pre r post :
  sig = pre ++ [0x02; zlen r] ++ r ++ post -> r <> [] -> bytes_ok sig ->
  der_int_ok sig (zlen pre + 2) (zlen r) = true <-> der_positive r.
Proof.
  intros E Hne Hsig. destruct r as [|b r]; [done|]. unfold der_int_ok.
  assert (byte_at sig (zlen pre + 2 - 2) = 0x02) as -> by (rewrite E; apply byte_at_app; lia).
  assert (sig = (pre ++ [0x02; zlen (b :: r)]) ++ b :: r ++ post) as E1 by (rewrite E, <-app_assoc; done).
  assert (byte_at sig (zlen pre + 2) = b) as Hb.
  { rewrite E1. apply byte_at_app. rewrite zlen_app. done. }
  pose proof (byte_at_ok sig (zlen pre + 2) Hsig) as Hbok. rewrite Hb in Hbok |- *.
  assert ((zlen (b :: r) =? 0) = false) as -> by (rewrite zlen_cons; pose proof (zlen_nonneg r); lia).
  rewrite byte_high_bit by done.
  pose proof (byte_at_ok sig (zlen pre + 2 + 1) Hsig) as Hc. set (c := byte_at sig (zlen pre + 2 + 1)) in *.
  assert (r <> [] -> exists r', r = c :: r') as Hr'.
  { destruct r as [|x r]; [done|]. intros _. exists r. f_equal. unfold c. rewrite E1. cbn [app].
    change (b :: x :: r ++ post) with ([b] ++ x :: r ++ post). rewrite app_assoc.
    symmetry. apply byte_at_app. autorewrite with zlen. lia. }
  rewrite byte_high_bit by done. unfold der_positive. change (2 =? 2) with true. cbn [andb negb].
  split.
  - intros H. apply andb_prop in H as [H1 H2]. exists b, r. split_and!; [done|lia|].
    intros ->. destruct r as [|c' r]; [done|]. destruct Hr' as [r' [= -> ->]]; [done|].
    rewrite !zlen_cons in H2. pose proof (zlen_nonneg r').
    assert ((1 <? 1 + (1 + zlen r')) = true) as Hl by lia. rewrite Hl in H2. cbn in H2. lia.
  - intros (b' & r' & [= <- <-] & Hb1 & Hb0). assert ((b <? 128) = true) as -> by lia. cbn [andb].
    destruct (Z.eqb_spec b 0) as [->|]; [|by rewrite andb_false_r].
    destruct r as [|c' r]; [done|]. destruct Hr' as [r' [= -> ->]]; [done|]. specialize (Hb0 eq_refl). cbn in Hb0.
    assert ((c <? 128) = false) as -> by lia. by rewrite andb_false_r.
Qed.

Lemma der_int_ok_nonempty sig at_ n : der_int_ok sig at_ n = true -> byte_at sig (at_ - 2) = 0x02 /\ n <> 0.
Proof.
  unfold der_int_ok. intros H. apply andb_prop in H as [H _]. apply andb_prop in H as [H _].
  apply andb_prop in H as [H1 H2]. split; [lia|]. by destruct (Z.eqb_spec n 0).
Qed.

(** Splits a vector at an offset. *)
Lemma split_at (l : valtype) n : 0 <= n <= zlen l -> exists pre post, l = pre ++ post /\ zlen pre = n.
Proof.
  intros Hn. exists (take (Z.to_nat n) l), (drop (Z.to_nat n) l). split; [by rewrite take_drop|].
  unfold zlen in *. rewrite length_take. lia.
Qed.

Lemma zlen_4 (l : valtype) : zlen l = 4 -> exists a b c d : Z, l = [a; b; c; d].
Proof. destruct l as [|a [|b [|c [|d [|]]]]]; unfold zlen; cbn; intros; try lia. by exists a, b, c, d. Qed.

Lemma zlen_2 (l : valtype) : zlen l = 2 -> exists a b, l = [a; b].
Proof. destruct l as [|a [|b [|]]]; unfold zlen; cbn; intros; try lia. by exists a, b. Qed.

Lemma byte_at_seq_len r s tail : byte_at (der_sequence r s tail) (5 + zlen r) = zlen s.
Proof.
  unfold der_sequence.
  replace ([48; zlen r + zlen s + 4; 2; zlen r] ++ r ++ [2; zlen s] ++ s ++ tail)
    with (([48; zlen r + zlen s + 4; 2; zlen r] ++ r ++ [2]) ++ zlen s :: s ++ tail) by (by rewrite <-!app_assoc).
  apply byte_at_app. autorewrite with zlen. lia.
Qed.

Lemma zlen_der_sequence r s tail : zlen (der_sequence r s tail) = zlen r + zlen s + zlen tail + 6.
Proof. unfold der_sequence. autorewrite with zlen. lia. Qed.

(** The offsets [IsDERSignature] reads, on a vector of the grammar's shape. *)
Lemma IsDERSignature_sequence r s tail (haveHashType : bool) :
  bytes_ok (der_sequence r s tail) -> r <> [] -> s <> [] ->
  zlen tail = (if haveHashType then 1 else 0) -> zlen (der_sequence r s tail) <= 73 -> 9 <= zlen (der_sequence r s tail) ->
  IsDERSignature (der_sequence r s tail) haveHashType = true <-> der_positive r /\ der_positive s.
Proof.
  intros Hok Hr Hs Ht Hmax Hmin.
  pose proof (zlen_der_sequence r s tail) as Hlen. pose proof (zlen_nonneg s). pose proof (zlen_nonneg tail).
  unfold IsDERSignature.
  change (byte_at (der_sequence r s tail) 0) with 0x30.
  change (byte_at (der_sequence r s tail) 1) with (zlen r + zlen s + 4).
  change (byte_at (der_sequence r s tail) 3) with (zlen r). rewrite byte_at_seq_len.
  assert ((zlen (der_sequence r s tail) <? 9) = false) as -> by lia.
  assert ((73 <? zlen (der_sequence r s tail)) = false) as -> by lia.
  assert ((zlen r + zlen s + 4 =? zlen (der_sequence r s tail) - (if haveHashType then 3 else 2)) = true) as ->
    by (destruct haveHashType; lia).
  assert ((zlen (der_sequence r s tail) <=? 5 + zlen r) = false) as -> by (destruct s; [done|rewrite zlen_cons in *; lia]).
  assert ((zlen r + zlen s + (if haveHashType then 7 else 6) =? zlen (der_sequence r s tail)) = true) as ->
    by (destruct haveHashType; lia).
  change (0x30 =? 0x30) with true. change (0x30 =? 0x30) with true. cbn [negb]. rewrite andb_true_iff.
  rewrite (der_int_ok_spec _ [0x30; zlen r + zlen s + 4] r ([2; zlen s] ++ s ++ tail)) by done.
  assert (6 + zlen r = zlen ([0x30; zlen r + zlen s + 4; 2; zlen r] ++ r) + 2) as -> by (autorewrite with zlen; lia).
  rewrite (der_int_ok_spec _ ([0x30; zlen r + zlen s + 4; 2; zlen r] ++ r) s tail); [done| |done|done].
  unfold der_sequence. by rewrite <-!app_assoc.
Qed.

(** Every accepted vector has the grammar's shape. *)
Lemma IsDERSignature_shape sig (haveHashType : bool) :
  bytes_ok sig -> IsDERSignature sig haveHashType = true ->
  exists r s tail, sig = der_sequence r s tail /\ r <> [] /\ s <> [] /\
    zlen tail = (if haveHashType then 1 else 0) /\ 9 <= zlen sig <= 73.
Proof.
  intros Hok. unfold IsDERSignature.
  destruct (Z.ltb_spec (zlen sig) 9) as [|Hmin]; [done|]. destruct (Z.ltb_spec 73 (zlen sig)) as [|Hmax]; [done|].
  destruct (Z.eqb_spec (byte_at sig 0) 0x30) as [H0|]; [|done].
  destruct (Z.eqb_spec (byte_at sig 1) (zlen sig - (if haveHashType then 3 else 2))) as [H1|]; [|done].
  cbn [negb]. set (nLenR := byte_at sig 3). set (nLenS := byte_at sig (5 + nLenR)).
  destruct (Z.leb_spec (zlen sig) (5 + nLenR)) as [|H5]; [done|].
  destruct (Z.eqb_spec (nLenR + nLenS + (if haveHashType then 7 else 6)) (zlen sig)) as [Hl|]; [|done].
  cbn [negb]. intros [HR HS]%andb_prop.
  apply der_int_ok_nonempty in HR as [HR2 HR0]. apply der_int_ok_nonempty in HS as [HS2 HS0].
  pose proof (byte_at_ok sig 3 Hok) as [HR _]. fold nLenR in HR.
  pose proof (byte_at_ok sig (5 + nLenR) Hok) as [HS _]. fold nLenS in HS.
  destruct (split_at sig 4) as (hd & t1 & -> & Hhd); [lia|].
  apply zlen_4 in Hhd as (a & b & c & d & ->). change (nLenR) with d in *.
  rewrite zlen_app in *. change (zlen [a; b; c; d]) with 4 in *.
  destruct (split_at t1 d) as (r & t2 & -> & Hr); [lia|]. rewrite zlen_app in *.
  destruct (split_at t2 2) as (hd & t3 & -> & Hhd); [lia|]. rewrite zlen_app in *.
  apply zlen_2 in Hhd as (e & f & ->). change (zlen [e; f]) with 2 in *.
  assert (e = 2) as ->.
  { rewrite <-HS2. replace ([a; b; c; d] ++ r ++ [e; f] ++ t3) with (([a; b; c; d] ++ r) ++ e :: f :: t3)
      by (by rewrite <-!app_assoc). symmetry. apply byte_at_app. autorewrite with zlen. lia. }
  assert (nLenS = f) as Hf.
  { unfold nLenS. replace ([a; b; c; d] ++ r ++ [2; f] ++ t3) with (([a; b; c; d] ++ r ++ [2]) ++ f :: t3)
      by (by rewrite <-!app_assoc). apply byte_at_app. autorewrite with zlen. lia. }
  rewrite Hf in *. clear nLenS Hf. change (byte_at _ 0) with a in H0. change (byte_at _ 1) with b in H1.
  change (byte_at _ (4 - 2)) with c in HR2.
  destruct (split_at t3 f) as (s & tail & -> & Hs); [destruct haveHashType; lia|]. rewrite zlen_app in *.
  exists r, s, tail. split_and!; try lia.
  - unfold der_sequence. rewrite Hr, Hs. subst. repeat f_equal. destruct haveHashType; lia.
  - by intros ->.
  - by intros ->.
  - destruct haveHashType; lia.
Qed.

Lemma IsDERSignature_spec (sig : valtype) (haveHashType : bool) (Hok : bytes_ok sig) :
  IsDERSignature sig haveHashType = true <->
  exists r s tail, sig = der_sequence r s tail /\ der_positive r /\ der_positive s /\
    zlen tail = (if haveHashType then 1 else 0) /\ 9 <= zlen sig <= 73.
Proof.
  split.
  - intros H. destruct (IsDERSignature_shape _ _ Hok H) as (r & s & tail & -> & Hr & Hs & Ht & Hlen).
    exists r, s, tail. apply IsDERSignature_sequence in H as [? ?]; done || lia.
  - intros (r & s & tail & -> & Hr & Hs & Ht & Hlen). apply IsDERSignature_sequence; try done || lia.
    + by destruct Hr as (? & ? & -> & _).
    + by destruct Hs as (? & ? & -> & _).
Qed.

(** ** Property *)

(** The vectors [IsDERSignature] accepts are exactly the DER sequences of
    two positive minimally encoded integers, of 9 to 73 bytes, followed by one
    byte for the hash type if it is asked for. *)
Theorem IsDERSignature_grammar (sig : valtype) (haveHashType : bool) (Hok : bytes_ok sig) :
  IsDERSignature sig haveHashType = true <->
  exists r s tail, sig = der_sequence r s tail /\ der_positive r /\ der_positive s /\
    zlen tail = (if haveHashType then 1 else 0) /\ 9 <= zlen sig <= 73.
Proof. by apply IsDERSignature_spec. Qed.

Lemma IsDERSignature_grammar_witness :
  IsDERSignature [0x30; 7; 2; 2; 0; 0x80; 2; 1; 1; 1] true = true <->
  exists r s tail, [0x30; 7; 2; 2; 0; 0x80; 2; 1; 1; 1] = der_sequence r s tail /\
    der_positive r /\ der_positive s /\ zlen tail = 1 /\ 9 <= zlen [0x30; 7; 2; 2; 0; 0x80; 2; 1; 1; 1] <= 73.
Proof. apply (IsDERSignature_grammar [0x30; 7; 2; 2; 0; 0x80; 2; 1; 1; 1] true). decide_now. Defined.
