(* ===== verification/LegacyInterp.v ===== *)
(** * The older script interpreter

    [script/interpreter.cpp] keeps a second, older pair of [EvalScript] and
    [VerifyScript], which the node calls for blocks and the memory pool: they
    report only success or failure ([Err tt] is [return false]), take the
    spending transaction itself, test the encodings of signatures always, and
    still have the cases of the disabled opcodes.  [checker_CheckSig] stands
    for [CheckSig(..., txTo, nIn, nHashType, flags)] of [sign.cpp]. *)

From S2P Require Import Prelude Opcode ScriptNum Script SigEncoding Interp.

Local Open Scope Z_scope.

(** OP_IF and OP_NOTIF: the new condition, and the stack without it. *)
Definition legacy_exec_if (op : opcodetype) (fExec : bool) (stack : list valtype) (vfExec : list bool)
    : outcome unit (list valtype * list bool) :=
  if fExec then
    _ ← fail_if (zlen stack <? 1) tt;
    vch ← stacktop stack 1;
    let fValue := CastToBool vch in
    let fValue := match op with OP_NOTIF => negb fValue | _ => fValue end in
    stack ← popstack stack;
    mret (stack, fValue :: vfExec)
  else mret (stack, false :: vfExec).

(** OP_ELSE and OP_ENDIF *)
Definition legacy_exec_else (vfExec : list bool) : outcome unit (list bool) :=
  match vfExec with
  | [] => Err tt
  | b :: vfExec => mret (negb b :: vfExec)
  end.

Definition legacy_exec_endif (vfExec : list bool) : outcome unit (list bool) :=
  match vfExec with
  | [] => Err tt
  | _ :: vfExec => mret vfExec
  end.

(** OP_VERIFY *)
Definition legacy_exec_verify (stack : list valtype) : outcome unit (list valtype) :=
  _ ← fail_if (zlen stack <? 1) tt;
  vch ← stacktop stack 1;
  if CastToBool vch then popstack stack else Err tt.

(** OP_TOALTSTACK and OP_FROMALTSTACK: the stack and the alternative stack. *)
Definition legacy_exec_toaltstack (stack altstack : list valtype)
    : outcome unit (list valtype * list valtype) :=
  _ ← fail_if (zlen stack <? 1) tt;
  vch ← stacktop stack 1;
  stack ← popstack stack;
  mret (stack, vch :: altstack).

Definition legacy_exec_fromaltstack (stack altstack : list valtype)
    : outcome unit (list valtype * list valtype) :=
  _ ← fail_if (zlen altstack <? 1) tt;
  vch ← stacktop altstack 1;
  altstack ← popstack altstack;
  mret (vch :: stack, altstack).

(** The guard the stack operations start with. *)
Definition legacy_need (stack : list valtype) (n : Z) : outcome unit unit :=
  fail_if (zlen stack <? n) tt.

(** OP_2DROP to OP_TUCK and OP_SIZE *)
Definition legacy_exec_stack (op : opcodetype) (fRequireMinimal : bool) (stack : list valtype)
    : outcome unit (list valtype) :=
  match op with
  | OP_2DROP =>
    _ ← legacy_need stack 2; stack ← popstack stack; popstack stack
  | OP_2DUP =>
    _ ← legacy_need stack 2;
    vch1 ← stacktop stack 2; vch2 ← stacktop stack 1;
    mret (vch2 :: vch1 :: stack)
  | OP_3DUP =>
    _ ← legacy_need stack 3;
    vch1 ← stacktop stack 3; vch2 ← stacktop stack 2; vch3 ← stacktop stack 1;
    mret (vch3 :: vch2 :: vch1 :: stack)
  | OP_2OVER =>
    _ ← legacy_need stack 4;
    vch1 ← stacktop stack 4; vch2 ← stacktop stack 3;
    mret (vch2 :: vch1 :: stack)
  | OP_2ROT =>
    _ ← legacy_need stack 6;
    vch1 ← stacktop stack 6; vch2 ← stacktop stack 5;
    mret (vch2 :: vch1 :: erasetop stack 6 4)
  | OP_2SWAP =>
    _ ← legacy_need stack 4;
    stack ← swaptop stack 4 2; swaptop stack 3 1
  | OP_IFDUP =>
    _ ← legacy_need stack 1;
    vch ← stacktop stack 1;
    mret (if CastToBool vch then vch :: stack else stack)
  | OP_DEPTH => mret (serialize (zlen stack) :: stack)
  | OP_DROP => _ ← legacy_need stack 1; popstack stack
  | OP_DUP => _ ← legacy_need stack 1; vch ← stacktop stack 1; mret (vch :: stack)
  | OP_NIP => _ ← legacy_need stack 2; mret (erasetop stack 2 1)
  | OP_OVER => _ ← legacy_need stack 2; vch ← stacktop stack 2; mret (vch :: stack)
  | OP_PICK | OP_ROLL =>
    _ ← legacy_need stack 2;
    vchn ← stacktop stack 1;
    bn ← CScriptNum vchn fRequireMinimal;
    let n := getint bn in
    stack ← popstack stack;
    _ ← fail_if ((n <? 0) || (zlen stack <=? n)) tt;
    vch ← stacktop stack (n + 1);
    let stack := match op with OP_ROLL => erasetop stack (n + 1) n | _ => stack end in
    mret (vch :: stack)
  | OP_ROT => _ ← legacy_need stack 3; stack ← swaptop stack 3 2; swaptop stack 2 1
  | OP_SWAP => _ ← legacy_need stack 2; swaptop stack 2 1
  | OP_TUCK =>
    _ ← legacy_need stack 2;
    vch ← stacktop stack 1;
    mret (take 2 stack ++ [vch] ++ drop 2 stack)
  | OP_SIZE =>
    _ ← legacy_need stack 1;
    vch ← stacktop stack 1;
    mret (serialize (zlen vch) :: stack)
  | _ => Err tt
  end.

(** OP_EQUAL and OP_EQUALVERIFY *)
Definition legacy_exec_equal (op : opcodetype) (stack : list valtype) : outcome unit (list valtype) :=
  _ ← legacy_need stack 2;
  vch1 ← stacktop stack 2; vch2 ← stacktop stack 1;
  let fEqual := bool_decide (vch1 = vch2) in
  stack ← popstack stack; stack ← popstack stack;
  let stack := bool_vch fEqual :: stack in
  match op with
  | OP_EQUALVERIFY => if fEqual then popstack stack else Err tt
  | _ => mret stack
  end.

Definition legacy_exec_unary (op : opcodetype) (fRequireMinimal : bool) (stack : list valtype)
    : outcome unit (list valtype) :=
  _ ← legacy_need stack 1;
  vch ← stacktop stack 1;
  bn ← CScriptNum vch fRequireMinimal;
  bn ← unary_num op bn;
  stack ← popstack stack;
  mret (serialize bn :: stack).

Definition legacy_exec_binary (op : opcodetype) (fRequireMinimal : bool) (stack : list valtype)
    : outcome unit (list valtype) :=
  _ ← legacy_need stack 2;
  vch1 ← stacktop stack 2;
  bn1 ← CScriptNum vch1 fRequireMinimal;
  vch2 ← stacktop stack 1;
  bn2 ← CScriptNum vch2 fRequireMinimal;
  bn ← binary_num op bn1 bn2;
  stack ← popstack stack; stack ← popstack stack;
  let stack := serialize bn :: stack in
  match op with
  | OP_NUMEQUALVERIFY =>
    vch ← stacktop stack 1;
    if CastToBool vch then popstack stack else Err tt
  | _ => mret stack
  end.

(** OP_WITHIN *)
Definition legacy_exec_within (fRequireMinimal : bool) (stack : list valtype)
    : outcome unit (list valtype) :=
  _ ← legacy_need stack 3;
  vch1 ← stacktop stack 3; bn1 ← CScriptNum vch1 fRequireMinimal;
  vch2 ← stacktop stack 2; bn2 ← CScriptNum vch2 fRequireMinimal;
  vch3 ← stacktop stack 1; bn3 ← CScriptNum vch3 fRequireMinimal;
  let fValue := (bn2 <=? bn1) && (bn1 <? bn3) in
  stack ← popstack stack; stack ← popstack stack; stack ← popstack stack;
  mret (bool_vch fValue :: stack).

(** ** The disabled cases *)

(** [MakeSameSize] *)
Definition MakeSameSize (vch1 vch2 : valtype) : valtype * valtype :=
  (vch1 ++ replicate (length vch2 - length vch1) 0, vch2 ++ replicate (length vch1 - length vch2) 0).

(** OP_CAT *)
Definition legacy_exec_cat (stack : list valtype) : outcome unit (list valtype) :=
  _ ← legacy_need stack 2;
  vch1 ← stacktop stack 2; vch2 ← stacktop stack 1;
  stack ← popstack (<[1%nat := vch1 ++ vch2]> stack);
  vch ← stacktop stack 1;
  _ ← fail_if (MAX_SCRIPT_ELEMENT_SIZE <? zlen vch) tt;
  mret stack.

(** OP_SUBSTR *)
Definition legacy_exec_substr (fRequireMinimal : bool) (stack : list valtype) : outcome unit (list valtype) :=
  _ ← legacy_need stack 3;
  vch ← stacktop stack 3;
  vchBegin ← stacktop stack 2; bnBegin ← CScriptNum vchBegin fRequireMinimal;
  let nBegin := getint bnBegin in
  vchSize ← stacktop stack 1; bnSize ← CScriptNum vchSize fRequireMinimal;
  let nEnd := to_i32 (nBegin + getint bnSize) in
  _ ← fail_if ((nBegin <? 0) || (nEnd <? nBegin)) tt;
  let nBegin := if zlen vch <? nBegin then zlen vch else nBegin in
  let nEnd := if zlen vch <? nEnd then zlen vch else nEnd in
  let vch := drop (Z.to_nat nBegin) (take (Z.to_nat nEnd) vch) in
  stack ← popstack (<[2%nat := vch]> stack);
  popstack stack.

(** OP_LEFT and OP_RIGHT *)
Definition legacy_exec_left_right (op : opcodetype) (fRequireMinimal : bool) (stack : list valtype)
    : outcome unit (list valtype) :=
  _ ← legacy_need stack 2;
  vch ← stacktop stack 2;
  vchSize ← stacktop stack 1; bnSize ← CScriptNum vchSize fRequireMinimal;
  let nSize := getint bnSize in
  _ ← fail_if (nSize <? 0) tt;
  let nSize := if zlen vch <? nSize then zlen vch else nSize in
  let vch := match op with
    | OP_LEFT => take (Z.to_nat nSize) vch
    | _ => drop (Z.to_nat (zlen vch - nSize)) vch
    end in
  popstack (<[1%nat := vch]> stack).

(** OP_INVERT *)
Definition legacy_exec_invert (stack : list valtype) : outcome unit (list valtype) :=
  _ ← legacy_need stack 1;
  vch ← stacktop stack 1;
  mret (<[0%nat := map (fun b => Z.land (Z.lnot b) 0xff) vch]> stack).

(** OP_AND, OP_OR and OP_XOR *)
Definition legacy_exec_bitwise (op : opcodetype) (stack : list valtype) : outcome unit (list valtype) :=
  _ ← legacy_need stack 2;
  vch1 ← stacktop stack 2; vch2 ← stacktop stack 1;
  let '(vch1, vch2) := MakeSameSize vch1 vch2 in
  let f := match op with OP_AND => Z.land | OP_OR => Z.lor | _ => Z.lxor end in
  popstack (<[1%nat := zip_with f vch1 vch2]> (<[0%nat := vch2]> stack)).

Section eval.
Context {SH : ScriptHashes} {SB : SigBackend}.

(** OP_RIPEMD160 to OP_HASH256 *)
Definition legacy_exec_hash (op : opcodetype) (stack : list valtype) : outcome unit (list valtype) :=
  _ ← legacy_need stack 1;
  vch ← stacktop stack 1;
  let vchHash := match op with
    | OP_RIPEMD160 => h_ripemd160 vch
    | OP_SHA1 => h_sha1 vch
    | OP_SHA256 => h_sha256 vch
    | OP_HASH160 => h_hash160 vch
    | _ => h_hash256 vch
    end in
  stack ← popstack stack;
  mret (vchHash :: stack).

(** The test of [SCRIPT_VERIFY_STRICTENC] before a signature is checked. *)
Definition legacy_strict (vchSig vchPubKey : valtype) (flags : Z) : outcome unit unit :=
  fail_if (has_flag flags SCRIPT_VERIFY_STRICTENC &&
           (negb (CheckSignatureEncoding_legacy CheckLowS vchSig) || negb (CheckPubKeyEncoding_legacy vchPubKey))) tt.

(** [CheckSignatureEncoding(vchSig) && CheckPubKeyEncoding(vchPubKey) && CheckSig(...)] *)
Definition legacy_check (vchSig vchPubKey : valtype) (scriptCode : list Z) : bool :=
  CheckSignatureEncoding_legacy CheckLowS vchSig && CheckPubKeyEncoding_legacy vchPubKey &&
  checker_CheckSig vchSig vchPubKey scriptCode.

(** OP_CHECKSIG and OP_CHECKSIGVERIFY *)
Definition legacy_exec_checksig (op : opcodetype) (flags : Z) (codehash : list Z) (stack : list valtype)
    : outcome unit (list valtype) :=
  _ ← legacy_need stack 2;
  vchSig ← stacktop stack 2;
  vchPubKey ← stacktop stack 1;
  let scriptCode := snd (FindAndDelete codehash (push_data vchSig)) in
  _ ← legacy_strict vchSig vchPubKey flags;
  let fSuccess := legacy_check vchSig vchPubKey scriptCode in
  stack ← popstack stack; stack ← popstack stack;
  let stack := bool_vch fSuccess :: stack in
  match op with
  | OP_CHECKSIGVERIFY => if fSuccess then popstack stack else Err tt
  | _ => mret stack
  end.

(** [while (fSuccess && nSigsCount > 0)] *)
Fixpoint legacy_multisig_loop (fuel : nat) (flags : Z) (stack : list valtype) (scriptCode : list Z)
    (isig ikey nSigsCount nKeysCount : Z) (fSuccess : bool) : outcome unit bool :=
  if negb (fSuccess && (0 <? nSigsCount)) then mret fSuccess
  else
    match fuel with
    | O => Crash
    | S fuel =>
      vchSig ← stacktop stack isig;
      vchPubKey ← stacktop stack ikey;
      _ ← legacy_strict vchSig vchPubKey flags;
      let fOk := legacy_check vchSig vchPubKey scriptCode in
      let isig := if fOk then isig + 1 else isig in
      let nSigsCount := if fOk then nSigsCount - 1 else nSigsCount in
      let ikey := ikey + 1 in
      let nKeysCount := nKeysCount - 1 in
      legacy_multisig_loop fuel flags stack scriptCode isig ikey nSigsCount nKeysCount
        (if nKeysCount <? nSigsCount then false else fSuccess)
    end.

(** OP_CHECKMULTISIG and OP_CHECKMULTISIGVERIFY: the stack and [nOpCount]. *)
Definition legacy_exec_checkmultisig (op : opcodetype) (flags : Z) (fRequireMinimal : bool)
    (codehash : list Z) (nOpCount : Z) (stack : list valtype)
    : outcome unit (list valtype * Z) :=
  _ ← legacy_need stack 1;
  vchn ← stacktop stack 1;
  bnk ← CScriptNum vchn fRequireMinimal;
  let nKeysCount := getint bnk in
  _ ← fail_if ((nKeysCount <? 0) || (20 <? nKeysCount)) tt;
  let nOpCount := nOpCount + nKeysCount in
  _ ← fail_if (201 <? nOpCount) tt;
  let ikey := 2 in
  let i := ikey + nKeysCount in
  _ ← legacy_need stack i;
  vchm ← stacktop stack i;
  bns ← CScriptNum vchm fRequireMinimal;
  let nSigsCount := getint bns in
  _ ← fail_if ((nSigsCount <? 0) || (nKeysCount <? nSigsCount)) tt;
  let isig := i + 1 in
  let i := isig + nSigsCount in
  _ ← legacy_need stack i;
  scriptCode ← drop_sigs (Z.to_nat nSigsCount) isig stack codehash;
  fSuccess ← legacy_multisig_loop (Z.to_nat nKeysCount) flags stack scriptCode
               isig ikey nSigsCount nKeysCount true;
  stack ← pop_n (Z.to_nat (i - 1)) stack;
  _ ← legacy_need stack 1;
  dummy ← stacktop stack 1;
  _ ← fail_if (has_flag flags SCRIPT_VERIFY_NULLDUMMY && negb (zlen dummy =? 0)) tt;
  stack ← popstack stack;
  let stack := bool_vch fSuccess :: stack in
  match op with
  | OP_CHECKMULTISIGVERIFY =>
    if fSuccess then stack ← popstack stack; mret (stack, nOpCount)
    else Err tt
  | _ => mret (stack, nOpCount)
  end.

(** [switch (opcode)], on the state after the instruction was read. *)
Definition legacy_exec_op (op : opcodetype) (flags : Z) (fExec : bool) (st : eval_state)
    : outcome unit eval_state :=
  let fRequireMinimal := has_flag flags SCRIPT_VERIFY_MINIMALDATA in
  let stack := es_stack st in
  match op with
  | OP_1NEGATE | OP_1 | OP_2 | OP_3 | OP_4 | OP_5 | OP_6 | OP_7 | OP_8 | OP_9 | OP_10
  | OP_11 | OP_12 | OP_13 | OP_14 | OP_15 | OP_16 => mret (with_stack st (exec_push op stack))
  | OP_NOP => mret st
  | OP_NOP1 | OP_NOP2 | OP_NOP3 | OP_NOP4 | OP_NOP5
  | OP_NOP6 | OP_NOP7 | OP_NOP8 | OP_NOP9 | OP_NOP10 =>
    _ ← fail_if (has_flag flags SCRIPT_VERIFY_DISCOURAGE_UPGRADABLE_NOPS) tt;
    mret st
  | OP_IF | OP_NOTIF => with_cond st <$> legacy_exec_if op fExec stack (es_vfExec st)
  | OP_ELSE => (fun v => with_cond st (stack, v)) <$> legacy_exec_else (es_vfExec st)
  | OP_ENDIF => (fun v => with_cond st (stack, v)) <$> legacy_exec_endif (es_vfExec st)
  | OP_VERIFY => with_stack st <$> legacy_exec_verify stack
  | OP_RETURN => Err tt
  | OP_TOALTSTACK => with_stacks st <$> legacy_exec_toaltstack stack (es_altstack st)
  | OP_FROMALTSTACK => with_stacks st <$> legacy_exec_fromaltstack stack (es_altstack st)
  | OP_2DROP | OP_2DUP | OP_3DUP | OP_2OVER | OP_2ROT | OP_2SWAP | OP_IFDUP | OP_DEPTH
  | OP_DROP | OP_DUP | OP_NIP | OP_OVER | OP_PICK | OP_ROLL | OP_ROT | OP_SWAP | OP_TUCK
  | OP_SIZE => with_stack st <$> legacy_exec_stack op fRequireMinimal stack
  | OP_CAT => with_stack st <$> legacy_exec_cat stack
  | OP_SUBSTR => with_stack st <$> legacy_exec_substr fRequireMinimal stack
  | OP_LEFT | OP_RIGHT => with_stack st <$> legacy_exec_left_right op fRequireMinimal stack
  | OP_INVERT => with_stack st <$> legacy_exec_invert stack
  | OP_AND | OP_OR | OP_XOR => with_stack st <$> legacy_exec_bitwise op stack
  | OP_EQUAL | OP_EQUALVERIFY => with_stack st <$> legacy_exec_equal op stack
  | OP_1ADD | OP_1SUB | OP_2MUL | OP_2DIV | OP_NEGATE | OP_ABS | OP_NOT | OP_0NOTEQUAL =>
    with_stack st <$> legacy_exec_unary op fRequireMinimal stack
  | OP_ADD | OP_SUB | OP_MUL | OP_DIV | OP_MOD | OP_LSHIFT | OP_RSHIFT
  | OP_BOOLAND | OP_BOOLOR | OP_NUMEQUAL | OP_NUMEQUALVERIFY
  | OP_NUMNOTEQUAL | OP_LESSTHAN | OP_GREATERTHAN | OP_LESSTHANOREQUAL
  | OP_GREATERTHANOREQUAL | OP_MIN | OP_MAX => with_stack st <$> legacy_exec_binary op fRequireMinimal stack
  | OP_WITHIN => with_stack st <$> legacy_exec_within fRequireMinimal stack
  | OP_RIPEMD160 | OP_SHA1 | OP_SHA256 | OP_HASH160 | OP_HASH256 =>
    with_stack st <$> legacy_exec_hash op stack
  | OP_CODESEPARATOR =>
    mret (EvalState (es_pc st) (es_pc st) stack (es_altstack st) (es_vfExec st) (es_nOpCount st))
  | OP_CHECKSIG | OP_CHECKSIGVERIFY =>
    with_stack st <$> legacy_exec_checksig op flags (es_codehash st) stack
  | OP_CHECKMULTISIG | OP_CHECKMULTISIGVERIFY =>
    (fun '(stack, nOpCount) =>
       EvalState (es_pc st) (es_codehash st) stack (es_altstack st) (es_vfExec st) nOpCount)
    <$> legacy_exec_checkmultisig op flags fRequireMinimal (es_codehash st) (es_nOpCount st) stack
  | _ => Err tt
  end.

(** What a round of the loop does with the instruction [opcode] and its
    operand, [pc] being the iterator behind it. *)
Definition legacy_eval_instr (flags : Z) (opcode : opcodetype) (vchPushValue : valtype) (pc : list Z)
    (st : eval_state) : outcome unit eval_state :=
  let fExec := forallb id (es_vfExec st) in
  _ ← fail_if (MAX_SCRIPT_ELEMENT_SIZE <? zlen vchPushValue) tt;
  let nOpCount := if op_gtb opcode OP_16 then es_nOpCount st + 1 else es_nOpCount st in
  _ ← fail_if (op_gtb opcode OP_16 && (201 <? nOpCount)) tt;
  _ ← fail_if (disabled_opcode opcode) tt;
  let st := EvalState pc (es_codehash st) (es_stack st) (es_altstack st) (es_vfExec st) nOpCount in
  st ← (if fExec && op_leb OP_0 opcode && op_leb opcode OP_PUSHDATA4 then
          mret (with_stack st (vchPushValue :: es_stack st))
        else if fExec || (op_leb OP_IF opcode && op_leb opcode OP_ENDIF) then legacy_exec_op opcode flags fExec st
        else mret st);
  _ ← fail_if (1000 <? zlen (es_stack st) + zlen (es_altstack st)) tt;
  mret st.

(** One round of [while (pc < pend)]. *)
Definition legacy_eval_step (flags : Z) (st : eval_state) : outcome unit eval_state :=
  let g := GetOp2 (es_pc st) in
  _ ← fail_if (negb (go_ok g)) tt;
  legacy_eval_instr flags (go_opcode g) (go_data g) (go_pc g) st.

(** The loop reads at least one byte per round, so the length of the script
    is fuel enough; out of fuel is [Crash]. *)
Fixpoint legacy_eval_loop (fuel : nat) (flags : Z) (st : eval_state) : outcome unit eval_state :=
  match es_pc st with
  | [] => mret st
  | _ =>
    match fuel with
    | O => Crash
    | S fuel => st ← legacy_eval_step flags st; legacy_eval_loop fuel flags st
    end
  end.

(** [EvalScript(stack, script, txTo, nIn, flags, nHashType)] *)
Definition legacy_EvalScript (stack : list valtype) (script : list Z) (flags : Z)
    : outcome unit (list valtype) :=
  _ ← fail_if (10000 <? zlen script) tt;
  match legacy_eval_loop (length script) flags (eval_init script stack) with
  | Ok st =>
    _ ← fail_if (negb (zlen (es_vfExec st) =? 0)) tt;
    mret (es_stack st)
  | Err _ => Err tt
  | Throw => Err tt
  | Crash => Crash
  end.

(** [VerifyScript(scriptSig, scriptPubKey, txTo, nIn, flags, nHashType)];
    [stackCopy.back()] of an empty vector is undefined: [Crash]. *)
Definition legacy_VerifyScript (scriptSig scriptPubKey : list Z) (flags : Z) : outcome unit unit :=
  stack ← legacy_EvalScript [] scriptSig flags;
  let stackCopy := stack in
  stack ← legacy_EvalScript stack scriptPubKey flags;
  match stack with
  | [] => Err tt
  | top :: _ =>
    _ ← fail_if (negb (CastToBool top)) tt;
    if IsPayToScriptHash scriptPubKey then
      _ ← fail_if (negb (IsPushOnly scriptSig)) tt;
      match stackCopy with
      | [] => Crash
      | pubKey2 :: stackCopy =>
        stackCopy ← legacy_EvalScript stackCopy pubKey2 flags;
        match stackCopy with
        | [] => Err tt
        | top :: _ => fail_if (negb (CastToBool top)) tt
        end
      end
    else mret tt
  end.
End eval.
