(* ===== verification/LegacyRefines.v ===== *)
(** * The two script interpreters agree

    The older interpreter computes what the newer one computes with a checker
    that tests the encodings as well, as long as the flags do not ask the newer
    one for minimal pushes or for a test the older one does not have. *)

From S2P Require Import Prelude.
From S2P Require Import Opcode.
From S2P Require Import ScriptNum.
From S2P Require Import Script.
From S2P Require Import ScriptFacts.
From S2P Require Import SigEncoding.
From S2P Require Import Interp.
From S2P Require Import InterpFacts.
From S2P Require Import InterpSafe.
From S2P Require Import InterpProps.
From S2P Require Import LegacyInterp.

Local Open Scope Z_scope.

(** ** Forgetting the error code *)

Definition forget {E A} (m : outcome E A) : outcome unit A :=
  match m with
  | Ok a => Ok a
  | Err _ => Err tt
  | Throw => Throw
  | Crash => Crash
  end.

Lemma forget_bind {E A B} (m : outcome E A) (f : A -> outcome E B) :
  forget (m ≫= f) = forget m ≫= (fun a => forget (f a)).
Proof. by destruct m. Qed.

Lemma forget_fmap {E A B} (m : outcome E A) (f : A -> B) : forget (f <$> m) = f <$> forget m.
Proof. by destruct m. Qed.

Lemma bind_cong {A B} (m m' : outcome unit A) (f g : A -> outcome unit B) :
  m = m' -> (forall a, m' = Ok a -> f a = g a) -> m ≫= f = m' ≫= g.
Proof. intros -> Hf. destruct m'; cbn; auto. Qed.

Lemma forget_fail_if {E} (b : bool) (e : E) : forget (fail_if b e) = fail_if b tt.
Proof. by destruct b. Qed.

Lemma forget_stacktop {E} stack i : forget (stacktop (E:=E) stack i) = stacktop stack i.
Proof. unfold stacktop. by destruct (stack !! _). Qed.

Lemma forget_popstack {E} stack : forget (popstack (E:=E) stack) = popstack stack.
Proof. by destruct stack. Qed.

Lemma forget_CScriptNum {E} v f : forget (CScriptNum (E:=E) v f) = CScriptNum v f.
Proof. unfold CScriptNum. by destruct (nMaxNumSize <? zlen v), (_ && _). Qed.

Lemma forget_swaptop {E} stack i j : forget (swaptop (E:=E) stack i j) = swaptop stack i j.
Proof. unfold swaptop, stacktop. by destruct (stack !! _), (stack !! _). Qed.

Lemma forget_unary_num {E} op n : forget (unary_num (E:=E) op n) = unary_num op n.
Proof.
  unfold unary_num, num_neg, num_add_assign, num_sub_assign, assert_that.
  destruct op; try done; repeat (case_match; try done).
Qed.

Lemma forget_binary_num {E} op a b : forget (binary_num (E:=E) op a b) = binary_num op a b.
Proof. by destruct op. Qed.

Lemma forget_drop_sigs {E} n isig stack code :
  forget (drop_sigs (E:=E) n isig stack code) = drop_sigs n isig stack code.
Proof.
  revert isig code. induction n as [|n IH]; intros isig code; [done|]. cbn [drop_sigs].
  rewrite forget_bind, forget_stacktop. apply bind_cong; [done|]. intros. apply IH.
Qed.

Lemma forget_pop_n {E} n stack : forget (pop_n (E:=E) n stack) = pop_n n stack.
Proof.
  revert stack. induction n as [|n IH]; intros stack; [done|]. cbn [pop_n].
  rewrite forget_bind, forget_popstack. apply bind_cong; [done|]. intros. apply IH.
Qed.

Lemma fail_if_never {E B} (b : bool) (e : E) (f : unit -> outcome E B) : (fail_if (false && b) e ≫= f) = f tt.
Proof. done. Qed.

Create Rewrite HintDb forget.
#[export] Hint Rewrite @forget_fail_if @forget_stacktop @forget_popstack @forget_CScriptNum
  @forget_swaptop @forget_unary_num @forget_binary_num @forget_drop_sigs @forget_pop_n : forget.

(** Pushes [forget] through a computation, both sides in step. *)
Ltac forget_step :=
  lazymatch goal with
  | |- forget (fail_if (false && _) _ ≫= _) = _ => rewrite fail_if_never
  | |- forget (_ ≫= _) = _ => rewrite forget_bind; apply bind_cong; [|intros ? ?]
  | |- forget (_ <$> _) = _ => rewrite forget_fmap; apply (f_equal (fmap _))
  | |- forget (if ?b then _ else _) = _ => destruct b
  | |- _ => solve [ reflexivity | autorewrite with forget; reflexivity ]
  end.

Ltac forget_tac := repeat forget_step.

Section agree.
Lemma legacy_exec_stack_agrees op f stack : forget (exec_stack op f stack) = legacy_exec_stack op f stack.
Proof. destruct op; try reflexivity; cbn [exec_stack legacy_exec_stack]; unfold need, legacy_need; forget_tac. Qed.

Lemma legacy_exec_equal_agrees op stack : forget (exec_equal op stack) = legacy_exec_equal op stack.
Proof. unfold exec_equal, legacy_exec_equal, need, legacy_need. forget_tac. destruct op; forget_tac. Qed.

Lemma legacy_exec_unary_agrees op f stack : forget (exec_unary op f stack) = legacy_exec_unary op f stack.
Proof. unfold exec_unary, legacy_exec_unary, need, legacy_need. forget_tac. Qed.

Lemma legacy_exec_binary_agrees op f stack : forget (exec_binary op f stack) = legacy_exec_binary op f stack.
Proof. unfold exec_binary, legacy_exec_binary, need, legacy_need. forget_tac. destruct op; forget_tac. Qed.

Lemma legacy_exec_within_agrees f stack : forget (exec_within f stack) = legacy_exec_within f stack.
Proof. unfold exec_within, legacy_exec_within, need, legacy_need. forget_tac. Qed.
End agree.

(** ** The checker of the comparison *)

(** Tests the encodings, then asks [SB]. *)
Definition strict_backend (SB : SigBackend) : SigBackend := {|
  CheckLowS := @CheckLowS SB;
  checker_CheckSig := fun vchSig vchPubKey scriptCode => @legacy_check SB vchSig vchPubKey scriptCode;
|}.

(** Flags for which the newer interpreter makes no test the older one lacks:
    no minimal pushes, and low S and DER exactly as part of the strict
    encoding. *)
Record flags_agree (flags : Z) : Prop := {
  agree_minimal : has_flag flags SCRIPT_VERIFY_MINIMALDATA = false;
  agree_low_s : has_flag flags SCRIPT_VERIFY_LOW_S = has_flag flags SCRIPT_VERIFY_STRICTENC;
  agree_der : has_flag flags SCRIPT_VERIFY_DERSIG = true -> has_flag flags SCRIPT_VERIFY_STRICTENC = true;
}.

Lemma has_flag_lor flags a b : has_flag flags (Z.lor a b) = has_flag flags a || has_flag flags b.
Proof.
  unfold has_flag. rewrite Z.land_lor_distr_r.
  destruct (Z.eqb_spec (Z.land flags a) 0) as [->|Ha]; [by rewrite Z.lor_0_l|].
  destruct (Z.eqb_spec (Z.lor (Z.land flags a) (Z.land flags b)) 0) as [E|]; [|done].
  by apply Z.lor_eq_0_iff in E as [? _].
Qed.

Section simulation.
Context {SH : ScriptHashes} {SB : SigBackend} (flags : Z) (Hflags : flags_agree flags).

#[local] Existing Instance SB | 0.
Abbreviation SB' := (strict_backend SB).

Lemma check_encodings_agrees vchSig vchPubKey :
  forget (check_encodings (SB := SB') vchSig vchPubKey flags) = legacy_strict vchSig vchPubKey flags.
Proof.
  destruct Hflags as [_ Hlow Hder].
  unfold check_encodings, CheckSignatureEncoding, legacy_strict, CheckSignatureEncoding_legacy,
    CheckPubKeyEncoding_legacy, IsLowDERSignature_legacy, IsLowDERSignature, CheckPubKeyEncoding.
  rewrite !has_flag_lor, Hlow. cbn [CheckLowS strict_backend].
  destruct (has_flag flags SCRIPT_VERIFY_STRICTENC).
  - rewrite orb_true_r. by destruct (IsDERSignature _ _), (CheckLowS _), (IsDefinedHashtypeSignature _),
      (IsCompressedOrUncompressedPubKey _).
  - destruct (has_flag flags SCRIPT_VERIFY_DERSIG); [by specialize (Hder eq_refl)|done].
Qed.

Lemma legacy_exec_hash_agrees op stack : forget (exec_hash op stack) = legacy_exec_hash op stack.
Proof. unfold exec_hash, legacy_exec_hash, need, legacy_need. forget_tac. Qed.

Lemma legacy_exec_checksig_agrees op code stack :
  forget (exec_checksig (SB := SB') op flags code stack) = legacy_exec_checksig op flags code stack.
Proof.
  unfold exec_checksig, legacy_exec_checksig, need, legacy_need. forget_tac; [apply check_encodings_agrees|].
  cbn [checker_CheckSig strict_backend]. destruct op; forget_tac.
Qed.

Lemma legacy_multisig_loop_agrees fuel stack code isig ikey nSigs nKeys fSuccess :
  forget (multisig_loop (SB := SB') fuel flags stack code isig ikey nSigs nKeys fSuccess) =
  legacy_multisig_loop fuel flags stack code isig ikey nSigs nKeys fSuccess.
Proof.
  revert isig ikey nSigs nKeys fSuccess. induction fuel as [|fuel IH]; intros isig ikey nSigs nKeys fSuccess;
    cbn [multisig_loop legacy_multisig_loop]; (destruct (negb _); [done|]); [done|].
  forget_tac; [apply check_encodings_agrees|]. apply IH.
Qed.

Lemma legacy_exec_checkmultisig_agrees op f code n stack :
  forget (exec_checkmultisig (SB := SB') op flags f code n stack) = legacy_exec_checkmultisig op flags f code n stack.
Proof.
  unfold exec_checkmultisig, legacy_exec_checkmultisig, need, legacy_need.
  forget_tac; [apply legacy_multisig_loop_agrees|]. destruct op; forget_tac.
Qed.

Lemma legacy_exec_op_agrees op fExec st :
  disabled_opcode op = false ->
  forget (exec_op (SB := SB') op flags fExec st) = legacy_exec_op op flags fExec st.
Proof.
  intros Hdis. destruct op; try discriminate Hdis; try reflexivity; cbn [exec_op legacy_exec_op];
    try (rewrite forget_fmap; apply (f_equal (fmap _)));
    first [ apply legacy_exec_stack_agrees | apply legacy_exec_equal_agrees | apply legacy_exec_unary_agrees
      | apply legacy_exec_binary_agrees | apply legacy_exec_within_agrees | apply legacy_exec_hash_agrees
      | apply legacy_exec_checksig_agrees | apply legacy_exec_checkmultisig_agrees
      | unfold exec_if, legacy_exec_if, exec_verify, legacy_exec_verify, exec_toaltstack, legacy_exec_toaltstack,
          exec_fromaltstack, legacy_exec_fromaltstack; progress forget_tac
      | by destruct (es_vfExec st) ].
Qed.

Lemma legacy_eval_step_agrees st :
  forget (eval_step (SB := SB') flags st) = legacy_eval_step flags st.
Proof.
  unfold eval_step, legacy_eval_step, eval_instr, legacy_eval_instr. rewrite (agree_minimal _ Hflags).
  forget_tac. apply legacy_exec_op_agrees.
  match goal with H : fail_if (disabled_opcode _) _ = Ok _ |- _ => by apply fail_if_Ok in H end.
Qed.

Lemma legacy_eval_loop_agrees fuel st :
  forget (eval_loop (SB := SB') fuel flags st) = legacy_eval_loop fuel flags st.
Proof.
  revert st. induction fuel as [|fuel IH]; intros st; cbn [eval_loop legacy_eval_loop];
    (destruct (es_pc st); [done|]); [done|].
  rewrite forget_bind. apply bind_cong; [apply legacy_eval_step_agrees|]. intros. apply IH.
Qed.

Lemma legacy_EvalScript_agrees stack script :
  forget (EvalScript (SB := SB') stack script flags) = legacy_EvalScript stack script flags.
Proof.
  unfold EvalScript, legacy_EvalScript. forget_step; [by rewrite forget_fail_if|].
  rewrite <-legacy_eval_loop_agrees. destruct (eval_loop _ _ _); [|done..]. cbn [forget]. forget_tac.
Qed.
End simulation.

(** ** Property *)

(** C28: for flags that ask for the pay-to-script-hash rule, not for push-only
    inputs, and otherwise for no test the older code lacks, the older
    [VerifyScript] accepts, refuses or crashes exactly as the newer one does
    with a checker that tests the encodings as well. *)
Theorem legacy_VerifyScript_refines `{SH : ScriptHashes} (SB : SigBackend) flags scriptSig scriptPubKey
    (Hflags : flags_agree flags) (Hp2sh : has_flag flags SCRIPT_VERIFY_P2SH = true)
    (Hpush : has_flag flags SCRIPT_VERIFY_SIGPUSHONLY = false) :
  legacy_VerifyScript scriptSig scriptPubKey flags =
  forget (VerifyScript (SB := strict_backend SB) scriptSig scriptPubKey flags).
Proof.
  symmetry. unfold VerifyScript, legacy_VerifyScript. rewrite Hpush, Hp2sh, fail_if_never. cbn [andb].
  forget_step; [by apply legacy_EvalScript_agrees|]. forget_step; [by apply legacy_EvalScript_agrees|].
  match goal with |- context [match ?s with _ => _ end] => destruct s end; [done|].
  forget_step; [by rewrite forget_fail_if|]. destruct (IsPayToScriptHash scriptPubKey); [|done].
  forget_step; [by rewrite forget_fail_if|].
  match goal with |- forget (match ?s with _ => _ end) = _ => destruct s end; [done|].
  forget_step; [by apply legacy_EvalScript_agrees|].
  match goal with |- forget (match ?s with _ => _ end) = _ => destruct s end; [done|by rewrite forget_fail_if].
Qed.

#[local] Instance one_byte_hashes : ScriptHashes := {
  h_ripemd160 := id; h_sha1 := id; h_sha256 := id; h_hash160 := id; h_hash256 := id;
}.

Definition eq_backend : SigBackend := {|
  CheckLowS := fun _ => true;
  checker_CheckSig := fun vchSig vchPubKey _ => bool_decide (vchSig = vchPubKey);
|}.

Lemma legacy_VerifyScript_refines_witness :
  legacy_VerifyScript (SB := eq_backend) [0x51] [0x52; 0x88] SCRIPT_VERIFY_P2SH =
  forget (VerifyScript (SB := strict_backend eq_backend) [0x51] [0x52; 0x88] SCRIPT_VERIFY_P2SH).
Proof.
  apply (legacy_VerifyScript_refines eq_backend SCRIPT_VERIFY_P2SH [0x51] [0x52; 0x88]); [by split|done|done].
Defined.
