(* ===== verification/Serialize.v ===== *)
(** * Serialization

    The stream formats of [serialize.h]: fixed-width integers in memory
    order, the compact size, variable-length integers, vectors.  Reading
    throws at the end of the stream or on a malformed size.  The class
    [Serialize] pairs a writer and a reader; [SerializeLaws] says they are
    inverse both ways, so a value has exactly one encoding. *)

From S2P Require Import Prelude.

Local Open Scope Z_scope.

(** ** Readers *)

(** A reader consumes a prefix of the stream or throws. *)
Definition reader (A : Type) : Type := list Z -> outcome unit (A * list Z).

#[export] Instance reader_ret : MRet reader := fun A a s => Ok (a, s).
#[export] Instance reader_bind : MBind reader := fun A B f m s =>
  match m s with
  | Ok (a, s) => f a s
  | Err e => Err e
  | Throw => Throw
  | Crash => Crash
  end.

Definition read_throw {A} : reader A := fun _ => Throw.

(** [s.read(p, n)] *)
Definition read_bytes (n : nat) : reader valtype := fun s =>
  if (length s <? n)%nat then Throw else Ok (take n s, drop n s).

(** ** The interface *)

Class Serialize (A : Type) := {
  ser : A -> list Z;
  unser : reader A;
  (** the values the writer is used on *)
  ser_ok : A -> Prop;
}.

Class SerializeLaws (A : Type) {S : Serialize A} : Prop := {
  ser_bytes a : ser_ok a -> bytes_ok (ser a);
  unser_ser a s : ser_ok a -> unser (ser a ++ s) = Ok (a, s);
  ser_unser a s s' : bytes_ok s -> unser s = Ok (a, s') -> s = ser a ++ s' /\ ser_ok a;
  unser_total s : match unser s with Ok _ | Throw => True | Err _ | Crash => False end;
}.

Lemma read_bytes_app v s : read_bytes (length v) (v ++ s) = Ok (v, s).
Proof.
  unfold read_bytes. rewrite length_app.
  destruct (Nat.ltb_spec (length v + length s) (length v)); [lia|].
  by rewrite take_app_length, drop_app_length.
Qed.

Lemma read_bytes_Ok n s v s' : read_bytes n s = Ok (v, s') -> s = v ++ s' /\ length v = n.
Proof.
  unfold read_bytes. destruct (Nat.ltb_spec (length s) n); [done|]. intros [= <- <-].
  rewrite take_drop, length_take. split; [done|lia].
Qed.

Lemma read_bytes_total n s : match read_bytes n s with Ok _ | Throw => True | Err _ | Crash => False end.
Proof. unfold read_bytes. by destruct (_ <? _)%nat. Qed.

(** ** Fixed-width integers *)

(** [WRITEDATA] and [READDATA] of an unsigned integer of [n] bytes. *)
Definition write_uint (n : nat) (z : Z) : list Z := le_encode n z.
Definition read_uint (n : nat) : reader Z := v ← read_bytes n; mret (le_decode v).

Lemma read_write_uint n z s : 0 <= z < 256 ^ Z.of_nat n -> read_uint n (write_uint n z ++ s) = Ok (z, s).
Proof.
  intros Hz. unfold read_uint, mbind, reader_bind, write_uint.
  pose proof (read_bytes_app (le_encode n z) s) as H. rewrite length_le_encode in H. rewrite H.
  by rewrite le_decode_encode_small.
Qed.

Lemma read_uint_Ok n s z s' :
  bytes_ok s -> read_uint n s = Ok (z, s') -> s = write_uint n z ++ s' /\ 0 <= z < 256 ^ Z.of_nat n.
Proof.
  intros Hs. unfold read_uint, mbind, reader_bind. destruct (read_bytes n s) as [[v s1]| | |] eqn:E; try done.
  intros [= <- <-]. apply read_bytes_Ok in E as [-> <-]. apply Forall_app in Hs as [Hv _].
  split; [unfold write_uint; by rewrite le_encode_decode|]. by apply le_decode_bound.
Qed.

Lemma read_uint_total n s : match read_uint n s with Ok _ | Throw => True | Err _ | Crash => False end.
Proof.
  unfold read_uint, mbind, reader_bind. pose proof (read_bytes_total n s).
  by destruct (read_bytes n s) as [[]| | |].
Qed.

(** ** The compact size *)

Definition MAX_SIZE : Z := 0x02000000.

Definition GetSizeOfCompactSize (nSize : Z) : Z :=
  if nSize <? 253 then 1
  else if nSize <=? 0xffff then 3
  else if nSize <=? 0xffffffff then 5
  else 9.

Definition WriteCompactSize (nSize : Z) : list Z :=
  if nSize <? 253 then write_uint 1 nSize
  else if nSize <=? 0xffff then write_uint 1 253 ++ write_uint 2 nSize
  else if nSize <=? 0xffffffff then write_uint 1 254 ++ write_uint 4 nSize
  else write_uint 1 255 ++ write_uint 8 nSize.

Definition ReadCompactSize : reader Z :=
  chSize ← read_uint 1;
  nSizeRet ← (if chSize <? 253 then mret chSize
              else if chSize =? 253 then
                xSize ← read_uint 2; if xSize <? 253 then read_throw else mret xSize
              else if chSize =? 254 then
                xSize ← read_uint 4; if xSize <? 0x10000 then read_throw else mret xSize
              else
                xSize ← read_uint 8; if xSize <? 0x100000000 then read_throw else mret xSize);
  if MAX_SIZE <? nSizeRet then read_throw else mret nSizeRet.

(** Evaluates a reader at a point where the next read is known. *)
Lemma reader_bind_Ok {A B} (m : reader A) (f : A -> reader B) s a s' :
  m s = Ok (a, s') -> (m ≫= f) s = f a s'.
Proof. unfold mbind, reader_bind. by intros ->. Qed.

Lemma reader_bind_inv {A B} (m : reader A) (f : A -> reader B) s b s' :
  (m ≫= f) s = Ok (b, s') -> exists a s1, m s = Ok (a, s1) /\ f a s1 = Ok (b, s').
Proof. unfold mbind, reader_bind. destruct (m s) as [[a s1]| | |]; naive_solver. Qed.

Lemma reader_bind_total {A B} (m : reader A) (f : A -> reader B) s :
  match m s with Ok _ | Throw => True | Err _ | Crash => False end ->
  (forall a s1, match f a s1 with Ok _ | Throw => True | Err _ | Crash => False end) ->
  match (m ≫= f) s with Ok _ | Throw => True | Err _ | Crash => False end.
Proof. unfold mbind, reader_bind. intros Hm Hf. destruct (m s) as [[a s1]| | |]; [apply Hf|done..]. Qed.

Lemma WriteCompactSize_bytes n : bytes_ok (WriteCompactSize n).
Proof. unfold WriteCompactSize. repeat case_match; repeat apply Forall_app_2; apply le_encode_ok. Qed.

Lemma zlen_WriteCompactSize n : zlen (WriteCompactSize n) = GetSizeOfCompactSize n.
Proof.
  unfold WriteCompactSize, GetSizeOfCompactSize, write_uint.
  repeat case_match; autorewrite with zlen; rewrite ?zlen_le_encode; done.
Qed.

Lemma ReadCompactSize_Write n s :
  0 <= n <= MAX_SIZE -> ReadCompactSize (WriteCompactSize n ++ s) = Ok (n, s).
Proof.
  unfold MAX_SIZE. intros Hn. unfold ReadCompactSize, WriteCompactSize.
  destruct (Z.ltb_spec n 253); [|destruct (Z.leb_spec n 0xffff); [|destruct (Z.leb_spec n 0xffffffff); [|lia]]];
    rewrite <-?app_assoc; (erewrite reader_bind_Ok; [|apply read_write_uint; cbn; lia]).
  - erewrite reader_bind_Ok; [|assert ((n <? 253) = true) as -> by lia; reflexivity].
    unfold MAX_SIZE. assert ((0x2000000 <? n) = false) as -> by lia. done.
  - cbn [Z.ltb Z.eqb Z.compare Pos.compare Pos.compare_cont Pos.eqb].
    erewrite reader_bind_Ok; [|erewrite reader_bind_Ok; [|apply read_write_uint; cbn; lia];
      assert ((n <? 253) = false) as -> by lia; reflexivity].
    unfold MAX_SIZE. assert ((0x2000000 <? n) = false) as -> by lia. done.
  - cbn [Z.ltb Z.eqb Z.compare Pos.compare Pos.compare_cont Pos.eqb].
    erewrite reader_bind_Ok; [|erewrite reader_bind_Ok; [|apply read_write_uint; cbn; lia];
      assert ((n <? 0x10000) = false) as -> by lia; reflexivity].
    unfold MAX_SIZE. assert ((0x2000000 <? n) = false) as -> by lia. done.
Qed.

(** Inverts a reader that returned. *)
Ltac read_inv :=
  repeat match goal with
  | H : (_ ≫= _) _ = Ok (_, _) |- _ => apply reader_bind_inv in H as (? & ? & ? & ?)
  | H : mret _ _ = Ok (_, _) |- _ => injection H as ? ?; subst
  | H : read_throw _ = Ok _ |- _ => discriminate H
  | Hs : bytes_ok ?s, H : read_uint _ ?s = Ok (_, _) |- _ =>
    apply (read_uint_Ok _ _ _ _ Hs) in H as [-> ?]; apply Forall_app in Hs as [? ?]
  end.

Lemma ReadCompactSize_Ok s n s' :
  bytes_ok s -> ReadCompactSize s = Ok (n, s') -> s = WriteCompactSize n ++ s' /\ 0 <= n <= MAX_SIZE.
Proof.
  unfold ReadCompactSize, MAX_SIZE. intros Hs H. apply reader_bind_inv in H as (ch & s1 & Hch & H).
  apply (read_uint_Ok _ _ _ _ Hs) in Hch as [-> Hch]. apply Forall_app in Hs as [_ Hs]. cbn in Hch.
  apply reader_bind_inv in H as (sz & s2 & Hsz & H).
  destruct (Z.ltb_spec 0x2000000 sz); [done|]. injection H as <- <-.
  destruct (Z.ltb_spec ch 253).
  { injection Hsz as <- <-. unfold WriteCompactSize. assert ((ch <? 253) = true) as -> by lia. split; [done|lia]. }
  destruct (Z.eqb_spec ch 253) as [->|]; [|destruct (Z.eqb_spec ch 254) as [->|]];
    (apply reader_bind_inv in Hsz as (x & s3 & Hx & Hsz);
     apply (read_uint_Ok _ _ _ _ Hs) in Hx as [-> Hx]; cbn in Hx).
  - destruct (Z.ltb_spec x 253); [done|]. injection Hsz as <- <-. unfold WriteCompactSize.
    assert ((x <? 253) = false) as -> by lia. assert ((x <=? 0xffff) = true) as -> by lia.
    rewrite <-app_assoc. split; [done|lia].
  - destruct (Z.ltb_spec x 0x10000); [done|]. injection Hsz as <- <-. unfold WriteCompactSize.
    assert ((x <? 253) = false) as -> by lia. assert ((x <=? 0xffff) = false) as -> by lia.
    assert ((x <=? 0xffffffff) = true) as -> by lia. rewrite <-app_assoc. split; [done|lia].
  - destruct (Z.ltb_spec x 0x100000000); [done|]. injection Hsz as <- <-. lia.
Qed.

(** Splits the totality of a reader at its binds. *)
Ltac read_total :=
  repeat lazymatch goal with
  | |- match (if ?b then _ else _) _ with _ => _ end => destruct b
  | |- match (_ ≫= _) _ with _ => _ end => apply reader_bind_total; [|intros ? ?]
  | |- match read_uint _ _ with _ => _ end => apply read_uint_total
  | |- match read_bytes _ _ with _ => _ end => apply read_bytes_total
  | |- _ => exact I
  end.

Lemma ReadCompactSize_total s : match ReadCompactSize s with Ok _ | Throw => True | Err _ | Crash => False end.
Proof. unfold ReadCompactSize. read_total. Qed.

(** ** Instances *)

(** [unsigned char]s, [unsigned int], [int], [int64_t] and [uint256] are all
    integers here; their formats are named. *)
Definition ser_uint (n : nat) : Serialize Z := {|
  ser := write_uint n;
  unser := read_uint n;
  ser_ok := fun z => 0 <= z < 256 ^ Z.of_nat n;
|}.

Definition fmt_uint32 : Serialize Z := ser_uint 4.
Definition fmt_uint256 : Serialize Z := ser_uint 32.

(** Two's complement. *)
Definition ser_int (n : nat) : Serialize Z := {|
  ser := fun z => write_uint n (z mod 256 ^ Z.of_nat n);
  unser := u ← read_uint n;
           mret (if u <? 256 ^ Z.of_nat n / 2 then u else u - 256 ^ Z.of_nat n);
  ser_ok := fun z => - (256 ^ Z.of_nat n / 2) <= z < 256 ^ Z.of_nat n / 2;
|}.

Definition fmt_int : Serialize Z := ser_int 4.
Definition fmt_int64 : Serialize Z := ser_int 8.

Lemma ser_uint_laws n : SerializeLaws Z (S := ser_uint n).
Proof.
  split; cbn.
  - intros a _. apply le_encode_ok.
  - intros a s Ha. by apply read_write_uint.
  - intros a s s' Hs H. by apply read_uint_Ok.
  - intros s. apply read_uint_total.
Qed.

Lemma ser_int_laws n : (0 < n)%nat -> SerializeLaws Z (S := ser_int n).
Proof.
  intros Hn. assert (256 ^ Z.of_nat n = 2 * (256 ^ Z.of_nat n / 2) /\ 0 < 256 ^ Z.of_nat n / 2) as [Hpow Hpos].
  { destruct n as [|n]; [lia|]. rewrite pow256_S. replace (256 * 256 ^ Z.of_nat n) with (128 * 256 ^ Z.of_nat n * 2) by lia.
    rewrite Z.div_mul by lia. pose proof (Z.pow_pos_nonneg 256 (Z.of_nat n)). lia. }
  set (h := 256 ^ Z.of_nat n / 2) in *.
  split; cbn; fold h; rewrite ?Hpow.
  - intros a _. apply le_encode_ok.
  - intros a s Ha. erewrite reader_bind_Ok; [|apply read_write_uint; rewrite Hpow; apply Z.mod_pos_bound; lia].
    unfold mret, reader_ret. do 2 f_equal. destruct (Z.ltb_spec (a mod (2 * h)) h) as [Hlt|Hge].
    + destruct (decide (0 <= a)); [by apply Z.mod_small; lia|].
      rewrite <-(Z.mod_add a 1), Z.mod_small in Hlt by lia. lia.
    + destruct (decide (0 <= a)); [rewrite Z.mod_small in Hge by lia; lia|].
      rewrite <-(Z.mod_add a 1), Z.mod_small by lia. lia.
  - intros a s s' Hs H. apply reader_bind_inv in H as (u & s1 & Hu & H).
    apply read_uint_Ok in Hu as [-> Hu]; [|done]. rewrite Hpow in Hu. injection H as <- <-.
    destruct (Z.ltb_spec u h).
    + rewrite Z.mod_small by lia. split; [done|lia].
    + rewrite <-(Z.mod_add (u - 2 * h) 1), Z.mod_small by lia. split; [do 2 f_equal; lia|lia].
  - intros s. apply reader_bind_total; [apply read_uint_total|]. done.
Qed.

#[export] Instance fmt_uint32_laws : SerializeLaws Z (S := fmt_uint32) := ser_uint_laws 4.
#[export] Instance fmt_uint256_laws : SerializeLaws Z (S := fmt_uint256) := ser_uint_laws 32.
#[export] Instance fmt_int_laws : SerializeLaws Z (S := fmt_int).
Proof. apply ser_int_laws. lia. Qed.
#[export] Instance fmt_int64_laws : SerializeLaws Z (S := fmt_int64).
Proof. apply ser_int_laws. lia. Qed.

(** Vectors of bytes, and [CScript]: size and contents. *)
Definition fmt_bytes : Serialize valtype := {|
  ser := fun v => WriteCompactSize (zlen v) ++ v;
  unser := nSize ← ReadCompactSize; read_bytes (Z.to_nat nSize);
  ser_ok := fun v => bytes_ok v /\ zlen v <= MAX_SIZE;
|}.

#[export] Instance fmt_bytes_laws : SerializeLaws valtype (S := fmt_bytes).
Proof.
  split; cbn.
  - intros v [Hv _]. apply Forall_app_2; [apply WriteCompactSize_bytes|done].
  - intros v s [Hv Hlen]. rewrite <-app_assoc.
    erewrite reader_bind_Ok; [|by apply ReadCompactSize_Write]. unfold zlen. rewrite Nat2Z.id.
    apply read_bytes_app.
  - intros v s s' Hs H. apply reader_bind_inv in H as (n & s1 & Hn & H).
    apply ReadCompactSize_Ok in Hn as [-> Hn]; [|done]. apply Forall_app in Hs as [_ Hs].
    apply read_bytes_Ok in H as [-> Hlen]. apply Forall_app in Hs as [Hv _].
    assert (zlen v = n) as -> by (unfold zlen; lia). rewrite <-app_assoc. repeat split; done || lia.
  - intros s. apply reader_bind_total; [apply ReadCompactSize_total|]. intros. apply read_bytes_total.
Qed.

(** Vectors: size and elements. *)
Section vector.
Context {A : Type} {SA : Serialize A} {L : SerializeLaws A}.

Fixpoint read_n (n : nat) : reader (list A) :=
  match n with
  | O => mret []
  | S n => a ← unser; l ← read_n n; mret (a :: l)
  end.

Definition fmt_vector : Serialize (list A) := {|
  ser := fun l => WriteCompactSize (zlen l) ++ concat (map ser l);
  unser := nSize ← ReadCompactSize; read_n (Z.to_nat nSize);
  ser_ok := fun l => Forall ser_ok l /\ zlen l <= MAX_SIZE;
|}.

Lemma read_n_ser l s : Forall ser_ok l -> read_n (length l) (concat (map ser l) ++ s) = Ok (l, s).
Proof.
  induction 1 as [|a l Ha _ IH]; [done|]. cbn. rewrite <-app_assoc.
  erewrite reader_bind_Ok; [|by apply unser_ser]. by erewrite reader_bind_Ok; [|exact IH].
Qed.

Lemma read_n_Ok n s l s' :
  bytes_ok s -> read_n n s = Ok (l, s') -> s = concat (map ser l) ++ s' /\ Forall ser_ok l /\ length l = n.
Proof.
  revert s l. induction n as [|n IH]; intros s l Hs H; cbn in H.
  { injection H as <- <-. done. }
  apply reader_bind_inv in H as (a & s1 & Ha & H). apply reader_bind_inv in H as (l' & s2 & Hl & H).
  injection H as <- <-. apply ser_unser in Ha as [-> Ha]; [|done]. apply Forall_app in Hs as [_ Hs].
  destruct (IH _ _ Hs Hl) as (-> & Hok & Hlen). cbn. rewrite <-app_assoc. split_and!; try done; [by constructor|lia].
Qed.

Lemma read_n_total n s : match read_n n s with Ok _ | Throw => True | Err _ | Crash => False end.
Proof.
  revert s. induction n as [|n IH]; intros s; [done|]. cbn.
  apply reader_bind_total; [apply unser_total|]. intros a s1.
  by apply reader_bind_total; [apply IH|].
Qed.

#[export] Instance fmt_vector_laws : SerializeLaws (list A) (S := fmt_vector).
Proof.
  split; cbn.
  - intros l [Hl _]. apply Forall_app_2; [apply WriteCompactSize_bytes|].
    apply Forall_concat, Forall_map. eapply Forall_impl; [exact Hl|]. apply ser_bytes.
  - intros l s [Hl Hlen]. rewrite <-app_assoc.
    erewrite reader_bind_Ok; [|by apply ReadCompactSize_Write]. unfold zlen. rewrite Nat2Z.id.
    by apply read_n_ser.
  - intros l s s' Hs H. apply reader_bind_inv in H as (n & s1 & Hn & H).
    apply ReadCompactSize_Ok in Hn as [-> Hn]; [|done]. apply Forall_app in Hs as [_ Hs].
    destruct (read_n_Ok _ _ _ _ Hs H) as (-> & Hok & Hlen).
    assert (zlen l = n) as -> by (unfold zlen; lia). rewrite <-app_assoc. repeat split; done || lia.
  - intros s. apply reader_bind_total; [apply ReadCompactSize_total|]. intros. apply read_n_total.
Qed.
End vector.
Arguments fmt_vector {A} SA.

(** Structures: field by field. *)
Definition fmt_pair {A B} (SA : Serialize A) (SB : Serialize B) : Serialize (A * B) := {|
  ser := fun p => ser p.1 ++ ser p.2;
  unser := a ← unser; b ← unser; mret (a, b);
  ser_ok := fun p => ser_ok p.1 /\ ser_ok p.2;
|}.

#[export] Instance fmt_pair_laws {A B} (SA : Serialize A) (SB : Serialize B) :
  SerializeLaws A -> SerializeLaws B -> SerializeLaws (A * B) (S := fmt_pair SA SB).
Proof.
  intros LA LB. split; cbn.
  - intros [a b] [Ha Hb]. apply Forall_app_2; by apply ser_bytes.
  - intros [a b] s [Ha Hb]. cbn. rewrite <-app_assoc.
    erewrite reader_bind_Ok; [|by apply unser_ser]. by erewrite reader_bind_Ok; [|by apply unser_ser].
  - intros [a b] s s' Hs H. apply reader_bind_inv in H as (a' & s1 & Ha & H).
    apply reader_bind_inv in H as (b' & s2 & Hb & H). injection H as <- <- <-.
    apply ser_unser in Ha as [-> Ha]; [|done]. apply Forall_app in Hs as [_ Hs].
    apply ser_unser in Hb as [-> Hb]; [|done]. cbn. rewrite <-app_assoc. done.
  - intros s. apply reader_bind_total; [apply unser_total|]. intros.
    by apply reader_bind_total; [apply unser_total|].
Qed.

(** A structure written as the tuple of its fields. *)
Definition fmt_iso {A B} (S : Serialize A) (to : A -> B) (from : B -> A) : Serialize B := {|
  ser := fun b => ser (from b);
  unser := a ← unser; mret (to a);
  ser_ok := fun b => ser_ok (from b);
|}.

Lemma fmt_iso_laws {A B} (S : Serialize A) (to : A -> B) (from : B -> A) :
  (forall b, to (from b) = b) -> (forall a, from (to a) = a) -> SerializeLaws A -> SerializeLaws B (S := fmt_iso S to from).
Proof.
  intros Htf Hft L. split; cbn.
  - intros b Hb. by apply ser_bytes.
  - intros b s Hb. erewrite reader_bind_Ok; [|by apply unser_ser]. by rewrite Htf.
  - intros b s s' Hs H. apply reader_bind_inv in H as (a & s1 & Ha & H). injection H as <- <-.
    apply ser_unser in Ha as [-> Ha]; [|done]. by rewrite Hft.
  - intros s. by apply reader_bind_total; [apply unser_total|].
Qed.
