(* ===== verification/Transaction.v ===== *)
(** * Transactions

    [primitives/transaction.h] and the context-free part of
    [primitives/transaction.cpp]: the data, its serialization, the shape tests,
    [GetValueOut] and [CheckTransaction].  A [uint256] is the integer whose
    little-endian bytes it holds.  The in-memory fields [CTxIn::prevPubKey],
    [CTxOut::nRounds] and [CTransaction::nDoS] are not part of the data: the
    first two are never serialized and the score a check adds to [nDoS] is the
    error it returns. *)

From S2P Require Import Prelude Opcode Interp Serialize.

Local Open Scope Z_scope.

(** ** Amounts *)

Definition COIN : Z := 100000000.
Definition CENT : Z := 1000000.
Definition MAX_MONEY : Z := 21000000 * COIN.
Definition MoneyRange (nValue : Z) : bool := (0 <=? nValue) && (nValue <=? MAX_MONEY).

Definition MAX_BLOCK_SIZE : Z := 20000000.
Definition MAX_BLOCK_SIGOPS : Z := MAX_BLOCK_SIZE / 50.

(** ** Data *)

Record COutPoint := { prevout_hash : Z; prevout_n : Z }.

Record CTxIn := {
  prevout : COutPoint;
  scriptSig : list Z;
  nSequence : Z;
}.

Record CTxOut := {
  nValue : Z;
  scriptPubKey : list Z;
}.

Record CTransaction := {
  nVersion : Z;
  nTime : Z;
  vin : list CTxIn;
  vout : list CTxOut;
  nLockTime : Z;
}.

#[export] Instance COutPoint_eq_dec : EqDecision COutPoint.
Proof. solve_decision. Defined.
#[export] Instance CTxIn_eq_dec : EqDecision CTxIn.
Proof. solve_decision. Defined.
#[export] Instance CTxOut_eq_dec : EqDecision CTxOut.
Proof. solve_decision. Defined.
#[export] Instance CTransaction_eq_dec : EqDecision CTransaction.
Proof. solve_decision. Defined.

#[export] Instance COutPoint_countable : Countable COutPoint.
Proof.
  refine (inj_countable' (fun o => (prevout_hash o, prevout_n o)) (fun p => Build_COutPoint p.1 p.2) _).
  by intros [].
Defined.

(** [(unsigned int) -1] *)
Definition UINT_MAX : Z := 0xffffffff.

(** [COutPoint::SetNull], [IsNull] *)
Definition null_outpoint : COutPoint := {| prevout_hash := 0; prevout_n := UINT_MAX |}.
Definition outpoint_IsNull (o : COutPoint) : bool := (prevout_hash o =? 0) && (prevout_n o =? UINT_MAX).

(** [CTxIn::IsFinal] *)
Definition txin_IsFinal (txin : CTxIn) : bool := nSequence txin =? UINT_MAX.

(** [CTxOut::SetNull], [IsNull], [SetEmpty], [IsEmpty] *)
Definition null_txout : CTxOut := {| nValue := -1; scriptPubKey := [] |}.
Definition txout_IsNull (o : CTxOut) : bool := nValue o =? -1.
Definition empty_txout : CTxOut := {| nValue := 0; scriptPubKey := [] |}.
Definition txout_IsEmpty (o : CTxOut) : bool := (nValue o =? 0) && (zlen (scriptPubKey o) =? 0).

(** [CTransaction::IsCoinBase], [IsCoinStake] *)
Definition IsCoinBase (tx : CTransaction) : bool :=
  match vin tx with
  | [txin] => outpoint_IsNull (prevout txin) && (1 <=? zlen (vout tx))
  | _ => false
  end.

Definition IsCoinStake (tx : CTransaction) : bool :=
  match vin tx, vout tx with
  | txin :: _, o :: _ :: _ => negb (outpoint_IsNull (prevout txin)) && txout_IsEmpty o
  | _, _ => false
  end.

(** ** Serialization *)

Definition fmt_outpoint : Serialize COutPoint :=
  fmt_iso (fmt_pair fmt_uint256 fmt_uint32)
    (fun p => Build_COutPoint p.1 p.2) (fun o => (prevout_hash o, prevout_n o)).

Definition fmt_txin : Serialize CTxIn :=
  fmt_iso (fmt_pair fmt_outpoint (fmt_pair fmt_bytes fmt_uint32))
    (fun p => Build_CTxIn p.1 p.2.1 p.2.2) (fun i => (prevout i, (scriptSig i, nSequence i))).

Definition fmt_txout : Serialize CTxOut :=
  fmt_iso (fmt_pair fmt_int64 fmt_bytes)
    (fun p => Build_CTxOut p.1 p.2) (fun o => (nValue o, scriptPubKey o)).

Definition fmt_tx : Serialize CTransaction :=
  fmt_iso (fmt_pair fmt_int (fmt_pair fmt_uint32 (fmt_pair (fmt_vector fmt_txin) (fmt_pair (fmt_vector fmt_txout) fmt_uint32))))
    (fun p => Build_CTransaction p.1 p.2.1 p.2.2.1 p.2.2.2.1 p.2.2.2.2)
    (fun t => (nVersion t, (nTime t, (vin t, (vout t, nLockTime t))))).

#[export] Instance fmt_outpoint_laws : SerializeLaws COutPoint (S := fmt_outpoint).
Proof. apply fmt_iso_laws; [by intros []|by intros []|apply _]. Qed.
#[export] Instance fmt_txin_laws : SerializeLaws CTxIn (S := fmt_txin).
Proof. apply fmt_iso_laws; [by intros []|by intros [? []]|apply _]. Qed.
#[export] Instance fmt_txout_laws : SerializeLaws CTxOut (S := fmt_txout).
Proof. apply fmt_iso_laws; [by intros []|by intros []|apply _]. Qed.
#[export] Instance fmt_tx_laws : SerializeLaws CTransaction (S := fmt_tx).
Proof. apply fmt_iso_laws; [by intros []|by intros [? [? [? []]]]|apply _]. Qed.

Definition ser_tx (tx : CTransaction) : list Z := ser (Serialize := fmt_tx) tx.
Definition unser_tx : reader CTransaction := unser (Serialize := fmt_tx).
Definition tx_ok (tx : CTransaction) : Prop := ser_ok (Serialize := fmt_tx) tx.

(** [GetSerializeSize] runs the same statements, adding up sizes. *)
Definition txin_size (txin : CTxIn) : Z :=
  36 + (GetSizeOfCompactSize (zlen (scriptSig txin)) + zlen (scriptSig txin)) + 4.
Definition txout_size (o : CTxOut) : Z :=
  8 + (GetSizeOfCompactSize (zlen (scriptPubKey o)) + zlen (scriptPubKey o)).
Fixpoint sum_Z (l : list Z) : Z :=
  match l with [] => 0 | x :: l => x + sum_Z l end.
Definition tx_size (tx : CTransaction) : Z :=
  4 + 4 + (GetSizeOfCompactSize (zlen (vin tx)) + sum_Z (map txin_size (vin tx)))
  + (GetSizeOfCompactSize (zlen (vout tx)) + sum_Z (map txout_size (vout tx))) + 4.

Section hashes.
Context {SH : ScriptHashes}.

(** [SerializeHash], the double SHA-256 of the serialization. *)
Definition uint256_of (v : valtype) : Z := le_decode v.
Definition tx_GetHash (tx : CTransaction) : Z := uint256_of (h_hash256 (ser_tx tx)).
End hashes.

(** ** GetValueOut *)

(** [GetValueOut]: the sum is an [int64_t]. *)
Fixpoint GetValueOut_loop (nValueOut : Z) (outs : list CTxOut) : outcome unit Z :=
  match outs with
  | [] => mret nValueOut
  | o :: outs =>
    let nValueOut := to_i64 (nValueOut + nValue o) in
    if negb (MoneyRange (nValue o)) || negb (MoneyRange nValueOut) then Throw
    else GetValueOut_loop nValueOut outs
  end.

Definition GetValueOut (tx : CTransaction) : outcome unit Z := GetValueOut_loop 0 (vout tx).

(** ** CheckTransaction *)

(** The loop over the outputs; the error is the score of [DoS]. *)
Fixpoint check_outputs (exempt : bool) (nValueOut : Z) (outs : list CTxOut) : outcome Z unit :=
  match outs with
  | [] => mret tt
  | txout :: outs =>
    _ ← fail_if (txout_IsEmpty txout && negb exempt) 100;
    _ ← fail_if (nValue txout <? 0) 100;
    _ ← fail_if (MAX_MONEY <? nValue txout) 100;
    let nValueOut := to_i64 (nValueOut + nValue txout) in
    _ ← fail_if (negb (MoneyRange nValueOut)) 100;
    check_outputs exempt nValueOut outs
  end.

(** The search for duplicate inputs with the set [vInOutPoints]. *)
Fixpoint check_duplicates (vInOutPoints : gset COutPoint) (ins : list CTxIn) : outcome Z unit :=
  match ins with
  | [] => mret tt
  | txin :: ins =>
    _ ← fail_if (bool_decide (prevout txin ∈ vInOutPoints)) 0;
    check_duplicates ({[prevout txin]} ∪ vInOutPoints) ins
  end.

(** [CheckTransaction]: [Err n] returns false after adding [n] to [nDoS]. *)
Definition CheckTransaction (tx : CTransaction) : outcome Z unit :=
  _ ← fail_if (zlen (vin tx) =? 0) 10;
  _ ← fail_if (zlen (vout tx) =? 0) 10;
  _ ← fail_if (MAX_BLOCK_SIZE <? tx_size tx) 100;
  _ ← check_outputs (IsCoinBase tx || IsCoinStake tx) 0 (vout tx);
  _ ← check_duplicates ∅ (vin tx);
  if IsCoinBase tx then
    match vin tx with
    | txin :: _ => fail_if ((zlen (scriptSig txin) <? 2) || (100 <? zlen (scriptSig txin))) 100
    | [] => mret tt
    end
  else fail_if (existsb (fun txin => outpoint_IsNull (prevout txin)) (vin tx)) 10.
