(* ===== verification/TransactionProps.v ===== *)
(** * Properties of transactions

    The serialization determines the transaction and has the size the code
    computes; what [CheckTransaction] establishes. *)

From S2P Require Import Prelude Opcode Interp Serialize Transaction.

Local Open Scope Z_scope.

(** ** Sizes *)

Lemma zlen_concat_map {A} (f : A -> list Z) (g : A -> Z) l :
  (forall a, zlen (f a) = g a) -> zlen (concat (map f l)) = sum_Z (map g l).
Proof. intros Hf. induction l as [|a l IH]; [done|]. cbn. by rewrite zlen_app, Hf, IH. Qed.

Lemma zlen_ser_txin txin : zlen (ser (Serialize := fmt_txin) txin) = txin_size txin.
Proof.
  cbn -[le_encode WriteCompactSize]. unfold write_uint, txin_size. autorewrite with zlen. rewrite !zlen_le_encode, zlen_WriteCompactSize. lia.
Qed.

Lemma zlen_ser_txout o : zlen (ser (Serialize := fmt_txout) o) = txout_size o.
Proof.
  cbn -[le_encode WriteCompactSize]. unfold write_uint, txout_size. autorewrite with zlen. rewrite !zlen_le_encode, zlen_WriteCompactSize. lia.
Qed.

Lemma zlen_ser_tx tx : zlen (ser_tx tx) = tx_size tx.
Proof.
  unfold ser_tx, tx_size. cbn -[fmt_txin fmt_txout le_encode WriteCompactSize]. unfold write_uint. autorewrite with zlen.
  rewrite !zlen_le_encode, !zlen_WriteCompactSize.
  rewrite (zlen_concat_map _ txin_size) by apply zlen_ser_txin.
  rewrite (zlen_concat_map _ txout_size) by apply zlen_ser_txout. lia.
Qed.

(** ** Sums of outputs *)

Definition total_out (outs : list CTxOut) : Z := sum_Z (map nValue outs).

Lemma MoneyRange_true n : MoneyRange n = true <-> 0 <= n <= MAX_MONEY.
Proof. unfold MoneyRange. lia. Qed.

Lemma to_i64_money a b : 0 <= a <= MAX_MONEY -> 0 <= b <= MAX_MONEY -> to_i64 (a + b) = a + b.
Proof. unfold MAX_MONEY, COIN. intros. apply to_i64_id. unfold INT64_MIN, INT64_MAX. lia. Qed.

Lemma total_out_nonneg outs : Forall (fun o => 0 <= nValue o) outs -> 0 <= total_out outs.
Proof. unfold total_out. induction 1; cbn; lia. Qed.

Lemma GetValueOut_loop_spec n outs v :
  0 <= n <= MAX_MONEY ->
  GetValueOut_loop n outs = Ok v <->
  Forall (fun o => 0 <= nValue o) outs /\ n + total_out outs <= MAX_MONEY /\ v = n + total_out outs.
Proof.
  revert n. induction outs as [|o outs IH]; intros n Hn; cbn [GetValueOut_loop].
  - unfold total_out. cbn. split; [intros [= <-]; split_and!; [done|lia|lia]|intros (_ & _ & ->)].
    by rewrite Z.add_0_r.
  - unfold total_out. cbn [map sum_Z]. fold (total_out outs).
    destruct (MoneyRange (nValue o)) eqn:Ho; cbn [negb orb].
    + apply MoneyRange_true in Ho. rewrite to_i64_money by done.
      destruct (MoneyRange (n + nValue o)) eqn:Hs; cbn [negb].
      * apply MoneyRange_true in Hs. rewrite IH by done. rewrite Forall_cons. intuition lia.
      * split; [done|]. intros (Hpos & Hle & _). apply Forall_cons in Hpos as [_ Hpos].
        pose proof (total_out_nonneg _ Hpos). unfold MoneyRange in Hs. lia.
    + split; [done|]. intros (Hpos & Hle & _). apply Forall_cons in Hpos as [? Hpos].
      pose proof (total_out_nonneg _ Hpos). unfold MoneyRange in Ho. lia.
Qed.

Lemma check_outputs_spec exempt n outs :
  0 <= n <= MAX_MONEY ->
  check_outputs exempt n outs = Ok tt <->
  Forall (fun o => 0 <= nValue o /\ (txout_IsEmpty o = true -> exempt = true)) outs /\
  n + total_out outs <= MAX_MONEY.
Proof.
  revert n. induction outs as [|o outs IH]; intros n Hn; cbn [check_outputs].
  { unfold total_out. cbn. split; [split; [done|lia]|done]. }
  unfold total_out. cbn [map sum_Z]. fold (total_out outs).
  rewrite Forall_cons.
  destruct (txout_IsEmpty o && negb exempt) eqn:He; cbn [fail_if mbind outcome_bind].
  { split; [done|]. intros [[[_ Hex] _] _]. apply andb_prop in He as [He Hn']. by rewrite Hex in Hn'. }
  assert (txout_IsEmpty o = true -> exempt = true) as Hex.
  { intros E. rewrite E in He. by destruct exempt. }
  destruct (Z.ltb_spec (nValue o) 0); cbn [fail_if mbind outcome_bind]; [split; [done|]; intros [[[] _] _]; lia|].
  destruct (Z.ltb_spec MAX_MONEY (nValue o)); cbn [fail_if mbind outcome_bind].
  { split; [done|]. intros [[_ Hpos] Hle].
    assert (0 <= total_out outs) by (apply total_out_nonneg; eapply Forall_impl; [exact Hpos|]; by intros ? []). lia. }
  rewrite to_i64_money by lia. destruct (MoneyRange (n + nValue o)) eqn:Hs; cbn [negb fail_if mbind outcome_bind].
  - apply MoneyRange_true in Hs. rewrite IH by done. intuition lia.
  - split; [done|]. intros [[_ Hpos] Hle].
    assert (0 <= total_out outs) by (apply total_out_nonneg; eapply Forall_impl; [exact Hpos|]; by intros ? []).
    unfold MoneyRange in Hs. lia.
Qed.

Lemma check_duplicates_spec seen ins :
  check_duplicates seen ins = Ok tt <->
  NoDup (map prevout ins) /\ Forall (fun i => prevout i ∉ seen) ins.
Proof.
  revert seen. induction ins as [|i ins IH]; intros seen; cbn [check_duplicates map].
  { split; [split; constructor|done]. }
  rewrite NoDup_cons, Forall_cons. case_bool_decide as Hin; cbn [fail_if mbind outcome_bind].
  { split; [done|]. by intros [_ [? _]]. }
  rewrite IH. rewrite !Forall_forall. split.
  - intros [Hnd Hall]. split_and!; try done.
    + intros (j & Hj & Hjin)%list_elem_of_In%in_map_iff. apply list_elem_of_In in Hjin.
      apply Hall in Hjin. set_solver.
    + intros j Hj. apply Hall in Hj. set_solver.
  - intros [[Hni Hnd] [_ Hall]]. split; [done|]. intros j Hj. rewrite elem_of_union, elem_of_singleton.
    intros [E|?]; [|by eapply Hall]. apply Hni. rewrite <-E. by apply list_elem_of_In, in_map, list_elem_of_In.
Qed.

(** ** Properties *)

(** What a transaction must satisfy without context. *)
Record tx_well_formed (tx : CTransaction) : Prop := {
  wf_vin : vin tx <> [];
  wf_vout : vout tx <> [];
  wf_size : tx_size tx <= MAX_BLOCK_SIZE;
  wf_values : Forall (fun o => 0 <= nValue o) (vout tx);
  wf_total : total_out (vout tx) <= MAX_MONEY;
  wf_empty : IsCoinBase tx = false -> IsCoinStake tx = false -> Forall (fun o => txout_IsEmpty o = false) (vout tx);
  wf_inputs : NoDup (map prevout (vin tx));
  wf_coinbase : IsCoinBase tx = true -> forall i, head (vin tx) = Some i -> 2 <= zlen (scriptSig i) <= 100;
  wf_prevouts : IsCoinBase tx = false -> Forall (fun i => outpoint_IsNull (prevout i) = false) (vin tx);
}.

Lemma CheckTransaction_Ok (tx : CTransaction) : CheckTransaction tx = Ok tt -> tx_well_formed tx.
Proof.
  unfold CheckTransaction. intros H. mon_inv. repeat match goal with x : unit |- _ => destruct x end.
  match goal with H : check_outputs _ _ _ = _ |- _ => apply check_outputs_spec in H as [Ho Ht]; [|done] end.
  match goal with H : check_duplicates _ _ = _ |- _ => apply check_duplicates_spec in H as [Hd _] end.
  assert (vin tx <> []) by (intros E; by rewrite E in *).
  constructor; try done || lia.
  - intros E. by rewrite E in *.
  - eapply Forall_impl; [exact Ho|]. by intros ? [].
  - intros Hcb Hcs. rewrite Hcb, Hcs in Ho. eapply Forall_impl; [exact Ho|].
    intros o [_ He]. destruct (txout_IsEmpty o); [by specialize (He eq_refl)|done].
  - intros Hcb i Hi. rewrite Hcb in *. destruct (vin tx); [done|]. injection Hi as ->. mon_inv. lia.
  - intros Hcb. rewrite Hcb in *. mon_inv. apply Forall_forall. intros i Hi.
    match goal with H : existsb ?f ?l = false |- _ => destruct (f i) eqn:E;
      [rewrite (proj2 (existsb_exists f l)) in H by (exists i; by rewrite <-list_elem_of_In); done|done] end.
Qed.

Lemma CheckTransaction_complete (tx : CTransaction) : tx_well_formed tx -> CheckTransaction tx = Ok tt.
Proof.
  unfold CheckTransaction. intros [Hin Hout Hsz Hv Ht He Hd Hcb Hp].
  assert ((zlen (vin tx) =? 0) = false) as -> by (destruct (vin tx); [done|rewrite zlen_cons; pose proof (zlen_nonneg l); lia]).
  assert ((zlen (vout tx) =? 0) = false) as -> by (destruct (vout tx); [done|rewrite zlen_cons; pose proof (zlen_nonneg l); lia]).
  assert ((MAX_BLOCK_SIZE <? tx_size tx) = false) as -> by lia. cbn [fail_if mbind outcome_bind].
  assert (check_outputs (IsCoinBase tx || IsCoinStake tx) 0 (vout tx) = Ok tt) as ->.
  { apply check_outputs_spec; [done|]. split; [|lia]. apply Forall_forall. intros o Ho.
    rewrite Forall_forall in Hv. split; [by apply Hv|]. intros Heo.
    destruct (IsCoinBase tx), (IsCoinStake tx); try done.
    specialize (He eq_refl eq_refl). rewrite Forall_forall in He. by rewrite He in Heo. }
  assert (check_duplicates ∅ (vin tx) = Ok tt) as ->.
  { apply check_duplicates_spec. split; [done|]. apply Forall_forall. set_solver. }
  cbn [mbind outcome_bind]. destruct (IsCoinBase tx).
  - destruct (vin tx) as [|i l]; [done|]. specialize (Hcb eq_refl i eq_refl).
    assert (((zlen (scriptSig i) <? 2) || (100 <? zlen (scriptSig i))) = false) as -> by lia. done.
  - assert (existsb (fun i => outpoint_IsNull (prevout i)) (vin tx) = false) as ->; [|done].
    apply not_true_is_false. intros (i & Hi & E)%existsb_exists.
    specialize (Hp eq_refl). rewrite Forall_forall in Hp. by rewrite Hp in E by by apply list_elem_of_In.
Qed.

(** C30: [CheckTransaction] accepts exactly the transactions that have inputs
    and outputs, fit a block, have outputs and a total in the money range and
    no empty output unless they are a coinbase or coinstake, spend no output
    twice, and have a coinbase script of 2 to 100 bytes or else no null
    input. *)
Theorem CheckTransaction_spec (tx : CTransaction) : CheckTransaction tx = Ok tt <-> tx_well_formed tx.
Proof. split; [apply CheckTransaction_Ok|apply CheckTransaction_complete]. Qed.

Definition sample_out (v : Z) : CTxOut := {| nValue := v; scriptPubKey := [0x51] |}.
Definition sample_in (h : Z) : CTxIn :=
  {| prevout := {| prevout_hash := h; prevout_n := 0 |}; scriptSig := [0x51]; nSequence := UINT_MAX |}.
Definition sample_tx : CTransaction := {|
  nVersion := 1; nTime := 1000; vin := [sample_in 5; sample_in 6];
  vout := [sample_out 7; sample_out 8]; nLockTime := 0
|}.

(** For a transaction [CheckTransaction] accepts, [GetValueOut] does not
    throw and returns the exact sum of the outputs, in the money range. *)
Lemma CheckTransaction_GetValueOut (tx : CTransaction) (Hcheck : CheckTransaction tx = Ok tt) :
  GetValueOut tx = Ok (total_out (vout tx)) /\ 0 <= total_out (vout tx) <= MAX_MONEY.
Proof.
  unfold CheckTransaction in Hcheck. mon_inv. repeat match goal with x : unit |- _ => destruct x end.
  match goal with H : check_outputs _ _ _ = _ |- _ => apply check_outputs_spec in H as [Ho Ht]; [|done] end.
  assert (Forall (fun o => 0 <= nValue o) (vout tx)) as Hv by (eapply Forall_impl; [exact Ho|]; by intros ? []).
  pose proof (total_out_nonneg _ Hv). split; [|lia].
  apply GetValueOut_loop_spec; [done|]. split_and!; done || lia.
Qed.

Lemma tx_ok_sample : tx_ok sample_tx.
Proof.
  apply (ser_unser (S := fmt_tx) sample_tx (ser_tx sample_tx) []); [decide_now|by vm_compute].
Qed.

(** C38: the wire format of transactions.  A byte stream is read as [tx] followed
    by [rest] exactly when [tx] is well formed and the stream is the
    serialization of [tx] followed by [rest] (so the format round-trips and is
    canonical); reading never fails otherwise than by throwing; and the
    serialization has the size [GetSerializeSize] computes. *)
Theorem CTransaction_codec (s rest : list Z) (tx : CTransaction) (Hs : bytes_ok s) :
  (unser_tx s = Ok (tx, rest) <-> tx_ok tx /\ s = ser_tx tx ++ rest) /\
  (forall e, unser_tx s <> Err e) /\ unser_tx s <> Crash /\ zlen (ser_tx tx) = tx_size tx.
Proof.
  pose proof (unser_total (S := fmt_tx) s) as Ht. unfold unser_tx. split; [split|].
  - intros H. apply (ser_unser (S := fmt_tx)) in H as [? ?]; done.
  - intros [? ->]. by apply (unser_ser (S := fmt_tx)).
  - split_and!; [intros e He; by rewrite He in Ht|intros He; by rewrite He in Ht|apply zlen_ser_tx].
Qed.

Lemma CTransaction_codec_witness :
  tx_ok sample_tx /\ ser_tx sample_tx ++ [9] = ser_tx sample_tx ++ [9].
Proof. apply (CTransaction_codec (ser_tx sample_tx ++ [9]) [9] sample_tx); [decide_now|by vm_compute]. Defined.
