(* ===== verification/SigHash.v ===== *)
(** * Signature hashes and the signature check

    [SignatureHash] of [script/interpreter.cpp]; [CheckSig] of
    [script/sign.cpp] with the signature cache of [script/sigcache.cpp];
    [SignatureChecker::CheckSig]; [CPubKey]'s length test.  [CPubKey::Verify]
    and [CheckLowS] end in the vendored secp256k1 library and are parameters. *)

From S2P Require Import Prelude Opcode ScriptNum Script SigEncoding Interp Serialize Transaction.

Local Open Scope Z_scope.

(** ** SignatureHash *)

Definition with_scriptSig (txin : CTxIn) (s : list Z) : CTxIn :=
  {| prevout := prevout txin; scriptSig := s; nSequence := nSequence txin |}.
Definition with_nSequence (txin : CTxIn) (n : Z) : CTxIn :=
  {| prevout := prevout txin; scriptSig := scriptSig txin; nSequence := n |}.
Definition with_vin (tx : CTransaction) (ins : list CTxIn) : CTransaction :=
  {| nVersion := nVersion tx; nTime := nTime tx; vin := ins; vout := vout tx; nLockTime := nLockTime tx |}.
Definition with_vout (tx : CTransaction) (outs : list CTxOut) : CTransaction :=
  {| nVersion := nVersion tx; nTime := nTime tx; vin := vin tx; vout := outs; nLockTime := nLockTime tx |}.

(** Blanks the scripts of all inputs but [nIn], which gets [scriptCode]. *)
Definition blank_scripts (scriptCode : list Z) (nIn : nat) (ins : list CTxIn) : list CTxIn :=
  <[nIn := with_scriptSig (nth nIn ins {| prevout := null_outpoint; scriptSig := []; nSequence := UINT_MAX |}) scriptCode]>
    (map (fun txin => with_scriptSig txin []) ins).

(** [for (i ...) if (i != nIn) txTmp.vin[i].nSequence = 0;] *)
Definition zero_sequences (nIn : nat) (ins : list CTxIn) : list CTxIn :=
  imap (fun i txin => if (i =? nIn)%nat then txin else with_nSequence txin 0) ins.

(** The transaction that is serialized and hashed, or [None] where the
    function returns the hash 1. *)
Definition sighash_tx (scriptCode : list Z) (txTo : CTransaction) (nIn nHashType : Z) : option CTransaction :=
  if zlen (vin txTo) <=? nIn then None
  else
    let n := Z.to_nat nIn in
    let scriptCode := snd (FindAndDelete scriptCode [op_code OP_CODESEPARATOR]) in
    let txTmp := with_vin txTo (blank_scripts scriptCode n (vin txTo)) in
    txTmp ← (if Z.land nHashType 0x1f =? SIGHASH_NONE then
               Some (with_vin (with_vout txTmp []) (zero_sequences n (vin txTmp)))
             else if Z.land nHashType 0x1f =? SIGHASH_SINGLE then
               if zlen (vout txTmp) <=? nIn then None
               else
                 let outs := imap (fun i o => if (i <? n)%nat then null_txout else o) (take (S n) (vout txTmp)) in
                 Some (with_vin (with_vout txTmp outs) (zero_sequences n (vin txTmp)))
             else Some txTmp);
    if has_flag nHashType SIGHASH_ANYONECANPAY then
      Some (with_vin txTmp (match vin txTmp !! n with Some txin => [txin] | None => [] end))
    else Some txTmp.

(** The bytes that are hashed. *)
Definition sighash_preimage (tx : CTransaction) (nHashType : Z) : list Z :=
  ser_tx tx ++ ser (Serialize := fmt_int) nHashType.

(** ** Public keys *)

(** [CPubKey::GetLen] of the first byte. *)
Definition CPubKey_GetLen (chHeader : Z) : Z :=
  if (chHeader =? 2) || (chHeader =? 3) then 33
  else if (chHeader =? 4) || (chHeader =? 6) || (chHeader =? 7) then 65
  else 0.

(** [CPubKey(vch)]: the key, or [None] when it is invalidated. *)
Definition CPubKey_of (vch : valtype) : option valtype :=
  match vch with
  | [] => None
  | chHeader :: _ =>
    let len := CPubKey_GetLen chHeader in
    if negb (len =? 0) && (len =? zlen vch) then Some vch else None
  end.

(** [CPubKey::Verify] and [CPubKey::CheckLowS] *)
Class ECDSA := {
  pubkey_Verify : valtype -> Z -> valtype -> bool;
  pubkey_CheckLowS : valtype -> bool;
}.

(** ** The signature cache *)

(** [sigdata_type] *)
Record sigdata := SigData { sd_hash : Z; sd_sig : valtype; sd_key : valtype }.

#[export] Instance sigdata_eq_dec : EqDecision sigdata.
Proof. solve_decision. Defined.

(** [std::vector]'s and the tuple's [operator<]; keys compare by their first
    byte and then their bytes, that is as byte vectors. *)
Fixpoint bytes_lt (a b : valtype) : bool :=
  match a, b with
  | _, [] => false
  | [], _ :: _ => true
  | x :: a, y :: b => (x <? y) || ((x =? y) && bytes_lt a b)
  end.

Definition sigdata_lt (a b : sigdata) : bool :=
  (sd_hash a <? sd_hash b) ||
  ((sd_hash a =? sd_hash b) &&
   (bytes_lt (sd_sig a) (sd_sig b) ||
    (bool_decide (sd_sig a = sd_sig b) && bytes_lt (sd_key a) (sd_key b)))).

(** [setValid] is the list of its elements in order. *)
Definition sigcache := list sigdata.

(** [setValid.insert(k)] *)
Fixpoint sigcache_insert (k : sigdata) (setValid : sigcache) : sigcache :=
  match setValid with
  | [] => [k]
  | k' :: rest =>
    if sigdata_lt k k' then k :: setValid
    else if sigdata_lt k' k then k' :: sigcache_insert k rest
    else setValid
  end.

(** Erases the first element not below [(randomHash, unused, unused)], or the
    first one; the invalid key's first byte is 0xFF. *)
Fixpoint erase_lower_bound (randomHash : Z) (setValid : sigcache) : option sigcache :=
  match setValid with
  | [] => None
  | k :: rest =>
    if negb (sigdata_lt k (SigData randomHash [] [0xff])) then Some rest
    else (fun rest => k :: rest) <$> erase_lower_bound randomHash rest
  end.

Definition sigcache_evict (randomHash : Z) (setValid : sigcache) : sigcache :=
  match erase_lower_bound randomHash setValid with
  | Some setValid => setValid
  | None => tail setValid
  end.

(** [while (setValid.size() > nMaxCacheSize)]: one random hash a round; the
    size of the set is fuel enough. *)
Fixpoint sigcache_shrink (fuel : nat) (rand : nat -> Z) (nMaxCacheSize : Z) (setValid : sigcache) : sigcache :=
  match fuel with
  | O => setValid
  | S fuel =>
    if nMaxCacheSize <? zlen setValid then
      sigcache_shrink fuel rand nMaxCacheSize (sigcache_evict (rand fuel) setValid)
    else setValid
  end.

(** [CSignatureCache::Get] and [Set] *)
Definition sigcache_Get (setValid : sigcache) (k : sigdata) : bool := bool_decide (k ∈ setValid).

Definition sigcache_Set (rand : nat -> Z) (nMaxCacheSize : Z) (setValid : sigcache) (k : sigdata) : sigcache :=
  if nMaxCacheSize <=? 0 then setValid
  else sigcache_insert k (sigcache_shrink (length setValid) rand nMaxCacheSize setValid).

Section check.
Context {SH : ScriptHashes} {EC : ECDSA}.

(** [SignatureHash] *)
Definition SignatureHash (scriptCode : list Z) (txTo : CTransaction) (nIn nHashType : Z) : Z :=
  match sighash_tx scriptCode txTo nIn nHashType with
  | None => 1
  | Some txTmp => uint256_of (h_hash256 (sighash_preimage txTmp nHashType))
  end.

(** [SignatureChecker::CheckSig] *)
Definition SignatureChecker_CheckSig (txTo : CTransaction) (nIn : Z)
    (vchSigIn vchPubKey : valtype) (scriptCode : list Z) : bool :=
  match CPubKey_of vchPubKey with
  | None => false
  | Some pubkey =>
    match vchSigIn with
    | [] => false
    | _ =>
      let nHashType := List.last vchSigIn 0 in
      let vchSig := removelast vchSigIn in
      let sighash := SignatureHash scriptCode txTo nIn nHashType in
      pubkey_Verify pubkey sighash vchSig
    end
  end.

(** [CheckSig(vchSig, vchPubKey, scriptCode, txTo, nIn, nHashType, flags)]
    with its static cache: the result and the cache afterwards. *)
Definition CheckSig (rand : nat -> Z) (nMaxCacheSize : Z) (cache : sigcache)
    (vchSig vchPubKey : valtype) (scriptCode : list Z) (txTo : CTransaction) (nIn nHashType flags : Z)
    : bool * sigcache :=
  match CPubKey_of vchPubKey with
  | None => (false, cache)
  | Some pubkey =>
    match vchSig with
    | [] => (false, cache)
    | _ =>
      let back := List.last vchSig 0 in
      if negb (nHashType =? 0) && negb (nHashType =? back) then (false, cache)
      else
        let nHashType := if nHashType =? 0 then back else nHashType in
        let vchSig := removelast vchSig in
        let sighash := SignatureHash scriptCode txTo nIn nHashType in
        let k := SigData sighash vchSig pubkey in
        if sigcache_Get cache k then (true, cache)
        else if negb (pubkey_Verify pubkey sighash vchSig) then (false, cache)
        else if negb (has_flag flags SCRIPT_VERIFY_NOCACHE) then (true, sigcache_Set rand nMaxCacheSize cache k)
        else (true, cache)
    end
  end.
End check.
