(* ===== verification/SigHashProps.v ===== *)
(** * Properties of signature hashes and the signature cache *)

From S2P Require Import Prelude Opcode ScriptNum Script SigEncoding Interp Serialize Transaction TransactionProps SigHash.

Local Open Scope Z_scope.

(** ** The signature cache *)

(** Every entry of the cache was verified. *)
Definition cache_sound `{EC : ECDSA} (cache : sigcache) : Prop :=
  Forall (fun k => pubkey_Verify (sd_key k) (sd_hash k) (sd_sig k) = true) cache.

Lemma sigcache_insert_elem k cache k' : k' ∈ sigcache_insert k cache -> k' = k \/ k' ∈ cache.
Proof.
  induction cache as [|x cache IH]; cbn; [set_solver|]. repeat case_match; set_solver.
Qed.

Lemma erase_lower_bound_sub r cache cache' :
  erase_lower_bound r cache = Some cache' -> cache' ⊆ cache /\ length cache = S (length cache').
Proof.
  revert cache'. induction cache as [|x cache IH]; intros cache'; cbn; [done|].
  destruct (negb _); [intros [= <-]; split; [set_solver|done]|].
  destruct (erase_lower_bound r cache) as [c|] eqn:E; [|done]. intros [= <-].
  destruct (IH c eq_refl). split; [set_solver|cbn; lia].
Qed.

Lemma sigcache_evict_sub r cache : sigcache_evict r cache ⊆ cache.
Proof.
  unfold sigcache_evict. destruct (erase_lower_bound r cache) as [c|] eqn:E.
  - by apply erase_lower_bound_sub in E as [].
  - destruct cache; set_solver.
Qed.

Lemma sigcache_evict_length r cache : length (sigcache_evict r cache) = Nat.pred (length cache).
Proof.
  unfold sigcache_evict. destruct (erase_lower_bound r cache) as [c|] eqn:E.
  - apply erase_lower_bound_sub in E as [_ ->]. done.
  - by destruct cache.
Qed.

Lemma sigcache_shrink_sub fuel rand n cache : sigcache_shrink fuel rand n cache ⊆ cache.
Proof.
  revert cache. induction fuel as [|fuel IH]; intros cache; cbn; [done|].
  destruct (n <? zlen cache); [|done]. etrans; [apply IH|apply sigcache_evict_sub].
Qed.

(** The eviction loop reaches the limit. *)
Lemma sigcache_shrink_size fuel rand n cache :
  0 <= n -> (length cache <= fuel)%nat -> zlen (sigcache_shrink fuel rand n cache) <= n.
Proof.
  intros Hn. revert cache. induction fuel as [|fuel IH]; intros cache Hf; cbn.
  - unfold zlen. lia.
  - destruct (Z.ltb_spec n (zlen cache)); [|done]. apply IH. rewrite sigcache_evict_length. lia.
Qed.

Lemma sigcache_insert_size k cache : zlen (sigcache_insert k cache) <= zlen cache + 1.
Proof.
  induction cache as [|x cache IH]; cbn; [done|]. repeat case_match; rewrite ?zlen_cons in *; lia.
Qed.

(** The cache never changes the verdict: from a sound cache, [CheckSig]
    answers what it answers with an empty one, and leaves a sound cache of at
    most one entry more than the limit. *)
Theorem CheckSig_cache_transparent `{SH : ScriptHashes, EC : ECDSA}
    rand nMaxCacheSize cache vchSig vchPubKey scriptCode txTo nIn nHashType flags
    (Hsound : cache_sound cache) :
  let r := CheckSig rand nMaxCacheSize cache vchSig vchPubKey scriptCode txTo nIn nHashType flags in
  fst r = fst (CheckSig rand nMaxCacheSize [] vchSig vchPubKey scriptCode txTo nIn nHashType flags) /\
  cache_sound (snd r) /\ (snd r = cache \/ zlen (snd r) <= nMaxCacheSize + 1).
Proof.
  unfold CheckSig. cbv zeta. destruct (CPubKey_of vchPubKey) as [pubkey|]; [|by auto].
  destruct vchSig as [|b vchSig]; [by auto|]. set (sig := b :: vchSig).
  destruct (negb (nHashType =? 0) && _); [by auto|].
  set (sh := SignatureHash _ _ _ _). set (sg := removelast sig). set (k := SigData sh sg pubkey).
  assert (sigcache_Get [] k = false) as -> by (apply bool_decide_eq_false; set_solver).
  destruct (sigcache_Get cache k) eqn:Hget.
  - apply bool_decide_eq_true in Hget. unfold cache_sound in Hsound. rewrite Forall_forall in Hsound.
    assert (pubkey_Verify pubkey sh sg = true) as -> by exact (Hsound _ Hget). cbn.
    split; [by case_match|]. split; [by apply Forall_forall|by left].
  - destruct (pubkey_Verify _ _ _) eqn:Hv; cbn [negb]; [|by auto].
    destruct (negb (has_flag _ _)); cbn; [|by auto]. split; [done|].
    unfold sigcache_Set. destruct (Z.leb_spec nMaxCacheSize 0); [by auto|]. split.
    + apply Forall_forall. intros k' [->|Hk']%sigcache_insert_elem; [done|].
      apply sigcache_shrink_sub in Hk'. unfold cache_sound in Hsound. rewrite Forall_forall in Hsound. auto.
    + right. etrans; [apply sigcache_insert_size|].
      pose proof (sigcache_shrink_size (length cache) rand nMaxCacheSize cache ltac:(lia) ltac:(lia)). lia.
Qed.

#[local] Instance toy_hashes : ScriptHashes := {
  h_ripemd160 := id; h_sha1 := id; h_sha256 := id; h_hash160 := id; h_hash256 := id;
}.
#[local] Instance toy_ecdsa : ECDSA := {
  pubkey_Verify := fun _ _ vchSig => bool_decide (vchSig = [7]);
  pubkey_CheckLowS := fun _ => true;
}.

Definition toy_key : valtype := 2 :: repeat 9 32.

Lemma CheckSig_cache_transparent_witness :
  let cache := [SigData 1 [7] toy_key] in
  let r := CheckSig (fun _ => 0) 1 cache [7; 1] toy_key [0x51] sample_tx 0 0 0 in
  fst r = fst (CheckSig (fun _ => 0) 1 [] [7; 1] toy_key [0x51] sample_tx 0 0 0) /\
  cache_sound (snd r) /\ (snd r = cache \/ zlen (snd r) <= 1 + 1).
Proof.
  apply (CheckSig_cache_transparent (fun _ => 0) 1 [SigData 1 [7] toy_key] [7; 1] toy_key [0x51] sample_tx 0 0 0).
  by repeat constructor.
Defined.

(** ** What a signature commits to *)

(** The signature hash does not depend on the scripts of the inputs, so
    that signing an input does not invalidate the signatures of the others. *)
Lemma SignatureHash_ignores_scripts `{SH : ScriptHashes} scriptCode tx ins nIn nHashType
    (Hins : map (fun i => with_scriptSig i []) ins = map (fun i => with_scriptSig i []) (vin tx)) :
  SignatureHash scriptCode (with_vin tx ins) nIn nHashType = SignatureHash scriptCode tx nIn nHashType.
Proof.
  unfold SignatureHash. assert (sighash_tx scriptCode (with_vin tx ins) nIn nHashType = sighash_tx scriptCode tx nIn nHashType) as ->; [|done].
  unfold sighash_tx. cbn [vin with_vin].
  assert (length ins = length (vin tx)) as Hlen by (apply (f_equal length) in Hins; by rewrite !length_map in Hins).
  assert (zlen ins = zlen (vin tx)) as -> by (unfold zlen; by rewrite Hlen).
  destruct (Z.leb_spec (zlen (vin tx)) nIn); [done|].
  assert (forall sc, blank_scripts sc (Z.to_nat nIn) ins = blank_scripts sc (Z.to_nat nIn) (vin tx)) as Hb; [|by rewrite Hb].
  intros sc. unfold blank_scripts. rewrite Hins. f_equal.
  set (d := {| prevout := null_outpoint; scriptSig := []; nSequence := UINT_MAX |}).
  set (n := Z.to_nat nIn).
  assert (forall l, with_scriptSig (nth n l d) [] = nth n (map (fun i => with_scriptSig i []) l) d) as Hnth
    by (intros l; symmetry; exact (map_nth (fun i => with_scriptSig i []) l d n)).
  assert (with_scriptSig (nth n ins d) [] = with_scriptSig (nth n (vin tx) d) []) as E by (by rewrite !Hnth, Hins).
  unfold with_scriptSig in *. by injection E as -> ->.
Qed.

(** Signs every input and output. *)
Definition signs_all (nHashType : Z) : Prop :=
  Z.land nHashType 0x1f <> SIGHASH_NONE /\ Z.land nHashType 0x1f <> SIGHASH_SINGLE /\
  has_flag nHashType SIGHASH_ANYONECANPAY = false.

Lemma sighash_tx_all sc tx nIn nHashType t :
  signs_all nHashType -> sighash_tx sc tx nIn nHashType = Some t ->
  t = with_vin tx (blank_scripts (snd (FindAndDelete sc [op_code OP_CODESEPARATOR])) (Z.to_nat nIn) (vin tx)) /\
  nIn < zlen (vin tx).
Proof.
  intros (Hn & Hs & Ha). unfold sighash_tx. destruct (Z.leb_spec (zlen (vin tx)) nIn); [done|].
  destruct (Z.eqb_spec (Z.land nHashType 0x1f) SIGHASH_NONE); [done|].
  destruct (Z.eqb_spec (Z.land nHashType 0x1f) SIGHASH_SINGLE); [done|].
  cbn [mbind option_bind]. rewrite Ha. by intros [= <-].
Qed.

Lemma blank_scripts_map {B} (f : CTxIn -> B) sc n ins :
  (forall i s, f (with_scriptSig i s) = f i) -> map f (blank_scripts sc n ins) = map f ins.
Proof.
  intros Hf. apply list_eq. intros j. unfold blank_scripts.
  rewrite (list_lookup_fmap f), (list_lookup_fmap f). destruct (decide (j = n)) as [->|Hne].
  - destruct (decide (n < length ins)%nat) as [Hlt|Hge].
    + rewrite list_lookup_insert_eq by (by rewrite length_map). destruct (lookup_lt_is_Some_2 ins n Hlt) as [i Hi].
      rewrite Hi. cbn. rewrite Hf. do 2 f_equal. by apply nth_lookup_Some.
    + rewrite lookup_ge_None_2 by (rewrite length_insert, length_map; lia).
      by rewrite lookup_ge_None_2 by lia.
  - rewrite list_lookup_insert_ne by done. rewrite (list_lookup_fmap (fun i => with_scriptSig i [])).
    destruct (ins !! j); [cbn; by rewrite Hf|done].
Qed.

Lemma blank_scripts_at sc n ins : (n < length ins)%nat -> scriptSig <$> blank_scripts sc n ins !! n = Some sc.
Proof. intros Hn. unfold blank_scripts. by rewrite list_lookup_insert_eq by (by rewrite length_map). Qed.

(** C36: with SIGHASH_ALL a signature commits to the whole transaction: equal
    hashed bytes mean equal version, time, lock time, outputs, spent outpoints
    and sequence numbers, the same hash type, and for the same input the same
    script code less its code separators. *)
Theorem SIGHASH_ALL_commits sc1 sc2 tx1 tx2 n1 n2 ht1 ht2 t1 t2
    (Hall1 : signs_all ht1) (Hall2 : signs_all ht2)
    (Hht1 : ser_ok (Serialize := fmt_int) ht1) (Hht2 : ser_ok (Serialize := fmt_int) ht2)
    (Hn1 : 0 <= n1) (Hn2 : 0 <= n2)
    (Ht1 : sighash_tx sc1 tx1 n1 ht1 = Some t1) (Ht2 : sighash_tx sc2 tx2 n2 ht2 = Some t2)
    (Hok1 : tx_ok t1) (Hok2 : tx_ok t2)
    (Hpre : sighash_preimage t1 ht1 = sighash_preimage t2 ht2) :
  ht1 = ht2 /\ nVersion tx1 = nVersion tx2 /\ nTime tx1 = nTime tx2 /\ nLockTime tx1 = nLockTime tx2 /\
  vout tx1 = vout tx2 /\ map prevout (vin tx1) = map prevout (vin tx2) /\
  map nSequence (vin tx1) = map nSequence (vin tx2) /\
  (n1 = n2 -> snd (FindAndDelete sc1 [op_code OP_CODESEPARATOR]) = snd (FindAndDelete sc2 [op_code OP_CODESEPARATOR])).
Proof.
  unfold sighash_preimage in Hpre.
  pose proof (unser_ser (S := fmt_tx) t1 (ser (Serialize := fmt_int) ht1) Hok1) as E1.
  pose proof (unser_ser (S := fmt_tx) t2 (ser (Serialize := fmt_int) ht2) Hok2) as E2.
  unfold ser_tx in Hpre. rewrite Hpre, E2 in E1.
  assert (t2 = t1) as Et by congruence.
  assert (ser (Serialize := fmt_int) ht2 = ser (Serialize := fmt_int) ht1) as Eh by congruence. clear E1 E2 Hpre.
  pose proof (unser_ser (S := fmt_int) ht1 [] Hht1) as F1. pose proof (unser_ser (S := fmt_int) ht2 [] Hht2) as F2.
  rewrite Eh, F1 in F2. assert (ht2 = ht1) as Hht by congruence. subst t2 ht2. clear Eh F1 F2.
  apply sighash_tx_all in Ht1 as [E1 Hl1]; [|done]. apply sighash_tx_all in Ht2 as [E2' Hl2]; [|done].
  rewrite E1 in E2'. injection E2' as Ev Et Ei Eo El. split_and!; try done.
  - apply (f_equal (map prevout)) in Ei. by rewrite !blank_scripts_map in Ei.
  - apply (f_equal (map nSequence)) in Ei. by rewrite !blank_scripts_map in Ei.
  - intros <-. apply (f_equal (fun l => scriptSig <$> l !! Z.to_nat n1)) in Ei. unfold zlen in *.
    rewrite !blank_scripts_at in Ei by lia. exact (inj Some _ _ Ei).
Qed.

Lemma SIGHASH_ALL_commits_witness :
  snd (FindAndDelete [0x51; 0xab] [op_code OP_CODESEPARATOR]) = snd (FindAndDelete [0x51] [op_code OP_CODESEPARATOR]).
Proof.
  apply (SIGHASH_ALL_commits [0x51; 0xab] [0x51] sample_tx sample_tx 0 0 1 1
    (with_vin sample_tx (blank_scripts [0x51] 0 (vin sample_tx)))
    (with_vin sample_tx (blank_scripts [0x51] 0 (vin sample_tx)))); try done; try (by split).
  - apply (ser_unser (S := fmt_tx) _ (ser_tx (with_vin sample_tx (blank_scripts [0x51] 0 (vin sample_tx)))) []);
      [decide_now|by vm_compute].
  - apply (ser_unser (S := fmt_tx) _ (ser_tx (with_vin sample_tx (blank_scripts [0x51] 0 (vin sample_tx)))) []);
      [decide_now|by vm_compute].
Defined.
