(* ===== verification/Bignum.v ===== *)
(** * Arbitrary-precision integers: [CBigNum] of [bignum.h]

    A [CBigNum] is an integer; its arithmetic is that of [Z], division
    rounding towards zero.  [bn2mpi] and [mpi2bn] are the format of OpenSSL's
    BN_bn2mpi and BN_mpi2bn without the four length bytes: big-endian, the
    sign in the top bit of the first byte, a zero byte in front of a magnitude
    that has its top bit set. *)

From S2P Require Import Prelude.

Local Open Scope Z_scope.

Definition byte_length (m : Z) : nat := if m =? 0 then 0%nat else Z.to_nat (Z.log2 m / 8 + 1).

Definition bn2mpi (z : Z) : list Z :=
  let m := Z.abs z in
  match rev (le_encode (byte_length m) m) with
  | [] => []
  | b :: rest =>
    if 128 <=? b then (if z <? 0 then 0x80 else 0) :: b :: rest
    else (if z <? 0 then b + 0x80 else b) :: rest
  end.

Definition mpi2bn (vch : list Z) : Z :=
  match vch with
  | [] => 0
  | b :: rest =>
    let m := le_decode (rev (Z.land b 0x7f :: rest)) in
    if Z.land b 0x80 =? 0 then m else - m
  end.

(** The loop of [getuint64] and [getuint256]: the low [size] bytes of the
    magnitude. *)
Definition getuint (size : nat) (z : Z) : Z :=
  match bn2mpi z with
  | [] => 0
  | b :: rest => le_decode (take size (rev (Z.land b 0x7f :: rest)))
  end.

Definition getuint64 (z : Z) : Z := getuint 8 z.
Definition getuint256 (z : Z) : Z := getuint 32 z.

(** ** The compact form of targets *)

Definition SetCompact (nCompact : Z) : Z :=
  let nSize := Z.shiftr nCompact 24 in
  let vch := [Z.land (Z.shiftr nCompact 16) 0xff; Z.land (Z.shiftr nCompact 8) 0xff; Z.land nCompact 0xff] in
  mpi2bn (take (Z.to_nat nSize) (vch ++ repeat 0 (Z.to_nat nSize - 3))).

Definition GetCompact (z : Z) : Z :=
  let vch := bn2mpi z in
  let nSize := zlen vch in
  let nCompact := to_u32 (Z.shiftl nSize 24) in
  let nCompact := if 1 <=? nSize then Z.lor nCompact (Z.shiftl (byte_at vch 0) 16) else nCompact in
  let nCompact := if 2 <=? nSize then Z.lor nCompact (Z.shiftl (byte_at vch 1) 8) else nCompact in
  if 3 <=? nSize then Z.lor nCompact (byte_at vch 2) else nCompact.

(** ** The format represents every integer *)

Lemma byte_length_bound m : 0 <= m -> m < 256 ^ Z.of_nat (byte_length m).
Proof.
  intros Hm. unfold byte_length. destruct (Z.eqb_spec m 0) as [->|Hne]; [done|].
  pose proof (Z.log2_nonneg m). pose proof (Z.log2_spec m ltac:(lia)) as [_ Hlt].
  rewrite Z2Nat.id by (pose proof (Z.div_pos (Z.log2 m) 8); lia).
  change 256 with (2 ^ 8). rewrite <- Z.pow_mul_r by (pose proof (Z.div_pos (Z.log2 m) 8); lia).
  eapply Z.lt_le_trans; [exact Hlt|]. apply Z.pow_le_mono_r; [lia|].
  pose proof (Z.mod_pos_bound (Z.log2 m) 8). pose proof (Z.div_mod (Z.log2 m) 8). lia.
Qed.

Lemma le_decode_magnitude m : 0 <= m -> le_decode (le_encode (byte_length m) m) = m.
Proof. intros Hm. apply le_decode_encode_small. by pose proof (byte_length_bound m Hm). Qed.

(** The magnitude without the sign bit. *)
Definition magnitude (vch : list Z) : list Z :=
  match vch with [] => [] | b :: rest => rev (Z.land b 0x7f :: rest) end.

Lemma le_decode_snoc_0 l : le_decode (l ++ [0]) = le_decode l.
Proof. rewrite le_decode_app. cbn [le_decode]. lia. Qed.

(** The format: bytes, the magnitude and the sign. *)
Lemma bn2mpi_shape z : bytes_ok (bn2mpi z) /\ le_decode (magnitude (bn2mpi z)) = Z.abs z /\
  match bn2mpi z with [] => z = 0 | b :: _ => (Z.land b 0x80 =? 0) = (0 <=? z) end.
Proof.
  unfold bn2mpi. set (m := Z.abs z).
  assert (Hdec : le_decode (le_encode (byte_length m) m) = m) by (apply le_decode_magnitude; lia).
  pose proof (le_encode_ok (byte_length m) m) as Hok. set (l := le_encode _ _) in *. clearbody l.
  destruct (rev l) as [|b rest] eqn:Hrev.
  { assert (l = []) as -> by (by rewrite <- (rev_involutive l), Hrev).
    cbn in Hdec. split; [constructor|]. split; [done|]. lia. }
  assert (Hl : l = rev rest ++ [b]) by (rewrite <- (rev_involutive l), Hrev; done).
  rewrite Hl in Hok, Hdec. apply Forall_app in Hok as [Hrest Hb].
  apply Forall_inv in Hb as Hb. apply Forall_rev in Hrest. rewrite rev_involutive in Hrest.
  assert (Hhead : forall c tl, byte_ok c -> bytes_ok tl ->
    le_decode (rev tl ++ [c mod 128]) = m -> (c <? 128) = (0 <=? z) ->
    bytes_ok (c :: tl) /\ le_decode (magnitude (c :: tl)) = m /\ (Z.land c 0x80 =? 0) = (0 <=? z)).
  { intros c tl Hc Htl Hm Hs. split; [by constructor|]. split; [|by rewrite byte_high_bit].
    cbn [magnitude rev]. by rewrite byte_low_bits. }
  pose proof Hb as [Hb0 Hb1]. destruct (Z.leb_spec 128 b) as [H128|H128].
  - apply Hhead; [unfold byte_ok; destruct (z <? 0); lia|by constructor| |].
    + assert ((if z <? 0 then 0x80 else 0) mod 128 = 0) as -> by (by destruct (z <? 0)).
      by rewrite le_decode_snoc_0.
    + destruct (Z.ltb_spec z 0), (Z.leb_spec 0 z); try lia; done.
  - assert (b mod 128 = b) by (apply Z.mod_small; lia).
    destruct (Z.ltb_spec z 0) as [Hz|Hz]; apply Hhead; try done; try (unfold byte_ok; lia); try congruence.
    replace (b + 128) with (b + 1 * 128) by lia. rewrite Z.mod_add by lia. congruence.
Qed.

Lemma mpi2bn_magnitude vch :
  mpi2bn vch = match vch with
               | [] => 0
               | b :: _ => if Z.land b 0x80 =? 0 then le_decode (magnitude vch) else - le_decode (magnitude vch)
               end.
Proof. by destruct vch. Qed.

Lemma mpi_roundtrip z : mpi2bn (bn2mpi z) = z.
Proof.
  pose proof (bn2mpi_shape z) as (_ & Hm & Hs). rewrite mpi2bn_magnitude.
  destruct (bn2mpi z) as [|b rest]; [done|]. rewrite Hs, Hm. destruct (Z.leb_spec 0 z); lia.
Qed.

(** [getuint64] and [getuint256] reduce the magnitude. *)
Lemma le_decode_take n l : bytes_ok l -> le_decode (take n l) = le_decode l mod 256 ^ Z.of_nat n.
Proof.
  intros Hl. rewrite <- (take_drop n l) at 2. rewrite le_decode_app.
  destruct (le_lt_dec n (length l)) as [Hn|Hn].
  - pose proof (le_decode_bound (take n l) (Forall_take _ _ _ Hl)) as Hb.
    unfold zlen in *. rewrite length_take_le in * by done.
    rewrite (Z.mul_comm (256 ^ _)), Z.mod_add by lia. by rewrite Z.mod_small.
  - rewrite drop_ge, take_ge by lia. cbn [le_decode]. rewrite Z.mul_0_r, Z.add_0_r, Z.mod_small; [done|].
    pose proof (le_decode_bound l Hl) as Hb. unfold zlen in Hb. split; [lia|].
    eapply Z.lt_le_trans; [apply Hb|]. apply Z.pow_le_mono_r; lia.
Qed.

Lemma getuint_spec size z : getuint size z = Z.abs z mod 256 ^ Z.of_nat size.
Proof.
  pose proof (bn2mpi_shape z) as (Hok & Hm & Hs). unfold getuint.
  destruct (bn2mpi z) as [|b rest]; [by rewrite <- Hm|]. rewrite <- Hm, <- le_decode_take; [done|].
  apply Forall_rev. inversion Hok as [|? ? Hb Hrest]; subst. constructor; [|done].
  rewrite byte_low_bits by done. pose proof (Z.mod_pos_bound b 128). unfold byte_ok. lia.
Qed.

Lemma getuint64_spec z : getuint64 z = to_u64 (Z.abs z).
Proof. unfold getuint64. by rewrite getuint_spec. Qed.

Lemma getuint256_small z : 0 <= z < 2 ^ 256 -> getuint256 z = z.
Proof. intros. unfold getuint256. rewrite getuint_spec, Z.abs_eq by lia. by apply Z.mod_small. Qed.

Lemma getuint256_range z : 0 <= getuint256 z < 2 ^ 256.
Proof. unfold getuint256. rewrite getuint_spec. by apply Z.mod_pos_bound. Qed.

(** ** The compact form keeps the three leading bytes *)

Lemma lor_fields a b k : 0 <= k -> 0 <= b < 2 ^ k -> Z.lor (2 ^ k * a) b = 2 ^ k * a + b.
Proof.
  intros Hk Hb. rewrite Z.lor_comm, (Z.mul_comm _ a), <- Z.shiftl_mul_pow2 by done.
  rewrite lor_shiftl_add by done. rewrite Z.shiftl_mul_pow2 by done. ring.
Qed.

(** The fields of a compact number. *)
Lemma GetCompact_fields z n b0 b1 b2 :
  n = zlen (bn2mpi z) -> n < 256 ->
  b0 = byte_at (bn2mpi z) 0 -> b1 = (if 2 <=? n then byte_at (bn2mpi z) 1 else 0) ->
  b2 = (if 3 <=? n then byte_at (bn2mpi z) 2 else 0) -> z <> 0 ->
  GetCompact z = 2 ^ 24 * n + 2 ^ 16 * b0 + 2 ^ 8 * b1 + b2.
Proof.
  intros Hn Hn256 H0 H1 H2 Hz. pose proof (bn2mpi_shape z) as (Hok & _ & Hs).
  assert (Hb : forall i, 0 <= byte_at (bn2mpi z) i < 256) by (intros i; by apply byte_at_ok).
  assert (Hn1 : 1 <= n). { destruct (bn2mpi z); [done|]. unfold zlen in Hn. cbn in Hn. lia. }
  pose proof (Hb 0); pose proof (Hb 1); pose proof (Hb 2). unfold GetCompact. rewrite <- Hn, <- H0.
  rewrite to_u32_id; [|rewrite Z.shiftl_mul_pow2 by lia; lia].
  rewrite !Z.shiftl_mul_pow2 by lia. destruct (Z.leb_spec 1 n); [|lia].
  replace (n * 2 ^ 24) with (2 ^ 24 * n) by lia. rewrite (lor_fields n) by lia.
  destruct (Z.leb_spec 2 n), (Z.leb_spec 3 n); try lia; rewrite <- ?H1, <- ?H2.
  - replace (2 ^ 24 * n + b0 * 2 ^ 16) with (2 ^ 16 * (2 ^ 8 * n + b0)) by lia.
    rewrite lor_fields by lia.
    replace (2 ^ 16 * (2 ^ 8 * n + b0) + b1 * 2 ^ 8) with (2 ^ 8 * (2 ^ 16 * n + 2 ^ 8 * b0 + b1)) by lia.
    rewrite lor_fields by lia. lia.
  - replace (2 ^ 24 * n + b0 * 2 ^ 16) with (2 ^ 16 * (2 ^ 8 * n + b0)) by lia.
    rewrite lor_fields by lia. lia.
Qed.

Lemma SetCompact_fields n b0 b1 b2 :
  0 <= n -> byte_ok b0 -> byte_ok b1 -> byte_ok b2 ->
  SetCompact (2 ^ 24 * n + 2 ^ 16 * b0 + 2 ^ 8 * b1 + b2) =
  mpi2bn (take (Z.to_nat n) ([b0; b1; b2] ++ repeat 0 (Z.to_nat n - 3))).
Proof.
  intros Hn [] [] []. unfold SetCompact. rewrite !land_ff, !Z.shiftr_div_pow2 by lia.
  assert (H24 : (2 ^ 24 * n + 2 ^ 16 * b0 + 2 ^ 8 * b1 + b2) / 2 ^ 24 = n).
  { symmetry. apply (Z.div_unique _ _ _ (2 ^ 16 * b0 + 2 ^ 8 * b1 + b2)); lia. }
  assert (H16 : (2 ^ 24 * n + 2 ^ 16 * b0 + 2 ^ 8 * b1 + b2) / 2 ^ 16 = 256 * n + b0).
  { symmetry. apply (Z.div_unique _ _ _ (2 ^ 8 * b1 + b2)); lia. }
  assert (H8 : (2 ^ 24 * n + 2 ^ 16 * b0 + 2 ^ 8 * b1 + b2) / 2 ^ 8 = 256 * (256 * n + b0) + b1).
  { symmetry. apply (Z.div_unique _ _ _ b2); lia. }
  rewrite H24, H16, H8.
  replace (2 ^ 24 * n + 2 ^ 16 * b0 + 2 ^ 8 * b1 + b2) with (256 * (256 * (256 * n + b0) + b1) + b2) by lia.
  assert (Hm : forall a b, 0 <= b < 256 -> (256 * a + b) mod 256 = b).
  { intros a b Hb. rewrite Z.add_comm, Z.mul_comm, Z.mod_add by lia. by apply Z.mod_small. }
  by rewrite !Hm by lia.
Qed.

Lemma le_decode_zeros k l : le_decode (repeat 0 k ++ l) = 256 ^ Z.of_nat k * le_decode l.
Proof.
  induction k as [|k IH]; [cbn [repeat app]; change (256 ^ Z.of_nat 0) with 1; lia|].
  cbn [repeat app le_decode]. rewrite IH, pow256_S. lia.
Qed.

(** Decoding the compact form of a positive integer clears all but its three
    leading bytes. *)
Lemma SetCompact_GetCompact z : 0 < z -> zlen (bn2mpi z) < 256 ->
  SetCompact (GetCompact z) = z - z mod 256 ^ Z.of_nat (length (bn2mpi z) - 3).
Proof.
  intros Hz Hn. pose proof (bn2mpi_shape z) as (Hok & Hm & Hs).
  erewrite GetCompact_fields; [|done..|lia].
  assert (Hb : forall i, byte_ok (byte_at (bn2mpi z) i)) by (intros i; by apply byte_at_ok).
  assert (Hif : forall (c : bool) i, byte_ok (if c then byte_at (bn2mpi z) i else 0)).
  { intros [|] i; [apply Hb|unfold byte_ok; lia]. }
  rewrite SetCompact_fields; [|apply zlen_nonneg|apply Hb|apply Hif..].
  rewrite Z.abs_eq in Hm by lia. revert Hok Hm Hs. clear Hn Hb Hif. generalize (bn2mpi z). intros vch Hok Hm Hs.
  unfold zlen. rewrite Nat2Z.id. destruct vch as [|b0 l]; [lia|].
  rewrite mpi2bn_magnitude. destruct (Z.leb_spec 0 z); [|lia].
  destruct l as [|b1 [|b2 l]].
  - change (byte_at [b0] 0) with b0. cbn -[magnitude Z.land Z.modulo]. rewrite Hs. cbn [magnitude] in *.
    rewrite Hm. change (256 ^ Z.of_nat 0) with 1. rewrite Z.mod_1_r. lia.
  - change (byte_at [b0; b1] 0) with b0. change (byte_at [b0; b1] 1) with b1.
    cbn -[magnitude Z.land Z.modulo]. rewrite Hs. cbn [magnitude] in *.
    change (2 <=? Z.of_nat 2) with true. cbv iota. rewrite Hm. change (256 ^ Z.of_nat 0) with 1. rewrite Z.mod_1_r. lia.
  - set (k := length l). replace (length (b0 :: b1 :: b2 :: l)) with (k + 3)%nat by (cbn; lia).
    rewrite (Nat.add_sub k 3). destruct (Z.leb_spec 2 (Z.of_nat (k + 3))); [|lia].
    destruct (Z.leb_spec 3 (Z.of_nat (k + 3))); [|lia].
    rewrite take_ge by (rewrite length_app, repeat_length; cbn; lia).
    change (byte_at (b0 :: b1 :: b2 :: l) 0) with b0. change (byte_at (b0 :: b1 :: b2 :: l) 1) with b1.
    change (byte_at (b0 :: b1 :: b2 :: l) 2) with b2. cbn [app]. rewrite Hs. cbn [magnitude rev].
    rewrite rev_repeat, <- !app_assoc, le_decode_zeros. cbn [app].
    cbn [magnitude rev] in Hm. rewrite <- !app_assoc in Hm. cbn [app] in Hm.
    rewrite <- Hm, le_decode_app. unfold zlen. rewrite length_rev. fold k.
    apply Forall_cons in Hok as [_ Hok]. apply Forall_cons in Hok as [_ Hok]. apply Forall_cons in Hok as [_ Hok].
    pose proof (le_decode_bound (rev l) ltac:(by apply Forall_rev)) as Hbd.
    unfold zlen in Hbd. rewrite length_rev in Hbd. fold k in Hbd.
    rewrite (Z.mul_comm (256 ^ Z.of_nat k)), Z.mod_add by lia. rewrite Z.mod_small by done. lia.
Qed.
