(* ===== verification/Chain.v ===== *)
(** * The block index: [CBlockIndex] of [chain.h], [chain.cpp], and
    [GetLastBlockIndex] and [IsConfirmedInNPrevBlocks] of [main.cpp]

    A pointer to a block of the index is modelled by the chain it starts: the
    list of the block and its ancestors along [pprev], the genesis block last.
    The empty list is the null pointer. *)

From stdpp Require Import sorting.
From S2P Require Import Prelude Bignum Transaction.

Local Open Scope Z_scope.

Record CBlockIndex := {
  bi_hash : Z;                  (* *phashBlock *)
  bi_nFile : Z;
  bi_nBlockPos : Z;
  bi_nChainTrust : Z;
  bi_nHeight : Z;
  bi_nMint : Z;
  bi_nMoneySupply : Z;
  bi_nFlags : Z;
  bi_nStakeModifier : Z;
  bi_bnStakeModifierV2 : Z;
  bi_prevoutStake : COutPoint;
  bi_nStakeTime : Z;
  bi_hashProof : Z;
  bi_nVersion : Z;
  bi_hashMerkleRoot : Z;
  bi_nTime : Z;
  bi_nBits : Z;
  bi_nNonce : Z;
}.

Definition BLOCK_PROOF_OF_STAKE : Z := Z.shiftl 1 0.
Definition BLOCK_STAKE_ENTROPY : Z := Z.shiftl 1 1.
Definition BLOCK_STAKE_MODIFIER : Z := Z.shiftl 1 2.

Definition chain := list CBlockIndex.

(** [CBlockIndex()] *)
Definition null_index : CBlockIndex := {|
  bi_hash := 0; bi_nFile := 0; bi_nBlockPos := 0; bi_nChainTrust := 0; bi_nHeight := 0; bi_nMint := 0;
  bi_nMoneySupply := 0; bi_nFlags := 0; bi_nStakeModifier := 0; bi_bnStakeModifierV2 := 0;
  bi_prevoutStake := null_outpoint; bi_nStakeTime := 0; bi_hashProof := 0; bi_nVersion := 0;
  bi_hashMerkleRoot := 0; bi_nTime := 0; bi_nBits := 0; bi_nNonce := 0 |}.

Definition GetBlockTime (b : CBlockIndex) : Z := bi_nTime b.
Definition GetPastTimeLimit (b : CBlockIndex) : Z := GetBlockTime b - 16200.

Definition index_IsProofOfStake (b : CBlockIndex) : bool := negb (Z.land (bi_nFlags b) BLOCK_PROOF_OF_STAKE =? 0).
Definition GeneratedStakeModifier (b : CBlockIndex) : bool := negb (Z.land (bi_nFlags b) BLOCK_STAKE_MODIFIER =? 0).
Definition GetStakeEntropyBit (b : CBlockIndex) : Z := Z.shiftr (Z.land (bi_nFlags b) BLOCK_STAKE_ENTROPY) 1.

(** [GetBlockTrust]: the expected number of hashes for the target. *)
Definition GetBlockTrust (nBits : Z) : Z :=
  let bnTarget := SetCompact nBits in
  if bnTarget <=? 0 then 0 else getuint256 (Z.quot (Z.shiftl 1 256) (bnTarget + 1)).

(** [GetMedianTimePast]: the median of the last 11 block times, the upper one
    of an even number. *)
Definition nMedianTimeSpan : nat := 11.
Definition GetMedianTimePast (c : chain) : Z :=
  let sorted := merge_sort Z.le (map GetBlockTime (take nMedianTimeSpan c)) in
  nth (length sorted / 2) sorted 0.

(** [GetLastBlockIndex]: the walk back to a block of the wanted kind, at the
    latest to the genesis block. *)
Fixpoint GetLastBlockIndex (pindex : chain) (fProofOfStake : bool) : chain :=
  match pindex with
  | b :: ((_ :: _) as pprev) =>
    if negb (eqb (index_IsProofOfStake b) fProofOfStake) then GetLastBlockIndex pprev fProofOfStake else pindex
  | _ => pindex
  end.
