(* ===== verification/TxConnect.v ===== *)
(** * Connecting transactions

    [CTransaction::FetchInputs], [ConnectInputs], [DisconnectInputs],
    [GetValueIn] and [GetCoinAge] of [primitives/transaction.cpp] with the
    index data of [main.h] and [VerifySignature] of
    [script/interpreter.cpp].  The transaction database is the map from
    hashes to [CTxIndex] that [txdb-leveldb.cpp] stores in LevelDB, reading a
    transaction back from the block files is a function of its position. *)

From S2P Require Import Prelude Opcode ScriptNum Script SigEncoding Interp LegacyInterp Serialize Transaction SigHash Bignum Chain.

Local Open Scope Z_scope.

(** ** Index data *)

Record CDiskTxPos := { nFile : Z; nBlockPos : Z; nTxPos : Z }.

#[export] Instance CDiskTxPos_eq_dec : EqDecision CDiskTxPos.
Proof. solve_decision. Defined.

Definition null_pos : CDiskTxPos := {| nFile := UINT_MAX; nBlockPos := 0; nTxPos := 0 |}.
Definition pos_IsNull (p : CDiskTxPos) : bool := nFile p =? UINT_MAX.

(** The position that stands for the memory pool. *)
Definition mempool_pos : CDiskTxPos := {| nFile := 1; nBlockPos := 1; nTxPos := 1 |}.

Record CTxIndex := { pos : CDiskTxPos; vSpent : list CDiskTxPos }.

Definition null_txindex : CTxIndex := {| pos := null_pos; vSpent := [] |}.

(** [CTxIndex(posIn, nOutputs)] *)
Definition new_txindex (posIn : CDiskTxPos) (nOutputs : nat) : CTxIndex :=
  {| pos := posIn; vSpent := replicate nOutputs null_pos |}.

(** [vSpent.resize(n)] *)
Definition resize_spent (n : nat) (txindex : CTxIndex) : CTxIndex :=
  {| pos := pos txindex; vSpent := take n (vSpent txindex) ++ replicate (n - length (vSpent txindex)) null_pos |}.

(** [vSpent[n] = p] for an index in range. *)
Definition set_spent (n : Z) (p : CDiskTxPos) (txindex : CTxIndex) : CTxIndex :=
  {| pos := pos txindex; vSpent := <[Z.to_nat n := p]> (vSpent txindex) |}.

Abbreviation tx_db := (gmap Z CTxIndex) (only parsing).
Abbreviation MapPrevTx := (gmap Z (CTxIndex * CTransaction)) (only parsing).

(** [IsConfirmedInNPrevBlocks]: the depth it finds. *)
Fixpoint confirmed_loop (from_height nMaxDepth : Z) (p : CDiskTxPos) (pindex : chain) : option Z :=
  match pindex with
  | [] => None
  | b :: pprev =>
    if from_height - bi_nHeight b <? nMaxDepth then
      if (bi_nBlockPos b =? nBlockPos p) && (bi_nFile b =? nFile p) then Some (from_height - bi_nHeight b)
      else confirmed_loop from_height nMaxDepth p pprev
    else None
  end.

Definition IsConfirmedInNPrevBlocks (txindex : CTxIndex) (pindexFrom : chain) (nMaxDepth : Z) : option Z :=
  match pindexFrom with
  | [] => None
  | b :: _ => confirmed_loop (bi_nHeight b) nMaxDepth (pos txindex) pindexFrom
  end.

Section connect.
Context {SH : ScriptHashes} {EC : ECDSA}.

(** ** VerifySignature *)

(** The older interpreter on behalf of input [nIn]; the signature cache is
    left out, it never changes the verdict. *)
Definition tx_backend (txTo : CTransaction) (nIn nHashType flags : Z) : SigBackend := {|
  CheckLowS := pubkey_CheckLowS;
  checker_CheckSig := fun vchSig vchPubKey scriptCode =>
    fst (CheckSig (fun _ => 0) 0 [] vchSig vchPubKey scriptCode txTo nIn nHashType flags);
|}.

Definition VerifySignature (txFrom txTo : CTransaction) (nIn flags nHashType : Z) : outcome unit bool :=
  match vin txTo !! Z.to_nat nIn with
  | None => Crash
  | Some txin =>
    match vout txFrom !! Z.to_nat (prevout_n (prevout txin)) with
    | None => mret false
    | Some txout =>
      if negb (prevout_hash (prevout txin) =? tx_GetHash txFrom) then mret false
      else
        match legacy_VerifyScript (SB := tx_backend txTo nIn nHashType flags) (scriptSig txin) (scriptPubKey txout) flags with
        | Ok _ => mret true
        | Err _ => mret false
        | Throw => Throw
        | Crash => Crash
        end
    end
  end.

(** ** FetchInputs *)

(** How [FetchInputs] returns false: [fInvalid] and the score. *)
Record fetch_error := { fInvalid : bool; fe_DoS : Z }.

Section fetch.
Variable ReadTxFromDisk : CDiskTxPos -> option CTransaction.
Variables (txdb mapTestPool : tx_db) (mempool : gmap Z CTransaction) (fBlock fMiner : bool).

Definition not_found {A} : outcome fetch_error A := Err {| fInvalid := false; fe_DoS := 0 |}.

(** What the first loop puts into [inputsRet] for a hash. *)
Definition fetch_one (h : Z) : outcome fetch_error (CTxIndex * CTransaction) :=
  let '(fFound, txindex) :=
    match (if fBlock || fMiner then mapTestPool !! h else None) with
    | Some txindex => (true, txindex)
    | None => match txdb !! h with Some txindex => (true, txindex) | None => (false, null_txindex) end
    end in
  if negb fFound && (fBlock || fMiner) then not_found
  else if negb fFound || bool_decide (pos txindex = mempool_pos) then
    match mempool !! h with
    | None => not_found
    | Some txPrev =>
      mret (if negb fFound then resize_spent (length (vout txPrev)) txindex else txindex, txPrev)
    end
  else
    match ReadTxFromDisk (pos txindex) with
    | None => not_found
    | Some txPrev => mret (txindex, txPrev)
    end.

Fixpoint fetch_loop (ins : list CTxIn) (inputsRet : MapPrevTx) : outcome fetch_error MapPrevTx :=
  match ins with
  | [] => mret inputsRet
  | txin :: ins =>
    let h := prevout_hash (prevout txin) in
    match inputsRet !! h with
    | Some _ => fetch_loop ins inputsRet
    | None => p ← fetch_one h; fetch_loop ins (<[h := p]> inputsRet)
    end
  end.

(** [prevout.n >= txPrev.vout.size() || prevout.n >= txindex.vSpent.size()] *)
Definition out_of_range (n : Z) (txindex : CTxIndex) (txPrev : CTransaction) : bool :=
  (zlen (vout txPrev) <=? n) || (zlen (vSpent txindex) <=? n).

Fixpoint fetch_check (ins : list CTxIn) (inputsRet : MapPrevTx) : outcome fetch_error unit :=
  match ins with
  | [] => mret tt
  | txin :: ins =>
    match inputsRet !! prevout_hash (prevout txin) with
    | None => Crash
    | Some (txindex, txPrev) =>
      _ ← fail_if (out_of_range (prevout_n (prevout txin)) txindex txPrev) {| fInvalid := true; fe_DoS := 100 |};
      fetch_check ins inputsRet
    end
  end.

Definition FetchInputs (tx : CTransaction) (inputsRet : MapPrevTx) : outcome fetch_error MapPrevTx :=
  if IsCoinBase tx then mret inputsRet
  else
    inputsRet ← fetch_loop (vin tx) inputsRet;
    _ ← fetch_check (vin tx) inputsRet;
    mret inputsRet.
End fetch.

(** ** Values *)

(** [GetOutputFor] and [GetValueIn]; the sum is an [int64_t]. *)
Definition GetOutputFor (input : CTxIn) (inputs : MapPrevTx) : outcome unit CTxOut :=
  match inputs !! prevout_hash (prevout input) with
  | None => Throw
  | Some (_, txPrev) => or_throw (vout txPrev !! Z.to_nat (prevout_n (prevout input)))
  end.

Fixpoint value_in_loop (nResult : Z) (ins : list CTxIn) (inputs : MapPrevTx) : outcome unit Z :=
  match ins with
  | [] => mret nResult
  | txin :: ins => o ← GetOutputFor txin inputs; value_in_loop (to_i64 (nResult + nValue o)) ins inputs
  end.

Definition GetValueIn (tx : CTransaction) (inputs : MapPrevTx) : outcome unit Z :=
  if IsCoinBase tx then mret 0 else value_in_loop 0 (vin tx) inputs.

(** ** ConnectInputs *)

Section connect_inputs.
(** The transaction, [posThisTx], the chain from [pindexBlock] back, the
    calling context and [IsInitialBlockDownload()]. *)
Variables (tx : CTransaction) (posThisTx : CDiskTxPos) (pindexBlock : chain).
Variables (nCoinbaseMaturity : Z) (fBlock fMiner fValidateSig fInitialDownload : bool) (flags : Z).

(** The first loop: [nValueIn]. *)
Fixpoint connect_values (nValueIn : Z) (ins : list CTxIn) (inputs : MapPrevTx) : outcome Z Z :=
  match ins with
  | [] => mret nValueIn
  | txin :: ins =>
    match inputs !! prevout_hash (prevout txin) with
    | None => Crash
    | Some (txindex, txPrev) =>
      let n := prevout_n (prevout txin) in
      _ ← fail_if (out_of_range n txindex txPrev) 100;
      _ ← fail_if ((IsCoinBase txPrev || IsCoinStake txPrev) &&
                   match IsConfirmedInNPrevBlocks txindex pindexBlock nCoinbaseMaturity with
                   | Some nSpendDepth => true | None => false
                   end) 0;
      _ ← fail_if (nTime tx <? nTime txPrev) 100;
      let value := nValue (nth (Z.to_nat n) (vout txPrev) null_txout) in
      let nValueIn := to_i64 (nValueIn + value) in
      _ ← fail_if (negb (MoneyRange value) || negb (MoneyRange nValueIn)) 100;
      connect_values nValueIn ins inputs
    end
  end.

(** The signature of input [i], with the second try that spares a peer
    the score when only a standardness rule failed. *)
Definition connect_signature (txPrev : CTransaction) (i : Z) : outcome Z unit :=
  match VerifySignature txPrev tx i flags 0 with
  | Ok true => mret tt
  | Ok false =>
    if has_flag flags STANDARD_NOT_MANDATORY_VERIFY_FLAGS then
      match VerifySignature txPrev tx i (Z.land flags (Z.lnot STANDARD_NOT_MANDATORY_VERIFY_FLAGS)) 0 with
      | Ok true => Err 0
      | Ok false => Err 100
      | Err _ | Throw => Throw
      | Crash => Crash
      end
    else Err 100
  | Err _ | Throw => Throw
  | Crash => Crash
  end.

(** The second loop: [inputs] and [mapTestPool]; [i] is the index of the
    first input of [ins]. *)
Fixpoint connect_spend (i : Z) (ins : list CTxIn) (inputs : MapPrevTx) (mapTestPool : tx_db)
    : outcome Z (MapPrevTx * tx_db) :=
  match ins with
  | [] => mret (inputs, mapTestPool)
  | txin :: ins =>
    let h := prevout_hash (prevout txin) in
    let n := prevout_n (prevout txin) in
    match inputs !! h with
    | None => Crash
    | Some (txindex, txPrev) =>
      _ ← fail_if (negb (pos_IsNull (nth (Z.to_nat n) (vSpent txindex) null_pos))) 0;
      _ ← (if fValidateSig then
             if negb (fBlock && negb fInitialDownload) then connect_signature txPrev i else mret tt
           else mret tt);
      let txindex := set_spent n posThisTx txindex in
      connect_spend (i + 1) ins (<[h := (txindex, txPrev)]> inputs)
        (if fBlock || fMiner then <[h := txindex]> mapTestPool else mapTestPool)
    end
  end.

(** The exceptions of [GetValueOut] leave the function. *)
Definition value_out_or_throw : outcome Z Z :=
  match GetValueOut tx with Ok v => mret v | Crash => Crash | _ => Throw end.

(** [ConnectInputs]: [mapTestPool] afterwards. *)
Definition ConnectInputs (inputs : MapPrevTx) (mapTestPool : tx_db) : outcome Z tx_db :=
  if IsCoinBase tx then mret mapTestPool
  else
    nValueIn ← connect_values 0 (vin tx) inputs;
    st ← connect_spend 0 (vin tx) inputs mapTestPool;
    _ ← (if negb (IsCoinStake tx) then
           nValueOut ← value_out_or_throw;
           _ ← fail_if (nValueIn <? nValueOut) 100;
           let nTxFee := nValueIn - nValueOut in
           _ ← fail_if (nTxFee <? 0) 100;
           fail_if (negb (MoneyRange nTxFee)) 100
         else mret tt);
    mret (snd st).
End connect_inputs.

(** ** DisconnectInputs *)

(** The loop over the inputs; [Err tt] is [return false]. *)
Fixpoint disconnect_loop (ins : list CTxIn) (txdb : tx_db) : outcome unit tx_db :=
  match ins with
  | [] => mret txdb
  | txin :: ins =>
    match txdb !! prevout_hash (prevout txin) with
    | None => Err tt
    | Some txindex =>
      if zlen (vSpent txindex) <=? prevout_n (prevout txin) then Err tt
      else
        disconnect_loop ins
          (<[prevout_hash (prevout txin) := set_spent (prevout_n (prevout txin)) null_pos txindex]> txdb)
    end
  end.

Definition DisconnectInputs (tx : CTransaction) (txdb : tx_db) : outcome unit tx_db :=
  txdb ← (if negb (IsCoinBase tx) then disconnect_loop (vin tx) txdb else mret txdb);
  mret (delete (tx_GetHash tx) txdb).

(** ** GetCoinAge *)

Section coin_age.
Variable ReadTxFromDisk : CDiskTxPos -> option CTransaction.
Variables (txdb : tx_db) (pindexBlock : chain).

(** [ReadFromDisk(txdb, prevout, txindex)] *)
Definition ReadTxFromDisk_prevout (o : COutPoint) : option (CTransaction * CTxIndex) :=
  txindex ← txdb !! prevout_hash o;
  txPrev ← ReadTxFromDisk (pos txindex);
  if zlen (vout txPrev) <=? prevout_n o then None else Some (txPrev, txindex).

Definition nStakeMinConfirmations : Z := 180.

(** [bnCentSecond]: a product of an [int64_t] and an [unsigned int], then
    big numbers; [None] is [return false]. *)
Fixpoint coin_age_loop (nTime_ : Z) (bnCentSecond : Z) (ins : list CTxIn) : option Z :=
  match ins with
  | [] => Some bnCentSecond
  | txin :: ins =>
    match ReadTxFromDisk_prevout (prevout txin) with
    | None => coin_age_loop nTime_ bnCentSecond ins
    | Some (txPrev, txindex) =>
      if nTime_ <? nTime txPrev then None
      else
        match IsConfirmedInNPrevBlocks txindex pindexBlock (nStakeMinConfirmations - 1) with
        | Some _ => coin_age_loop nTime_ bnCentSecond ins
        | None =>
          let nValueIn := nValue (nth (Z.to_nat (prevout_n (prevout txin))) (vout txPrev) null_txout) in
          coin_age_loop nTime_ (bnCentSecond + Z.quot (to_i64 (nValueIn * (nTime_ - nTime txPrev))) CENT) ins
        end
    end
  end.

Definition GetCoinAge (tx : CTransaction) : option Z :=
  if IsCoinBase tx then Some 0
  else
    bnCentSecond ← coin_age_loop (nTime tx) 0 (vin tx);
    let bnCoinDay := Z.quot (Z.quot (bnCentSecond * CENT) COIN) (24 * 60 * 60) in
    Some (getuint64 bnCoinDay).
End coin_age.
End connect.
