(* ===== verification/TxConnectProps.v ===== *)
(** * Properties of connecting transactions

    No output is spent twice, value is conserved, and disconnecting undoes
    connecting. *)

From S2P Require Import Prelude.
From S2P Require Import Opcode.
From S2P Require Import ScriptNum.
From S2P Require Import Script.
From S2P Require Import SigEncoding.
From S2P Require Import Interp.
From S2P Require Import LegacyInterp.
From S2P Require Import Serialize.
From S2P Require Import Transaction.
From S2P Require Import TransactionProps.
From S2P Require Import SigHash.
From S2P Require Import Bignum.
From S2P Require Import Chain.
From S2P Require Import TxConnect.

Local Open Scope Z_scope.

(** ** Marking outputs *)

(** The index entry of transaction [h] after the inputs [ins] stored [p]. *)
Fixpoint mark (p : CDiskTxPos) (h : Z) (ins : list CTxIn) (ti : CTxIndex) : CTxIndex :=
  match ins with
  | [] => ti
  | txin :: ins =>
    mark p h ins (if decide (prevout_hash (prevout txin) = h) then set_spent (prevout_n (prevout txin)) p ti else ti)
  end.

(** The outputs of [h] that [ins] spend. *)
Definition spends (h : Z) (n : nat) (ins : list CTxIn) : Prop :=
  exists txin, txin ∈ ins /\ prevout_hash (prevout txin) = h /\ Z.to_nat (prevout_n (prevout txin)) = n.

Definition spent_hash (h : Z) (ins : list CTxIn) : Prop := h ∈ map (fun i => prevout_hash (prevout i)) ins.

#[export] Instance spends_dec h n ins : Decision (spends h n ins).
Proof.
  refine (cast_if (decide (Exists (fun txin => prevout_hash (prevout txin) = h /\ Z.to_nat (prevout_n (prevout txin)) = n) ins)));
    unfold spends; rewrite <-Exists_exists; done.
Defined.

Lemma length_set_spent n p ti : length (vSpent (set_spent n p ti)) = length (vSpent ti).
Proof. apply length_insert. Qed.

Lemma length_mark p h ins ti : length (vSpent (mark p h ins ti)) = length (vSpent ti).
Proof.
  revert ti. induction ins as [|i ins IH]; intros ti; [done|]. cbn. rewrite IH.
  case_decide; [by rewrite length_set_spent|done].
Qed.

Lemma pos_mark p h ins ti : pos (mark p h ins ti) = pos ti.
Proof. revert ti. induction ins as [|i ins IH]; intros ti; [done|]. cbn. rewrite IH. by case_decide. Qed.

Lemma spends_cons h n i ins :
  spends h n (i :: ins) <->
  (prevout_hash (prevout i) = h /\ Z.to_nat (prevout_n (prevout i)) = n) \/ spends h n ins.
Proof.
  unfold spends. split.
  - intros (j & [->|Hj]%elem_of_cons & ? & ?); [by left|right; eauto].
  - intros [[? ?]|(j & ? & ? & ?)]; [exists i|exists j]; rewrite elem_of_cons; auto.
Qed.

Lemma mark_lookup p h ins ti n :
  (n < length (vSpent ti))%nat ->
  vSpent (mark p h ins ti) !! n = if decide (spends h n ins) then Some p else vSpent ti !! n.
Proof.
  revert ti. induction ins as [|i ins IH]; intros ti Hn; cbn [mark].
  { rewrite decide_False; [done|]. by intros (? & ?%elem_of_nil & _). }
  rewrite IH by (destruct (decide (prevout_hash (prevout i) = h)); [by rewrite length_set_spent|done]).
  destruct (decide (spends h n ins)) as [Hs|Hs].
  { by rewrite decide_True by (apply spends_cons; auto). }
  destruct (decide (prevout_hash (prevout i) = h)) as [Hh|Hh].
  - cbn [vSpent set_spent]. destruct (decide (Z.to_nat (prevout_n (prevout i)) = n)) as [Hi|Hi].
    + rewrite Hi, list_lookup_insert_eq by done. by rewrite decide_True by (apply spends_cons; auto).
    + rewrite list_lookup_insert_ne by done. rewrite decide_False; [done|]. rewrite spends_cons. naive_solver.
  - rewrite decide_False; [done|]. rewrite spends_cons. naive_solver.
Qed.

(** Clearing what was marked restores an entry whose slots were free. *)
Lemma mark_null_mark p h ins ti :
  (forall n, spends h n ins -> vSpent ti !! n = Some null_pos) -> mark null_pos h ins (mark p h ins ti) = ti.
Proof.
  intros Hfree. destruct ti as [q spent]. set (ti := {| pos := q; vSpent := spent |}) in *.
  assert (vSpent (mark null_pos h ins (mark p h ins ti)) = spent) as E.
  { apply list_eq. intros n. destruct (decide (n < length spent)%nat) as [Hn|Hn].
    - rewrite mark_lookup by (by rewrite length_mark). destruct (decide (spends h n ins)) as [Hs|Hs].
      + symmetry. by apply Hfree.
      + rewrite mark_lookup by done. by rewrite decide_False.
    - rewrite !lookup_ge_None_2; [done|lia|rewrite !length_mark; cbn; lia]. }
  destruct (mark null_pos h ins (mark p h ins ti)) as [q' s'] eqn:Em. cbn in E. subst s'.
  f_equal. apply (f_equal pos) in Em. by rewrite !pos_mark in Em.
Qed.

(** ** The loops of ConnectInputs *)

Lemma spent_hash_cons h i ins : spent_hash h (i :: ins) <-> prevout_hash (prevout i) = h \/ spent_hash h ins.
Proof. unfold spent_hash. cbn. rewrite elem_of_cons. naive_solver. Qed.

#[export] Instance spent_hash_dec h ins : Decision (spent_hash h ins).
Proof. unfold spent_hash. apply _. Defined.

Lemma mark_not_spent p h ins ti : ~ spent_hash h ins -> mark p h ins ti = ti.
Proof.
  revert ti. induction ins as [|j ins IH]; intros ti Hs; [done|]. rewrite spent_hash_cons in Hs. cbn.
  rewrite decide_False by tauto. apply IH. tauto.
Qed.

(** Indexes are in range and free. *)
Definition free_inputs (ins : list CTxIn) (inputs : gmap Z (CTxIndex * CTransaction)) : Prop :=
  forall h n, spends h n ins -> exists ti tp, inputs !! h = Some (ti, tp) /\ exists q, vSpent ti !! n = Some q /\ pos_IsNull q = true.

Section connect.
Context {SH : ScriptHashes} {EC : ECDSA}.
Variables (tx : CTransaction) (posThisTx : CDiskTxPos) (pindexBlock : chain).
Variables (nCoinbaseMaturity : Z) (fBlock fMiner fValidateSig fInitialDownload : bool) (flags : Z).
Hypothesis Hpos : pos_IsNull posThisTx = false.

Abbreviation connect_values := (connect_values tx pindexBlock nCoinbaseMaturity).
Abbreviation connect_spend := (connect_spend tx posThisTx fBlock fMiner fValidateSig fInitialDownload flags).

(** Every output the inputs name exists. *)
Definition in_range (ins : list CTxIn) (inputs : gmap Z (CTxIndex * CTransaction)) : Prop :=
  forall h n, spends h n ins -> exists ti tp, inputs !! h = Some (ti, tp) /\
    (n < length (vSpent ti))%nat /\ (n < length (vout tp))%nat.

(** The value the inputs name. *)
Definition input_value (inputs : gmap Z (CTxIndex * CTransaction)) (i : CTxIn) : Z :=
  match inputs !! prevout_hash (prevout i) with
  | Some (_, tp) => nValue (nth (Z.to_nat (prevout_n (prevout i))) (vout tp) null_txout)
  | None => 0
  end.

Lemma connect_values_Ok n ins inputs v :
  0 <= n <= MAX_MONEY -> Forall (fun i => 0 <= prevout_n (prevout i)) ins ->
  connect_values n ins inputs = Ok v ->
  in_range ins inputs /\ v = n + sum_Z (map (input_value inputs) ins) /\ 0 <= v <= MAX_MONEY /\
  Forall (fun i => 0 <= input_value inputs i <= MAX_MONEY) ins.
Proof.
  intros Hn Hins. revert n Hn. induction Hins as [|i ins Hi _ IH]; intros n Hn H; cbn in H.
  { injection H as <-. split_and!; try (cbn; lia); [|constructor]. by intros ?? (? & ?%elem_of_nil & _). }
  destruct (inputs !! prevout_hash (prevout i)) as [[ti tp]|] eqn:E; [|done]. mon_inv.
  repeat match goal with H : _ || _ = false |- _ => apply orb_false_iff in H as [? ?] end.
  unfold out_of_range in *. repeat match goal with H : _ || _ = false |- _ => apply orb_false_iff in H as [? ?] end.
  repeat match goal with H : negb _ = false |- _ => apply negb_false_iff in H end.
  match goal with H : MoneyRange (nValue _) = true |- _ => apply MoneyRange_true in H; rename H into Hv end.
  match goal with H : MoneyRange (to_i64 _) = true |- _ => apply MoneyRange_true in H; rename H into Hs end.
  rewrite to_i64_money in * by done.
  match goal with H : connect_values _ _ _ = Ok _ |- _ => apply IH in H as (Hr & Hval & Hrange & Hall); [|done] end.
  assert (input_value inputs i = nValue (nth (Z.to_nat (prevout_n (prevout i))) (vout tp) null_txout)) as Ei
    by (unfold input_value; by rewrite E).
  split_and!; try done.
  - intros h m [[<- <-]|Hsp]%spends_cons; [|by apply Hr]. exists ti, tp. unfold zlen in *. split_and!; done || lia.
  - cbn. rewrite Ei. lia.
  - lia.
  - lia.
  - constructor; [by rewrite Ei|done].
Qed.

Lemma connect_spend_Ok i ins inputs pool inputs' pool' :
  in_range ins inputs -> connect_spend i ins inputs pool = Ok (inputs', pool') ->
  free_inputs ins inputs /\ NoDup (map (fun i => (prevout_hash (prevout i), Z.to_nat (prevout_n (prevout i)))) ins) /\
  (forall h, inputs' !! h = (fun p => (mark posThisTx h ins p.1, p.2)) <$> inputs !! h) /\
  (forall h, pool' !! h = if (fBlock || fMiner) && bool_decide (spent_hash h ins)
                          then fst <$> inputs' !! h else pool !! h).
Proof.
  revert i inputs pool. induction ins as [|txin ins IH]; intros i inputs pool Hr H; cbn in H.
  { injection H as <- <-. split_and!; [by intros ?? (? & ?%elem_of_nil & _)|constructor| |].
    - intros h. by destruct (inputs !! h) as [[]|].
    - intros h. rewrite bool_decide_eq_false_2 by (unfold spent_hash; set_solver). by rewrite andb_false_r. }
  set (h0 := prevout_hash (prevout txin)) in *. set (n0 := prevout_n (prevout txin)) in *.
  destruct (inputs !! h0) as [[ti tp]|] eqn:E; [|done]. mon_inv.
  match goal with H : negb _ = false |- _ => apply negb_false_iff in H; rename H into Hnull end.
  match goal with H : connect_spend _ _ _ _ = _ |- _ => rename H into Hrec end.
  destruct (Hr h0 (Z.to_nat n0)) as (ti' & tp' & E' & Hlen & _); [by apply spends_cons; left|].
  rewrite E in E'. injection E' as <- <-.
  destruct (lookup_lt_is_Some_2 (vSpent ti) (Z.to_nat n0) Hlen) as [q Hq].
  assert (nth (Z.to_nat n0) (vSpent ti) null_pos = q) as Hnth by (by apply nth_lookup_Some).
  rewrite Hnth in Hnull.
  set (ti1 := set_spent n0 posThisTx ti) in *. set (inputs1 := <[h0 := (ti1, tp)]> inputs) in *.
  apply IH in Hrec as (Hfree & Hnd & Hin & Hpool); cycle 1.
  { intros h n Hsp. destruct (Hr h n) as (t & p & Hh & Ht); [by apply spends_cons; right|].
    unfold inputs1. destruct (decide (h0 = h)) as [<-|Hne].
    - rewrite lookup_insert_eq. rewrite E in Hh. injection Hh as <- <-. exists ti1, tp. unfold ti1. by rewrite length_set_spent.
    - rewrite lookup_insert_ne by done. eauto. }
  assert (forall n, spends h0 n ins -> n <> Z.to_nat n0 /\ exists q, vSpent ti !! n = Some q /\ pos_IsNull q = true) as Hfree0.
  { intros n Hsp. destruct (Hfree _ _ Hsp) as (t & p & Hh & q' & Hq' & Hnull').
    unfold inputs1 in Hh. rewrite lookup_insert_eq in Hh. injection Hh as <- <-. unfold ti1 in Hq'. cbn [vSpent set_spent] in Hq'.
    destruct (decide (Z.to_nat n0 = n)) as [<-|Hne].
    - rewrite list_lookup_insert_eq in Hq' by done. congruence.
    - rewrite list_lookup_insert_ne in Hq' by done. split; [congruence|eauto]. }
  split_and!.
  - intros h n [[Eh En]|Hsp]%spends_cons.
    + fold h0 in Eh. fold n0 in En. subst h n. exists ti, tp. eauto.
    + destruct (decide (h0 = h)) as [<-|Hne]; [exists ti, tp; split; [done|]; by apply Hfree0|].
      destruct (Hfree _ _ Hsp) as (t & p & Hh & ?). unfold inputs1 in Hh. rewrite lookup_insert_ne in Hh by done. eauto.
  - cbn. constructor; [|done]. intros (j & Ej & Hj)%list_elem_of_In%in_map_iff. injection Ej as Ejh Ejn.
    destruct (Hfree0 (Z.to_nat n0)) as [? _]; [|done]. exists j. split_and!; [by apply list_elem_of_In|done|done].
  - intros h. rewrite Hin. unfold inputs1. cbn [mark]. fold h0 n0. destruct (decide (h0 = h)) as [<-|Hne].
    + rewrite lookup_insert_eq, E. done.
    + by rewrite lookup_insert_ne by done.
  - intros h. rewrite Hpool. destruct (fBlock || fMiner); [|done]. cbn [andb].
    destruct (decide (spent_hash h ins)) as [Hs|Hs].
    { rewrite bool_decide_eq_true_2 by done. by rewrite bool_decide_eq_true_2 by (apply spent_hash_cons; auto). }
    rewrite bool_decide_eq_false_2 by done. destruct (decide (h0 = h)) as [<-|Hne].
    + rewrite bool_decide_eq_true_2 by (apply spent_hash_cons; auto).
      rewrite lookup_insert_eq, Hin. unfold inputs1. rewrite lookup_insert_eq. cbn. f_equal.
      symmetry. by apply mark_not_spent.
    + rewrite bool_decide_eq_false_2 by (rewrite spent_hash_cons; tauto). by rewrite lookup_insert_ne by done.
Qed.

(** What [ConnectInputs] computed when it accepts. *)
Lemma ConnectInputs_Ok inputs pool pool' :
  IsCoinBase tx = false -> Forall (fun i => 0 <= prevout_n (prevout i)) (vin tx) ->
  ConnectInputs tx posThisTx pindexBlock nCoinbaseMaturity fBlock fMiner fValidateSig fInitialDownload flags inputs pool
    = Ok pool' ->
  exists nValueIn inputs',
    connect_values 0 (vin tx) inputs = Ok nValueIn /\
    connect_spend 0 (vin tx) inputs pool = Ok (inputs', pool') /\
    (IsCoinStake tx = false -> exists nValueOut, GetValueOut tx = Ok nValueOut /\ nValueOut <= nValueIn /\
      MoneyRange (nValueIn - nValueOut) = true).
Proof.
  unfold ConnectInputs. intros -> Hins H. apply bind_Ok in H as (v & Hv & H).
  apply bind_Ok in H as ([inputs' p] & Hs & H). apply bind_Ok in H as (u & Hc & H). injection H as <-.
  exists v, inputs'. split_and!; [done|done|]. intros Hcs. rewrite Hcs in Hc. cbn [negb] in Hc.
  apply bind_Ok in Hc as (o & Ho & Hc). mon_inv. unfold value_out_or_throw in Ho.
  destruct (GetValueOut tx) as [o'| | |]; try done. injection Ho as <-.
  exists o'. split_and!; [done|lia|]. by apply negb_false_iff.
Qed.
End connect.

(** ** Fetching *)

Section fetch.
Variable ReadTxFromDisk : CDiskTxPos -> option CTransaction.
Variables (txdb : tx_db) (mempool : gmap Z CTransaction).

Lemma fetch_loop_Ok fBlock fMiner pool ins inputsRet r :
  fetch_loop ReadTxFromDisk txdb pool mempool fBlock fMiner ins inputsRet = Ok r ->
  (forall h p, inputsRet !! h = Some p -> fetch_one ReadTxFromDisk txdb pool mempool fBlock fMiner h = Ok p) ->
  forall h p, r !! h = Some p -> fetch_one ReadTxFromDisk txdb pool mempool fBlock fMiner h = Ok p.
Proof.
  revert inputsRet. induction ins as [|txin ins IH]; intros inputsRet H Hinv; cbn [fetch_loop] in H; [by injection H as <-|].
  destruct (inputsRet !! prevout_hash (prevout txin)) eqn:E; [by apply (IH inputsRet)|].
  apply bind_Ok in H as (q & Hq & H). apply (IH _ H). intros h p.
  rewrite lookup_insert_Some. intros [[<- <-]|[_ ?]]; [done|by apply Hinv].
Qed.

(** For a block the pending entries come before the database. *)
Lemma fetch_one_block pool h p :
  fetch_one ReadTxFromDisk txdb pool mempool true false h = Ok p -> (pool ∪ txdb) !! h = Some p.1.
Proof.
  unfold fetch_one. cbn [orb]. rewrite lookup_union.
  destruct (pool !! h) as [ti|], (txdb !! h) as [ti'|]; cbn; intros H; repeat case_match; simplify_eq; by injection H as <-.
Qed.

Lemma FetchInputs_block {SH : ScriptHashes} pool tx r :
  IsCoinBase tx = false -> FetchInputs ReadTxFromDisk txdb pool mempool true false tx ∅ = Ok r ->
  forall h ti tp, r !! h = Some (ti, tp) -> (pool ∪ txdb) !! h = Some ti.
Proof.
  unfold FetchInputs. intros -> H h ti tp Hr. apply bind_Ok in H as (r' & Hl & H). mon_inv. subst r'.
  apply (fetch_one_block _ _ (ti, tp)). eapply fetch_loop_Ok; [exact Hl| |exact Hr].
  intros h' p E. by rewrite lookup_empty in E.
Qed.
End fetch.

(** ** Disconnecting *)

Lemma disconnect_loop_Ok ins txdb :
  Forall (fun i => 0 <= prevout_n (prevout i)) ins ->
  (forall h n, spends h n ins -> exists ti, txdb !! h = Some ti /\ (n < length (vSpent ti))%nat) ->
  exists txdb', disconnect_loop ins txdb = Ok txdb' /\
    forall h, txdb' !! h = mark null_pos h ins <$> txdb !! h.
Proof.
  intros Hins. revert txdb. induction Hins as [|i ins Hi _ IH]; intros txdb Hr; cbn [disconnect_loop].
  { exists txdb. split; [done|]. intros h. by destruct (txdb !! h). }
  destruct (Hr (prevout_hash (prevout i)) (Z.to_nat (prevout_n (prevout i)))) as (ti & E & Hlen);
    [apply spends_cons; by left|]. rewrite E.
  assert ((zlen (vSpent ti) <=? prevout_n (prevout i)) = false) as -> by (unfold zlen; lia).
  destruct (IH (<[prevout_hash (prevout i) := set_spent (prevout_n (prevout i)) null_pos ti]> txdb)) as (db & Hd & Hl).
  { intros h n Hsp. destruct (Hr h n) as (t & Et & Ht); [apply spends_cons; by right|].
    destruct (decide (prevout_hash (prevout i) = h)) as [Eh|Hne].
    - rewrite Eh, lookup_insert_eq. rewrite Eh in E. rewrite E in Et. injection Et as <-.
      eexists. split; [done|]. by rewrite length_set_spent.
    - rewrite lookup_insert_ne by done. eauto. }
  exists db. split; [done|]. intros h. rewrite Hl. cbn [mark].
  destruct (decide (prevout_hash (prevout i) = h)) as [Eh|Hne].
  - rewrite Eh, lookup_insert_eq. rewrite Eh in E. by rewrite E.
  - by rewrite lookup_insert_ne by done.
Qed.

(** ** Properties *)

Lemma NoDup_of_map {A B} (f : A -> B) l : NoDup (map f l) -> NoDup l.
Proof. apply NoDup_fmap_1. Qed.

(** C22: when [ConnectInputs] accepts a transaction for a block, no two inputs
    name the same output, every output they name was free, and the pending
    index then has exactly these outputs spent by the transaction and is
    otherwise unchanged. *)
Theorem ConnectInputs_no_double_spend `{SH : ScriptHashes, EC : ECDSA} tx posThisTx pindexBlock nCoinbaseMaturity
    fMiner fValidateSig fInitialDownload flags inputs pool pool'
    (Hcb : IsCoinBase tx = false) (Hpos : pos_IsNull posThisTx = false)
    (Hins : Forall (fun i => 0 <= prevout_n (prevout i)) (vin tx))
    (Hrun : ConnectInputs tx posThisTx pindexBlock nCoinbaseMaturity true fMiner fValidateSig fInitialDownload flags
              inputs pool = Ok pool') :
  NoDup (map prevout (vin tx)) /\ free_inputs (vin tx) inputs /\
  (forall h, spent_hash h (vin tx) -> exists ti tp ti',
     inputs !! h = Some (ti, tp) /\ pool' !! h = Some ti' /\ pos ti' = pos ti /\
     forall n, (n < length (vSpent ti))%nat ->
       vSpent ti' !! n = if decide (spends h n (vin tx)) then Some posThisTx else vSpent ti !! n) /\
  (forall h, ~ spent_hash h (vin tx) -> pool' !! h = pool !! h).
Proof.
  apply ConnectInputs_Ok in Hrun as (v & inputs' & Hv & Hs & _); [|done..].
  apply connect_values_Ok in Hv as (Hr & _); [|done..].
  apply connect_spend_Ok in Hs as (Hfree & Hnd & Hin & Hpool); [|done..]. split_and!; [|done| |].
  - apply (NoDup_of_map (fun o => (prevout_hash o, Z.to_nat (prevout_n o)))). by rewrite map_map.
  - intros h Hh. pose proof Hh as Hh'. unfold spent_hash in Hh'.
    apply list_elem_of_In, in_map_iff in Hh' as (i & Ei & Hi).
    destruct (Hr h (Z.to_nat (prevout_n (prevout i)))) as (ti & tp & E & _).
    { exists i. split_and!; [by apply list_elem_of_In|done|done]. }
    exists ti, tp, (mark posThisTx h (vin tx) ti). split_and!; [done| |apply pos_mark|intros n Hn; by apply mark_lookup].
    rewrite Hpool, bool_decide_eq_true_2 by done. cbn. by rewrite Hin, E.
  - intros h Hh. rewrite Hpool, bool_decide_eq_false_2 by done. done.
Qed.

(** C24: when [ConnectInputs] accepts a transaction that is neither coinbase nor
    coinstake, its outputs sum up to no more than its inputs, and every input,
    the sums and the fee are in the money range. *)
Theorem ConnectInputs_conserves_value `{SH : ScriptHashes, EC : ECDSA} tx posThisTx pindexBlock nCoinbaseMaturity
    fBlock fMiner fValidateSig fInitialDownload flags inputs pool pool'
    (Hcb : IsCoinBase tx = false) (Hcs : IsCoinStake tx = false)
    (Hins : Forall (fun i => 0 <= prevout_n (prevout i)) (vin tx))
    (Hrun : ConnectInputs tx posThisTx pindexBlock nCoinbaseMaturity fBlock fMiner fValidateSig fInitialDownload flags
              inputs pool = Ok pool') :
  0 <= total_out (vout tx) <= sum_Z (map (input_value inputs) (vin tx)) /\
  sum_Z (map (input_value inputs) (vin tx)) <= MAX_MONEY /\
  Forall (fun i => 0 <= input_value inputs i <= MAX_MONEY) (vin tx).
Proof.
  apply ConnectInputs_Ok in Hrun as (v & inputs' & Hv & _ & Ho); [|done..].
  apply connect_values_Ok in Hv as (_ & -> & Hrange & Hall); [|done..].
  destruct (Ho Hcs) as (o & Hout & Hle & _). unfold GetValueOut in Hout.
  apply GetValueOut_loop_spec in Hout as (Hpos & _ & ->); [|done].
  pose proof (total_out_nonneg _ Hpos). split_and!; done || lia.
Qed.

(** Free slots have the form [SetNull] gives them. *)
Definition slots_canonical (ti : CTxIndex) : Prop :=
  Forall (fun q => pos_IsNull q = true -> q = null_pos) (vSpent ti).

Section overlay.
Context {SH : ScriptHashes} {EC : ECDSA}.
Variables (tx : CTransaction) (posThisTx : CDiskTxPos) (pindexBlock : chain).
Variables (nCoinbaseMaturity : Z) (fMiner fValidateSig fInitialDownload : bool) (flags : Z).
Variables (inputs : gmap Z (CTxIndex * CTransaction)) (pool txdb pool' : gmap Z CTxIndex).
Hypothesis Hcb : IsCoinBase tx = false.
Hypothesis Hpos : pos_IsNull posThisTx = false.
Hypothesis Hins : Forall (fun i => 0 <= prevout_n (prevout i)) (vin tx).
Hypothesis Hdb : forall h ti tp, inputs !! h = Some (ti, tp) -> (pool ∪ txdb) !! h = Some ti.
Hypothesis Hrun : ConnectInputs tx posThisTx pindexBlock nCoinbaseMaturity true fMiner fValidateSig fInitialDownload flags
                    inputs pool = Ok pool'.

(** Seen through the pending entries, connecting marks the outputs spent and
    changes nothing else. *)
Lemma connect_overlay h : (pool' ∪ txdb) !! h = mark posThisTx h (vin tx) <$> (pool ∪ txdb) !! h.
Proof.
  apply ConnectInputs_Ok in Hrun as (v & inputs' & Hv & Hs & _); [|done..].
  apply connect_values_Ok in Hv as (Hr & _); [|done..].
  apply connect_spend_Ok in Hs as (_ & _ & Hin & Hpool); [|done..].
  destruct (decide (spent_hash h (vin tx))) as [Hs|Hs].
  - pose proof Hs as Hs'. unfold spent_hash in Hs'. apply list_elem_of_In, in_map_iff in Hs' as (i & Ei & Hi).
    destruct (Hr h (Z.to_nat (prevout_n (prevout i)))) as (ti & tp & E & _).
    { exists i. split_and!; [by apply list_elem_of_In|done|done]. }
    rewrite (Hdb _ _ _ E). apply lookup_union_Some_l.
    by rewrite Hpool, bool_decide_eq_true_2, Hin, E by done.
  - assert (pool' !! h = pool !! h) as Hp by (by rewrite Hpool, bool_decide_eq_false_2 by done).
    assert ((pool' ∪ txdb) !! h = (pool ∪ txdb) !! h) as -> by (rewrite !lookup_union; by rewrite Hp).
    destruct ((pool ∪ txdb) !! h) as [ti|]; [|done]. cbn. f_equal. by rewrite mark_not_spent.
Qed.

Lemma connect_free h n : spends h n (vin tx) ->
  exists ti tp q, inputs !! h = Some (ti, tp) /\ (n < length (vSpent ti))%nat /\ vSpent ti !! n = Some q /\ pos_IsNull q = true.
Proof.
  intros Hsp. apply ConnectInputs_Ok in Hrun as (v & inputs' & Hv & Hs & _); [|done..].
  apply connect_values_Ok in Hv as (Hr & _); [|done..]. apply connect_spend_Ok in Hs as (Hfree & _); [|done..].
  destruct (Hr _ _ Hsp) as (ti & tp & E & Hlen & _). destruct (Hfree _ _ Hsp) as (ti' & tp' & E' & q & Hq & Hnull).
  rewrite E in E'. injection E' as <- <-. by exists ti, tp, q.
Qed.

Lemma disconnect_connected :
  (forall h ti tp, inputs !! h = Some (ti, tp) -> slots_canonical ti) -> (pool ∪ txdb) !! tx_GetHash tx = None ->
  DisconnectInputs tx (<[tx_GetHash tx := new_txindex posThisTx (length (vout tx))]> (pool' ∪ txdb)) = Ok (pool ∪ txdb).
Proof.
  intros Hcan Hnew. set (hash := tx_GetHash tx) in *. set (db := <[hash := _]> _).
  assert (forall h, h <> hash -> db !! h = mark posThisTx h (vin tx) <$> (pool ∪ txdb) !! h) as Hlook.
  { intros h Hne. unfold db. rewrite lookup_insert_ne by done. apply connect_overlay. }
  destruct (disconnect_loop_Ok (vin tx) db Hins) as (db' & Hd & Hl).
  { intros h n Hsp. destruct (connect_free _ _ Hsp) as (ti & tp & q & E & Hlen & _).
    exists (mark posThisTx h (vin tx) ti). rewrite length_mark. split; [|done].
    rewrite Hlook, (Hdb _ _ _ E); [done|]. intros ->. by rewrite (Hdb _ _ _ E) in Hnew. }
  unfold DisconnectInputs. rewrite Hcb. cbn [negb]. rewrite Hd. cbn. f_equal.
  apply map_eq. intros h. fold hash. destruct (decide (h = hash)) as [->|Hne]; [by rewrite lookup_delete_eq|].
  rewrite lookup_delete_ne, Hl, Hlook by done. destruct ((pool ∪ txdb) !! h) as [ti|] eqn:Eh; [|done]. cbn. f_equal.
  apply mark_null_mark. intros n Hsp. destruct (connect_free _ _ Hsp) as (ti' & tp & q & E & _ & Hq & Hnull).
  pose proof (Hdb _ _ _ E) as E'. rewrite Eh in E'. injection E' as <-. rewrite Hq. f_equal.
  specialize (Hcan _ _ _ E). unfold slots_canonical in Hcan. rewrite Forall_forall in Hcan.
  apply Hcan; [by apply list_elem_of_lookup_2 in Hq|done].
Qed.
End overlay.

(** [DisconnectInputs] undoes [ConnectInputs]: after the pending entries
    and the new transaction's own were written to the database, disconnecting
    gives the database from before. *)
Theorem DisconnectInputs_undoes `{SH : ScriptHashes, EC : ECDSA} tx posThisTx pindexBlock nCoinbaseMaturity
    fMiner fValidateSig fInitialDownload flags inputs txdb pool'
    (Hcb : IsCoinBase tx = false) (Hpos : pos_IsNull posThisTx = false)
    (Hins : Forall (fun i => 0 <= prevout_n (prevout i)) (vin tx))
    (Hdb : forall h ti tp, inputs !! h = Some (ti, tp) -> txdb !! h = Some ti /\ slots_canonical ti)
    (Hnew : txdb !! tx_GetHash tx = None)
    (Hrun : ConnectInputs tx posThisTx pindexBlock nCoinbaseMaturity true fMiner fValidateSig fInitialDownload flags
              inputs ∅ = Ok pool') :
  DisconnectInputs tx (<[tx_GetHash tx := new_txindex posThisTx (length (vout tx))]> (pool' ∪ txdb)) = Ok txdb.
Proof.
  rewrite <-(left_id_L ∅ (∪) txdb) at 2. eapply disconnect_connected; try done.
  - intros h ti tp E. rewrite (left_id_L ∅ (∪)). by destruct (Hdb _ _ _ E).
  - intros h ti tp E. by destruct (Hdb _ _ _ E).
  - by rewrite (left_id_L ∅ (∪)).
Qed.

(** Outside the initial download, connecting a block does not look at a
    single signature: the result is the one without signature validation. *)
Theorem ConnectInputs_skips_signatures `{SH : ScriptHashes, EC : ECDSA} tx posThisTx pindexBlock nCoinbaseMaturity
    fMiner flags inputs pool :
  ConnectInputs tx posThisTx pindexBlock nCoinbaseMaturity true fMiner true false flags inputs pool =
  ConnectInputs tx posThisTx pindexBlock nCoinbaseMaturity true fMiner false false flags inputs pool.
Proof.
  unfold ConnectInputs. destruct (IsCoinBase tx); [done|].
  destruct (connect_values _ _ _ _ _ _) as [v| | |]; [|done..]. cbn [mbind outcome_bind].
  assert (forall i ins inputs pool,
    connect_spend tx posThisTx true fMiner true false flags i ins inputs pool =
    connect_spend tx posThisTx true fMiner false false flags i ins inputs pool) as ->; [|done].
  clear. intros i ins. revert i. induction ins as [|j ins IH]; intros i inputs pool; [done|]. cbn.
  destruct (inputs !! _) as [[ti tp]|]; [|done]. destruct (negb _); [done|]. cbn. apply IH.
Qed.

(** ** Coin age *)

Section coin_age.
Variable ReadTxFromDisk : CDiskTxPos -> option CTransaction.
Variables (txdb : gmap Z CTxIndex) (pindexBlock : chain).

(** The coin seconds an input contributes, in cents. *)
Definition coin_cent_seconds (t : Z) (i : CTxIn) : Z :=
  match ReadTxFromDisk_prevout ReadTxFromDisk txdb (prevout i) with
  | None => 0
  | Some (txPrev, txindex) =>
    match IsConfirmedInNPrevBlocks txindex pindexBlock (nStakeMinConfirmations - 1) with
    | Some _ => 0
    | None => nValue (nth (Z.to_nat (prevout_n (prevout i))) (vout txPrev) null_txout) * (t - nTime txPrev) / CENT
    end
  end.

(** The input is not younger than [t], and its product fits an [int64_t]. *)
Definition coin_age_fits (t : Z) (i : CTxIn) : Prop :=
  forall txPrev txindex, ReadTxFromDisk_prevout ReadTxFromDisk txdb (prevout i) = Some (txPrev, txindex) ->
    let v := nValue (nth (Z.to_nat (prevout_n (prevout i))) (vout txPrev) null_txout) in
    nTime txPrev <= t /\ 0 <= v /\ v * (t - nTime txPrev) <= INT64_MAX.

Lemma coin_age_loop_exact t n ins :
  Forall (coin_age_fits t) ins ->
  coin_age_loop ReadTxFromDisk txdb pindexBlock t n ins = Some (n + sum_Z (map (coin_cent_seconds t) ins)) /\
  0 <= sum_Z (map (coin_cent_seconds t) ins).
Proof.
  intros Hfit. revert n. induction Hfit as [|i ins Hi _ IH]; intros n; cbn; [split; [f_equal; lia|lia]|].
  unfold coin_cent_seconds at 1 3. destruct (ReadTxFromDisk_prevout _ _ _) as [[tp ti]|] eqn:E.
  - destruct (Hi _ _ E) as (Ht & Hv & Hmax). assert ((t <? nTime tp) = false) as -> by lia.
    destruct (IsConfirmedInNPrevBlocks _ _ _).
    + destruct (IH n) as [-> ?]. split; [f_equal; lia|lia].
    + set (v := nValue _) in *. assert (0 <= v * (t - nTime tp)) by nia.
      rewrite to_i64_id by (unfold INT64_MIN; lia). rewrite Z.quot_div_nonneg by (done || unfold CENT; lia).
      assert (0 <= v * (t - nTime tp) / CENT) by (apply Z.div_pos; [done|unfold CENT; lia]).
      destruct (IH (n + v * (t - nTime tp) / CENT)) as [-> ?]. split; [f_equal; lia|lia].
  - destruct (IH n) as [-> ?]. split; [f_equal; lia|lia].
Qed.
End coin_age.

(** As long as every product of value and age fits an [int64_t], the coin
    age is the exact number of coin days: the sum over the inputs old enough,
    in cent seconds rounded down, scaled to coins and days. *)
Theorem GetCoinAge_exact ReadTxFromDisk txdb pindexBlock tx
    (Hcb : IsCoinBase tx = false)
    (Hfits : Forall (coin_age_fits ReadTxFromDisk txdb (nTime tx)) (vin tx))
    (Hsum : sum_Z (map (coin_cent_seconds ReadTxFromDisk txdb pindexBlock (nTime tx)) (vin tx)) < 2 ^ 64) :
  GetCoinAge ReadTxFromDisk txdb pindexBlock tx =
  Some (sum_Z (map (coin_cent_seconds ReadTxFromDisk txdb pindexBlock (nTime tx)) (vin tx)) * CENT / COIN / (24 * 60 * 60)).
Proof.
  unfold GetCoinAge. rewrite Hcb. destruct (coin_age_loop_exact ReadTxFromDisk txdb pindexBlock _ 0 _ Hfits) as [-> Hpos].
  cbn [mbind option_bind]. set (s := sum_Z _) in *. rewrite Z.add_0_l.
  assert (0 <= s * CENT / COIN) by (apply Z.div_pos; unfold CENT, COIN; lia).
  rewrite (Z.quot_div_nonneg (s * CENT) COIN) by (unfold CENT, COIN; lia). rewrite Z.quot_div_nonneg by lia.
  rewrite getuint64_spec, Z.abs_eq by (apply Z.div_pos; lia). rewrite to_u64_id; [done|].
  split; [apply Z.div_pos; lia|]. unfold CENT, COIN in *.
  apply Z.div_lt_upper_bound; [lia|]. apply Z.div_lt_upper_bound; lia.
Qed.

(** ** Examples *)

#[local] Instance toy_hashes : ScriptHashes := {
  h_ripemd160 := id; h_sha1 := id; h_sha256 := id; h_hash160 := id; h_hash256 := take 8;
}.
#[local] Instance toy_ecdsa : ECDSA := {
  pubkey_Verify := fun _ _ _ => true;
  pubkey_CheckLowS := fun _ => true;
}.

(** A transaction 5 with two outputs and one that spends both. *)
Definition toy_prev : CTransaction := {|
  nVersion := 1; nTime := 900; vin := [sample_in 3]; vout := [sample_out 10; sample_out 20]; nLockTime := 0
|}.
Definition toy_spend : CTransaction := {|
  nVersion := 1; nTime := 1000;
  vin := [sample_in 5; {| prevout := {| prevout_hash := 5; prevout_n := 1 |}; scriptSig := []; nSequence := 0 |}];
  vout := [sample_out 29]; nLockTime := 0
|}.
Definition toy_place : CDiskTxPos := {| nFile := 1; nBlockPos := 80; nTxPos := 90 |}.
Definition toy_index : CTxIndex := new_txindex {| nFile := 1; nBlockPos := 8; nTxPos := 9 |} 2.
Definition toy_inputs : gmap Z (CTxIndex * CTransaction) := {[ 5 := (toy_index, toy_prev) ]}.
Definition toy_pool : gmap Z CTxIndex := {[ 5 := {| pos := pos toy_index; vSpent := [toy_place; toy_place] |} ]}.

Lemma ConnectInputs_no_double_spend_witness :
  ConnectInputs toy_spend toy_place [] 99 true false true true 1 toy_inputs ∅ = Err 100 /\
  ConnectInputs toy_spend toy_place [] 99 true false false true 1 toy_inputs ∅ = Ok toy_pool /\
  NoDup (map prevout (vin toy_spend)) /\ free_inputs (vin toy_spend) toy_inputs.
Proof.
  split; [by vm_compute|]. split; [by vm_compute|].
  edestruct (ConnectInputs_no_double_spend toy_spend toy_place [] 99 false false true 1 toy_inputs ∅ toy_pool)
    as (H1 & H2 & _); [done|done|decide_now|by vm_compute|]. exact (conj H1 H2).
Defined.

Lemma ConnectInputs_conserves_value_witness :
  0 <= total_out (vout toy_spend) <= sum_Z (map (input_value toy_inputs) (vin toy_spend)) /\
  sum_Z (map (input_value toy_inputs) (vin toy_spend)) <= MAX_MONEY /\
  Forall (fun i => 0 <= input_value toy_inputs i <= MAX_MONEY) (vin toy_spend).
Proof.
  apply (ConnectInputs_conserves_value toy_spend toy_place [] 99 true false false true 1 toy_inputs ∅ toy_pool);
    [done|done|decide_now|by vm_compute].
Defined.

Lemma DisconnectInputs_undoes_witness :
  DisconnectInputs toy_spend
    (<[tx_GetHash toy_spend := new_txindex toy_place 1]> (toy_pool ∪ {[ 5 := toy_index ]})) = Ok {[ 5 := toy_index ]}.
Proof.
  apply (DisconnectInputs_undoes toy_spend toy_place [] 99 false false true 1 toy_inputs {[ 5 := toy_index ]} toy_pool);
    [done|done|decide_now| |by vm_compute|by vm_compute].
  intros h ti tp H. unfold toy_inputs in H. apply lookup_singleton_Some in H as [<- [= <- <-]].
  split; [by apply lookup_singleton_Some|]. repeat constructor; done.
Defined.

(** 200,000 coins that rested for thirty days. *)
Definition rich_prev : CTransaction := {|
  nVersion := 1; nTime := 0; vin := [sample_in 3]; vout := [sample_out (200000 * COIN)]; nLockTime := 0
|}.
Definition rich_stake : CTransaction := {|
  nVersion := 1; nTime := 30 * 24 * 60 * 60; vin := [sample_in 5]; vout := [sample_out 1]; nLockTime := 0
|}.
Definition toy_db : gmap Z CTxIndex := {[ 5 := toy_index ]}.

Lemma GetCoinAge_exact_witness :
  GetCoinAge (fun _ => Some toy_prev) toy_db [] toy_spend =
  Some (sum_Z (map (coin_cent_seconds (fun _ => Some toy_prev) toy_db [] 1000) (vin toy_spend)) * CENT / COIN / (24 * 60 * 60)).
Proof.
  apply (GetCoinAge_exact (fun _ => Some toy_prev) toy_db [] toy_spend); [done| |by vm_compute].
  repeat constructor; vm_compute in H; injection H as <- <-; by vm_compute.
Defined.

(** For large or old outputs the product overflows: 200,000 coins that
    rested for thirty days, six million coin days, count as 405,119. *)
Theorem GetCoinAge_overflow :
  GetCoinAge (fun _ => Some rich_prev) toy_db [] rich_stake = Some 405119 /\
  coin_cent_seconds (fun _ => Some rich_prev) toy_db [] (nTime rich_stake) (sample_in 5) * CENT / COIN / (24 * 60 * 60)
    = 6000000.
Proof. split; by vm_compute. Qed.
