(* ===== verification/Proofs.v ===== *)
(** * Targets and rewards: [proofs.cpp] with the parameters of
    [chainparams.cpp], and [checkpoints.cpp] *)

From S2P Require Import Prelude Transaction Bignum Chain.

Local Open Scope Z_scope.

(** The parameters of [CChainParams] these functions read. *)
Record CChainParams := {
  ProofOfWorkLimit : Z;
  ProofOfStakeLimit : Z;
  TargetSpacing : Z;
  TargetTimespan : Z;
  LastPOWBlock : Z;
}.

(** [LASTPOWBLOCK] of [globals.h] *)
Definition LASTPOWBLOCK : Z := 220.

(** [CMainParams] *)
Definition MainParams : CChainParams := {|
  ProofOfWorkLimit := Z.shiftr (2 ^ 256 - 1) 16;
  ProofOfStakeLimit := Z.shiftr (2 ^ 256 - 1) 20;
  TargetSpacing := 60;
  TargetTimespan := 10 * 60;
  LastPOWBlock := LASTPOWBLOCK;
|}.

Definition nStakeMinAge : Z := 1 * 60 * 60.
Definition nModifierInterval : Z := 2 * 60.

(** [GetCoinbaseValue] *)
Definition GetCoinbaseValue (nHeight nFees : Z) : Z :=
  let nSubsidy :=
    if (1 <=? nHeight) && (nHeight <=? 5) then 10000 * COIN
    else if (6 <=? nHeight) && (nHeight <=? 10) then 100000 * COIN
    else if (11 <=? nHeight) && (nHeight <=? LASTPOWBLOCK) then 2500 * COIN
    else 0 * COIN in
  to_i64 (nSubsidy + nFees).

(** [GetCoinstakeValue] *)
Definition GetCoinstakeValue (nCoinAge nFees nHeight : Z) : Z :=
  let nSubsidy := 10 * COIN in to_i64 (nSubsidy + nFees).

Section params.
Variable Params : CChainParams.

Definition target_limit (fProofOfStake : bool) : Z :=
  if fProofOfStake then ProofOfStakeLimit Params else ProofOfWorkLimit Params.

(** The retarget computation from the last two blocks of the kind. *)
Definition retarget (bnTargetLimit : Z) (pindexPrev pindexPrevPrev : CBlockIndex) : Z :=
  let nActualSpacing := GetBlockTime pindexPrev - GetBlockTime pindexPrevPrev in
  let nActualSpacing := if nActualSpacing <? 0 then TargetSpacing Params else nActualSpacing in
  let nInterval := Z.quot (TargetTimespan Params) (TargetSpacing Params) in
  let bnNew := SetCompact (bi_nBits pindexPrev) in
  let bnNew := bnNew * to_i64 ((nInterval - 1) * TargetSpacing Params + nActualSpacing + nActualSpacing) in
  let bnNew := Z.quot bnNew ((nInterval + 1) * TargetSpacing Params) in
  if (bnNew <=? 0) || (bnTargetLimit <? bnNew) then bnTargetLimit else bnNew.

(** [GetNextTargetRequired] *)
Definition GetNextTargetRequired (pindexLast : chain) (fProofOfStake : bool) : Z :=
  let bnTargetLimit := target_limit fProofOfStake in
  match pindexLast with
  | [] => GetCompact bnTargetLimit
  | _ =>
    match GetLastBlockIndex pindexLast fProofOfStake with
    | [] | [_] => GetCompact bnTargetLimit
    | pindexPrev :: pprev =>
      match GetLastBlockIndex pprev fProofOfStake with
      | [] | [_] => GetCompact bnTargetLimit
      | pindexPrevPrev :: _ => GetCompact (retarget bnTargetLimit pindexPrev pindexPrevPrev)
      end
    end
  end.

(** [CheckProofOfWork] *)
Definition CheckProofOfWork (hash nBits : Z) : bool :=
  let bnTarget := SetCompact nBits in
  if (bnTarget <=? 0) || (ProofOfWorkLimit Params <? bnTarget) then false
  else if getuint256 bnTarget <? hash then false
  else true.
End params.

(** [Checkpoints::CheckHardened] and [GetTotalBlocksEstimate] with the map of
    checkpoints; [fEnabled] is false unless an option turns it on. *)
Definition CheckHardened (fEnabled : bool) (checkpoints : gmap Z Z) (nHeight hash : Z) : bool :=
  if negb fEnabled then true
  else match checkpoints !! nHeight with None => true | Some h => hash =? h end.

(** * Properties of targets: the retarget rule *)

(** ** How precise the compact form is *)

(** A positive integer is at least the power of two its length stands for. *)
Lemma bn2mpi_length z : 0 < z -> (3 <= length (bn2mpi z))%nat ->
  2 ^ 15 * 256 ^ Z.of_nat (length (bn2mpi z) - 3) <= z.
Proof.
  intros Hz. unfold bn2mpi. set (n := byte_length (Z.abs z)).
  assert (Hn : Z.of_nat n = Z.log2 z / 8 + 1).
  { subst n. unfold byte_length. rewrite Z.abs_eq by lia. destruct (Z.eqb_spec z 0); [lia|].
    rewrite Z2Nat.id; [done|]. pose proof (Z.div_pos (Z.log2 z) 8 (Z.log2_nonneg z)). lia. }
  assert (Hlow : 256 ^ Z.of_nat (n - 1) <= z).
  { change 256 with (2 ^ 8). rewrite <- Z.pow_mul_r by lia.
    etransitivity; [|apply Z.log2_spec; lia]. apply Z.pow_le_mono_r; [lia|].
    pose proof (Z.log2_nonneg z). pose proof (Z.div_mod (Z.log2 z) 8). pose proof (Z.mod_pos_bound (Z.log2 z) 8). lia. }
  pose proof (length_rev (le_encode n (Z.abs z))) as Hlen. rewrite length_le_encode in Hlen.
  pose proof (le_decode_magnitude (Z.abs z)) as Hdec. fold n in Hdec. specialize (Hdec ltac:(lia)).
  pose proof (le_encode_ok n (Z.abs z)) as Hok.
  destruct (rev (le_encode n (Z.abs z))) as [|b rest] eqn:Hrev; [cbn; lia|].
  assert (Hl : le_encode n (Z.abs z) = rev rest ++ [b]) by (rewrite <- (rev_involutive (le_encode _ _)), Hrev; done).
  rewrite Hl in Hdec, Hok. rewrite le_decode_app in Hdec. apply Forall_app in Hok as [Hrest _].
  pose proof (le_decode_bound _ Hrest) as Hb. unfold zlen in *. rewrite length_rev in *.
  cbn [length le_decode] in *. destruct (Z.leb_spec 128 b) as [H128|H128]; cbn [length]; intros H3.
  - replace (S (S (length rest)) - 3)%nat with (length rest - 1)%nat by lia.
    assert (Hp : 256 ^ Z.of_nat (length rest) = 256 * 256 ^ Z.of_nat (length rest - 1)).
    { rewrite <- pow256_S. f_equal. lia. }
    nia.
  - replace (S (length rest) - 3)%nat with (n - 3)%nat by lia.
    assert (Hp : 256 ^ Z.of_nat (n - 1) = 256 * (256 * 256 ^ Z.of_nat (n - 3))).
    { rewrite <- !pow256_S. f_equal. lia. }
    nia.
Qed.

Lemma length_bn2mpi z : (length (bn2mpi z) <= S (byte_length (Z.abs z)))%nat.
Proof.
  unfold bn2mpi. pose proof (length_rev (le_encode (byte_length (Z.abs z)) (Z.abs z))) as Hlen.
  rewrite length_le_encode in Hlen. destruct (rev _) as [|b rest]; [cbn; lia|].
  destruct (128 <=? b); cbn [length] in *; lia.
Qed.

Lemma bn2mpi_short z : 0 <= z < 2 ^ 256 -> zlen (bn2mpi z) < 256.
Proof.
  intros [Hz Hlt]. pose proof (length_bn2mpi z) as Hlen. rewrite Z.abs_eq in Hlen by lia.
  assert (byte_length z <= 32)%nat.
  { unfold byte_length. destruct (Z.eqb_spec z 0); [lia|].
    assert (Z.log2 z < 256) by (apply Z.log2_lt_pow2; lia). pose proof (Z.log2_nonneg z).
    pose proof (Z.div_mod (Z.log2 z) 8). pose proof (Z.mod_pos_bound (Z.log2 z) 8). lia. }
  unfold zlen. lia.
Qed.

(** Going through the compact form loses less than one part in 2^15. *)
Lemma compact_precision z : 0 < z < 2 ^ 256 ->
  let t := SetCompact (GetCompact z) in 0 < t /\ t <= z /\ (2 ^ 15 - 1) * z <= 2 ^ 15 * t.
Proof.
  intros [Hz Hlt]. cbv zeta. rewrite SetCompact_GetCompact by (try apply bn2mpi_short; lia).
  set (p := 256 ^ _). assert (Hp : 0 < p) by (apply Z.pow_pos_nonneg; lia).
  pose proof (Z.mod_pos_bound z p Hp) as Hm.
  destruct (le_lt_dec 3 (length (bn2mpi z))) as [H3|H3].
  - pose proof (bn2mpi_length z Hz H3) as Hlow. fold p in Hlow. lia.
  - assert (p = 1) as ->. { subst p. by replace (length (bn2mpi z) - 3)%nat with 0%nat by lia. }
    rewrite Z.mod_1_r. lia.
Qed.

Lemma target_limit_range fProofOfStake : 0 < target_limit MainParams fProofOfStake < 2 ^ 240.
Proof. by destruct fProofOfStake. Qed.

(** The spacing the rule uses: clocks running backwards count as on time. *)
Definition spacing_used (tPrev tPrevPrev : Z) : Z := if tPrev <? tPrevPrev then 60 else tPrev - tPrevPrev.

(** The exact target: [old] scaled by the spacing, at most the limit. *)
Definition exact_target (old spacing limit : Z) : Z := Z.min (old * (540 + 2 * spacing) / 660) limit.

Lemma retarget_exact limit b b' :
  0 <= bi_nTime b < 2 ^ 32 -> 0 <= bi_nTime b' < 2 ^ 32 -> 2 <= SetCompact (bi_nBits b) ->
  retarget MainParams limit b b' = exact_target (SetCompact (bi_nBits b)) (spacing_used (bi_nTime b) (bi_nTime b')) limit.
Proof.
  intros Hb Hb' Hold. unfold retarget, exact_target, spacing_used, GetBlockTime.
  set (old := SetCompact _) in *. clearbody old.
  set (sp := if bi_nTime b - bi_nTime b' <? 0 then _ else _).
  assert (Hsp : sp = if bi_nTime b <? bi_nTime b' then 60 else bi_nTime b - bi_nTime b').
  { subst sp. destruct (Z.ltb_spec (bi_nTime b - bi_nTime b') 0), (Z.ltb_spec (bi_nTime b) (bi_nTime b')); try lia; done. }
  rewrite <- Hsp. assert (Hr : 0 <= sp < 2 ^ 32) by (rewrite Hsp; destruct (bi_nTime b <? bi_nTime b') eqn:?; lia).
  clearbody sp. cbv [MainParams TargetTimespan TargetSpacing].
  change (Z.quot (10 * 60) 60) with 10. change ((10 + 1) * 60) with 660. change ((10 - 1) * 60) with 540.
  rewrite to_i64_id by (unfold INT64_MIN, INT64_MAX; lia).
  replace (540 + sp + sp) with (540 + 2 * sp) by lia.
  rewrite Z.quot_div_nonneg by nia.
  assert (1 <= old * (540 + 2 * sp) / 660) by (apply Z.div_le_lower_bound; nia).
  destruct (Z.leb_spec (old * (540 + 2 * sp) / 660) 0); [lia|]. cbn [orb].
  destruct (Z.ltb_spec limit (old * (540 + 2 * sp) / 660)); lia.
Qed.

(** C39: from the last two blocks of its kind the next target is the old one
    scaled by (540 + 2 spacing) / 660, capped at the limit, up to the
    precision of the compact form; it is positive, so blocks on schedule
    keep the target and no block lowers it by more than two elevenths. *)
Theorem GetNextTargetRequired_retarget pindexLast fProofOfStake b pprev b' rest
    (Hb : GetLastBlockIndex pindexLast fProofOfStake = b :: pprev) (Hpprev : pprev <> [])
    (Hb' : GetLastBlockIndex pprev fProofOfStake = b' :: rest) (Hrest : rest <> [])
    (Ht : 0 <= bi_nTime b < 2 ^ 32) (Ht' : 0 <= bi_nTime b' < 2 ^ 32)
    (Hold : 2 <= SetCompact (bi_nBits b)) :
  let exact := exact_target (SetCompact (bi_nBits b)) (spacing_used (bi_nTime b) (bi_nTime b'))
                 (target_limit MainParams fProofOfStake) in
  let target := SetCompact (GetNextTargetRequired MainParams pindexLast fProofOfStake) in
  0 < target /\ target <= exact /\ (2 ^ 15 - 1) * exact <= 2 ^ 15 * target.
Proof.
  cbv zeta. pose proof (target_limit_range fProofOfStake) as Hlim.
  rewrite <- retarget_exact by done. unfold GetNextTargetRequired.
  destruct pindexLast as [|x xs]; [done|]. rewrite Hb.
  destruct pprev as [|y ys]; [done|]. rewrite Hb'. destruct rest as [|z zs]; [done|].
  apply compact_precision. rewrite retarget_exact by done. unfold exact_target.
  set (sp := spacing_used _ _). assert (0 <= sp) by (subst sp; unfold spacing_used; destruct (Z.ltb_spec (bi_nTime b) (bi_nTime b')); lia).
  assert (1 <= SetCompact (bi_nBits b) * (540 + 2 * sp) / 660) by (apply Z.div_le_lower_bound; nia).
  split; [lia|]. eapply Z.le_lt_trans; [apply Z.le_min_r|].
  eapply Z.lt_trans; [apply Hlim|]. done.
Qed.

Definition toy_block (nTime nBits nHeight : Z) : CBlockIndex := {|
  bi_hash := nHeight; bi_nFile := 1; bi_nBlockPos := nHeight; bi_nChainTrust := 0; bi_nHeight := nHeight;
  bi_nMint := 0; bi_nMoneySupply := 0; bi_nFlags := 1; bi_nStakeModifier := 0; bi_bnStakeModifierV2 := 0;
  bi_prevoutStake := null_outpoint; bi_nStakeTime := 0; bi_hashProof := 0; bi_nVersion := 7;
  bi_hashMerkleRoot := 0; bi_nTime := nTime; bi_nBits := nBits; bi_nNonce := 0 |}.

Lemma GetNextTargetRequired_retarget_witness :
  let exact := exact_target (SetCompact 0x1d012345) (spacing_used 10090 10000) (target_limit MainParams true) in
  let target := SetCompact (GetNextTargetRequired MainParams
    [toy_block 10090 0x1d012345 3; toy_block 10000 0x1d012345 2; null_index] true) in
  0 < target /\ target <= exact /\ (2 ^ 15 - 1) * exact <= 2 ^ 15 * target.
Proof.
  apply (GetNextTargetRequired_retarget _ true (toy_block 10090 0x1d012345 3)
    [toy_block 10000 0x1d012345 2; null_index] (toy_block 10000 0x1d012345 2) [null_index]);
    try done; vm_compute; split; congruence.
Defined.

(** Blocks on schedule keep the exact target. *)
Lemma exact_target_on_schedule old limit : 0 <= old <= limit -> exact_target old 60 limit = old.
Proof.
  intros. unfold exact_target. change (540 + 2 * 60) with 660. rewrite Z.div_mul by lia. lia.
Qed.
