(* ===== verification/Stake.v ===== *)
(** * Proof of stake: [stake.cpp]

    The stake modifier of a block, which mixes the entropy of 64 earlier
    blocks, and the kernel test that lets an output mint a block. *)

From stdpp Require Import sorting.
From S2P Require Import Prelude SigEncoding Interp Transaction SigHash Bignum Chain TxConnect Proofs.

Local Open Scope Z_scope.

Definition STAKE_TIMESTAMP_MASK : Z := 15.
Definition MODIFIER_INTERVAL_RATIO : Z := 3.

(** [GetWeight] *)
Definition GetWeight (nIntervalBeginning nIntervalEnd : Z) : Z :=
  to_i64 (nIntervalEnd - nIntervalBeginning - nStakeMinAge).

(** [GetLastStakeModifier]: the modifier and its block's time. *)
Fixpoint GetLastStakeModifier (pindex : chain) : option (Z * Z) :=
  match pindex with
  | [] => None
  | b :: pprev =>
    if GeneratedStakeModifier b then Some (bi_nStakeModifier b, GetBlockTime b)
    else match pprev with [] => None | _ => GetLastStakeModifier pprev end
  end.

(** [GetStakeModifierSelectionIntervalSection] *)
Definition SelectionIntervalSection (nSection : Z) : Z :=
  Z.quot (nModifierInterval * 63) (63 + (63 - nSection) * (MODIFIER_INTERVAL_RATIO - 1)).

(** [GetStakeModifierSelectionInterval] *)
Definition SelectionInterval : Z := sum_Z (map (fun n => SelectionIntervalSection (Z.of_nat n)) (seq 0 64)).

(** The order of [pair<int64_t, uint256>]. *)
Definition candidate_le (a b : Z * Z) : Prop := a.1 < b.1 \/ (a.1 = b.1 /\ a.2 <= b.2).

#[export] Instance candidate_le_dec : RelDecision candidate_le.
Proof. intros a b. unfold candidate_le. apply _. Defined.

Section stake.
Context {SH : ScriptHashes} {EC : ECDSA}.

(** ** Selecting the blocks *)

(** [hashSelection]: proof-of-stake blocks are favoured by a factor 2^32. *)
Definition selection_hash (nStakeModifierPrev : Z) (pindex : CBlockIndex) : Z :=
  let hashSelection := uint256_of (h_hash256 (le_encode 32 (bi_hashProof pindex) ++ le_encode 8 nStakeModifierPrev)) in
  if index_IsProofOfStake pindex then Z.shiftr hashSelection 32 else hashSelection.

Section modifier.
Variable mapBlockIndex : gmap Z CBlockIndex.

(** The loop of [SelectBlockFromCandidates]; [best] holds [hashBest] and
    [*pindexSelected] once [fSelected] is set. *)
Fixpoint select_loop (mapSelectedBlocks : gset Z) (nSelectionIntervalStop nStakeModifierPrev : Z)
    (best : option (Z * CBlockIndex)) (vSortedByTimestamp : list (Z * Z))
    : outcome unit (option (Z * CBlockIndex)) :=
  match vSortedByTimestamp with
  | [] => mret best
  | item :: items =>
    match mapBlockIndex !! item.2 with
    | None => Err tt
    | Some pindex =>
      if bool_decide (is_Some best) && (nSelectionIntervalStop <? GetBlockTime pindex) then mret best
      else if bool_decide (bi_hash pindex ∈ mapSelectedBlocks) then
        select_loop mapSelectedBlocks nSelectionIntervalStop nStakeModifierPrev best items
      else
        let hashSelection := selection_hash nStakeModifierPrev pindex in
        let best :=
          match best with
          | Some (hashBest, _) => if hashSelection <? hashBest then Some (hashSelection, pindex) else best
          | None => Some (hashSelection, pindex)
          end in
        select_loop mapSelectedBlocks nSelectionIntervalStop nStakeModifierPrev best items
    end
  end.

Definition SelectBlockFromCandidates (vSortedByTimestamp : list (Z * Z)) (mapSelectedBlocks : gset Z)
    (nSelectionIntervalStop nStakeModifierPrev : Z) : outcome unit CBlockIndex :=
  best ← select_loop mapSelectedBlocks nSelectionIntervalStop nStakeModifierPrev None vSortedByTimestamp;
  match best with
  | Some (_, pindexSelected) => mret pindexSelected
  | None => Err tt
  end.

(** The blocks young enough to be candidates, [pindexPrev] first. *)
Fixpoint candidates (nSelectionIntervalStart : Z) (pindex : chain) : list (Z * Z) :=
  match pindex with
  | [] => []
  | b :: pprev =>
    if nSelectionIntervalStart <=? GetBlockTime b then
      (GetBlockTime b, bi_hash b) :: candidates nSelectionIntervalStart pprev
    else []
  end.

(** The rounds: [n] more, the next one is [nRound]. *)
Fixpoint select_rounds (n : nat) (nRound : Z) (vSortedByTimestamp : list (Z * Z))
    (nStakeModifier nSelectionIntervalStop : Z) (mapSelectedBlocks : gset Z) (nStakeModifierNew : Z)
    : outcome unit Z :=
  match n with
  | O => mret nStakeModifierNew
  | S n =>
    let nSelectionIntervalStop := nSelectionIntervalStop + SelectionIntervalSection nRound in
    pindex ← SelectBlockFromCandidates vSortedByTimestamp mapSelectedBlocks nSelectionIntervalStop nStakeModifier;
    select_rounds n (nRound + 1) vSortedByTimestamp nStakeModifier nSelectionIntervalStop
      ({[bi_hash pindex]} ∪ mapSelectedBlocks)
      (Z.lor nStakeModifierNew (to_u64 (Z.shiftl (GetStakeEntropyBit pindex) nRound)))
  end.

(** [ComputeNextStakeModifier]: the modifier and whether it was generated. *)
Definition ComputeNextStakeModifier (pindexPrev : chain) : outcome unit (Z * bool) :=
  match pindexPrev with
  | [] => mret (0, true)
  | b :: _ =>
    match GetLastStakeModifier pindexPrev with
    | None => Err tt
    | Some (nStakeModifier, nModifierTime) =>
      if Z.quot (GetBlockTime b) nModifierInterval <=? Z.quot nModifierTime nModifierInterval then
        mret (nStakeModifier, false)
      else
        let nSelectionIntervalStart :=
          Z.quot (GetBlockTime b) nModifierInterval * nModifierInterval - SelectionInterval in
        let vSortedByTimestamp := merge_sort candidate_le (rev (candidates nSelectionIntervalStart pindexPrev)) in
        nStakeModifierNew ← select_rounds (Nat.min 64 (length vSortedByTimestamp)) 0 vSortedByTimestamp
                              nStakeModifier nSelectionIntervalStart ∅ 0;
        mret (nStakeModifierNew, true)
    end
  end.
End modifier.

(** [ComputeStakeModifierV2] *)
Definition ComputeStakeModifierV2 (pindexPrev : chain) (kernel : Z) : Z :=
  match pindexPrev with
  | [] => 0
  | b :: _ => uint256_of (h_hash256 (le_encode 32 kernel ++ le_encode 32 (bi_bnStakeModifierV2 b)))
  end.

(** ** The kernel *)

(** [CheckStakeKernelHash]: [hashProofOfStake] and [targetProofOfStake] when
    it returns true.  The sum of the block time and the minimal age is an
    [unsigned int]. *)
Definition CheckStakeKernelHash (pindexPrev : CBlockIndex) (nBits nTimeBlockFrom : Z) (txPrev : CTransaction)
    (prevout : COutPoint) (nTimeTx : Z) : outcome unit (Z * Z) :=
  _ ← fail_if (nTimeTx <? nTime txPrev) tt;
  _ ← fail_if (nTimeTx <? to_u32 (nTimeBlockFrom + nStakeMinAge)) tt;
  let nValueIn := nValue (nth (Z.to_nat (prevout_n prevout)) (vout txPrev) null_txout) in
  let bnTarget := SetCompact nBits * nValueIn in
  let hashProofOfStake := uint256_of (h_hash256
    (le_encode 32 (bi_bnStakeModifierV2 pindexPrev) ++ le_encode 4 (nTime txPrev) ++
     le_encode 32 (prevout_hash prevout) ++ le_encode 4 (prevout_n prevout) ++ le_encode 4 nTimeTx)) in
  _ ← fail_if (bnTarget <? hashProofOfStake) tt;
  mret (hashProofOfStake, getuint256 bnTarget).

Section proof_of_stake.
Variable ReadTxFromDisk : CDiskTxPos -> option CTransaction.
(** The time of the block at a file position: [block.ReadFromDisk(nFile,
    nBlockPos, false)] and [GetBlockTime]. *)
Variable ReadBlockTime : Z -> Z -> option Z.
Variable txdb : tx_db.

(** [CheckProofOfStake]: [Err n] returns false after adding [n] to [nDoS]. *)
Definition CheckProofOfStake (pindexPrev : chain) (tx : CTransaction) (nBits : Z) : outcome Z (Z * Z) :=
  _ ← fail_if (negb (IsCoinStake tx)) 0;
  match vin tx, pindexPrev with
  | txin :: _, b :: _ =>
    match ReadTxFromDisk_prevout ReadTxFromDisk txdb (prevout txin) with
    | None => Err 1
    | Some (txPrev, txindex) =>
      match VerifySignature txPrev tx 0 SCRIPT_VERIFY_NONE 0 with
      | Ok true =>
        match ReadBlockTime (nFile (pos txindex)) (nBlockPos (pos txindex)) with
        | None => Err 0
        | Some nBlockTime =>
          _ ← fail_if (bool_decide (is_Some (IsConfirmedInNPrevBlocks txindex pindexPrev (nStakeMinConfirmations - 1)))) 100;
          match CheckStakeKernelHash b nBits nBlockTime txPrev (prevout txin) (nTime tx) with
          | Ok r => mret r
          | Err _ => Err 1
          | Throw => Throw
          | Crash => Crash
          end
        end
      | Ok false => Err 100
      | Err _ | Throw => Throw
      | Crash => Crash
      end
    end
  | _, _ => Crash
  end.

(** [CheckKernel] *)
Definition CheckKernel (pindexPrev : chain) (nBits nTime_ : Z) (prevout : COutPoint) : option (Z * (Z * Z)) :=
  '(txPrev, txindex) ← ReadTxFromDisk_prevout ReadTxFromDisk txdb prevout;
  nBlockTime ← ReadBlockTime (nFile (pos txindex)) (nBlockPos (pos txindex));
  match IsConfirmedInNPrevBlocks txindex pindexPrev (nStakeMinConfirmations - 1), pindexPrev with
  | None, b :: _ =>
    match CheckStakeKernelHash b nBits nBlockTime txPrev prevout (to_u32 nTime_) with
    | Ok r => Some (nBlockTime, r)
    | _ => None
    end
  | _, _ => None
  end.
End proof_of_stake.

(** [CheckCoinStakeTimestamp] *)
Definition CheckCoinStakeTimestamp (nHeight nTimeBlock nTimeTx : Z) : bool :=
  (nTimeBlock =? nTimeTx) && (Z.land nTimeTx STAKE_TIMESTAMP_MASK =? 0).
End stake.
