(* ===== verification/StakeProps.v ===== *)
(** * Properties of proof of stake

    The rounds of the stake modifier always find a candidate and take the best
    one; [CheckProofOfStake] accepts exactly the valid kernels, described by
    the blocks of the chain and the bytes that are hashed. *)

From stdpp Require Import sorting.
From S2P Require Import Prelude SigEncoding Interp LegacyInterp Transaction SigHash Bignum Chain TxConnect Proofs Stake.

Local Open Scope Z_scope.

(** ** Sorting *)

#[export] Instance candidate_le_total : Total candidate_le.
Proof. intros a b. unfold candidate_le. lia. Qed.

#[export] Instance candidate_le_trans : Transitive candidate_le.
Proof. intros a b c. unfold candidate_le. lia. Qed.

Lemma sort_candidates_perm l : merge_sort candidate_le (rev l) ≡ₚ l.
Proof. by rewrite merge_sort_Permutation, <- Permutation_rev. Qed.

Section selection.
Context {SH : ScriptHashes}.
Variable mapBlockIndex : gmap Z CBlockIndex.

(** The candidates of a list are blocks of the index, filed under their own
    hash, with their own time. *)
Definition indexed (items : list (Z * Z)) : Prop :=
  Forall (fun it => exists b, mapBlockIndex !! it.2 = Some b /\ bi_hash b = it.2 /\ GetBlockTime b = it.1) items.

(** A block is available to a round: it is a candidate not selected yet. *)
Definition available (items : list (Z * Z)) (sel : gset Z) (b : CBlockIndex) : Prop :=
  exists it, it ∈ items /\ mapBlockIndex !! it.2 = Some b /\ bi_hash b = it.2 /\ bi_hash b ∉ sel.

Lemma available_cons it items sel b :
  available (it :: items) sel b <->
  (mapBlockIndex !! it.2 = Some b /\ bi_hash b = it.2 /\ bi_hash b ∉ sel) \/ available items sel b.
Proof.
  unfold available. split.
  - intros (x & Hx & H). apply elem_of_cons in Hx as [->|Hx]; [by left|right; eauto].
  - intros [H|(x & Hx & H)]; [exists it|exists x]; set_solver.
Qed.

(** What a loop over [items] makes of [best]: the result is an available
    block or [best], it is as good as [best] and as every available block up
    to the stop time, and it exists if a block is available. *)
Record selects (sel : gset Z) (stop prev : Z) (items : list (Z * Z)) (best r : option (Z * CBlockIndex)) : Prop := {
  selects_from : r = best \/ exists b, r = Some (selection_hash prev b, b) /\ available items sel b;
  selects_best : forall h b, best = Some (h, b) -> exists h' b', r = Some (h', b') /\ h' <= h;
  selects_min : forall b, available items sel b -> GetBlockTime b <= stop ->
    exists h' b', r = Some (h', b') /\ h' <= selection_hash prev b;
  selects_some : forall b, available items sel b -> is_Some r;
}.

Lemma available_late items sel stop b it :
  indexed items -> Forall (candidate_le it) items -> stop < it.1 -> available items sel b -> stop < GetBlockTime b.
Proof.
  unfold indexed. rewrite !Forall_forall. intros Hidx Hle Hlate (x & Hx & Hb & _).
  destruct (Hidx x Hx) as (b' & Hb' & _ & Ht). specialize (Hle x Hx). unfold candidate_le in Hle.
  assert (b' = b) as <- by congruence. lia.
Qed.

Lemma indexed_head it items : indexed (it :: items) ->
  exists x, mapBlockIndex !! it.2 = Some x /\ bi_hash x = it.2 /\ GetBlockTime x = it.1.
Proof. intros H. by apply Forall_inv in H. Qed.

Lemma select_loop_spec sel stop prev items : indexed items -> StronglySorted candidate_le items ->
  forall best, exists r,
    select_loop mapBlockIndex sel stop prev best items = Ok r /\ selects sel stop prev items best r.
Proof.
  intros Hidx Hsort. induction items as [|it items IH]; intros best.
  { exists best. split; [done|]. split; [by left|eauto with lia|intros ? (? & ?%elem_of_nil & _); done..]. }
  destruct (indexed_head _ _ Hidx) as (x & Hx & Hxh & Hxt).
  apply Forall_cons in Hidx as [_ Hidx]. apply StronglySorted_inv in Hsort as [Hsort Hhd].
  assert (Havail : forall b, available (it :: items) sel b -> (b = x /\ bi_hash x ∉ sel) \/ available items sel b).
  { intros b [(Hb & _ & Hn)|Hb]%available_cons; [|by right]. left. assert (b = x) as -> by congruence. done. }
  cbn [select_loop]. rewrite Hx. destruct (_ && _) eqn:Hbreak.
  - (* the loop breaks: what follows is late *)
    apply andb_true_iff in Hbreak as [Hsome Hlate]. apply bool_decide_eq_true in Hsome. apply Z.ltb_lt in Hlate.
    exists best. split; [done|]. split; [by left|eauto with lia| |done].
    intros b Hb Hle. exfalso. destruct (Havail b Hb) as [[-> _]|Hb']; [lia|].
    pose proof (available_late _ _ stop _ _ Hidx Hhd ltac:(lia) Hb'). lia.
  - clear Hbreak. case_bool_decide as Hsel.
    + (* selected before *)
      destruct (IH Hidx Hsort best) as (r & Hr & [H1 H2 H3 H4]). exists r. split; [done|]. split.
      * destruct H1 as [H1|(b & H1 & Hb)]; [by left|right]. exists b. split; [done|]. apply available_cons. by right.
      * done.
      * intros b Hb Hle. destruct (Havail b Hb) as [[-> ?]|Hb']; [done|auto].
      * intros b Hb. destruct (Havail b Hb) as [[-> ?]|Hb']; [done|eauto].
    + (* compared with the best *)
      set (best' := match best with Some (hb, _) => if selection_hash prev x <? hb then _ else _ | None => _ end).
      assert (Hb' : exists h' b', best' = Some (h', b') /\ h' <= selection_hash prev x).
      { subst best'. destruct best as [[hb bb]|]; [|eauto with lia].
        destruct (Z.ltb_spec (selection_hash prev x) hb); eauto with lia. }
      destruct (IH Hidx Hsort best') as (r & Hr & [H1 H2 H3 H4]). exists r. split; [done|].
      destruct Hb' as (h' & b' & Hb' & Hle').
      destruct (H2 h' b' Hb') as (h'' & b'' & -> & Hle''). split.
      * destruct H1 as [H1|(b & H1 & Hb)].
        -- rewrite H1. subst best'. destruct best as [[hb bb]|];
             [destruct (selection_hash prev x <? hb)|]; try by left.
           ++ right. exists x. split; [done|]. apply available_cons. by left.
           ++ right. exists x. split; [done|]. apply available_cons. by left.
        -- right. exists b. split; [done|]. apply available_cons. by right.
      * intros h b ->. subst best'. destruct (Z.ltb_spec (selection_hash prev x) h); simplify_eq;
          do 2 eexists; (split; [done|lia]).
      * intros b Hb Hle. destruct (Havail b Hb) as [[-> ?]|Hb0]; [|auto].
        do 2 eexists. split; [done|lia].
      * done.
Qed.

Lemma select_block_spec items sel stop prev b0 :
  indexed items -> StronglySorted candidate_le items -> available items sel b0 ->
  exists b, SelectBlockFromCandidates mapBlockIndex items sel stop prev = Ok b /\ available items sel b /\
    forall b', available items sel b' -> GetBlockTime b' <= stop -> selection_hash prev b <= selection_hash prev b'.
Proof.
  intros Hidx Hsort Hb0. unfold SelectBlockFromCandidates.
  destruct (select_loop_spec sel stop prev items Hidx Hsort None) as (r & -> & [H1 _ H3 H4]).
  destruct (H4 b0 Hb0) as [[h b] ->]. destruct H1 as [|(b' & [= -> ->] & Hb)]; [done|].
  exists b'. split; [done|]. split; [done|]. intros b Hb' Hle.
  by destruct (H3 b Hb' Hle) as (? & ? & [= <- <-] & ?).
Qed.

(** ** The rounds *)

(** While fewer blocks are selected than there are candidates, one is
    available. *)
Lemma available_exists items sel :
  indexed items -> NoDup items.*2 -> (size sel < length items)%nat -> exists b, available items sel b.
Proof.
  intros Hidx Hnd Hsize.
  destruct (decide (Forall (fun h => h ∈ sel) items.*2)) as [Hall|Hex].
  - exfalso. assert (Hsub : list_to_set (C := gset Z) items.*2 ⊆ sel).
    { intros h Hh. apply elem_of_list_to_set in Hh. rewrite Forall_forall in Hall. auto. }
    apply subseteq_size in Hsub. rewrite size_list_to_set, length_fmap in Hsub by done. lia.
  - apply not_Forall_Exists in Hex; [|apply _]. apply Exists_exists in Hex as (h & Hh & Hn).
    apply list_elem_of_fmap in Hh as (it & -> & Hit). unfold indexed in Hidx. rewrite Forall_forall in Hidx.
    destruct (Hidx it Hit) as (b & Hb & Hbh & _). exists b, it. rewrite Hbh. done.
Qed.

Lemma lor_range a b k : 0 <= k -> 0 <= a < 2 ^ k -> 0 <= b < 2 ^ k -> 0 <= Z.lor a b < 2 ^ k.
Proof.
  intros Hk [Ha Ha'] [Hb Hb']. split; [by apply Z.lor_nonneg|].
  destruct (Z.eq_dec (Z.lor a b) 0) as [->|Hne]; [by apply Z.pow_pos_nonneg|].
  assert (0 <= Z.lor a b) by (by apply Z.lor_nonneg).
  apply Z.log2_lt_pow2; [lia|]. rewrite Z.log2_lor by done.
  destruct (Z.eq_dec a 0) as [->|], (Z.eq_dec b 0) as [->|]; cbn [Z.log2] in *;
    try (by rewrite Z.lor_0_l in Hne).
  - rewrite Z.max_r by apply Z.log2_nonneg. by apply Z.log2_lt_pow2; [lia|].
  - rewrite Z.max_l by apply Z.log2_nonneg. by apply Z.log2_lt_pow2; [lia|].
  - apply Z.max_lub_lt; by apply Z.log2_lt_pow2; [lia|].
Qed.

Lemma select_rounds_total items prev n : indexed items -> NoDup items.*2 -> StronglySorted candidate_le items ->
  forall nRound stop sel new, (size sel + n <= length items)%nat -> 0 <= new < 2 ^ 64 ->
  exists m, select_rounds mapBlockIndex n nRound items prev stop sel new = Ok m /\ 0 <= m < 2 ^ 64.
Proof.
  intros Hidx Hnd Hsort. induction n as [|n IH]; intros nRound stop sel new Hsize Hnew; [by exists new|].
  destruct (available_exists items sel Hidx Hnd ltac:(lia)) as [b0 Hb0].
  cbn [select_rounds].
  destruct (select_block_spec items sel (stop + SelectionIntervalSection nRound) prev b0 Hidx Hsort Hb0)
    as (b & -> & (it & _ & _ & _ & Hb) & _). cbn [mbind outcome_bind].
  apply IH.
  - rewrite size_union, size_singleton; [lia|set_solver].
  - apply lor_range; [lia|done|]. unfold to_u64. by apply Z.mod_pos_bound.
Qed.

(** The candidates of a chain whose blocks are in the index. *)
Definition chain_indexed (c : chain) : Prop := Forall (fun b => mapBlockIndex !! bi_hash b = Some b) c.

Lemma candidates_indexed start c : chain_indexed c -> indexed (candidates start c).
Proof.
  unfold chain_indexed, indexed. induction 1 as [|b c Hb _ IH]; cbn [candidates]; [constructor|].
  case_match; constructor; [by exists b|done].
Qed.

Lemma candidates_NoDup start c : NoDup (map bi_hash c) -> NoDup (candidates start c).*2.
Proof.
  assert (Hsub : forall c, (candidates start c).*2 ⊆ map bi_hash c).
  { induction c0 as [|b c' IH]; cbn [candidates]; [done|]. case_match; [|set_solver].
    cbn [fmap list_fmap map]. set_solver. }
  induction c as [|b c IH]; cbn [candidates map]; intros H; [constructor|].
  apply NoDup_cons in H as [Hb H]. case_match; [|constructor]. cbn [fmap list_fmap].
  constructor; [|auto]. intros Hin. apply Hb, Hsub, Hin.
Qed.
End selection.

(** A round of the stake modifier picks, among the candidates not selected
    yet, one whose selection hash no other one up to the stop time
    undercuts; it fails only when no candidate is left. *)
Theorem SelectBlockFromCandidates_min `{SH : ScriptHashes} mapBlockIndex items sel stop prev b0
    (Hidx : indexed mapBlockIndex items) (Hsort : StronglySorted candidate_le items)
    (Hleft : available mapBlockIndex items sel b0) :
  exists b, SelectBlockFromCandidates mapBlockIndex items sel stop prev = Ok b /\
    available mapBlockIndex items sel b /\
    forall b', available mapBlockIndex items sel b' -> GetBlockTime b' <= stop ->
      selection_hash prev b <= selection_hash prev b'.
Proof. by apply (select_block_spec _ _ _ _ _ b0). Qed.

(** The modifier after a chain is always computed: the 64 rounds (or as
    many as there are candidates) never run out of candidates; the result is
    a 64-bit number, and the old modifier unless a new interval began. *)
Theorem ComputeNextStakeModifier_total `{SH : ScriptHashes} mapBlockIndex pindexPrev m t
    (Hidx : chain_indexed mapBlockIndex pindexPrev) (Hnd : NoDup (map bi_hash pindexPrev))
    (Hlast : GetLastStakeModifier pindexPrev = Some (m, t)) (Hm : 0 <= m < 2 ^ 64) :
  exists m' f, ComputeNextStakeModifier mapBlockIndex pindexPrev = Ok (m', f) /\ 0 <= m' < 2 ^ 64 /\
    (f = false -> m' = m).
Proof.
  unfold ComputeNextStakeModifier. destruct pindexPrev as [|b pprev]; [by exists 0, true|]. rewrite Hlast.
  case_match; [by exists m, false|].
  set (start := _ - _). set (cs := candidates start (b :: pprev)).
  pose proof (sort_candidates_perm cs) as Hperm.
  assert (Hsorted : StronglySorted candidate_le (merge_sort candidate_le (rev cs))).
  { apply Sorted_StronglySorted; [apply _|]. apply Sorted_merge_sort. apply _. }
  destruct (select_rounds_total mapBlockIndex (merge_sort candidate_le (rev cs)) m
              (Nat.min 64 (length (merge_sort candidate_le (rev cs))))) with (nRound := 0) (stop := start)
      (sel := ∅ : gset Z) (new := 0) as (m' & -> & Hm'); try done.
  - unfold indexed. rewrite Hperm. by apply candidates_indexed.
  - rewrite Hperm. by apply candidates_NoDup.
  - rewrite size_empty. lia.
  - by exists m', true.
Qed.

(** ** The kernel *)

(** What makes the first input of [tx] a valid kernel on top of a chain.  The
    transaction has an input and two outputs, the first of which is empty; the
    input spends an output of a transaction of the index, with a script that is
    accepted for it; the block of that transaction is none of the 179 last of
    the chain and is 3600 seconds older than [tx] (in the 32 bits of the code);
    [tx] is no older than the transaction; and the kernel hash is at most the
    target scaled by the value of the output. *)
Definition valid_kernel `{SH : ScriptHashes, EC : ECDSA} (ReadTxFromDisk : CDiskTxPos -> option CTransaction)
    (ReadBlockTime : Z -> Z -> option Z) (txdb : tx_db) (pindexPrev : chain) (tx : CTransaction)
    (nBits hashProof : Z) : Prop :=
  exists txin ins o0 o1 outs b pprev txPrev txindex nBlockTime value,
    vin tx = txin :: ins /\ ~ (prevout_hash (prevout txin) = 0 /\ prevout_n (prevout txin) = UINT_MAX) /\
    vout tx = o0 :: o1 :: outs /\ nValue o0 = 0 /\ scriptPubKey o0 = [] /\
    pindexPrev = b :: pprev /\
    txdb !! prevout_hash (prevout txin) = Some txindex /\ ReadTxFromDisk (pos txindex) = Some txPrev /\
    tx_GetHash txPrev = prevout_hash (prevout txin) /\
    vout txPrev !! Z.to_nat (prevout_n (prevout txin)) = Some value /\
    legacy_VerifyScript (SB := tx_backend tx 0 0 SCRIPT_VERIFY_NONE) (scriptSig txin) (scriptPubKey value) SCRIPT_VERIFY_NONE = Ok tt /\
    ReadBlockTime (nFile (pos txindex)) (nBlockPos (pos txindex)) = Some nBlockTime /\
    (forall i b', (i < 179)%nat -> pindexPrev !! i = Some b' ->
       ~ (bi_nFile b' = nFile (pos txindex) /\ bi_nBlockPos b' = nBlockPos (pos txindex))) /\
    nTime txPrev <= nTime tx /\ (nBlockTime + 3600) mod 2 ^ 32 <= nTime tx /\
    hashProof = uint256_of (h_hash256
      (le_encode 32 (bi_bnStakeModifierV2 b) ++ le_encode 4 (nTime txPrev) ++
       le_encode 32 (prevout_hash (prevout txin)) ++ le_encode 4 (prevout_n (prevout txin)) ++
       le_encode 4 (nTime tx))) /\
    hashProof <= SetCompact nBits * nValue value.

(** The heights of a chain go down by one from block to block. *)
Definition numbered (c : chain) : Prop := exists top, forall i b, c !! i = Some b -> bi_nHeight b = top - Z.of_nat i.

(** A chain has no block at a position among its first [n] exactly when the
    search for it finds none. *)
Lemma confirmed_loop_None top p n : forall (c : chain) k, (forall i b, c !! i = Some b -> bi_nHeight b = top - Z.of_nat (k + i)) ->
  confirmed_loop top (Z.of_nat n) p c = None <->
  forall i b', (k + i < n)%nat -> c !! i = Some b' -> ~ (bi_nFile b' = nFile p /\ bi_nBlockPos b' = nBlockPos p).
Proof.
  induction c as [|b c IH]; intros k Hh; cbn [confirmed_loop]; [split; [by intros _ [] ?|done]|].
  pose proof (Hh 0%nat b eq_refl) as Hb. destruct (Z.ltb_spec (top - bi_nHeight b) (Z.of_nat n)) as [Hlt|Hge].
  - destruct (Z.eqb_spec (bi_nBlockPos b) (nBlockPos p)) as [E1|E1], (Z.eqb_spec (bi_nFile b) (nFile p)) as [E2|E2]; cbn [andb].
    1: { split; [done|]. intros H. destruct (H 0%nat b ltac:(lia) eq_refl). by split. }
    all: rewrite (IH (S k)); [|intros i x Hx; rewrite (Hh (S i) x Hx); lia].
    all: split; [|intros H i x Hi Hx; apply (H (S i) x); [lia|done]].
    all: intros H [|i] x Hi Hx; [injection Hx as <-; tauto|apply (H i x); [lia|done]].
  - split; [|done]. intros _ i x Hi Hx. lia.
Qed.

Lemma IsConfirmed_None txindex c n : numbered c ->
  IsConfirmedInNPrevBlocks txindex c (Z.of_nat n) = None <->
  forall i b', (i < n)%nat -> c !! i = Some b' -> ~ (bi_nFile b' = nFile (pos txindex) /\ bi_nBlockPos b' = nBlockPos (pos txindex)).
Proof.
  intros [top Hh]. unfold IsConfirmedInNPrevBlocks. destruct c as [|b c]; [split; [by intros _ [] ?|done]|].
  pose proof (Hh 0%nat b eq_refl) as Hb. apply (confirmed_loop_None _ _ _ (b :: c) 0). intros i x Hx. rewrite (Hh i x Hx). lia.
Qed.

(** A coinstake, its output and its signature. *)
Lemma IsCoinStake_true tx : IsCoinStake tx = true <-> exists txin ins o0 o1 outs, vin tx = txin :: ins /\ vout tx = o0 :: o1 :: outs /\
  ~ (prevout_hash (prevout txin) = 0 /\ prevout_n (prevout txin) = UINT_MAX) /\ nValue o0 = 0 /\ scriptPubKey o0 = [].
Proof.
  unfold IsCoinStake, outpoint_IsNull, txout_IsEmpty. destruct (vin tx) as [|txin ins]; [naive_solver|]. destruct (vout tx) as [|o0 [|o1 outs]]; [naive_solver..|].
  assert (zlen (scriptPubKey o0) = 0 <-> scriptPubKey o0 = []) as Hz.
  { split; [|by intros ->]. destruct (scriptPubKey o0) as [|x l]; [done|]. rewrite zlen_cons. pose proof (zlen_nonneg l). lia. }
  rewrite andb_true_iff, negb_true_iff, andb_false_iff, andb_true_iff, !Z.eqb_neq, !Z.eqb_eq, Hz. split.
  - intros (H1 & H2 & H3). exists txin, ins, o0, o1, outs. split_and!; try done. intros [? ?]. by destruct H1.
  - intros (? & ? & ? & ? & ? & [= <- <-] & [= <- <- <-] & H1 & H2 & H3). split_and!; try done.
    destruct (decide (prevout_hash (prevout txin) = 0)); [right|by left]. naive_solver.
Qed.

Lemma ReadTxFromDisk_prevout_Some ReadTxFromDisk txdb o txPrev txindex : 0 <= prevout_n o ->
  ReadTxFromDisk_prevout ReadTxFromDisk txdb o = Some (txPrev, txindex) <->
  txdb !! prevout_hash o = Some txindex /\ ReadTxFromDisk (pos txindex) = Some txPrev /\ is_Some (vout txPrev !! Z.to_nat (prevout_n o)).
Proof.
  intros Hn. unfold ReadTxFromDisk_prevout. rewrite lookup_lt_is_Some. destruct (txdb !! _) as [ti|]; cbn [mbind option_bind]; [|naive_solver].
  destruct (ReadTxFromDisk (pos ti)) as [tp|] eqn:E; cbn [mbind option_bind]; [|naive_solver congruence].
  destruct (Z.leb_spec (zlen (vout tp)) (prevout_n o)); split.
  - done.
  - intros ([= <-] & E2 & ?). rewrite E in E2. injection E2 as <-. unfold zlen in *. lia.
  - intros [= <- <-]. split_and!; [done|done|unfold zlen in *; lia].
  - intros ([= <-] & E2 & ?). rewrite E in E2. by injection E2 as <-.
Qed.

Lemma VerifySignature_true `{SH : ScriptHashes, EC : ECDSA} txFrom tx txin ins value flags nHashType :
  vin tx = txin :: ins -> vout txFrom !! Z.to_nat (prevout_n (prevout txin)) = Some value ->
  VerifySignature txFrom tx 0 flags nHashType = Ok true <->
  tx_GetHash txFrom = prevout_hash (prevout txin) /\
  legacy_VerifyScript (SB := tx_backend tx 0 nHashType flags) (scriptSig txin) (scriptPubKey value) flags = Ok tt.
Proof.
  intros E1 E2. unfold VerifySignature. rewrite E1. change ((txin :: ins) !! Z.to_nat 0) with (Some txin). cbv beta iota. rewrite E2.
  destruct (Z.eqb_spec (prevout_hash (prevout txin)) (tx_GetHash txFrom)) as [E|E]; cbn [negb]; [|naive_solver].
  destruct (legacy_VerifyScript _ _ _) as [[]|[]| |]; naive_solver.
Qed.

Lemma fail_if_bind_Ok {E A} c (e : E) (m : outcome E A) r :
  (_ ← fail_if c e; m) = Ok r <-> c = false /\ m = Ok r.
Proof. destruct c; cbn; naive_solver. Qed.

Lemma CheckStakeKernelHash_Ok `{SH : ScriptHashes} b nBits t txPrev o nTimeTx r :
  CheckStakeKernelHash b nBits t txPrev o nTimeTx = Ok r <->
  nTime txPrev <= nTimeTx /\ to_u32 (t + nStakeMinAge) <= nTimeTx /\
  let value := nValue (nth (Z.to_nat (prevout_n o)) (vout txPrev) null_txout) in
  let hashProof := uint256_of (h_hash256
      (le_encode 32 (bi_bnStakeModifierV2 b) ++ le_encode 4 (nTime txPrev) ++
       le_encode 32 (prevout_hash o) ++ le_encode 4 (prevout_n o) ++ le_encode 4 nTimeTx)) in
  hashProof <= SetCompact nBits * value /\ r = (hashProof, getuint256 (SetCompact nBits * value)).
Proof.
  unfold CheckStakeKernelHash. rewrite !fail_if_bind_Ok, !Z.ltb_ge. cbv zeta.
  split; intros (H1 & H2 & H3 & H4); (split; [done|]; split; [done|]; split; [done|]); [by injection H4|by subst].
Qed.

(** C34: [CheckProofOfStake] accepts exactly the coinstakes whose first input is
    a valid kernel, and hands out its hash: the output it spends is known and
    unlocked by its script, its block is none of the last 179 and an hour old
    (not three hours, as the README and the comment at the constant say), and
    the kernel hash is within the target times the value. *)
Theorem CheckProofOfStake_spec `{SH : ScriptHashes, EC : ECDSA} ReadTxFromDisk ReadBlockTime txdb pindexPrev
    tx nBits hashProof
    (Hn : Forall (fun i => 0 <= prevout_n (prevout i)) (vin tx)) (Hheights : numbered pindexPrev) :
  (exists target, CheckProofOfStake ReadTxFromDisk ReadBlockTime txdb pindexPrev tx nBits = Ok (hashProof, target)) <->
  valid_kernel ReadTxFromDisk ReadBlockTime txdb pindexPrev tx nBits hashProof.
Proof.
  unfold CheckProofOfStake, valid_kernel. change (nStakeMinConfirmations - 1) with (Z.of_nat 179). split.
  - intros [target H]. apply fail_if_bind_Ok in H as [Hcs H]. apply negb_false_iff in Hcs.
    apply IsCoinStake_true in Hcs as (txin & ins & o0 & o1 & outs & Hvin & Hvout & Hnull & Ho1 & Ho2). rewrite Hvin in H, Hn. apply Forall_inv in Hn.
    destruct pindexPrev as [|b pprev]; [done|].
    destruct (ReadTxFromDisk_prevout _ _ _) as [[txPrev txindex]|] eqn:Hread; [|done].
    apply ReadTxFromDisk_prevout_Some in Hread as (Hdb & Hdisk & value & Hv); [|done].
    destruct (VerifySignature txPrev tx 0 SCRIPT_VERIFY_NONE 0) as [[|]|[]| |] eqn:Hsig; try done.
    apply (VerifySignature_true txPrev tx txin ins value) in Hsig as [Hhash Hsig]; [|done..].
    destruct (ReadBlockTime _ _) as [t|] eqn:Ht; [|done].
    apply fail_if_bind_Ok in H as [Hconf H]. apply bool_decide_eq_false, eq_None_not_Some in Hconf.
    rewrite (IsConfirmed_None _ _ _ Hheights) in Hconf.
    destruct (CheckStakeKernelHash _ _ _ _ _ _) as [r|[]| |] eqn:Hk; try done.
    injection H as ->. apply CheckStakeKernelHash_Ok in Hk as (H1 & H2 & H3 & H4). injection H4 as H4 _.
    rewrite (nth_lookup_Some _ _ _ _ Hv) in *.
    exists txin, ins, o0, o1, outs, b, pprev, txPrev, txindex, t, value. rewrite H4. by split_and!.
  - intros (txin & ins & o0 & o1 & outs & b & pprev & txPrev & txindex & t & value & Hvin & Hnull & Hvout & Ho1 & Ho2 & Hp & Hdb & Hdisk & Hhash &
      Hv & Hsig & Ht & Hconf & H1 & H2 & H3 & H4).
    exists (getuint256 (SetCompact nBits * nValue value)).
    assert (IsCoinStake tx = true) as -> by (apply IsCoinStake_true; by exists txin, ins, o0, o1, outs).
    assert (VerifySignature txPrev tx 0 SCRIPT_VERIFY_NONE 0 = Ok true) as Hok by by apply (VerifySignature_true txPrev tx txin ins value).
    rewrite Hvin in *. apply Forall_inv in Hn. apply (IsConfirmed_None txindex _ _ Hheights) in Hconf. subst pindexPrev.
    assert (ReadTxFromDisk_prevout ReadTxFromDisk txdb (prevout txin) = Some (txPrev, txindex)) as -> by (by apply ReadTxFromDisk_prevout_Some).
    cbn [negb fail_if mbind outcome_bind]. rewrite Hok, Ht, Hconf. cbn -[CheckStakeKernelHash].
    assert (CheckStakeKernelHash b nBits t txPrev (prevout txin) (nTime tx) =
            Ok (hashProof, getuint256 (SetCompact nBits * nValue value))) as ->; [|done].
    apply CheckStakeKernelHash_Ok. cbv zeta. rewrite (nth_lookup_Some _ _ _ _ Hv), <- H3. done.
Qed.

(** ** Witnesses *)

#[local] Instance flat_hashes : ScriptHashes := {
  h_ripemd160 := fun v => v; h_sha1 := fun v => v; h_sha256 := fun v => v; h_hash160 := fun v => v;
  h_hash256 := fun v => take 32 v }.
#[local] Instance yes_ecdsa : ECDSA := {
  pubkey_Verify := fun _ _ _ => true; pubkey_CheckLowS := fun _ => true }.

Definition toy_chain : chain :=
  [toy_block 1000 0x1d012345 3; toy_block 900 0x1d012345 2;
   {| bi_hash := 1; bi_nFile := 1; bi_nBlockPos := 1; bi_nChainTrust := 0; bi_nHeight := 1;
      bi_nMint := 0; bi_nMoneySupply := 0; bi_nFlags := 7; bi_nStakeModifier := 11; bi_bnStakeModifierV2 := 0;
      bi_prevoutStake := null_outpoint; bi_nStakeTime := 0; bi_hashProof := 0; bi_nVersion := 7;
      bi_hashMerkleRoot := 0; bi_nTime := 10; bi_nBits := 0x1d012345; bi_nNonce := 0 |}].

Definition toy_index_map : gmap Z CBlockIndex := list_to_map (map (fun b => (bi_hash b, b)) toy_chain).

Lemma SelectBlockFromCandidates_min_witness :
  exists b, SelectBlockFromCandidates toy_index_map [(900, 2); (1000, 3)] {[2]} 950 11 = Ok b /\
    available toy_index_map [(900, 2); (1000, 3)] {[2]} b /\
    forall b', available toy_index_map [(900, 2); (1000, 3)] {[2]} b' -> GetBlockTime b' <= 950 ->
      selection_hash 11 b <= selection_hash 11 b'.
Proof.
  apply (SelectBlockFromCandidates_min _ _ _ _ _ (toy_block 1000 0x1d012345 3)).
  - repeat constructor; eexists; (split; [vm_compute; reflexivity|done]).
  - repeat constructor.
  - exists (1000, 3). split; [decide_now|]. split; [vm_compute; reflexivity|]. split; [done|decide_now].
Defined.

Lemma ComputeNextStakeModifier_total_witness :
  exists m' f, ComputeNextStakeModifier toy_index_map toy_chain = Ok (m', f) /\ 0 <= m' < 2 ^ 64 /\
    (f = false -> m' = 11).
Proof.
  apply (ComputeNextStakeModifier_total _ _ 11 10); [|decide_now|done|lia].
  repeat constructor; vm_compute; reflexivity.
Defined.

(** A coinstake spending an output of value 100 with an empty script that
    leaves true, and the block time of the output. *)
Definition toy_kernel_prev : CTransaction := {|
  nVersion := 1; nTime := 1000; vin := [];
  vout := [{| nValue := 7; scriptPubKey := [0x51] |}; {| nValue := 100; scriptPubKey := [0x51] |}]; nLockTime := 0 |}.
Definition toy_coinstake : CTransaction := {|
  nVersion := 1; nTime := 9008;
  vin := [{| prevout := {| prevout_hash := tx_GetHash toy_kernel_prev; prevout_n := 1 |};
             scriptSig := []; nSequence := 0 |}];
  vout := [empty_txout; {| nValue := 110; scriptPubKey := [0x51] |}]; nLockTime := 0 |}.
Definition toy_kernel_db : tx_db :=
  {[ tx_GetHash toy_kernel_prev := new_txindex {| nFile := 9; nBlockPos := 9; nTxPos := 9 |} 2 ]}.
Definition toy_proof : Z := uint256_of (le_encode 32 0).

(** The same coin in the second block of the chain. *)
Definition toy_recent_db : tx_db :=
  {[ tx_GetHash toy_kernel_prev := new_txindex {| nFile := 1; nBlockPos := 2; nTxPos := 9 |} 2 ]}.

Lemma toy_chain_numbered : numbered toy_chain.
Proof. exists 3. by intros [|[|[|i]]] b [= <-]. Qed.

(** The coinstake is accepted, and refused when the coin is in the chain. *)
Lemma CheckProofOfStake_spec_witness :
  valid_kernel (fun _ => Some toy_kernel_prev) (fun _ _ => Some 1000) toy_kernel_db toy_chain toy_coinstake
    0x207fffff toy_proof /\
  ~ valid_kernel (fun _ => Some toy_kernel_prev) (fun _ _ => Some 1000) toy_recent_db toy_chain toy_coinstake
    0x207fffff toy_proof.
Proof.
  split.
  - apply CheckProofOfStake_spec; [decide_now|exact toy_chain_numbered|].
    exists (getuint256 (SetCompact 0x207fffff * 100)). vm_compute. reflexivity.
  - intros H. apply CheckProofOfStake_spec in H as [target H]; [|decide_now|exact toy_chain_numbered]. vm_compute in H. discriminate H.
Defined.
