(* ===== verification/Standard.v ===== *)
(** * Standard scripts: [script/standard.cpp]

    The templates of standard output scripts, their recognition by [Solver]
    and the destinations they pay to. *)

From S2P Require Import Prelude Opcode ScriptNum Script Interp SigHash.
From stdpp Require Import strings.

Local Open Scope Z_scope.

Definition MAX_OP_RETURN_RELAY : Z := 40.

(** [enum txnouttype] of [policy/policy.h] *)
Inductive txnouttype : Type :=
  | TX_NONSTANDARD | TX_PUBKEY | TX_PUBKEYHASH | TX_SCRIPTHASH | TX_MULTISIG | TX_NULL_DATA.

#[export] Instance txnouttype_eq_dec : EqDecision txnouttype.
Proof. solve_decision. Defined.

(** [GetTxnOutputType] *)
Definition GetTxnOutputType (t : txnouttype) : string :=
  match t with
  | TX_NONSTANDARD => "nonstandard"
  | TX_PUBKEY => "pubkey"
  | TX_PUBKEYHASH => "pubkeyhash"
  | TX_SCRIPTHASH => "scripthash"
  | TX_MULTISIG => "multisig"
  | TX_NULL_DATA => "nulldata"
  end.

(** ** Solver *)

(** [mTemplates], in the order of the multimap. *)
Definition mTemplates : list (txnouttype * list Z) := [
  (TX_PUBKEY, push_op OP_CHECKSIG (push_op OP_PUBKEY []));
  (TX_PUBKEYHASH, push_op OP_CHECKSIG (push_op OP_EQUALVERIFY (push_op OP_PUBKEYHASH
                    (push_op OP_HASH160 (push_op OP_DUP [])))));
  (TX_MULTISIG, push_op OP_CHECKMULTISIG (push_op OP_SMALLINTEGER (push_op OP_PUBKEYS (push_op OP_SMALLINTEGER []))));
  (TX_NULL_DATA, push_op OP_SMALLDATA (push_op OP_RETURN []));
  (TX_NULL_DATA, push_op OP_RETURN [])
].

Definition key_sized (vch : valtype) : bool := (33 <=? zlen vch) && (zlen vch <=? 120).

(** The chain of tests on a pair of instructions: what is appended to
    [vSolutionsRet], or [None] for [break]. *)
Definition match_op (opcode1 : opcodetype) (vch1 : valtype) (opcode2 : opcodetype) (vch2 : valtype)
    : option (list valtype) :=
  if op_eqb opcode2 OP_PUBKEY then
    if negb (key_sized vch1) then None else Some [vch1]
  else if op_eqb opcode2 OP_PUBKEYHASH then
    if negb (zlen vch1 =? 20) then None else Some [vch1]
  else if op_eqb opcode2 OP_SMALLINTEGER then
    if op_eqb opcode1 OP_0 || (op_leb OP_1 opcode1 && op_leb opcode1 OP_16) then
      match DecodeOP_N (E := unit) opcode1 with Ok n => Some [[n]] | _ => None end
    else None
  else if op_eqb opcode2 OP_SMALLDATA then
    if MAX_OP_RETURN_RELAY <? zlen vch1 then None else Some []
  else if negb (op_eqb opcode1 opcode2) || negb (bool_decide (vch1 = vch2)) then None
  else Some [].

(** The loop collecting keys for OP_PUBKEYS. *)
Fixpoint pubkeys_loop (fuel : nat) (opcode1 : opcodetype) (vch1 : valtype) (pc1 : list Z)
    (vSolutionsRet : list valtype) : opcodetype * valtype * list Z * list valtype :=
  match fuel with
  | O => (opcode1, vch1, pc1, vSolutionsRet)
  | S fuel =>
    if key_sized vch1 then
      let g := GetOp2 pc1 in
      if go_ok g then pubkeys_loop fuel (go_opcode g) (go_data g) (go_pc g) (vSolutionsRet ++ [vch1])
      else (go_opcode g, go_data g, go_pc g, vSolutionsRet ++ [vch1])
    else (opcode1, vch1, pc1, vSolutionsRet)
  end.

(** The comparison of a script with a template. *)
Fixpoint match_template (fuel : nat) (pc1 pc2 : list Z) (vSolutionsRet : list valtype) : option (list valtype) :=
  match pc1, pc2 with
  | [], [] => Some vSolutionsRet
  | _, _ =>
    match fuel with
    | O => None
    | S fuel =>
      let g1 := GetOp2 pc1 in
      let g2 := GetOp2 pc2 in
      if negb (go_ok g1) then None
      else if negb (go_ok g2) then None
      else if op_eqb (go_opcode g2) OP_PUBKEYS then
        let '(opcode1, vch1, pc1, vSolutionsRet) :=
          pubkeys_loop (S (length (go_pc g1))) (go_opcode g1) (go_data g1) (go_pc g1) vSolutionsRet in
        let g2 := GetOp2 (go_pc g2) in
        if negb (go_ok g2) then None
        else match match_op opcode1 vch1 (go_opcode g2) (go_data g2) with
             | None => None
             | Some new => match_template fuel pc1 (go_pc g2) (vSolutionsRet ++ new)
             end
      else match match_op (go_opcode g1) (go_data g1) (go_opcode g2) (go_data g2) with
           | None => None
           | Some new => match_template fuel (go_pc g1) (go_pc g2) (vSolutionsRet ++ new)
           end
    end
  end.

(** [vSolutionsRet.front()[0]] and [vSolutionsRet.back()[0]] *)
Definition front0 (l : list valtype) : Z := byte_at (hd [] l) 0.
Definition back0 (l : list valtype) : Z := byte_at (List.last l []) 0.

Definition bad_multisig (vSolutionsRet : list valtype) : bool :=
  let m := front0 vSolutionsRet in
  let n := back0 vSolutionsRet in
  (m <? 1) || (n <? 1) || (n <? m) || negb (zlen vSolutionsRet - 2 =? n).

(** The scan; every round of [match_template] reads an instruction of the
    template, so the length of the template is fuel enough. *)
Fixpoint scan_templates (templates : list (txnouttype * list Z)) (script1 : list Z)
    : bool * txnouttype * list valtype :=
  match templates with
  | [] => (false, TX_NONSTANDARD, [])
  | (t, script2) :: templates =>
    match match_template (S (length script2)) script1 script2 [] with
    | Some vSolutionsRet =>
      match t with
      | TX_MULTISIG =>
        if bad_multisig vSolutionsRet then (false, t, vSolutionsRet) else (true, t, vSolutionsRet)
      | _ => (true, t, vSolutionsRet)
      end
    | None => scan_templates templates script1
    end
  end.

(** [Solver(scriptPubKey, typeRet, vSolutionsRet)]: the result and both
    outputs. *)
Definition Solver (scriptPubKey : list Z) : bool * txnouttype * list valtype :=
  if IsPayToScriptHash scriptPubKey then (true, TX_SCRIPTHASH, [take 20 (drop 2 scriptPubKey)])
  else scan_templates mTemplates scriptPubKey.

(** ** Destinations *)

(** [CTxDestination]; the identifiers are the 20 bytes of a [uint160]. *)
Inductive CTxDestination : Type :=
  | CNoDestination
  | CKeyID (id : valtype)
  | CScriptID (id : valtype)
  | CStealthAddress.

Section destinations.
Context {SH : ScriptHashes}.

(** [CPubKey(vch).GetID()]; an invalid key has size 0. *)
Definition CPubKey_GetID (vch : valtype) : valtype :=
  h_hash160 (match CPubKey_of vch with Some key => key | None => [] end).

(** [ExtractDestination]: [None] is false. *)
Definition ExtractDestination (scriptPubKey : list Z) : option CTxDestination :=
  match Solver scriptPubKey with
  | (true, TX_PUBKEY, vSolutions) => Some (CKeyID (CPubKey_GetID (nth 0 vSolutions [])))
  | (true, TX_PUBKEYHASH, vSolutions) => Some (CKeyID (nth 0 vSolutions []))
  | (true, TX_SCRIPTHASH, vSolutions) => Some (CScriptID (nth 0 vSolutions []))
  | _ => None
  end.

(** [ExtractDestinations]: the type, the addresses and the number of
    signatures required. *)
Definition ExtractDestinations (scriptPubKey : list Z) : option (txnouttype * list CTxDestination * Z) :=
  match Solver scriptPubKey with
  | (false, _, _) => None
  | (true, typeRet, vSolutions) =>
    match typeRet with
    | TX_NULL_DATA => None
    | TX_MULTISIG =>
      Some (typeRet, map (fun k => CKeyID (CPubKey_GetID k)) (removelast (tl vSolutions)), front0 vSolutions)
    | _ =>
      match ExtractDestination scriptPubKey with
      | None => None
      | Some address => Some (typeRet, [address], 1)
      end
    end
  end.
End destinations.

(** [operator<<(const uint160&)] *)
Definition push_uint160 (b : valtype) (s : list Z) : list Z := s ++ [20] ++ b.

(** [CScriptVisitor] and [GetScriptForDestination] *)
Definition GetScriptForDestination (dest : CTxDestination) : list Z :=
  match dest with
  | CNoDestination => []
  | CKeyID keyID =>
    push_op OP_CHECKSIG (push_op OP_EQUALVERIFY (push_uint160 keyID (push_op OP_HASH160 (push_op OP_DUP []))))
  | CScriptID scriptID => push_op OP_EQUAL (push_uint160 scriptID (push_op OP_HASH160 []))
  | CStealthAddress => []
  end.

(** [GetScriptForRawPubKey] *)
Definition GetScriptForRawPubKey (pubKey : valtype) : list Z := push_op OP_CHECKSIG (push_data pubKey).

(** [GetScriptForMultisig] *)
Definition GetScriptForMultisig {E} (nRequired : Z) (keys : list valtype) : outcome E (list Z) :=
  m ← EncodeOP_N nRequired;
  n ← EncodeOP_N (zlen keys);
  mret (push_op OP_CHECKMULTISIG (push_op n (foldl (fun script key => script ++ push_data key) (push_op m []) keys))).
