(* ===== verification/StandardProps.v ===== *)
(** * Properties of standard scripts

    The scripts [Solver] recognises, as instruction sequences, and the round
    trips between destinations and scripts. *)

From S2P Require Import Prelude Opcode ScriptNum Script ScriptFacts Interp SigHash Standard.

Local Open Scope Z_scope.

(** ** Instruction sequences *)

(** [reads pc l tl]: from [pc], [GetOp] reads the opcodes and data [l] and
    stands at [tl] then. *)
Inductive reads : list Z -> list (opcodetype * valtype) -> list Z -> Prop :=
| reads_nil pc : reads pc [] pc
| reads_cons c op d pc l tl : instr c op d -> reads pc l tl -> reads (c ++ pc) ((op, d) :: l) tl.

Lemma reads_cons_inv s op d l tl :
  reads s ((op, d) :: l) tl -> exists c pc, s = c ++ pc /\ instr c op d /\ reads pc l tl.
Proof. intros H. inversion H; subst. eauto. Qed.

Lemma reads_nil_inv s tl : reads s [] tl -> s = tl.
Proof. by inversion 1. Qed.

Lemma reads_app s l1 mid l2 tl : reads s l1 mid -> reads mid l2 tl -> reads s (l1 ++ l2) tl.
Proof. induction 1; cbn; [done|]. intros. constructor; auto. Qed.

Lemma reads_app_inv s l1 l2 tl : reads s (l1 ++ l2) tl -> exists mid, reads s l1 mid /\ reads mid l2 tl.
Proof.
  revert s. induction l1 as [|[op d] l1 IH]; cbn; intros s H; [eexists; split; [constructor|done]|].
  apply reads_cons_inv in H as (c & pc & -> & Hi & H). destruct (IH _ H) as (mid & H1 & H2).
  exists mid. split; [by constructor|done].
Qed.

Lemma reads_push_op s l o :
  0x4e < op_code o -> opcode_of_byte (op_code o) = o -> reads s l [] -> reads (push_op o s) (l ++ [(o, [])]) [].
Proof.
  intros Ho E H. unfold push_op.
  assert (forall s l tl, reads s l tl -> reads (s ++ [op_code o]) l (tl ++ [op_code o])) as Hext.
  { clear. induction 1; [constructor|]. rewrite <-app_assoc. by constructor. }
  eapply reads_app; [by apply Hext|]. cbn. apply (reads_cons [op_code o]); [|constructor].
  rewrite <-E at 2. by apply opcode_instr.
Qed.

Lemma reads_push_data s l b :
  zlen b < 2 ^ 32 -> reads s l [] -> reads (s ++ push_data b) (l ++ [(push_opcode b, b)]) [].
Proof.
  intros Hb H.
  assert (forall s l tl, reads s l tl -> reads (s ++ push_data b) l (tl ++ push_data b)) as Hext.
  { clear. induction 1; [constructor|]. rewrite <-app_assoc. by constructor. }
  eapply reads_app; [by apply Hext|]. cbn. rewrite <-(app_nil_r (push_data b)).
  constructor; [by apply push_data_instr|constructor].
Qed.

Lemma instr_length c op d : instr c op d -> (0 < length c)%nat.
Proof. intros [Hne _]. destruct c; [done|cbn; lia]. Qed.

(** What an instruction tells about its opcode and data. *)
Lemma instr_opcode c op d : instr c op d -> op = opcode_of_byte (op_code op).
Proof.
  intros [Hne H]. specialize (H []). unfold GetOp2 in H. rewrite app_nil_r in H.
  destruct c as [|b c]; [done|]. repeat case_match; try discriminate H; injection H as <- _ _; by rewrite op_code_of_byte.
Qed.

Lemma instr_no_data c op d : instr c op d -> op_code op = 0 \/ 0x4e < op_code op -> d = [].
Proof.
  intros [Hne H] Hop. specialize (H []). unfold GetOp2 in H. rewrite app_nil_r in H.
  destruct c as [|b c]; [done|]. destruct (Z.leb_spec b 0x4e).
  - destruct (push_size b c) as [[n pc]|] eqn:Hp; [|done]. destruct (zlen pc <? n); [done|].
    injection H as <- <- _. rewrite op_code_of_byte in Hop. destruct Hop as [->|]; [|lia].
    injection Hp as <- <-. done.
  - by injection H as _ <- _.
Qed.

(** The opcodes [GetOp] returns are told apart by their bytes. *)
Definition canonical_op (op : opcodetype) : Prop := op = opcode_of_byte (op_code op).

Lemma canonical_op_eqb op o : canonical_op op -> op_eqb op o = true -> canonical_op o -> op = o.
Proof. intros H E Ho. rewrite H, Ho. f_equal. unfold op_eqb in E. lia. Qed.

Lemma reads_canonical s l tl : reads s l tl -> Forall (fun x => canonical_op x.1) l.
Proof. induction 1; constructor; [|done]. by eapply instr_opcode. Qed.

Lemma reads_no_data s op d l tl :
  reads s ((op, d) :: l) tl -> op_code op = 0 \/ 0x4e < op_code op -> d = [].
Proof. intros (c & pc & _ & Hi & _)%reads_cons_inv. by eapply instr_no_data. Qed.

(** ** Matching *)

Definition plain (b : Z) : Prop := 0x4e < b /\ op_eqb (opcode_of_byte b) OP_PUBKEYS = false.

Lemma match_template_instr fuel c op d pc b t acc :
  instr c op d -> plain b ->
  match_template (S fuel) (c ++ pc) (b :: t) acc =
    match match_op op d (opcode_of_byte b) [] with
    | None => None
    | Some new => match_template fuel pc t (acc ++ new)
    end.
Proof.
  intros Hi [Hb Hp]. assert (GetOp2 (b :: t) = GetOpRes true (opcode_of_byte b) [] t) as Hg.
  { cbn. by rewrite (proj2 (Z.leb_gt b 0x4e) Hb). }
  cbn -[GetOp2]. rewrite (instr_GetOp2 _ _ _ _ Hi), Hg. cbn -[GetOp2]. rewrite Hp.
  by destruct (c ++ pc).
Qed.

Lemma match_template_stop fuel pc b t acc :
  go_ok (GetOp2 pc) = false -> match_template (S fuel) pc (b :: t) acc = None.
Proof. intros H. cbn -[GetOp2]. rewrite H. by destruct pc. Qed.

Lemma match_template_end fuel pc acc sols :
  match_template fuel pc [] acc = Some sols <-> pc = [] /\ sols = acc.
Proof.
  destruct pc as [|b pc], fuel; cbn -[GetOp2]; try (split; [done|by intros [? _]]).
  1,2: by split; [intros [= <-]|intros [_ ->]].
  destruct (negb _); cbn; split; done || by intros [? _].
Qed.

(** The rounds of the matching of a plain opcode, as an equivalence. *)
Lemma match_template_step fuel pc b t acc sols :
  plain b ->
  match_template (S fuel) pc (b :: t) acc = Some sols <->
  exists c op d pc' new, pc = c ++ pc' /\ instr c op d /\
    match_op op d (opcode_of_byte b) [] = Some new /\ match_template fuel pc' t (acc ++ new) = Some sols.
Proof.
  intros Hb. split.
  - destruct (go_ok (GetOp2 pc)) eqn:Hok; [|by rewrite match_template_stop].
    destruct (GetOp2_instr _ Hok) as (c & Hpc & Hi). rewrite Hpc at 1. rewrite (match_template_instr _ _ _ _ _ _ _ _ Hi Hb).
    destruct (match_op _ _ _ _) as [new|] eqn:Hm; [|done]. intros H. by exists c, (go_opcode (GetOp2 pc)), (go_data (GetOp2 pc)), (go_pc (GetOp2 pc)), new.
  - intros (c & op & d & pc' & new & -> & Hi & Hm & H).
    by rewrite (match_template_instr _ _ _ _ _ _ _ _ Hi Hb), Hm.
Qed.

Definition small_int (op : opcodetype) (n : Z) : Prop :=
  (op = OP_0 /\ n = 0) \/ (op_code op = 0x50 + n /\ 1 <= n <= 16).

Lemma match_op_pubkey op d new : match_op op d OP_PUBKEY [] = Some new <-> key_sized d = true /\ new = [d].
Proof. unfold match_op. cbn. destruct (key_sized d); cbn; split; naive_solver. Qed.

Lemma match_op_pubkeyhash op d new : match_op op d OP_PUBKEYHASH [] = Some new <-> zlen d = 20 /\ new = [d].
Proof. unfold match_op. cbn. destruct (Z.eqb_spec (zlen d) 20); cbn; split; naive_solver. Qed.

Lemma match_op_smalldata op d new : match_op op d OP_SMALLDATA [] = Some new <-> zlen d <= 40 /\ new = [].
Proof.
  unfold match_op, MAX_OP_RETURN_RELAY. cbn. destruct (Z.ltb_spec 40 (zlen d)); split; [done|lia| |]; naive_solver.
Qed.

Lemma match_op_smallint op d new :
  canonical_op op ->
  match_op op d OP_SMALLINTEGER [] = Some new <-> exists n, small_int op n /\ new = [[n]].
Proof.
  intros Hi. unfold match_op, small_int. change (op_eqb OP_SMALLINTEGER OP_PUBKEY) with false.
  change (op_eqb OP_SMALLINTEGER OP_PUBKEYHASH) with false. change (op_eqb OP_SMALLINTEGER OP_SMALLINTEGER) with true.
  cbn match. unfold DecodeOP_N, op_leb. change (op_code OP_1) with 0x51. change (op_code OP_16) with 0x60.
  destruct (op_eqb op OP_0) eqn:E0; cbn [orb mret outcome_ret].
  - rewrite (canonical_op_eqb _ _ Hi E0 eq_refl). cbn. split; [intros [= <-]; exists 0; naive_solver|].
    intros (n & [[_ ->]|[? ?]] & ->); [done|lia].
  - destruct ((0x51 <=? op_code op) && (op_code op <=? 0x60)) eqn:E; cbn -[Z.sub].
    + split; [intros [= <-]; exists (op_code op - 80); split; [right; lia|done]|].
      intros (n & [[-> _]|[Hn ?]] & ->); [done|]. do 3 f_equal. lia.
    + split; [done|]. intros (n & [[-> _]|[Hn ?]] & ->); [done|lia].
Qed.

Lemma match_op_exact op d o new :
  canonical_op op -> canonical_op o -> (0x61 <= op_code o <= 0xaf) ->
  match_op op d o [] = Some new <-> op = o /\ d = [] /\ new = [].
Proof.
  intros Hi Ho Hr. unfold match_op.
  assert (op_eqb o OP_PUBKEY = false /\ op_eqb o OP_PUBKEYHASH = false /\ op_eqb o OP_SMALLINTEGER = false /\
          op_eqb o OP_SMALLDATA = false) as (-> & -> & -> & ->) by (unfold op_eqb; cbn; lia).
  destruct (op_eqb op o) eqn:E; cbn.
  - rewrite (canonical_op_eqb _ _ Hi E Ho). case_bool_decide; cbn; split; naive_solver.
  - split; [done|]. intros (-> & _). unfold op_eqb in E. lia.
Qed.

(** ** The keys of a multisig script *)

Lemma pubkeys_loop_reads fuel c op vch pc acc :
  (length pc < fuel)%nat -> instr c op vch ->
  let '(op', vch', pc', acc') := pubkeys_loop fuel op vch pc acc in
  op' = OP_INVALIDOPCODE \/
  exists keys, acc' = acc ++ keys.*2 /\ Forall (fun k => key_sized k.2 = true) keys /\ key_sized vch' = false /\
    reads (c ++ pc) (keys ++ [(op', vch')]) pc'.
Proof.
  revert c op vch pc acc. induction fuel as [|fuel IH]; intros c op vch pc acc Hf Hi; [lia|]. cbn [pubkeys_loop].
  destruct (key_sized vch) eqn:Hk.
  - destruct (go_ok (GetOp2 pc)) eqn:Hok.
    + pose proof (GetOp2_shorter _ Hok) as Hlt. destruct (GetOp2_instr _ Hok) as (c2 & Hpc & Hi2).
      specialize (IH c2 _ _ (go_pc (GetOp2 pc)) (acc ++ [vch]) ltac:(lia) Hi2). rewrite <-Hpc in IH.
      destruct (pubkeys_loop _ _ _ _ _) as [[[op' vch'] pc'] acc']. destruct IH as [?|(keys & -> & Hks & Hv & Hr)]; [by left|].
      right. exists ((op, vch) :: keys). rewrite <-app_assoc. split; [done|]. split; [by constructor|].
      split; [done|]. cbn. by constructor.
    + left. unfold GetOp2 in *. repeat case_match; done.
  - right. exists []. rewrite app_nil_r. split; [done|]. split; [done|]. split; [done|]. constructor; [done|constructor].
Qed.

Lemma pubkeys_loop_complete fuel c op vch pc acc keys op' vch' pc' :
  (length pc < fuel)%nat -> instr c op vch -> key_sized vch' = false ->
  Forall (fun k => key_sized k.2 = true) keys -> reads (c ++ pc) (keys ++ [(op', vch')]) pc' ->
  pubkeys_loop fuel op vch pc acc = (op', vch', pc', acc ++ keys.*2).
Proof.
  revert c op vch pc acc keys. induction fuel as [|fuel IH]; intros c op vch pc acc keys Hf Hi Hv Hk Hr; [lia|].
  cbn [pubkeys_loop]. destruct keys as [|[op1 k1] keys]; cbn in Hr |- *;
    apply reads_cons_inv in Hr as (c1 & pc1 & E & Hi1 & Hr);
    destruct (instr_det _ _ _ _ _ _ _ _ Hi Hi1 E) as [<- <-];
    pose proof (instr_GetOp2 _ _ _ pc Hi) as G1; rewrite (instr_GetOp2 _ _ _ pc Hi1) in G1; injection G1 as -> ->.
  - rewrite Hv. apply reads_nil_inv in Hr as ->. by rewrite app_nil_r.
  - apply Forall_cons in Hk as [Hk1 Hk]. cbn in Hk1. rewrite Hk1.
    assert (exists c2 pc2 op2 d2, pc = c2 ++ pc2 /\ instr c2 op2 d2) as (c2 & pc2 & op2 & d2 & -> & Hi2).
    { destruct keys as [|[op2 k2] keys]; cbn in Hr; apply reads_cons_inv in Hr as (c2 & pc2 & -> & Hi2 & _);
        exists c2, pc2; eauto. }
    rewrite (instr_GetOp2 _ _ _ _ Hi2). cbn. rewrite length_app in Hf.
    pose proof (instr_length _ _ _ Hi2). assert (length pc2 < fuel)%nat by lia.
    rewrite (IH c2 op2 d2 pc2 (acc ++ [vch]) keys) by done. by rewrite <-app_assoc.
Qed.

(** ** The templates *)

(** The solutions of instructions against a template of plain opcodes. *)
Fixpoint ops_match (l : list (opcodetype * valtype)) (t : list Z) : option (list valtype) :=
  match l, t with
  | [], [] => Some []
  | (op, d) :: l, b :: t => new ← match_op op d (opcode_of_byte b) []; news ← ops_match l t; Some (new ++ news)
  | _, _ => None
  end.

Lemma match_template_plain s t acc sols :
  Forall plain t ->
  match_template (S (length t)) s t acc = Some sols <->
  exists l new, reads s l [] /\ ops_match l t = Some new /\ sols = acc ++ new.
Proof.
  intros Ht. revert s acc. induction Ht as [|b t Hb Ht IH]; intros s acc.
  - rewrite match_template_end. split.
    + intros [-> ->]. exists [], []. rewrite app_nil_r. split; [constructor|done].
    + intros ([|[]] & new & Hr & [= <-] & ->). rewrite app_nil_r. by apply reads_nil_inv in Hr.
  - cbn [length]. rewrite match_template_step by done. setoid_rewrite IH. split.
    + intros (c & op & d & pc & new & -> & Hi & Hm & l & news & Hr & Hl & ->).
      exists ((op, d) :: l), (new ++ news). split; [by constructor|]. cbn. rewrite Hm. cbn. rewrite Hl, app_assoc. done.
    + intros ([|[op d] l] & news & Hr & Hm & ->); [done|]. cbn in Hm.
      apply bind_Some in Hm as (new & Hm & (news' & Hl & [= <-])%bind_Some).
      apply reads_cons_inv in Hr as (c & pc & -> & Hi & Hr).
      exists c, op, d, pc, new. split_and!; [done..|]. exists l, news'. by rewrite app_assoc.
Qed.

Lemma ops_match_cons l b t news :
  ops_match l (b :: t) = Some news <->
  exists op d l' new news', l = (op, d) :: l' /\ match_op op d (opcode_of_byte b) [] = Some new /\
    ops_match l' t = Some news' /\ news = new ++ news'.
Proof.
  destruct l as [|[op d] l]; cbn; [split; [done|naive_solver]|].
  rewrite bind_Some. setoid_rewrite bind_Some. naive_solver.
Qed.

Lemma ops_match_nil l news : ops_match l [] = Some news <-> l = [] /\ news = [].
Proof. destruct l as [|[]]; cbn; naive_solver. Qed.

Lemma match_template_pubkeys_eq fuel c op d pc t acc :
  instr c op d ->
  match_template (S fuel) (c ++ pc) (0xfb :: 0xfa :: t) acc =
    let '(op', vch', pc', acc') := pubkeys_loop (S (length pc)) op d pc acc in
    match match_op op' vch' OP_SMALLINTEGER [] with
    | None => None
    | Some new => match_template fuel pc' t (acc' ++ new)
    end.
Proof.
  intros Hi. cbn [match_template]. rewrite (instr_GetOp2 _ _ _ _ Hi).
  change (GetOp2 (0xfb :: 0xfa :: t)) with (GetOpRes true OP_PUBKEYS [] (0xfa :: t)).
  cbn [go_ok go_opcode go_data go_pc negb]. change (op_eqb OP_PUBKEYS OP_PUBKEYS) with true.
  change (GetOp2 (0xfa :: t)) with (GetOpRes true OP_SMALLINTEGER [] t). cbn [go_ok go_opcode go_data go_pc negb].
  by destruct (c ++ pc).
Qed.

Lemma match_template_pubkeys fuel pc t acc sols :
  match_template (S fuel) pc (0xfb :: 0xfa :: t) acc = Some sols <->
  exists keys op d pc' n, reads pc (keys ++ [(op, d)]) pc' /\ Forall (fun k => key_sized k.2 = true) keys /\
    small_int op n /\ match_template fuel pc' t (acc ++ keys.*2 ++ [[n]]) = Some sols.
Proof.
  split.
  - destruct (go_ok (GetOp2 pc)) eqn:Hok; [|by rewrite match_template_stop].
    destruct (GetOp2_instr _ Hok) as (c & Hpc & Hi). intros H.
    rewrite Hpc, (match_template_pubkeys_eq _ _ _ _ _ _ _ Hi) in H.
    pose proof (pubkeys_loop_reads (S (length (go_pc (GetOp2 pc)))) _ _ _ _ acc (Nat.lt_succ_diag_r _) Hi) as Hl.
    rewrite <-Hpc in Hl. destruct (pubkeys_loop _ _ _ _ _) as [[[op' vch'] pc'] acc'].
    destruct Hl as [->|(keys & -> & Hks & _ & Hr)]; [done|].
    pose proof (reads_canonical _ _ _ Hr) as Hcan. apply Forall_app in Hcan as [_ [Hop _]%Forall_cons].
    destruct (match_op op' vch' OP_SMALLINTEGER []) as [new|] eqn:Hm; [|done].
    apply (match_op_smallint _ _ _ Hop) in Hm as (n & Hn & ->).
    exists keys, op', vch', pc', n. by rewrite app_assoc.
  - intros (keys & op & d & pc' & n & Hr & Hk & Hn & H).
    pose proof (reads_canonical _ _ _ Hr) as [_ [Hop _]%Forall_cons]%Forall_app. cbn in Hop.
    assert (d = []) as ->.
    { apply reads_app_inv in Hr as (mid & _ & Hr). apply (reads_no_data _ _ _ _ _ Hr).
      destruct Hn as [[-> _]|[? ?]]; [by left|right; lia]. }
    assert (exists c op1 d1 pc1, pc = c ++ pc1 /\ instr c op1 d1) as (c & op1 & d1 & pc1 & -> & Hi).
    { destruct keys as [|[op2 k2] keys]; cbn in Hr; apply reads_cons_inv in Hr as (c & pc2 & -> & Hi & _);
        eexists c, _, _, pc2; (split; [reflexivity|exact Hi]). }
    rewrite (match_template_pubkeys_eq _ _ _ _ _ _ _ Hi).
    rewrite (pubkeys_loop_complete _ c op1 d1 pc1 acc keys op [] pc') by (done || lia).
    rewrite (proj2 (match_op_smallint op [] [[n]] Hop)) by eauto. by rewrite <-app_assoc.
Qed.

(** ** Standard scripts *)

(** The scripts [Solver] accepts, as instruction sequences: the type and the
    solutions. *)
Inductive standard : list Z -> txnouttype -> list valtype -> Prop :=
| standard_scripthash h :
    zlen h = 20 -> standard (GetScriptForDestination (CScriptID h)) TX_SCRIPTHASH [h]
| standard_pubkey s o key :
    reads s [(o, key); (OP_CHECKSIG, [])] [] -> key_sized key = true -> standard s TX_PUBKEY [key]
| standard_pubkeyhash s o h :
    reads s [(OP_DUP, []); (OP_HASH160, []); (o, h); (OP_EQUALVERIFY, []); (OP_CHECKSIG, [])] [] ->
    zlen h = 20 -> standard s TX_PUBKEYHASH [h]
| standard_multisig s om m keys on :
    reads s ((om, []) :: keys ++ [(on, []); (OP_CHECKMULTISIG, [])]) [] ->
    Forall (fun k => key_sized k.2 = true) keys ->
    small_int om m -> small_int on (zlen keys) -> 1 <= m <= zlen keys ->
    standard s TX_MULTISIG ([m] :: keys.*2 ++ [[zlen keys]])
| standard_data s o d :
    reads s [(OP_RETURN, []); (o, d)] [] -> zlen d <= MAX_OP_RETURN_RELAY -> standard s TX_NULL_DATA []
| standard_null s :
    reads s [(OP_RETURN, [])] [] -> standard s TX_NULL_DATA [].

Lemma plain_reader (t : list Z) :
  forallb (fun b => (0x4e <? b) && negb (op_eqb (opcode_of_byte b) OP_PUBKEYS)) t = true -> Forall plain t.
Proof.
  intros H. apply Forall_forall. intros b Hb. apply forallb_forall with (x := b) in H; [|by apply list_elem_of_In].
  apply andb_prop in H as [H1 H2]. split; [lia|]. by apply negb_true_iff.
Qed.

#[local] Ltac ops_inv H :=
  repeat match type of H with
  | ops_match _ (_ :: _) = Some _ =>
    let Hm := fresh "Hm" in apply ops_match_cons in H as (? & ? & ? & ? & ? & -> & Hm & H & ->)
  | ops_match _ [] = Some _ => apply ops_match_nil in H as [-> ->]
  end.

#[local] Ltac solve_ops :=
  repeat match goal with
  | H : Forall _ (_ :: _) |- _ => apply Forall_cons in H as [? H]; cbn [fst] in *
  | H : match_op _ _ (opcode_of_byte 0xfe) [] = Some _ |- _ => apply match_op_pubkey in H as [? ->]
  | H : match_op _ _ (opcode_of_byte 0xfd) [] = Some _ |- _ => apply match_op_pubkeyhash in H as [? ->]
  | H : match_op _ _ (opcode_of_byte 0xf9) [] = Some _ |- _ => apply match_op_smalldata in H as [? ->]
  | H : match_op _ _ (opcode_of_byte 0xfa) [] = Some _ |- _ => apply match_op_smallint in H as (? & ? & ->); [|done]
  | H : match_op _ _ (opcode_of_byte _) [] = Some _ |- _ =>
    apply match_op_exact in H as (-> & -> & ->); [|done|done|cbn; lia]
  end.

Lemma match_pubkey s sols :
  match_template 3 s [0xfe; 0xac] [] = Some sols <->
  exists o key, reads s [(o, key); (OP_CHECKSIG, [])] [] /\ key_sized key = true /\ sols = [key].
Proof.
  rewrite (match_template_plain s [0xfe; 0xac]) by (by apply plain_reader). split.
  - intros (l & new & Hr & Hm & ->). ops_inv Hm. pose proof (reads_canonical _ _ _ Hr). solve_ops. eauto.
  - intros (o & key & Hr & Hk & ->). eexists _, [key]. split; [exact Hr|]. split; [|done].
    cbn [ops_match]. change (opcode_of_byte 0xfe) with OP_PUBKEY. by rewrite (proj2 (match_op_pubkey o key [key])).
Qed.

Lemma match_pubkeyhash s sols :
  match_template 6 s [0x76; 0xa9; 0xfd; 0x88; 0xac] [] = Some sols <->
  exists o h, reads s [(OP_DUP, []); (OP_HASH160, []); (o, h); (OP_EQUALVERIFY, []); (OP_CHECKSIG, [])] [] /\
    zlen h = 20 /\ sols = [h].
Proof.
  rewrite (match_template_plain s [0x76; 0xa9; 0xfd; 0x88; 0xac]) by (by apply plain_reader). split.
  - intros (l & new & Hr & Hm & ->). ops_inv Hm. pose proof (reads_canonical _ _ _ Hr). solve_ops. eauto.
  - intros (o & h & Hr & Hh & ->). eexists _, [h]. split; [exact Hr|]. split; [|done].
    cbn [ops_match]. change (opcode_of_byte 0xfd) with OP_PUBKEYHASH. by rewrite (proj2 (match_op_pubkeyhash o h [h])).
Qed.

Lemma match_data s sols :
  match_template 3 s [0x6a; 0xf9] [] = Some sols <->
  exists o d, reads s [(OP_RETURN, []); (o, d)] [] /\ zlen d <= MAX_OP_RETURN_RELAY /\ sols = [].
Proof.
  rewrite (match_template_plain s [0x6a; 0xf9]) by (by apply plain_reader). split.
  - intros (l & new & Hr & Hm & ->). ops_inv Hm. pose proof (reads_canonical _ _ _ Hr). solve_ops. eauto.
  - intros (o & d & Hr & Hd & ->). eexists _, []. split; [exact Hr|]. split; [|done].
    cbn [ops_match]. change (opcode_of_byte 0xf9) with OP_SMALLDATA. by rewrite (proj2 (match_op_smalldata o d [])).
Qed.

Lemma match_null s sols :
  match_template 2 s [0x6a] [] = Some sols <-> reads s [(OP_RETURN, [])] [] /\ sols = [].
Proof.
  rewrite (match_template_plain s [0x6a]) by (by apply plain_reader). split.
  - intros (l & new & Hr & Hm & ->). ops_inv Hm. pose proof (reads_canonical _ _ _ Hr). solve_ops. eauto.
  - intros (Hr & ->). eexists _, []. by split.
Qed.

Lemma small_int_no_data s op d l tl n : reads s ((op, d) :: l) tl -> small_int op n -> d = [].
Proof. intros Hr Hn. apply (reads_no_data _ _ _ _ _ Hr). destruct Hn as [[-> _]|[? ?]]; [by left|right; lia]. Qed.

Lemma match_multisig s sols :
  match_template 5 s [0xfa; 0xfb; 0xfa; 0xae] [] = Some sols <->
  exists om m keys on n, reads s ((om, []) :: keys ++ [(on, []); (OP_CHECKMULTISIG, [])]) [] /\
    Forall (fun k => key_sized k.2 = true) keys /\ small_int om m /\ small_int on n /\
    sols = [m] :: keys.*2 ++ [[n]].
Proof.
  rewrite match_template_step by done. setoid_rewrite match_template_pubkeys.
  setoid_rewrite (match_template_plain _ [0xae]); [|by apply plain_reader]. split.
  - intros (c & om & d & pc & new & -> & Hi & Hm & keys & on & dn & pc' & n & Hr & Hk & Hn & l & new' & Hr' & Hl & ->).
    assert (reads (c ++ pc) ((om, d) :: keys ++ [(on, dn)] ++ l) []) as Hall.
    { constructor; [done|]. rewrite app_assoc. by eapply reads_app. }
    assert (reads (c ++ pc) [(om, d)] pc) as H1 by (by constructor; [|constructor]).
    pose proof (reads_canonical _ _ _ Hall). solve_ops.
    assert (d = []) as -> by (by eapply small_int_no_data).
    assert (dn = []) as -> by (apply reads_app_inv in Hr as (mid & _ & Hr); by eapply small_int_no_data).
    pose proof (reads_canonical _ _ _ Hr'). ops_inv Hl. solve_ops.
    exists om, x, keys, on, n. by rewrite !app_nil_r.
  - intros (om & m & keys & on & n & Hr & Hk & Hm & Hn & ->).
    pose proof (reads_canonical _ _ _ Hr) as [Hom _]%Forall_cons. cbn in Hom.
    apply reads_cons_inv in Hr as (c & pc & -> & Hi & Hr).
    exists c, om, [], pc, [[m]]. split_and!; [done|done|by apply match_op_smallint; eauto|].
    change [(on, []); (OP_CHECKMULTISIG, [])] with ([(on, @nil Z)] ++ [(OP_CHECKMULTISIG, @nil Z)]) in Hr.
    rewrite app_assoc in Hr. apply reads_app_inv in Hr as (mid & Hr & Hr').
    exists keys, on, [], mid, n. split_and!; [done..|]. eexists _, []. split; [exact Hr'|]. by rewrite app_nil_r.
Qed.

(** ** Solver *)

(** Two readings of a script start with the same instruction. *)
Lemma reads_head s op d l tl op' d' l' tl' :
  reads s ((op, d) :: l) tl -> reads s ((op', d') :: l') tl' -> op = op' /\ d = d'.
Proof.
  intros (c & pc & -> & Hi & _)%reads_cons_inv (c' & pc' & E & Hi' & _)%reads_cons_inv.
  pose proof (instr_GetOp2 _ _ _ pc Hi) as G. rewrite E, (instr_GetOp2 _ _ _ pc' Hi') in G.
  by injection G as -> -> _.
Qed.

Lemma reads_p2sh h : zlen h = 20 -> exists l, reads (0xa9 :: push_data h ++ [0x87]) ((OP_HASH160, []) :: l) [].
Proof.
  intros Hh. exists [(push_opcode h, h); (OP_EQUAL, [])].
  apply (reads_cons [0xa9]); [by apply (opcode_instr 0xa9)|].
  constructor; [apply push_data_instr; lia|]. apply (reads_cons [0x87]); [by apply (opcode_instr 0x87)|constructor].
Qed.

Lemma p2sh_script h : zlen h = 20 -> GetScriptForDestination (CScriptID h) = 0xa9 :: push_data h ++ [0x87].
Proof. intros Hh. by rewrite zlen_push20. Qed.

Lemma Solver_p2sh h : zlen h = 20 ->
  Solver (GetScriptForDestination (CScriptID h)) = (true, TX_SCRIPTHASH, [h]).
Proof.
  intros Hh. rewrite p2sh_script by done. unfold Solver. rewrite IsPayToScriptHash_push by done.
  rewrite zlen_push20 by done. change (drop 2 _) with (h ++ [0x87]).
  rewrite take_app_length' by (unfold zlen in Hh; lia). done.
Qed.

Lemma not_p2sh s op d l tl : reads s ((op, d) :: l) tl -> op <> OP_HASH160 \/ d <> [] -> IsPayToScriptHash s = false.
Proof.
  intros Hr Hne. destruct (IsPayToScriptHash s) eqn:E; [|done].
  apply IsPayToScriptHash_shape in E as (h & Hh & ->). destruct (reads_p2sh h Hh) as [l' Hr'].
  destruct (reads_head _ _ _ _ _ _ _ _ _ Hr Hr') as [-> ->]. by destruct Hne.
Qed.

Lemma key_sized_nonempty d : key_sized d = true -> d <> [].
Proof. by intros H ->. Qed.

Lemma bad_multisig_spec m sols n :
  bad_multisig ([m] :: sols ++ [[n]]) = false <-> 1 <= m <= n /\ n = zlen sols.
Proof.
  unfold bad_multisig, front0, back0. change ([m] :: sols ++ [[n]]) with (([m] :: sols) ++ [[n]]).
  rewrite !last_snoc, zlen_app, zlen_cons. change (zlen [[n]]) with 1.
  change (byte_at (hd [] _) 0) with m. change (byte_at [n] 0) with n. lia.
Qed.

#[local] Ltac scan_head Hr :=
  match goal with
  | |- context [match_template ?f ?s ?t []] =>
    let E := fresh "E" in
    destruct (match_template f s t []) eqn:E;
    [ exfalso; first [apply match_pubkey in E as (? & ? & E & ?Hk & _)
      | apply match_pubkeyhash in E as (? & ? & E & _) | apply match_multisig in E as (? & ? & ? & ? & ? & E & _ & ?Hk & _)];
      destruct (reads_head _ _ _ _ _ _ _ _ _ Hr E) as [? ?]; simplify_eq;
      repeat match goal with H : small_int _ _ |- _ => destruct H as [[? ?]|[? ?]] end;
      simplify_eq; cbn in *; done || lia
    | clear E ]
  end.

Lemma zlen_snd (keys : list (opcodetype * valtype)) : zlen keys.*2 = zlen keys.
Proof. unfold zlen. by rewrite length_fmap. Qed.

Lemma Solver_complete s t sols : standard s t sols -> Solver s = (true, t, sols).
Proof.
  destruct 1 as [h Hh|s o key Hr Hk|s o h Hr Hh|s om m keys on Hr Hk Hm Hn Hmn|s o d Hr Hd|s Hr].
  - by apply Solver_p2sh.
  - unfold Solver. rewrite (not_p2sh _ _ _ _ _ Hr) by (right; by apply key_sized_nonempty).
    unfold mTemplates, push_op. cbn [app scan_templates length op_code].
    by rewrite (proj2 (match_pubkey s [key])) by eauto.
  - unfold Solver. rewrite (not_p2sh _ _ _ _ _ Hr) by (by left). unfold mTemplates, push_op. cbn [app scan_templates length op_code].
    scan_head Hr. by rewrite (proj2 (match_pubkeyhash s [h])) by eauto.
  - unfold Solver. rewrite (not_p2sh _ _ _ _ _ Hr) by (left; intros ->; destruct Hm as [[? ?]|[? ?]]; [done|cbn in *; lia]).
    unfold mTemplates, push_op. cbn [app scan_templates length op_code].
    scan_head Hr. scan_head Hr.
    rewrite (proj2 (match_multisig s ([m] :: keys.*2 ++ [[zlen keys]]))) by (exists om, m, keys, on, (zlen keys); done).
    by rewrite (proj2 (bad_multisig_spec m keys.*2 (zlen keys))) by (by rewrite zlen_snd).
  - unfold Solver. rewrite (not_p2sh _ _ _ _ _ Hr) by (by left). unfold mTemplates, push_op. cbn [app scan_templates length op_code].
    scan_head Hr. scan_head Hr. scan_head Hr. by rewrite (proj2 (match_data s [])) by eauto.
  - unfold Solver. rewrite (not_p2sh _ _ _ _ _ Hr) by (by left). unfold mTemplates, push_op. cbn [app scan_templates length op_code].
    scan_head Hr. scan_head Hr. scan_head Hr.
    destruct (match_template 3 s [0x6a; 0xf9] []) eqn:E; [by apply match_data in E as (_ & _ & _ & _ & ->)|].
    by rewrite (proj2 (match_null s [])).
Qed.

Lemma Solver_sound s t sols : Solver s = (true, t, sols) -> standard s t sols.
Proof.
  unfold Solver.
  destruct (IsPayToScriptHash s) eqn:Hp.
  { intros H. destruct (IsPayToScriptHash_shape _ Hp) as (h & Hh & ->).
    pose proof (Solver_p2sh h Hh) as Hs. unfold Solver in Hs. rewrite p2sh_script, Hp in Hs by done.
    rewrite Hs in H. injection H as <- <-. rewrite <-p2sh_script by done. by constructor. }
  unfold mTemplates, push_op. cbn [app scan_templates length op_code].
  destruct (match_template 3 s [0xfe; 0xac] []) eqn:E1.
  { intros [= <- <-]. apply match_pubkey in E1 as (o & key & Hr & Hk & ->). by econstructor. }
  destruct (match_template 6 _ _ _) eqn:E2.
  { intros [= <- <-]. apply match_pubkeyhash in E2 as (o & h & Hr & Hh & ->). by econstructor. }
  destruct (match_template 5 _ _ _) eqn:E3.
  { apply match_multisig in E3 as (om & m & keys & on & n & Hr & Hk & Hm & Hn & ->).
    destruct (bad_multisig _) eqn:Hb; [done|]. intros [= <- <-].
    apply bad_multisig_spec in Hb as [Hmn ->]. rewrite zlen_snd in *. by econstructor. }
  destruct (match_template 3 s [0x6a; 0xf9] []) eqn:E4.
  { intros [= <- <-]. apply match_data in E4 as (o & d & Hr & Hd & ->). by eapply standard_data. }
  destruct (match_template 2 _ _ _) eqn:E5; [|done].
  intros [= <- <-]. apply match_null in E5 as (Hr & ->). by apply standard_null.
Qed.

(** C33: [Solver] accepts exactly the standard scripts: pay-to-script-hash, one
    key of 33 to 120 bytes, pay-to-pubkey-hash, m-of-n multisig with
    1 <= m <= n <= 16 and n keys, and OP_RETURN alone or with one more
    instruction of at most 40 bytes; the type and the solutions are those of the
    instructions. *)
Theorem Solver_spec s t sols : Solver s = (true, t, sols) <-> standard s t sols.
Proof. split; [apply Solver_sound|apply Solver_complete]. Qed.

(** ** Destinations *)

Section destinations.
Context {SH : ScriptHashes}.

Lemma CPubKey_of_sized key : CPubKey_of key = Some key -> key_sized key = true.
Proof.
  unfold CPubKey_of, CPubKey_GetLen, key_sized. destruct key as [|b key]; [done|].
  repeat case_match; try done; lia.
Qed.

Lemma reads_keys s l keys :
  Forall (fun k => key_sized k = true) keys -> reads s l [] ->
  reads (foldl (fun script key => script ++ push_data key) s keys) (l ++ ((fun k => (push_opcode k, k)) <$> keys)) [].
Proof.
  intros Hk. revert s l. induction Hk as [|k keys Hk1 Hk IH]; intros s l H; cbn; [by rewrite app_nil_r|].
  rewrite (cons_middle _ l), app_assoc. apply IH. apply reads_push_data; [|done]. unfold key_sized in Hk1. lia.
Qed.

Lemma EncodeOP_N_small {E} n : 1 <= n <= 16 ->
  exists o, EncodeOP_N (E := E) n = Ok o /\ small_int o n /\ 0x4e < op_code o /\ canonical_op o.
Proof.
  intros Hn. exists (opcode_of_byte (0x50 + n)). unfold EncodeOP_N, assert_that, small_int, canonical_op.
  rewrite op_code_of_byte. replace ((0 <=? n) && (n <=? 16)) with true by lia. cbn.
  rewrite (proj2 (Z.eqb_neq n 0)) by lia. replace (81 + n - 1) with (80 + n) by lia. split_and!; [done|right; lia|lia|done].
Qed.

Lemma GetScriptForMultisig_standard {E} m keys :
  1 <= m <= zlen keys -> zlen keys <= 16 -> Forall (fun k => key_sized k = true) keys ->
  exists s, GetScriptForMultisig (E := E) m keys = Ok s /\
    Solver s = (true, TX_MULTISIG, [m] :: keys ++ [[zlen keys]]).
Proof.
  intros Hm Hn Hk. destruct (EncodeOP_N_small (E := E) m) as (om & Em & Hom & ? & Hcm); [lia|].
  destruct (EncodeOP_N_small (E := E) (zlen keys)) as (on & En & Hon & ? & Hcn); [lia|].
  unfold GetScriptForMultisig. rewrite Em, En. cbn [mbind outcome_bind mret outcome_ret]. eexists. split; [done|].
  set (ks := (fun k => (push_opcode k, k)) <$> keys).
  assert (ks.*2 = keys) as Hks by (unfold ks; rewrite <-list_fmap_compose; apply list_fmap_id).
  rewrite <-Hks at 2. replace (zlen keys) with (zlen ks) by (unfold ks, zlen; by rewrite length_fmap).
  apply Solver_complete, (standard_multisig _ om m ks on).
  - change ((om, []) :: ks ++ [(on, []); (OP_CHECKMULTISIG, [])])
      with (([(om, [])] ++ ks) ++ [(on, []); (OP_CHECKMULTISIG, [])]).
    rewrite cons_middle, app_assoc. apply reads_push_op; [done|done|]. apply reads_push_op; [done|by symmetry|].
    apply reads_keys; [done|]. apply (reads_push_op [] []); [done|by symmetry|constructor].
  - unfold ks. rewrite Forall_fmap. done.
  - done.
  - unfold ks, zlen. by rewrite length_fmap.
  - unfold ks, zlen in *. rewrite length_fmap. lia.
Qed.

(** The destinations a script can be written for. *)
Definition dest_ok (dest : CTxDestination) : Prop :=
  match dest with CKeyID id | CScriptID id => zlen id = 20 | _ => False end.

Lemma Solver_GetScriptForDestination dest : dest_ok dest ->
  exists id, Solver (GetScriptForDestination dest) =
    (true, match dest with CScriptID _ => TX_SCRIPTHASH | _ => TX_PUBKEYHASH end, [id]) /\
    dest = match dest with CScriptID _ => CScriptID id | _ => CKeyID id end.
Proof.
  destruct dest as [|id|id|]; cbn [dest_ok]; try done; intros Hid; exists id; (split; [|done]); [|by apply Solver_p2sh].
  apply Solver_complete, (standard_pubkeyhash _ (push_opcode id)); [|done].
  change (GetScriptForDestination (CKeyID id)) with
    (push_op OP_CHECKSIG (push_op OP_EQUALVERIFY (push_op OP_HASH160 (push_op OP_DUP []) ++ 20 :: id))).
  rewrite <-(zlen_push20 id Hid).
  apply (reads_push_op _ [_; _; _; _]); [done..|]. apply (reads_push_op _ [_; _; _]); [done..|].
  apply (reads_push_data _ [_; _]); [lia|]. apply (reads_push_op _ [_]); [done..|].
  apply (reads_push_op _ []); [done..|constructor].
Qed.

(** Scripts and destinations round trip: [ExtractDestination] recovers the
    key or script hash [GetScriptForDestination] wrote, the identifier of the
    key of [GetScriptForRawPubKey], and [ExtractDestinations] the keys and the
    number of signatures of [GetScriptForMultisig], whose assertions hold. *)
Theorem destinations_roundtrip dest key m keys
    (Hdest : dest_ok dest) (Hkey : CPubKey_of key = Some key)
    (Hm : 1 <= m <= zlen keys) (Hn : zlen keys <= 16)
    (Hkeys : Forall (fun k => CPubKey_of k = Some k) keys) :
  ExtractDestination (GetScriptForDestination dest) = Some dest /\
  ExtractDestination (GetScriptForRawPubKey key) = Some (CKeyID (h_hash160 key)) /\
  exists s, GetScriptForMultisig (E := unit) m keys = Ok s /\
    ExtractDestinations s = Some (TX_MULTISIG, map (fun k => CKeyID (h_hash160 k)) keys, m).
Proof.
  split_and!.
  - destruct (Solver_GetScriptForDestination dest Hdest) as (id & Hs & Hd).
    unfold ExtractDestination. rewrite Hs. by destruct dest; try done; rewrite Hd.
  - pose proof (CPubKey_of_sized _ Hkey) as Hsz.
    assert (Solver (GetScriptForRawPubKey key) = (true, TX_PUBKEY, [key])) as Hs.
    { apply Solver_complete, (standard_pubkey _ (push_opcode key)); [|done].
      apply (reads_push_op _ [_]); [done..|]. apply (reads_push_data [] []); [|constructor].
      unfold key_sized in Hsz. lia. }
    unfold ExtractDestination. rewrite Hs. cbn [nth]. unfold CPubKey_GetID. by rewrite Hkey.
  - destruct (GetScriptForMultisig_standard (E := unit) m keys Hm Hn) as (s & Es & Hs).
    { eapply Forall_impl; [exact Hkeys|]. apply CPubKey_of_sized. }
    exists s. split; [done|]. unfold ExtractDestinations. rewrite Hs. cbn [tl]. rewrite removelast_snoc.
    do 3 f_equal. apply map_ext_Forall. eapply Forall_impl; [exact Hkeys|]. cbn. intros k Hk.
    unfold CPubKey_GetID. by rewrite Hk.
Qed.
End destinations.

#[local] Instance toy_hashes : ScriptHashes := {
  h_ripemd160 := firstn 20; h_sha1 := firstn 20; h_sha256 := firstn 32; h_hash160 := firstn 20; h_hash256 := firstn 32
}.

Lemma destinations_roundtrip_witness :
  let key := 2 :: repeat 7 32 in
  ExtractDestination (GetScriptForDestination (CScriptID (repeat 9 20))) = Some (CScriptID (repeat 9 20)) /\
  ExtractDestination (GetScriptForRawPubKey key) = Some (CKeyID (h_hash160 key)) /\
  exists s, GetScriptForMultisig (E := unit) 1 [key; key] = Ok s /\
    ExtractDestinations s = Some (TX_MULTISIG, map (fun k => CKeyID (h_hash160 k)) [key; key], 1).
Proof.
  apply (destinations_roundtrip (CScriptID (repeat 9 20)) (2 :: repeat 7 32) 1 [2 :: repeat 7 32; 2 :: repeat 7 32]).
  - reflexivity.
  - reflexivity.
  - vm_compute. split; discriminate.
  - vm_compute. discriminate.
  - repeat constructor.
Defined.
