(* ===== verification/Policy.v ===== *)
(** * Relay policy: [policy/policy.cpp] and the tests of [main.cpp]

    Which transactions a node relays: standard outputs and inputs, finality,
    signature operation counts and the minimum fee.  The best height and the
    network-adjusted time are arguments. *)

From S2P Require Import Prelude Opcode ScriptNum Script SigEncoding Interp LegacyInterp Serialize Transaction SigHash Chain TxConnect Standard.
From stdpp Require Import strings.

Local Open Scope Z_scope.

Definition MAX_BLOCK_SIZE_GEN : Z := MAX_BLOCK_SIZE / 2.
Definition DEFAULT_BLOCK_PRIORITY_SIZE : Z := 50000.
Definition MAX_STANDARD_TX_SIZE : Z := MAX_BLOCK_SIZE_GEN / 5.
Definition MAX_P2SH_SIGOPS : Z := 15.
Definition MAX_TX_SIGOPS : Z := MAX_BLOCK_SIGOPS / 5.
(** [0.0001*COIN] *)
Definition MIN_TX_FEE : Z := 10000.
Definition MIN_RELAY_TX_FEE : Z := MIN_TX_FEE.
Definition CURRENT_VERSION : Z := 1.
Definition LOCKTIME_THRESHOLD : Z := 500000000.

Definition DRIFT : Z := 30.
Definition FutureDrift (nTime : Z) : Z := nTime + DRIFT.

(** ** Finality and fees *)

(** [IsFinalTx(tx, nBlockHeight, nBlockTime)] *)
Definition IsFinalTx (nBestHeight adjusted_time : Z) (tx : CTransaction) (nBlockHeight nBlockTime : Z) : bool :=
  if nLockTime tx =? 0 then true
  else
    let nBlockHeight := if nBlockHeight =? 0 then nBestHeight else nBlockHeight in
    let nBlockTime := if nBlockTime =? 0 then adjusted_time else nBlockTime in
    if nLockTime tx <? (if nLockTime tx <? LOCKTIME_THRESHOLD then nBlockHeight else nBlockTime) then true
    else forallb txin_IsFinal (vin tx).

Inductive GetMinFee_mode : Type := GMF_BLOCK | GMF_RELAY | GMF_SEND.

Definition is_send (mode : GetMinFee_mode) : bool := match mode with GMF_SEND => true | _ => false end.

(** [GetMinFee] *)
Definition GetMinFee (tx : CTransaction) (nBytes : Z) (fAllowFree : bool) (mode : GetMinFee_mode) : Z :=
  let nBaseFee := match mode with GMF_RELAY => MIN_RELAY_TX_FEE | _ => MIN_TX_FEE end in
  let nMinFee := (1 + nBytes / 1000) * nBaseFee in
  let nMinFee :=
    if fAllowFree && (nBytes <? (if is_send mode then 1000 else DEFAULT_BLOCK_PRIORITY_SIZE - 1000)) then 0 else nMinFee in
  let nMinFee :=
    if (nMinFee <? nBaseFee) && is_send mode && existsb (fun o => nValue o <? CENT) (vout tx) then nBaseFee else nMinFee in
  if negb (MoneyRange nMinFee) then MAX_MONEY else nMinFee.

(** ** Signature operations *)

(** [GetLegacySigOpCount]: an [unsigned int] sum. *)
Fixpoint add_sigops (nSigOps : Z) (scripts : list (list Z)) : outcome unit Z :=
  match scripts with
  | [] => mret nSigOps
  | s :: scripts => n ← GetSigOpCount s false; add_sigops (to_u32 (nSigOps + n)) scripts
  end.

Definition GetLegacySigOpCount (tx : CTransaction) : outcome unit Z :=
  nSigOps ← add_sigops 0 (map scriptSig (vin tx));
  add_sigops nSigOps (map scriptPubKey (vout tx)).

(** [GetP2SHSigOpCount] *)
Fixpoint p2sh_sigops_loop (nSigOps : Z) (ins : list CTxIn) (inputs : MapPrevTx) : outcome unit Z :=
  match ins with
  | [] => mret nSigOps
  | txin :: ins =>
    prevout ← GetOutputFor txin inputs;
    nSigOps ← (if IsPayToScriptHash (scriptPubKey prevout) then
                 n ← GetSigOpCount_P2SH (scriptPubKey prevout) (scriptSig txin);
                 mret (to_u32 (nSigOps + n))
               else mret nSigOps);
    p2sh_sigops_loop nSigOps ins inputs
  end.

Definition GetP2SHSigOpCount (tx : CTransaction) (inputs : MapPrevTx) : outcome unit Z :=
  if IsCoinBase tx then mret 0 else p2sh_sigops_loop 0 (vin tx) inputs.

(** ** Standard transactions *)

(** [IsStandard(scriptPubKey, whichType)]: the result and [whichType]. *)
Definition IsStandard (scriptPubKey : list Z) : bool * txnouttype :=
  match Solver scriptPubKey with
  | (false, whichType, _) => (false, whichType)
  | (true, TX_MULTISIG, vSolutions) =>
    let m := front0 vSolutions in
    let n := back0 vSolutions in
    if (n <? 1) || (3 <? n) then (false, TX_MULTISIG)
    else if (m <? 1) || (n <? m) then (false, TX_MULTISIG)
    else (true, TX_MULTISIG)
  | (true, whichType, _) => (negb (bool_decide (whichType = TX_NONSTANDARD)), whichType)
  end.

Fixpoint standard_ins (ins : list CTxIn) : outcome string unit :=
  match ins with
  | [] => mret tt
  | txin :: ins =>
    _ ← fail_if (1650 <? zlen (scriptSig txin)) "scriptsig-size"%string;
    _ ← fail_if (negb (IsPushOnly (scriptSig txin))) "scriptsig-not-pushonly"%string;
    _ ← fail_if (negb (HasCanonicalPushes (scriptSig txin))) "scriptsig-non-canonical-push"%string;
    standard_ins ins
  end.

(** The loop over the outputs: [nDataOut]. *)
Fixpoint standard_outs (nDataOut : Z) (outs : list CTxOut) : outcome string Z :=
  match outs with
  | [] => mret nDataOut
  | txout :: outs =>
    let '(ok, whichType) := IsStandard (scriptPubKey txout) in
    _ ← fail_if (negb ok) "scriptpubkey"%string;
    nDataOut ← (if bool_decide (whichType = TX_NULL_DATA) then mret (to_u32 (nDataOut + 1))
                else _ ← fail_if (nValue txout =? 0) "dust"%string; mret nDataOut);
    _ ← fail_if (negb (HasCanonicalPushes (scriptPubKey txout))) "scriptpubkey-non-canonical-push"%string;
    standard_outs nDataOut outs
  end.

(** [IsStandardTx(tx, reason)]: [Err reason] is false. *)
Definition IsStandardTx (nBestHeight adjusted_time : Z) (tx : CTransaction) : outcome string unit :=
  _ ← fail_if ((CURRENT_VERSION <? nVersion tx) || (nVersion tx <? 1)) "version"%string;
  _ ← fail_if (negb (IsFinalTx nBestHeight adjusted_time tx (to_i32 (nBestHeight + 1)) 0)) "non-final"%string;
  _ ← fail_if (FutureDrift adjusted_time <? nTime tx) "time-too-new"%string;
  _ ← fail_if (MAX_STANDARD_TX_SIZE <=? tx_size tx) "tx-size"%string;
  _ ← standard_ins (vin tx);
  nDataOut ← standard_outs 0 (vout tx);
  fail_if ((1 <? nDataOut) && (zlen (vout tx) / 2 <? nDataOut)) "multi-op-return"%string.

(** [ScriptSigArgsExpected] *)
Definition ScriptSigArgsExpected (t : txnouttype) (vSolutions : list valtype) : Z :=
  match t with
  | TX_NONSTANDARD | TX_NULL_DATA => -1
  | TX_PUBKEY => 1
  | TX_PUBKEYHASH => 2
  | TX_MULTISIG =>
    if (zlen vSolutions <? 1) || (zlen (nth 0 vSolutions []) <? 1) then -1
    else byte_at (nth 0 vSolutions []) 0 + 1
  | TX_SCRIPTHASH => 1
  end.

Section inputs.
Context {SH : ScriptHashes} {EC : ECDSA}.

(** The loop of [AreInputsStandard] from input [i] on. *)
Fixpoint inputs_standard_loop (tx : CTransaction) (mapInputs : MapPrevTx) (i : Z) (ins : list CTxIn)
    : outcome unit bool :=
  match ins with
  | [] => mret true
  | txin :: ins =>
    prev ← GetOutputFor txin mapInputs;
    match Solver (scriptPubKey prev) with
    | (false, _, _) => mret false
    | (true, whichType, vSolutions) =>
      let nArgsExpected := ScriptSigArgsExpected whichType vSolutions in
      if nArgsExpected <? 0 then mret false
      else
        match legacy_EvalScript (SB := tx_backend tx i 0 SCRIPT_VERIFY_NONE) [] (scriptSig txin) SCRIPT_VERIFY_NONE with
        | Throw => Throw
        | Crash => Crash
        | Err _ => mret false
        | Ok stack =>
          let finish nArgsExpected :=
            if negb (zlen stack =? nArgsExpected) then mret false
            else inputs_standard_loop tx mapInputs (i + 1) ins in
          match whichType with
          | TX_SCRIPTHASH =>
            match stack with
            | [] => mret false
            | subscript :: _ =>
              match Solver subscript with
              | (true, whichType2, vSolutions2) =>
                let tmpExpected := ScriptSigArgsExpected whichType2 vSolutions2 in
                if bool_decide (whichType2 = TX_SCRIPTHASH) then mret false
                else if tmpExpected <? 0 then mret false
                else finish (nArgsExpected + tmpExpected)
              | (false, _, _) =>
                sigops ← GetSigOpCount subscript true;
                mret (sigops <=? MAX_P2SH_SIGOPS)
              end
            end
          | _ => finish nArgsExpected
          end
        end
    end
  end.

(** [AreInputsStandard] *)
Definition AreInputsStandard (tx : CTransaction) (mapInputs : MapPrevTx) : outcome unit bool :=
  if IsCoinBase tx then mret true else inputs_standard_loop tx mapInputs 0 (vin tx).
End inputs.
