(* ===== verification/Mempool.v ===== *)
(** * The memory pool

    [txmempool.cpp] and the admission of transactions of [main.cpp]
    ([AcceptToMemoryPool], [AcceptableInputs]).  A [CInPoint] points into
    [mapTx]; the pointer is the key of the entry, and following it when the
    entry is gone is undefined behaviour ([Crash]). *)

From S2P Require Import Prelude Opcode ScriptNum Script SigEncoding Interp LegacyInterp Serialize Transaction SigHash Chain TxConnect Standard Policy.
From stdpp Require Import sorting.

Local Open Scope Z_scope.

(** [CInPoint]: [ptx] as the hash of the entry pointed at. *)
Record CInPoint := { ptx : Z; ip_n : Z }.

Record CTxMemPool := {
  nTransactionsUpdated : Z;
  mapTx : gmap Z CTransaction;
  mapNextTx : gmap COutPoint CInPoint;
}.

Definition empty_pool (nUpdated : Z) : CTxMemPool :=
  {| nTransactionsUpdated := nUpdated; mapTx := ∅; mapNextTx := ∅ |}.

Definition GetTransactionsUpdated (pool : CTxMemPool) : Z := nTransactionsUpdated pool.
Definition AddTransactionsUpdated (n : Z) (pool : CTxMemPool) : CTxMemPool :=
  {| nTransactionsUpdated := to_u32 (nTransactionsUpdated pool + n); mapTx := mapTx pool; mapNextTx := mapNextTx pool |}.

(** [size], [exists], [lookup], [queryHashes] (a [std::map] is traversed in
    the order of its keys) *)
Definition pool_size (pool : CTxMemPool) : Z := Z.of_nat (size (mapTx pool)).
Definition pool_exists (pool : CTxMemPool) (hash : Z) : bool := bool_decide (is_Some (mapTx pool !! hash)).
Definition pool_lookup (pool : CTxMemPool) (hash : Z) : option CTransaction := mapTx pool !! hash.
Definition queryHashes (pool : CTxMemPool) : list Z := merge_sort Z.le (map_to_list (mapTx pool)).*1.

(** [addUnchecked]: [mapNextTx[vin[i].prevout] = CInPoint(&mapTx[hash], i)] *)
Fixpoint add_next (hash i : Z) (ins : list CTxIn) (m : gmap COutPoint CInPoint) : gmap COutPoint CInPoint :=
  match ins with
  | [] => m
  | txin :: ins => add_next hash (i + 1) ins (<[prevout txin := {| ptx := hash; ip_n := i |}]> m)
  end.

Definition addUnchecked (hash : Z) (tx : CTransaction) (pool : CTxMemPool) : CTxMemPool := {|
  nTransactionsUpdated := to_u32 (nTransactionsUpdated pool + 1);
  mapTx := <[hash := tx]> (mapTx pool);
  mapNextTx := add_next hash 0 (vin tx) (mapNextTx pool);
|}.

(** [clear] *)
Definition pool_clear (pool : CTxMemPool) : CTxMemPool := empty_pool (to_u32 (nTransactionsUpdated pool + 1)).

(** Erasing the entries of the inputs and the transaction itself. *)
Definition erase_tx (hash : Z) (tx : CTransaction) (pool : CTxMemPool) : CTxMemPool := {|
  nTransactionsUpdated := to_u32 (nTransactionsUpdated pool + 1);
  mapTx := delete hash (mapTx pool);
  mapNextTx := foldl (fun m txin => delete (prevout txin) m) (mapNextTx pool) (vin tx);
|}.

(** The loop of [remove] over the outputs: the spender of every output of
    [hash] is removed by [rm]; [Err] is the end of the fuel. *)
Fixpoint remove_children (rm : CTransaction -> CTxMemPool -> outcome unit CTxMemPool)
    (hash i : Z) (outs : list CTxOut) (pool : CTxMemPool) : outcome unit CTxMemPool :=
  match outs with
  | [] => mret pool
  | _ :: outs =>
    pool ← match mapNextTx pool !! {| prevout_hash := hash; prevout_n := i |} with
           | None => mret pool
           | Some it => match mapTx pool !! ptx it with None => Crash | Some child => rm child pool end
           end;
    remove_children rm hash (i + 1) outs pool
  end.

Section pool.
Context {SH : ScriptHashes}.

(** [remove(tx, fRecursive)]; the fuel bounds the depth of the recursion. *)
Fixpoint remove (fuel : nat) (tx : CTransaction) (fRecursive : bool) (pool : CTxMemPool) : outcome unit CTxMemPool :=
  match fuel with
  | O => Err tt
  | S fuel =>
    let hash := tx_GetHash tx in
    match mapTx pool !! hash with
    | None => mret pool
    | Some _ =>
      pool ← (if fRecursive then remove_children (fun child => remove fuel child true) hash 0 (vout tx) pool
              else mret pool);
      mret (erase_tx hash tx pool)
    end
  end.

(** [removeConflicts] *)
Fixpoint conflicts_loop (fuel : nat) (tx : CTransaction) (ins : list CTxIn) (pool : CTxMemPool) : outcome unit CTxMemPool :=
  match ins with
  | [] => mret pool
  | txin :: ins =>
    pool ← match mapNextTx pool !! prevout txin with
           | None => mret pool
           | Some it =>
             match mapTx pool !! ptx it with
             | None => Crash
             | Some txConflict => if bool_decide (txConflict = tx) then mret pool else remove fuel txConflict true pool
             end
           end;
    conflicts_loop fuel tx ins pool
  end.

Definition removeConflicts (fuel : nat) (tx : CTransaction) (pool : CTxMemPool) : outcome unit CTxMemPool :=
  conflicts_loop fuel tx (vin tx) pool.
End pool.

(** ** Admission *)

(** How admission returns false: [*pfMissingInputs] and the score added to
    [nDoS]. *)
Record reject := { fMissingInputs : bool; rej_DoS : Z }.

Definition refuse (nDoS : Z) : reject := {| fMissingInputs := false; rej_DoS := nDoS |}.

Section accept.
Context {SH : ScriptHashes} {EC : ECDSA}.
(** The block files, the transaction index, the chain from [pindexBest] back
    and [nCoinbaseMaturity]. *)
Variable ReadTxFromDisk : CDiskTxPos -> option CTransaction.
Variables (txdb : tx_db) (pindexBest : chain) (nCoinbaseMaturity : Z).
(** [TestNet()], [nBestHeight], the adjusted time, [IsInitialBlockDownload()]. *)
Variables (TestNet : bool) (nBestHeight adjusted_time : Z) (fInitialDownload : bool).
(** [mapLockedInputs] of [instantx.cpp] and the verdict of the rate limiter of
    free transactions, whose decaying window is computed in [double]. *)
Variable mapLockedInputs : gmap COutPoint Z.
Variable rate_limited : bool.

(** An outcome of another function as one of admission. *)
Definition lift_DoS {E A} (f : E -> Z) (m : outcome E A) : outcome reject A :=
  match m with Ok a => Ok a | Err e => Err (refuse (f e)) | Throw => Throw | Crash => Crash end.

Definition locked_conflict (hash : Z) (tx : CTransaction) : bool :=
  existsb (fun txin => match mapLockedInputs !! prevout txin with
                       | Some h => negb (h =? hash)
                       | None => false
                       end) (vin tx).

Definition pool_conflict (pool : CTxMemPool) (tx : CTransaction) : bool :=
  existsb (fun txin => bool_decide (is_Some (mapNextTx pool !! prevout txin))) (vin tx).

Definition missing_input (tx : CTransaction) : bool :=
  existsb (fun txin => negb (bool_decide (is_Some (txdb !! prevout_hash (prevout txin))))) (vin tx).

(** [FetchInputs(txdb, mapUnused, false, false, mapInputs, fInvalid)] *)
Definition fetch_for_pool (pool : CTxMemPool) (tx : CTransaction) : outcome reject MapPrevTx :=
  lift_DoS fe_DoS (FetchInputs ReadTxFromDisk txdb ∅ (mapTx pool) false false tx ∅).

(** The sigops of the transaction. *)
Definition sigops_of (tx : CTransaction) (mapInputs : MapPrevTx) : outcome unit Z :=
  n ← GetLegacySigOpCount tx; k ← GetP2SHSigOpCount tx mapInputs; mret (to_u32 (n + k)).

Definition fees_of (tx : CTransaction) (mapInputs : MapPrevTx) : outcome unit Z :=
  nIn ← GetValueIn tx mapInputs; nOut ← GetValueOut tx; mret (to_i64 (nIn - nOut)).

Definition connect_for_pool (fBlock fValidateSig : bool) (flags : Z) (tx : CTransaction) (mapInputs : MapPrevTx)
    : outcome reject unit :=
  (fun _ => tt) <$> lift_DoS id
    (ConnectInputs tx mempool_pos pindexBest nCoinbaseMaturity fBlock false fValidateSig fInitialDownload flags mapInputs ∅).

(** The tests [AcceptToMemoryPool] and [AcceptableInputs] share: the shape
    of a loose transaction, then its inputs. *)
Definition loose_tx (tx : CTransaction) : outcome reject unit :=
  _ ← lift_DoS id (CheckTransaction tx);
  _ ← fail_if (IsCoinBase tx) (refuse 100);
  fail_if (IsCoinStake tx) (refuse 100).

Definition unseen (pool : CTxMemPool) (tx : CTransaction) : outcome reject unit :=
  _ ← fail_if (pool_exists pool (tx_GetHash tx)) (refuse 0);
  _ ← fail_if (locked_conflict (tx_GetHash tx) tx) (refuse 0);
  _ ← fail_if (pool_conflict pool tx) (refuse 0);
  fail_if (bool_decide (is_Some (txdb !! tx_GetHash tx))) (refuse 0).

Definition few_sigops (tx : CTransaction) (mapInputs : MapPrevTx) : outcome reject unit :=
  nSigOps ← lift_DoS (fun _ => 0) (sigops_of tx mapInputs);
  fail_if (MAX_TX_SIGOPS <? nSigOps) (refuse 0).

Definition fee_tests (fLimitFree : bool) (nFees txMinFee : Z) : outcome reject unit :=
  _ ← fail_if (fLimitFree && (nFees <? txMinFee)) (refuse 0);
  fail_if (fLimitFree && (nFees <? MIN_RELAY_TX_FEE) && rate_limited) (refuse 0).

(** [AcceptToMemoryPool]: the pool afterwards.  [fStashed] is
    [mapStashedsendBroadcastTxes.count(hash)]. *)
Definition AcceptToMemoryPool (fStashed : bool) (pool : CTxMemPool) (tx : CTransaction)
    (fLimitFree fRejectInsaneFee ignoreFees : bool) : outcome reject CTxMemPool :=
  _ ← loose_tx tx;
  _ ← (if TestNet then mret tt else lift_DoS (fun _ => 0) (IsStandardTx nBestHeight adjusted_time tx));
  _ ← unseen pool tx;
  _ ← fail_if (missing_input tx) {| fMissingInputs := true; rej_DoS := 0 |};
  mapInputs ← fetch_for_pool pool tx;
  standard ← (if TestNet then mret true else lift_DoS (fun _ => 0) (AreInputsStandard tx mapInputs));
  _ ← fail_if (negb standard) (refuse 0);
  _ ← few_sigops tx mapInputs;
  nFees ← lift_DoS (fun _ => 0) (fees_of tx mapInputs);
  _ ← (if fStashed then mret tt
       else if negb ignoreFees then fee_tests fLimitFree nFees (GetMinFee tx (tx_size tx) true GMF_RELAY)
       else mret tt);
  _ ← fail_if (fRejectInsaneFee && (MIN_RELAY_TX_FEE * 10000 <? nFees)) (refuse 0);
  _ ← connect_for_pool false true STANDARD_SCRIPT_VERIFY_FLAGS tx mapInputs;
  _ ← connect_for_pool false true MANDATORY_SCRIPT_VERIFY_FLAGS tx mapInputs;
  mret (addUnchecked (tx_GetHash tx) tx pool).

(** [AcceptableInputs] *)
Definition AcceptableInputs (isDSTX : bool) (pool : CTxMemPool) (tx : CTransaction)
    (fLimitFree fRejectInsaneFee : bool) : outcome reject unit :=
  _ ← loose_tx tx;
  _ ← unseen pool tx;
  mapInputs ← fetch_for_pool pool tx;
  _ ← few_sigops tx mapInputs;
  nFees ← lift_DoS (fun _ => 0) (fees_of tx mapInputs);
  let txMinFee := GetMinFee tx (tx_size tx) true GMF_RELAY in
  _ ← (if isDSTX then mret tt else fee_tests fLimitFree nFees txMinFee);
  _ ← fail_if (fRejectInsaneFee && (to_i64 (txMinFee * 10000) <? nFees)) (refuse 0);
  connect_for_pool true false STANDARD_SCRIPT_VERIFY_FLAGS tx mapInputs.
End accept.
