(* ===== verification/MempoolProps.v ===== *)
(** * Properties of the memory pool

    The index [mapNextTx] is exactly the inverse of the inputs of the pool's
    transactions; recursive removal takes out a transaction with everything
    that depends on it and nothing else. *)

From S2P Require Import Prelude Opcode ScriptNum Script SigEncoding Interp LegacyInterp Serialize Transaction TransactionProps SigHash Chain TxConnect TxConnectProps Standard Policy Mempool.

Local Open Scope Z_scope.

(** ** Consistency *)

Section pool_facts.
Context {SH : ScriptHashes}.

Record pool_ok (p : CTxMemPool) : Prop := {
  po_key h tx : mapTx p !! h = Some tx -> tx_GetHash tx = h;
  po_next o it : mapNextTx p !! o = Some it <->
    exists tx txin, mapTx p !! ptx it = Some tx /\ 0 <= ip_n it /\
      vin tx !! Z.to_nat (ip_n it) = Some txin /\ prevout txin = o;
}.

Lemma elem_of_prevouts o (ins : list CTxIn) : o ∈ map prevout ins <-> exists (j : nat) txin, ins !! j = Some txin /\ prevout txin = o.
Proof.
  rewrite list_elem_of_In, in_map_iff. setoid_rewrite <-list_elem_of_In. setoid_rewrite list_elem_of_lookup. naive_solver.
Qed.

(** An outpoint is spent in the pool when some transaction names it. *)
Lemma pool_spends p o : pool_ok p ->
  (exists it, mapNextTx p !! o = Some it) <-> exists h tx, mapTx p !! h = Some tx /\ o ∈ map prevout (vin tx).
Proof.
  intros Hp. split.
  - intros (it & (tx & txin & Htx & _ & Hin & <-)%(po_next _ Hp)). exists (ptx it), tx.
    rewrite elem_of_prevouts. eauto.
  - intros (h & tx & Htx & (j & txin & Hj & <-)%elem_of_prevouts). exists {| ptx := h; ip_n := Z.of_nat j |}.
    apply (po_next _ Hp). exists tx, txin. cbn. rewrite Nat2Z.id. split_and!; [done|lia|done|done].
Qed.

Lemma pool_spender p o it h tx : pool_ok p ->
  mapNextTx p !! o = Some it -> mapTx p !! h = Some tx -> o ∈ map prevout (vin tx) -> ptx it = h.
Proof.
  intros Hp Ho Htx (j & txin & Hj & E)%elem_of_prevouts.
  assert (mapNextTx p !! o = Some {| ptx := h; ip_n := Z.of_nat j |}) as Ho'.
  { apply (po_next _ Hp). exists tx, txin. cbn. rewrite Nat2Z.id. split_and!; [done|lia|done|done]. }
  rewrite Ho in Ho'. injection Ho' as ->. done.
Qed.

Lemma empty_pool_ok n : pool_ok (empty_pool n).
Proof.
  split; [intros ??; cbn; by rewrite lookup_empty|]. intros o it. cbn. rewrite lookup_empty. split; [done|].
  intros (tx & txin & H & _). by rewrite lookup_empty in H.
Qed.

(** ** addUnchecked *)

Lemma add_next_other hash i ins m o : o ∉ map prevout ins -> add_next hash i ins m !! o = m !! o.
Proof.
  revert i m. induction ins as [|txin ins IH]; intros i m Ho; [done|]. cbn in Ho |- *.
  apply not_elem_of_cons in Ho as [Hne Ho]. rewrite IH by done. by apply lookup_insert_ne.
Qed.

Lemma add_next_lookup hash i ins m j txin :
  NoDup (map prevout ins) -> ins !! j = Some txin ->
  add_next hash i ins m !! prevout txin = Some {| ptx := hash; ip_n := i + Z.of_nat j |}.
Proof.
  revert i m j. induction ins as [|txin' ins IH]; intros i m j Hnd Hj; [done|]. cbn in Hnd |- *.
  apply NoDup_cons in Hnd as [Hni Hnd]. destruct j as [|j]; cbn in Hj.
  - injection Hj as ->. rewrite add_next_other by done. rewrite lookup_insert_eq. by rewrite Z.add_0_r.
  - rewrite (IH _ _ j) by done. do 2 f_equal. lia.
Qed.

Lemma addUnchecked_ok tx p :
  pool_ok p -> mapTx p !! tx_GetHash tx = None -> NoDup (map prevout (vin tx)) ->
  Forall (fun txin => mapNextTx p !! prevout txin = None) (vin tx) ->
  pool_ok (addUnchecked (tx_GetHash tx) tx p).
Proof.
  intros Hp Hnew Hnd Hfree. split.
  - intros h tx'. cbn. rewrite lookup_insert_Some. intros [[<- <-]|[_ H]]; [done|]. by apply (po_key _ Hp).
  - intros o it. cbn. destruct (decide (o ∈ map prevout (vin tx))) as [Hin|Hni].
    + apply elem_of_prevouts in Hin as (j & txin & Hj & <-). rewrite (add_next_lookup _ _ _ _ j) by done. split.
      * intros [= <-]. exists tx, txin. cbn [ptx ip_n]. rewrite lookup_insert_eq. split_and!; [done|lia| |done].
        by replace (Z.to_nat (0 + Z.of_nat j)) with j by lia.
      * intros (tx' & txin' & [[E <-]|[Hne H]]%lookup_insert_Some & Hn & Hin & Ep).
        -- assert (Z.to_nat (ip_n it) = j) as <-.
           { eapply NoDup_lookup; [exact Hnd| |]; rewrite list_lookup_fmap; [by rewrite Hin|]. cbn.
             rewrite Ep. by rewrite Hj. }
           destruct it as [q n]. cbn in *. subst q. do 2 f_equal. lia.
        -- exfalso. rewrite Forall_lookup in Hfree. specialize (Hfree _ _ Hj).
           assert (exists it, mapNextTx p !! prevout txin = Some it) as [? E]; [|by rewrite E in Hfree].
           apply pool_spends; [done|]. exists (ptx it), tx'. split; [done|]. apply elem_of_prevouts. eauto.
    + rewrite add_next_other by done. rewrite (po_next _ Hp). split.
      * intros (tx' & txin & H & ? & ? & ?). exists tx', txin. split; [|done]. rewrite lookup_insert_ne; [done|].
        intros E. by rewrite <-E, Hnew in H.
      * intros (tx' & txin & [[E <-]|[_ H]]%lookup_insert_Some & ? & ? & ?); [|by exists tx', txin].
        exfalso. apply Hni, elem_of_prevouts. eauto.
Qed.

(** ** Erasing *)

Lemma erase_next_lookup ins (m : gmap COutPoint CInPoint) o :
  foldl (fun m txin => delete (prevout txin) m) m ins !! o =
  if decide (o ∈ map prevout ins) then None else m !! o.
Proof.
  revert m. induction ins as [|txin ins IH]; intros m; [done|]. cbn [foldl map]. rewrite IH.
  destruct (decide (o ∈ map prevout ins)) as [Hin|Hni].
  - rewrite decide_True; [done|]. by apply elem_of_cons; right.
  - destruct (decide (o = prevout txin)) as [->|Hne].
    + rewrite lookup_delete_eq, decide_True; [done|]. by apply elem_of_cons; left.
    + rewrite lookup_delete_ne by done. rewrite decide_False; [done|]. by intros [?|?]%elem_of_cons.
Qed.

Lemma erase_tx_ok hash tx p : pool_ok p -> mapTx p !! hash = Some tx -> pool_ok (erase_tx hash tx p).
Proof.
  intros Hp Htx. split.
  - intros h tx'. cbn. intros [_ H]%lookup_delete_Some. by apply (po_key _ Hp).
  - intros o it. cbn. rewrite erase_next_lookup. case_decide as Hin.
    + split; [done|]. intros (tx' & txin & [Hne H]%lookup_delete_Some & Hn & Hj & E). destruct Hne.
      assert (mapNextTx p !! o = Some it) as Ho by (apply (po_next _ Hp); by exists tx', txin).
      symmetry. by apply (pool_spender p o it hash tx).
    + rewrite (po_next _ Hp). split; intros (tx' & txin & H & Hn & Hj & E); exists tx', txin; (split; [|done]).
      * rewrite lookup_delete_ne; [done|]. intros ->. rewrite Htx in H. injection H as <-.
        apply Hin, elem_of_prevouts. eauto.
      * by apply lookup_delete_Some in H as [_ H].
Qed.
End pool_facts.

(** ** Dependence *)

(** [b] spends an output of [a]; both are in the pool. *)
Definition parent_of (m : gmap Z CTransaction) (a b : Z) : Prop :=
  exists txa txb n, m !! a = Some txa /\ m !! b = Some txb /\ 0 <= n < zlen (vout txa) /\
    {| prevout_hash := a; prevout_n := n |} ∈ map prevout (vin txb).

(** [m'] is [m] without the transactions of [R]. *)
Definition removed (R : Z -> Prop) (m m' : gmap Z CTransaction) : Prop :=
  (forall h tx, m' !! h = Some tx -> m !! h = Some tx /\ ~ R h) /\
  (forall h tx, m !! h = Some tx -> m' !! h = Some tx \/ R h).

Lemma removed_none R m : (forall h, ~ R h) -> removed R m m.
Proof. intros HR. split; eauto. Qed.

Lemma removed_iff R R' m m' : (forall h, R h <-> R' h) -> removed R m m' -> removed R' m m'.
Proof. intros HR [H1 H2]. split; intros h tx H; rewrite <-HR; eauto. Qed.

Lemma removed_parent R m m' a b : removed R m m' -> parent_of m' a b -> parent_of m a b.
Proof.
  intros [Hr _] (txa & txb & n & [Ha _]%Hr & [Hb _]%Hr & Hn). by exists txa, txb, n.
Qed.

Lemma removed_rtc R m m' a b : removed R m m' -> rtc (parent_of m') a b -> rtc (parent_of m) a b.
Proof.
  intros Hr. induction 1 as [|a c b Hac _ IH]; [done|]. eapply rtc_l; [by eapply removed_parent|done].
Qed.

(** What is left keeps its dependences when the removed part is closed under
    them. *)
Lemma removed_rtc_inv R m m' a b tb :
  removed R m m' -> (forall x y, R x -> parent_of m x y -> R y) -> m' !! b = Some tb ->
  rtc (parent_of m) a b -> rtc (parent_of m') a b /\ (forall ta, m !! a = Some ta -> m' !! a = Some ta).
Proof.
  intros [Hr1 Hr2] Hcl Hb. destruct (Hr1 _ _ Hb) as [Hmb HnR].
  induction 1 as [b|a c b Hac Hcb IH].
  - split; [done|]. intros ta Ha. by rewrite Hmb in Ha; injection Ha as <-.
  - specialize (IH Hb Hmb HnR) as [IH Hc]. pose proof Hac as (txa & txc & n & Hma & Hmc & Hn & Hin).
    specialize (Hc _ Hmc). assert (m' !! a = Some txa) as Ha.
    { destruct (Hr2 _ _ Hma) as [?|HRa]; [done|]. destruct (proj2 (Hr1 _ _ Hc)). by apply (Hcl a). }
    split; [|intros ta Hta; by rewrite Hma in Hta; injection Hta as <-].
    eapply rtc_l; [|exact IH]. by exists txa, txc, n.
Qed.

Definition acyclic (rank : Z -> nat) (m : gmap Z CTransaction) : Prop :=
  forall a b, parent_of m a b -> (rank b < rank a)%nat.

Lemma removed_acyclic rank R m m' : removed R m m' -> acyclic rank m -> acyclic rank m'.
Proof. intros Hr Ha a b H. apply Ha. by eapply removed_parent. Qed.

Lemma rank_rtc rank m a b : acyclic rank m -> rtc (parent_of m) a b -> (rank b <= rank a)%nat.
Proof. intros Ha. induction 1 as [|a c b Hac _ IH]; [lia|]. apply Ha in Hac. lia. Qed.

(** The transactions that depend on the outputs [i <= n < j] of [hash]. *)
Definition dependents (m : gmap Z CTransaction) (hash i j : Z) (h : Z) : Prop :=
  exists n b txb, i <= n < j /\ m !! b = Some txb /\ {| prevout_hash := hash; prevout_n := n |} ∈ map prevout (vin txb) /\
    rtc (parent_of m) b h.

Lemma dependents_closed m hash i j x y : dependents m hash i j x -> parent_of m x y -> dependents m hash i j y.
Proof. intros (n & b & txb & Hn & Hb & Hin & Hr) Hp. exists n, b, txb. do 3 (split; [done|]). by eapply rtc_r. Qed.

(** Removing first the dependents of one output, then those of the rest. *)
Lemma dependents_step m m1 m2 hash i j :
  i < j -> removed (dependents m hash i (i + 1)) m m1 -> removed (dependents m1 hash (i + 1) j) m1 m2 ->
  removed (dependents m hash i j) m m2.
Proof.
  intros Hij H1 H2. split.
  - intros h tx Hh. destruct (proj1 H2 _ _ Hh) as [Hh1 HnR2]. destruct (proj1 H1 _ _ Hh1) as [Hm HnR1].
    split; [done|]. intros (n & b & txb & Hn & Hb & Hin & Hr). destruct (decide (n = i)) as [->|Hne].
    + apply HnR1. exists i, b, txb. split_and!; done || lia.
    + destruct (removed_rtc_inv _ _ _ _ _ _ H1 (dependents_closed _ _ _ _) Hh1 Hr) as [Hr1 Hb1].
      apply HnR2. exists n, b, txb. split; [lia|]. split; [by apply Hb1|done].
  - intros h tx Hm. destruct (proj2 H1 _ _ Hm) as [Hh1|(n & b & txb & Hn & Hb & Hin & Hr)].
    + destruct (proj2 H2 _ _ Hh1) as [?|(n & b & txb & Hn & Hb & Hin & Hr)]; [by left|]. right.
      exists n, b, txb. split; [lia|]. split; [by apply (proj1 H1)|]. split; [done|by eapply removed_rtc].
    + right. exists n, b, txb. split_and!; done || lia.
Qed.

Section remove.
Context {SH : ScriptHashes}.
Variable rank : Z -> nat.

(** What one recursive call promises, for the transactions of rank below
    [bound]. *)
Definition remove_spec_at (rm : CTransaction -> CTxMemPool -> outcome unit CTxMemPool) (bound : nat) : Prop :=
  forall p tx, pool_ok p -> acyclic rank (mapTx p) -> mapTx p !! tx_GetHash tx = Some tx ->
    (rank (tx_GetHash tx) < bound)%nat ->
    exists p', rm tx p = Ok p' /\ pool_ok p' /\
      removed (rtc (parent_of (mapTx p)) (tx_GetHash tx)) (mapTx p) (mapTx p').

Lemma spender_dependents p hash i it : pool_ok p ->
  mapNextTx p !! {| prevout_hash := hash; prevout_n := i |} = Some it ->
  forall h, rtc (parent_of (mapTx p)) (ptx it) h <-> dependents (mapTx p) hash i (i + 1) h.
Proof.
  intros Hp Hit h. pose proof Hit as (txb & txin & Hb & _ & Hj & E)%(po_next _ Hp). split.
  - intros Hr. exists i, (ptx it), txb. split; [lia|]. split; [done|]. split; [|done]. apply elem_of_prevouts. eauto.
  - intros (n & b & txb' & Hn & Hb' & Hin & Hr). replace n with i in Hin by lia.
    by rewrite (pool_spender _ _ _ _ _ Hp Hit Hb' Hin).
Qed.

Lemma remove_children_spec rm bound hash tx outs i p :
  remove_spec_at rm bound -> pool_ok p -> acyclic rank (mapTx p) -> mapTx p !! hash = Some tx ->
  0 <= i -> i + zlen outs = zlen (vout tx) -> (rank hash <= bound)%nat ->
  exists p', remove_children rm hash i outs p = Ok p' /\ pool_ok p' /\
    removed (dependents (mapTx p) hash i (i + zlen outs)) (mapTx p) (mapTx p').
Proof.
  intros Hrm. revert i p. induction outs as [|o outs IH]; intros i p Hp Hac Htx Hi Hlen Hb.
  { exists p. split; [done|]. split; [done|]. apply removed_none. intros h (n & b & txb & Hn & _). rewrite zlen_nil in Hn. lia. }
  rewrite zlen_cons in Hlen. pose proof (zlen_nonneg outs).
  assert (exists p1, match mapNextTx p !! {| prevout_hash := hash; prevout_n := i |} with
           | None => mret p
           | Some it => match mapTx p !! ptx it with None => Crash | Some child => rm child p end
           end = Ok p1 /\ pool_ok p1 /\ removed (dependents (mapTx p) hash i (i + 1)) (mapTx p) (mapTx p1))
    as (p1 & E & Hp1 & Hr1).
  { destruct (mapNextTx p !! _) as [it|] eqn:Hit.
    - pose proof Hit as (child & txin & Hc & _ & Hj & Ep)%(po_next _ Hp). rewrite Hc.
      pose proof (po_key _ Hp _ _ Hc) as Hk.
      destruct (Hrm p child) as (p1 & E & Hp1 & Hr1); [done|done|by rewrite Hk| |].
      { rewrite Hk. enough (rank (ptx it) < rank hash)%nat by lia. apply Hac.
        exists tx, child, i. split; [done|]. split; [done|]. split; [lia|]. apply elem_of_prevouts. eauto. }
      exists p1. split; [done|]. split; [done|]. rewrite Hk in Hr1. eapply removed_iff; [|exact Hr1].
      by apply spender_dependents.
    - exists p. split; [done|]. split; [done|]. apply removed_none.
      intros h (n & b & txb & Hn & Hbb & Hin & _). replace n with i in Hin by lia.
      assert (exists it, mapNextTx p !! {| prevout_hash := hash; prevout_n := i |} = Some it) as [? E]; [|by rewrite E in Hit].
      apply pool_spends; eauto. }
  cbn [remove_children]. rewrite E. cbn [mbind outcome_bind].
  assert (mapTx p1 !! hash = Some tx) as Htx1.
  { destruct (proj2 Hr1 _ _ Htx) as [?|(n & b & txb & Hn & Hbb & Hin & Hr)]; [done|].
    apply (rank_rtc rank _ _ _ Hac) in Hr. assert (rank b < rank hash)%nat; [|lia].
    apply Hac. exists tx, txb, n. split; [done|]. split; [done|]. split; [lia|done]. }
  destruct (IH (i + 1) p1) as (p2 & E2 & Hp2 & Hr2); [done|by eapply removed_acyclic|done|lia|lia|done|].
  exists p2. split; [done|]. split; [done|]. rewrite zlen_cons.
  eapply dependents_step; [|exact Hr1|]; [lia|]. by replace (i + (1 + zlen outs)) with (i + 1 + zlen outs) by lia.
Qed.

Lemma rtc_dependents m hash tx h : m !! hash = Some tx ->
  rtc (parent_of m) hash h <-> h = hash \/ dependents m hash 0 (zlen (vout tx)) h.
Proof.
  intros Htx. split.
  - intros Hr. inversion Hr as [|? b ? (txa & txb & n & Ha & Hb & Hn & Hin) Hr']; subst; [by left|]. right.
    rewrite Htx in Ha. injection Ha as <-. by exists n, b, txb.
  - intros [->|(n & b & txb & Hn & Hb & Hin & Hr)]; [done|]. eapply rtc_l; [|exact Hr]. by exists tx, txb, n.
Qed.

Lemma remove_ok fuel : remove_spec_at (fun tx => remove fuel tx true) fuel.
Proof.
  induction fuel as [|fuel IH]; intros p tx Hp Hac Htx Hf; [lia|]. cbn [remove]. rewrite Htx.
  destruct (remove_children_spec _ fuel (tx_GetHash tx) tx (vout tx) 0 p IH) as (p1 & E & Hp1 & Hr1); try done; [lia|].
  rewrite E. cbn [mbind outcome_bind]. rewrite Z.add_0_l in Hr1.
  assert (mapTx p1 !! tx_GetHash tx = Some tx) as Htx1.
  { destruct (proj2 Hr1 _ _ Htx) as [?|(n & b & txb & Hn & Hbb & Hin & Hr)]; [done|].
    apply (rank_rtc rank _ _ _ Hac) in Hr. assert (rank b < rank (tx_GetHash tx))%nat; [|lia].
    apply Hac. by exists tx, txb, n. }
  eexists. split; [done|]. split; [by apply erase_tx_ok|]. cbn [mapTx erase_tx]. split.
  - intros h t [Hne Hh]%lookup_delete_Some. destruct (proj1 Hr1 _ _ Hh) as [Hm HnR]. split; [done|].
    rewrite (rtc_dependents _ _ _ _ Htx). intros [->|?]; done.
  - intros h t Hm. destruct (decide (h = tx_GetHash tx)) as [->|Hne]; [by right|].
    destruct (proj2 Hr1 _ _ Hm) as [?|?]; [left; by rewrite lookup_delete_ne|right].
    apply (rtc_dependents _ _ _ _ Htx). by right.
Qed.
End remove.

(** ** Properties *)

(** C31: recursive removal always finishes when no transaction of the pool
    depends on itself: it follows no dangling pointer, leaves a consistent
    pool, and takes out exactly the transaction and those that depend on its
    outputs, directly or not. *)
Theorem remove_recursive `{SH : ScriptHashes} (rank : Z -> nat) fuel tx p
    (Hp : pool_ok p) (Hac : acyclic rank (mapTx p)) (Htx : mapTx p !! tx_GetHash tx = Some tx)
    (Hfuel : (rank (tx_GetHash tx) < fuel)%nat) :
  exists p', remove fuel tx true p = Ok p' /\ pool_ok p' /\
    removed (rtc (parent_of (mapTx p)) (tx_GetHash tx)) (mapTx p) (mapTx p').
Proof. by apply (remove_ok rank fuel). Qed.

(** Two transactions spend a common output. *)
Definition conflicts (ins : list CTxIn) (tx : CTransaction) : Prop :=
  exists txin, txin ∈ ins /\ prevout txin ∈ map prevout (vin tx).

(** What the removal for one input takes out. *)
Definition conflicting (m : gmap Z CTransaction) (tx : CTransaction) (o : COutPoint) (h : Z) : Prop :=
  exists c tc, m !! c = Some tc /\ tc <> tx /\ o ∈ map prevout (vin tc) /\ rtc (parent_of m) c h.

Lemma conflict_step `{SH : ScriptHashes} (rank : Z -> nat) fuel tx txin p :
  pool_ok p -> acyclic rank (mapTx p) -> (forall h t, mapTx p !! h = Some t -> (rank h < fuel)%nat) ->
  exists p1, match mapNextTx p !! prevout txin with
      | None => mret p
      | Some it => match mapTx p !! ptx it with None => Crash | Some txConflict =>
          if bool_decide (txConflict = tx) then mret p else remove fuel txConflict true p end
      end = Ok p1 /\ pool_ok p1 /\ removed (conflicting (mapTx p) tx (prevout txin)) (mapTx p) (mapTx p1) /\
      forall h t, mapTx p1 !! h = Some t -> prevout txin ∈ map prevout (vin t) -> t = tx.
Proof.
  intros Hp Hac Hf.
  destruct (mapNextTx p !! prevout txin) as [it|] eqn:Hit.
  - pose proof Hit as (tc & txin' & Htc & _ & Hj & Ep)%(po_next _ Hp). rewrite Htc.
    pose proof (po_key _ Hp _ _ Htc) as Hk. assert (prevout txin ∈ map prevout (vin tc)) as Hin
      by (rewrite <-Ep; apply elem_of_prevouts; eauto).
    assert (forall h t, mapTx p !! h = Some t -> prevout txin ∈ map prevout (vin t) -> h = ptx it /\ t = tc) as Huniq.
    { intros h t Ht Hi. pose proof (pool_spender _ _ _ _ _ Hp Hit Ht Hi) as <-. rewrite Htc in Ht. by injection Ht as <-. }
    case_bool_decide as Heq.
    + exists p. split; [done|]. split; [done|]. split; [|intros h t Ht Hi; by destruct (Huniq _ _ Ht Hi) as [_ ->]].
      apply removed_none. intros h (c & tc' & Hc & Hne & Hi & _). destruct (Huniq _ _ Hc Hi) as [_ ->]. done.
    + destruct (remove_ok rank fuel p tc) as (p1 & E & Hp1 & Hr1); [done|done|by rewrite Hk|rewrite Hk; by eapply Hf|].
      exists p1. split; [done|]. split; [done|]. rewrite Hk in Hr1. split.
      * eapply removed_iff; [|exact Hr1]. intros h. split; [intros Hrt; by exists (ptx it), tc|].
        intros (c & tc' & Hc & _ & Hi & Hrt). by destruct (Huniq _ _ Hc Hi) as [-> _].
      * intros h t Ht Hi. destruct (proj1 Hr1 _ _ Ht) as [Hm Hn]. destruct (Huniq _ _ Hm Hi) as [-> ->]. by destruct Hn.
  - exists p. split; [done|]. split; [done|].
    assert (forall h t, mapTx p !! h = Some t -> prevout txin ∉ map prevout (vin t)) as Hno.
    { intros h t Ht Hi. assert (exists it, mapNextTx p !! prevout txin = Some it) as [? E]; [|by rewrite E in Hit].
      apply pool_spends; eauto. }
    split; [|intros h t Ht Hi; by destruct (Hno _ _ Ht)].
    apply removed_none. intros h (c & tc' & Hc & _ & Hi & _). by apply (Hno _ _ Hc).
Qed.

Lemma conflicts_loop_Ok `{SH : ScriptHashes} (rank : Z -> nat) fuel tx ins p :
  pool_ok p -> acyclic rank (mapTx p) -> (forall h t, mapTx p !! h = Some t -> (rank h < fuel)%nat) ->
  exists p', conflicts_loop fuel tx ins p = Ok p' /\ pool_ok p' /\
    (forall h t, mapTx p' !! h = Some t -> mapTx p !! h = Some t /\ (conflicts ins t -> t = tx)) /\
    (forall h t, mapTx p !! h = Some t -> mapTx p' !! h = Some t \/
       exists c tc, mapTx p !! c = Some tc /\ tc <> tx /\ conflicts ins tc /\ rtc (parent_of (mapTx p)) c h).
Proof.
  revert p. induction ins as [|txin ins IH]; intros p Hp Hac Hf.
  { exists p. split; [done|]. split; [done|]. split; [|by left].
    intros h t H. split; [done|]. by intros (i & Hi%elem_of_nil & _). }
  destruct (conflict_step rank fuel tx txin p Hp Hac Hf) as (p1 & E & Hp1 & Hr & Hc).
  cbn [conflicts_loop]. rewrite E. cbn [mbind outcome_bind].
  destruct (IH p1) as (p2 & E2 & Hp2 & Ha & Hb); [done|by eapply removed_acyclic| |].
  { intros h t Ht. apply (Hf _ t). by apply (proj1 Hr). }
  exists p2. split; [done|]. split; [done|]. split.
  - intros h t Ht. destruct (Ha _ _ Ht) as [Ht1 Hcf]. split; [by apply (proj1 Hr)|].
    intros (i & [->|Hi]%elem_of_cons & Hin); [by apply (Hc h)|]. apply Hcf. by exists i.
  - intros h t Ht. destruct (proj2 Hr _ _ Ht) as [Ht1|(c & tc & Htc & Hne & Hin & Hrt)].
    + destruct (Hb _ _ Ht1) as [?|(c & tc & Htc & Hne & (i & Hi & Hin) & Hrt)]; [by left|right].
      exists c, tc. split; [by apply (proj1 Hr)|]. split; [done|]. split; [|by eapply removed_rtc].
      exists i. split; [by apply elem_of_cons; right|done].
    + right. exists c, tc. split; [done|]. split; [done|]. split; [|done].
      exists txin. split; [by apply elem_of_cons; left|done].
Qed.

(** [removeConflicts] finishes, leaves a consistent pool in which no other
    transaction spends an output [tx] spends, and takes out only conflicting
    transactions and what depends on them. *)
Theorem removeConflicts_spec `{SH : ScriptHashes} (rank : Z -> nat) fuel tx p
    (Hp : pool_ok p) (Hac : acyclic rank (mapTx p))
    (Hfuel : forall h t, mapTx p !! h = Some t -> (rank h < fuel)%nat) :
  exists p', removeConflicts fuel tx p = Ok p' /\ pool_ok p' /\
    (forall h t, mapTx p' !! h = Some t -> mapTx p !! h = Some t /\ (conflicts (vin tx) t -> t = tx)) /\
    (forall h t, mapTx p !! h = Some t -> mapTx p' !! h = Some t \/
       exists c tc, mapTx p !! c = Some tc /\ tc <> tx /\ conflicts (vin tx) tc /\ rtc (parent_of (mapTx p)) c h).
Proof. by apply (conflicts_loop_Ok rank). Qed.

(** ** Admission *)

Section fetch.
Variable ReadTxFromDisk : CDiskTxPos -> option CTransaction.
Variables (txdb : tx_db) (mempool : gmap Z CTransaction).

(** What [FetchInputs] finds for an indexed transaction outside a block. *)
Lemma fetch_one_pool h p ti :
  txdb !! h = Some ti -> fetch_one ReadTxFromDisk txdb ∅ mempool false false h = Ok p ->
  p.1 = ti /\ if bool_decide (pos ti = mempool_pos) then mempool !! h = Some p.2 else ReadTxFromDisk (pos ti) = Some p.2.
Proof.
  unfold fetch_one. intros -> H. cbn in H. case_bool_decide.
  - destruct (mempool !! h); [|done]. by injection H as <-.
  - destruct (ReadTxFromDisk (pos ti)); [|done]. by injection H as <-.
Qed.
End fetch.

(** The output [i] names is in the index, unspent there, and worth [v]. *)
Definition spendable (ReadTxFromDisk : CDiskTxPos -> option CTransaction) (txdb : tx_db) (mempool : gmap Z CTransaction)
    (i : CTxIn) (v : Z) : Prop :=
  let n := Z.to_nat (prevout_n (prevout i)) in
  exists ti tp q o, txdb !! prevout_hash (prevout i) = Some ti /\
    (if bool_decide (pos ti = mempool_pos) then mempool !! prevout_hash (prevout i) = Some tp
     else ReadTxFromDisk (pos ti) = Some tp) /\
    vSpent ti !! n = Some q /\ pos_IsNull q = true /\ vout tp !! n = Some o /\ nValue o = v.

Lemma lift_DoS_Ok {E A} (f : E -> Z) (m : outcome E A) a : lift_DoS f m = Ok a <-> m = Ok a.
Proof. destruct m; cbn; split; congruence. Qed.

Lemma existsb_false {A} (f : A -> bool) l : existsb f l = false -> Forall (fun x => f x = false) l.
Proof.
  intros H. apply Forall_forall. intros x Hx. destruct (f x) eqn:E; [|done].
  rewrite (proj2 (existsb_exists f l)) in H; [done|]. exists x. by rewrite <-list_elem_of_In.
Qed.

Lemma loose_tx_Ok tx u : loose_tx tx = Ok u -> tx_well_formed tx /\ IsCoinBase tx = false /\ IsCoinStake tx = false.
Proof.
  unfold loose_tx. intros H. apply bind_Ok in H as ([] & Hc%lift_DoS_Ok & H). mon_inv.
  split; [by apply CheckTransaction_Ok|done].
Qed.

Section accept.
Context {SH : ScriptHashes} {EC : ECDSA}.
Variable ReadTxFromDisk : CDiskTxPos -> option CTransaction.
Variables (txdb : tx_db) (pindexBest : chain) (nCoinbaseMaturity : Z).

Lemma unseen_Ok locked pool tx u : unseen txdb locked pool tx = Ok u ->
  mapTx pool !! tx_GetHash tx = None /\ Forall (fun i => mapNextTx pool !! prevout i = None) (vin tx).
Proof.
  unfold unseen. intros H. mon_inv. split.
  - match goal with H : pool_exists _ _ = false |- _ => apply bool_decide_eq_false in H end. by apply eq_None_not_Some.
  - match goal with H : pool_conflict _ _ = false |- _ => apply existsb_false in H; eapply Forall_impl; [exact H|] end.
    cbn. intros i Hi. apply bool_decide_eq_false in Hi. by apply eq_None_not_Some.
Qed.

(** A connected loose transaction spends free outputs of the index and no
    more than they are worth. *)
Lemma connect_for_pool_Ok pool fBlock fValidateSig fInit flags tx mapInputs u :
  fetch_for_pool ReadTxFromDisk txdb pool tx = Ok mapInputs ->
  connect_for_pool pindexBest nCoinbaseMaturity fInit fBlock fValidateSig flags tx mapInputs = Ok u ->
  IsCoinBase tx = false -> IsCoinStake tx = false -> missing_input txdb tx = false ->
  Forall (fun i => 0 <= prevout_n (prevout i)) (vin tx) ->
  exists vs, Forall2 (spendable ReadTxFromDisk txdb (mapTx pool)) (vin tx) vs /\
    total_out (vout tx) <= sum_Z vs <= MAX_MONEY.
Proof.
  intros Hf Hc Hcb Hcs Hmiss Hn. unfold connect_for_pool in Hc. apply fmap_Ok in Hc as (pool' & Hc%lift_DoS_Ok & _).
  apply ConnectInputs_Ok in Hc as (v & inputs' & Hv & Hs & Ho); [|done..].
  apply connect_values_Ok in Hv as (Hr & -> & Hrange & _); [|done..].
  apply connect_spend_Ok in Hs as (Hfree & _); [|done..].
  destruct (Ho Hcs) as (o & Hout & Hle & _). unfold GetValueOut in Hout.
  apply GetValueOut_loop_spec in Hout as (_ & _ & ->); [|done].
  exists (map (input_value mapInputs) (vin tx)). split; [|lia].
  unfold fetch_for_pool in Hf. apply lift_DoS_Ok in Hf. unfold FetchInputs in Hf. rewrite Hcb in Hf.
  apply bind_Ok in Hf as (r & Hl & Hf). mon_inv. subst r.
  assert (forall h p, mapInputs !! h = Some p -> fetch_one ReadTxFromDisk txdb ∅ (mapTx pool) false false h = Ok p) as Hone.
  { eapply fetch_loop_Ok; [exact Hl|]. intros h p Hemp. by rewrite lookup_empty in Hemp. }
  apply Forall2_fmap_r, Forall_Forall2_diag, Forall_forall. intros i Hi.
  assert (spends (prevout_hash (prevout i)) (Z.to_nat (prevout_n (prevout i))) (vin tx)) as Hsp by (by exists i).
  destruct (Hr _ _ Hsp) as (ti & tp & E & _ & Hlt). destruct (Hfree _ _ Hsp) as (ti' & tp' & E' & q & Hq & Hnull).
  rewrite E in E'. injection E' as <- <-. apply existsb_false in Hmiss. rewrite Forall_forall in Hmiss.
  specialize (Hmiss _ Hi). apply negb_false_iff, bool_decide_eq_true in Hmiss as [ti' Hti].
  destruct (fetch_one_pool _ _ _ _ _ _ Hti (Hone _ _ E)) as [<- Hread].
  destruct (lookup_lt_is_Some_2 _ _ Hlt) as [out Hout].
  exists ti, tp, q, out. split_and!; [done|exact Hread|done|done|done|].
  unfold input_value. rewrite E. by rewrite (nth_lookup_Some _ _ _ _ Hout).
Qed.
End accept.

(** C27: what [AcceptToMemoryPool] takes in is a well-formed loose transaction
    whose inputs are all unspent outputs of the transaction index worth at least
    what it creates, none of them spent by another transaction of the pool; the
    pool stays consistent, so it never holds two spenders of one output. *)
Theorem AcceptToMemoryPool_safe `{SH : ScriptHashes, EC : ECDSA} ReadTxFromDisk txdb pindexBest nCoinbaseMaturity TestNet
    nBestHeight adjusted_time fInitialDownload mapLockedInputs rate_limited fStashed pool tx
    fLimitFree fRejectInsaneFee ignoreFees pool'
    (Hp : pool_ok pool) (Hn : Forall (fun i => 0 <= prevout_n (prevout i)) (vin tx))
    (Hrun : AcceptToMemoryPool ReadTxFromDisk txdb pindexBest nCoinbaseMaturity TestNet nBestHeight adjusted_time
              fInitialDownload mapLockedInputs rate_limited fStashed pool tx fLimitFree fRejectInsaneFee ignoreFees
            = Ok pool') :
  tx_well_formed tx /\ IsCoinBase tx = false /\ IsCoinStake tx = false /\
  Forall (fun i => mapNextTx pool !! prevout i = None) (vin tx) /\
  (exists vs, Forall2 (spendable ReadTxFromDisk txdb (mapTx pool)) (vin tx) vs /\
     total_out (vout tx) <= sum_Z vs <= MAX_MONEY) /\
  mapTx pool' = <[tx_GetHash tx := tx]> (mapTx pool) /\ pool_ok pool'.
Proof.
  unfold AcceptToMemoryPool in Hrun. apply bind_Ok in Hrun as (u & (Hwf & Hcb & Hcs)%loose_tx_Ok & Hrun).
  apply bind_Ok in Hrun as (u1 & _ & Hrun). apply bind_Ok in Hrun as (u2 & (Hnew & Hfree)%unseen_Ok & Hrun).
  apply bind_Ok in Hrun as (u3 & Hmiss%fail_if_Ok & Hrun). apply bind_Ok in Hrun as (mapInputs & Hf & Hrun).
  repeat match goal with H : (_ ≫= _) = Ok ?p |- _ => apply bind_Ok in H as (? & ? & H) end.
  injection Hrun as <-. split_and!; try done.
  - by eapply connect_for_pool_Ok.
  - apply addUnchecked_ok; [done|done|by destruct Hwf|done].
Qed.

(** ** A small pool *)

(** A test of acyclicity: every input from the pool has greater rank. *)
Definition acyclic_check (rank : Z -> nat) (m : gmap Z CTransaction) : bool :=
  forallb (fun e => forallb (fun i =>
    match m !! prevout_hash (prevout i) with
    | None => true
    | Some _ => (rank e.1 <? rank (prevout_hash (prevout i)))%nat
    end) (vin e.2)) (map_to_list m).

Lemma acyclic_check_ok rank m : acyclic_check rank m = true -> acyclic rank m.
Proof.
  unfold acyclic_check. intros H a b (txa & txb & n & Ha & Hb & _ & Hin).
  rewrite forallb_forall in H. specialize (H (b, txb)). rewrite forallb_forall in H.
  apply elem_of_prevouts in Hin as (j & txin & Hj & E). specialize (H ltac:(by apply list_elem_of_In, elem_of_map_to_list) txin).
  apply list_elem_of_lookup_2, list_elem_of_In in Hj. specialize (H Hj). rewrite E in H. cbn in H. rewrite Ha in H.
  by apply Nat.ltb_lt.
Qed.

#[local] Instance toy_hashes : ScriptHashes := {
  h_ripemd160 := firstn 20; h_sha1 := firstn 20; h_sha256 := firstn 32; h_hash256 := firstn 8;
  h_hash160 := fun v => firstn 20 (v ++ repeat 0 20);
}.
#[local] Instance toy_ecdsa : ECDSA := { pubkey_Verify _ _ _ := false; pubkey_CheckLowS _ := false }.

Definition pool_parent : CTransaction := {|
  nVersion := 1; nTime := 1000; vin := [sample_in 5]; vout := [sample_out 20; sample_out 7]; nLockTime := 0
|}.
Definition pool_child : CTransaction := {|
  nVersion := 1; nTime := 1010; vin := [sample_in (tx_GetHash pool_parent)]; vout := [sample_out 19]; nLockTime := 0
|}.
Definition pool_rival : CTransaction := {|
  nVersion := 1; nTime := 1020; vin := [sample_in 6; sample_in 5]; vout := [sample_out 30]; nLockTime := 0
|}.
Definition pool_rank (h : Z) : nat := if h =? tx_GetHash pool_parent then 1%nat else 0%nat.
Definition pool_two : CTxMemPool :=
  addUnchecked (tx_GetHash pool_child) pool_child (addUnchecked (tx_GetHash pool_parent) pool_parent (empty_pool 0)).

Lemma pool_two_ok : pool_ok pool_two /\ acyclic pool_rank (mapTx pool_two).
Proof.
  split; [|apply acyclic_check_ok; by vm_compute].
  apply addUnchecked_ok; [apply addUnchecked_ok; [apply empty_pool_ok|done|decide_now|decide_now]|by vm_compute|decide_now|decide_now].
Qed.

Lemma remove_recursive_witness :
  exists p', remove 2 pool_parent true pool_two = Ok p' /\ pool_ok p' /\
    removed (rtc (parent_of (mapTx pool_two)) (tx_GetHash pool_parent)) (mapTx pool_two) (mapTx p').
Proof.
  destruct pool_two_ok as [Hp Ha].
  apply (remove_recursive pool_rank 2 pool_parent pool_two Hp Ha); [by vm_compute|vm_compute; lia].
Defined.

Lemma removeConflicts_spec_witness :
  exists p', removeConflicts 2 pool_rival pool_two = Ok p' /\ pool_ok p' /\
    (forall h t, mapTx p' !! h = Some t -> mapTx pool_two !! h = Some t /\ (conflicts (vin pool_rival) t -> t = pool_rival)) /\
    (forall h t, mapTx pool_two !! h = Some t -> mapTx p' !! h = Some t \/
       exists c tc, mapTx pool_two !! c = Some tc /\ tc <> pool_rival /\ conflicts (vin pool_rival) tc /\
         rtc (parent_of (mapTx pool_two)) c h).
Proof.
  destruct pool_two_ok as [Hp Ha]. apply (removeConflicts_spec pool_rank 2 pool_rival pool_two Hp Ha).
  intros h t _. unfold pool_rank. destruct (h =? _); lia.
Defined.

(** A spend of a pay-to-script-hash output, admitted under the rules of the
    main network. *)
Definition p2sh_out (v : Z) : CTxOut :=
  {| nValue := v; scriptPubKey := GetScriptForDestination (CScriptID (h_hash160 [0x51])) |}.
Definition p2sh_prev : CTransaction := {|
  nVersion := 1; nTime := 900; vin := [sample_in 5]; vout := [p2sh_out 20; p2sh_out 7]; nLockTime := 0
|}.
Definition p2sh_spend : CTransaction := {|
  nVersion := 1; nTime := 1005;
  vin := [{| prevout := {| prevout_hash := tx_GetHash p2sh_prev; prevout_n := 1 |}; scriptSig := [1; 0x51]; nSequence := 0 |}];
  vout := [p2sh_out 6]; nLockTime := 0
|}.
Definition p2sh_db : tx_db := {[ tx_GetHash p2sh_prev := new_txindex {| nFile := 1; nBlockPos := 8; nTxPos := 9 |} 2 ]}.

Lemma AcceptToMemoryPool_safe_witness :
  let pool' := addUnchecked (tx_GetHash p2sh_spend) p2sh_spend pool_two in
  AcceptToMemoryPool (fun _ => Some p2sh_prev) p2sh_db [] 10 false 100 1010 false ∅ false false pool_two p2sh_spend false true false
    = Ok pool' /\ pool_ok pool' /\
  exists vs, Forall2 (spendable (fun _ => Some p2sh_prev) p2sh_db (mapTx pool_two)) (vin p2sh_spend) vs /\
     total_out (vout p2sh_spend) <= sum_Z vs <= MAX_MONEY.
Proof.
  intros pool'. split; [by vm_compute|].
  destruct (AcceptToMemoryPool_safe (fun _ => Some p2sh_prev) p2sh_db [] 10 false 100 1010 false ∅ false false pool_two p2sh_spend
    false true false pool' (proj1 pool_two_ok)) as (_ & _ & _ & _ & Hv & _ & Hok); [decide_now|by vm_compute|].
  exact (conj Hok Hv).
Defined.

(** The test against excessive fees of [AcceptableInputs] multiplies the
    minimum fee of a small transaction, which is 0: any fee is excessive. *)
Lemma AcceptableInputs_insane_fee :
  GetMinFee p2sh_spend (tx_size p2sh_spend) true GMF_RELAY = 0 /\
  AcceptableInputs (fun _ => Some p2sh_prev) p2sh_db [] 10 false ∅ false false (empty_pool 0) p2sh_spend false true
    = Err (refuse 0) /\
  AcceptableInputs (fun _ => Some p2sh_prev) p2sh_db [] 10 false ∅ false false (empty_pool 0) p2sh_spend false false
    = Ok tt.
Proof. split_and!; by vm_compute. Qed.
