(* ===== verification/Merkle.v ===== *)
(** * The Merkle tree of a block: [BuildMerkleTree], [GetMerkleBranch] and
    [CheckMerkleBranch] of [primitives/block.h] *)

From S2P Require Import Prelude Interp Transaction.

Local Open Scope Z_scope.

Section merkle.
Context {SH : ScriptHashes}.

(** [Hash(BEGIN(a), END(a), BEGIN(b), END(b))] of two [uint256]. *)
Definition Hash2 (a b : Z) : Z := uint256_of (h_hash256 (le_encode 32 a ++ le_encode 32 b)).

(** ** BuildMerkleTree *)

(** The inner loop: the level of [nSize] nodes at offset [j] of
    [vMerkleTree] is hashed in pairs from node [i] on. *)
Fixpoint merkle_row (fuel j i nSize : nat) (vMerkleTree : list Z) : list Z :=
  match fuel with
  | O => vMerkleTree
  | S fuel =>
    if (i <? nSize)%nat then
      let i2 := Nat.min (i + 1) (nSize - 1) in
      merkle_row fuel j (i + 2) nSize
        (vMerkleTree ++ [Hash2 (nth (j + i) vMerkleTree 0) (nth (j + i2) vMerkleTree 0)])
    else vMerkleTree
  end.

(** The outer loop over the levels. *)
Fixpoint merkle_rows (fuel j nSize : nat) (vMerkleTree : list Z) : list Z :=
  match fuel with
  | O => vMerkleTree
  | S fuel =>
    if (1 <? nSize)%nat then
      merkle_rows fuel (j + nSize) ((nSize + 1) / 2) (merkle_row nSize j 0 nSize vMerkleTree)
    else vMerkleTree
  end.

(** [BuildMerkleTree] for the transaction hashes of a block: the vector
    [vMerkleTree] it leaves, and the root it returns. *)
Definition merkle_tree (hashes : list Z) : list Z := merkle_rows (length hashes) 0 (length hashes) hashes.

Definition BuildMerkleTree (hashes : list Z) : Z :=
  match merkle_tree hashes with [] => 0 | _ => List.last (merkle_tree hashes) 0 end.

(** ** GetMerkleBranch *)

Fixpoint branch_loop (fuel j nSize : nat) (nIndex : Z) (vMerkleTree : list Z) : list Z :=
  match fuel with
  | O => []
  | S fuel =>
    if (1 <? nSize)%nat then
      let i := Z.min (Z.lxor nIndex 1) (Z.of_nat nSize - 1) in
      nth (j + Z.to_nat i) vMerkleTree 0 ::
      branch_loop fuel (j + nSize) ((nSize + 1) / 2) (Z.shiftr nIndex 1) vMerkleTree
    else []
  end.

(** The tree is built unless [vMerkleTree] already holds one. *)
Definition GetMerkleBranch (hashes vMerkleTree : list Z) (nIndex : Z) : list Z :=
  let vMerkleTree := match vMerkleTree with [] => merkle_tree hashes | _ => vMerkleTree end in
  branch_loop (length hashes) 0 (length hashes) nIndex vMerkleTree.

(** ** CheckMerkleBranch *)

Fixpoint check_branch_loop (hash : Z) (vMerkleBranch : list Z) (nIndex : Z) : Z :=
  match vMerkleBranch with
  | [] => hash
  | otherside :: vMerkleBranch =>
    check_branch_loop (if Z.land nIndex 1 =? 0 then Hash2 hash otherside else Hash2 otherside hash)
      vMerkleBranch (Z.shiftr nIndex 1)
  end.

Definition CheckMerkleBranch (hash : Z) (vMerkleBranch : list Z) (nIndex : Z) : Z :=
  if nIndex =? -1 then 0 else check_branch_loop hash vMerkleBranch nIndex.

(** ** The tree by levels *)

(** The pairs hashed to get from one level to the next: the last node of an
    odd level is paired with itself. *)
Fixpoint level_pairs (l : list Z) : list (Z * Z) :=
  match l with
  | [] => []
  | [a] => [(a, a)]
  | a :: b :: l => (a, b) :: level_pairs l
  end.

Definition next_level (l : list Z) : list Z := map (fun p => Hash2 p.1 p.2) (level_pairs l).

(** The levels above [l], and everything hashed on the way to the root. *)
Fixpoint upper_levels (fuel : nat) (l : list Z) : list (list Z) :=
  match fuel with
  | O => []
  | S fuel => if (1 <? length l)%nat then next_level l :: upper_levels fuel (next_level l) else []
  end.

Fixpoint node_pairs_loop (fuel : nat) (l : list Z) : list (Z * Z) :=
  match fuel with
  | O => []
  | S fuel => if (1 <? length l)%nat then level_pairs l ++ node_pairs_loop fuel (next_level l) else []
  end.

Definition node_pairs (l : list Z) : list (Z * Z) := node_pairs_loop (length l) l.

(** The number of levels above the transactions. *)
Definition merkle_depth (l : list Z) : nat := length (upper_levels (length l) l).

(** Two different pairs in [ps] never have the same hash. *)
Definition collision_free (ps : list (Z * Z)) : Prop :=
  Forall (fun p => Forall (fun q => Hash2 p.1 p.2 = Hash2 q.1 q.2 -> p = q) ps) ps.

(** *** Levels *)

Lemma list_pair_ind (P : list Z -> Prop) :
  P [] -> (forall a, P [a]) -> (forall a b l, P l -> P (a :: b :: l)) -> forall l, P l.
Proof.
  intros H0 H1 H2. fix IH 1. intros [|a [|b l]]; [exact H0|apply H1|apply H2, IH].
Qed.

Lemma length_next_level l : length (next_level l) = ((length l + 1) / 2)%nat.
Proof.
  unfold next_level. rewrite length_map. induction l as [|a|a b l IH] using list_pair_ind; [done..|].
  cbn [level_pairs length]. rewrite IH.
  replace (S (S (length l)) + 1)%nat with (length l + 1 + 1 * 2)%nat by lia.
  rewrite Nat.div_add by lia. lia.
Qed.

Lemma half_smaller n : (1 < n)%nat -> ((n + 1) / 2 < n)%nat.
Proof. intros H. apply Nat.Div0.div_lt_upper_bound. lia. Qed.

Lemma half_pos n : (0 < n)%nat -> (0 < (n + 1) / 2)%nat.
Proof. intros H. apply Nat.div_str_pos. lia. Qed.

Lemma next_level_drop2 a b l : next_level (a :: b :: l) = Hash2 a b :: next_level l.
Proof. done. Qed.

(** The inner loop appends the next level. *)
Lemma merkle_row_spec fuel pre l i acc :
  (length l <= i + fuel)%nat -> Nat.even i = true ->
  merkle_row fuel (length pre) i (length l) (pre ++ l ++ acc) =
  pre ++ l ++ acc ++ next_level (drop i l).
Proof.
  revert i acc. induction fuel as [|fuel IH]; intros i acc Hf He; cbn [merkle_row].
  { rewrite drop_ge by lia. by rewrite !app_nil_r. }
  destruct (Nat.ltb_spec i (length l)) as [Hi|Hi]; [|rewrite drop_ge by lia; by rewrite !app_nil_r].
  destruct (lookup_lt_is_Some_2 l i Hi) as [a Ha].
  set (i2 := Nat.min (i + 1) (length l - 1)).
  assert (Hi2 : (i2 < length l)%nat) by lia.
  assert (Hnth : forall k, (k < length l)%nat -> nth (length pre + k) (pre ++ l ++ acc) 0 = nth k l 0).
  { intros k Hk. rewrite app_nth2_plus. by rewrite app_nth1. }
  rewrite !Hnth by lia.
  rewrite <- (app_assoc pre), <- (app_assoc l).
  rewrite IH; [|lia|by rewrite Nat.add_comm].
  rewrite (drop_S l a i Ha), (nth_lookup_Some l i 0 a Ha). do 2 f_equal.
  rewrite <- app_assoc. f_equal.
  destruct (l !! S i) as [b|] eqn:Hb.
  - rewrite (drop_S l b (S i) Hb), next_level_drop2.
    assert (Heq : i2 = S i) by (apply lookup_lt_Some in Hb; lia).
    rewrite Heq, (nth_lookup_Some l (S i) 0 b Hb). by replace (i + 2)%nat with (S (S i)) by lia.
  - apply lookup_ge_None in Hb. rewrite !drop_ge by lia.
    assert (Heq : i2 = i) by lia. by rewrite Heq, (nth_lookup_Some l i 0 a Ha).
Qed.

(** The outer loop appends the levels up to the root. *)
Lemma merkle_rows_spec fuel pre l :
  merkle_rows fuel (length pre) (length l) (pre ++ l) = pre ++ l ++ concat (upper_levels fuel l).
Proof.
  revert pre l. induction fuel as [|fuel IH]; intros pre l; cbn [merkle_rows upper_levels concat].
  { by rewrite app_nil_r. }
  destruct (1 <? length l)%nat eqn:Hl; [|cbn [concat]; by rewrite app_nil_r].
  pose proof (merkle_row_spec (length l) pre l 0 [] ltac:(lia) eq_refl) as Hrow.
  rewrite app_nil_r, drop_0 in Hrow. cbn [app] in Hrow. rewrite Hrow.
  rewrite app_assoc, <- length_app, <- length_next_level, IH. cbn [concat]. by rewrite <- !app_assoc.
Qed.

Lemma merkle_tree_levels l : merkle_tree l = l ++ concat (upper_levels (length l) l).
Proof. apply (merkle_rows_spec (length l) [] l). Qed.

(** More fuel than nodes changes nothing. *)
Lemma upper_levels_fuel n m l : (length l <= n)%nat -> (n <= m)%nat -> upper_levels n l = upper_levels m l.
Proof.
  revert m l. induction n as [|n IH]; intros [|m] l Hn Hm; cbn [upper_levels]; try lia; try done.
  { destruct (Nat.ltb_spec 1 (length l)); [lia|done]. }
  destruct (Nat.ltb_spec 1 (length l)); [|done]. f_equal. apply IH; [|lia].
  rewrite length_next_level. pose proof (half_smaller (length l)). lia.
Qed.

Lemma node_pairs_fuel n m l : (length l <= n)%nat -> (n <= m)%nat -> node_pairs_loop n l = node_pairs_loop m l.
Proof.
  revert m l. induction n as [|n IH]; intros [|m] l Hn Hm; cbn [node_pairs_loop]; try lia; try done.
  { destruct (Nat.ltb_spec 1 (length l)); [lia|done]. }
  destruct (Nat.ltb_spec 1 (length l)); [|done]. f_equal. apply IH; [|lia].
  rewrite length_next_level. pose proof (half_smaller (length l)). lia.
Qed.

Lemma next_level_shorter l : (1 < length l)%nat -> (length (next_level l) < length l)%nat.
Proof. rewrite length_next_level. apply half_smaller. Qed.

(** The recursion of the tree by one level at a time. *)
Lemma upper_levels_step l : (1 < length l)%nat ->
  upper_levels (length l) l = next_level l :: upper_levels (length (next_level l)) (next_level l).
Proof.
  intros Hl. destruct (length l) as [|n] eqn:Hn; [lia|]. cbn [upper_levels]. rewrite Hn.
  destruct (Nat.ltb_spec 1 (S n)); [|lia]. f_equal. symmetry.
  pose proof (next_level_shorter l ltac:(lia)). apply upper_levels_fuel; lia.
Qed.

Lemma node_pairs_step l : (1 < length l)%nat -> node_pairs l = level_pairs l ++ node_pairs (next_level l).
Proof.
  intros Hl. unfold node_pairs. destruct (length l) as [|n] eqn:Hn; [lia|]. cbn [node_pairs_loop]. rewrite Hn.
  destruct (Nat.ltb_spec 1 (S n)); [|lia]. f_equal. symmetry.
  pose proof (next_level_shorter l ltac:(lia)). apply node_pairs_fuel; lia.
Qed.

Lemma upper_levels_small l : (length l <= 1)%nat -> upper_levels (length l) l = [].
Proof. destruct l as [|a [|b l]]; cbn; [done..|lia]. Qed.

Lemma next_level_nonempty l : l <> [] -> next_level l <> [].
Proof. by destruct l as [|a [|b l]]. Qed.

Lemma merkle_tree_nil l : merkle_tree l = [] <-> l = [].
Proof. rewrite merkle_tree_levels. destruct l; [done|]. cbn. split; discriminate. Qed.

(** The root is the root of the next level. *)
Lemma BuildMerkleTree_last l : BuildMerkleTree l = List.last (merkle_tree l) 0.
Proof. unfold BuildMerkleTree. by destruct (merkle_tree l). Qed.

Lemma last_app_nonempty (l1 l2 : list Z) d : l2 <> [] -> List.last (l1 ++ l2) d = List.last l2 d.
Proof.
  intros H. induction l1 as [|a l1 IH]; [done|]. cbn [app List.last].
  destruct (l1 ++ l2) eqn:E; [by destruct (app_eq_nil _ _ E)|done].
Qed.

Lemma BuildMerkleTree_step l : (1 < length l)%nat -> BuildMerkleTree l = BuildMerkleTree (next_level l).
Proof.
  intros Hl. rewrite !BuildMerkleTree_last, !merkle_tree_levels, upper_levels_step by done. cbn [concat].
  apply last_app_nonempty. intros E. apply app_eq_nil in E as [E _].
  apply (next_level_nonempty l); [by intros ->; cbn in Hl; lia|done].
Qed.

Lemma BuildMerkleTree_one a : BuildMerkleTree [a] = a.
Proof. done. Qed.

(** Induction along the levels. *)
Lemma level_ind (P : list Z -> Prop) :
  P [] -> (forall a, P [a]) -> (forall l, (1 < length l)%nat -> P (next_level l) -> P l) -> forall l, P l.
Proof.
  intros H0 H1 H2 l. remember (length l) as n eqn:Hn. revert l Hn.
  induction n as [n IH] using lt_wf_ind. intros l ->.
  destruct l as [|a [|b l]]; [exact H0|apply H1|].
  assert (Hl : (1 < length (a :: b :: l))%nat) by (cbn; lia).
  apply H2; [exact Hl|]. eapply IH; [apply next_level_shorter, Hl|done].
Qed.
End merkle.
