(* ===== verification/MerkleProps.v ===== *)
(** * Properties of the Merkle tree: branches verify, roots bind *)

From S2P Require Import Prelude Interp Transaction Merkle.

Local Open Scope Z_scope.

Section props.
Context {SH : ScriptHashes}.

(** ** Branches *)

(** The node above node [i], from it and its neighbour. *)
Lemma next_level_nth l i : (i < length l)%nat ->
  nth (i / 2) (next_level l) 0 =
  if Nat.even i then Hash2 (nth i l 0) (nth (Nat.min (i + 1) (length l - 1)) l 0)
  else Hash2 (nth (i - 1) l 0) (nth i l 0).
Proof.
  revert i. induction l as [|a|a b l IH] using list_pair_ind; intros i Hi; cbn [length] in Hi; [lia| |].
  { by replace i with 0%nat by lia. }
  destruct i as [|[|i]]; [done|done|].
  replace (S (S i) / 2)%nat with (S (i / 2)).
  2: { replace (S (S i)) with (i + 1 * 2)%nat by lia. rewrite Nat.div_add by lia. lia. }
  rewrite next_level_drop2. cbn [nth]. rewrite IH by lia. cbn [Nat.even].
  destruct (Nat.even i) eqn:He.
  - f_equal. cbn [length].
    destruct (Nat.min_spec (i + 1) (length l - 1)) as [[Hm ->]|[Hm ->]].
    + replace (Nat.min (S (S i) + 1) (S (S (length l)) - 1)) with (S (S (i + 1))) by lia. done.
    + replace (Nat.min (S (S i) + 1) (S (S (length l)) - 1)) with (S (S (length l - 1))) by lia. done.
  - destruct i as [|i]; [done|]. by replace (S (S (S i)) - 1)%nat with (S (S (S i - 1))) by lia.
Qed.

Lemma even_mod i : Nat.even i = (i mod 2 =? 0)%nat.
Proof.
  rewrite (Nat.div_mod_eq i 2) at 1. rewrite Nat.even_add, Nat.even_mul. cbn [Nat.even orb].
  pose proof (Nat.mod_upper_bound i 2 ltac:(lia)). by destruct (i mod 2)%nat as [|[|]]; [| |lia].
Qed.

Lemma lxor_bit q r : 0 <= r < 2 -> Z.lxor (q * 2 + r) 1 = q * 2 + (1 - r).
Proof.
  intros Hr. assert (r = 0 \/ r = 1) as [-> | ->] by lia;
    [replace (q * 2 + 0) with (2 * q) by lia; replace (q * 2 + (1 - 0)) with (2 * q + 1) by lia
    |replace (q * 2 + 1) with (2 * q + 1) by lia; replace (q * 2 + (1 - 1)) with (2 * q) by lia];
    apply Z.bits_inj'; intros n Hn; rewrite Z.lxor_spec;
    (destruct (Z.eq_dec n 0) as [->|]; [by rewrite Z.testbit_even_0, Z.testbit_odd_0|]);
    replace n with (Z.succ (n - 1)) by lia;
    rewrite Z.testbit_even_succ, Z.testbit_odd_succ by lia;
    rewrite (Z.bits_above_log2 1) by (cbn; lia); by rewrite xorb_false_r.
Qed.

Lemma lxor_1 i : Z.lxor (Z.of_nat i) 1 = Z.of_nat (if Nat.even i then i + 1 else i - 1).
Proof.
  rewrite even_mod. pose proof (Nat.mod_upper_bound i 2 ltac:(lia)). pose proof (Nat.div_mod_eq i 2).
  replace (Z.of_nat i) with (Z.of_nat (i / 2) * 2 + Z.of_nat (i mod 2)) by lia.
  rewrite lxor_bit by lia. destruct (Nat.eqb_spec (i mod 2) 0); lia.
Qed.

Lemma land_1 i : (Z.land (Z.of_nat i) 1 =? 0) = Nat.even i.
Proof.
  rewrite even_mod, (Z.land_ones _ 1) by lia. change (2 ^ 1) with (Z.of_nat 2). rewrite <- Nat2Z.inj_mod.
  destruct (Nat.eqb_spec (i mod 2) 0) as [->|]; [done|]. apply Z.eqb_neq. lia.
Qed.

Lemma shiftr_1 i : Z.shiftr (Z.of_nat i) 1 = Z.of_nat (i / 2).
Proof. rewrite Z.shiftr_div_pow2 by lia. by rewrite Nat2Z.inj_div. Qed.

(** The walk up the tree: reading the branch of node [i] of a level out of
    the vector and hashing it ends at the root. *)
Lemma branch_verifies l : forall pre fuel i, (i < length l)%nat -> (length l <= fuel)%nat ->
  check_branch_loop (nth i l 0)
    (branch_loop fuel (length pre) (length l) (Z.of_nat i) (pre ++ l ++ concat (upper_levels (length l) l)))
    (Z.of_nat i) = BuildMerkleTree l.
Proof.
  induction l as [|a|l Hl IH] using level_ind; intros pre fuel i Hi Hfuel.
  - cbn in Hi. lia.
  - cbn in Hi. replace i with 0%nat by lia. by destruct fuel.
  - destruct fuel as [|fuel]; [lia|]. cbn [branch_loop].
    destruct (Nat.ltb_spec 1 (length l)); [|lia]. cbn [check_branch_loop].
    rewrite land_1, shiftr_1, lxor_1, BuildMerkleTree_step by done.
    set (k := Z.min _ _).
    assert (Hk : Z.to_nat k = if Nat.even i then Nat.min (i + 1) (length l - 1) else (i - 1)%nat).
    { subst k. destruct (Nat.even i); lia. }
    rewrite Hk, app_nth2_plus, app_nth1; [|destruct (Nat.even i); lia].
    specialize (IH (pre ++ l) fuel (i / 2)%nat).
    rewrite length_next_level, length_app in IH. rewrite next_level_nth in IH by done.
    rewrite upper_levels_step by done. cbn [concat]. rewrite length_next_level, (app_assoc pre).
    pose proof (half_smaller (length l) Hl). assert (i / 2 < (length l + 1) / 2)%nat.
    { pose proof (Nat.div_mod_eq i 2). pose proof (Nat.div_mod_eq (length l + 1) 2).
      pose proof (Nat.mod_upper_bound i 2). pose proof (Nat.mod_upper_bound (length l + 1) 2). lia. }
    destruct (Nat.even i); apply IH; lia.
Qed.

(** ** Roots *)

Lemma collision_free_eq ps p q :
  collision_free ps -> p ∈ ps -> q ∈ ps -> Hash2 p.1 p.2 = Hash2 q.1 q.2 -> p = q.
Proof. unfold collision_free. rewrite Forall_forall. intros H Hp. specialize (H p Hp). rewrite Forall_forall in H. auto. Qed.

Lemma collision_free_sub ps qs : (forall p, p ∈ qs -> p ∈ ps) -> collision_free ps -> collision_free qs.
Proof.
  intros Hsub H. apply Forall_forall. intros p Hp. apply Forall_forall. intros q Hq.
  apply (collision_free_eq ps); auto.
Qed.

(** Without collisions two levels with equal next levels were hashed from
    the same pairs. *)
Lemma pairs_of_hashes ps qs :
  collision_free (ps ++ qs) ->
  map (fun p => Hash2 p.1 p.2) ps = map (fun p => Hash2 p.1 p.2) qs -> ps = qs.
Proof.
  revert qs. induction ps as [|p ps IH]; intros [|q qs] Hcf Heq; cbn [map] in Heq; simplify_eq; [done|].
  assert (p = q) as ->. { apply (collision_free_eq _ _ _ Hcf); set_solver. }
  f_equal. apply IH; [|done]. eapply collision_free_sub; [|exact Hcf]; intros ? ?; set_solver.
Qed.

Lemma level_pairs_elem l p : p ∈ level_pairs l -> p.1 ∈ l /\ p.2 ∈ l.
Proof. induction l as [|a|a b l IH] using list_pair_ind; cbn [level_pairs]; set_solver. Qed.

Lemma level_pairs_NoDup l : NoDup l -> NoDup (level_pairs l).
Proof.
  induction l as [|a|a b l IH] using list_pair_ind; intros H; cbn [level_pairs].
  - constructor.
  - apply NoDup_singleton.
  - apply NoDup_cons in H as [Ha H]. apply NoDup_cons in H as [Hb H].
    constructor; [|by apply IH]. intros Hin. apply level_pairs_elem in Hin as [Hin _]. set_solver.
Qed.

(** Lists without repetition have the same pairs only if they are equal: the
    pairing of a last node with itself cannot be mistaken for a real pair. *)
Lemma level_pairs_inj l1 l2 : NoDup l1 -> NoDup l2 -> level_pairs l1 = level_pairs l2 -> l1 = l2.
Proof.
  revert l2. induction l1 as [|a|a b l1 IH] using list_pair_ind; intros [|c [|d l2]] H1 H2 Heq;
    cbn [level_pairs] in Heq; simplify_eq; try done.
  - apply NoDup_cons in H2 as [H2 _]. set_solver.
  - apply NoDup_cons in H1 as [H1 _]. set_solver.
  - do 2 f_equal. apply NoDup_cons in H1 as [_ H1]. apply NoDup_cons in H1 as [_ H1].
    apply NoDup_cons in H2 as [_ H2]. apply NoDup_cons in H2 as [_ H2]. auto.
Qed.

Lemma next_level_NoDup l : collision_free (level_pairs l) -> NoDup l -> NoDup (next_level l).
Proof.
  intros Hcf H. apply level_pairs_NoDup in H. unfold next_level.
  apply NoDup_fmap_2_strong; [|done]. intros p q Hp Hq. by apply (collision_free_eq _ _ _ Hcf).
Qed.

Lemma merkle_depth_step l : (1 < length l)%nat -> merkle_depth l = S (merkle_depth (next_level l)).
Proof. intros Hl. unfold merkle_depth. by rewrite upper_levels_step. Qed.

Lemma merkle_depth_0 l : merkle_depth l = 0%nat -> (length l <= 1)%nat.
Proof. destruct (le_lt_dec (length l) 1); [done|]. by rewrite merkle_depth_step. Qed.

Lemma root_binds l1 : forall l2, l1 <> [] -> l2 <> [] -> NoDup l1 -> NoDup l2 ->
  merkle_depth l1 = merkle_depth l2 -> collision_free (node_pairs l1 ++ node_pairs l2) ->
  BuildMerkleTree l1 = BuildMerkleTree l2 -> l1 = l2.
Proof.
  induction l1 as [|a|l1 Hl1 IH] using level_ind; intros l2 Hne1 Hne2 Hnd1 Hnd2 Hdepth Hcf Hroot; [done| |].
  - symmetry in Hdepth. apply merkle_depth_0 in Hdepth.
    destruct l2 as [|b [|c l2]]; [done| |cbn in Hdepth; lia]. cbn in Hroot. by subst.
  - assert (Hl2 : (1 < length l2)%nat).
    { destruct (le_lt_dec (length l2) 1) as [H|H]; [|done]. rewrite merkle_depth_step in Hdepth by done.
      unfold merkle_depth in Hdepth at 2. by rewrite upper_levels_small in Hdepth. }
    rewrite (node_pairs_step l1), (node_pairs_step l2) in Hcf by done. rewrite (merkle_depth_step l1), (merkle_depth_step l2) in Hdepth by done.
    rewrite (BuildMerkleTree_step l1), (BuildMerkleTree_step l2) in Hroot by done.
    assert (Hnext : next_level l1 = next_level l2).
    { apply IH; try done; try (by apply next_level_nonempty); try congruence.
      - apply next_level_NoDup; [|done]. eapply collision_free_sub; [|exact Hcf]; intros ? ?; set_solver.
      - apply next_level_NoDup; [|done]. eapply collision_free_sub; [|exact Hcf]; intros ? ?; set_solver.
      - eapply collision_free_sub; [|exact Hcf]; intros ? ?; set_solver. }
    apply level_pairs_inj; [done..|]. apply pairs_of_hashes; [|done].
    eapply collision_free_sub; [|exact Hcf]; intros ? ?; set_solver.
Qed.
End props.

(** The branch [GetMerkleBranch] returns for a transaction of a block, with
    the tree built before or not, leads [CheckMerkleBranch] from the
    transaction's hash to the root [BuildMerkleTree] returns. *)
Theorem GetMerkleBranch_verifies `{SH : ScriptHashes} hashes vMerkleTree nIndex
    (Hi : 0 <= nIndex < zlen hashes) (Htree : vMerkleTree = [] \/ vMerkleTree = merkle_tree hashes) :
  CheckMerkleBranch (nth (Z.to_nat nIndex) hashes 0) (GetMerkleBranch hashes vMerkleTree nIndex) nIndex =
  BuildMerkleTree hashes.
Proof.
  unfold CheckMerkleBranch, GetMerkleBranch, zlen in *. destruct (Z.eqb_spec nIndex (-1)); [lia|].
  assert ((match vMerkleTree with [] => merkle_tree hashes | _ => vMerkleTree end) = merkle_tree hashes) as ->.
  { by destruct Htree as [->| ->]; [|destruct (merkle_tree hashes)]. }
  rewrite merkle_tree_levels.
  pose proof (branch_verifies hashes [] (length hashes) (Z.to_nat nIndex)) as H.
  rewrite Z2Nat.id in H by lia. apply H; lia.
Qed.

#[local] Instance sum_hashes : ScriptHashes := {
  h_ripemd160 := fun v => v; h_sha1 := fun v => v; h_sha256 := fun v => v; h_hash160 := fun v => v;
  h_hash256 := fun v => le_encode 32 (3 * le_decode (take 32 v) + 7 * le_decode (drop 32 v) + 1) }.

Lemma GetMerkleBranch_verifies_witness :
  CheckMerkleBranch 14 (GetMerkleBranch [10; 11; 12; 13; 14] [] 4) 4 = BuildMerkleTree [10; 11; 12; 13; 14].
Proof. apply (GetMerkleBranch_verifies [10; 11; 12; 13; 14] [] 4); [decide_now|by left]. Defined.

(** The Merkle root binds the transactions: two blocks without repeated
    transactions (which [CheckBlock] refuses) whose trees have the same depth
    and no two different nodes with the same hash have the same root only if
    they have the same transactions in the same order. *)
Theorem BuildMerkleTree_binds `{SH : ScriptHashes} hashes1 hashes2
    (Hne1 : hashes1 <> []) (Hne2 : hashes2 <> []) (Hnd1 : NoDup hashes1) (Hnd2 : NoDup hashes2)
    (Hdepth : merkle_depth hashes1 = merkle_depth hashes2)
    (Hcf : collision_free (node_pairs hashes1 ++ node_pairs hashes2))
    (Hroot : BuildMerkleTree hashes1 = BuildMerkleTree hashes2) :
  hashes1 = hashes2.
Proof. by apply root_binds. Qed.

Lemma BuildMerkleTree_binds_witness : [10; 11; 12] = [10; 11; 12].
Proof.
  apply BuildMerkleTree_binds; [done|done|decide_now|decide_now|done| |done].
  repeat constructor; vm_compute; congruence.
Defined.

(** Without the test for repeated transactions the root would not bind. *)
Lemma merkle_root_of_repeated `{SH : ScriptHashes} a b c :
  BuildMerkleTree [a; b; c] = BuildMerkleTree [a; b; c; c].
Proof. done. Qed.
