(* ===== verification/Block.v ===== *)
(** * Blocks: [primitives/block.h] and [primitives/block.cpp]

    The data of a block with its wire format, [CheckBlock] and
    [CheckBlockSignature], the contextual tests of [AcceptBlock], and
    [ConnectBlock] and [DisconnectBlock] over the transaction index.
    [CBlock::GetHash] and [GetPoWHash] are those of [proofs.cpp], the payee of a
    height that of [masternode-payments.cpp]. *)

From S2P Require Import Prelude Opcode ScriptNum Script SigEncoding Interp LegacyInterp Serialize Transaction SigHash Bignum Chain TxConnect Merkle Proofs Stake Standard Policy.

Local Open Scope Z_scope.

(** ** Data *)

Record CBlock := {
  blk_nVersion : Z;
  blk_hashPrevBlock : Z;
  blk_hashMerkleRoot : Z;
  blk_nTime : Z;
  blk_nBits : Z;
  blk_nNonce : Z;
  vtx : list CTransaction;
  vchBlockSig : valtype;
}.

(** [CBlock::CURRENT_VERSION] *)
Definition BLOCK_VERSION : Z := 7.

(** [SetNull], [IsNull] *)
Definition null_block : CBlock := {|
  blk_nVersion := BLOCK_VERSION; blk_hashPrevBlock := 0; blk_hashMerkleRoot := 0; blk_nTime := 0; blk_nBits := 0;
  blk_nNonce := 0; vtx := []; vchBlockSig := []
|}.
Definition block_IsNull (b : CBlock) : bool := blk_nBits b =? 0.

(** The serialized fields, header first. *)
Definition fmt_block : Serialize CBlock :=
  fmt_iso (fmt_pair fmt_int (fmt_pair fmt_uint256 (fmt_pair fmt_uint256 (fmt_pair fmt_uint32 (fmt_pair fmt_uint32
      (fmt_pair fmt_uint32 (fmt_pair (fmt_vector fmt_tx) fmt_bytes)))))))
    (fun p => Build_CBlock p.1 p.2.1 p.2.2.1 p.2.2.2.1 p.2.2.2.2.1 p.2.2.2.2.2.1 p.2.2.2.2.2.2.1 p.2.2.2.2.2.2.2)
    (fun b => (blk_nVersion b, (blk_hashPrevBlock b, (blk_hashMerkleRoot b, (blk_nTime b, (blk_nBits b,
       (blk_nNonce b, (vtx b, vchBlockSig b)))))))).

#[export] Instance fmt_block_laws : SerializeLaws CBlock (S := fmt_block).
Proof. apply fmt_iso_laws; [by intros []|by intros [? [? [? [? [? [? []]]]]]]|apply _]. Qed.

Definition block_size (b : CBlock) : Z :=
  80 + (GetSizeOfCompactSize (zlen (vtx b)) + sum_Z (map tx_size (vtx b)))
  + (GetSizeOfCompactSize (zlen (vchBlockSig b)) + zlen (vchBlockSig b)).

Definition block_IsProofOfStake (b : CBlock) : bool :=
  match vtx b with _ :: tx :: _ => IsCoinStake tx | _ => false end.
Definition block_IsProofOfWork (b : CBlock) : bool := negb (block_IsProofOfStake b).

(** [GetProofOfStake], [GetMaxTransactionTime] *)
Definition GetProofOfStake (b : CBlock) : COutPoint * Z :=
  match vtx b with
  | _ :: tx :: _ =>
    match IsCoinStake tx, vin tx with
    | true, txin :: _ => (prevout txin, nTime tx)
    | _, _ => (null_outpoint, 0)
    end
  | _ => (null_outpoint, 0)
  end.
Definition GetMaxTransactionTime (b : CBlock) : Z := foldl (fun t tx => Z.max t (nTime tx)) 0 (vtx b).

Section block.
Context {SH : ScriptHashes} {EC : ECDSA}.

(** The header from [nVersion] to [nNonce], and its hash. *)
Definition block_header (b : CBlock) : list Z :=
  le_encode 4 (blk_nVersion b) ++ le_encode 32 (blk_hashPrevBlock b) ++ le_encode 32 (blk_hashMerkleRoot b) ++
  le_encode 4 (blk_nTime b) ++ le_encode 4 (blk_nBits b) ++ le_encode 4 (blk_nNonce b).
Definition GetPoWHash (b : CBlock) : Z := uint256_of (h_hash256 (block_header b)).
Definition block_GetHash (b : CBlock) : Z := GetPoWHash b.

Definition block_EntropyBit (b : CBlock) : Z := Z.land (block_GetHash b) 1.

Definition tx_hashes (b : CBlock) : list Z := map tx_GetHash (vtx b).

(** ** CheckBlockSignature *)

Definition CheckBlockSignature (b : CBlock) : bool :=
  if block_IsProofOfWork b then bool_decide (vchBlockSig b = [])
  else
    match vchBlockSig b, vtx b with
    | _ :: _, _ :: tx :: _ =>
      match Solver (scriptPubKey (nth 1 (vout tx) null_txout)) with
      | (true, TX_PUBKEY, vSolutions) =>
        match CPubKey_of (nth 0 vSolutions []) with
        | None => false
        | Some key => pubkey_Verify key (block_GetHash b) (vchBlockSig b)
        end
      | _ => false
      end
    | _, _ => false
    end.

(** ** CheckBlock *)

(** [CMasternodePayments::GetBlockPayee]: the payee of the first winner of the
    height in [vWinning]. *)
Definition GetBlockPayee (vWinning : list (Z * list Z)) (nBlockHeight : Z) : option (list Z) :=
  snd <$> find (fun winner => fst winner =? nBlockHeight) vWinning.

(** What [CheckBlock] reads of the node's state. *)
Record check_env := {
  Params : CChainParams;
  adjusted_time : Z;
  spork_block_filtering : bool;          (* IsSporkActive(SPORK_3_INSTANTX_BLOCK_FILTERING) *)
  mapLockedInputs : gmap COutPoint Z;
  fInitialDownload : bool;
  pindexBest : chain;
  vWinning : list (Z * list Z);
}.

Variable env : check_env.

(** A transaction of the block conflicts with a transaction lock. *)
Definition locked_in_block (b : CBlock) : bool :=
  existsb (fun tx =>
    negb (IsCoinBase tx) &&
    existsb (fun i => match mapLockedInputs env !! prevout i with
                      | Some h => negb (h =? tx_GetHash tx)
                      | None => false
                      end) (vin tx)) (vtx b).

(** The test of the masternode payment: [foundPaymentAndPayee]. *)
Definition found_payment (b : CBlock) (nHeight : Z) : bool :=
  let outs := match vtx b with _ :: tx :: _ => vout tx | _ => [] end in
  let masternodePaymentAmount := nValue (List.last outs null_txout) in
  let pays payee o := (nValue o =? masternodePaymentAmount) && bool_decide (scriptPubKey o = payee) in
  match GetBlockPayee (vWinning env) nHeight with
  | None | Some [] => true
  | Some payee => existsb (pays payee) outs
  end.

Definition masternode_test (b : CBlock) : outcome Z unit :=
  if negb (fInitialDownload env) then
    match pindexBest env with
    | pindex :: _ =>
      if block_IsProofOfStake b && (bi_hash pindex =? blk_hashPrevBlock b) then
        fail_if (negb (found_payment b (bi_nHeight pindex + 1))) 100
      else mret tt
    | [] => mret tt
    end
  else mret tt.

(** The loop over the transactions; a refused one adds its own score. *)
Fixpoint check_txs (nBlockTime : Z) (txs : list CTransaction) : outcome Z unit :=
  match txs with
  | [] => mret tt
  | tx :: txs =>
    _ ← CheckTransaction tx;
    _ ← fail_if (nBlockTime <? nTime tx) 50;
    check_txs nBlockTime txs
  end.

Fixpoint block_sigops (nSigOps : Z) (txs : list CTransaction) : outcome unit Z :=
  match txs with
  | [] => mret nSigOps
  | tx :: txs => n ← GetLegacySigOpCount tx; block_sigops (to_u32 (nSigOps + n)) txs
  end.

(** A callee that can only return, throw or abort. *)
Definition no_fail {E A} (m : outcome unit A) : outcome E A :=
  match m with Ok a => Ok a | Err _ | Throw => Throw | Crash => Crash end.

(** The tests on the kinds of the transactions. *)
Definition check_kinds (b : CBlock) : outcome Z unit :=
  match vtx b with
  | [] => Err 100
  | coinbase :: rest =>
    _ ← fail_if (negb (IsCoinBase coinbase)) 100;
    _ ← fail_if (existsb IsCoinBase rest) 100;
    if block_IsProofOfStake b then
      _ ← fail_if (match vout coinbase with [o] => negb (txout_IsEmpty o) | _ => true end) 100;
      match rest with
      | [] => Err 100
      | coinstake :: rest =>
        _ ← fail_if (negb (IsCoinStake coinstake)) 100;
        fail_if (existsb IsCoinStake rest) 100
      end
    else mret tt
  end.

(** [CheckBlock]: [Err n] returns false after adding [n] to [nDoS]. *)
Definition CheckBlock (b : CBlock) (fCheckPOW fCheckMerkleRoot fCheckSig : bool) : outcome Z unit :=
  _ ← fail_if (bool_decide (vtx b = []) || (MAX_BLOCK_SIZE <? zlen (vtx b)) || (MAX_BLOCK_SIZE <? block_size b)) 100;
  _ ← fail_if (fCheckPOW && block_IsProofOfWork b && negb (CheckProofOfWork (Params env) (GetPoWHash b) (blk_nBits b))) 50;
  _ ← fail_if (FutureDrift (adjusted_time env) <? blk_nTime b) 0;
  _ ← check_kinds b;
  _ ← fail_if (fCheckSig && negb (CheckBlockSignature b)) 100;
  _ ← fail_if (spork_block_filtering env && locked_in_block b) 0;
  _ ← masternode_test b;
  _ ← check_txs (blk_nTime b) (vtx b);
  _ ← fail_if (negb (bool_decide (size (list_to_set (C := gset Z) (tx_hashes b)) = length (vtx b)))) 100;
  nSigOps ← no_fail (block_sigops 0 (vtx b));
  _ ← fail_if (MAX_BLOCK_SIGOPS <? nSigOps) 100;
  fail_if (fCheckMerkleRoot && negb (blk_hashMerkleRoot b =? BuildMerkleTree (tx_hashes b))) 100.
End block.

(** ** ConnectBlock and DisconnectBlock *)

Section connect.
Context {SH : ScriptHashes} {EC : ECDSA}.
Variable env : check_env.
(** The block files, the memory pool, [nCoinbaseMaturity]. *)
Variable ReadTxFromDisk : CDiskTxPos -> option CTransaction.
Variables (mempool : gmap Z CTransaction) (nCoinbaseMaturity : Z).

(** The variables of the loop of [ConnectBlock]. *)
Record connect_state := {
  mapQueuedChanges : tx_db;
  nFees : Z;
  nValueIn : Z;
  nValueOut : Z;
  nStakeReward : Z;
  nSigOps : Z;
  c_nTxPos : Z;
}.

(** [nSigOps] with more operations, within the limit. *)
Definition add_block_sigops (n : Z) (m : outcome unit Z) : outcome Z Z :=
  k ← no_fail m;
  let n := to_u32 (n + k) in
  _ ← fail_if (MAX_BLOCK_SIGOPS <? n) 100;
  mret n.

(** [return false] of a callee: its score goes to the transaction, not to
    the block. *)
Definition no_score {E A} (m : outcome E A) : outcome Z A :=
  match m with Ok a => Ok a | Err _ => Err 0 | Throw => Throw | Crash => Crash end.

(** One round of the loop. *)
Definition connect_tx (txdb : tx_db) (pindex : chain) (fJustCheck : bool) (st : connect_state) (tx : CTransaction)
    : outcome Z connect_state :=
  nSig ← add_block_sigops (nSigOps st) (GetLegacySigOpCount tx);
  let b := hd null_index pindex in
  let posThisTx := {| nFile := bi_nFile b; nBlockPos := bi_nBlockPos b; nTxPos := c_nTxPos st |} in
  let pos' := if fJustCheck then c_nTxPos st else to_u32 (c_nTxPos st + tx_size tx) in
  let queue q := <[tx_GetHash tx := new_txindex posThisTx (length (vout tx))]> q in
  if IsCoinBase tx then
    nOut ← no_fail (GetValueOut tx);
    mret {| mapQueuedChanges := queue (mapQueuedChanges st); nFees := nFees st; nValueIn := nValueIn st;
            nValueOut := to_i64 (nValueOut st + nOut); nStakeReward := nStakeReward st; nSigOps := nSig; c_nTxPos := pos' |}
  else
    mapInputs ← no_score (FetchInputs ReadTxFromDisk txdb (mapQueuedChanges st) mempool true false tx ∅);
    nSig ← add_block_sigops nSig (GetP2SHSigOpCount tx mapInputs);
    nTxValueIn ← no_fail (GetValueIn tx mapInputs);
    nTxValueOut ← no_fail (GetValueOut tx);
    q ← no_score (ConnectInputs tx posThisTx pindex nCoinbaseMaturity true false true (fInitialDownload env)
                    SCRIPT_VERIFY_NOCACHE mapInputs (mapQueuedChanges st));
    mret {| mapQueuedChanges := queue q;
            nFees := if IsCoinStake tx then nFees st else to_i64 (nFees st + (nTxValueIn - nTxValueOut));
            nValueIn := to_i64 (nValueIn st + nTxValueIn);
            nValueOut := to_i64 (nValueOut st + nTxValueOut);
            nStakeReward := if IsCoinStake tx then to_i64 (nTxValueOut - nTxValueIn) else nStakeReward st;
            nSigOps := nSig; c_nTxPos := pos' |}.

Fixpoint connect_txs (txdb : tx_db) (pindex : chain) (fJustCheck : bool) (st : connect_state) (txs : list CTransaction)
    : outcome Z connect_state :=
  match txs with
  | [] => mret st
  | tx :: txs => st ← connect_tx txdb pindex fJustCheck st tx; connect_txs txdb pindex fJustCheck st txs
  end.

(** [pindex->nBlockPos + GetSerializeSize(CBlock()) - 2 * GetSizeOfCompactSize(0) +
    GetSizeOfCompactSize(vtx.size())], or 1 for the memory pool. *)
Definition first_tx_pos (b : CBlock) (pindex : chain) (fJustCheck : bool) : Z :=
  if fJustCheck then 1
  else to_u32 (bi_nBlockPos (hd null_index pindex) + block_size null_block - 2 * GetSizeOfCompactSize 0
               + GetSizeOfCompactSize (zlen (vtx b))).

(** The tests of the reward. *)
Definition check_reward (b : CBlock) (txdb : tx_db) (pindex : chain) (st : connect_state) : outcome Z unit :=
  let nHeight := bi_nHeight (hd null_index pindex) in
  _ ← (if block_IsProofOfWork b then
         nOut ← no_fail (GetValueOut (hd {| nVersion := 0; nTime := 0; vin := []; vout := []; nLockTime := 0 |} (vtx b)));
         fail_if (GetCoinbaseValue nHeight (nFees st) <? nOut) 50
       else mret tt);
  if block_IsProofOfStake b then
    match vtx b with
    | _ :: coinstake :: _ =>
      match GetCoinAge ReadTxFromDisk txdb (tl pindex) coinstake with
      | None => Err 0
      | Some nCoinAge => fail_if (GetCoinstakeValue nCoinAge (nFees st) nHeight <? nStakeReward st) 100
      end
    | _ => Crash
    end
  else mret tt.

(** [pindex->nMint] and [nMoneySupply] *)
Definition with_supply (pindex : chain) (st : connect_state) : chain :=
  match pindex with
  | [] => []
  | b :: pprev => {|
      bi_hash := bi_hash b; bi_nFile := bi_nFile b; bi_nBlockPos := bi_nBlockPos b; bi_nChainTrust := bi_nChainTrust b;
      bi_nHeight := bi_nHeight b;
      bi_nMint := to_i64 (nValueOut st - nValueIn st + nFees st);
      bi_nMoneySupply := to_i64 (match pprev with [] => 0 | p :: _ => bi_nMoneySupply p end + nValueOut st - nValueIn st);
      bi_nFlags := bi_nFlags b; bi_nStakeModifier := bi_nStakeModifier b; bi_bnStakeModifierV2 := bi_bnStakeModifierV2 b;
      bi_prevoutStake := bi_prevoutStake b; bi_nStakeTime := bi_nStakeTime b; bi_hashProof := bi_hashProof b;
      bi_nVersion := bi_nVersion b; bi_hashMerkleRoot := bi_hashMerkleRoot b; bi_nTime := bi_nTime b;
      bi_nBits := bi_nBits b; bi_nNonce := bi_nNonce b
    |} :: pprev
  end.

(** [ConnectBlock]: the block index entry with its supply and the
    transaction index with the queued changes written. *)
Definition ConnectBlock (b : CBlock) (txdb : tx_db) (pindex : chain) (fJustCheck : bool) : outcome Z (chain * tx_db) :=
  _ ← CheckBlock env b (negb fJustCheck) (negb fJustCheck) false;
  st ← connect_txs txdb pindex fJustCheck
         {| mapQueuedChanges := ∅; nFees := 0; nValueIn := 0; nValueOut := 0; nStakeReward := 0; nSigOps := 0;
            c_nTxPos := first_tx_pos b pindex fJustCheck |} (vtx b);
  _ ← check_reward b txdb pindex st;
  mret (with_supply pindex st, if fJustCheck then txdb else mapQueuedChanges st ∪ txdb).

(** [DisconnectBlock]: [Err tt] is [return false]. *)
Fixpoint disconnect_txs (txs : list CTransaction) (txdb : tx_db) : outcome unit tx_db :=
  match txs with
  | [] => mret txdb
  | tx :: txs => txdb ← DisconnectInputs tx txdb; disconnect_txs txs txdb
  end.

Definition DisconnectBlock (b : CBlock) (txdb : tx_db) : outcome unit tx_db := disconnect_txs (rev (vtx b)) txdb.

(** ** AcceptBlock *)

(** The tests of [AcceptBlock] before the block is written to disk, with the
    chain of the previous block, [find_index] being [mapBlockIndex]; [ReadBlockTime] as for the proof of stake.
    The result is [hashProof]. *)
Definition AcceptBlock_tests (ReadBlockTime : Z -> Z -> option Z) (find_index : Z -> option chain) (txdb : tx_db)
    (nBestHeight : Z) (fCheckpoints : bool) (checkpoints : gmap Z Z) (b : CBlock) : outcome Z Z :=
  _ ← fail_if (BLOCK_VERSION <? blk_nVersion b) 100;
  let hash := block_GetHash b in
  _ ← fail_if (bool_decide (is_Some (find_index hash))) 0;
  match find_index (blk_hashPrevBlock b) with
  | None => Err 10
  | Some pindexPrev =>
    let prev := hd null_index pindexPrev in
    let nHeight := bi_nHeight prev + 1 in
    let coinstake := nth 1 (vtx b) {| nVersion := 0; nTime := 0; vin := []; vout := []; nLockTime := 0 |} in
    let coinbase := hd {| nVersion := 0; nTime := 0; vin := []; vout := []; nLockTime := 0 |} (vtx b) in
    _ ← fail_if (block_IsProofOfWork b && (LastPOWBlock (Params env) <? nHeight)) 100;
    _ ← fail_if ((FutureDrift (nTime coinbase) <? blk_nTime b) && block_IsProofOfStake b) 50;
    _ ← fail_if (block_IsProofOfStake b && negb (CheckCoinStakeTimestamp nHeight (blk_nTime b) (nTime coinstake))) 50;
    _ ← fail_if (negb (blk_nBits b =? GetNextTargetRequired (Params env) pindexPrev (block_IsProofOfStake b))) 100;
    _ ← fail_if (FutureDrift (blk_nTime b) <? GetBlockTime prev) 0;
    _ ← fail_if (blk_nTime b <=? GetPastTimeLimit prev) 0;
    _ ← fail_if (existsb (fun tx => negb (IsFinalTx nBestHeight (adjusted_time env) tx nHeight (blk_nTime b))) (vtx b)) 10;
    _ ← fail_if (negb (CheckHardened fCheckpoints checkpoints nHeight hash)) 100;
    hashProof ← (if block_IsProofOfStake b then
                   fst <$> no_score (CheckProofOfStake ReadTxFromDisk ReadBlockTime txdb pindexPrev coinstake (blk_nBits b))
                 else mret (GetPoWHash b));
    let expect := push_int64 nHeight in
    match vin coinbase with
    | [] => Crash
    | txin :: _ =>
      _ ← fail_if (negb (bool_decide (take (length expect) (scriptSig txin) = expect))) 100;
      mret hashProof
    end
  end.
End connect.
