(* ===== verification/BlockProps.v ===== *)
(** * Properties of blocks

    What connecting a block does to the money supply, and that disconnecting
    undoes it. *)

From S2P Require Import Prelude Opcode ScriptNum Script SigEncoding Interp LegacyInterp Serialize Transaction TransactionProps SigHash Bignum Chain TxConnect TxConnectProps Merkle Proofs Stake Standard Policy Block.

Local Open Scope Z_scope.

(** ** Outcomes of callees *)

Lemma no_fail_Ok {E A} (m : outcome unit A) a : no_fail (E := E) m = Ok a <-> m = Ok a.
Proof. destruct m; cbn; split; congruence. Qed.

Lemma no_score_Ok {E A} (m : outcome E A) a : no_score m = Ok a <-> m = Ok a.
Proof. destruct m; cbn; split; congruence. Qed.

Lemma add_block_sigops_Ok n m k : add_block_sigops n m = Ok k -> 0 <= k <= MAX_BLOCK_SIGOPS.
Proof.
  unfold add_block_sigops. intros H. mon_inv. subst. split; [|lia]. unfold to_u32. apply Z.mod_pos_bound. lia.
Qed.

(** ** CheckBlock *)

Section check.
Context {SH : ScriptHashes} {EC : ECDSA}.
Variable env : check_env.

Lemma check_txs_Ok t txs u : check_txs t txs = Ok u -> Forall (fun tx => tx_well_formed tx /\ nTime tx <= t) txs.
Proof.
  induction txs as [|tx txs IH]; cbn [check_txs]; intros H; [done|]. apply bind_Ok in H as ([] & Hc & H).
  apply bind_Ok in H as (u' & Ht%fail_if_Ok & H). constructor; [|by apply IH]. split; [by apply CheckTransaction_Ok|lia].
Qed.

Lemma NoDup_size (l : list Z) : size (list_to_set (C := gset Z) l) = length l <-> NoDup l.
Proof.
  induction l as [|x l IH]; [split; [constructor|done]|]. cbn [list_to_set length]. rewrite NoDup_cons.
  destruct (decide (x ∈ l)) as [Hx|Hx].
  - split; [|by intros [? _]]. intros E.
    assert ({[x]} ∪ list_to_set l = (list_to_set l : gset Z)) as Eu by set_solver. rewrite Eu in E.
    assert (size (list_to_set l : gset Z) <= length l)%nat as Hle; [|lia].
    clear. induction l as [|y l IH]; [done|]. cbn [list_to_set length].
    pose proof (size_union_alt {[y]} (list_to_set l : gset Z)) as Hs. rewrite size_singleton in Hs.
    pose proof (subseteq_size (list_to_set l ∖ {[y]} : gset Z) (list_to_set l) ltac:(set_solver)). lia.
  - rewrite size_union by set_solver. rewrite size_singleton. rewrite <-IH. split; [intros; split; [done|lia]|lia].
Qed.

(** The shape of the blocks [CheckBlock] accepts. *)
Record block_shape (b : CBlock) : Prop := {
  bs_coinbase : exists cb rest, vtx b = cb :: rest /\ IsCoinBase cb = true /\ Forall (fun tx => IsCoinBase tx = false) rest;
  bs_coinstake : block_IsProofOfStake b = true -> exists cb o cs rest, vtx b = cb :: cs :: rest /\ vout cb = [o] /\
    txout_IsEmpty o = true /\ IsCoinStake cs = true /\ Forall (fun tx => IsCoinStake tx = false) rest;
  bs_txs : Forall (fun tx => tx_well_formed tx /\ nTime tx <= blk_nTime b) (vtx b);
  bs_unique : NoDup (tx_hashes b);
}.

Lemma Forall_existsb_false {A} (f : A -> bool) l : existsb f l = false <-> Forall (fun x => f x = false) l.
Proof.
  split; intros H.
  - apply Forall_forall. intros x Hx. destruct (f x) eqn:E; [|done].
    rewrite (proj2 (existsb_exists f l)) in H; [done|]. exists x. by rewrite <-list_elem_of_In.
  - induction H as [|x l Hx _ IH]; [done|]. cbn. by rewrite Hx.
Qed.

Lemma check_kinds_Ok b u : check_kinds b = Ok u ->
  (exists cb rest, vtx b = cb :: rest /\ IsCoinBase cb = true /\ Forall (fun tx => IsCoinBase tx = false) rest) /\
  (block_IsProofOfStake b = true -> exists cb o cs rest, vtx b = cb :: cs :: rest /\ vout cb = [o] /\
    txout_IsEmpty o = true /\ IsCoinStake cs = true /\ Forall (fun tx => IsCoinStake tx = false) rest).
Proof.
  unfold check_kinds. destruct (vtx b) as [|cb rest] eqn:E; [done|]. intros H.
  apply bind_Ok in H as (u1 & Hcb%fail_if_Ok%negb_false_iff & H).
  apply bind_Ok in H as (u2 & Hr%fail_if_Ok%Forall_existsb_false & H). split; [by exists cb, rest|].
  intros Hpos. rewrite Hpos in H. apply bind_Ok in H as (u3 & Ho%fail_if_Ok & H).
  destruct (vout cb) as [|o [|o2 outs]] eqn:Eo; try done. apply negb_false_iff in Ho.
  destruct rest as [|cs rest]; [done|]. apply bind_Ok in H as (u4 & Hcs%fail_if_Ok%negb_false_iff & H).
  apply fail_if_Ok, Forall_existsb_false in H. by exists cb, o, cs, rest.
Qed.

Lemma CheckBlock_shape b fPOW fMerkle fSig u : CheckBlock env b fPOW fMerkle fSig = Ok u -> block_shape b.
Proof.
  unfold CheckBlock. intros H. repeat match type of H with (_ ≫= _) = Ok _ => apply bind_Ok in H as (? & ? & H) end.
  match goal with H : check_kinds _ = Ok _ |- _ => apply check_kinds_Ok in H as [Hcb Hcs] end.
  match goal with H : check_txs _ _ = Ok _ |- _ => apply check_txs_Ok in H end.
  constructor; try done. apply NoDup_size. unfold tx_hashes in *. rewrite length_map.
  match goal with H : fail_if (negb (bool_decide (size _ = _))) _ = Ok _ |- _ =>
    apply fail_if_Ok, negb_false_iff, bool_decide_eq_true in H; exact H end.
Qed.
End check.

(** ** One transaction of a block *)

Section connect.
Context {SH : ScriptHashes} {EC : ECDSA}.
Variable env : check_env.
Variable ReadTxFromDisk : CDiskTxPos -> option CTransaction.
Variables (mempool : gmap Z CTransaction) (nCoinbaseMaturity : Z).
Variables (txdb : tx_db) (pindex : chain) (fJustCheck : bool).

Abbreviation connect_one := (connect_tx env ReadTxFromDisk mempool nCoinbaseMaturity txdb pindex fJustCheck).
Abbreviation connect_all := (connect_txs env ReadTxFromDisk mempool nCoinbaseMaturity txdb pindex fJustCheck).

Definition tx_pos (st : connect_state) : CDiskTxPos :=
  {| nFile := bi_nFile (hd null_index pindex); nBlockPos := bi_nBlockPos (hd null_index pindex); nTxPos := c_nTxPos st |}.

(** What a successful round did. *)
Inductive connected (st : connect_state) (tx : CTransaction) (st' : connect_state) : Prop :=
| connected_coinbase :
    IsCoinBase tx = true -> GetValueOut tx = Ok (total_out (vout tx)) ->
    mapQueuedChanges st' = <[tx_GetHash tx := new_txindex (tx_pos st) (length (vout tx))]> (mapQueuedChanges st) ->
    nFees st' = nFees st -> nValueIn st' = nValueIn st ->
    nValueOut st' = to_i64 (nValueOut st + total_out (vout tx)) -> nStakeReward st' = nStakeReward st ->
    connected st tx st'
| connected_spend mapInputs q i :
    IsCoinBase tx = false -> GetValueOut tx = Ok (total_out (vout tx)) ->
    FetchInputs ReadTxFromDisk txdb (mapQueuedChanges st) mempool true false tx ∅ = Ok mapInputs ->
    GetValueIn tx mapInputs = Ok i ->
    ConnectInputs tx (tx_pos st) pindex nCoinbaseMaturity true false true (fInitialDownload env) SCRIPT_VERIFY_NOCACHE
      mapInputs (mapQueuedChanges st) = Ok q ->
    mapQueuedChanges st' = <[tx_GetHash tx := new_txindex (tx_pos st) (length (vout tx))]> q ->
    nFees st' = (if IsCoinStake tx then nFees st else to_i64 (nFees st + (i - total_out (vout tx)))) ->
    nValueIn st' = to_i64 (nValueIn st + i) ->
    nValueOut st' = to_i64 (nValueOut st + total_out (vout tx)) ->
    nStakeReward st' = (if IsCoinStake tx then to_i64 (total_out (vout tx) - i) else nStakeReward st) ->
    connected st tx st'.

Lemma GetValueOut_total tx o : GetValueOut tx = Ok o -> o = total_out (vout tx) /\ 0 <= o <= MAX_MONEY.
Proof.
  intros H. apply GetValueOut_loop_spec in H as (Hp & Hm & ->); [|done]. pose proof (total_out_nonneg _ Hp). lia.
Qed.

Lemma connect_tx_Ok st tx st' : connect_one st tx = Ok st' -> connected st tx st'.
Proof.
  unfold connect_tx. intros H. apply bind_Ok in H as (n & _ & H). destruct (IsCoinBase tx) eqn:Hcb.
  - apply bind_Ok in H as (o & Ho%no_fail_Ok & H). injection H as <-.
    destruct (GetValueOut_total _ _ Ho) as [-> _]. by apply connected_coinbase.
  - apply bind_Ok in H as (r & Hr%(proj1 (no_score_Ok _ _)) & H). apply bind_Ok in H as (n2 & _ & H).
    apply bind_Ok in H as (i & Hi%no_fail_Ok & H). apply bind_Ok in H as (o & Ho%no_fail_Ok & H).
    apply bind_Ok in H as (q & Hq%(proj1 (no_score_Ok _ _)) & H). injection H as <-.
    destruct (GetValueOut_total _ _ Ho) as [-> _]. by eapply connected_spend.
Qed.

(** The index as the block sees it. *)
Definition overlay (st : connect_state) : tx_db := mapQueuedChanges st ∪ txdb.

Definition all_canonical (db : tx_db) : Prop := forall h ti, db !! h = Some ti -> slots_canonical ti.

Lemma mark_canonical p h ins ti : pos_IsNull p = false -> slots_canonical ti -> slots_canonical (mark p h ins ti).
Proof.
  intros Hp. revert ti. induction ins as [|i ins IH]; intros ti Hti; [done|]. cbn [mark]. apply IH. case_decide; [|done].
  unfold slots_canonical, set_spent in *. cbn. apply Forall_insert; [done|]. by rewrite Hp.
Qed.

Lemma new_txindex_canonical p n : slots_canonical (new_txindex p n).
Proof. unfold slots_canonical, new_txindex. cbn. by apply Forall_replicate. Qed.

Lemma connect_tx_undo st tx st' :
  connect_one st tx = Ok st' -> bi_nFile (hd null_index pindex) <> UINT_MAX ->
  Forall (fun i => 0 <= prevout_n (prevout i)) (vin tx) ->
  all_canonical (overlay st) -> overlay st !! tx_GetHash tx = None ->
  DisconnectInputs tx (overlay st') = Ok (overlay st) /\ all_canonical (overlay st') /\
  (forall h, is_Some (overlay st' !! h) -> h = tx_GetHash tx \/ is_Some (overlay st !! h)).
Proof.
  intros Hc Hfile Hins Hcan Hnew. assert (pos_IsNull (tx_pos st) = false) as Hpos by (unfold pos_IsNull; cbn; lia).
  apply connect_tx_Ok in Hc. destruct Hc as [Hcb _ Hq _ _ _ _|mapInputs q i Hcb _ Hf _ Hrun Hq _ _ _ _].
  - assert (overlay st' = <[tx_GetHash tx := new_txindex (tx_pos st) (length (vout tx))]> (overlay st)) as E.
    { unfold overlay. rewrite Hq. by rewrite insert_union_l. }
    rewrite E. split_and!.
    + unfold DisconnectInputs. rewrite Hcb. cbn. f_equal. by apply delete_insert_id.
    + intros h ti [[<- <-]|[_ H]]%lookup_insert_Some; [apply new_txindex_canonical|by eapply Hcan].
    + intros h [ti [[<- _]|[_ H]]%lookup_insert_Some]; eauto.
  - assert (overlay st' = <[tx_GetHash tx := new_txindex (tx_pos st) (length (vout tx))]> (q ∪ txdb)) as E.
    { unfold overlay. rewrite Hq. by rewrite insert_union_l. }
    pose proof (FetchInputs_block _ _ _ _ _ _ Hcb Hf) as Hdb.
    pose proof (connect_overlay tx (tx_pos st) pindex nCoinbaseMaturity false true _ _ mapInputs _ txdb q Hcb Hpos Hins Hdb Hrun) as Hov.
    rewrite E. split_and!.
    + eapply disconnect_connected; try done. intros h ti tp Hti. by apply (Hcan h), (Hdb _ _ tp).
    + intros h ti [[<- <-]|[_ H]]%lookup_insert_Some; [apply new_txindex_canonical|].
      rewrite Hov in H. fold (overlay st) in H. destruct (overlay st !! h) as [t|] eqn:Et; [|done]. injection H as <-.
      apply mark_canonical; [done|by eapply Hcan].
    + intros h [ti [[<- _]|[_ H]]%lookup_insert_Some]; [by left|]. right. rewrite Hov in H. unfold overlay.
      by destruct ((mapQueuedChanges st ∪ txdb) !! h).
Qed.

Lemma disconnect_txs_app l1 l2 db : disconnect_txs (l1 ++ l2) db = (db' ← disconnect_txs l1 db; disconnect_txs l2 db').
Proof. revert db. induction l1 as [|tx l1 IH]; intros db; cbn; [done|]. destruct (DisconnectInputs tx db); cbn; [apply IH|done..]. Qed.

Lemma connect_txs_undo txs st st' :
  connect_all st txs = Ok st' -> bi_nFile (hd null_index pindex) <> UINT_MAX ->
  Forall (fun tx => Forall (fun i => 0 <= prevout_n (prevout i)) (vin tx)) txs ->
  all_canonical (overlay st) -> Forall (fun tx => overlay st !! tx_GetHash tx = None) txs -> NoDup (map tx_GetHash txs) ->
  disconnect_txs (rev txs) (overlay st') = Ok (overlay st).
Proof.
  intros H Hfile Hins. revert st H. induction Hins as [|tx txs Hi Hins IH]; intros st H Hcan Hnew Hnd.
  - injection H as <-. done.
  - cbn [connect_txs] in H. apply bind_Ok in H as (st1 & H1 & H).
    apply Forall_cons in Hnew as [Hn Hnew]. cbn [map] in Hnd. apply NoDup_cons in Hnd as [Hni Hnd].
    destruct (connect_tx_undo _ _ _ H1 Hfile Hi Hcan Hn) as (Hd & Hcan1 & Hdom).
    cbn [rev]. rewrite disconnect_txs_app. rewrite (IH st1 H Hcan1); [cbn; by rewrite Hd| |done].
    apply Forall_forall. intros t Ht. apply eq_None_not_Some. intros Hs. destruct (Hdom _ Hs) as [E|[ti E]].
    + apply Hni. rewrite <-E. by apply list_elem_of_In, in_map, list_elem_of_In.
    + rewrite Forall_forall in Hnew. by rewrite (Hnew _ Ht) in E.
Qed.
End connect.

(** What a connected block leaves in the index: disconnecting it gives the
    index back, and only its transactions are new. *)
Section connect_block.
Context {SH : ScriptHashes} {EC : ECDSA}.
Variable env : check_env.
Variable ReadTxFromDisk : CDiskTxPos -> option CTransaction.
Variables (mempool : gmap Z CTransaction) (nCoinbaseMaturity : Z).

Lemma connect_txs_index txdb pindex txs st st' :
  connect_txs env ReadTxFromDisk mempool nCoinbaseMaturity txdb pindex false st txs = Ok st' ->
  bi_nFile (hd null_index pindex) <> UINT_MAX ->
  Forall (fun tx => Forall (fun i => 0 <= prevout_n (prevout i)) (vin tx)) txs ->
  all_canonical (overlay txdb st) -> Forall (fun tx => overlay txdb st !! tx_GetHash tx = None) txs -> NoDup (map tx_GetHash txs) ->
  all_canonical (overlay txdb st') /\
  (forall h, is_Some (overlay txdb st' !! h) -> h ∈ map tx_GetHash txs \/ is_Some (overlay txdb st !! h)).
Proof.
  intros H Hfile Hins. revert st H. induction Hins as [|tx txs Hi Hins IH]; intros st H Hcan Hnew Hnd.
  - injection H as <-. split; [done|]. by right.
  - cbn [connect_txs] in H. apply bind_Ok in H as (st1 & H1 & H).
    apply Forall_cons in Hnew as [Hn Hnew]. cbn [map] in Hnd. apply NoDup_cons in Hnd as [Hni Hnd].
    destruct (connect_tx_undo _ _ _ _ _ _ _ _ _ _ H1 Hfile Hi Hcan Hn) as (_ & Hcan1 & Hdom).
    destruct (IH st1 H Hcan1) as [Hcan' Hdom']; [|done|].
    + apply Forall_forall. intros t Ht. apply eq_None_not_Some. intros Hs. destruct (Hdom _ Hs) as [E|[ti E]].
      * apply Hni. rewrite <-E. by apply list_elem_of_In, in_map, list_elem_of_In.
      * rewrite Forall_forall in Hnew. by rewrite (Hnew _ Ht) in E.
    + split; [done|]. intros h [Hh|Hh%Hdom]%Hdom'; cbn; set_solver.
Qed.

Lemma ConnectBlock_index b txdb pindex pindex' txdb' :
  ConnectBlock env ReadTxFromDisk mempool nCoinbaseMaturity b txdb pindex false = Ok (pindex', txdb') ->
  bi_nFile (hd null_index pindex) <> UINT_MAX ->
  Forall (fun tx => Forall (fun i => 0 <= prevout_n (prevout i)) (vin tx)) (vtx b) ->
  all_canonical txdb -> Forall (fun tx => txdb !! tx_GetHash tx = None) (vtx b) ->
  DisconnectBlock b txdb' = Ok txdb /\ all_canonical txdb' /\
  (forall h, is_Some (txdb' !! h) -> h ∈ tx_hashes b \/ is_Some (txdb !! h)).
Proof.
  intros Hrun Hfile Hins Hcan Hnew. unfold ConnectBlock in Hrun.
  apply bind_Ok in Hrun as (u & [_ _ _ Hnd]%CheckBlock_shape & Hrun).
  apply bind_Ok in Hrun as (st & Hst & Hrun). apply bind_Ok in Hrun as (u2 & Hr & Hrun). injection Hrun as _ <-.
  match type of Hst with connect_txs _ _ _ _ _ _ _ ?s0 _ = _ => set (st0 := s0) in Hst end.
  assert (overlay txdb st0 = txdb) as E by (unfold overlay; cbn; by rewrite (left_id_L ∅ (∪))).
  pose proof (connect_txs_undo _ _ _ _ _ _ _ _ _ _ Hst Hfile Hins) as H1.
  pose proof (connect_txs_index _ _ _ _ _ Hst Hfile Hins) as H2. rewrite E in H1, H2. split; [by apply H1|by apply H2].
Qed.
End connect_block.

(** ** Values *)

Section values.
Context {SH : ScriptHashes} {EC : ECDSA}.

Lemma GetOutputFor_value inputs i o : GetOutputFor i inputs = Ok o -> input_value inputs i = nValue o.
Proof.
  unfold GetOutputFor, input_value. destruct (inputs !! _) as [[ti tp]|]; [|done]. intros H. mon_inv.
  by rewrite (nth_lookup_Some _ _ _ _ H).
Qed.

Lemma sum_nonneg {A} (f : A -> Z) l : Forall (fun x => 0 <= f x <= MAX_MONEY) l -> 0 <= sum_Z (map f l).
Proof. induction 1; cbn; lia. Qed.

Lemma value_in_loop_exact n ins inputs v :
  value_in_loop n ins inputs = Ok v -> 0 <= n -> Forall (fun i => 0 <= input_value inputs i <= MAX_MONEY) ins ->
  n + sum_Z (map (input_value inputs) ins) <= MAX_MONEY -> v = n + sum_Z (map (input_value inputs) ins).
Proof.
  intros H Hn Hall. revert n Hn H. induction Hall as [|i ins Hi Hall IH]; intros n Hn H Hmax; cbn in H, Hmax |- *.
  - injection H as <-. lia.
  - apply bind_Ok in H as (o & Ho & H). rewrite (GetOutputFor_value _ _ _ Ho) in *.
    pose proof (sum_nonneg _ _ Hall). rewrite to_i64_id in H by (unfold MAX_MONEY, COIN, INT64_MIN, INT64_MAX in *; lia).
    apply IH in H; [|lia|lia]. lia.
Qed.

(** A connected transaction brings in at most all the money, and unless it is
    a coinstake no less than it pays out. *)
Lemma connected_value_in tx p pindex mat fMiner fV fI flags inputs pool pool' i :
  IsCoinBase tx = false -> Forall (fun i => 0 <= prevout_n (prevout i)) (vin tx) ->
  ConnectInputs tx p pindex mat true fMiner fV fI flags inputs pool = Ok pool' ->
  GetValueIn tx inputs = Ok i -> 0 <= i <= MAX_MONEY /\ (IsCoinStake tx = false -> total_out (vout tx) <= i).
Proof.
  intros Hcb Hins H Hi. apply ConnectInputs_Ok in H as (v & inputs' & Hv & _ & Ho); [|done..].
  apply connect_values_Ok in Hv as (_ & -> & Hr & Hall); [|done..].
  unfold GetValueIn in Hi. rewrite Hcb in Hi. apply value_in_loop_exact in Hi; [|lia|done|lia]. subst i.
  split; [lia|]. intros Hcs. destruct (Ho Hcs) as (o & Hout & Hle & _). unfold GetValueOut in Hout.
  apply GetValueOut_loop_spec in Hout as (_ & _ & ->); [|done]. lia.
Qed.

(** The sums after [k] transactions. *)
Definition sums_ok (k : Z) (st : connect_state) : Prop :=
  0 <= nFees st <= k * MAX_MONEY /\ 0 <= nValueIn st <= k * MAX_MONEY /\ 0 <= nValueOut st <= k * MAX_MONEY.

(** What the block creates, the fees included. *)
Definition minted (st : connect_state) : Z := nValueOut st - nValueIn st + nFees st.

Lemma connected_sums env Read mempool mat txdb pindex st tx st' k :
  connected env Read mempool mat txdb pindex st tx st' -> sums_ok k st -> 0 <= k < 4000 ->
  Forall (fun i => 0 <= prevout_n (prevout i)) (vin tx) ->
  sums_ok (k + 1) st' /\ exists d, minted st' = minted st + d /\
    (IsCoinBase tx = true -> d = total_out (vout tx)) /\
    (IsCoinBase tx = false -> IsCoinStake tx = false -> d = 0) /\
    nStakeReward st' = if IsCoinBase tx then nStakeReward st else if IsCoinStake tx then d else nStakeReward st.
Proof.
  unfold sums_ok, minted. intros Hc (Hf & Hi & Ho) Hk Hins.
  assert (0 <= k * MAX_MONEY /\ (k + 1) * MAX_MONEY = k * MAX_MONEY + MAX_MONEY /\ k * MAX_MONEY + MAX_MONEY <= INT64_MAX) as (Hk0 & Hk1 & Hk2)
    by (unfold MAX_MONEY, COIN, INT64_MAX; lia).
  assert (INT64_MIN < - MAX_MONEY /\ 0 < MAX_MONEY) as [Hmin Hpos] by done.
  destruct Hc as [Hcb Hout _ E1 E2 E3 E4|mapInputs q i Hcb Hout _ Hi' Hrun _ E1 E2 E3 E4].
  - destruct (GetValueOut_total _ _ Hout) as [_ Ht]. rewrite to_i64_id in E3 by lia.
    split; [lia|]. exists (total_out (vout tx)). rewrite Hcb. split; [lia|]. by split.
  - destruct (GetValueOut_total _ _ Hout) as [_ Ht].
    destruct (connected_value_in _ _ _ _ _ _ _ _ _ _ _ _ Hcb Hins Hrun Hi') as [Hr Hle].
    rewrite to_i64_id in E2 by lia. rewrite to_i64_id in E3 by lia. rewrite Hcb.
    destruct (IsCoinStake tx).
    + rewrite to_i64_id in E4 by lia. split; [lia|]. exists (total_out (vout tx) - i). split; [lia|]. by split.
    + specialize (Hle eq_refl). rewrite to_i64_id in E1 by lia. split; [lia|]. exists 0. split; [lia|]. by split.
Qed.

(** Ordinary transactions move money into the fees and create none. *)
Lemma ordinary_sums env Read mempool mat txdb pindex fJust txs st st' k :
  connect_txs env Read mempool mat txdb pindex fJust st txs = Ok st' -> sums_ok k st -> 0 <= k -> k + zlen txs <= 4000 ->
  Forall (fun tx => IsCoinBase tx = false) txs -> Forall (fun tx => IsCoinStake tx = false) txs ->
  Forall (fun tx => Forall (fun i => 0 <= prevout_n (prevout i)) (vin tx)) txs ->
  sums_ok 4000 st' /\ minted st' = minted st /\ nStakeReward st' = nStakeReward st.
Proof.
  revert st k. induction txs as [|tx txs IH]; intros st k H Hs Hk Hlen Hcb Hcs Hins; cbn [connect_txs] in H.
  - injection H as <-. split; [|done]. unfold sums_ok in *. rewrite zlen_nil in Hlen. unfold MAX_MONEY, COIN in *. lia.
  - rewrite zlen_cons in Hlen. pose proof (zlen_nonneg txs).
    apply bind_Ok in H as (st1 & H1%connect_tx_Ok & H).
    apply Forall_cons in Hcb as [Hcb1 Hcb]. apply Forall_cons in Hcs as [Hcs1 Hcs]. apply Forall_cons in Hins as [Hi1 Hins].
    destruct (connected_sums _ _ _ _ _ _ _ _ _ _ H1 Hs ltac:(lia) Hi1) as (Hs1 & d & Hd & _ & Hd0 & Hr).
    rewrite Hcb1, Hcs1 in Hr. destruct (IH st1 (k + 1) H Hs1 ltac:(lia) ltac:(lia) Hcb Hcs Hins) as (Hs' & Hm & Hsr).
    split; [done|]. rewrite Hm, Hsr. specialize (Hd0 Hcb1 Hcs1). split; [lia|done].
Qed.

Lemma GetCoinbaseValue_fees h fees : 0 <= fees <= 4000 * MAX_MONEY -> GetCoinbaseValue h fees = GetCoinbaseValue h 0 + fees.
Proof.
  intros Hf. unfold GetCoinbaseValue, MAX_MONEY, COIN in *. repeat case_match;
    rewrite !to_i64_id by (unfold INT64_MIN, INT64_MAX; lia); lia.
Qed.

Lemma GetCoinbaseValue_bounds h : 0 <= GetCoinbaseValue h 0 <= 100000 * COIN.
Proof.
  unfold GetCoinbaseValue, COIN. repeat case_match; rewrite !to_i64_id by (unfold INT64_MIN, INT64_MAX; lia); lia.
Qed.
End values.

(** ** Properties *)

(** The new money a block may create. *)
Definition block_subsidy (b : CBlock) (nHeight : Z) : Z :=
  if block_IsProofOfStake b then 10 * COIN else GetCoinbaseValue nHeight 0.

Definition prev_supply (pindex : chain) : Z := match pindex with _ :: p :: _ => bi_nMoneySupply p | _ => 0 end.

Section supply.
Context {SH : ScriptHashes} {EC : ECDSA}.
Variables (env : check_env) (ReadTxFromDisk : CDiskTxPos -> option CTransaction).
Variables (mempool : gmap Z CTransaction) (nCoinbaseMaturity : Z) (b : CBlock) (txdb : tx_db) (pindex : chain) (fJustCheck : bool).
Hypothesis Hlen : zlen (vtx b) <= 4000.
Hypothesis Hins : Forall (fun tx => Forall (fun i => 0 <= prevout_n (prevout i)) (vin tx)) (vtx b).

Definition start_state : connect_state :=
  {| mapQueuedChanges := ∅; nFees := 0; nValueIn := 0; nValueOut := 0; nStakeReward := 0; nSigOps := 0;
     c_nTxPos := first_tx_pos b pindex fJustCheck |}.

Lemma start_sums : sums_ok 0 start_state.
Proof. by repeat split. Qed.

Lemma coinbase_not_coinstake tx : IsCoinBase tx = true -> IsCoinStake tx = false.
Proof.
  unfold IsCoinBase, IsCoinStake. destruct (vin tx) as [|i [|? ?]]; try done. intros H.
  destruct (outpoint_IsNull (prevout i)); [|done]. by destruct (vout tx) as [|? [|? ?]].
Qed.

(** All the money of a block without stake comes from its coinbase. *)
Lemma pow_minted st :
  block_shape b -> Forall (fun tx => IsCoinStake tx = false) (vtx b) ->
  connect_txs env ReadTxFromDisk mempool nCoinbaseMaturity txdb pindex fJustCheck start_state (vtx b) = Ok st ->
  sums_ok 4000 st /\ exists cb rest, vtx b = cb :: rest /\ minted st = total_out (vout cb).
Proof.
  intros [(cb & rest & E & Hcb & Hrest) _ _ _] Hcs H. rewrite E in *. rewrite zlen_cons in Hlen.
  pose proof (zlen_nonneg rest). cbn [connect_txs] in H. apply bind_Ok in H as (st1 & H1%connect_tx_Ok & H).
  apply Forall_cons in Hcs as [_ Hcs]. apply Forall_cons in Hins as [Hi1 Hi].
  destruct (connected_sums _ _ _ _ _ _ _ _ _ 0 H1 start_sums ltac:(lia) Hi1) as (Hs1 & d & Hd & Hdc & _).
  destruct (ordinary_sums _ _ _ _ _ _ _ _ _ _ (0 + 1) H Hs1 ltac:(lia) ltac:(lia) Hrest Hcs Hi) as (Hs & Hm & _).
  split; [done|]. exists cb, rest. split; [done|]. rewrite Hm, Hd, (Hdc Hcb). done.
Qed.

(** All the money of a block with stake comes from its coinstake. *)
Lemma pos_minted st :
  block_shape b -> block_IsProofOfStake b = true ->
  connect_txs env ReadTxFromDisk mempool nCoinbaseMaturity txdb pindex fJustCheck start_state (vtx b) = Ok st ->
  sums_ok 4000 st /\ minted st = nStakeReward st.
Proof.
  intros [(cb & rest & E & Hcb & Hrest) Hstake _ _] Hpos H.
  destruct (Hstake Hpos) as (cb' & o & cs & rest' & E' & Eo & Ho & Hcs & Hrcs). rewrite E' in *. injection E as <- <-.
  apply Forall_cons in Hrest as [Hcbs Hrest]. rewrite !zlen_cons in Hlen. pose proof (zlen_nonneg rest').
  cbn [connect_txs] in H. apply bind_Ok in H as (st1 & H1%connect_tx_Ok & H). apply bind_Ok in H as (st2 & H2%connect_tx_Ok & H).
  apply Forall_cons in Hins as [Hi1 [Hi2 Hi]%Forall_cons].
  destruct (connected_sums _ _ _ _ _ _ _ _ _ 0 H1 start_sums ltac:(lia) Hi1) as (Hs1 & d1 & Hd1 & Hdc & _).
  destruct (connected_sums _ _ _ _ _ _ _ _ _ (0 + 1) H2 Hs1 ltac:(lia) Hi2) as (Hs2 & d2 & Hd2 & _ & _ & Hr2).
  destruct (ordinary_sums _ _ _ _ _ _ _ _ _ _ (0 + 1 + 1) H Hs2 ltac:(lia) ltac:(lia) Hrest Hrcs Hi) as (Hs & Hm & Hr).
  split; [done|]. rewrite Hm, Hd2, Hd1, Hr, Hr2, Hcbs, Hcs, (Hdc Hcb), Eo. unfold total_out. cbn.
  unfold txout_IsEmpty in Ho. apply andb_prop in Ho as [Hv _]. unfold minted. cbn. lia.
Qed.

(** The rewards that pass bound what is created by the subsidy and the fees. *)
Lemma minted_bound st u :
  block_shape b -> (block_IsProofOfStake b = false -> Forall (fun tx => IsCoinStake tx = false) (vtx b)) ->
  connect_txs env ReadTxFromDisk mempool nCoinbaseMaturity txdb pindex fJustCheck start_state (vtx b) = Ok st ->
  check_reward ReadTxFromDisk b txdb pindex st = Ok u ->
  sums_ok 4000 st /\ minted st <= block_subsidy b (bi_nHeight (hd null_index pindex)) + nFees st.
Proof.
  intros Hb Hpow H Hr. unfold check_reward, block_IsProofOfWork, block_subsidy in *.
  apply bind_Ok in Hr as (u1 & Hw & Hs). destruct (block_IsProofOfStake b) eqn:Hpos; cbn [negb] in Hw.
  - destruct (pos_minted _ Hb Hpos H) as [Hsums Hm]. split; [done|]. rewrite Hm.
    destruct (vtx b) as [|? [|cs ?]]; try done. destruct (GetCoinAge _ _ _ _) as [age|]; [|done]. apply fail_if_Ok in Hs.
    destruct Hsums as [Hf _]. unfold GetCoinstakeValue, MAX_MONEY, COIN in *.
    rewrite to_i64_id in Hs by (unfold INT64_MIN, INT64_MAX; lia). lia.
  - destruct (pow_minted _ Hb (Hpow eq_refl) H) as [Hsums (cb & rest & E & Hm)]. split; [done|]. rewrite Hm.
    rewrite E in Hw. cbn [hd] in Hw. apply bind_Ok in Hw as (o & Ho%no_fail_Ok & Hle%fail_if_Ok).
    destruct (GetValueOut_total _ _ Ho) as [-> _]. destruct Hsums as [Hf _].
    rewrite GetCoinbaseValue_fees in Hle by done. lia.
Qed.
End supply.

(** C23: a connected block raises the money supply the index records by at most
    its subsidy: the coinbase value of its height, or ten coins for a block with
    stake.  A proof-of-work block must hold no coinstake: [CheckBlock] does not
    look for one. *)
Theorem ConnectBlock_supply `{SH : ScriptHashes, EC : ECDSA} env ReadTxFromDisk mempool nCoinbaseMaturity b txdb pindex
    fJustCheck pindex' txdb'
    (Hrun : ConnectBlock env ReadTxFromDisk mempool nCoinbaseMaturity b txdb pindex fJustCheck = Ok (pindex', txdb'))
    (Hpow : block_IsProofOfStake b = false -> Forall (fun tx => IsCoinStake tx = false) (vtx b))
    (Hlen : zlen (vtx b) <= 4000) (Hsupply : 0 <= prev_supply pindex <= 2 ^ 62)
    (Hins : Forall (fun tx => Forall (fun i => 0 <= prevout_n (prevout i)) (vin tx)) (vtx b)) :
  bi_nMoneySupply (hd null_index pindex') <=
    prev_supply pindex + block_subsidy b (bi_nHeight (hd null_index pindex)).
Proof.
  unfold ConnectBlock in Hrun. apply bind_Ok in Hrun as (u & Hb%CheckBlock_shape & Hrun).
  apply bind_Ok in Hrun as (st & Hst & Hrun). apply bind_Ok in Hrun as (u2 & Hr & Hrun). injection Hrun as <- _.
  destruct (minted_bound _ _ _ _ _ _ _ fJustCheck Hlen Hins st u2 Hb Hpow Hst Hr) as [(Hf & Hi & Ho) Hm].
  unfold minted in Hm.
  assert (0 <= block_subsidy b (bi_nHeight (hd null_index pindex)) <= 100000 * COIN) as Hsub.
  { unfold block_subsidy. destruct (block_IsProofOfStake b); [done|apply GetCoinbaseValue_bounds]. }
  destruct pindex as [|e pprev]; [cbn in *; lia|]. cbn [with_supply hd bi_nMoneySupply].
  replace (match pprev with [] => 0 | p :: _ => bi_nMoneySupply p end) with (prev_supply (e :: pprev)) by (by destruct pprev).
  cbn [hd] in Hm, Hsub. unfold MAX_MONEY, COIN in *.
  rewrite to_i64_id by (unfold INT64_MIN, INT64_MAX; lia). lia.
Qed.

(** C25: [DisconnectBlock] undoes [ConnectBlock]: when none of the block's
    transactions was indexed before, disconnecting the connected block gives
    the transaction index from before. *)
Theorem DisconnectBlock_undoes `{SH : ScriptHashes, EC : ECDSA} env ReadTxFromDisk mempool nCoinbaseMaturity b txdb pindex
    pindex' txdb'
    (Hrun : ConnectBlock env ReadTxFromDisk mempool nCoinbaseMaturity b txdb pindex false = Ok (pindex', txdb'))
    (Hfile : bi_nFile (hd null_index pindex) <> UINT_MAX)
    (Hins : Forall (fun tx => Forall (fun i => 0 <= prevout_n (prevout i)) (vin tx)) (vtx b))
    (Hcan : all_canonical txdb) (Hnew : Forall (fun tx => txdb !! tx_GetHash tx = None) (vtx b)) :
  DisconnectBlock b txdb' = Ok txdb.
Proof. by eapply ConnectBlock_index. Qed.

(** ** Examples *)

#[local] Instance toy_hashes : ScriptHashes := {
  h_ripemd160 := firstn 20; h_sha1 := firstn 20; h_sha256 := firstn 32; h_hash160 := firstn 20; h_hash256 := firstn 8
}.
#[local] Instance toy_ecdsa : ECDSA := { pubkey_Verify _ _ _ := false; pubkey_CheckLowS _ := false }.

Definition toy_source : CTransaction := {|
  nVersion := 1; nTime := 900; vin := [sample_in 5]; vout := [sample_out 20; sample_out 7]; nLockTime := 0
|}.
Definition toy_coinbase : CTransaction := {|
  nVersion := 1; nTime := 1000; vin := [{| prevout := null_outpoint; scriptSig := [1; 12]; nSequence := UINT_MAX |}];
  vout := [sample_out (2500 * COIN)]; nLockTime := 0
|}.
Definition spend_source (n t : Z) (outs : list CTxOut) : CTransaction := {|
  nVersion := 1; nTime := t;
  vin := [{| prevout := {| prevout_hash := tx_GetHash toy_source; prevout_n := n |}; scriptSig := []; nSequence := 0 |}];
  vout := outs; nLockTime := 0
|}.
Definition toy_ordinary : CTransaction := spend_source 0 1001 [sample_out 15].
(** A coinstake worth a million coins, from an input of seven units. *)
Definition rogue_coinstake : CTransaction := spend_source 1 1002 [empty_txout; sample_out (1000000 * COIN)].

Definition toy_block (txs : list CTransaction) : CBlock := {|
  blk_nVersion := 7; blk_hashPrevBlock := 77; blk_hashMerkleRoot := BuildMerkleTree (map tx_GetHash txs);
  blk_nTime := 1010; blk_nBits := GetCompact (ProofOfWorkLimit MainParams); blk_nNonce := 0; vtx := txs; vchBlockSig := []
|}.

Definition toy_entry (hash nHeight supply : Z) : CBlockIndex := {|
  bi_hash := hash; bi_nFile := 1; bi_nBlockPos := 80; bi_nChainTrust := 0; bi_nHeight := nHeight; bi_nMint := 0;
  bi_nMoneySupply := supply; bi_nFlags := 0; bi_nStakeModifier := 0; bi_bnStakeModifierV2 := 0;
  bi_prevoutStake := null_outpoint; bi_nStakeTime := 0; bi_hashProof := 0; bi_nVersion := 7;
  bi_hashMerkleRoot := 0; bi_nTime := 1010; bi_nBits := 0; bi_nNonce := 0 |}.
Definition toy_chain : chain := [toy_entry 78 12 0; toy_entry 77 11 (3000 * COIN)].
Definition toy_env : check_env := {|
  Params := MainParams; adjusted_time := 1010; spork_block_filtering := true; mapLockedInputs := ∅;
  fInitialDownload := true; pindexBest := tl toy_chain; vWinning := []
|}.
Definition toy_index_db : tx_db := {[ tx_GetHash toy_source := new_txindex {| nFile := 1; nBlockPos := 8; nTxPos := 9 |} 2 ]}.

Definition toy_connect (txs : list CTransaction) : outcome Z (chain * tx_db) :=
  ConnectBlock toy_env (fun _ => Some toy_source) ∅ 10 (toy_block txs) toy_index_db toy_chain false.

Definition connected_chain (m : outcome Z (chain * tx_db)) : chain := match m with Ok (c, _) => c | _ => [] end.
Definition connected_db (m : outcome Z (chain * tx_db)) : tx_db := match m with Ok (_, db) => db | _ => ∅ end.

Lemma ConnectBlock_supply_witness :
  toy_connect [toy_coinbase; toy_ordinary]
    = Ok (connected_chain (toy_connect [toy_coinbase; toy_ordinary]), connected_db (toy_connect [toy_coinbase; toy_ordinary])) /\
  bi_nMoneySupply (hd null_index (connected_chain (toy_connect [toy_coinbase; toy_ordinary])))
    <= prev_supply toy_chain + block_subsidy (toy_block [toy_coinbase; toy_ordinary]) 12.
Proof.
  split; [by vm_compute|].
  apply (ConnectBlock_supply toy_env (fun _ => Some toy_source) ∅ 10 (toy_block [toy_coinbase; toy_ordinary]) toy_index_db
    toy_chain false _ (connected_db (toy_connect [toy_coinbase; toy_ordinary]))).
  - by vm_compute.
  - intros _. decide_now.
  - by vm_compute.
  - by vm_compute.
  - decide_now.
Defined.

Lemma DisconnectBlock_undoes_witness :
  DisconnectBlock (toy_block [toy_coinbase; toy_ordinary]) (connected_db (toy_connect [toy_coinbase; toy_ordinary]))
    = Ok toy_index_db.
Proof.
  apply (DisconnectBlock_undoes toy_env (fun _ => Some toy_source) ∅ 10 (toy_block [toy_coinbase; toy_ordinary]) toy_index_db
    toy_chain (connected_chain (toy_connect [toy_coinbase; toy_ordinary]))).
  - by vm_compute.
  - by vm_compute.
  - decide_now.
  - intros h ti H. unfold toy_index_db in H. apply lookup_singleton_Some in H as [_ <-]. apply new_txindex_canonical.
  - decide_now.
Defined.

(** A proof-of-work block with a coinstake in third place connects, and its
    coinstake creates a million coins at a height whose subsidy is 2500: the
    tests of the coinstake are made for blocks with stake only, and
    [ConnectInputs] does not compare its outputs with its inputs. *)
Theorem ConnectBlock_rogue_coinstake :
  block_IsProofOfStake (toy_block [toy_coinbase; toy_ordinary; rogue_coinstake]) = false /\
  bi_nMoneySupply (hd null_index (connected_chain (toy_connect [toy_coinbase; toy_ordinary; rogue_coinstake])))
    = prev_supply toy_chain + (1000000 + 2500) * COIN - 12 /\
  GetCoinbaseValue 12 0 = 2500 * COIN.
Proof. split_and!; by vm_compute. Qed.
