(* ===== verification/ChainState.v ===== *)
(** * The state of the chain: [primitives/block.cpp] from [CBlockLocator] to
    [AcceptBlock]

    The globals of the node that a block changes are a record: the block index
    [mapBlockIndex] as a store of entries that point at each other, the best
    block, the database with its transaction, and the memory pool.  A
    [CBlockIndex*] is the key of its entry.  [Reorganize], [SetBestChain],
    [AddToBlockIndex] and [AcceptBlock] return the state they leave, also when
    they fail: [TxnAbort] takes back what was written to the database, but not
    what was written to the entries in memory. *)

From S2P Require Import Prelude Opcode ScriptNum Script SigEncoding Interp LegacyInterp Serialize Transaction SigHash Bignum Chain TxConnect Merkle Proofs Stake Standard Policy Mempool Block.

Local Open Scope Z_scope.

(** ** Data *)

(** An object of [mapBlockIndex] with its links. *)
Record entry := { e_index : CBlockIndex; e_pprev : option Z; e_pnext : option Z }.

Abbreviation block_map := (gmap Z entry).

(** [CDiskBlockIndex] *)
Record CDiskBlockIndex := { d_index : CBlockIndex; d_hashPrev : Z; d_hashNext : Z }.

Definition disk_index (e : entry) : CDiskBlockIndex :=
  {| d_index := e_index e; d_hashPrev := default 0 (e_pprev e); d_hashNext := default 0 (e_pnext e) |}.

(** [CTxDB]: the records of transactions, [hashBestChain], block index records. *)
Record CTxDB := { db_tx : tx_db; db_hashBestChain : Z; db_blockindex : gmap Z CDiskBlockIndex }.

Definition WriteHashBestChain (hash : Z) (db : CTxDB) : CTxDB :=
  {| db_tx := db_tx db; db_hashBestChain := hash; db_blockindex := db_blockindex db |}.
Definition WriteBlockIndex (hash : Z) (d : CDiskBlockIndex) (db : CTxDB) : CTxDB :=
  {| db_tx := db_tx db; db_hashBestChain := db_hashBestChain db; db_blockindex := <[hash := d]> (db_blockindex db) |}.

Record node := {
  mapBlockIndex : block_map;
  setStakeSeen : gset (COutPoint * Z);
  pindexGenesisBlock : option Z;
  g_pindexBest : option Z;
  hashBestChain : Z;
  nBestHeight : Z;
  nBestChainTrust : Z;
  nBestInvalidTrust : Z;
  database : CTxDB;
  block_files : gmap (Z * Z) CBlock;
  g_mempool : CTxMemPool;
}.

Definition set_index (m : block_map) (s : node) : node := {|
  mapBlockIndex := m; setStakeSeen := setStakeSeen s; pindexGenesisBlock := pindexGenesisBlock s;
  g_pindexBest := g_pindexBest s; hashBestChain := hashBestChain s; nBestHeight := nBestHeight s;
  nBestChainTrust := nBestChainTrust s; nBestInvalidTrust := nBestInvalidTrust s; database := database s;
  block_files := block_files s; g_mempool := g_mempool s |}.
Definition set_database (db : CTxDB) (s : node) : node := {|
  mapBlockIndex := mapBlockIndex s; setStakeSeen := setStakeSeen s; pindexGenesisBlock := pindexGenesisBlock s;
  g_pindexBest := g_pindexBest s; hashBestChain := hashBestChain s; nBestHeight := nBestHeight s;
  nBestChainTrust := nBestChainTrust s; nBestInvalidTrust := nBestInvalidTrust s; database := db;
  block_files := block_files s; g_mempool := g_mempool s |}.
Definition set_mempool (pool : CTxMemPool) (s : node) : node := {|
  mapBlockIndex := mapBlockIndex s; setStakeSeen := setStakeSeen s; pindexGenesisBlock := pindexGenesisBlock s;
  g_pindexBest := g_pindexBest s; hashBestChain := hashBestChain s; nBestHeight := nBestHeight s;
  nBestChainTrust := nBestChainTrust s; nBestInvalidTrust := nBestInvalidTrust s; database := database s;
  block_files := block_files s; g_mempool := pool |}.

(** ** Following pointers *)

Definition pprev_of (m : block_map) (h : Z) : option Z := m !! h ≫= e_pprev.
Definition index_at (m : block_map) (h : Z) : CBlockIndex := from_option e_index null_index (m !! h).
Definition height_of (m : block_map) (h : Z) : Z := bi_nHeight (index_at m h).
Definition trust_of (m : block_map) (h : Z) : Z := bi_nChainTrust (index_at m h).

Definition with_pnext (next : option Z) (e : entry) : entry :=
  {| e_index := e_index e; e_pprev := e_pprev e; e_pnext := next |}.
Definition with_index (b : CBlockIndex) (e : entry) : entry :=
  {| e_index := b; e_pprev := e_pprev e; e_pnext := e_pnext e |}.

(** The block and its ancestors along [pprev]; the fuel [size m] is enough as
    the entries on the way are distinct. *)
Fixpoint ancestors (m : block_map) (fuel : nat) (p : option Z) : list Z :=
  match fuel, p with
  | S fuel, Some h => match m !! h with Some e => h :: ancestors m fuel (e_pprev e) | None => [] end
  | _, _ => []
  end.

Definition ancestors_of (m : block_map) (p : option Z) : list Z := ancestors m (size m) p.
Definition chain_of (m : block_map) (p : option Z) : chain := map (index_at m) (ancestors_of m p).

(** [CBlockIndex::IsInMainChain] *)
Definition IsInMainChain (s : node) (h : Z) : bool :=
  match mapBlockIndex s !! h with
  | Some e => bool_decide (is_Some (e_pnext e)) || bool_decide (g_pindexBest s = Some h)
  | None => false
  end.

(** ** Block locators *)

Section locator.
Variable hashGenesis : Z.   (* Params().HashGenesisBlock() *)

(** [CBlockLocator::Set]: the inner loop walks [nStep] blocks back; the steps
    double once more than ten hashes are in. *)
Fixpoint locator_loop (fuel : nat) (nStep : nat) (n : nat) (c : list Z) : list Z :=
  match fuel, c with
  | S fuel, h :: _ =>
    let n := S n in
    h :: locator_loop fuel (if (10 <? n)%nat then (nStep * 2)%nat else nStep) n (drop nStep c)
  | _, _ => []
  end.

Definition locator_Set (m : block_map) (p : option Z) : list Z :=
  let c := ancestors_of m p in locator_loop (length c) 1 0 c ++ [hashGenesis].

(** [CBlockLocator::GetBlockIndex], [GetBlockHash], [GetHeight] and
    [GetDistanceBack] *)
Definition in_main_chain_index (s : node) (hash : Z) : bool :=
  bool_decide (is_Some (mapBlockIndex s !! hash)) && IsInMainChain s hash.

Definition locator_GetBlockIndex (s : node) (vHave : list Z) : option Z :=
  match find (in_main_chain_index s) vHave with Some hash => Some hash | None => pindexGenesisBlock s end.

Definition locator_GetBlockHash (s : node) (vHave : list Z) : Z :=
  match find (in_main_chain_index s) vHave with Some hash => hash | None => hashGenesis end.

Definition locator_GetHeight (s : node) (vHave : list Z) : Z :=
  match locator_GetBlockIndex s vHave with None => 0 | Some h => height_of (mapBlockIndex s) h end.

Fixpoint distance_loop (s : node) (nDistance nStep : Z) (vHave : list Z) : Z :=
  match vHave with
  | [] => nDistance
  | hash :: vHave =>
    if in_main_chain_index s hash then nDistance
    else
      let nDistance := nDistance + nStep in
      distance_loop s nDistance (if 10 <? nDistance then nStep * 2 else nStep) vHave
  end.

Definition locator_GetDistanceBack (s : node) (vHave : list Z) : Z := distance_loop s 0 1 vHave.
End locator.

(** ** Reorganize *)

(** Continue with the result of a callee, or return the state as it is. *)
Definition run {A B} (s : node) (m : outcome Z A) (k : A -> node * outcome Z B) : node * outcome Z B :=
  match m with Ok a => k a | Err e => (s, Err e) | Throw => (s, Throw) | Crash => (s, Crash) end.

(** [while (plonger->nHeight > pfork->nHeight) if (!(plonger = plonger->pprev)) return error] *)
Fixpoint descend (m : block_map) (fuel : nat) (height : Z) (plonger : Z) : outcome Z Z :=
  match fuel with
  | O => Crash
  | S fuel =>
    if height <? height_of m plonger then
      match pprev_of m plonger with Some p => descend m fuel height p | None => Err 0 end
    else mret plonger
  end.

(** The last common block of two branches. *)
Fixpoint find_fork (m : block_map) (fuel : nat) (pfork plonger : Z) : outcome Z Z :=
  match fuel with
  | O => Crash
  | S fuel =>
    if pfork =? plonger then mret pfork
    else
      plonger ← descend m (S (size m)) (height_of m pfork) plonger;
      if pfork =? plonger then mret pfork
      else match pprev_of m pfork with Some p => find_fork m fuel p plonger | None => Err 0 end
  end.

(** The blocks from [from] back to [pfork], which is left out. *)
Fixpoint branch (m : block_map) (fuel : nat) (from : option Z) (pfork : Z) : outcome Z (list Z) :=
  match fuel, from with
  | S fuel, Some h => if h =? pfork then mret [] else hs ← branch m fuel (pprev_of m h) pfork; mret (h :: hs)
  | _, _ => Crash
  end.

Section node.
Context {SH : ScriptHashes} {EC : ECDSA}.
(** What the tests of blocks read of the rest of the node; its [pindexBest] is
    replaced by that of the state. *)
Variable ext : check_env.
Variable ReadTxFromDisk : CDiskTxPos -> option CTransaction.
Variables (nCoinbaseMaturity nTotalBlocksEstimate hashGenesis : Z).
(** For the admission of resurrected transactions to the pool. *)
Variables (TestNet : bool) (rate_limited fStashed : CTransaction -> bool).

Definition env_of (s : node) : check_env := {|
  Params := Params ext; adjusted_time := adjusted_time ext; spork_block_filtering := spork_block_filtering ext;
  mapLockedInputs := mapLockedInputs ext; fInitialDownload := fInitialDownload ext;
  pindexBest := chain_of (mapBlockIndex s) (g_pindexBest s); vWinning := vWinning ext
|}.

(** [OpenBlockFile] and reading: the block at a position of the block files. *)
Definition read_file (files : gmap (Z * Z) CBlock) (nFile nBlockPos : Z) : option CBlock :=
  if (nFile <? 1) || (nFile =? UINT_MAX) then None else files !! (nFile, nBlockPos).

(** [CBlock::ReadFromDisk(pindex)]: the block at the position of the entry,
    with the test of its proof of work and of its hash. *)
Definition ReadFromDisk (s : node) (h : Z) : outcome Z CBlock :=
  let pindex := index_at (mapBlockIndex s) h in
  match read_file (block_files s) (bi_nFile pindex) (bi_nBlockPos pindex) with
  | None => Err 0
  | Some b =>
    _ ← fail_if (block_IsProofOfWork b && negb (CheckProofOfWork (Params ext) (GetPoWHash b) (blk_nBits b))) 0;
    _ ← fail_if (negb (block_GetHash b =? h)) 0;
    mret b
  end.

(** Writing the disk record of the previous block with another [hashNext]. *)
Definition write_prev (m : block_map) (h : Z) (hashNext : Z) (db : CTxDB) : CTxDB :=
  match pprev_of m h with
  | None => db
  | Some p =>
    match m !! p with
    | None => db
    | Some e => WriteBlockIndex p {| d_index := e_index e; d_hashPrev := default 0 (e_pprev e); d_hashNext := hashNext |} db
    end
  end.

(** [ConnectBlock(txdb, pindex)] with its writes to the entry and to the block
    index records; the database is that of the running transaction. *)
Definition connect_block (s : node) (db : CTxDB) (b : CBlock) (h : Z) : outcome Z (block_map * CTxDB) :=
  let m := mapBlockIndex s in
  r ← ConnectBlock (env_of s) ReadTxFromDisk (mapTx (g_mempool s)) nCoinbaseMaturity b (db_tx db) (chain_of m (Some h)) false;
  let m := alter (with_index (hd null_index (fst r))) h m in
  let db := {| db_tx := snd r; db_hashBestChain := db_hashBestChain db; db_blockindex := db_blockindex db |} in
  let db := match m !! h with Some e => WriteBlockIndex h (disk_index e) db | None => db end in
  mret (m, write_prev m h h db).

(** [DisconnectBlock(txdb, pindex)] *)
Definition disconnect_block (s : node) (db : CTxDB) (b : CBlock) (h : Z) : outcome Z CTxDB :=
  txs ← no_score (DisconnectBlock b (db_tx db));
  mret (write_prev (mapBlockIndex s) h 0
    {| db_tx := txs; db_hashBestChain := db_hashBestChain db; db_blockindex := db_blockindex db |}).

(** The loop that disconnects: the database and [vResurrect]. *)
Fixpoint disconnect_branch (s : node) (db : CTxDB) (vDisconnect : list Z) (vResurrect : list CTransaction)
    : outcome Z (CTxDB * list CTransaction) :=
  match vDisconnect with
  | [] => mret (db, vResurrect)
  | h :: vDisconnect =>
    b ← ReadFromDisk s h;
    db ← disconnect_block s db b h;
    let queued := List.filter (fun tx => negb (IsCoinBase tx || IsCoinStake tx)
                                && (nTotalBlocksEstimate <? height_of (mapBlockIndex s) h)) (vtx b) in
    disconnect_branch s db vDisconnect (queued ++ vResurrect)
  end.

(** The loop that connects: the entries, the database and [vDelete]. *)
Fixpoint connect_branch (s : node) (db : CTxDB) (vConnect : list Z) (vDelete : list CTransaction)
    : node * outcome Z (CTxDB * list CTransaction) :=
  match vConnect with
  | [] => (s, Ok (db, vDelete))
  | h :: vConnect =>
    run s (ReadFromDisk s h) (fun b =>
    run s (connect_block s db b h) (fun r =>
    connect_branch (set_index (fst r) s) (snd r) vConnect (vDelete ++ vtx b)))
  end.

(** [if (pindex->pprev) pindex->pprev->pnext = next] *)
Definition link_prev (next : option Z) (m : block_map) (h : Z) : block_map :=
  match pprev_of m h with None => m | Some p => alter (with_pnext next) p m end.

(** [AcceptToMemoryPool(mempool, tx, false, NULL)]; [pindexBest] and
    [nBestHeight] are still those of the old branch. *)
Definition resurrect (s : node) (tx : CTransaction) : node * outcome Z unit :=
  match AcceptToMemoryPool ReadTxFromDisk (db_tx (database s)) (chain_of (mapBlockIndex s) (g_pindexBest s))
          nCoinbaseMaturity TestNet (nBestHeight s) (adjusted_time ext) (fInitialDownload ext) (mapLockedInputs ext)
          (rate_limited tx) (fStashed tx) (g_mempool s) tx false false false with
  | Ok pool => (set_mempool pool s, Ok tt)
  | Err _ => (s, Ok tt)
  | Throw => (s, Throw)
  | Crash => (s, Crash)
  end.

(** A loop whose body may throw. *)
Fixpoint for_each {A} (f : node -> A -> node * outcome Z unit) (s : node) (l : list A) : node * outcome Z unit :=
  match l with
  | [] => (s, Ok tt)
  | a :: l => let '(s, r) := f s a in run s r (fun _ => for_each f s l)
  end.

(** Calls on the pool; their fuel is the number of its transactions. *)
Definition on_pool (s : node) (m : CTxMemPool -> outcome unit CTxMemPool) : node * outcome Z unit :=
  match m (g_mempool s) with Ok pool => (set_mempool pool s, Ok tt) | Throw => (s, Throw) | Err _ | Crash => (s, Crash) end.
Definition pool_fuel (s : node) : nat := S (size (mapTx (g_mempool s))).
Definition pool_remove (s : node) (tx : CTransaction) : node * outcome Z unit :=
  on_pool s (remove (pool_fuel s) tx false).
Definition pool_removeConflicts (s : node) (tx : CTransaction) : node * outcome Z unit :=
  on_pool s (removeConflicts (pool_fuel s) tx).
Definition delete_redundant (s : node) (tx : CTransaction) : node * outcome Z unit :=
  let '(s, r) := pool_remove s tx in run s r (fun _ => pool_removeConflicts s tx).

Definition fork_of (s : node) (best pindexNew : Z) : outcome Z (list Z * list Z) :=
  let m := mapBlockIndex s in
  pfork ← find_fork m (S (size m)) best pindexNew;
  vDisconnect ← branch m (S (size m)) (Some best) pfork;
  vConnect ← branch m (S (size m)) (Some pindexNew) pfork;
  mret (vDisconnect, rev vConnect).

(** [Reorganize]: a failure leaves the database transaction to the caller,
    which aborts it; only a successful run commits. *)
Definition Reorganize (s : node) (pindexNew : Z) : node * outcome Z unit :=
  match g_pindexBest s with
  | None => (s, Crash)
  | Some best =>
    run s (fork_of s best pindexNew) (fun '(vDisconnect, vConnect) =>
    run s (disconnect_branch s (database s) vDisconnect []) (fun '(db, vResurrect) =>
    let '(s, r) := connect_branch s db vConnect [] in
    run s r (fun '(db, vDelete) =>
    let s := set_database (WriteHashBestChain pindexNew db) s in
    let s := set_index (foldl (fun m h => link_prev None m h) (mapBlockIndex s) vDisconnect) s in
    let s := set_index (foldl (fun m h => link_prev (Some h) m h) (mapBlockIndex s) vConnect) s in
    let '(s, r) := for_each resurrect s vResurrect in
    run s r (fun _ => for_each delete_redundant s vDelete))))
  end.

(** [InvalidChainFound]: its log lines read the trust of the previous block. *)
Definition InvalidChainFound (s : node) (h : Z) : node * outcome Z unit :=
  let m := mapBlockIndex s in
  let s := {| mapBlockIndex := m; setStakeSeen := setStakeSeen s; pindexGenesisBlock := pindexGenesisBlock s;
              g_pindexBest := g_pindexBest s; hashBestChain := hashBestChain s; nBestHeight := nBestHeight s;
              nBestChainTrust := nBestChainTrust s; nBestInvalidTrust := Z.max (nBestInvalidTrust s) (trust_of m h);
              database := database s; block_files := block_files s; g_mempool := g_mempool s |} in
  match pprev_of m h with None => (s, Crash) | Some _ => (s, Ok tt) end.

(** [SetBestChainInner] *)
Definition SetBestChainInner (s : node) (b : CBlock) (pindexNew : Z) : node * outcome Z unit :=
  match connect_block s (database s) b pindexNew with
  | Ok (m, db) =>
    let s := set_database (WriteHashBestChain (block_GetHash b) db) (set_index m s) in
    match pprev_of m pindexNew with
    | None => (s, Crash)
    | Some p =>
      let s := set_index (alter (with_pnext (Some pindexNew)) p (mapBlockIndex s)) s in
      for_each pool_remove s (vtx b)
    end
  | Err _ => let '(s, r) := InvalidChainFound s pindexNew in run s r (fun _ => (s, Err 0))
  | Throw => (s, Throw)
  | Crash => (s, Crash)
  end.

(** The blocks whose connection is postponed ([vpindexSecondary]) and the first
    block that makes the new chain the best. *)
Fixpoint postpone (m : block_map) (fuel : nat) (bestTrust : Z) (pindexIntermediate : Z) (vpindexSecondary : list Z)
    : outcome Z (Z * list Z) :=
  match fuel with
  | O => Crash
  | S fuel =>
    match pprev_of m pindexIntermediate with
    | Some p =>
      if bestTrust <? trust_of m p then postpone m fuel bestTrust p (pindexIntermediate :: vpindexSecondary)
      else mret (pindexIntermediate, vpindexSecondary)
    | None => mret (pindexIntermediate, vpindexSecondary)
    end
  end.

(** The loop over the postponed blocks, the oldest first: a failure ends it
    but is not a failure of [SetBestChain]. *)
Fixpoint connect_secondary (s : node) (hs : list Z) : node * outcome Z unit :=
  match hs with
  | [] => (s, Ok tt)
  | h :: hs =>
    match ReadFromDisk s h with
    | Ok b =>
      match SetBestChainInner s b h with
      | (s, Ok tt) => connect_secondary s hs
      | (s, Err _) => (s, Ok tt)
      | (s, Throw) => (s, Throw)
      | (s, Crash) => (s, Crash)
      end
    | _ => (s, Ok tt)
    end
  end.

(** The new best block. *)
Definition set_best (hash pindexNew : Z) (s : node) : node := {|
  mapBlockIndex := mapBlockIndex s; setStakeSeen := setStakeSeen s; pindexGenesisBlock := pindexGenesisBlock s;
  g_pindexBest := Some pindexNew; hashBestChain := hash; nBestHeight := height_of (mapBlockIndex s) pindexNew;
  nBestChainTrust := trust_of (mapBlockIndex s) pindexNew; nBestInvalidTrust := nBestInvalidTrust s;
  database := database s; block_files := block_files s; g_mempool := AddTransactionsUpdated 1 (g_mempool s) |}.

Definition set_genesis (pindexNew : Z) (s : node) : node := {|
  mapBlockIndex := mapBlockIndex s; setStakeSeen := setStakeSeen s; pindexGenesisBlock := Some pindexNew;
  g_pindexBest := g_pindexBest s; hashBestChain := hashBestChain s; nBestHeight := nBestHeight s;
  nBestChainTrust := nBestChainTrust s; nBestInvalidTrust := nBestInvalidTrust s; database := database s;
  block_files := block_files s; g_mempool := g_mempool s |}.

(** Making the chain of [pindexNew] the one of the database: the three cases
    of [SetBestChain]. *)
Definition switch_chain (s : node) (b : CBlock) (pindexNew : Z) : node * outcome Z unit :=
  let hash := block_GetHash b in
  if bool_decide (pindexGenesisBlock s = None) && (hash =? hashGenesis) then
    (set_genesis pindexNew (set_database (WriteHashBestChain hash (database s)) s), Ok tt)
  else if blk_hashPrevBlock b =? hashBestChain s then
    SetBestChainInner s b pindexNew
  else
    match g_pindexBest s with
    | None => (s, Crash)
    | Some best =>
      let m := mapBlockIndex s in
      run s (postpone m (S (size m)) (trust_of m best) pindexNew []) (fun '(pindexIntermediate, secondary) =>
      match Reorganize s pindexIntermediate with
      | (s, Ok tt) => connect_secondary s secondary
      | (s, Err _) => let '(s, r) := InvalidChainFound s pindexNew in run s r (fun _ => (s, Err 0))
      | (s, Throw) => (s, Throw)
      | (s, Crash) => (s, Crash)
      end)
    end.

(** [SetBestChain] *)
Definition SetBestChain (s : node) (b : CBlock) (pindexNew : Z) : node * outcome Z unit :=
  let '(s, r) := switch_chain s b pindexNew in
  run s r (fun _ => (set_best (block_GetHash b) pindexNew s, Ok tt)).

(** ** AddToBlockIndex *)

(** The new object: [CBlockIndex(nFile, nBlockPos, block)] with the fields
    computed from the previous block. *)
Definition new_index (b : CBlock) (nFile nBlockPos : Z) (hashProof : Z) (pprev : chain) (modifier : Z * bool) : CBlockIndex :=
  let trust := match pprev with [] => 0 | p :: _ => bi_nChainTrust p end in
  let pos := GetProofOfStake b in
  {| bi_hash := block_GetHash b; bi_nFile := nFile; bi_nBlockPos := nBlockPos;
     bi_nChainTrust := (trust + GetBlockTrust (blk_nBits b)) mod 2 ^ 256;
     bi_nHeight := match pprev with [] => 0 | p :: _ => bi_nHeight p + 1 end;
     bi_nMint := 0; bi_nMoneySupply := 0;
     bi_nFlags := Z.lor (Z.lor (if block_IsProofOfStake b then BLOCK_PROOF_OF_STAKE else 0)
                           (if block_EntropyBit b =? 0 then 0 else BLOCK_STAKE_ENTROPY))
                    (if snd modifier then BLOCK_STAKE_MODIFIER else 0);
     bi_nStakeModifier := fst modifier;
     bi_bnStakeModifierV2 := ComputeStakeModifierV2 pprev
       (if block_IsProofOfWork b then block_GetHash b
        else match vtx b with
             | _ :: tx :: _ => match vin tx with i :: _ => prevout_hash (prevout i) | [] => 0 end
             | _ => 0
             end);
     bi_prevoutStake := fst pos; bi_nStakeTime := snd pos; bi_hashProof := hashProof;
     bi_nVersion := blk_nVersion b; bi_hashMerkleRoot := blk_hashMerkleRoot b; bi_nTime := blk_nTime b;
     bi_nBits := blk_nBits b; bi_nNonce := blk_nNonce b |}.

Definition add_entry (s : node) (b : CBlock) (index : CBlockIndex) : node :=
  let hash := block_GetHash b in
  let prev := if bool_decide (is_Some (mapBlockIndex s !! blk_hashPrevBlock b)) then Some (blk_hashPrevBlock b) else None in
  let e := {| e_index := index; e_pprev := prev; e_pnext := None |} in
  {| mapBlockIndex := <[hash := e]> (mapBlockIndex s);
     setStakeSeen := if index_IsProofOfStake index then {[ (bi_prevoutStake index, bi_nStakeTime index) ]} ∪ setStakeSeen s
                     else setStakeSeen s;
     pindexGenesisBlock := pindexGenesisBlock s; g_pindexBest := g_pindexBest s; hashBestChain := hashBestChain s;
     nBestHeight := nBestHeight s; nBestChainTrust := nBestChainTrust s; nBestInvalidTrust := nBestInvalidTrust s;
     database := WriteBlockIndex hash (disk_index e) (database s); block_files := block_files s; g_mempool := g_mempool s |}.

Definition AddToBlockIndex (s : node) (b : CBlock) (nFile nBlockPos hashProof : Z) : node * outcome Z unit :=
  let hash := block_GetHash b in
  if bool_decide (is_Some (mapBlockIndex s !! hash)) then (s, Err 0)
  else
    let pprev := chain_of (mapBlockIndex s) (Some (blk_hashPrevBlock b)) in
    run s (match ComputeNextStakeModifier (e_index <$> mapBlockIndex s) pprev with
           | Ok m => Ok m | Err _ => Err 0 | Throw => Throw | Crash => Crash end) (fun modifier =>
    let s := add_entry s b (new_index b nFile nBlockPos hashProof pprev modifier) in
    if nBestChainTrust s <? trust_of (mapBlockIndex s) hash then
      let '(s, r) := SetBestChain s b hash in run s r (fun _ => (s, Ok tt))
    else (s, Ok tt)).

(** ** AcceptBlock *)

Definition write_block (pos : Z * Z) (b : CBlock) (s : node) : node := {|
  mapBlockIndex := mapBlockIndex s; setStakeSeen := setStakeSeen s; pindexGenesisBlock := pindexGenesisBlock s;
  g_pindexBest := g_pindexBest s; hashBestChain := hashBestChain s; nBestHeight := nBestHeight s;
  nBestChainTrust := nBestChainTrust s; nBestInvalidTrust := nBestInvalidTrust s; database := database s;
  block_files := <[pos := b]> (block_files s); g_mempool := g_mempool s |}.

(** [AcceptBlock]: [pos] is where [WriteToDisk] puts the block, [None] when
    there is no space or the write fails. *)
Definition AcceptBlock (ReadBlockTime : Z -> Z -> option Z) (fCheckpoints : bool) (checkpoints : gmap Z Z)
    (pos : option (Z * Z)) (s : node) (b : CBlock) : node * outcome Z unit :=
  run s (AcceptBlock_tests (env_of s) ReadTxFromDisk ReadBlockTime
           (fun h => if bool_decide (is_Some (mapBlockIndex s !! h)) then Some (chain_of (mapBlockIndex s) (Some h)) else None)
           (db_tx (database s)) (nBestHeight s) fCheckpoints checkpoints b) (fun hashProof =>
  match pos with
  | None => (s, Err 0)
  | Some pos =>
    let '(s, r) := AddToBlockIndex (write_block pos b s) b (fst pos) (snd pos) hashProof in
    run s (no_score r) (fun _ => (s, Ok tt))
  end).
End node.
