(* ===== verification/ChainTree.v ===== *)
(** * The block index as a tree

    The entries of [mapBlockIndex] with their [pprev] links form a tree with
    the genesis block as its root: paths to the root, the walks of
    [Reorganize] on them ([descend], [find_fork], [branch]), and the parts of
    an entry that never change. *)

From S2P Require Import Prelude Opcode ScriptNum Script SigEncoding Interp LegacyInterp Serialize Transaction SigHash Bignum Chain TxConnect Merkle Proofs Stake Standard Policy Mempool Block ChainState.

Local Open Scope Z_scope.

(** ** What stays of an entry *)

(** The fields of an entry without its supply, which [ConnectBlock] writes. *)
Definition erase_supply (b : CBlockIndex) : CBlockIndex := {|
  bi_hash := bi_hash b; bi_nFile := bi_nFile b; bi_nBlockPos := bi_nBlockPos b; bi_nChainTrust := bi_nChainTrust b;
  bi_nHeight := bi_nHeight b; bi_nMint := 0; bi_nMoneySupply := 0; bi_nFlags := bi_nFlags b;
  bi_nStakeModifier := bi_nStakeModifier b; bi_bnStakeModifierV2 := bi_bnStakeModifierV2 b;
  bi_prevoutStake := bi_prevoutStake b; bi_nStakeTime := bi_nStakeTime b; bi_hashProof := bi_hashProof b;
  bi_nVersion := bi_nVersion b; bi_hashMerkleRoot := bi_hashMerkleRoot b; bi_nTime := bi_nTime b;
  bi_nBits := bi_nBits b; bi_nNonce := bi_nNonce b |}.

Lemma erase_supply_fields a b : erase_supply a = erase_supply b ->
  bi_hash a = bi_hash b /\ bi_nFile a = bi_nFile b /\ bi_nBlockPos a = bi_nBlockPos b /\
  bi_nChainTrust a = bi_nChainTrust b /\ bi_nHeight a = bi_nHeight b.
Proof. intros E. injection E. intros. by split_and!. Qed.

(** The tree: every entry with its previous block, without links to the next
    one. *)
Definition tree_of (m : block_map) : gmap Z (CBlockIndex * option Z) :=
  (fun e => (erase_supply (e_index e), e_pprev e)) <$> m.

(** Blocks in memory are rewritten along the same tree. *)
Definition same_tree (m m' : block_map) : Prop := tree_of m = tree_of m'.

#[export] Instance same_tree_equiv : Equivalence same_tree.
Proof. unfold same_tree. split; [by intros ?|by intros ??|by intros ??? -> ]. Qed.

Lemma same_tree_lookup m m' h e : same_tree m m' -> m !! h = Some e ->
  exists e', m' !! h = Some e' /\ e_pprev e' = e_pprev e /\ erase_supply (e_index e') = erase_supply (e_index e).
Proof.
  intros E He. assert (tree_of m !! h = tree_of m' !! h) as El by (by rewrite E).
  unfold tree_of in El. rewrite !lookup_fmap, He in El. cbn in El.
  destruct (m' !! h) as [e'|]; [|done]. apply (inj Some), pair_eq in El as [Hs Hp]. by exists e'.
Qed.

Lemma same_tree_pprev m m' h : same_tree m m' -> pprev_of m h = pprev_of m' h.
Proof.
  intros E. unfold pprev_of. destruct (m !! h) as [e|] eqn:He.
  - destruct (same_tree_lookup _ _ _ _ E He) as (e' & -> & Hp & _). cbn. congruence.
  - destruct (m' !! h) as [e'|] eqn:He'; [|done]. symmetry in E.
    destruct (same_tree_lookup _ _ _ _ E He') as (? & ? & _). congruence.
Qed.

Lemma same_tree_index m m' h : same_tree m m' -> erase_supply (index_at m h) = erase_supply (index_at m' h).
Proof.
  intros E. unfold index_at. destruct (m !! h) as [e|] eqn:He.
    destruct (same_tree_lookup _ _ _ _ E He) as (e' & -> & _ & Hs). by cbn.
  - destruct (m' !! h) as [e'|] eqn:He'; [|done]. symmetry in E.
    destruct (same_tree_lookup _ _ _ _ E He') as (? & ? & _). congruence.
Qed.

Lemma same_tree_size m m' : same_tree m m' -> size m = size m'.
Proof. intros E. rewrite <-(map_size_fmap (fun e => (erase_supply (e_index e), e_pprev e)) m). unfold same_tree, tree_of in E. rewrite E. apply map_size_fmap. Qed.

Lemma same_tree_alter m h f :
  (forall e, m !! h = Some e -> erase_supply (e_index (f e)) = erase_supply (e_index e) /\ e_pprev (f e) = e_pprev e) ->
  same_tree m (alter f h m).
Proof.
  intros Hf. unfold same_tree, tree_of. apply map_eq. intros k. rewrite !lookup_fmap.
  destruct (decide (k = h)) as [->|Hk]; [|by rewrite lookup_alter_ne].
  rewrite lookup_alter_eq. destruct (m !! h) as [e|] eqn:E; [|done]. cbn. by destruct (Hf e eq_refl) as [-> ->].
Qed.

Lemma same_tree_link next m h : same_tree m (link_prev next m h).
Proof. unfold link_prev. destruct (pprev_of m h); [|done]. by apply same_tree_alter. Qed.

Lemma same_tree_links next m hs : same_tree m (foldl (fun m h => link_prev (next h) m h) m hs).
Proof.
  revert m. induction hs as [|h hs IH]; intros m; cbn; [done|]. etrans; [apply (same_tree_link (next h) m h)|apply IH].
Qed.

(** ** Paths to the root *)

Inductive is_path (m : block_map) : option Z -> list Z -> Prop :=
| path_root : is_path m None []
| path_block h e hs : m !! h = Some e -> is_path m (e_pprev e) hs -> is_path m (Some h) (h :: hs).

Lemma is_path_det m p l1 l2 : is_path m p l1 -> is_path m p l2 -> l1 = l2.
Proof.
  intros H. revert l2. induction H as [|h e hs He _ IH]; intros l2 H2; inversion H2; subst; [done|].
  f_equal. apply IH. congruence.
Qed.

Lemma is_path_same m m' p hs : same_tree m m' -> is_path m p hs -> is_path m' p hs.
Proof.
  intros E. induction 1 as [|h e hs He _ IH]; [constructor|].
  destruct (same_tree_lookup _ _ _ _ E He) as (e' & He' & Hp & _). econstructor; [done|]. by rewrite Hp.
Qed.

Lemma is_path_app m p hs h tl : is_path m p (hs ++ h :: tl) -> is_path m (Some h) (h :: tl).
Proof.
  revert p. induction hs as [|x hs IH]; intros p H; cbn in H.
  - inversion H; subst. by econstructor.
  - inversion H; subst. eauto.
Qed.

(** Entries are stored under their hash, one higher than their previous block,
    and only the genesis block has none. *)
Record index_ok (g : Z) (m : block_map) : Prop := {
  io_hash : forall h e, m !! h = Some e -> bi_hash (e_index e) = h;
  io_root : forall h e, m !! h = Some e -> e_pprev e = None -> h = g /\ bi_nHeight (e_index e) = 0;
  io_prev : forall h e p, m !! h = Some e -> e_pprev e = Some p ->
    exists ep, m !! p = Some ep /\ bi_nHeight (e_index e) = bi_nHeight (e_index ep) + 1;
  io_height : forall h e, m !! h = Some e -> 0 <= bi_nHeight (e_index e);
}.

Lemma height_same m m' h : same_tree m m' -> height_of m h = height_of m' h.
Proof. intros E. by apply (same_tree_index _ _ h), erase_supply_fields in E as (_ & _ & _ & _ & E). Qed.

Lemma trust_same m m' h : same_tree m m' -> trust_of m h = trust_of m' h.
Proof. intros E. by apply (same_tree_index _ _ h), erase_supply_fields in E as (_ & _ & _ & E & _). Qed.

Lemma index_ok_same g m m' : same_tree m m' -> index_ok g m -> index_ok g m'.
Proof.
  intros E [Hh Hr Hp H0]. assert (same_tree m' m) as E' by done.
  assert (forall h e', m' !! h = Some e' -> exists e, m !! h = Some e /\ e_pprev e = e_pprev e' /\
            bi_hash (e_index e) = bi_hash (e_index e') /\ bi_nHeight (e_index e) = bi_nHeight (e_index e')) as Hback.
  { intros h e' He'. destruct (same_tree_lookup _ _ _ _ E' He') as (e & He & Hpe & Hs).
    apply erase_supply_fields in Hs as (? & _ & _ & _ & ?). by exists e. }
  split.
  - intros h e' He'. destruct (Hback h e' He') as (e & He & _ & <- & _). eauto.
  - intros h e' He' Hn. destruct (Hback h e' He') as (e & He & Hpe & _ & <-). apply (Hr h e He). congruence.
  - intros h e' p He' Hn. destruct (Hback h e' He') as (e & He & Hpe & _ & <-).
    destruct (Hp h e p He) as (ep & Hep & Hz); [congruence|].
    destruct (same_tree_lookup _ _ _ _ E Hep) as (ep' & Hep' & _ & Hs'). exists ep'. split; [done|].
    apply erase_supply_fields in Hs' as (_ & _ & _ & _ & ->). done.
  - intros h e' He'. destruct (Hback h e' He') as (e & He & _ & _ & <-). eauto.
Qed.

Section tree.
Context {g : Z} {m : block_map} (Hm : index_ok g m).

Lemma path_exists h : is_Some (m !! h) -> exists hs, is_path m (Some h) hs /\ Z.of_nat (length hs) = height_of m h + 1.
Proof using Hm.
  intros [e He]. assert (exists n, Z.to_nat (bi_nHeight (e_index e)) = n) as [n Hn] by eauto.
  revert h e He Hn. induction n as [n IH] using lt_wf_ind; intros h e He Hn.
  pose proof (io_height _ _ Hm h e He) as Hh. destruct (e_pprev e) as [p|] eqn:Hp.
  - destruct (io_prev _ _ Hm h e p He Hp) as (ep & Hep & Hheight). pose proof (io_height _ _ Hm p ep Hep).
    destruct (IH (Z.to_nat (bi_nHeight (e_index ep))) ltac:(lia) p ep Hep eq_refl) as (hs & Hpath & Hlen).
    exists (h :: hs). split; [econstructor; [done|]; by rewrite Hp|]. unfold height_of, index_at in *. rewrite He. rewrite Hep in Hlen. cbn in *. lia.
  - destruct (io_root _ _ Hm h e He Hp) as [_ Hz]. exists [h]. split; [econstructor; [done|]; rewrite Hp; constructor|].
    unfold height_of, index_at. rewrite He. cbn. lia.
Qed.

Lemma path_heights h hs : is_path m (Some h) hs -> Forall (fun k => is_Some (m !! k) /\ height_of m k <= height_of m h) hs.
Proof using Hm.
  intros H. remember (Some h) as p eqn:Ep. revert h Ep. induction H as [|h e hs He Hp IH]; intros h' Ep; [done|].
  injection Ep as ->. constructor; [split; [by eexists|lia]|]. destruct (e_pprev e) as [p|] eqn:Hpe.
  - destruct (io_prev _ _ Hm _ _ _ He Hpe) as (ep & Hep & Hh). eapply Forall_impl; [by apply (IH p)|].
    intros k [Hk Hle]. split; [done|]. unfold height_of, index_at in *. rewrite He, Hep in *. cbn in *. lia.
  - inversion Hp. constructor.
Qed.

Lemma path_NoDup p hs : is_path m p hs -> NoDup hs.
Proof using Hm.
  induction 1 as [|h e hs He Hp IH]; constructor; [|done]. intros Hin.
  destruct (e_pprev e) as [p|] eqn:Hpe; [|by inversion Hp; subst; apply elem_of_nil in Hin].
  destruct (io_prev _ _ Hm _ _ _ He Hpe) as (ep & Hep & Hh). pose proof (path_heights _ _ Hp) as Hall.
  rewrite Forall_forall in Hall. destruct (Hall h Hin) as [_ Hle].
  unfold height_of, index_at in Hle. rewrite He, Hep in Hle. cbn in Hle. lia.
Qed.

Lemma path_length p hs : is_path m p hs -> (length hs <= size m)%nat.
Proof using Hm.
  intros H. pose proof (path_NoDup _ _ H) as Hnd. rewrite <-(size_dom (D := gset Z)).
  rewrite <-(size_list_to_set (C := gset Z) hs Hnd). apply subseteq_size. intros k Hk. apply elem_of_dom.
  apply elem_of_list_to_set in Hk. clear Hnd. induction H as [|h e hs He _ IH]; [by apply elem_of_nil in Hk|].
  apply elem_of_cons in Hk as [->|Hk]; [by eexists|by apply IH].
Qed.

Lemma ancestors_path fuel p hs : is_path m p hs -> (length hs <= fuel)%nat -> ancestors m fuel p = hs.
Proof using Type.
  intros H. revert fuel. induction H as [|h e hs He _ IH]; intros fuel Hf; [by destruct fuel|].
  destruct fuel as [|fuel]; cbn in Hf; [lia|]. cbn. rewrite He. f_equal. apply IH. lia.
Qed.

Lemma ancestors_of_path p hs : is_path m p hs -> ancestors_of m p = hs.
Proof using Hm. intros H. apply ancestors_path; [done|]. by eapply path_length. Qed.

Lemma height_bound h : is_Some (m !! h) -> 0 <= height_of m h < Z.of_nat (size m).
Proof using Hm.
  intros Hs. destruct (path_exists h Hs) as (hs & Hp & Hl). pose proof (path_length _ _ Hp). destruct Hs as [e He].
  pose proof (io_height _ _ Hm h e He). unfold height_of, index_at in *. rewrite He in *. cbn in *. lia.
Qed.

Lemma pprev_of_path h hs : is_path m (Some h) hs -> exists tl, hs = h :: tl /\ is_path m (pprev_of m h) tl.
Proof using Type. intros H. inversion H; subst. eexists. split; [done|]. unfold pprev_of. by rewrite H1. Qed.

Lemma pprev_of_height h p : is_Some (m !! h) -> pprev_of m h = Some p -> is_Some (m !! p) /\ height_of m h = height_of m p + 1.
Proof using Hm.
  intros [e He] Hp. unfold pprev_of, height_of, index_at in *. rewrite He in *. cbn in Hp.
  destruct (io_prev _ _ Hm _ _ _ He Hp) as (ep & Hep & Hh). rewrite Hep. split; [by eexists|done].
Qed.

Lemma pprev_of_root h : is_Some (m !! h) -> pprev_of m h = None -> h = g /\ height_of m h = 0.
Proof using Hm.
  intros [e He] Hp. unfold pprev_of, height_of, index_at in *. rewrite He in *. by apply (io_root _ _ Hm).
Qed.

Lemma height_zero h : is_Some (m !! h) -> height_of m h <= 0 -> h = g.
Proof using Hm.
  intros Hs Hz. destruct (pprev_of m h) as [p|] eqn:Hp; [|by apply pprev_of_root].
  destruct (pprev_of_height _ _ Hs Hp) as [Hsp Hh]. pose proof (height_bound _ Hsp). lia.
Qed.

(** ** The walks of [Reorganize] *)

(** [a] is [h] or an ancestor of it, [d] the blocks above. *)
Definition above (h : Z) (d : list Z) (a : Z) : Prop := forall hs, is_path m (Some a) hs -> is_path m (Some h) (d ++ hs).

Lemma above_refl h : above h [] h.
Proof using Type. by intros hs. Qed.

Lemma above_step h p d a : pprev_of m h = Some p -> above p d a -> above h (h :: d) a.
Proof using Type.
  intros Hp Ha hs Hhs. unfold pprev_of in Hp. destruct (m !! h) as [e|] eqn:He; [|done]. econstructor; [done|].
  cbn in Hp. rewrite Hp. by apply Ha.
Qed.

Lemma above_trans h d1 a d2 b : above h d1 a -> above a d2 b -> above h (d1 ++ d2) b.
Proof using Type. intros H1 H2 hs Hhs. rewrite <-app_assoc. by apply H1, H2. Qed.

Lemma descend_Ok fuel height h : is_Some (m !! h) -> 0 <= height -> Z.max 0 (height_of m h - height) < Z.of_nat fuel ->
  exists d a, descend m fuel height h = Ok a /\ above h d a /\ is_Some (m !! a) /\ height_of m a <= height /\
    Forall (fun x => height < height_of m x) d.
Proof using Hm.
  revert h. induction fuel as [|fuel IH]; intros h Hs H0 Hf; [lia|]. cbn [descend].
  destruct (Z.ltb_spec height (height_of m h)) as [Hlt|Hge]; [|by exists [], h; split_and!; try done; apply above_refl].
  destruct (pprev_of m h) as [p|] eqn:Hp; [|by destruct (pprev_of_root _ Hs Hp); lia].
  destruct (pprev_of_height _ _ Hs Hp) as [Hsp Hh].
  destruct (IH p Hsp H0 ltac:(lia)) as (d & a & -> & Ha & Hsa & Hle & Hd). exists (h :: d), a.
  split_and!; [done|by eapply above_step|done|done|by constructor].
Qed.

Lemma above_heights h d a x : is_Some (m !! a) -> above h d a -> x ∈ d -> height_of m a < height_of m x <= height_of m h.
Proof using Hm.
  intros Hs Ha Hx. destruct (path_exists a Hs) as (hs & Hp & _). destruct (pprev_of_path _ _ Hp) as (tl & -> & _).
  pose proof (Ha _ Hp) as Hph. pose proof (path_heights _ _ Hph) as Hall. rewrite Forall_forall in Hall.
  destruct (Hall x ltac:(set_solver)) as [Hsx ?]. split; [|done].
  apply list_elem_of_split in Hx as (l1 & l2 & ->). rewrite <-app_assoc in Hph. cbn in Hph. apply is_path_app in Hph.
  destruct (pprev_of_path _ _ Hph) as (tl' & E & Hpp). injection E as <-.
  destruct (pprev_of m x) as [p|] eqn:Ep; [|inversion Hpp as [E|]; by destruct l2].
  destruct (pprev_of_height _ _ Hsx Ep) as [_ Hh]. pose proof (path_heights _ _ Hpp) as Hall2. rewrite Forall_forall in Hall2.
  destruct (Hall2 a ltac:(set_solver)) as [_ ?]. lia.
Qed.

(** The fork is the last common block: the branches above it are disjoint. *)
Lemma find_fork_Ok fuel b n : is_Some (m !! b) -> is_Some (m !! n) -> height_of m b < Z.of_nat fuel ->
  exists d c f, find_fork m fuel b n = Ok f /\ above b d f /\ above n c f /\ is_Some (m !! f) /\ d ## c.
Proof using Hm.
  revert b n. induction fuel as [|fuel IH]; intros b n Hb Hn Hf; [pose proof (height_bound b Hb); lia|]. cbn [find_fork].
  destruct (Z.eqb_spec b n) as [->|Hbn].
  { exists [], [], n. split_and!; try done; try apply above_refl. intros x Hx. by apply elem_of_nil in Hx. }
  pose proof (height_bound b Hb). pose proof (height_bound n Hn).
  destruct (descend_Ok (S (size m)) (height_of m b) n Hn ltac:(lia) ltac:(lia)) as (c & a & -> & Ha & Hsa & Hle & Hca).
  cbn [mbind outcome_bind]. destruct (Z.eqb_spec b a) as [->|Hba].
  { exists [], c, a. split_and!; try done; try apply above_refl. intros x Hx. by apply elem_of_nil in Hx. }
  destruct (pprev_of m b) as [p|] eqn:Hp.
  - destruct (pprev_of_height _ _ Hb Hp) as [Hsp Hh].
    destruct (IH p a Hsp Hsa ltac:(lia)) as (d & c' & f & -> & Hd & Hc & Hsf & Hdisj). exists (b :: d), (c ++ c'), f.
    split_and!; try done; [by eapply above_step|by eapply above_trans|].
    rewrite Forall_forall in Hca. intros x Hx [Hxc|Hxc]%elem_of_app.
    + specialize (Hca x Hxc). apply elem_of_cons in Hx as [->|Hx]; [lia|].
      destruct (above_heights _ _ _ _ Hsf Hd Hx). lia.
    + apply elem_of_cons in Hx as [->|Hx]; [|by apply (Hdisj x)].
      destruct (above_heights _ _ _ _ Hsf Hc Hxc) as [_ Hx']. destruct (path_exists f Hsf) as (hs & Hpf & _).
      destruct (pprev_of_path _ _ Hpf) as (tlf & -> & _). destruct c' as [|y c']; [by apply elem_of_nil in Hxc|]. pose proof (Hc _ Hpf) as Hpa. cbn in Hpa.
      destruct (pprev_of_path _ _ Hpa) as (tl & E & Hpp). injection E as -> <-.
      apply elem_of_cons in Hxc as [->|Hxc]; [done|].
      destruct (pprev_of m a) as [q|] eqn:Eq; [|inversion Hpp as [E|]; by destruct c'].
      destruct (pprev_of_height _ _ Hsa Eq) as [_ Hhq]. pose proof (path_heights _ _ Hpp) as Hall. rewrite Forall_forall in Hall.
      destruct (Hall b ltac:(set_solver)) as [_ ?]. lia.
  - destruct (pprev_of_root _ Hb Hp) as [-> Hz]. destruct Hba. symmetry. apply height_zero; [done|lia].
Qed.

Lemma branch_Ok fuel h f d hs : is_path m (Some h) (d ++ f :: hs) -> (length d < fuel)%nat -> branch m fuel (Some h) f = Ok d.
Proof using Hm.
  revert fuel h. induction d as [|x d IH]; intros fuel h H Hf; (destruct fuel as [|fuel]; cbn in Hf; [lia|]); cbn [branch].
  - inversion H; subst. by rewrite Z.eqb_refl.
  - pose proof (path_NoDup _ _ H) as Hnd. destruct (pprev_of_path _ _ H) as (tl & E & Hp). injection E as -> <-.
    apply NoDup_cons in Hnd as [Hni _]. destruct (Z.eqb_spec h f) as [->|_]; [destruct Hni; set_solver|].
    destruct (pprev_of m h) as [p|] eqn:Ep; [|inversion Hp as [E|]; by destruct d]. by rewrite (IH fuel p Hp) by lia.
Qed.

(** Finding the branches always succeeds: they are what lies above a block of
    both chains. *)
Lemma fork_of_Ok s b n : mapBlockIndex s = m -> is_Some (m !! b) -> is_Some (m !! n) ->
  exists d c f tl, fork_of s b n = Ok (d, rev c) /\ is_path m (Some f) (f :: tl) /\
    is_path m (Some b) (d ++ f :: tl) /\ is_path m (Some n) (c ++ f :: tl) /\ d ## c.
Proof using Hm.
  intros Es Hb Hn. unfold fork_of. rewrite Es. pose proof (height_bound b Hb).
  destruct (find_fork_Ok (S (size m)) b n Hb Hn ltac:(lia)) as (d & c & f & -> & Hd & Hc & Hsf & Hdisj). cbn [mbind outcome_bind].
  destruct (path_exists f Hsf) as (hs & Hp & _). destruct (pprev_of_path _ _ Hp) as (tl & -> & _).
  pose proof (Hd _ Hp) as Hpb. pose proof (Hc _ Hp) as Hpn.
  pose proof (path_length _ _ Hpb) as Hlb. pose proof (path_length _ _ Hpn) as Hln. rewrite length_app in Hlb, Hln.
  rewrite (branch_Ok _ _ _ _ _ Hpb) by lia. cbn [mbind outcome_bind]. rewrite (branch_Ok _ _ _ _ _ Hpn) by lia.
  cbn. by exists d, c, f, tl.
Qed.
End tree.
