(* ===== verification/ChainLinks.v ===== *)
(** * The links of the main chain

    [pnext] is set for the blocks of the main chain below the best block and
    for no other; how the two link loops of [Reorganize] move them from one
    branch to the other. *)

From S2P Require Import Prelude Opcode ScriptNum Script SigEncoding Interp LegacyInterp Serialize Transaction SigHash Bignum Chain TxConnect TxConnectProps Proofs Stake Standard Policy Mempool Merkle Block BlockProps ChainState ChainTree.

Local Open Scope Z_scope.

Definition pnext_of (m : block_map) (h : Z) : option Z := m !! h ≫= e_pnext.

(** [x] comes right after [n] in the list, which is newest first. *)
Definition consecutive (n x : Z) (hs : list Z) : Prop := exists l1 l2, hs = l1 ++ n :: x :: l2.

Definition links (m : block_map) (hs : list Z) : Prop := forall x n, pnext_of m x = Some n <-> consecutive n x hs.

Lemma consecutive_elem n x hs : consecutive n x hs -> n ∈ hs /\ x ∈ hs.
Proof. intros (l1 & l2 & ->). set_solver. Qed.

Lemma consecutive_app n x c l : consecutive n x (c ++ l) -> n ∈ c \/ consecutive n x l.
Proof.
  revert l. induction c as [|y c IH]; intros l H; [by right|].
  destruct H as ([|z l1] & l2 & E); injection E as -> E; [left; by left|].
  destruct (IH l) as [H|H]; [by exists l1, l2|left; by right|by right].
Qed.

Lemma consecutive_app_r n x c l : consecutive n x l -> consecutive n x (c ++ l).
Proof. intros (l1 & l2 & ->). exists (c ++ l1), l2. by rewrite <-app_assoc. Qed.

Lemma consecutive_inj n n' x hs : NoDup hs -> consecutive n x hs -> consecutive n' x hs -> n = n'.
Proof.
  intros Hnd H H'. revert H H'. induction Hnd as [|y hs Hy Hnd IH]; intros (l1 & l2 & E) (l1' & l2' & E'); [by destruct l1|].
  destruct l1 as [|z l1], l1' as [|z' l1']; injection E as -> E; injection E' as E1 E'; try congruence.
  - exfalso. subst hs. apply NoDup_cons in Hnd as [Hx _]. apply Hx. destruct l1' as [|w l1']; injection E' as Ew ->; set_solver.
  - exfalso. subst hs. destruct l1 as [|w l1]; injection E' as Ew E'; apply NoDup_cons in Hnd as [Hx _]; apply Hx; subst; set_solver.
  - apply IH; [by exists l1, l2|by exists l1', l2'].
Qed.

Section links.
Context {g : Z} {m : block_map} (Hm : index_ok g m).

Lemma path_pprev p hs y x : is_path m p hs -> y ∈ hs -> pprev_of m y = Some x <-> consecutive y x hs.
Proof using Hm.
  intros H Hy. pose proof (path_NoDup Hm _ _ H) as Hnd. revert Hnd. induction H as [|h e hs He Hp IH]; intros Hnd.
  - by apply elem_of_nil in Hy.
  - apply NoDup_cons in Hnd as [Hh Hnd]. apply elem_of_cons in Hy as [->|Hy].
    + unfold pprev_of. rewrite He. cbn. split.
      * intros E. rewrite E in Hp. inversion Hp; subst. by exists [], hs0.
      * intros ([|z l1] & l2 & E).
        -- injection E as ->. by inversion Hp.
        -- injection E as -> ->. destruct Hh. set_solver.
    + rewrite IH by done. split; [intros (l1 & l2 & ->); by exists (h :: l1), l2|].
      intros ([|z l1] & l2 & E); injection E as E1 E2; [by subst|]. by exists l1, l2.
Qed.
End links.

(** The loops over the branches. *)
Lemma pnext_alter next p x m : is_Some (m !! p) ->
  pnext_of (alter (with_pnext next) p m) x = if decide (x = p) then next else pnext_of m x.
Proof.
  intros [e He]. unfold pnext_of. case_decide as E; [subst; rewrite lookup_alter_eq, He; by destruct next|by rewrite lookup_alter_ne].
Qed.

Lemma pnext_link next m h x : (forall p, pprev_of m h = Some p -> is_Some (m !! p)) ->
  pnext_of (link_prev next m h) x = if decide (pprev_of m h = Some x) then next else pnext_of m x.
Proof.
  intros Hs. unfold link_prev. destruct (pprev_of m h) as [p|] eqn:E; [|by case_decide].
  rewrite pnext_alter by eauto. do 2 case_decide; congruence.
Qed.

Section loops.
Variable next : Z -> option Z.
Abbreviation step := (fun m h => link_prev (next h) m h).

Lemma links_frame hs m x : (forall h p, pprev_of m h = Some p -> is_Some (m !! p)) ->
  (forall h, h ∈ hs -> pprev_of m h <> Some x) -> pnext_of (foldl step m hs) x = pnext_of m x.
Proof.
  revert m. induction hs as [|h hs IH]; intros m Hs Hn; cbn; [done|].
  pose proof (same_tree_link (next h) m h) as Et. rewrite IH.
  - rewrite pnext_link by eauto. case_decide; [|done]. by destruct (Hn h (list_elem_of_here _ _)).
  - intros k p. rewrite <-(same_tree_pprev _ _ _ Et). intros [e He]%Hs.
    destruct (same_tree_lookup _ _ _ _ Et He) as (e' & ? & _). by exists e'.
  - intros k Hk. rewrite <-(same_tree_pprev _ _ _ Et). apply Hn. by right.
Qed.

Lemma links_update hs m x h : (forall h p, pprev_of m h = Some p -> is_Some (m !! p)) ->
  h ∈ hs -> pprev_of m h = Some x -> (forall k, k ∈ hs -> pprev_of m k = Some x -> k = h) ->
  pnext_of (foldl step m hs) x = next h.
Proof.
  revert m. induction hs as [|k hs IH]; intros m Hs Hh Hx Hu; [by apply elem_of_nil in Hh|].
  pose proof (same_tree_link (next k) m k) as Et.
  assert (forall h p, pprev_of (step m k) h = Some p -> is_Some (step m k !! p)) as Hs'.
  { intros j p. rewrite <-(same_tree_pprev _ _ _ Et). intros [e He]%Hs.
    destruct (same_tree_lookup _ _ _ _ Et He) as (e' & ? & _). by exists e'. }
  cbn. destruct (decide (h ∈ hs)) as [Hin|Hin].
  - apply IH; [done|done|by rewrite <-(same_tree_pprev _ _ _ Et)|].
    intros j Hj. rewrite <-(same_tree_pprev _ _ _ Et). apply Hu. by right.
  - apply elem_of_cons in Hh as [->|Hh]; [|done]. rewrite links_frame; [|done|].
    + rewrite pnext_link by eauto. by case_decide.
    + intros j Hj. rewrite <-(same_tree_pprev _ _ _ Et). intros Hpj. assert (j = k) as -> by (apply Hu; [by right|done]). done.
Qed.
End loops.

(** After both loops the links are those of the new branch. *)
Lemma relink g m d c f tl b n : index_ok g m ->
  is_path m (Some b) (d ++ f :: tl) -> is_path m (Some n) (c ++ f :: tl) -> links m (d ++ f :: tl) ->
  links (foldl (fun m h => link_prev (Some h) m h) (foldl (fun m h => link_prev None m h) m d) (rev c)) (c ++ f :: tl).
Proof.
  intros Hm Hb Hn Hl x k.
  assert (forall h p, pprev_of m h = Some p -> is_Some (m !! p)) as Hs.
  { intros h p Hp. unfold pprev_of in Hp. destruct (m !! h) as [e|] eqn:He; [|done].
    destruct (io_prev _ _ Hm _ _ _ He Hp) as (ep & ? & _). by exists ep. }
  pose proof (same_tree_links (fun _ => None) m d) as Et. set (m2 := foldl (fun m h => link_prev None m h) m d) in *.
  assert (forall h p, pprev_of m2 h = Some p -> is_Some (m2 !! p)) as Hs2.
  { intros h p. unfold m2. rewrite <-(same_tree_pprev _ _ _ Et). intros [e He]%Hs.
    destruct (same_tree_lookup _ _ _ _ Et He) as (e' & ? & _). by exists e'. }
  assert (forall h, h ∈ rev c <-> h ∈ c) as Hrev by (intros h; by rewrite !list_elem_of_In, <-in_rev).
  pose proof (path_NoDup Hm _ _ Hb) as Hndb. pose proof (path_NoDup Hm _ _ Hn) as Hndn.
  assert (forall y, y ∈ c -> pprev_of m2 y = Some x <-> consecutive y x (c ++ f :: tl)) as Hcc.
  { intros y Hy. unfold m2. rewrite <-(same_tree_pprev _ _ _ Et). apply (path_pprev Hm _ _ _ _ Hn). set_solver. }
  destruct (decide (Exists (fun y => pprev_of m2 y = Some x) c)) as [Hex|Hex].
  - apply Exists_exists in Hex as (y & Hy & Hyx). rewrite (links_update (fun h => Some h) (rev c) m2 x y); [|done|by apply Hrev|done|].
    + apply Hcc in Hyx; [|done]. split; [intros [= <-]; done|]. intros Hk. f_equal. by eapply consecutive_inj.
    + intros j Hj%Hrev Hjx. apply Hcc in Hyx, Hjx; [|done..]. by eapply consecutive_inj.
  - assert (forall y, y ∈ c -> ~ consecutive y x (c ++ f :: tl)) as Hnc.
    { intros y Hy Hyx. apply Hex, Exists_exists. exists y. split; [done|by apply Hcc]. }
    rewrite links_frame; [|done|intros h Hh%Hrev Hhx; apply Hex, Exists_exists; by exists h].
    assert (consecutive k x (c ++ f :: tl) <-> consecutive k x (f :: tl)) as ->.
    { split; [|apply consecutive_app_r]. intros H. destruct (consecutive_app _ _ _ _ H) as [Hc|?]; [|done]. by destruct (Hnc k Hc). }
    assert (forall y, y ∈ d -> pprev_of m y = Some x <-> consecutive y x (d ++ f :: tl)) as Hdc.
    { intros y Hy. apply (path_pprev Hm _ _ _ _ Hb). set_solver. }
    destruct (decide (Exists (fun y => pprev_of m y = Some x) d)) as [Hed|Hed].
    + apply Exists_exists in Hed as (y & Hy & Hyx). unfold m2.
      rewrite (links_update (fun _ => None) d m x y); [|done|done|done|].
      * split; [done|]. intros Hk. apply Hdc in Hyx; [|done].
        assert (y = k) as -> by (eapply consecutive_inj; [exact Hndb|done|by apply consecutive_app_r]).
        apply consecutive_elem in Hk as [Hk _]. apply NoDup_app in Hndb as (_ & Hdisj & _). by destruct (Hdisj k Hy).
      * intros j Hj Hjx. apply Hdc in Hyx, Hjx; [|done..]. by eapply (consecutive_inj _ _ _ _ Hndb).
    + unfold m2. rewrite (links_frame (fun _ => None)); [|done|intros h Hh Hhx; apply Hed, Exists_exists; by exists h].
      rewrite (Hl x k). split; [|apply consecutive_app_r]. intros H. destruct (consecutive_app _ _ _ _ H) as [Hd|?]; [|done].
      destruct Hed. apply Exists_exists. exists k. split; [done|by apply Hdc].
Qed.

(** One more block on top. *)
Lemma link_tip g m h p tl : index_ok g m -> is_path m (Some h) (h :: p :: tl) -> links m (p :: tl) ->
  links (alter (with_pnext (Some h)) p m) (h :: p :: tl).
Proof.
  intros Hm Hp Hl. destruct (pprev_of_path _ _ Hp) as (tl' & E & Hpp). injection E as <-.
  assert (pprev_of m h = Some p) as Epp by (by inversion Hpp).
  pose proof (relink g m [] [h] p tl p h Hm) as H. cbn in H. unfold link_prev in H. rewrite Epp in H.
  apply H; [|done..]. by rewrite Epp in Hpp.
Qed.

(** The main chain is what [IsInMainChain] says. *)
Lemma IsInMainChain_path s tip hs : is_path (mapBlockIndex s) (Some tip) hs -> links (mapBlockIndex s) hs ->
  g_pindexBest s = Some tip -> forall h, is_Some (mapBlockIndex s !! h) -> IsInMainChain s h = true <-> h ∈ hs.
Proof.
  intros Hp Hl Hb h [e He]. unfold IsInMainChain. rewrite He, orb_true_iff, !bool_decide_eq_true, Hb. split.
  - intros [[n Hn]|[= ->]]; [|inversion Hp; set_solver].
    assert (pnext_of (mapBlockIndex s) h = Some n) as Hx by (unfold pnext_of; by rewrite He).
    by apply Hl, consecutive_elem in Hx as [_ ?].
  - intros (l1 & l2 & E)%list_elem_of_split. destruct (snoc_inv l1) as [->|(l & n & ->)].
    + right. rewrite E in Hp. by inversion Hp.
    + left. exists n. assert (pnext_of (mapBlockIndex s) h = Some n) as Hx.
      { apply Hl. exists l, l2. by rewrite E, <-app_assoc. }
      unfold pnext_of in Hx. by rewrite He in Hx.
Qed.

(** * The transaction index as the ledger of a chain

    The specification of the transaction index the database holds: what
    connecting the blocks of the chain one after the other gives.  The two
    loops of [Reorganize] over the branches go from the ledger of one chain to
    that of the other. *)

Lemma erase_with_supply pindex st : erase_supply (hd null_index (with_supply pindex st)) = erase_supply (hd null_index pindex).
Proof. by destruct pindex. Qed.

Section ledger.
Context {SH : ScriptHashes} {EC : ECDSA}.
Variable ext : check_env.
Variable ReadTxFromDisk : CDiskTxPos -> option CTransaction.
Variable nCoinbaseMaturity : Z.

Abbreviation connects := (fun env mempool => ConnectBlock env ReadTxFromDisk mempool nCoinbaseMaturity).

(** The block of an entry. *)
Definition block_at (s : node) (h : Z) : option CBlock := match ReadFromDisk ext s h with Ok b => Some b | _ => None end.

Lemma block_at_Some s h b : block_at s h = Some b <-> ReadFromDisk ext s h = Ok b.
Proof. unfold block_at. destruct (ReadFromDisk ext s h); split; congruence. Qed.

Lemma block_at_file s h b : block_at s h = Some b ->
  bi_nFile (index_at (mapBlockIndex s) h) <> UINT_MAX /\ block_GetHash b = h /\
  block_files s !! (bi_nFile (index_at (mapBlockIndex s) h), bi_nBlockPos (index_at (mapBlockIndex s) h)) = Some b.
Proof.
  rewrite block_at_Some. unfold ReadFromDisk, read_file.
  destruct ((_ <? 1) || _) eqn:E; [done|]. apply orb_false_iff in E as [_ E].
  destruct (block_files s !! _) as [b'|]; [|done]. intros H. apply bind_Ok in H as (u & _ & H).
  apply bind_Ok in H as (u' & Hh%fail_if_Ok%negb_false_iff & H). injection H as ->. split_and!; [lia|lia|done].
Qed.

(** Reading depends on the tree and the files only. *)
Lemma ReadFromDisk_same s s' h : same_tree (mapBlockIndex s) (mapBlockIndex s') -> block_files s = block_files s' ->
  ReadFromDisk ext s h = ReadFromDisk ext s' h.
Proof.
  intros E Ef. unfold ReadFromDisk. rewrite Ef.
  by apply (same_tree_index _ _ h), erase_supply_fields in E as (_ & -> & -> & _).
Qed.

Lemma block_at_same s s' h : same_tree (mapBlockIndex s) (mapBlockIndex s') -> block_files s = block_files s' ->
  block_at s h = block_at s' h.
Proof. intros E Ef. unfold block_at. by rewrite (ReadFromDisk_same s s'). Qed.

(** [ledger s hs db]: [db] results from connecting the blocks of [hs], the
    genesis block (last in the list) left out.  The circumstances of each
    connection (the clock, the pool, what was the best block) are arbitrary. *)
Inductive ledger (s : node) : list Z -> tx_db -> Prop :=
| ledger_genesis g b : block_at s g = Some b -> ledger s [g] ∅
| ledger_block h hs b env mempool pindex pindex' db db' :
    ledger s hs db -> block_at s h = Some b ->
    map erase_supply pindex = map (fun k => erase_supply (index_at (mapBlockIndex s) k)) (h :: hs) ->
    connects env mempool b db pindex false = Ok (pindex', db') ->
    ledger s (h :: hs) db'.

(** A ledger depends on the entries and the blocks of its chain only. *)
Lemma ledger_ext s s' hs db :
  (forall k, k ∈ hs -> erase_supply (index_at (mapBlockIndex s') k) = erase_supply (index_at (mapBlockIndex s) k)) ->
  (forall k b, k ∈ hs -> block_at s k = Some b -> block_at s' k = Some b) -> ledger s hs db -> ledger s' hs db.
Proof.
  intros Hi Hb. induction 1 as [g b Hg|h hs b env mempool pindex pindex' db db' _ IH Hbh Hp Hc].
  { econstructor. apply Hb; [by left|exact Hg]. }
  econstructor; [|apply Hb; [by left|exact Hbh]| |exact Hc].
  - apply IH; [intros k Hk; apply Hi; by right|intros k b' Hk; apply Hb; by right].
  - rewrite Hp. apply map_ext_in. intros k Hk%list_elem_of_In. by rewrite Hi.
Qed.

Lemma ledger_same s s' hs db : same_tree (mapBlockIndex s) (mapBlockIndex s') -> block_files s = block_files s' ->
  ledger s hs db -> ledger s' hs db.
Proof.
  intros E Ef. apply ledger_ext; [intros k _; by rewrite (same_tree_index _ _ k E)|]. intros k b _. by rewrite (block_at_same s s').
Qed.

Lemma ledger_blocks s hs db : ledger s hs db -> forall k, k ∈ hs -> is_Some (block_at s k).
Proof.
  induction 1 as [g b Hg|h hs b env mempool pindex pindex' db db' _ IH Hbh Hp Hc]; intros k Hk.
  - apply list_elem_of_singleton in Hk as ->. by eexists.
  - apply elem_of_cons in Hk as [->|Hk]; [by eexists|by apply IH].
Qed.

(** The transactions of the blocks of a chain. *)
Definition chain_txs (s : node) (hs : list Z) : list Z :=
  flat_map (fun h => from_option tx_hashes [] (block_at s h)) hs.

Lemma chain_txs_app s l1 l2 : chain_txs s (l1 ++ l2) = chain_txs s l1 ++ chain_txs s l2.
Proof. apply flat_map_app. Qed.

Lemma chain_NoDup_app s l1 l2 : NoDup (chain_txs s (l1 ++ l2)) -> NoDup (chain_txs s l2).
Proof. rewrite chain_txs_app. by intros (_ & _ & ?)%NoDup_app. Qed.

Lemma chain_txs_ext s s' hs : (forall k, k ∈ hs -> block_at s' k = block_at s k) -> chain_txs s' hs = chain_txs s hs.
Proof.
  unfold chain_txs. induction hs as [|h hs IH]; intros H; [done|]. cbn. rewrite (H h) by (by left). f_equal.
  apply IH. intros k Hk. apply H. by right.
Qed.

Lemma chain_txs_same s s' hs : same_tree (mapBlockIndex s) (mapBlockIndex s') -> block_files s = block_files s' ->
  chain_txs s hs = chain_txs s' hs.
Proof. intros E Ef. apply flat_map_ext. intros h. by rewrite (block_at_same s s'). Qed.

(** Output indexes are unsigned in every block on the disk. *)
Definition files_ok (s : node) : Prop :=
  forall p b, block_files s !! p = Some b -> Forall (fun tx => Forall (fun i => 0 <= prevout_n (prevout i)) (vin tx)) (vtx b).

Lemma Forall_new (db : tx_db) b (l : list Z) : (forall k, is_Some (db !! k) -> k ∈ l) -> (forall k, k ∈ tx_hashes b -> k ∉ l) ->
  Forall (fun tx => db !! tx_GetHash tx = None) (vtx b).
Proof.
  intros Hdb Hl. apply Forall_forall. intros tx Htx. apply eq_None_not_Some. intros Hs%Hdb.
  apply (Hl (tx_GetHash tx)); [|done]. unfold tx_hashes. apply list_elem_of_In, in_map. by apply list_elem_of_In.
Qed.

Lemma ledger_connect_facts s h hs b env mempool pindex pindex' db db' : files_ok s ->
  block_at s h = Some b -> NoDup (chain_txs s (h :: hs)) ->
  map erase_supply pindex = map (fun k => erase_supply (index_at (mapBlockIndex s) k)) (h :: hs) ->
  all_canonical db -> (forall k, is_Some (db !! k) -> k ∈ chain_txs s hs) ->
  connects env mempool b db pindex false = Ok (pindex', db') ->
  DisconnectBlock b db' = Ok db /\ all_canonical db' /\ (forall k, is_Some (db' !! k) -> k ∈ chain_txs s (h :: hs)).
Proof.
  intros Hf Hb Hnd Hp Hcan Hdom Hc. destruct (block_at_file _ _ _ Hb) as (Hfile & _ & Hfb).
  cbn in Hnd. rewrite Hb in Hnd. cbn in Hnd. apply NoDup_app in Hnd as (_ & Hdisj & _).
  destruct (ConnectBlock_index _ _ _ _ _ _ _ _ _ Hc) as (Hd & Hcan' & Hdom').
  - destruct pindex as [|e pindex]; [done|]. apply (f_equal (hd (erase_supply null_index))) in Hp. cbn in *.
    by apply erase_supply_fields in Hp as (_ & -> & _).
  - by eapply Hf.
  - done.
  - by eapply Forall_new.
  - split_and!; [done|done|]. intros k [Hk|Hk]%Hdom'; cbn; rewrite Hb; cbn; apply elem_of_app; [by left|right; by apply Hdom].
Qed.

Lemma ledger_facts s hs db : files_ok s -> ledger s hs db -> NoDup (chain_txs s hs) ->
  all_canonical db /\ (forall k, is_Some (db !! k) -> k ∈ chain_txs s hs).
Proof.
  intros Hf. induction 1 as [g b Hg|h hs b env mempool pindex pindex' db db' _ IH Hb Hp Hc]; intros Hnd.
  - split; [by intros ? ? ?|]. intros k [? ?]; done.
  - destruct IH as [Hcan Hdom]; [by apply (chain_NoDup_app s [h])|].
    destruct (ledger_connect_facts _ _ _ _ _ _ _ _ _ _ Hf Hb Hnd Hp Hcan Hdom Hc) as (_ & ? & ?). done.
Qed.

(** Disconnecting the last block of a ledger leads to the ledger before it. *)
Lemma ledger_disconnect s h hs db : files_ok s -> ledger s (h :: hs) db -> hs <> [] -> NoDup (chain_txs s (h :: hs)) ->
  exists b db0, block_at s h = Some b /\ DisconnectBlock b db = Ok db0 /\ ledger s hs db0.
Proof.
  intros Hf H Hne Hnd. inversion H as [|? ? b env mempool pindex pindex' db0 db' Hl Hb Hp Hc]; subst; [done|].
  destruct (ledger_facts s hs db0 Hf Hl) as [Hcan Hdom]; [by apply (chain_NoDup_app s [h])|].
  destruct (ledger_connect_facts _ _ _ _ _ _ _ _ _ _ Hf Hb Hnd Hp Hcan Hdom Hc) as (Hd & _). by exists b, db0.
Qed.
End ledger.
