(* ===== verification/Reorg.v ===== *)
(** * Reorganize keeps the node consistent

    The invariant of a node whose database is at a block [tip]: the path to
    the root, the [pnext] links, the transaction index as the ledger of the
    chain and the block index records agree.  [Reorganize] moves all of them
    to the other branch, or leaves all of them where they were. *)

From S2P Require Import Prelude Opcode ScriptNum Script SigEncoding Interp LegacyInterp Serialize Transaction SigHash Bignum Chain TxConnect TxConnectProps Merkle Proofs Stake Standard Policy Mempool Block BlockProps ChainState ChainTree ChainLinks.

Local Open Scope Z_scope.

(** ** The block index records *)

(** The record of every entry has its fields and the links of the chain. *)
Definition record_ok (e : entry) (x : Z) (hs : list Z) (d : CDiskBlockIndex) : Prop :=
  d_hashPrev d = default 0 (e_pprev e) /\ erase_supply (d_index d) = erase_supply (e_index e) /\
  (forall n, consecutive n x hs -> d_hashNext d = n) /\ ((forall n, ~ consecutive n x hs) -> d_hashNext d = 0).

Definition disk_ok (m : block_map) (db : CTxDB) (hs : list Z) : Prop :=
  forall x e, m !! x = Some e -> exists d, db_blockindex db !! x = Some d /\ record_ok e x hs d.

Lemma disk_ok_same m m' db hs : same_tree m m' -> disk_ok m db hs -> disk_ok m' db hs.
Proof.
  intros E Hd x e' He'. symmetry in E. destruct (same_tree_lookup _ _ _ _ E He') as (e & He & Hp & Hi).
  destruct (Hd x e He) as (d & Hdx & Hr). exists d. split; [done|]. unfold record_ok in *. by rewrite <-Hp, <-Hi.
Qed.

Lemma disk_ok_write m db hs hs' x0 d0 : disk_ok m db hs ->
  (forall e, m !! x0 = Some e -> record_ok e x0 hs' d0) ->
  (forall x n, x <> x0 -> consecutive n x hs <-> consecutive n x hs') ->
  disk_ok m (WriteBlockIndex x0 d0 db) hs'.
Proof.
  intros Hd H0 Hc x e He. cbn. destruct (decide (x = x0)) as [->|Hx].
  - rewrite lookup_insert_eq. exists d0. by split; [|apply H0].
  - rewrite lookup_insert_ne by done. destruct (Hd x e He) as (d & Hdx & H1 & H2 & H3 & H4). exists d. split; [done|].
    split_and!; [done|done|intros n Hn; apply H3; by apply Hc|]. intros Hn. apply H4. intros n Hn'. apply (Hn n). by apply Hc.
Qed.

(** A new entry off the chain. *)
Lemma disk_ok_new m db hs h e d : disk_ok m db hs -> record_ok e h hs d -> disk_ok (<[h := e]> m) (WriteBlockIndex h d db) hs.
Proof.
  intros Hd Hr x e'. cbn. destruct (decide (x = h)) as [->|Hx].
  - rewrite !lookup_insert_eq. intros [= <-]. by exists d.
  - rewrite !lookup_insert_ne by done. apply Hd.
Qed.

Lemma consecutive_cons n x h hs : consecutive n x (h :: hs) <-> (n = h /\ head hs = Some x) \/ consecutive n x hs.
Proof.
  split.
  - intros ([|y l1] & l2 & E); injection E as -> ->; [by left|right; by exists l1, l2].
  - intros [[-> H]|(l1 & l2 & ->)]; [|by exists (h :: l1), l2]. destruct hs as [|y hs]; [done|]. injection H as ->. by exists [], hs.
Qed.

Lemma consecutive_head h hs : NoDup (h :: hs) -> forall n, ~ consecutive n h (h :: hs).
Proof.
  intros [Hh _]%NoDup_cons n [[-> H]|H]%consecutive_cons; apply Hh.
  - destruct hs; [done|]. injection H as ->. by left.
  - by apply consecutive_elem in H as [_ ?].
Qed.

Section write_prev.
Context {g : Z} {m : block_map} (Hm : index_ok g m).

Lemma disk_ok_disconnect db h p tl : is_path m (Some h) (h :: p :: tl) ->
  disk_ok m db (h :: p :: tl) -> disk_ok m (write_prev m h 0 db) (p :: tl).
Proof using Hm.
  intros Hp Hd. pose proof (path_NoDup Hm _ _ Hp) as Hnd. destruct (pprev_of_path _ _ Hp) as (tl' & E & Hpp). injection E as <-.
  unfold write_prev. destruct (pprev_of m h) as [q|] eqn:Eq; inversion Hpp; subst.
  match goal with H : m !! p = Some _ |- _ => rewrite H; rename H into He end.
  apply NoDup_cons in Hnd as [Hh Hnd].
  apply (disk_ok_write m db (h :: p :: tl)); [done| |].
  - intros e' He'. assert (e' = e) as -> by congruence. split_and!; [done..| |done].
    intros n Hn. by destruct (consecutive_head _ _ Hnd n).
  - intros x n Hx. rewrite (consecutive_cons n x h). cbn. split; [|by right]. intros [[_ [= ->]]|?]; done.
Qed.

Lemma disk_ok_connect db h e p tl : is_path m (Some h) (h :: p :: tl) -> m !! h = Some e -> e_pnext e = None ->
  disk_ok m db (p :: tl) -> disk_ok m (write_prev m h h (WriteBlockIndex h (disk_index e) db)) (h :: p :: tl).
Proof using Hm.
  intros Hp He Hn Hd. pose proof (path_NoDup Hm _ _ Hp) as Hnd. pose proof Hnd as [Hh Hnd']%NoDup_cons.
  destruct (pprev_of_path _ _ Hp) as (tl' & E & Hpp). injection E as <-.
  unfold write_prev. destruct (pprev_of m h) as [q|] eqn:Eq; inversion Hpp; subst.
  match goal with H : m !! p = Some ?x |- _ => rewrite H; rename H into Hep; rename x into ep end.
  apply (disk_ok_write m _ (p :: tl)).
  - apply (disk_ok_write m _ (p :: tl)); [done| |done]. intros e' He'. assert (e' = e) as -> by congruence.
    split_and!; [done..| |intros _; cbn; by rewrite Hn]. intros n [_ Hx]%consecutive_elem. done.
  - intros e' He'. assert (e' = ep) as -> by congruence. split_and!; [done..| |].
    + intros n Hc. cbn. apply (consecutive_inj h n p _ Hnd); [by exists [], tl|done].
    + intros Hc. destruct (Hc h). by exists [], tl.
  - intros x n Hx. rewrite (consecutive_cons n x h). cbn. split; [by right|]. intros [[_ [= ->]]|?]; done.
Qed.
End write_prev.

(** ** The invariant *)

Section reorg.
Context {SH : ScriptHashes} {EC : ECDSA}.
Variable ext : check_env.
Variable ReadTxFromDisk : CDiskTxPos -> option CTransaction.
Variables (nCoinbaseMaturity nTotalBlocksEstimate hashGenesis : Z).
Variables (TestNet : bool) (rate_limited fStashed : CTransaction -> bool).

Abbreviation ledger' := (ledger ext ReadTxFromDisk nCoinbaseMaturity).
Abbreviation txs_of := (chain_txs ext).

Record on_chain (s : node) (tip : Z) (hs : list Z) : Prop := {
  oc_path : is_path (mapBlockIndex s) (Some tip) hs;
  oc_links : links (mapBlockIndex s) hs;
  oc_ledger : ledger' s hs (db_tx (database s));
  oc_best : db_hashBestChain (database s) = tip;
  oc_disk : disk_ok (mapBlockIndex s) (database s) hs;
}.

(** What changing the chain leaves alone. *)
Record frame (s s' : node) : Prop := {
  fr_tree : same_tree (mapBlockIndex s) (mapBlockIndex s');
  fr_files : block_files s' = block_files s;
  fr_stake : setStakeSeen s' = setStakeSeen s;
  fr_genesis : pindexGenesisBlock s' = pindexGenesisBlock s;
  fr_best : g_pindexBest s' = g_pindexBest s;
  fr_hash : hashBestChain s' = hashBestChain s;
  fr_height : nBestHeight s' = nBestHeight s;
  fr_trust : nBestChainTrust s' = nBestChainTrust s;
}.

Lemma frame_refl s : frame s s.
Proof. by split. Qed.

Lemma frame_trans s1 s2 s3 : frame s1 s2 -> frame s2 s3 -> frame s1 s3.
Proof. intros [] []. split; congruence. Qed.

Lemma frame_set_index m s : same_tree (mapBlockIndex s) m -> frame s (set_index m s).
Proof. by split. Qed.

Lemma links_ext m m' hs : (forall x, pnext_of m' x = pnext_of m x) -> links m hs -> links m' hs.
Proof. intros E H x n. by rewrite E. Qed.

(** The entries in memory may be rewritten without moving. *)
Lemma on_chain_same s s' tip hs : same_tree (mapBlockIndex s) (mapBlockIndex s') -> block_files s' = block_files s -> (forall x, pnext_of (mapBlockIndex s') x = pnext_of (mapBlockIndex s) x) ->
  database s' = database s -> on_chain s tip hs -> on_chain s' tip hs.
Proof.
  intros Ht Hf Hn Hdb [Hp Hl Hle Hb Hd]. split; rewrite ?Hdb.
  - by eapply is_path_same.
  - by eapply links_ext.
  - by eapply ledger_same.
  - done.
  - by eapply disk_ok_same.
Qed.

(** ** One block *)

Lemma pnext_with_index m h b x : pnext_of (alter (with_index b) h m) x = pnext_of m x.
Proof.
  unfold pnext_of. destruct (decide (x = h)) as [->|Hx]; [|by rewrite lookup_alter_ne].
  rewrite lookup_alter_eq. by destruct (m !! h).
Qed.

Lemma chain_of_path s h hs : index_ok hashGenesis (mapBlockIndex s) -> is_path (mapBlockIndex s) (Some h) hs ->
  chain_of (mapBlockIndex s) (Some h) = map (index_at (mapBlockIndex s)) hs.
Proof. intros Hm Hp. unfold chain_of. by rewrite (ancestors_of_path Hm _ _ Hp). Qed.

(** Connecting one block extends the ledger and the records. *)
Lemma connect_block_Ok s db b h p tl m' db' : index_ok hashGenesis (mapBlockIndex s) ->
  is_path (mapBlockIndex s) (Some h) (h :: p :: tl) -> block_at ext s h = Some b -> pnext_of (mapBlockIndex s) h = None ->
  ledger' s (p :: tl) (db_tx db) -> disk_ok (mapBlockIndex s) db (p :: tl) ->
  connect_block ext ReadTxFromDisk nCoinbaseMaturity s db b h = Ok (m', db') ->
  same_tree (mapBlockIndex s) m' /\ (forall x, pnext_of m' x = pnext_of (mapBlockIndex s) x) /\
  ledger' s (h :: p :: tl) (db_tx db') /\ db_hashBestChain db' = db_hashBestChain db /\ disk_ok m' db' (h :: p :: tl).
Proof.
  intros Hm Hp Hb Hn Hl Hd H. unfold connect_block in H. apply bind_Ok in H as ((c, txs) & Hc & H).
  cbn [fst snd] in H. injection H as Em Edb.
  assert (erase_supply (hd null_index c) = erase_supply (index_at (mapBlockIndex s) h)) as Ehd.
  { unfold ConnectBlock in Hc. apply bind_Ok in Hc as (? & _ & Hc). apply bind_Ok in Hc as (st & _ & Hc).
    apply bind_Ok in Hc as (? & _ & Hc). injection Hc as <- _. rewrite erase_with_supply.
    by rewrite (chain_of_path _ _ _ Hm Hp). }
  inversion Hp as [|? e ? He Hpp]; subst.
  assert (same_tree (mapBlockIndex s) (alter (with_index (hd null_index c)) h (mapBlockIndex s))) as Et.
  { apply same_tree_alter. intros e' He'. split; [|done]. cbn. rewrite Ehd. unfold index_at. by rewrite He'. }
  split; [done|]. split; [intros x; apply pnext_with_index|].
  rewrite lookup_alter_eq, He. cbn [fmap option_fmap option_map].
  assert (forall d, db_tx (write_prev (alter (with_index (hd null_index c)) h (mapBlockIndex s)) h h d) = db_tx d /\
            db_hashBestChain (write_prev (alter (with_index (hd null_index c)) h (mapBlockIndex s)) h h d) = db_hashBestChain d) as Hw.
  { intros d. unfold write_prev. by repeat case_match. }
  destruct (Hw (WriteBlockIndex h (disk_index (with_index (hd null_index c) e))
    {| db_tx := txs; db_hashBestChain := db_hashBestChain db; db_blockindex := db_blockindex db |})) as [-> ->].
  split_and!; [|done|].
  - eapply ledger_block; [exact Hl|done| |exact Hc]. rewrite (chain_of_path _ _ _ Hm Hp). by rewrite map_map.
  - eapply disk_ok_connect.
    + by eapply index_ok_same.
    + by eapply is_path_same.
    + by rewrite lookup_alter_eq, He.
    + unfold pnext_of in Hn. by rewrite He in Hn.
    + eapply disk_ok_same; [exact Et|]. intros x e' He'. by apply Hd.
Qed.

Lemma read_block s h b : ReadFromDisk ext s h = Ok b -> block_at ext s h = Some b.
Proof. by rewrite block_at_Some. Qed.

(** ** The branches *)

(** Disconnecting a branch never fails. *)
Lemma disconnect_branch_Ok s : index_ok hashGenesis (mapBlockIndex s) -> files_ok s ->
  forall d h f tl db acc, is_path (mapBlockIndex s) (Some h) (d ++ f :: tl) ->
  ledger' s (d ++ f :: tl) (db_tx db) -> disk_ok (mapBlockIndex s) db (d ++ f :: tl) -> NoDup (txs_of s (d ++ f :: tl)) ->
  exists db' acc', disconnect_branch ext nTotalBlocksEstimate s db d acc = Ok (db', acc') /\
    ledger' s (f :: tl) (db_tx db') /\ disk_ok (mapBlockIndex s) db' (f :: tl) /\ db_hashBestChain db' = db_hashBestChain db.
Proof.
  intros Hm Hf d. induction d as [|x d IH]; intros h f tl db acc Hp Hl Hd Hnd; [by exists db, acc|].
  destruct (pprev_of_path _ _ Hp) as (tl' & E & Hpp). injection E as <- <-.
  destruct (ledger_disconnect _ _ _ _ _ _ _ Hf Hl ltac:(by destruct d) Hnd) as (b & db0 & Hb & Hdis & Hl0).
  cbn [disconnect_branch]. rewrite (proj1 (block_at_Some _ _ _ _) Hb). cbn [mbind outcome_bind].
  unfold disconnect_block. rewrite Hdis. cbn [no_score mbind outcome_bind mret outcome_ret].
  set (db1 := {| db_tx := db0; db_hashBestChain := db_hashBestChain db; db_blockindex := db_blockindex db |}).
  assert (db_tx (write_prev (mapBlockIndex s) x 0 db1) = db0 /\ db_hashBestChain (write_prev (mapBlockIndex s) x 0 db1) = db_hashBestChain db) as [Etx Ebest].
  { unfold write_prev. by repeat case_match. }
  assert (exists p tl', d ++ f :: tl = p :: tl') as (p & tl' & Ep) by (destruct d; cbn; eauto).
  assert (pprev_of (mapBlockIndex s) x = Some p) as Eq by (rewrite Ep in Hpp; by inversion Hpp).
  rewrite Eq in Hpp. edestruct (IH p f tl (write_prev (mapBlockIndex s) x 0 db1)) as (db' & acc' & H1 & H2 & H3 & H4).
  - exact Hpp.
  - by rewrite Etx.
  - cbn [app] in Hp, Hd. rewrite Ep in Hp, Hd |- *. by apply (disk_ok_disconnect Hm _ x).
  - by apply (chain_NoDup_app _ s [x]).
  - exists db', acc'. split; [exact H1|]. split_and!; [done|done|by rewrite H4].
Qed.

(** Connecting a branch extends the ledger block by block; when it fails the
    entries are as before, up to their supplies. *)
Lemma connect_branch_spec l : forall s db acc hs p, index_ok hashGenesis (mapBlockIndex s) -> files_ok s ->
  is_path (mapBlockIndex s) p (rev l ++ hs) -> hs <> [] -> ledger' s hs (db_tx db) -> disk_ok (mapBlockIndex s) db hs ->
  Forall (fun h => pnext_of (mapBlockIndex s) h = None) l ->
  match connect_branch ext ReadTxFromDisk nCoinbaseMaturity s db l acc with
  | (s', r) =>
    (exists m', s' = set_index m' s /\ same_tree (mapBlockIndex s) m' /\ (forall x, pnext_of m' x = pnext_of (mapBlockIndex s) x)) /\
    match r with
    | Ok (db', _) => ledger' s' (rev l ++ hs) (db_tx db') /\ disk_ok (mapBlockIndex s') db' (rev l ++ hs)
    | _ => True
    end
  end.
Proof.
  induction l as [|h l IH]; intros s db acc hs p Hm Hf Hp Hne Hl Hd Hn; cbn [connect_branch].
  - split; [|done]. exists (mapBlockIndex s). by destruct s.
  - assert (exists m', s = set_index m' s /\ same_tree (mapBlockIndex s) m' /\
              (forall x, pnext_of m' x = pnext_of (mapBlockIndex s) x)) as Hstop by (exists (mapBlockIndex s); by destruct s).
    destruct (ReadFromDisk ext s h) as [b|e| |] eqn:Hb; cbn [run]; try (split; [exact Hstop|done]).
    destruct (connect_block ext ReadTxFromDisk nCoinbaseMaturity s db b h) as [[m1 db1]|e| |] eqn:Hc; cbn [run fst snd]; try (split; [exact Hstop|done]).
    cbn [rev] in Hp |- *. rewrite <-app_assoc in Hp |- *. cbn [app] in Hp |- *.
    destruct hs as [|q tl]; [done|]. apply Forall_cons in Hn as [Hn1 Hn]. apply is_path_app in Hp as Hph.
    destruct (connect_block_Ok _ _ _ _ _ _ _ _ Hm Hph (read_block _ _ _ Hb) Hn1 Hl Hd Hc) as (Et & En & Hl1 & _ & Hd1).
    specialize (IH (set_index m1 s) db1 (acc ++ vtx b) (h :: q :: tl) p).
    destruct (connect_branch _ _ _ (set_index m1 s) db1 l (acc ++ vtx b)) as [s' r].
    destruct IH as ((m' & -> & Et' & En') & Hr); cbn [mapBlockIndex set_index].
    + by eapply index_ok_same.
    + done.
    + by eapply is_path_same.
    + done.
    + by eapply (ledger_same _ _ _ s).
    + done.
    + eapply Forall_impl; [exact Hn|]. intros x. by rewrite En.
    + split; [|done]. exists m'. cbn in *. split_and!; [done|by etrans|]. intros x. by rewrite En', En.
Qed.

(** ** The memory pool loops *)

(** Only the memory pool changed. *)
Definition pool_only (s s' : node) : Prop := exists pool, s' = set_mempool pool s.

Lemma pool_only_refl s : pool_only s s.
Proof. exists (g_mempool s). by destruct s. Qed.

Lemma pool_only_trans s1 s2 s3 : pool_only s1 s2 -> pool_only s2 s3 -> pool_only s1 s3.
Proof. intros [p ->] [q ->]. by exists q. Qed.

Lemma for_each_pool {A} (f : node -> A -> node * outcome Z unit) l : (forall s a, pool_only s (f s a).1) ->
  forall s, pool_only s (for_each f s l).1.
Proof.
  intros Hf. induction l as [|a l IH]; intros s; cbn; [apply pool_only_refl|]. specialize (Hf s a). destruct (f s a) as [s1 r].
  destruct r; cbn; try done. eapply pool_only_trans; [exact Hf|apply IH].
Qed.

Lemma on_pool_only s m : pool_only s (on_pool s m).1.
Proof. unfold on_pool. destruct (m (g_mempool s)); cbn; try apply pool_only_refl. by eexists. Qed.

Lemma delete_redundant_only s tx : pool_only s (delete_redundant s tx).1.
Proof.
  unfold delete_redundant, pool_remove. pose proof (on_pool_only s (remove (pool_fuel s) tx false)) as H.
  destruct (on_pool s _) as [s1 []]; cbn; try done. eapply pool_only_trans; [exact H|]. apply on_pool_only.
Qed.

Lemma resurrect_only s tx : pool_only s (resurrect ext ReadTxFromDisk nCoinbaseMaturity TestNet rate_limited fStashed s tx).1.
Proof. unfold resurrect. destruct (AcceptToMemoryPool _ _ _ _ _ _ _ _ _ _ _ _ _ _ _ _); cbn; try apply pool_only_refl. by eexists. Qed.

Lemma on_chain_pool s s' tip hs : pool_only s s' -> on_chain s tip hs -> on_chain s' tip hs.
Proof. intros [pool ->]. by apply on_chain_same. Qed.

Lemma frame_pool s s' : pool_only s s' -> frame s s'.
Proof. intros [pool ->]. by split. Qed.

(** The loops over the pool fail in no other way than by throwing. *)
Definition no_err (r : outcome Z unit) : Prop := match r with Err _ => False | _ => True end.

Lemma for_each_no_err {A} (f : node -> A -> node * outcome Z unit) l : (forall s a, no_err (f s a).2) ->
  forall s, no_err (for_each f s l).2.
Proof.
  intros Hf. induction l as [|a l IH]; intros s; cbn; [done|]. specialize (Hf s a). destruct (f s a) as [s1 []]; cbn; try done.
Qed.

Lemma on_pool_no_err s m : no_err (on_pool s m).2.
Proof. unfold on_pool. by destruct (m (g_mempool s)). Qed.

Lemma delete_redundant_no_err s tx : no_err (delete_redundant s tx).2.
Proof.
  unfold delete_redundant, pool_remove. pose proof (on_pool_no_err s (remove (pool_fuel s) tx false)) as H.
  destruct (on_pool s _) as [s1 []]; cbn; try done. apply on_pool_no_err.
Qed.

Lemma resurrect_no_err s tx : no_err (resurrect ext ReadTxFromDisk nCoinbaseMaturity TestNet rate_limited fStashed s tx).2.
Proof. unfold resurrect. by destruct (AcceptToMemoryPool _ _ _ _ _ _ _ _ _ _ _ _ _ _ _ _). Qed.

(** ** Reorganize *)

(** What a failure of connecting the new branch leaves. *)
Definition stays (s s' : node) (best : Z) (hs : list Z) : Prop := frame s s' /\ database s' = database s /\ on_chain s' best hs.

(** [Reorganize] step by step.  The fork is found and the old branch is
    disconnected; when connecting the new branch fails the run fails the same
    way, with everything as before; otherwise the chain has moved with
    everything that depends on it before the loops over the memory pool. *)
Lemma Reorganize_steps s best new hs hsn : index_ok hashGenesis (mapBlockIndex s) -> files_ok s -> on_chain s best hs ->
  g_pindexBest s = Some best -> is_path (mapBlockIndex s) (Some new) hsn -> NoDup (txs_of s hs) ->
  exists d c f tl db vResurrect,
    hs = d ++ f :: tl /\ hsn = c ++ f :: tl /\ d ## c /\ fork_of s best new = Ok (d, rev c) /\
    disconnect_branch ext nTotalBlocksEstimate s (database s) d [] = Ok (db, vResurrect) /\ ledger' s (f :: tl) (db_tx db) /\
    let '(s', r) := Reorganize ext ReadTxFromDisk nCoinbaseMaturity nTotalBlocksEstimate TestNet rate_limited fStashed s new in
    match (connect_branch ext ReadTxFromDisk nCoinbaseMaturity s db (rev c) []).2 with
    | Ok _ => no_err r /\ frame s s' /\ on_chain s' new hsn
    | Err e => r = Err e /\ stays s s' best hs
    | Throw => r = Throw /\ stays s s' best hs
    | Crash => r = Crash /\ stays s s' best hs
    end.
Proof.
  intros Hm Hf Hon Hbest Hnew Hnd. pose proof Hon as [Hp Hl Hle Hb Hd]. unfold Reorganize. rewrite Hbest.
  assert (is_Some (mapBlockIndex s !! best)) as Hsb by (inversion Hp; by eexists).
  assert (is_Some (mapBlockIndex s !! new)) as Hsn by (inversion Hnew; by eexists).
  destruct (fork_of_Ok Hm s best new eq_refl Hsb Hsn) as (d & c & f & tl & -> & Hpf & Hpb & Hpn & Hdisj). cbn [run].
  assert (hs = d ++ f :: tl) as -> by (by eapply is_path_det). assert (hsn = c ++ f :: tl) as -> by (by eapply is_path_det).
  destruct (disconnect_branch_Ok s Hm Hf d best f tl (database s) [] Hpb Hle Hd Hnd) as (db1 & vres & Hdis & Hl1 & Hd1 & Hb1).
  exists d, c, f, tl, db1, vres. split_and!; try done. rewrite Hdis. cbn [run].
  pose proof (connect_branch_spec (rev c) s db1 [] (f :: tl) (Some new) Hm Hf) as Hspec. rewrite rev_involutive in Hspec.
  destruct (connect_branch _ _ _ s db1 (rev c) []) as [s1 r]. cbn [snd].
  destruct Hspec as ((m1 & -> & Et & En) & Hr); try done.
  { apply Forall_forall. intros x Hx%list_elem_of_In%in_rev%list_elem_of_In. apply eq_None_not_Some. intros [n Hxn].
    apply Hl, consecutive_elem in Hxn as [_ Hxn]. apply elem_of_app in Hxn as [Hxd|Hxf]; [by apply (Hdisj x)|].
    pose proof (path_NoDup Hm _ _ Hnew) as (_ & Hdj & _)%NoDup_app. by apply (Hdj x). }
  assert (stays s (set_index m1 s) best (d ++ f :: tl)) as Hstays by (split_and!; [by apply frame_set_index|done|by eapply on_chain_same]).
  destruct r as [[db2 vdel]|e| |]; cbn [run]; try done. destruct Hr as [Hl2 Hd2].
  set (s2 := set_index _ (set_index _ (set_database _ (set_index m1 s)))).
  assert (frame s s2 /\ on_chain s2 new (c ++ f :: tl)) as [Hf2 Ho2].
  { unfold s2. cbn [mapBlockIndex set_index set_database].
    pose proof (same_tree_links (fun _ => None) m1 d) as Et1. set (m2 := foldl _ m1 d) in *.
    pose proof (same_tree_links (fun h => Some h) m2 (rev c)) as Et2. set (m3 := foldl _ m2 (rev c)) in *.
    assert (same_tree (mapBlockIndex s) m3) as Et3 by (by etrans; [|etrans]).
    assert (same_tree m1 m3) as Et13 by (by etrans).
    split; [by split|]. split; cbn.
    - eapply is_path_same; [exact Et3|done].
    - unfold m3, m2. apply (relink hashGenesis m1 d c f tl best new).
      + eapply index_ok_same; [exact Et|done].
      + eapply is_path_same; [exact Et|done].
      + eapply is_path_same; [exact Et|done].
      + eapply links_ext; [exact En|done].
    - by eapply (ledger_same _ _ _ (set_index m1 s)).
    - done.
    - eapply disk_ok_same; [exact Et13|]. intros x e He. by apply Hd2. }
  assert (forall s3 : node, pool_only s2 s3 -> frame s s3 /\ on_chain s3 new (c ++ f :: tl)) as Hpool.
  { intros s3 H3. split; [eapply frame_trans; [exact Hf2|by apply frame_pool]|by eapply on_chain_pool]. }
  pose proof (for_each_pool _ vres resurrect_only s2) as H3. pose proof (for_each_no_err _ vres resurrect_no_err s2) as E3.
  destruct (for_each _ s2 vres) as [s3 r3]. cbn [fst snd] in H3, E3.
  destruct r3 as [u| | |]; cbn [run]; try (split; [done|by apply Hpool]).
  pose proof (for_each_pool _ vdel delete_redundant_only s3) as H4. pose proof (for_each_no_err _ vdel delete_redundant_no_err s3) as E4.
  destruct (for_each _ s3 vdel) as [s4 r4]. cbn [fst snd] in H4, E4. pose proof (pool_only_trans _ _ _ H3 H4) as H24.
  split; [done|by apply Hpool].
Qed.

(** The chain moves to the new branch with everything that depends on it, or a
    failure leaves the database and the links as they were. *)
Lemma Reorganize_Ok s best new hs hsn : index_ok hashGenesis (mapBlockIndex s) -> files_ok s -> on_chain s best hs ->
  g_pindexBest s = Some best -> is_path (mapBlockIndex s) (Some new) hsn -> NoDup (txs_of s hs) ->
  match Reorganize ext ReadTxFromDisk nCoinbaseMaturity nTotalBlocksEstimate TestNet rate_limited fStashed s new with
  | (s', Ok _) => frame s s' /\ on_chain s' new hsn
  | (s', Err _) => stays s s' best hs
  | _ => True
  end.
Proof.
  intros Hm Hf Hon Hbest Hnew Hnd.
  destruct (Reorganize_steps s best new hs hsn Hm Hf Hon Hbest Hnew Hnd) as (d & c & f & tl & db & vres & _ & _ & _ & _ & _ & _ & H).
  destruct (Reorganize _ _ _ _ _ _ _ s new) as [s' r]. destruct (connect_branch _ _ _ s db (rev c) []).2; destruct H as [Hr H], r; done.
Qed.
End reorg.
