(* ===== verification/ChainStateProps.v ===== *)
(** * Properties of the chain state

    [SetBestChain], [AddToBlockIndex] and [AcceptBlock] preserve the invariant of the
    node, make the heavier chain the best one, and undo what a failure left in
    the database. *)

From S2P Require Import Prelude Opcode ScriptNum Script SigEncoding Interp LegacyInterp Serialize Transaction SigHash Bignum Chain TxConnect TxConnectProps Merkle Proofs Stake Standard Policy Mempool Block BlockProps ChainState ChainTree ChainLinks Reorg.

Local Open Scope Z_scope.

Section chain_state.
Context {SH : ScriptHashes} {EC : ECDSA}.
Variable ext : check_env.
Variable ReadTxFromDisk : CDiskTxPos -> option CTransaction.
Variables (nCoinbaseMaturity nTotalBlocksEstimate hashGenesis : Z).
Variables (TestNet : bool) (rate_limited fStashed : CTransaction -> bool).

Abbreviation onchain := (on_chain ext ReadTxFromDisk nCoinbaseMaturity).
Abbreviation inner := (SetBestChainInner ext ReadTxFromDisk nCoinbaseMaturity).
Abbreviation reorganize := (Reorganize ext ReadTxFromDisk nCoinbaseMaturity nTotalBlocksEstimate TestNet rate_limited fStashed).
Abbreviation txs_of := (chain_txs ext).

(** The invariant: the block index is a tree, the best block is the tip of the
    chain the database holds, and the globals about it are right. *)
Record node_ok (s : node) (tip : Z) (hs : list Z) : Prop := {
  nk_index : index_ok hashGenesis (mapBlockIndex s);
  nk_files : files_ok s;
  nk_chain : onchain s tip hs;
  nk_genesis : pindexGenesisBlock s = Some hashGenesis;
  nk_best : g_pindexBest s = Some tip;
  nk_hash : hashBestChain s = tip;
  nk_height : nBestHeight s = height_of (mapBlockIndex s) tip;
  nk_trust : nBestChainTrust s = trust_of (mapBlockIndex s) tip;
}.

Lemma frame_ok s s' tip hs : frame s s' -> node_ok s tip hs -> onchain s' tip hs -> node_ok s' tip hs.
Proof.
  intros [Ht Hf _ Hg Hb Hh Hhe Htr] [] Hc. split; try congruence.
  - by eapply index_ok_same.
  - intros p b. rewrite Hf. by apply nk_files0.
  - by rewrite Hhe, <-(height_same _ _ _ Ht).
  - by rewrite Htr, <-(trust_same _ _ _ Ht).
Qed.

(** ** SetBestChainInner *)

Lemma InvalidChainFound_frame s h : let r := InvalidChainFound s h in
  frame s r.1 /\ database r.1 = database s /\ mapBlockIndex r.1 = mapBlockIndex s.
Proof. unfold InvalidChainFound. by destruct (pprev_of _ h). Qed.

Lemma onchain_invalid s h tip hs : onchain s tip hs -> onchain (InvalidChainFound s h).1 tip hs.
Proof. destruct (InvalidChainFound_frame s h) as (Hf & Hd & Hm). apply on_chain_same; [apply Hf|apply Hf| |done]. by rewrite Hm. Qed.

Lemma SetBestChainInner_Ok s b new tip hs : index_ok hashGenesis (mapBlockIndex s) -> onchain s tip hs ->
  is_path (mapBlockIndex s) (Some new) (new :: hs) -> block_at ext s new = Some b ->
  match inner s b new with
  | (s', Ok _) => frame s s' /\ onchain s' new (new :: hs)
  | (s', Err _) => frame s s' /\ database s' = database s /\ onchain s' tip hs
  | _ => True
  end.
Proof.
  intros Hm Hon Hnew Hb. pose proof Hon as [Hp Hl Hle Hbest Hd].
  destruct (pprev_of_path _ _ Hp) as (tl & -> & _). pose proof (path_NoDup Hm _ _ Hnew) as [Hni Hnd]%NoDup_cons.
  destruct (pprev_of_path _ _ Hnew) as (tl' & E & Hpp). injection E as <-.
  assert (pprev_of (mapBlockIndex s) new = Some tip) as Epp by (by inversion Hpp).
  assert (pnext_of (mapBlockIndex s) new = None) as Hn.
  { apply eq_None_not_Some. intros [n [_ Hx]%Hl%consecutive_elem]. done. }
  unfold SetBestChainInner. destruct (connect_block _ _ _ s _ b new) as [[m1 db1]|e| |] eqn:Hc; try done.
  - destruct (connect_block_Ok _ _ _ _ _ _ _ _ _ _ _ _ Hm Hnew Hb Hn Hle Hd Hc) as (Et & En & Hl1 & Hb1 & Hd1).
    rewrite <-(same_tree_pprev _ _ _ Et), Epp. cbn [mapBlockIndex set_index set_database].
    set (s2 := set_index (alter _ tip m1) _).
    assert (frame s s2 /\ onchain s2 new (new :: tip :: tl)) as [Hf2 Ho2].
    { assert (same_tree m1 (alter (with_pnext (Some new)) tip m1)) as Et1 by (by apply same_tree_alter).
      assert (same_tree (mapBlockIndex s) (alter (with_pnext (Some new)) tip m1)) as Et2 by (by etrans).
      split; [by split|]. split; cbn.
      - eapply is_path_same; [exact Et2|done].
      - apply (link_tip hashGenesis).
        + eapply index_ok_same; [exact Et|done].
        + eapply is_path_same; [exact Et|done].
        + eapply links_ext; [exact En|done].
      - by eapply (ledger_same _ _ _ s).
      - by apply block_at_file in Hb as (_ & -> & _).
      - eapply disk_ok_same; [exact Et1|]. intros x e He. by apply Hd1. }
    pose proof (for_each_pool pool_remove (vtx b) (fun s tx => on_pool_only s _) s2) as H3.
    pose proof (for_each_no_err pool_remove (vtx b) (fun s tx => on_pool_no_err s _) s2) as E3.
    destruct (for_each pool_remove s2 (vtx b)) as [s3 r3]. cbn [fst snd] in H3, E3. destruct r3; try done.
    split; [eapply frame_trans; [exact Hf2|by apply frame_pool]|by eapply on_chain_pool].
  - pose proof (InvalidChainFound_frame s new) as (Hfr & Hdb & _). pose proof (onchain_invalid s new _ _ Hon) as Ho.
    destruct (InvalidChainFound s new) as [s1 []]; cbn in *; done.
Qed.

(** ** The postponed blocks *)

Lemma postpone_Ok m fuel T h acc : index_ok hashGenesis m -> is_Some (m !! h) -> height_of m h < Z.of_nat fuel ->
  exists i sec tl, postpone m fuel T h acc = Ok (i, sec ++ acc) /\ is_path m (Some h) (rev sec ++ i :: tl) /\
    (forall p, pprev_of m i = Some p -> trust_of m p <= T) /\ (sec <> [] -> T < trust_of m i) /\
    (sec = [] -> i = h) /\ (sec <> [] -> exists p, pprev_of m h = Some p /\ T < trust_of m p).
Proof.
  intros Hm. revert h acc. induction fuel as [|fuel IH]; intros h acc Hh Hf; [pose proof (height_bound Hm h Hh); lia|].
  cbn [postpone]. destruct (path_exists Hm h Hh) as (hs & Hp & _). destruct (pprev_of_path _ _ Hp) as (tl & -> & Hpp).
  destruct (pprev_of m h) as [p|] eqn:Ep; [|exists h, [], tl; split_and!; intros; try done; congruence].
  destruct (Z.ltb_spec T (trust_of m p)) as [Hlt|Hge].
  - destruct (pprev_of_height Hm _ _ Hh Ep) as [Hsp Hhp].
    destruct (IH p (h :: acc) Hsp ltac:(lia)) as (i & sec & tl' & -> & Hpath & Ht & Hs & Hi & _).
    exists i, (sec ++ [h]), tl'. rewrite <-app_assoc, rev_app_distr. split_and!; [done| |done| |by destruct sec|by intros _; exists p].
    + cbn. destruct (m !! h) as [e|] eqn:He; [|by destruct Hh]. econstructor; [exact He|].
      unfold pprev_of in Ep. rewrite He in Ep. cbn in Ep. by rewrite Ep.
    + intros _. destruct sec as [|x sec]; [by rewrite (Hi eq_refl)|by apply Hs].
  - exists h, [], tl. split_and!; try done. intros q Hq. assert (q = p) as -> by congruence. lia.
Qed.

(** Connecting the postponed blocks stops at the first failure; what is
    connected by then is the chain of the database. *)
Lemma connect_secondary_Ok l : forall s tip hs, index_ok hashGenesis (mapBlockIndex s) -> onchain s tip hs ->
  forall p, is_path (mapBlockIndex s) p (rev l ++ hs) ->
  match connect_secondary ext ReadTxFromDisk nCoinbaseMaturity s l with
  | (s', Ok _) => frame s s' /\ exists l1 l2 tip', l = l1 ++ l2 /\ onchain s' tip' (rev l1 ++ hs)
  | (s', Err _) => False
  | _ => True
  end.
Proof.
  induction l as [|h l IH]; intros s tip hs Hm Hon p Hp; cbn [connect_secondary].
  - split; [apply frame_refl|]. by exists [], [], tip.
  - assert (frame s s /\ exists l1 l2 tip', h :: l = l1 ++ l2 /\ onchain s tip' (rev l1 ++ hs)) as Hstop.
    { split; [apply frame_refl|]. by exists [], (h :: l), tip. }
    destruct (ReadFromDisk ext s h) as [b|e| |] eqn:Hb; try exact Hstop.
    cbn [rev] in Hp. rewrite <-app_assoc in Hp. cbn in Hp. pose proof (is_path_app _ _ _ _ _ Hp) as Hph.
    pose proof (SetBestChainInner_Ok s b h tip hs Hm Hon Hph (read_block _ _ _ _ Hb)) as Hin.
    destruct (inner s b h) as [s1 [[]|e| |]]; try done.
    + destruct Hin as [Hf1 Ho1]. specialize (IH s1 h (h :: hs)).
      destruct (connect_secondary _ _ _ s1 l) as [s2 [u|e| |]]; try done.
      * destruct (IH ltac:(eapply index_ok_same; [exact (fr_tree _ _ Hf1)|done]) Ho1 p
          ltac:(eapply is_path_same; [exact (fr_tree _ _ Hf1)|done])) as (Hf2 & l1 & l2 & tip' & -> & Ho2).
        split; [by eapply frame_trans|]. exists (h :: l1), l2, tip'. split; [done|]. cbn. by rewrite <-app_assoc.
      * by apply (IH ltac:(eapply index_ok_same; [exact (fr_tree _ _ Hf1)|done]) Ho1 p
          ltac:(eapply is_path_same; [exact (fr_tree _ _ Hf1)|done])).
    + destruct Hin as (Hf1 & _ & Ho1). split; [done|]. by exists [], (h :: l), tip.
Qed.

(** ** SetBestChain *)

Lemma switch_chain_Ok s b new tip hs hsn : node_ok s tip hs -> is_path (mapBlockIndex s) (Some new) hsn ->
  block_at ext s new = Some b -> pprev_of (mapBlockIndex s) new = Some (blk_hashPrevBlock b) -> NoDup (txs_of s hs) ->
  match switch_chain ext ReadTxFromDisk nCoinbaseMaturity nTotalBlocksEstimate hashGenesis TestNet rate_limited fStashed s b new with
  | (s', Ok _) => frame s s' /\ exists l hs' tip', hsn = l ++ hs' /\ onchain s' tip' hs' /\
      (l <> [] -> trust_of (mapBlockIndex s) tip < trust_of (mapBlockIndex s) (blk_hashPrevBlock b))
  | (s', Err _) => frame s s' /\ database s' = database s /\ onchain s' tip hs
  | _ => True
  end.
Proof.
  intros [Hm Hf Hon Hg Hbest Hhash Hheight Htrust] Hnew Hb Hprev Hnd. unfold switch_chain. rewrite Hg, Hhash, Hbest. cbn [andb bool_decide decide_rel].
  assert (is_Some (mapBlockIndex s !! new)) as Hsn by (inversion Hnew; by eexists).
  destruct (Z.eqb_spec (blk_hashPrevBlock b) tip) as [E|E].
  - assert (hsn = new :: hs) as ->.
    { destruct (pprev_of_path _ _ Hnew) as (tl & -> & Hpp). f_equal. rewrite Hprev, E in Hpp.
      eapply is_path_det; [exact Hpp|]. apply Hon. }
    pose proof (SetBestChainInner_Ok s b new tip hs Hm Hon Hnew Hb) as H. destruct (inner s b new) as [s' [u|e| |]]; try done.
    destruct H as [Hfr Ho]. split; [done|]. by exists [], (new :: hs), new.
  - pose proof (height_bound Hm new Hsn) as Hbound.
    destruct (postpone_Ok (mapBlockIndex s) (S (size (mapBlockIndex s))) (trust_of (mapBlockIndex s) tip) new [] Hm Hsn ltac:(lia))
      as (i & sec & tl & -> & Hpath & _ & _ & _ & Hsec). rewrite app_nil_r. cbn [run].
    pose proof (is_path_app _ _ _ _ _ Hpath) as Hi.
    pose proof (Reorganize_Ok ext ReadTxFromDisk nCoinbaseMaturity nTotalBlocksEstimate hashGenesis TestNet rate_limited fStashed
      s tip i hs (i :: tl) Hm Hf Hon Hbest Hi Hnd) as H.
    destruct (reorganize s i) as [s1 [[]|e| |]]; try done.
    + destruct H as [Hf1 Ho1].
      pose proof (connect_secondary_Ok sec s1 i (i :: tl) ltac:(eapply index_ok_same; [exact (fr_tree _ _ Hf1)|done]) Ho1
        (Some new) ltac:(eapply is_path_same; [exact (fr_tree _ _ Hf1)|done])) as H2.
      destruct (connect_secondary _ _ _ s1 sec) as [s2 [u|e| |]]; try done.
      destruct H2 as (Hf2 & l1 & l2 & tip' & -> & Ho2). split; [by eapply frame_trans|].
      exists (rev l2), (rev l1 ++ i :: tl), tip'. split_and!; [|done|].
      * eapply is_path_det; [exact Hnew|]. by rewrite rev_app_distr, <-app_assoc in Hpath.
      * intros Hl2. destruct Hsec as (p & Hp & Hlt); [by destruct l1, l2|]. by assert (p = blk_hashPrevBlock b) as -> by congruence.
    + destruct H as (Hf1 & Hdb & Ho1). pose proof (InvalidChainFound_frame s1 new) as (Hfr & Hdb' & _).
      pose proof (onchain_invalid s1 new _ _ Ho1) as Ho.
      destruct (InvalidChainFound s1 new) as [s2 []]; cbn in *; try done; (split_and!; [by eapply frame_trans|congruence|done]).
Qed.

(** The same when the database is at a block [tip] on the way to the best one:
    what a run leaves that could not connect a postponed block. *)
Record node_behind (s : node) (best tip : Z) (hs : list Z) : Prop := {
  nb_index : index_ok hashGenesis (mapBlockIndex s);
  nb_files : files_ok s;
  nb_chain : onchain s tip hs;
  nb_genesis : pindexGenesisBlock s = Some hashGenesis;
  nb_best : g_pindexBest s = Some best;
  nb_hash : hashBestChain s = best;
  nb_height : nBestHeight s = height_of (mapBlockIndex s) best;
  nb_trust : nBestChainTrust s = trust_of (mapBlockIndex s) best;
  nb_path : exists l, is_path (mapBlockIndex s) (Some best) (l ++ hs);
}.

Lemma node_ok_behind s tip hs : node_ok s tip hs -> node_behind s tip tip hs.
Proof. intros []. split; try done. exists []. by apply nk_chain0. Qed.

Lemma node_behind_ok s tip hs : node_behind s tip tip hs -> node_ok s tip hs.
Proof. intros []. by split. Qed.

Lemma set_best_behind s b new tip hs l : index_ok hashGenesis (mapBlockIndex s) -> files_ok s -> onchain s tip hs ->
  pindexGenesisBlock s = Some hashGenesis -> block_GetHash b = new -> is_path (mapBlockIndex s) (Some new) (l ++ hs) ->
  node_behind (set_best (block_GetHash b) new s) new tip hs.
Proof. intros Hm Hf Hon Hg <- Hp. split; try done; [by apply (on_chain_same _ _ _ s)|by exists l]. Qed.

Abbreviation setbest := (SetBestChain ext ReadTxFromDisk nCoinbaseMaturity nTotalBlocksEstimate hashGenesis TestNet rate_limited fStashed).

(** A successful run makes the new block the best one, with the database at
    it or, when a postponed block could not be connected, at one of its
    ancestors; a failure leaves the old chain. *)
Lemma SetBestChain_spec s b new tip hs hsn : node_ok s tip hs -> is_path (mapBlockIndex s) (Some new) hsn ->
  block_at ext s new = Some b -> pprev_of (mapBlockIndex s) new = Some (blk_hashPrevBlock b) -> NoDup (txs_of s hs) ->
  match setbest s b new with
  | (s', Ok _) => same_tree (mapBlockIndex s) (mapBlockIndex s') /\ block_files s' = block_files s /\
      exists l tip' hs', hsn = l ++ hs' /\ node_behind s' new tip' hs' /\
      (trust_of (mapBlockIndex s) (blk_hashPrevBlock b) <= trust_of (mapBlockIndex s) tip -> l = [] /\ tip' = new)
  | (s', Err _) => node_ok s' tip hs /\ database s' = database s /\ same_tree (mapBlockIndex s) (mapBlockIndex s') /\
      block_files s' = block_files s
  | _ => True
  end.
Proof.
  intros Hok Hnew Hb Hprev Hnd. unfold SetBestChain. pose proof (switch_chain_Ok s b new tip hs hsn Hok Hnew Hb Hprev Hnd) as H.
  destruct (switch_chain _ _ _ _ _ _ _ _ s b new) as [s1 [u|e| |]]; cbn [run]; try done.
  - destruct H as (Hf1 & l & hs' & tip' & -> & Ho & Hl). split_and!; [exact (fr_tree _ _ Hf1)|exact (fr_files _ _ Hf1)|].
    exists l, tip', hs'. eapply is_path_same in Hnew; [|exact (fr_tree _ _ Hf1)]. destruct Hok. split_and!; [done| |].
    + apply (set_best_behind _ _ _ _ _ l); [| |done| | |exact Hnew].
      * eapply index_ok_same; [exact (fr_tree _ _ Hf1)|done].
      * intros p b'. rewrite (fr_files _ _ Hf1). by apply nk_files0.
      * by rewrite (fr_genesis _ _ Hf1).
      * by apply block_at_file in Hb as (_ & -> & _).
    + intros Htr. destruct l as [|x l]; [|exfalso; assert (x :: l <> []) as Hne by done; specialize (Hl Hne); lia]. split; [done|].
      destruct Ho as [Hp' _ _ _ _]. inversion Hp'; subst; inversion Hnew; congruence.
  - destruct H as (Hf1 & Hdb & Ho). split_and!; [by eapply frame_ok|done|exact (fr_tree _ _ Hf1)|exact (fr_files _ _ Hf1)].
Qed.

(** ** AddToBlockIndex *)

Lemma is_path_insert m p hs h e : is_path m p hs -> h ∉ hs -> is_path (<[h := e]> m) p hs.
Proof.
  induction 1 as [|k ek hs Hk _ IH]; intros Hh; [constructor|]. apply not_elem_of_cons in Hh as [Hne Hh].
  econstructor; [by rewrite lookup_insert_ne|by apply IH].
Qed.

Lemma index_at_insert m h e k : k <> h -> index_at (<[h := e]> m) k = index_at m k.
Proof. intros Hk. unfold index_at. by rewrite lookup_insert_ne. Qed.

Lemma chain_elem s tip hs h : node_ok s tip hs -> mapBlockIndex s !! h = None -> h ∉ hs.
Proof.
  intros Hok Hh Hin. pose proof (path_heights (nk_index _ _ _ Hok) tip hs (oc_path _ _ _ _ _ _ (nk_chain _ _ _ Hok))) as Hall.
  rewrite Forall_forall in Hall. destruct (Hall h Hin) as [[e He] _]. congruence.
Qed.

Lemma read_index s s' k : index_at (mapBlockIndex s') k = index_at (mapBlockIndex s) k -> block_files s' = block_files s ->
  block_at ext s' k = block_at ext s k.
Proof. intros E Ef. unfold block_at, ReadFromDisk. by rewrite E, Ef. Qed.

Lemma add_entry_ok s b index tip hs : node_ok s tip hs -> mapBlockIndex s !! block_GetHash b = None ->
  is_Some (mapBlockIndex s !! blk_hashPrevBlock b) -> bi_hash index = block_GetHash b ->
  bi_nHeight index = height_of (mapBlockIndex s) (blk_hashPrevBlock b) + 1 ->
  node_ok (add_entry s b index) tip hs /\ (forall k, k ∈ hs -> block_at ext (add_entry s b index) k = block_at ext s k).
Proof.
  intros Hok Hnew Hprev Hhash Hheight. pose proof (chain_elem _ _ _ _ Hok Hnew) as Hni.
  assert (forall k, k ∈ hs -> index_at (mapBlockIndex (add_entry s b index)) k = index_at (mapBlockIndex s) k) as Hidx.
  { intros k Hk. apply index_at_insert. by intros ->. }
  assert (forall k, k ∈ hs -> block_at ext (add_entry s b index) k = block_at ext s k) as Hblk.
  { intros k Hk. apply read_index; [by apply Hidx|done]. }
  split; [|done]. destruct Hok as [Hm Hf [Hp Hl Hle Hbest Hd] Hg Hb Hh Hhe Htr].
  set (e := {| e_index := index; e_pprev := Some (blk_hashPrevBlock b); e_pnext := None |}).
  assert (mapBlockIndex (add_entry s b index) = <[block_GetHash b := e]> (mapBlockIndex s)) as Em.
  { cbn. by rewrite (bool_decide_eq_true_2 _ Hprev). }
  assert (database (add_entry s b index) = WriteBlockIndex (block_GetHash b) (disk_index e) (database s)) as Edb.
  { cbn. by rewrite (bool_decide_eq_true_2 _ Hprev). }
  assert (tip ∈ hs) as Htip by (inversion Hp; by left).
  split; rewrite ?Em; try done.
  - destruct Hm as [H1 H2 H3 H4]. destruct Hprev as [ep Hep]. assert (blk_hashPrevBlock b <> block_GetHash b) as Hne by congruence.
    unfold height_of, index_at in Hheight. rewrite Hep in Hheight. cbn in Hheight. specialize (H4 _ _ Hep) as H4p.
    split.
    + intros k ek [[<- <-]|[_ Hk]]%lookup_insert_Some; [done|by apply H1].
    + intros k ek [[<- <-]|[_ Hk]]%lookup_insert_Some; [done|by apply H2].
    + intros k ek p [[<- <-]|[Hkn Hk]]%lookup_insert_Some Hpk.
      * injection Hpk as <-. exists ep. split; [by rewrite lookup_insert_ne|done].
      * destruct (H3 _ _ _ Hk Hpk) as (eq & Heq & ?). exists eq. split; [|done]. rewrite lookup_insert_ne; [done|congruence].
    + intros k ek [[<- <-]|[_ Hk]]%lookup_insert_Some; [cbn; lia|by eapply H4].
  - split; rewrite ?Em, ?Edb; cbn [db_tx WriteBlockIndex db_hashBestChain].
    + by apply is_path_insert.
    + intros x n. unfold pnext_of. destruct (decide (x = block_GetHash b)) as [->|Hx].
      * rewrite lookup_insert_eq. split; [done|]. intros [_ Hc]%consecutive_elem. done.
      * rewrite lookup_insert_ne by done. apply Hl.
    + eapply ledger_ext; [intros k Hk; by rewrite Hidx| |exact Hle]. intros k b' Hk. by rewrite Hblk.
    + done.
    + apply disk_ok_new; [done|]. split_and!; try done. intros n [_ Hc]%consecutive_elem. done.
  - change (nBestHeight (add_entry s b index)) with (nBestHeight s). rewrite Hhe. unfold height_of. by rewrite index_at_insert by (by intros ->).
  - change (nBestChainTrust (add_entry s b index)) with (nBestChainTrust s). rewrite Htr. unfold trust_of. by rewrite index_at_insert by (by intros ->).
Qed.

(** No block in the index has more trust than the best one. *)
Definition heaviest (s : node) : Prop := forall h e, mapBlockIndex s !! h = Some e -> bi_nChainTrust (e_index e) <= nBestChainTrust s.

Lemma heaviest_at s h : heaviest s -> is_Some (mapBlockIndex s !! h) -> trust_of (mapBlockIndex s) h <= nBestChainTrust s.
Proof. intros H [e He]. unfold trust_of, index_at. rewrite He. by apply (H h). Qed.

Abbreviation add_index := (AddToBlockIndex ext ReadTxFromDisk nCoinbaseMaturity nTotalBlocksEstimate hashGenesis TestNet rate_limited fStashed).

(** What the index becomes: the same tree, or the tree with the block. *)
Definition grown (s : node) (b : CBlock) (s' : node) : Prop :=
  block_files s' = block_files s /\
  (same_tree (mapBlockIndex s) (mapBlockIndex s') \/
   exists index, mapBlockIndex s !! block_GetHash b = None /\ is_Some (mapBlockIndex s !! blk_hashPrevBlock b) /\
     same_tree (mapBlockIndex (add_entry s b index)) (mapBlockIndex s') /\ block_at ext s' (block_GetHash b) = Some b).

(** What [AddToBlockIndex] makes of a state: on success the new block is the
    best one when it is heavier, and the old one otherwise; on failure the old
    chain stays. *)
Lemma AddToBlockIndex_spec s b file pos hashProof tip hs : node_ok s tip hs ->
  is_Some (mapBlockIndex s !! blk_hashPrevBlock b) -> NoDup (txs_of s hs) ->
  read_file (block_files s) file pos = Some b ->
  (block_IsProofOfWork b = true -> CheckProofOfWork (Params ext) (GetPoWHash b) (blk_nBits b) = true) ->
  match add_index s b file pos hashProof with
  | (s', Ok _) => grown s b s' /\ exists best tip' hs', node_behind s' best tip' hs' /\ (best = tip \/ best = block_GetHash b) /\
      (heaviest s -> heaviest s' /\ tip' = best)
  | (s', Err _) => grown s b s' /\ node_ok s' tip hs /\ db_tx (database s') = db_tx (database s)
  | _ => True
  end.
Proof.
  intros Hok Hprev Hnd Hread Hpow. unfold AddToBlockIndex.
  assert (grown s b s) as Hsame by (split; [done|by left]).
  destruct (bool_decide _) eqn:Hdup; [done|]. apply bool_decide_eq_false in Hdup. apply eq_None_not_Some in Hdup.
  destruct (ComputeNextStakeModifier _ _) as [modifier|e| |]; cbn [run]; try done.
  set (index := new_index b file pos hashProof _ modifier). set (s1 := add_entry s b index).
  destruct (path_exists (nk_index _ _ _ Hok) _ Hprev) as (hp & Hpp & _). destruct (pprev_of_path _ _ Hpp) as (tlp & -> & _).
  pose proof (chain_of_path _ _ _ _ (nk_index _ _ _ Hok) Hpp) as Echain.
  destruct (add_entry_ok s b index tip hs Hok Hdup Hprev eq_refl) as [Hok1 Hblk].
  { unfold index, new_index. cbn. by rewrite Echain. }
  fold s1 in Hok1, Hblk.
  set (e1 := {| e_index := index; e_pprev := Some (blk_hashPrevBlock b); e_pnext := None |}).
  assert (mapBlockIndex s1 = <[block_GetHash b := e1]> (mapBlockIndex s)) as Em.
  { unfold s1. cbn. by rewrite (bool_decide_eq_true_2 _ Hprev). }
  assert (mapBlockIndex s1 !! block_GetHash b = Some e1) as He1 by (by rewrite Em, lookup_insert_eq).
  assert (index_at (mapBlockIndex s1) (block_GetHash b) = index) as Ei by (unfold index_at; by rewrite He1).
  assert (block_GetHash b <> blk_hashPrevBlock b) as Hne by (intros E; rewrite E in Hdup; rewrite Hdup in Hprev; by destruct Hprev).
  assert (block_at ext s1 (block_GetHash b) = Some b) as Hb.
  { apply block_at_Some. unfold ReadFromDisk. rewrite Ei. unfold index, new_index. cbn -[block_GetHash]. rewrite Hread.
    destruct (block_IsProofOfWork b) eqn:Epow; cbn -[block_GetHash]; [rewrite (Hpow eq_refl)|]; cbn -[block_GetHash]; by rewrite Z.eqb_refl. }
  assert (forall s', same_tree (mapBlockIndex s1) (mapBlockIndex s') -> block_files s' = block_files s -> grown s b s') as Hgrown.
  { intros s' Ht Hf. split; [done|]. right. exists index. split_and!; try done. by rewrite <-(block_at_same ext s1 s' _ Ht). }
  change (nBestChainTrust s1) with (nBestChainTrust s). destruct (Z.ltb_spec (nBestChainTrust s) (trust_of (mapBlockIndex s1) (block_GetHash b))) as [Hlt|Hge].
  - assert (is_path (mapBlockIndex s1) (Some (block_GetHash b)) (block_GetHash b :: blk_hashPrevBlock b :: tlp)) as Hpath.
    { rewrite Em in He1 |- *. econstructor; [exact He1|]. apply is_path_insert; [exact Hpp|]. intros Hin.
      pose proof (path_heights (nk_index _ _ _ Hok) _ _ Hpp) as Hall. rewrite Forall_forall in Hall.
      destruct (Hall _ Hin) as [[ee Hee] _]. congruence. }
    assert (pprev_of (mapBlockIndex s1) (block_GetHash b) = Some (blk_hashPrevBlock b)) as Hpr by (unfold pprev_of; by rewrite He1).
    pose proof (SetBestChain_spec s1 b (block_GetHash b) tip hs _ Hok1 Hpath Hb Hpr ltac:(by rewrite (chain_txs_ext _ _ _ _ Hblk))) as H.
    destruct (setbest s1 b (block_GetHash b)) as [s2 [u|e| |]]; cbn [run]; try done.
    + destruct H as (Ht & Hf2 & l & tip' & hs' & _ & Hok2 & Htip). split; [by apply Hgrown|].
      exists (block_GetHash b), tip', hs'. split_and!; [done|by right|]. intros Hheavy. split.
      2: { apply Htip. rewrite <-(nk_trust _ _ _ Hok1). change (nBestChainTrust s1) with (nBestChainTrust s). unfold trust_of.
           rewrite Em, index_at_insert by done. by apply heaviest_at. }
      intros k ek Hk. symmetry in Ht. destruct (same_tree_lookup _ _ _ _ Ht Hk) as (e0 & He0 & _ & Es).
      apply erase_supply_fields in Es as (_ & _ & _ & <- & _).
      rewrite (nb_trust _ _ _ _ Hok2), (trust_same _ _ _ Ht). rewrite Em in He0.
      apply lookup_insert_Some in He0 as [[<- <-]|[Hkn He0]].
      * unfold trust_of. rewrite Ei. done.
      * specialize (Hheavy _ _ He0). lia.
    + destruct H as (Hok2 & Hdb & Ht & Hf2). split; [by apply Hgrown|]. split; [done|]. by rewrite Hdb.
  - split; [by apply Hgrown|]. exists tip, tip, hs. split_and!; [by apply node_ok_behind|by left|]. intros Hheavy. split; [|done].
    intros k ek Hk. rewrite Em in Hk. change (nBestChainTrust s1) with (nBestChainTrust s).
    apply lookup_insert_Some in Hk as [[<- <-]|[Hkn Hk]]; [|by apply (Hheavy k)].
    unfold trust_of in Hge. rewrite Ei in Hge. done.
Qed.

(** ** AcceptBlock *)

Lemma write_block_ok s b file pos tip hs : node_ok s tip hs -> block_files s !! (file, pos) = None ->
  Forall (fun tx => Forall (fun i => 0 <= prevout_n (prevout i)) (vin tx)) (vtx b) ->
  node_ok (write_block (file, pos) b s) tip hs /\
  (forall k, k ∈ hs -> block_at ext (write_block (file, pos) b s) k = block_at ext s k).
Proof.
  intros [Hm Hf [Hp Hl Hle Hbest Hd] Hg Hb Hh Hhe Htr] Hnew Hins.
  assert (forall k, k ∈ hs -> block_at ext (write_block (file, pos) b s) k = block_at ext s k) as Hblk.
  { intros k Hk. destruct (ledger_blocks _ _ _ _ _ _ Hle k Hk) as [bk Hbk]. rewrite Hbk.
    destruct (block_at_file _ _ _ _ Hbk) as (_ & _ & Hfk). rewrite block_at_Some in Hbk |- *.
    unfold ReadFromDisk, read_file in *. cbn -[block_GetHash]. destruct (_ || _); [done|].
    rewrite lookup_insert_ne by congruence. exact Hbk. }
  split; [|done]. split; try done.
  - intros q bq Hq. cbn in Hq. apply lookup_insert_Some in Hq as [[<- <-]|[_ Hq]]; [done|by eapply Hf].
  - split; try done. apply (ledger_ext _ _ _ s); [done| |exact Hle]. intros k bk Hk. by rewrite Hblk.
Qed.

Lemma AcceptBlock_tests_prev env Read RBT find db height fc cps b hp :
  AcceptBlock_tests env Read RBT find db height fc cps b = Ok hp -> is_Some (find (blk_hashPrevBlock b)).
Proof.
  unfold AcceptBlock_tests. intros H. apply bind_Ok in H as (? & _ & H). apply bind_Ok in H as (? & _ & H).
  destruct (find _) as [c|]; [by eexists|done].
Qed.

(** The invariant with the chain it determines. *)
Definition node_inv (s : node) : Prop := exists tip, node_ok s tip (ancestors_of (mapBlockIndex s) (Some tip)).

Lemma node_ok_inv s tip hs : node_ok s tip hs -> node_inv s.
Proof.
  intros Hok. exists tip. rewrite (ancestors_of_path (nk_index _ _ _ Hok) _ hs); [done|apply Hok].
Qed.

Abbreviation best_chain := (fun s => ancestors_of (mapBlockIndex s) (g_pindexBest s)).

Lemma node_inv_ok s : node_inv s -> exists tip, g_pindexBest s = Some tip /\ node_ok s tip (best_chain s).
Proof. intros [tip Hok]. exists tip. cbn. by rewrite (nk_best _ _ _ Hok). Qed.

Lemma ancestors_path_of s p : node_inv s -> is_Some (mapBlockIndex s !! p) ->
  is_path (mapBlockIndex s) (Some p) (ancestors_of (mapBlockIndex s) (Some p)).
Proof.
  intros [tip Hok] Hp. destruct (path_exists (nk_index _ _ _ Hok) p Hp) as (hs & Hpath & _).
  by rewrite (ancestors_of_path (nk_index _ _ _ Hok) _ _ Hpath).
Qed.

(** Every block of the index can be read, and no transaction is twice on one
    branch. *)
Record blocks_sound (s : node) : Prop := {
  bo_read h : is_Some (mapBlockIndex s !! h) -> is_Some (block_at ext s h);
  bo_txs h : is_Some (mapBlockIndex s !! h) -> NoDup (txs_of s (ancestors_of (mapBlockIndex s) (Some h)));
}.

(** The transactions of a block are new on its branch. *)
Definition new_txs (s : node) (b : CBlock) : Prop :=
  NoDup (tx_hashes b ++ txs_of s (ancestors_of (mapBlockIndex s) (Some (blk_hashPrevBlock b)))).

Lemma same_tree_is_Some m m' h : same_tree m m' -> is_Some (m' !! h) -> is_Some (m !! h).
Proof. intros Ht [e He]. symmetry in Ht. destruct (same_tree_lookup _ _ _ _ Ht He) as (e0 & ? & _). by eexists. Qed.

Lemma path_in_index m p hs k : index_ok hashGenesis m -> is_path m (Some p) hs -> k ∈ hs -> is_Some (m !! k).
Proof. intros Hm Hp Hk. pose proof (path_heights Hm _ _ Hp) as Hall. rewrite Forall_forall in Hall. by apply Hall. Qed.

Lemma blocks_sound_same s s' : index_ok hashGenesis (mapBlockIndex s) -> same_tree (mapBlockIndex s) (mapBlockIndex s') ->
  block_files s' = block_files s -> blocks_sound s -> blocks_sound s'.
Proof.
  intros Hm Ht Hf [Hr Hx]. split; intros h Hh; pose proof (same_tree_is_Some _ _ _ Ht Hh) as Hh0.
  - rewrite <-(block_at_same ext s s' h Ht) by done. by apply Hr.
  - destruct (path_exists Hm h Hh0) as (hs & Hp & _). specialize (Hx h Hh0). rewrite (ancestors_of_path Hm _ _ Hp) in Hx.
    rewrite (ancestors_of_path (index_ok_same _ _ _ Ht Hm) _ hs) by (by eapply is_path_same).
    by rewrite <-(chain_txs_same ext s s' hs Ht).
Qed.

Lemma grown_blocks s b s' : index_ok hashGenesis (mapBlockIndex s) -> index_ok hashGenesis (mapBlockIndex s') -> blocks_sound s -> new_txs s b ->
  grown s b s' -> blocks_sound s'.
Proof.
  intros Hm Hm' Hok Hnew [Hf [Ht|(index & Hdup & Hprev & Ht & Hb)]]; [by apply (blocks_sound_same s)|]. destruct Hok as [Hr Hx].
  assert (forall h, is_Some (mapBlockIndex s !! h) -> block_at ext s' h = block_at ext s h) as Hold.
  { intros h Hh. transitivity (block_at ext (add_entry s b index) h); [symmetry; by apply block_at_same|]. apply read_index; [|done].
    apply index_at_insert. intros ->. rewrite Hdup in Hh. by destruct Hh. }
  assert (forall p hs, is_path (mapBlockIndex s) (Some p) hs -> is_path (mapBlockIndex s') (Some p) hs /\ txs_of s' hs = txs_of s hs) as Hpath.
  { intros p hs Hp. split.
    - eapply is_path_same; [exact Ht|]. apply is_path_insert; [done|]. intros Hin. pose proof (path_in_index _ _ _ _ Hm Hp Hin) as [? H]. congruence.
    - apply chain_txs_ext. intros k Hk. apply Hold. by eapply path_in_index. }
  assert (forall h, is_Some (mapBlockIndex s' !! h) -> h = block_GetHash b \/ is_Some (mapBlockIndex s !! h)) as Hcase.
  { intros h Hh. apply (same_tree_is_Some _ _ _ Ht) in Hh as [e He]. cbn in He.
    apply lookup_insert_Some in He as [[<- _]|[_ He]]; [by left|right; by eexists]. }
  destruct (path_exists Hm _ Hprev) as (hp & Hpp & _). destruct (Hpath _ _ Hpp) as [Hpp' Etx].
  split; intros h Hh; destruct (Hcase h Hh) as [->|Hh0].
  - by rewrite Hb.
  - rewrite Hold by done. by apply Hr.
  - assert (is_path (mapBlockIndex s') (Some (block_GetHash b)) (block_GetHash b :: hp)) as Hp.
    { eapply is_path_same; [exact Ht|]. cbn. rewrite (bool_decide_eq_true_2 _ Hprev). eapply path_block; [apply lookup_insert_eq|]. cbn.
      apply is_path_insert; [done|]. intros Hin. pose proof (path_in_index _ _ _ _ Hm Hpp Hin) as [? H]. congruence. }
    rewrite (ancestors_of_path Hm' _ _ Hp). unfold new_txs in Hnew. rewrite (ancestors_of_path Hm _ _ Hpp) in Hnew.
    change (NoDup (from_option tx_hashes [] (block_at ext s' (block_GetHash b)) ++ txs_of s' hp)). rewrite Hb, Etx. exact Hnew.
  - destruct (path_exists Hm h Hh0) as (hs & Hp & _). destruct (Hpath _ _ Hp) as [Hp' E].
    rewrite (ancestors_of_path Hm' _ _ Hp'), E, <-(ancestors_of_path Hm _ _ Hp). by apply Hx.
Qed.

(** Writing a block where there was none. *)
Lemma write_block_blocks s b file pos : index_ok hashGenesis (mapBlockIndex s) -> block_files s !! (file, pos) = None -> blocks_sound s ->
  blocks_sound (write_block (file, pos) b s) /\
  (forall hs p, is_path (mapBlockIndex s) (Some p) hs -> txs_of (write_block (file, pos) b s) hs = txs_of s hs).
Proof.
  intros Hm Hfree [Hr Hx].
  assert (forall h, is_Some (mapBlockIndex s !! h) -> block_at ext (write_block (file, pos) b s) h = block_at ext s h) as Hold.
  { intros h Hh. destruct (Hr h Hh) as [bk Hbk]. rewrite Hbk. destruct (block_at_file _ _ _ _ Hbk) as (_ & _ & Hfk).
    rewrite block_at_Some in Hbk |- *. unfold ReadFromDisk, read_file in *. cbn -[block_GetHash]. destruct (_ || _); [done|].
    rewrite lookup_insert_ne by congruence. exact Hbk. }
  assert (forall hs p, is_path (mapBlockIndex s) (Some p) hs -> txs_of (write_block (file, pos) b s) hs = txs_of s hs) as Htx.
  { intros hs p Hp. apply chain_txs_ext. intros k Hk. apply Hold. by eapply path_in_index. }
  split; [|exact Htx]. split; intros h Hh; cbn in Hh.
  - rewrite Hold by done. by apply Hr.
  - cbn [mapBlockIndex write_block]. destruct (path_exists Hm h Hh) as (hs & Hp & _). rewrite (ancestors_of_path Hm _ _ Hp), (Htx _ _ Hp).
    rewrite <-(ancestors_of_path Hm _ _ Hp). by apply Hx.
Qed.

(** The invariant: the node is consistent and so are the blocks it knows. *)
Definition node_sound (s : node) : Prop := node_inv s /\ blocks_sound s.

Lemma node_sound_txs s : node_sound s -> NoDup (txs_of s (best_chain s)).
Proof.
  intros [Hinv Hb]. destruct (node_inv_ok s Hinv) as (tip & Hbest & Hok). rewrite Hbest. apply Hb.
  destruct (nk_chain _ _ _ Hok) as [Hp _ _ _ _]. inversion Hp. by eexists.
Qed.

(** What a refusal keeps, and what a success does. *)
Definition refused (s s' : node) : Prop :=
  node_sound s' /\ g_pindexBest s' = g_pindexBest s /\ db_tx (database s') = db_tx (database s).
Definition accepted (s : node) (b : CBlock) (s' : node) : Prop :=
  blocks_sound s' /\ (g_pindexBest s' = g_pindexBest s \/ g_pindexBest s' = Some (block_GetHash b)) /\
  (db_hashBestChain (database s') = hashBestChain s' -> node_sound s') /\
  (exists best l hs, g_pindexBest s' = Some best /\ is_path (mapBlockIndex s') (Some best) (l ++ hs) /\
     onchain s' (db_hashBestChain (database s')) hs) /\
  (heaviest s -> node_sound s' /\ heaviest s').

Lemma AcceptBlock_spec RBT fc cps file pos s b : node_sound s -> new_txs s b ->
  block_files s !! (file, pos) = None -> 1 <= file < UINT_MAX ->
  Forall (fun tx => Forall (fun i => 0 <= prevout_n (prevout i)) (vin tx)) (vtx b) ->
  (block_IsProofOfWork b = true -> CheckProofOfWork (Params ext) (GetPoWHash b) (blk_nBits b) = true) ->
  match AcceptBlock ext ReadTxFromDisk nCoinbaseMaturity nTotalBlocksEstimate hashGenesis TestNet rate_limited fStashed
          RBT fc cps (Some (file, pos)) s b with
  | (s', Ok _) => accepted s b s'
  | (s', Err _) => refused s s'
  | _ => True
  end.
Proof.
  intros Hsound Htxs Hpos Hfile Hins Hpow. pose proof Hsound as [Hinv Hblocks]. unfold AcceptBlock.
  destruct (AcceptBlock_tests _ _ _ _ _ _ _ _ b) as [hashProof|e| |] eqn:Ht; cbn [run]; try done.
  apply AcceptBlock_tests_prev in Ht.
  assert (is_Some (mapBlockIndex s !! blk_hashPrevBlock b)) as Hprev.
  { destruct Ht as [c Hc]. by case_bool_decide. }
  destruct (node_inv_ok s Hinv) as (tip & Hbest & Hok). pose proof (nk_index _ _ _ Hok) as Hm.
  destruct (write_block_ok s b file pos tip _ Hok Hpos Hins) as [Hok1 Hblk].
  destruct (write_block_blocks s b file pos Hm Hpos Hblocks) as [Hblocks1 Etx].
  assert (new_txs (write_block (file, pos) b s) b) as Htxs1.
  { unfold new_txs in *. destruct (path_exists Hm _ Hprev) as (hs & Hp & _). cbn [mapBlockIndex write_block].
    rewrite (ancestors_of_path Hm _ _ Hp) in *. by rewrite (Etx _ _ Hp). }
  pose proof (AddToBlockIndex_spec (write_block (file, pos) b s) b file pos hashProof tip _ Hok1 Hprev) as H.
  cbn [fst snd]. destruct (add_index (write_block (file, pos) b s) b file pos hashProof) as [s' [u|e| |]]; cbn [run no_score]; try done.
  all: specialize (H ltac:(by rewrite (chain_txs_ext _ _ _ _ Hblk); apply node_sound_txs)).
  all: specialize (H ltac:(unfold read_file; destruct (Z.ltb_spec file 1); [lia|]; destruct (Z.eqb_spec file UINT_MAX); [lia|]; cbn; by rewrite lookup_insert_eq)).
  all: specialize (H Hpow).
  - destruct H as (Hg & best & tip' & hs' & Hok' & Htip & Hheavy).
    assert (blocks_sound s') as Hb' by (apply (grown_blocks (write_block (file, pos) b s) b s' Hm); [apply Hok'|done..]).
    assert (tip' = best -> node_sound s') as Hsync by (intros ->; split; [eapply node_ok_inv, node_behind_ok, Hok'|done]).
    pose proof (oc_best _ _ _ _ _ _ (nb_chain _ _ _ _ Hok')) as Hdb. split_and!; [done| | | |].
    + rewrite (nb_best _ _ _ _ Hok'), Hbest. destruct Htip as [->| ->]; auto.
    + rewrite Hdb, (nb_hash _ _ _ _ Hok'). exact Hsync.
    + destruct (nb_path _ _ _ _ Hok') as [l Hl]. exists best, l, hs'. rewrite Hdb. split_and!; [apply Hok'|done|apply Hok'].
    + intros Hh. destruct (Hheavy Hh) as [? E]. by split; [apply Hsync|].
  - destruct H as (Hg & Hok' & Hdb). split_and!; [| |done].
    + split; [by eapply node_ok_inv|]. apply (grown_blocks (write_block (file, pos) b s) b s' Hm); [apply Hok'|done..].
    + by rewrite (nk_best _ _ _ Hok').
Qed.

(** ** Progress *)

Lemma pool_remove_total s tx : exists pool, pool_remove s tx = (set_mempool pool s, Ok tt).
Proof. unfold pool_remove, on_pool, pool_fuel. cbn [remove]. destruct (mapTx (g_mempool s) !! _); cbn; [by eexists|]. exists (g_mempool s). by destruct s. Qed.

Lemma pool_removes_total l s : exists s', for_each pool_remove s l = (s', Ok tt).
Proof.
  revert s. induction l as [|tx l IH]; intros s; cbn; [by eexists|].
  destruct (pool_remove_total s tx) as [pool ->]. cbn. apply IH.
Qed.

Lemma SetBestChain_extends_Ok s b new tip hs r : node_ok s tip hs -> is_Some (mapBlockIndex s !! new) ->
  block_at ext s new = Some b -> pprev_of (mapBlockIndex s) new = Some (blk_hashPrevBlock b) -> blk_hashPrevBlock b = tip ->
  NoDup (txs_of s hs) -> connect_block ext ReadTxFromDisk nCoinbaseMaturity s (database s) b new = Ok r ->
  exists s', setbest s b new = (s', Ok tt) /\ node_ok s' new (new :: hs).
Proof.
  intros Hok [e He] Hb Hprev Etip Hnd Hc.
  assert (is_path (mapBlockIndex s) (Some new) (new :: hs)) as Hpath.
  { econstructor; [exact He|]. unfold pprev_of in Hprev. rewrite He in Hprev. cbn in Hprev. rewrite Hprev, Etip. apply Hok. }
  assert (exists s', setbest s b new = (s', Ok tt)) as [s' Hs'].
  { unfold SetBestChain, switch_chain. rewrite (nk_genesis _ _ _ Hok), (nk_hash _ _ _ Hok), Etip, Z.eqb_refl. cbn [andb bool_decide decide_rel].
    unfold SetBestChainInner. rewrite Hc. destruct r as [m1 db1].
    assert (same_tree (mapBlockIndex s) m1) as Et.
    { pose proof (nk_chain _ _ _ Hok) as [Hp Hl Hle _ Hd]. destruct (pprev_of_path _ _ Hp) as (tl & -> & _).
      pose proof (path_NoDup (nk_index _ _ _ Hok) _ _ Hpath) as [Hni _]%NoDup_cons.
      assert (pnext_of (mapBlockIndex s) new = None) as Hn by (apply eq_None_not_Some; intros [n [_ Hx]%Hl%consecutive_elem]; done).
      by destruct (connect_block_Ok _ _ _ _ _ _ _ _ _ _ _ _ (nk_index _ _ _ Hok) Hpath Hb Hn Hle Hd Hc) as (Et & _). }
    rewrite <-(same_tree_pprev _ _ _ Et), Hprev. cbn [mapBlockIndex set_index set_database].
    match goal with |- context[for_each pool_remove ?s2 _] => destruct (pool_removes_total (vtx b) s2) as [s3 ->] end. by eexists. }
  exists s'. split; [done|].
  pose proof (SetBestChain_spec s b new tip hs (new :: hs) Hok Hpath Hb Hprev Hnd) as H. rewrite Hs' in H.
  destruct H as (_ & _ & l & tip' & hs' & E & Hok' & Htip). destruct Htip as [-> ->]; [by rewrite Etip|]. cbn in E. subst hs'.
  by apply node_behind_ok.
Qed.

(** ** Locators *)

Lemma locator_loop_elem fuel nStep n c : forall h, h ∈ locator_loop fuel nStep n c -> h ∈ c.
Proof.
  revert nStep n c. induction fuel as [|fuel IH]; intros nStep n c h Hh; [by apply elem_of_nil in Hh|].
  destruct c as [|k c]; [by apply elem_of_nil in Hh|]. cbn [locator_loop] in Hh.
  apply elem_of_cons in Hh as [->|Hh]; [by left|]. apply IH in Hh. eapply subseteq_drop. exact Hh.
Qed.

Lemma find_in_list {A} (f : A -> bool) l x : x ∈ l -> f x = true -> exists y, List.find f l = Some y /\ y ∈ l /\ f y = true.
Proof.
  intros Hx Hf. destruct (List.find f l) as [y|] eqn:E.
  - apply find_some in E as [Hy Hfy]. exists y. split_and!; [done|by apply list_elem_of_In|done].
  - by rewrite (find_none _ _ E x) in Hf by by apply list_elem_of_In.
Qed.

Lemma in_main_chain_iff s h : node_inv s -> in_main_chain_index s h = true <-> h ∈ best_chain s.
Proof.
  intros Hinv. destruct (node_inv_ok s Hinv) as (tip & Hbest & Hok). unfold in_main_chain_index.
  pose proof (nk_chain _ _ _ Hok) as [Hp Hl _ _ _]. destruct (decide (is_Some (mapBlockIndex s !! h))) as [Hs|Hs].
  - rewrite bool_decide_eq_true_2 by done. cbn [andb]. by apply (IsInMainChain_path _ _ _ Hp Hl Hbest).
  - rewrite bool_decide_eq_false_2 by done. split; [done|]. intros Hin.
    pose proof (path_heights (nk_index _ _ _ Hok) _ _ Hp) as Hall. rewrite Forall_forall in Hall. by destruct (Hall h Hin).
Qed.

Lemma root_elem m p hs : index_ok hashGenesis m -> is_path m (Some p) hs -> hashGenesis ∈ hs.
Proof.
  intros Hm H. remember (Some p) as q eqn:E. revert p E. induction H as [|h e hs He Hp IH]; intros p E; [done|].
  destruct (e_pprev e) as [k|] eqn:Ek; [right; by eapply IH|]. destruct (io_root _ _ Hm _ _ He Ek) as [-> _]. by left.
Qed.
End chain_state.
