(* ===== verification/NodeProps.v ===== *)
(** * What holds of the node as blocks arrive

    The properties of the chain state: the invariant under [AcceptBlock], the
    refinement of the ledger by [Reorganize], progress, the main chain, and the
    defect of the postponed blocks. *)

From S2P Require Import Prelude Opcode ScriptNum Script SigEncoding Interp LegacyInterp Serialize Transaction TransactionProps SigHash Bignum Chain TxConnect TxConnectProps Merkle Proofs Stake Standard Policy Mempool Block BlockProps ChainState ChainTree ChainLinks Reorg ChainStateProps.

Local Open Scope Z_scope.

(** ** A node with three blocks

    The hash is a polynomial one, which tells the headers apart. *)

Definition poly_hash (l : list Z) : list Z := le_encode 8 (foldl (fun a x => (a * 31 + x + 1) mod (2 ^ 61 - 1)) 7 l).
#[local] Instance poly_hashes : ScriptHashes := {
  h_ripemd160 := firstn 20; h_sha1 := firstn 20; h_sha256 := firstn 32; h_hash160 := firstn 20; h_hash256 := poly_hash
}.
#[local] Instance no_ecdsa : ECDSA := { pubkey_Verify _ _ _ := false; pubkey_CheckLowS _ := false }.

Definition node_coinbase (nHeight tag value : Z) : CTransaction := {|
  nVersion := 1; nTime := 1000 + tag;
  vin := [{| prevout := null_outpoint; scriptSig := push_int64 nHeight ++ [1; tag]; nSequence := UINT_MAX |}];
  vout := [sample_out value]; nLockTime := 0
|}.
Definition node_block (hashPrev nHeight tag t nBits value : Z) : CBlock :=
  let txs := [node_coinbase nHeight tag value] in {|
  blk_nVersion := 7; blk_hashPrevBlock := hashPrev; blk_hashMerkleRoot := BuildMerkleTree (map tx_GetHash txs);
  blk_nTime := t; blk_nBits := nBits; blk_nNonce := 0; vtx := txs; vchBlockSig := []
|}.

Definition limit_bits : Z := GetCompact (ProofOfWorkLimit MainParams).
Definition genesis_block : CBlock := node_block 0 0 0 100000 limit_bits 0.
Definition genesis_hash : Z := Eval vm_compute in block_GetHash genesis_block.
(** One branch with one block, another with two valid blocks and a third that
    pays too much. *)
Definition block_a1 : CBlock := node_block genesis_hash 1 1 100100 limit_bits COIN.
Definition block_b1 : CBlock := node_block genesis_hash 1 2 100200 limit_bits COIN.
Definition block_b2 : CBlock := node_block (block_GetHash block_b1) 2 3 100300 limit_bits COIN.

Definition node_ext (now : Z) : check_env := {|
  Params := MainParams; adjusted_time := now; spork_block_filtering := true; mapLockedInputs := ∅;
  fInitialDownload := true; pindexBest := []; vWinning := []
|}.

Definition genesis_index : CBlockIndex := Eval vm_compute in new_index genesis_block 1 8 0 [] (0, true).
Definition genesis_entry : entry :=
  {| e_index := genesis_index; e_pprev := None; e_pnext := None |}.

Definition genesis_node : node := {|
  mapBlockIndex := {[ genesis_hash := genesis_entry ]}; setStakeSeen := ∅; pindexGenesisBlock := Some genesis_hash;
  g_pindexBest := Some genesis_hash; hashBestChain := genesis_hash; nBestHeight := 0;
  nBestChainTrust := bi_nChainTrust (e_index genesis_entry); nBestInvalidTrust := 0;
  database := {| db_tx := ∅; db_hashBestChain := genesis_hash;
                 db_blockindex := {[ genesis_hash := disk_index genesis_entry ]} |};
  block_files := {[ (1, 8) := genesis_block ]}; g_mempool := empty_pool 0
|}.

(** [AcceptBlock] at a time of the clock. *)
Definition accept (now : Z) (pos : Z) (s : node) (b : CBlock) : node * outcome Z unit :=
  AcceptBlock (node_ext now) (fun _ => None) 10 0 genesis_hash false (fun _ => false) (fun _ => false)
    (fun _ _ => None) false ∅ (Some (1, pos)) s b.

Definition node_a1 : node := fst (accept 100500 500 genesis_node block_a1).
Definition node_b1 : node := fst (accept 100500 900 node_a1 block_b1).
Definition node_b2 : node := fst (accept 100500 1300 node_b1 block_b2).
(** The second block of the longer branch, while the clock is a day behind. *)
Definition node_b2_refused : node := fst (accept (100300 - 86400) 1300 node_b1 block_b2).
Definition block_b3 : CBlock :=
  node_block (block_GetHash block_b2) 3 4 100400
    (GetNextTargetRequired MainParams (chain_of (mapBlockIndex node_b2) (Some (block_GetHash block_b2))) false) (1000000 * COIN).
Definition node_b3 : node := fst (accept 100500 1700 node_b2_refused block_b3).

Abbreviation toy_inv := (node_inv (node_ext 100500) (fun _ => None) 10 genesis_hash).

Lemma genesis_lookup h e : mapBlockIndex genesis_node !! h = Some e -> h = genesis_hash /\ e = genesis_entry.
Proof. cbn [mapBlockIndex genesis_node]. intros [<- <-]%lookup_singleton_Some. done. Qed.

Lemma genesis_ok : node_ok (node_ext 100500) (fun _ => None) 10 genesis_hash genesis_node genesis_hash [genesis_hash].
Proof.
  assert (mapBlockIndex genesis_node !! genesis_hash = Some genesis_entry) as Hg by apply lookup_singleton_eq.
  assert (forall n x, ~ consecutive n x [genesis_hash]) as Hc.
  { intros n x ([|y l1] & l2 & E); [done|]. by destruct l1. }
  split; try done.
  - split.
    + intros h e [-> ->]%genesis_lookup. done.
    + intros h e [-> ->]%genesis_lookup. done.
    + intros h e p [-> ->]%genesis_lookup. done.
    + intros h e [-> ->]%genesis_lookup. done.
  - intros p b Hp. cbn [block_files genesis_node] in Hp. apply lookup_singleton_Some in Hp as [_ <-]. decide_now.
  - split.
    + econstructor; [exact Hg|]. constructor.
    + intros x n. split; [|by intros ?%Hc]. unfold pnext_of.
      destruct (mapBlockIndex genesis_node !! x) as [e|] eqn:E; [|done]. apply genesis_lookup in E as [_ ->]. done.
    + apply (ledger_genesis _ _ _ _ _ genesis_block). by vm_compute.
    + done.
    + intros x e [-> ->]%genesis_lookup. exists (disk_index genesis_entry). split; [apply lookup_singleton_eq|].
      split_and!; try done. by intros n ?%Hc.
Qed.

Lemma genesis_inv : toy_inv genesis_node.
Proof. eapply node_ok_inv. apply genesis_ok. Qed.

Abbreviation toy_sound := (node_sound (node_ext 100500) (fun _ => None) 10 genesis_hash).

Lemma genesis_sound : toy_sound genesis_node.
Proof.
  split; [apply genesis_inv|]. split; intros h [e [-> ->]%genesis_lookup]; decide_now.
Qed.

Lemma genesis_heaviest : heaviest genesis_node.
Proof. intros h e [-> ->]%genesis_lookup. done. Qed.

(** What the theorem asks of a block, by evaluation. *)
Definition acceptable (pos : Z) (s : node) (b : CBlock) : bool :=
  bool_decide (new_txs (node_ext 100500) s b) && bool_decide (block_files s !! (1, pos) = None) &&
  bool_decide (Forall (fun tx => Forall (fun i => 0 <= prevout_n (prevout i)) (vin tx)) (vtx b)) &&
  CheckProofOfWork MainParams (GetPoWHash b) (blk_nBits b).

Lemma acceptable_ok pos s b : acceptable pos s b = true ->
  new_txs (node_ext 100500) s b /\ block_files s !! (1, pos) = None /\
  Forall (fun tx => Forall (fun i => 0 <= prevout_n (prevout i)) (vin tx)) (vtx b) /\
  CheckProofOfWork MainParams (GetPoWHash b) (blk_nBits b) = true.
Proof.
  unfold acceptable. intros [[[H1 H2]%andb_true_iff H3]%andb_true_iff H4]%andb_true_iff.
  apply bool_decide_eq_true in H1, H2, H3. done.
Qed.

Lemma accept_sound pos s b : toy_sound s -> heaviest s -> snd (accept 100500 pos s b) = Ok tt -> acceptable pos s b = true ->
  toy_sound (fst (accept 100500 pos s b)) /\ heaviest (fst (accept 100500 pos s b)).
Proof.
  intros Hs Hh Hr (Htx & Hf & Hi & Hpow)%acceptable_ok.
  assert (1 <= 1 < UINT_MAX) as H1 by done.
  pose proof (AcceptBlock_spec (node_ext 100500) (fun _ => None) 10 0 genesis_hash false (fun _ => false) (fun _ => false)
    (fun _ _ => None) false ∅ 1 pos s b Hs Htx Hf H1 Hi (fun _ => Hpow)) as H.
  unfold accept in Hr |- *. destruct (AcceptBlock _ _ _ _ _ _ _ _ _ _ _ _ s b) as [s' r]. cbn [snd] in Hr. subst r.
  by apply H.
Qed.

Lemma node_a1_ok : toy_sound node_a1 /\ heaviest node_a1.
Proof. unfold node_a1. apply accept_sound; [apply genesis_sound|apply genesis_heaviest|by vm_compute..]. Qed.

Lemma node_b1_ok : toy_sound node_b1 /\ heaviest node_b1.
Proof. unfold node_b1. apply accept_sound; [apply node_a1_ok|apply node_a1_ok|by vm_compute..]. Qed.

Lemma node_b2_ok : toy_sound node_b2 /\ heaviest node_b2.
Proof. unfold node_b2. apply accept_sound; [apply node_b1_ok|apply node_b1_ok|by vm_compute..]. Qed.

(** ** Properties *)

Section properties.
Context {SH : ScriptHashes} {EC : ECDSA}.
Variable ext : check_env.
Variable ReadTxFromDisk : CDiskTxPos -> option CTransaction.
Variables (nCoinbaseMaturity nTotalBlocksEstimate hashGenesis : Z).
Variables (TestNet : bool) (rate_limited fStashed : CTransaction -> bool).

Abbreviation inv := (node_inv ext ReadTxFromDisk nCoinbaseMaturity hashGenesis).
Abbreviation chain_at := (fun s p => ancestors_of (mapBlockIndex s) p).

(** C1: the invariant of the node under [AcceptBlock].  A node is sound when the
    block index is a tree over the genesis block, best hash, height and trust
    are those of the best block, exactly the blocks of its chain but the best
    have a [pnext], the block index records of the database agree with memory,
    the transaction index is the ledger of the chain the database names, all
    blocks known can be read and no transaction is twice on a branch.  Given a
    block whose transactions are new on its branch, a refusal leaves a sound
    node with the same best block and transaction index.  After a success the
    best block is the old one or the new one, and the database is the ledger of
    a block on its chain; the node is sound whenever that block is the best
    one, as it is when no block was heavier than the best before, and then none
    is after.  The exception, which needs a heavier block left behind by a
    refusal, is a postponed block that cannot be connected. *)
Theorem AcceptBlock_invariant ReadBlockTime fCheckpoints checkpoints file pos s b s' r
    (Hsound : node_sound ext ReadTxFromDisk nCoinbaseMaturity hashGenesis s) (Htxs : new_txs ext s b)
    (Hfresh : block_files s !! (file, pos) = None) (Hfile : 1 <= file < UINT_MAX)
    (Hins : Forall (fun tx => Forall (fun i => 0 <= prevout_n (prevout i)) (vin tx)) (vtx b))
    (Hpow : block_IsProofOfWork b = true -> CheckProofOfWork (Params ext) (GetPoWHash b) (blk_nBits b) = true)
    (Hrun : AcceptBlock ext ReadTxFromDisk nCoinbaseMaturity nTotalBlocksEstimate hashGenesis TestNet rate_limited fStashed
              ReadBlockTime fCheckpoints checkpoints (Some (file, pos)) s b = (s', r)) :
  match r with
  | Err _ =>
    node_sound ext ReadTxFromDisk nCoinbaseMaturity hashGenesis s' /\
    g_pindexBest s' = g_pindexBest s /\ db_tx (database s') = db_tx (database s)
  | Ok _ =>
    blocks_sound ext s' /\ (g_pindexBest s' = g_pindexBest s \/ g_pindexBest s' = Some (block_GetHash b)) /\
    (db_hashBestChain (database s') = hashBestChain s' -> node_sound ext ReadTxFromDisk nCoinbaseMaturity hashGenesis s') /\
    (exists best l hs, g_pindexBest s' = Some best /\ is_path (mapBlockIndex s') (Some best) (l ++ hs) /\
       on_chain ext ReadTxFromDisk nCoinbaseMaturity s' (db_hashBestChain (database s')) hs) /\
    (heaviest s -> node_sound ext ReadTxFromDisk nCoinbaseMaturity hashGenesis s' /\ heaviest s')
  | Throw | Crash => True
  end.
Proof.
  pose proof (AcceptBlock_spec ext ReadTxFromDisk nCoinbaseMaturity nTotalBlocksEstimate hashGenesis TestNet rate_limited fStashed
    ReadBlockTime fCheckpoints checkpoints file pos s b Hsound Htxs Hfresh Hfile Hins Hpow) as H.
  rewrite Hrun in H. by destruct r.
Qed.

(** C2: [Reorganize] goes from the ledger of one chain to that of another.  It
    finds the block where the chains part and disconnects the old branch, which
    leaves the ledger of that block: neither can fail.  When the blocks of the
    new branch connect, the transaction index becomes the ledger of the new
    chain, with its links and records, and the database names its tip; only the
    loops over the memory pool are left, which touch nothing else and end in an
    exception at worst.  Otherwise the run ends the way connecting ended, the
    database is untouched and everything is still about the old chain. *)
Theorem Reorganize_refines s best new (Hinv : inv s) (Hbest : g_pindexBest s = Some best)
    (Hnew : is_Some (mapBlockIndex s !! new)) (Hunique : NoDup (chain_txs ext s (chain_at s (Some best)))) :
  exists d c f tl db vResurrect,
    chain_at s (Some best) = d ++ f :: tl /\ chain_at s (Some new) = c ++ f :: tl /\ d ## c /\
    fork_of s best new = Ok (d, rev c) /\
    disconnect_branch ext nTotalBlocksEstimate s (database s) d [] = Ok (db, vResurrect) /\
    ledger ext ReadTxFromDisk nCoinbaseMaturity s (f :: tl) (db_tx db) /\
    let '(s', r) := Reorganize ext ReadTxFromDisk nCoinbaseMaturity nTotalBlocksEstimate TestNet rate_limited fStashed s new in
    let old := database s' = database s /\ on_chain ext ReadTxFromDisk nCoinbaseMaturity s' best (chain_at s (Some best)) in
    match (connect_branch ext ReadTxFromDisk nCoinbaseMaturity s db (rev c) []).2 with
    | Ok _ => (r = Ok tt \/ r = Throw \/ r = Crash) /\ on_chain ext ReadTxFromDisk nCoinbaseMaturity s' new (chain_at s (Some new))
    | Err e => r = Err e /\ old
    | Throw => r = Throw /\ old
    | Crash => r = Crash /\ old
    end.
Proof.
  destruct (node_inv_ok _ _ _ _ s Hinv) as (tip & Htip & Hok). rewrite Hbest in Htip. injection Htip as <-. rewrite Hbest in Hok.
  destruct (Reorganize_steps ext ReadTxFromDisk nCoinbaseMaturity nTotalBlocksEstimate hashGenesis TestNet rate_limited fStashed
    s best new _ _ (nk_index _ _ _ _ _ _ _ Hok) (nk_files _ _ _ _ _ _ _ Hok) (nk_chain _ _ _ _ _ _ _ Hok) Hbest
    (ancestors_path_of _ _ _ _ _ _ Hinv Hnew) Hunique) as (d & c & f & tl & db & vres & E1 & E2 & Hdc & Hfork & Hdis & Hl & H).
  exists d, c, f, tl, db, vres. split_and!; try done.
  destruct (Reorganize _ _ _ _ _ _ _ s new) as [s' r]. destruct (connect_branch _ _ _ s db (rev c) []).2.
  - destruct H as (Hr & _ & Ho). split; [|done]. destruct r as [[]| | |]; [by left|done|by right; left|by right; right].
  - by destruct H as (-> & _ & ? & ?).
  - by destruct H as (-> & _ & ? & ?).
  - by destruct H as (-> & _ & ? & ?).
Qed.

(** C29: a block on top of the best block whose transactions connect becomes the
    best block: once they are connected nothing can stop it, and its chain is
    the old one with the block on top. *)
Theorem SetBestChain_extends s b new tip r (Hinv : inv s) (Htip : g_pindexBest s = Some tip)
    (Hnew : is_Some (mapBlockIndex s !! new)) (Hblock : block_at ext s new = Some b)
    (Hprev : pprev_of (mapBlockIndex s) new = Some tip) (Hhash : blk_hashPrevBlock b = tip)
    (Hunique : NoDup (chain_txs ext s (chain_at s (Some tip))))
    (Hconnect : connect_block ext ReadTxFromDisk nCoinbaseMaturity s (database s) b new = Ok r) :
  exists s', SetBestChain ext ReadTxFromDisk nCoinbaseMaturity nTotalBlocksEstimate hashGenesis TestNet rate_limited fStashed s b new
      = (s', Ok tt) /\ inv s' /\ g_pindexBest s' = Some new /\ chain_at s' (Some new) = new :: chain_at s (Some tip).
Proof.
  destruct (node_inv_ok _ _ _ _ s Hinv) as (tip' & Htip' & Hok). rewrite Htip in Htip'. injection Htip' as <-. rewrite Htip in Hok.
  destruct (SetBestChain_extends_Ok ext ReadTxFromDisk nCoinbaseMaturity nTotalBlocksEstimate hashGenesis TestNet rate_limited fStashed
    s b new tip _ r Hok Hnew Hblock) as (s' & Hs' & Hok'); [by rewrite Hprev, Hhash|done..|].
  exists s'. split_and!; [done|by eapply node_ok_inv|apply Hok'|].
  apply (ancestors_of_path (nk_index _ _ _ _ _ _ _ Hok')), Hok'.
Qed.

(** [IsInMainChain] tells exactly the blocks of the chain of the best block. *)
Theorem IsInMainChain_spec s h (Hinv : inv s) (Hh : is_Some (mapBlockIndex s !! h)) :
  IsInMainChain s h = true <-> h ∈ chain_at s (g_pindexBest s).
Proof.
  destruct (node_inv_ok _ _ _ _ s Hinv) as (tip & Hbest & Hok). pose proof (nk_chain _ _ _ _ _ _ _ Hok) as [Hp Hl _ _ _].
  by apply (IsInMainChain_path _ _ _ Hp Hl Hbest).
Qed.

(** A locator made from any block of the index leads back to a block that
    this block and the best block have in common, and to the block itself when
    it is in the main chain. *)
Theorem locator_common s p (Hinv : inv s) (Hp : is_Some (mapBlockIndex s !! p)) :
  let vHave := locator_Set hashGenesis (mapBlockIndex s) (Some p) in
  exists h, locator_GetBlockIndex s vHave = Some h /\ locator_GetBlockHash hashGenesis s vHave = h /\
    h ∈ chain_at s (g_pindexBest s) /\ h ∈ chain_at s (Some p) /\ (p ∈ chain_at s (g_pindexBest s) -> h = p).
Proof.
  intros vHave. destruct (node_inv_ok _ _ _ _ s Hinv) as (tip & Hbest & Hok).
  pose proof (ancestors_path_of _ _ _ _ _ _ Hinv Hp) as Hpath. pose proof (nk_index _ _ _ _ _ _ _ Hok) as Hm.
  pose proof (oc_path _ _ _ _ _ _ (nk_chain _ _ _ _ _ _ _ Hok)) as Hmain.
  assert (in_main_chain_index s hashGenesis = true) as Hg.
  { rewrite (in_main_chain_iff _ _ _ _ _ _ Hinv). rewrite Hbest in Hmain |- *. by apply (root_elem _ _ _ _ Hm Hmain). }
  destruct (find_in_list (in_main_chain_index s) vHave hashGenesis) as (h & Hf & Hin & Hmc); [unfold vHave, locator_Set; set_solver|done|].
  exists h. unfold locator_GetBlockIndex, locator_GetBlockHash. rewrite Hf. split_and!; try done.
  - by apply (in_main_chain_iff _ _ _ _ _ _ Hinv).
  - unfold vHave, locator_Set in Hin. apply elem_of_app in Hin as [Hin|Hin].
    + by apply locator_loop_elem in Hin.
    + apply list_elem_of_singleton in Hin as ->. by apply (root_elem _ _ _ _ Hm Hpath).
  - intros Hpm. destruct (pprev_of_path _ _ Hpath) as (tl & Etl & _). unfold vHave, locator_Set in Hf. rewrite Etl in Hf.
    cbn [length locator_loop app find] in Hf. rewrite (proj2 (in_main_chain_iff _ _ _ _ _ _ Hinv) Hpm) in Hf. congruence.
Qed.
End properties.

(** ** Instances *)

(** A second block of the longer branch that creates a million coins: refused,
    and left in the index, heavier than the best block. *)
Definition block_b2_dear : CBlock := node_block (block_GetHash block_b1) 2 5 100300 limit_bits (1000000 * COIN).
Definition node_b2_dear : node := fst (accept 100500 1300 node_b1 block_b2_dear).

Lemma AcceptBlock_invariant_witness :
  (hashBestChain node_b1 = block_GetHash block_a1 /\ hashBestChain node_b2 = block_GetHash block_b2 /\ toy_sound node_b2) /\
  (is_Some (mapBlockIndex node_b2_dear !! block_GetHash block_b2_dear) /\
   nBestChainTrust node_b2_dear < trust_of (mapBlockIndex node_b2_dear) (block_GetHash block_b2_dear) /\ toy_sound node_b2_dear).
Proof.
  assert (1 <= 1 < UINT_MAX) as Hfile by done.
  split; (split; [decide_now|split; [decide_now|]]).
  - unfold node_b2. assert (snd (accept 100500 1300 node_b1 block_b2) = Ok tt) as E by (by vm_compute).
    assert (db_hashBestChain (database (fst (accept 100500 1300 node_b1 block_b2))) =
      hashBestChain (fst (accept 100500 1300 node_b1 block_b2))) as Hsync by (by vm_compute).
    destruct (acceptable_ok 1300 node_b1 block_b2 ltac:(by vm_compute)) as (H1 & H2 & H3 & H4).
    pose proof (AcceptBlock_invariant (node_ext 100500) (fun _ => None) 10 0 genesis_hash false (fun _ => false) (fun _ => false)
      (fun _ _ => None) false ∅ 1 1300 node_b1 block_b2 _ _ (proj1 node_b1_ok) H1 H2 Hfile H3 (fun _ => H4)
      (surjective_pairing _)) as H.
    unfold accept in *. rewrite E in H. exact (proj1 (proj2 (proj2 H)) Hsync).
  - unfold node_b2_dear. assert (snd (accept 100500 1300 node_b1 block_b2_dear) = Err 0) as E by (by vm_compute).
    destruct (acceptable_ok 1300 node_b1 block_b2_dear ltac:(by vm_compute)) as (H1 & H2 & H3 & H4).
    pose proof (AcceptBlock_invariant (node_ext 100500) (fun _ => None) 10 0 genesis_hash false (fun _ => false) (fun _ => false)
      (fun _ _ => None) false ∅ 1 1300 node_b1 block_b2_dear _ _ (proj1 node_b1_ok) H1 H2 Hfile H3 (fun _ => H4)
      (surjective_pairing _)) as H.
    unfold accept in *. rewrite E in H. exact (proj1 H).
Defined.

(** Back from the longer branch to the shorter one. *)
Definition back_to_a1 : node * outcome Z unit :=
  Reorganize (node_ext 100500) (fun _ => None) 10 0 false (fun _ => false) (fun _ => false) node_b2 (block_GetHash block_a1).

Lemma Reorganize_refines_witness :
  snd back_to_a1 = Ok tt /\
  on_chain (node_ext 100500) (fun _ => None) 10 (fst back_to_a1) (block_GetHash block_a1)
    (ancestors_of (mapBlockIndex node_b2) (Some (block_GetHash block_a1))).
Proof.
  assert (snd back_to_a1 = Ok tt) as E by (by vm_compute). split; [exact E|].
  assert (is_Some (mapBlockIndex node_b2 !! block_GetHash block_a1)) as H1 by decide_now.
  assert (NoDup (chain_txs (node_ext 100500) node_b2 (ancestors_of (mapBlockIndex node_b2) (Some (block_GetHash block_b2))))) as H2 by decide_now.
  assert (g_pindexBest node_b2 = Some (block_GetHash block_b2)) as H3 by (by vm_compute).
  pose proof (Reorganize_refines (node_ext 100500) (fun _ => None) 10 0 genesis_hash false (fun _ => false) (fun _ => false) node_b2
    (block_GetHash block_b2) (block_GetHash block_a1) (proj1 (proj1 node_b2_ok)) H3 H1 H2) as H.
  destruct H as (d & c & f & tl & db & vres & _ & _ & _ & _ & _ & _ & H).
  unfold back_to_a1 in *. destruct (Reorganize _ _ _ _ _ _ _ node_b2 _) as [s' r]. cbn [fst snd] in *. subst r.
  destruct (connect_branch _ _ _ _ db (rev c) []).2; [exact (proj2 H)|by destruct H..].
Defined.

(** The node with the first block in its index only. *)
Definition node_pending : node :=
  add_entry (write_block (1, 500) block_a1 genesis_node) block_a1
    (new_index block_a1 1 500 0 (chain_of (mapBlockIndex genesis_node) (Some genesis_hash)) (0, true)).

Lemma node_pending_ok : toy_inv node_pending.
Proof.
  destruct (write_block_ok (node_ext 100500) (fun _ => None) 10 genesis_hash genesis_node block_a1 1 500 _ _ genesis_ok) as [H _];
    [by vm_compute|decide_now|].
  eapply node_ok_inv, add_entry_ok; [exact H|by vm_compute|decide_now|done|by vm_compute].
Qed.

Definition connected_a1 : outcome Z (gmap Z entry * CTxDB) :=
  connect_block (node_ext 100500) (fun _ => None) 10 node_pending (database node_pending) block_a1 (block_GetHash block_a1).

Definition is_Ok {A} (m : outcome Z A) : bool := match m with Ok _ => true | _ => false end.
Definition value_or {A} (d : A) (m : outcome Z A) : A := match m with Ok a => a | _ => d end.

Lemma ok_value {A} (m : outcome Z A) (d : A) : is_Ok m = true -> m = Ok (value_or d m).
Proof. by destruct m. Qed.

Lemma SetBestChain_extends_witness : exists s',
  SetBestChain (node_ext 100500) (fun _ => None) 10 0 genesis_hash false (fun _ => false) (fun _ => false) node_pending block_a1
    (block_GetHash block_a1) = (s', Ok tt) /\ toy_inv s' /\ g_pindexBest s' = Some (block_GetHash block_a1) /\
  ancestors_of (mapBlockIndex s') (Some (block_GetHash block_a1))
    = block_GetHash block_a1 :: ancestors_of (mapBlockIndex node_pending) (Some genesis_hash).
Proof.
  refine (SetBestChain_extends (node_ext 100500) (fun _ => None) 10 0 genesis_hash false (fun _ => false) (fun _ => false)
    node_pending block_a1 (block_GetHash block_a1) genesis_hash
    (value_or (∅, database node_pending) connected_a1) node_pending_ok _ _ _ _ _ _ _).
  - by vm_compute.
  - decide_now.
  - by vm_compute.
  - by vm_compute.
  - by vm_compute.
  - decide_now.
  - apply (ok_value connected_a1). by vm_compute.
Defined.

Lemma IsInMainChain_spec_witness :
  IsInMainChain node_b2 (block_GetHash block_b1) = true <->
  block_GetHash block_b1 ∈ ancestors_of (mapBlockIndex node_b2) (g_pindexBest node_b2).
Proof.
  apply (IsInMainChain_spec (node_ext 100500) (fun _ => None) 10 genesis_hash); [apply node_b2_ok|decide_now].
Defined.

Lemma locator_common_witness :
  locator_Set genesis_hash (mapBlockIndex node_b2) (Some (block_GetHash block_a1))
    = [block_GetHash block_a1; genesis_hash; genesis_hash] /\
  exists h, locator_GetBlockIndex node_b2 (locator_Set genesis_hash (mapBlockIndex node_b2) (Some (block_GetHash block_a1))) = Some h /\
    locator_GetBlockHash genesis_hash node_b2 (locator_Set genesis_hash (mapBlockIndex node_b2) (Some (block_GetHash block_a1))) = h /\
    h ∈ ancestors_of (mapBlockIndex node_b2) (g_pindexBest node_b2) /\
    h ∈ ancestors_of (mapBlockIndex node_b2) (Some (block_GetHash block_a1)) /\
    (block_GetHash block_a1 ∈ ancestors_of (mapBlockIndex node_b2) (g_pindexBest node_b2) -> h = block_GetHash block_a1).
Proof.
  split; [by vm_compute|].
  apply (locator_common (node_ext 100500) (fun _ => None) 10 genesis_hash); [apply node_b2_ok|decide_now].
Defined.

(** After a reorganisation the postponed blocks are connected one by one, and
    the first that fails ends the loop without a failure of [SetBestChain],
    which then names the block it was called for the best all the same.  Here
    the third block of a branch creates a million coins; the second was refused
    earlier, when the clock was behind.  The third is accepted, the node names
    it the best block, and the database is at the second. *)
Theorem AcceptBlock_keeps_invalid_tip :
  GetCoinbaseValue 3 0 = 10000 * COIN /\
  total_out (concat (map vout (vtx block_b3))) = 1000000 * COIN /\
  snd (accept 100500 1700 node_b2_refused block_b3) = Ok tt /\
  g_pindexBest node_b3 = Some (block_GetHash block_b3) /\ hashBestChain node_b3 = block_GetHash block_b3 /\
  db_hashBestChain (database node_b3) = block_GetHash block_b2 /\
  db_tx (database node_b3) !! tx_GetHash (hd (node_coinbase 0 0 0) (vtx block_b3)) = None.
Proof. split_and!; by vm_compute. Qed.
