(* ===== verification/TxDB.v ===== *)
(** * The transaction database: [txdb-leveldb.h] and [txdb-leveldb.cpp]

    [CTxDB] over LevelDB: a store of byte strings with an optional batch of
    pending changes, through which reads look first, and the typed records the
    node keeps in it.  LevelDB itself is a finite map with an atomic [Write] of
    a batch; its operations do not fail here. *)

From stdpp Require Import strings.
From S2P Require Import Prelude Serialize Transaction Chain TxConnect ChainState.

Local Open Scope Z_scope.

(** ** The store *)

(** [leveldb::WriteBatch]: changes in the order they were made. *)
Inductive batch_op := Put (key value : list Z) | Delete (key : list Z).

Record leveldb := { pdb : gmap (list Z) (list Z); activeBatch : option (list batch_op); fReadOnly : bool }.

(** [CBatchScanner]: what has been seen of the key it looks for. *)
Record CBatchScanner := { foundEntry : bool; deleted : bool; foundValue : list Z }.

Definition scan_op (needle : list Z) (scanner : CBatchScanner) (op : batch_op) : CBatchScanner :=
  match op with
  | Put key value => if bool_decide (key = needle) then {| foundEntry := true; deleted := false; foundValue := value |} else scanner
  | Delete key => if bool_decide (key = needle) then {| foundEntry := true; deleted := true; foundValue := foundValue scanner |} else scanner
  end.

(** [ScanBatch] *)
Definition ScanBatch (batch : list batch_op) (key : list Z) : CBatchScanner :=
  foldl (scan_op key) {| foundEntry := false; deleted := false; foundValue := [] |} batch.

(** [Read] up to the value as bytes, and with it unserialized. *)
Definition read_raw (s : leveldb) (key : list Z) : option (list Z) :=
  match activeBatch s with
  | Some batch =>
    let scanner := ScanBatch batch key in
    if deleted scanner then None
    else if negb (foundEntry scanner) then pdb s !! key
    else Some (foundValue scanner)
  | None => pdb s !! key
  end.

Definition Read {T} (parse : reader T) (s : leveldb) (key : list Z) : option T :=
  match read_raw s key with
  | None => None
  | Some strValue => match parse strValue with Ok (value, _) => Some value | _ => None end
  end.

(** [Write], [Erase] *)
Definition Write (s : leveldb) (key value : list Z) : outcome unit leveldb :=
  _ ← assert_that (negb (fReadOnly s));
  mret match activeBatch s with
       | Some batch => {| pdb := pdb s; activeBatch := Some (batch ++ [Put key value]); fReadOnly := fReadOnly s |}
       | None => {| pdb := <[key := value]> (pdb s); activeBatch := None; fReadOnly := fReadOnly s |}
       end.

Definition Erase (s : leveldb) (key : list Z) : outcome unit leveldb :=
  _ ← assert_that (negb (fReadOnly s));
  mret match activeBatch s with
       | Some batch => {| pdb := pdb s; activeBatch := Some (batch ++ [Delete key]); fReadOnly := fReadOnly s |}
       | None => {| pdb := delete key (pdb s); activeBatch := None; fReadOnly := fReadOnly s |}
       end.

(** [Exists] *)
Definition Exists (s : leveldb) (key : list Z) : bool :=
  match activeBatch s with
  | Some batch =>
    let scanner := ScanBatch batch key in
    if foundEntry scanner && negb (deleted scanner) then true else bool_decide (is_Some (pdb s !! key))
  | None => bool_decide (is_Some (pdb s !! key))
  end.

(** [TxnBegin], [TxnCommit], [TxnAbort] *)
Definition apply_op (m : gmap (list Z) (list Z)) (op : batch_op) : gmap (list Z) (list Z) :=
  match op with Put key value => <[key := value]> m | Delete key => delete key m end.

Definition TxnBegin (s : leveldb) : outcome unit leveldb :=
  _ ← assert_that (bool_decide (activeBatch s = None));
  mret {| pdb := pdb s; activeBatch := Some []; fReadOnly := fReadOnly s |}.

Definition TxnCommit (s : leveldb) : outcome unit leveldb :=
  match activeBatch s with
  | None => Crash
  | Some batch => mret {| pdb := foldl apply_op (pdb s) batch; activeBatch := None; fReadOnly := fReadOnly s |}
  end.

Definition TxnAbort (s : leveldb) : leveldb := {| pdb := pdb s; activeBatch := None; fReadOnly := fReadOnly s |}.

(** ** Keys *)

Definition str_bytes (s : string) : list Z := map (fun c => Z.of_N (Ascii.N_of_ascii c)) (String.list_ascii_of_string s).

(** [make_pair(string(name), hash)] and [string(name)] as keys. *)
Definition named_key (name : string) : list Z := @ser _ fmt_bytes (str_bytes name).
Definition hash_key (name : string) (hash : Z) : list Z := @ser _ (fmt_pair fmt_bytes fmt_uint256) (str_bytes name, hash).
Definition addr_key (addrHash : Z) : list Z := @ser _ (fmt_pair fmt_bytes (ser_uint 20)) (str_bytes "adr", addrHash).

(** ** Values *)

Definition CLIENT_VERSION : Z := 1000000 * 1 + 10000 * 9 + 100 * 9 + 2.
Definition DATABASE_VERSION : Z := 70509.

(** [FLATDATA(CDiskTxPos)] *)
Definition fmt_txpos : Serialize CDiskTxPos :=
  fmt_iso (fmt_pair fmt_uint32 (fmt_pair fmt_uint32 fmt_uint32)) (fun p => Build_CDiskTxPos p.1 p.2.1 p.2.2)
    (fun p => (nFile p, (nBlockPos p, nTxPos p))).

#[export] Instance fmt_txpos_laws : SerializeLaws CDiskTxPos (S := fmt_txpos).
Proof. apply fmt_iso_laws; [by intros []|by intros [? []]|apply _]. Qed.

(** [CTxIndex]: the version of the client is written and not looked at. *)
Definition ser_txindex (t : CTxIndex) : list Z :=
  @ser _ fmt_int CLIENT_VERSION ++ @ser _ fmt_txpos (pos t) ++ @ser _ (fmt_vector fmt_txpos) (vSpent t).
Definition unser_txindex : reader CTxIndex :=
  _ ← @unser _ fmt_int; p ← @unser _ fmt_txpos; v ← @unser _ (fmt_vector fmt_txpos); mret {| pos := p; vSpent := v |}.

(** [CDiskBlockIndex], written with the hash of its header. *)
Definition ser_outpoint (o : COutPoint) : list Z := write_uint 32 (prevout_hash o) ++ write_uint 4 (prevout_n o).
Definition unser_outpoint : reader COutPoint :=
  h ← read_uint 32; n ← read_uint 4; mret {| prevout_hash := h; prevout_n := n |}.

Definition ser_diskindex (d : CDiskBlockIndex) : list Z :=
  let b := d_index d in
  @ser _ fmt_int CLIENT_VERSION ++ write_uint 32 (d_hashNext d) ++ write_uint 4 (bi_nFile b) ++ write_uint 4 (bi_nBlockPos b) ++
  @ser _ fmt_int (bi_nHeight b) ++ @ser _ fmt_int64 (bi_nMint b) ++ @ser _ fmt_int64 (bi_nMoneySupply b) ++
  write_uint 4 (bi_nFlags b) ++ write_uint 8 (bi_nStakeModifier b) ++ write_uint 32 (bi_bnStakeModifierV2 b) ++
  (if index_IsProofOfStake b then ser_outpoint (bi_prevoutStake b) ++ write_uint 4 (bi_nStakeTime b) else []) ++
  write_uint 32 (bi_hashProof b) ++ @ser _ fmt_int (bi_nVersion b) ++ write_uint 32 (d_hashPrev d) ++
  write_uint 32 (bi_hashMerkleRoot b) ++ write_uint 4 (bi_nTime b) ++ write_uint 4 (bi_nBits b) ++ write_uint 4 (bi_nNonce b) ++
  write_uint 32 (bi_hash b).

Definition unser_diskindex : reader CDiskBlockIndex :=
  _ ← @unser _ fmt_int; next ← read_uint 32; file ← read_uint 4; bpos ← read_uint 4; height ← @unser _ fmt_int;
  mint ← @unser _ fmt_int64; supply ← @unser _ fmt_int64; flags ← read_uint 4; modifier ← read_uint 8; v2 ← read_uint 32;
  stake ← (if negb (Z.land flags BLOCK_PROOF_OF_STAKE =? 0) then o ← unser_outpoint; t ← read_uint 4; mret (o, t)
           else mret (null_outpoint, 0));
  proof ← read_uint 32; version ← @unser _ fmt_int; prev ← read_uint 32; merkle ← read_uint 32; time ← read_uint 4;
  bits ← read_uint 4; nonce ← read_uint 4; hash ← read_uint 32;
  mret {| d_index := {| bi_hash := hash; bi_nFile := file; bi_nBlockPos := bpos; bi_nChainTrust := 0; bi_nHeight := height;
            bi_nMint := mint; bi_nMoneySupply := supply; bi_nFlags := flags; bi_nStakeModifier := modifier;
            bi_bnStakeModifierV2 := v2; bi_prevoutStake := fst stake; bi_nStakeTime := snd stake; bi_hashProof := proof;
            bi_nVersion := version; bi_hashMerkleRoot := merkle; bi_nTime := time; bi_nBits := bits; bi_nNonce := nonce |};
          d_hashPrev := prev; d_hashNext := next |}.

(** ** Records *)

Definition ReadVersion (s : leveldb) : option Z := Read (@unser _ fmt_int) s (named_key "version").
Definition WriteVersion (v : Z) (s : leveldb) : outcome unit leveldb := Write s (named_key "version") (@ser _ fmt_int v).

Definition ReadTxIndex (s : leveldb) (hash : Z) : option CTxIndex := Read unser_txindex s (hash_key "tx" hash).
Definition UpdateTxIndex (hash : Z) (t : CTxIndex) (s : leveldb) : outcome unit leveldb := Write s (hash_key "tx" hash) (ser_txindex t).
Definition AddTxIndex (hash : Z) (tx : CTransaction) (p : CDiskTxPos) (s : leveldb) : outcome unit leveldb :=
  Write s (hash_key "tx" hash) (ser_txindex (new_txindex p (length (vout tx)))).
Definition EraseTxIndex (hash : Z) (s : leveldb) : outcome unit leveldb := Erase s (hash_key "tx" hash).
Definition ContainsTx (s : leveldb) (hash : Z) : bool := Exists s (hash_key "tx" hash).

Definition write_blockindex (d : CDiskBlockIndex) (s : leveldb) : outcome unit leveldb :=
  Write s (hash_key "blockindex" (bi_hash (d_index d))) (ser_diskindex d).
Definition read_blockindex (s : leveldb) (hash : Z) : option CDiskBlockIndex := Read unser_diskindex s (hash_key "blockindex" hash).

Definition ReadHashBestChain (s : leveldb) : option Z := Read (@unser _ fmt_uint256) s (named_key "hashBestChain").
Definition write_hashBestChain (h : Z) (s : leveldb) : outcome unit leveldb := Write s (named_key "hashBestChain") (write_uint 32 h).
Definition ReadBestInvalidTrust (s : leveldb) : option Z := Read (@unser _ fmt_uint256) s (named_key "bnBestInvalidTrust").
Definition WriteBestInvalidTrust (t : Z) (s : leveldb) : outcome unit leveldb := Write s (named_key "bnBestInvalidTrust") (write_uint 32 t).

(** [ReadAddrIndex], [WriteAddrIndex]: the transactions of an address, each once. *)
Definition ReadAddrIndex (s : leveldb) (addrHash : Z) : option (list Z) :=
  Read (@unser _ (fmt_vector fmt_uint256)) s (addr_key addrHash).
Definition WriteAddrIndex (addrHash txHash : Z) (s : leveldb) : outcome unit leveldb :=
  match ReadAddrIndex s addrHash with
  | None => Write s (addr_key addrHash) (@ser _ (fmt_vector fmt_uint256) [txHash])
  | Some txHashes =>
    if bool_decide (txHash ∈ txHashes) then mret s
    else Write s (addr_key addrHash) (@ser _ (fmt_vector fmt_uint256) (txHashes ++ [txHash]))
  end.

(** * Properties of the transaction database

    Transactions are atomic and isolated, and the typed records implement the
    finite maps and the field the other components use for the database. *)

(** ** What a store shows *)

Definition view (s : leveldb) : gmap (list Z) (list Z) :=
  match activeBatch s with Some batch => foldl apply_op (pdb s) batch | None => pdb s end.

(** The scanner knows the last change of its key. *)
Lemma ScanBatch_view m key batch : let scanner := ScanBatch batch key in
  foldl apply_op m batch !! key =
    (if foundEntry scanner then if deleted scanner then None else Some (foundValue scanner) else m !! key) /\
  (deleted scanner = true -> foundEntry scanner = true).
Proof.
  induction batch as [|op batch IH] using rev_ind; [done|]. unfold ScanBatch in *. rewrite !foldl_snoc.
  set (sc := foldl (scan_op key) _ batch) in *. destruct IH as [IH Hd].
  destruct op as [k v|k]; cbn [apply_op scan_op].
  - destruct (decide (k = key)) as [->|Hk].
    + rewrite bool_decide_eq_true_2 by done. cbn. by rewrite lookup_insert_eq.
    + rewrite bool_decide_eq_false_2, lookup_insert_ne by done. by split.
  - destruct (decide (k = key)) as [->|Hk].
    + rewrite bool_decide_eq_true_2 by done. cbn. by rewrite lookup_delete_eq.
    + rewrite bool_decide_eq_false_2, lookup_delete_ne by done. by split.
Qed.

Lemma read_raw_view s key : read_raw s key = view s !! key.
Proof.
  unfold read_raw, view. destruct (activeBatch s) as [batch|]; [|done].
  destruct (ScanBatch_view (pdb s) key batch) as [-> Hd].
  destruct (deleted _); [by rewrite Hd|]. by destruct (foundEntry _).
Qed.

Lemma Exists_view s key : Exists s key = bool_decide (is_Some (view s !! key)) || bool_decide (is_Some (pdb s !! key)).
Proof.
  unfold Exists, view. destruct (activeBatch s) as [batch|]; [|by rewrite orb_diag].
  destruct (ScanBatch_view (pdb s) key batch) as [-> Hd].
  destruct (foundEntry _); cbn [andb]; [|by rewrite orb_diag].
  destruct (deleted _); cbn [negb].
  - by rewrite (bool_decide_eq_false_2 (is_Some None)) by by intros [].
  - by rewrite (bool_decide_eq_true_2 (is_Some (Some _))).
Qed.

Lemma Write_view s key value s' : Write s key value = Ok s' ->
  view s' = <[key := value]> (view s) /\ fReadOnly s' = fReadOnly s /\ (activeBatch s = None <-> activeBatch s' = None) /\
  (activeBatch s <> None -> pdb s' = pdb s).
Proof.
  unfold Write. intros H. apply bind_Ok in H as (u & _ & H). injection H as <-. unfold view.
  destruct (activeBatch s) as [batch|]; cbn; [rewrite foldl_snoc|]; by split_and!.
Qed.

Lemma Erase_view s key s' : Erase s key = Ok s' ->
  view s' = delete key (view s) /\ fReadOnly s' = fReadOnly s /\ (activeBatch s = None <-> activeBatch s' = None) /\
  (activeBatch s <> None -> pdb s' = pdb s).
Proof.
  unfold Erase. intros H. apply bind_Ok in H as (u & _ & H). injection H as <-. unfold view.
  destruct (activeBatch s) as [batch|]; cbn; [rewrite foldl_snoc|]; by split_and!.
Qed.

(** ** Erasing and existing *)

Lemma view_None s : activeBatch s = None -> view s = pdb s.
Proof. unfold view. by intros ->. Qed.

(** [Exists] does not see that a key was erased in the transaction. *)
Lemma Exists_after_Erase : let s := {| pdb := {[ [1] := [2] ]}; activeBatch := Some [Delete [1]]; fReadOnly := false |} in
  read_raw s [1] = None /\ Exists s [1] = true.
Proof. done. Qed.

(** ** Values read back *)

(** A reader followed by what is left to read of the record. *)
Lemma unser_step {A B} {S : Serialize A} {L : SerializeLaws A} (f : A -> reader B) a s :
  ser_ok a -> (unser ≫= f) (ser a ++ s) = f a s.
Proof. intros Ha. by apply reader_bind_Ok, unser_ser. Qed.

Lemma read_uint_step {B} (f : Z -> reader B) n z s : 0 <= z < 256 ^ Z.of_nat n ->
  (read_uint n ≫= f) (write_uint n z ++ s) = f z s.
Proof. intros Hz. by apply reader_bind_Ok, read_write_uint. Qed.

Definition txpos_ok (p : CDiskTxPos) : Prop := @ser_ok _ fmt_txpos p.
Definition txindex_ok (t : CTxIndex) : Prop := txpos_ok (pos t) /\ @ser_ok _ (fmt_vector fmt_txpos) (vSpent t).

Lemma unser_ser_txindex t s : txindex_ok t -> unser_txindex (ser_txindex t ++ s) = Ok (t, s).
Proof.
  intros [Hp Hv]. unfold unser_txindex, ser_txindex. rewrite <-!app_assoc.
  rewrite unser_step by done. rewrite unser_step by done. rewrite unser_step by done. by destruct t.
Qed.

Lemma fmt_txpos_ok p : txpos_ok p <-> 0 <= nFile p < 2 ^ 32 /\ 0 <= nBlockPos p < 2 ^ 32 /\ 0 <= nTxPos p < 2 ^ 32.
Proof. done. Qed.

(** What a record of a block keeps: everything but the trust. *)
Definition erase_trust (d : CDiskBlockIndex) : CDiskBlockIndex :=
  let b := d_index d in
  {| d_index := {| bi_hash := bi_hash b; bi_nFile := bi_nFile b; bi_nBlockPos := bi_nBlockPos b; bi_nChainTrust := 0;
       bi_nHeight := bi_nHeight b; bi_nMint := bi_nMint b; bi_nMoneySupply := bi_nMoneySupply b; bi_nFlags := bi_nFlags b;
       bi_nStakeModifier := bi_nStakeModifier b; bi_bnStakeModifierV2 := bi_bnStakeModifierV2 b;
       bi_prevoutStake := bi_prevoutStake b; bi_nStakeTime := bi_nStakeTime b; bi_hashProof := bi_hashProof b;
       bi_nVersion := bi_nVersion b; bi_hashMerkleRoot := bi_hashMerkleRoot b; bi_nTime := bi_nTime b;
       bi_nBits := bi_nBits b; bi_nNonce := bi_nNonce b |};
     d_hashPrev := d_hashPrev d; d_hashNext := d_hashNext d |}.

(** Every field fits its width, and only proofs of stake have a stake. *)
Record diskindex_ok (d : CDiskBlockIndex) : Prop := {
  ok_hash : 0 <= bi_hash (d_index d) < 2 ^ 256;
  ok_links : 0 <= d_hashPrev d < 2 ^ 256 /\ 0 <= d_hashNext d < 2 ^ 256;
  ok_place : 0 <= bi_nFile (d_index d) < 2 ^ 32 /\ 0 <= bi_nBlockPos (d_index d) < 2 ^ 32;
  ok_height : - 2 ^ 31 <= bi_nHeight (d_index d) < 2 ^ 31;
  ok_money : - 2 ^ 63 <= bi_nMint (d_index d) < 2 ^ 63 /\ - 2 ^ 63 <= bi_nMoneySupply (d_index d) < 2 ^ 63;
  ok_flags : 0 <= bi_nFlags (d_index d) < 2 ^ 32;
  ok_modifier : 0 <= bi_nStakeModifier (d_index d) < 2 ^ 64 /\ 0 <= bi_bnStakeModifierV2 (d_index d) < 2 ^ 256;
  ok_stake : 0 <= prevout_hash (bi_prevoutStake (d_index d)) < 2 ^ 256 /\
    0 <= prevout_n (bi_prevoutStake (d_index d)) < 2 ^ 32 /\ 0 <= bi_nStakeTime (d_index d) < 2 ^ 32;
  ok_no_stake : index_IsProofOfStake (d_index d) = false ->
    bi_prevoutStake (d_index d) = null_outpoint /\ bi_nStakeTime (d_index d) = 0;
  ok_proof : 0 <= bi_hashProof (d_index d) < 2 ^ 256;
  ok_version : - 2 ^ 31 <= bi_nVersion (d_index d) < 2 ^ 31;
  ok_header : 0 <= bi_hashMerkleRoot (d_index d) < 2 ^ 256 /\ 0 <= bi_nTime (d_index d) < 2 ^ 32 /\
    0 <= bi_nBits (d_index d) < 2 ^ 32 /\ 0 <= bi_nNonce (d_index d) < 2 ^ 32;
}.

(** One field of a record, by its width. *)
Section fields.
Context {B : Type} (f : Z -> reader B) (z : Z) (s : list Z).

Lemma read_u4 : 0 <= z < 2 ^ 32 -> (read_uint 4 ≫= f) (write_uint 4 z ++ s) = f z s.
Proof. apply (read_uint_step f 4). Qed.
Lemma read_u8 : 0 <= z < 2 ^ 64 -> (read_uint 8 ≫= f) (write_uint 8 z ++ s) = f z s.
Proof. apply (read_uint_step f 8). Qed.
Lemma read_u32 : 0 <= z < 2 ^ 256 -> (read_uint 32 ≫= f) (write_uint 32 z ++ s) = f z s.
Proof. apply (read_uint_step f 32). Qed.
Lemma read_i4 : - 2 ^ 31 <= z < 2 ^ 31 -> (@unser _ fmt_int ≫= f) (@ser _ fmt_int z ++ s) = f z s.
Proof. apply (unser_step (S := fmt_int) f). Qed.
Lemma read_i8 : - 2 ^ 63 <= z < 2 ^ 63 -> (@unser _ fmt_int64 ≫= f) (@ser _ fmt_int64 z ++ s) = f z s.
Proof. apply (unser_step (S := fmt_int64) f). Qed.
End fields.

Ltac read_field :=
  lazymatch goal with
  | |- (read_uint 4 ≫= _) _ = _ => rewrite read_u4 by lia
  | |- (read_uint 8 ≫= _) _ = _ => rewrite read_u8 by lia
  | |- (read_uint 32 ≫= _) _ = _ => rewrite read_u32 by lia
  | |- (@unser Z fmt_int ≫= _) _ = _ => rewrite read_i4 by (unfold CLIENT_VERSION; lia)
  | |- (@unser Z fmt_int64 ≫= _) _ = _ => rewrite read_i8 by lia
  end; cbv beta.

Lemma unser_ser_stake {B} b (f : COutPoint * Z -> reader B) s :
  0 <= prevout_hash (bi_prevoutStake b) < 2 ^ 256 -> 0 <= prevout_n (bi_prevoutStake b) < 2 ^ 32 ->
  0 <= bi_nStakeTime b < 2 ^ 32 ->
  (index_IsProofOfStake b = false -> bi_prevoutStake b = null_outpoint /\ bi_nStakeTime b = 0) ->
  ((if negb (Z.land (bi_nFlags b) BLOCK_PROOF_OF_STAKE =? 0) then o ← unser_outpoint; t ← read_uint 4; mret (o, t)
    else mret (null_outpoint, 0)) ≫= f)
    ((if index_IsProofOfStake b then ser_outpoint (bi_prevoutStake b) ++ write_uint 4 (bi_nStakeTime b) else []) ++ s) =
  f (bi_prevoutStake b, bi_nStakeTime b) s.
Proof.
  intros Hh Hn Ht Hnone. fold (index_IsProofOfStake b). apply reader_bind_Ok.
  destruct (index_IsProofOfStake b); [|by destruct Hnone as [-> ->]].
  unfold ser_outpoint, unser_outpoint. destruct (bi_prevoutStake b) as [h n]. cbn [prevout_hash prevout_n] in *.
  rewrite <-!app_assoc. erewrite reader_bind_Ok; [|do 2 read_field; reflexivity]. by read_field.
Qed.

Lemma unser_ser_diskindex d : diskindex_ok d -> unser_diskindex (ser_diskindex d) = Ok (erase_trust d, []).
Proof.
  intros []. set (b := d_index d) in *. destruct_and!. unfold unser_diskindex, ser_diskindex. fold b.
  rewrite <-(app_nil_r (write_uint 32 (bi_hash b))).
  do 10 read_field. rewrite unser_ser_stake by auto. do 8 read_field.
  unfold erase_trust. by fold b.
Qed.

(** ** Keys *)

Lemma ser_prefix_inj {A} {S : Serialize A} {L : SerializeLaws A} a b s t :
  ser_ok a -> ser_ok b -> ser a ++ s = ser b ++ t -> a = b /\ s = t.
Proof.
  intros Ha Hb H. apply (f_equal unser) in H. rewrite !unser_ser in H by done. by injection H.
Qed.

Lemma str_bytes_inj x y : str_bytes x = str_bytes y -> x = y.
Proof.
  unfold str_bytes. intros H. rewrite <-(String.string_of_list_ascii_of_string x), <-(String.string_of_list_ascii_of_string y).
  f_equal. revert H. generalize (String.list_ascii_of_string y). generalize (String.list_ascii_of_string x). clear x y.
  induction l as [|a x IH]; intros [|b y]; cbn; try done. intros [= H1 H2]. f_equal; [|by apply IH].
  apply N2Z.inj in H1. by rewrite <-(Ascii.ascii_N_embedding a), <-(Ascii.ascii_N_embedding b), H1.
Qed.

(** The names of records are short. *)
Definition name_ok (x : string) : Prop := zlen (str_bytes x) <= MAX_SIZE.

Lemma str_bytes_ok x : name_ok x -> @ser_ok _ fmt_bytes (str_bytes x).
Proof.
  split; [|done]. apply Forall_map, Forall_true. intros a. pose proof (Ascii.N_ascii_bounded a). unfold byte_ok. lia.
Qed.

Lemma named_key_inj x y s t : name_ok x -> name_ok y -> named_key x ++ s = named_key y ++ t -> x = y /\ s = t.
Proof. intros Hx Hy H. apply ser_prefix_inj in H as [H ->]; [|by apply str_bytes_ok..]. by apply str_bytes_inj in H. Qed.

Lemma hash_key_named x h : hash_key x h = named_key x ++ write_uint 32 h.
Proof. done. Qed.

Lemma write_uint32_inj h k : 0 <= h < 2 ^ 256 -> 0 <= k < 2 ^ 256 -> write_uint 32 h = write_uint 32 k -> h = k.
Proof.
  intros Hh Hk H. apply (f_equal (.++ [])) in H. by apply (ser_prefix_inj (S := fmt_uint256)) in H as [? _].
Qed.

(** ** The records of the node *)

(** The store shows the records [db]. *)
Record holds (s : leveldb) (db : CTxDB) : Prop := {
  holds_writable : fReadOnly s = false;
  holds_tx h : 0 <= h < 2 ^ 256 -> ReadTxIndex s h = db_tx db !! h;
  holds_best : ReadHashBestChain s = Some (db_hashBestChain db);
  holds_index h : 0 <= h < 2 ^ 256 -> read_blockindex s h = erase_trust <$> db_blockindex db !! h;
}.

(** The operations that change them, on bytes and on maps. *)
Inductive record_op :=
  | OpUpdateTx (hash : Z) (t : CTxIndex) | OpAddTx (hash : Z) (tx : CTransaction) (p : CDiskTxPos) | OpEraseTx (hash : Z)
  | OpBestChain (hash : Z) | OpBlockIndex (d : CDiskBlockIndex).

Definition run_op (s : leveldb) (op : record_op) : outcome unit leveldb :=
  match op with
  | OpUpdateTx h t => UpdateTxIndex h t s
  | OpAddTx h tx p => AddTxIndex h tx p s
  | OpEraseTx h => EraseTxIndex h s
  | OpBestChain h => write_hashBestChain h s
  | OpBlockIndex d => write_blockindex d s
  end.

Definition set_tx (f : gmap Z CTxIndex -> gmap Z CTxIndex) (db : CTxDB) : CTxDB :=
  {| db_tx := f (db_tx db); db_hashBestChain := db_hashBestChain db; db_blockindex := db_blockindex db |}.

Definition spec_op (db : CTxDB) (op : record_op) : CTxDB :=
  match op with
  | OpUpdateTx h t => set_tx <[h := t]> db
  | OpAddTx h tx p => set_tx <[h := new_txindex p (length (vout tx))]> db
  | OpEraseTx h => set_tx (delete h) db
  | OpBestChain h => WriteHashBestChain h db
  | OpBlockIndex d => WriteBlockIndex (bi_hash (d_index d)) d db
  end.

Definition op_ok (op : record_op) : Prop :=
  match op with
  | OpUpdateTx h t => 0 <= h < 2 ^ 256 /\ txindex_ok t
  | OpAddTx h tx p => 0 <= h < 2 ^ 256 /\ txpos_ok p /\ zlen (vout tx) <= MAX_SIZE
  | OpEraseTx h => 0 <= h < 2 ^ 256
  | OpBestChain h => 0 <= h < 2 ^ 256
  | OpBlockIndex d => diskindex_ok d
  end.

(** Reading depends on what the store shows only. *)
Definition Read_in {T} (parse : reader T) (m : gmap (list Z) (list Z)) (key : list Z) : option T :=
  v ← m !! key; match parse v with Ok (value, _) => Some value | _ => None end.

Lemma Read_view {T} (parse : reader T) s key : Read parse s key = Read_in parse (view s) key.
Proof. unfold Read, Read_in. rewrite read_raw_view. by destruct (view s !! key). Qed.

Lemma Read_insert {T} (parse : reader T) m key v : Read_in parse (<[key := v]> m) key =
  match parse v with Ok (value, _) => Some value | _ => None end.
Proof. unfold Read_in. by rewrite lookup_insert_eq. Qed.

Lemma Read_delete {T} (parse : reader T) m key : Read_in parse (delete key m) key = None.
Proof. unfold Read_in. by rewrite lookup_delete_eq. Qed.

Lemma Read_insert_ne {T} (parse : reader T) m key key' v : key' <> key -> Read_in parse (<[key' := v]> m) key = Read_in parse m key.
Proof. intros ?. unfold Read_in. by rewrite lookup_insert_ne. Qed.

Lemma Read_delete_ne {T} (parse : reader T) m key key' : key' <> key -> Read_in parse (delete key' m) key = Read_in parse m key.
Proof. intros ?. unfold Read_in. by rewrite lookup_delete_ne. Qed.

Lemma hash_key_ne x y h k : name_ok x -> name_ok y -> x <> y \/ h <> k -> 0 <= h < 2 ^ 256 -> 0 <= k < 2 ^ 256 ->
  hash_key x h <> hash_key y k.
Proof.
  rewrite !hash_key_named. intros Hx Hy Hne Hh Hk H. apply named_key_inj in H as [-> H]; try done.
  apply write_uint32_inj in H as ->; try done. by destruct Hne.
Qed.

Lemma hash_key_ne_named x y h : name_ok x -> name_ok y -> x <> y -> hash_key x h <> named_key y.
Proof.
  rewrite hash_key_named. intros Hx Hy Hne H. rewrite <-(app_nil_r (named_key y)) in H.
  by apply named_key_inj in H as [-> _].
Qed.

(** Two keys of different records. *)
Ltac key_ne :=
  first [ apply hash_key_ne; [by vm_compute|by vm_compute|first [by left|by right]|done|done]
        | apply hash_key_ne_named; [by vm_compute|by vm_compute|done]
        | apply not_eq_sym, hash_key_ne_named; [by vm_compute|by vm_compute|done] ].

Lemma new_txindex_ok p n : txpos_ok p -> Z.of_nat n <= MAX_SIZE -> txindex_ok (new_txindex p n).
Proof.
  intros Hp Hn. split; [done|]. cbn. split; [|unfold zlen; by rewrite length_replicate].
  apply Forall_replicate. by vm_compute.
Qed.

Lemma Write_ok s key v : fReadOnly s = false -> exists s', Write s key v = Ok s' /\ view s' = <[key := v]> (view s) /\
  fReadOnly s' = false /\ (activeBatch s = None <-> activeBatch s' = None) /\ (activeBatch s <> None -> pdb s' = pdb s).
Proof.
  intros Hro. destruct (Write s key v) as [s'| | |] eqn:E; try (unfold Write in E; by rewrite Hro in E).
  destruct (Write_view _ _ _ _ E) as (? & ? & ? & ?). exists s'. split_and!; try done; congruence.
Qed.

Lemma Erase_ok s key : fReadOnly s = false -> exists s', Erase s key = Ok s' /\ view s' = delete key (view s) /\
  fReadOnly s' = false /\ (activeBatch s = None <-> activeBatch s' = None) /\ (activeBatch s <> None -> pdb s' = pdb s).
Proof.
  intros Hro. destruct (Erase s key) as [s'| | |] eqn:E; try (unfold Erase in E; by rewrite Hro in E).
  destruct (Erase_view _ _ _ E) as (? & ? & ? & ?). exists s'. split_and!; try done; congruence.
Qed.

(** The records a map of bytes shows. *)
Record shows (m : gmap (list Z) (list Z)) (db : CTxDB) : Prop := {
  shows_tx h : 0 <= h < 2 ^ 256 -> Read_in unser_txindex m (hash_key "tx" h) = db_tx db !! h;
  shows_best : Read_in (@unser _ fmt_uint256) m (named_key "hashBestChain") = Some (db_hashBestChain db);
  shows_index h : 0 <= h < 2 ^ 256 -> Read_in unser_diskindex m (hash_key "blockindex" h) = erase_trust <$> db_blockindex db !! h;
}.

Lemma holds_shows s db : holds s db <-> fReadOnly s = false /\ shows (view s) db.
Proof.
  split.
  - intros [? Htx Hbest Hindex]. split; [done|]. split.
    + intros h Hh. rewrite <-Htx by done. symmetry. apply Read_view.
    + rewrite <-Hbest. symmetry. apply Read_view.
    + intros h Hh. rewrite <-Hindex by done. symmetry. apply Read_view.
  - intros [? [Htx Hbest Hindex]]. split; [done|..].
    + intros h Hh. rewrite <-Htx by done. apply Read_view.
    + rewrite <-Hbest. apply Read_view.
    + intros h Hh. rewrite <-Hindex by done. apply Read_view.
Qed.

Section shows.
Context (m : gmap (list Z) (list Z)) (db : CTxDB) (Hm : shows m db).

Lemma shows_put_tx h t : 0 <= h < 2 ^ 256 -> txindex_ok t -> shows (<[hash_key "tx" h := ser_txindex t]> m) (set_tx <[h := t]> db).
Proof.
  intros Hh Ht. split; cbn [set_tx db_tx db_hashBestChain db_blockindex].
  - intros k Hk. destruct (decide (h = k)) as [->|Hne].
    + rewrite Read_insert, lookup_insert_eq, <-(app_nil_r (ser_txindex t)). by rewrite unser_ser_txindex.
    + rewrite Read_insert_ne, lookup_insert_ne by first [done|key_ne]. by apply shows_tx.
  - rewrite Read_insert_ne by key_ne. by apply shows_best.
  - intros k Hk. rewrite Read_insert_ne by key_ne. by apply shows_index.
Qed.

Lemma shows_delete_tx h : 0 <= h < 2 ^ 256 -> shows (delete (hash_key "tx" h) m) (set_tx (delete h) db).
Proof.
  intros Hh. split; cbn [set_tx db_tx db_hashBestChain db_blockindex].
  - intros k Hk. destruct (decide (h = k)) as [->|Hne].
    + by rewrite Read_delete, lookup_delete_eq.
    + rewrite Read_delete_ne, lookup_delete_ne by first [done|key_ne]. by apply shows_tx.
  - rewrite Read_delete_ne by key_ne. by apply shows_best.
  - intros k Hk. rewrite Read_delete_ne by key_ne. by apply shows_index.
Qed.

Lemma shows_put_best h : 0 <= h < 2 ^ 256 -> shows (<[named_key "hashBestChain" := write_uint 32 h]> m) (WriteHashBestChain h db).
Proof.
  intros Hh. split; cbn [WriteHashBestChain db_tx db_hashBestChain db_blockindex].
  - intros k Hk. rewrite Read_insert_ne by key_ne. by apply shows_tx.
  - rewrite Read_insert. pose proof (unser_ser (S := fmt_uint256) h [] Hh) as H. cbn [ser fmt_uint256 ser_uint] in H.
    rewrite app_nil_r in H. by rewrite H.
  - intros k Hk. rewrite Read_insert_ne by key_ne. by apply shows_index.
Qed.

Lemma shows_put_index d : diskindex_ok d ->
  shows (<[hash_key "blockindex" (bi_hash (d_index d)) := ser_diskindex d]> m) (WriteBlockIndex (bi_hash (d_index d)) d db).
Proof.
  intros Hd. pose proof (ok_hash d Hd) as Hh. split; cbn [WriteBlockIndex db_tx db_hashBestChain db_blockindex].
  - intros k Hk. rewrite Read_insert_ne by key_ne. by apply shows_tx.
  - rewrite Read_insert_ne by key_ne. by apply shows_best.
  - intros k Hk. destruct (decide (bi_hash (d_index d) = k)) as [<-|Hne].
    + by rewrite Read_insert, lookup_insert_eq, unser_ser_diskindex.
    + rewrite Read_insert_ne, lookup_insert_ne by first [done|key_ne]. by apply shows_index.
Qed.
End shows.

Lemma run_op_refines s db op : holds s db -> op_ok op -> exists s', run_op s op = Ok s' /\ holds s' (spec_op db op) /\
  (activeBatch s = None <-> activeBatch s' = None) /\ (activeBatch s <> None -> pdb s' = pdb s).
Proof.
  intros [Hro Hm]%holds_shows Hok. destruct op as [h t|h tx p|h|h|d]; cbn [run_op spec_op op_ok] in *.
  - destruct Hok. edestruct (Write_ok s) as (s' & ? & Hv & ?); [done|]. exists s'. split; [done|]. split; [|tauto].
    apply holds_shows. rewrite Hv. split; [tauto|]. by apply shows_put_tx.
  - destruct Hok as (? & ? & ?). edestruct (Write_ok s) as (s' & ? & Hv & ?); [done|]. exists s'. split; [done|]. split; [|tauto].
    apply holds_shows. rewrite Hv. split; [tauto|]. apply shows_put_tx; [done..|]. by apply new_txindex_ok.
  - edestruct (Erase_ok s) as (s' & ? & Hv & ?); [done|]. exists s'. split; [done|]. split; [|tauto].
    apply holds_shows. rewrite Hv. split; [tauto|]. by apply shows_delete_tx.
  - edestruct (Write_ok s) as (s' & ? & Hv & ?); [done|]. exists s'. split; [done|]. split; [|tauto].
    apply holds_shows. rewrite Hv. split; [tauto|]. by apply shows_put_best.
  - edestruct (Write_ok s) as (s' & ? & Hv & ?); [done|]. exists s'. split; [done|]. split; [|tauto].
    apply holds_shows. rewrite Hv. split; [tauto|]. by apply shows_put_index.
Qed.

Fixpoint run_ops (s : leveldb) (ops : list record_op) : outcome unit leveldb :=
  match ops with [] => mret s | op :: ops => s ← run_op s op; run_ops s ops end.

Lemma run_ops_refines ops s db : holds s db -> Forall op_ok ops -> exists s', run_ops s ops = Ok s' /\
  holds s' (foldl spec_op db ops) /\ (activeBatch s = None <-> activeBatch s' = None) /\ (activeBatch s <> None -> pdb s' = pdb s).
Proof.
  intros Hs Hops. revert s db Hs. induction Hops as [|op ops Hop _ IH]; intros s db Hs; [by exists s|].
  destruct (run_op_refines s db op Hs Hop) as (s1 & H1 & Hs1 & Hb1 & Hp1).
  destruct (IH s1 _ Hs1) as (s' & H' & Hs' & Hb' & Hp'). exists s'. cbn [run_ops foldl]. rewrite H1.
  split_and!; [done|done|by rewrite Hb1|]. intros Hne. rewrite Hp' by by rewrite <-Hb1. by apply Hp1.
Qed.

Lemma TxnBegin_holds s db : holds s db -> activeBatch s = None ->
  exists s0, TxnBegin s = Ok s0 /\ holds s0 db /\ activeBatch s0 <> None /\ pdb s0 = pdb s.
Proof.
  intros Hs Hnone. unfold TxnBegin. rewrite bool_decide_eq_true_2 by done. eexists. split; [done|].
  split_and!; [|done|done]. apply holds_shows in Hs as [Hro Hs]. apply holds_shows. split; [done|].
  by rewrite view_None in Hs.
Qed.

Lemma TxnCommit_holds s db : holds s db -> activeBatch s <> None -> exists s', TxnCommit s = Ok s' /\ holds s' db /\ activeBatch s' = None.
Proof.
  intros [Hro Hs]%holds_shows Hb. unfold TxnCommit. unfold view in Hs. destruct (activeBatch s) as [batch|]; [|done].
  eexists. split; [done|]. split; [|done]. by apply holds_shows.
Qed.

(** C4: the database implements the finite maps and the field of the node's
    records, over serialized keys and values and through LevelDB's batches.
    From a store that holds [db], a transaction of any updates of transaction
    records, of [hashBestChain] and of block index records succeeds; reads made
    inside it see the updated records; [TxnCommit] leaves a store that holds
    them; and [TxnAbort] instead gives back the store from before. *)
Theorem CTxDB_transaction (s : leveldb) (db : CTxDB) (ops : list record_op)
    (Hs : holds s db) (Hnone : activeBatch s = None) (Hops : Forall op_ok ops) :
  exists s0 st sc, TxnBegin s = Ok s0 /\ run_ops s0 ops = Ok st /\ TxnCommit st = Ok sc /\
    holds st (foldl spec_op db ops) /\ holds sc (foldl spec_op db ops) /\ TxnAbort st = s.
Proof.
  destruct (TxnBegin_holds s db Hs Hnone) as (s0 & H0 & Hs0 & Hb0 & Hp0).
  destruct (run_ops_refines ops s0 db Hs0 Hops) as (st & Hst & Hdb & Hb & Hp).
  destruct (TxnCommit_holds st _ Hdb) as (sc & Hsc & Hdbc & _); [by rewrite <-Hb|].
  exists s0, st, sc. split_and!; try done. unfold TxnAbort.
  rewrite Hp, Hp0, (holds_writable _ _ Hdb) by done. pose proof (holds_writable _ _ Hs). destruct s. cbn in *. by subst.
Qed.

Definition toy_store : leveldb := {| pdb := {[ named_key "hashBestChain" := write_uint 32 9 ]}; activeBatch := None; fReadOnly := false |}.
Definition toy_db : CTxDB := {| db_tx := ∅; db_hashBestChain := 9; db_blockindex := ∅ |}.
Definition toy_ops : list record_op :=
  [ OpUpdateTx 7 {| pos := null_pos; vSpent := [null_pos] |}; OpBestChain 12; OpEraseTx 7;
    OpBlockIndex {| d_index := null_index; d_hashPrev := 3; d_hashNext := 0 |} ].

Lemma toy_store_holds : holds toy_store toy_db.
Proof.
  apply holds_shows. split; [done|]. split.
  - intros h Hh. unfold Read_in. cbn [view activeBatch toy_store pdb]. by rewrite lookup_singleton_ne by (apply not_eq_sym; key_ne).
  - by vm_compute.
  - intros h Hh. unfold Read_in. cbn [view activeBatch toy_store pdb]. by rewrite lookup_singleton_ne by (apply not_eq_sym; key_ne).
Qed.

Lemma toy_ops_ok : Forall op_ok toy_ops.
Proof.
  unfold toy_ops. rewrite !Forall_cons. cbn [op_ok]. split_and!; try done.
  split; [done|]. split; [by apply List.Forall_cons|done].
Qed.

Lemma CTxDB_transaction_witness : exists s0 st sc, TxnBegin toy_store = Ok s0 /\ run_ops s0 toy_ops = Ok st /\ TxnCommit st = Ok sc /\
  holds st (foldl spec_op toy_db toy_ops) /\ holds sc (foldl spec_op toy_db toy_ops) /\ TxnAbort st = toy_store.
Proof. by apply (CTxDB_transaction toy_store toy_db toy_ops toy_store_holds eq_refl toy_ops_ok). Defined.
