(* ===== verification/ChainLoad.v ===== *)
(** * Loading the chain at startup: [CTxDB::LoadBlockIndex] of
    [txdb-leveldb.cpp] and [LoadBlockIndex] of [main.cpp]

    The records of blocks become the entries of [mapBlockIndex], the trust of
    each is summed up from its height, the best chain is found again and its
    last blocks are verified. *)

From stdpp Require Import sorting.
From S2P Require Import Prelude Opcode ScriptNum Script SigEncoding Interp LegacyInterp Serialize Transaction SigHash Bignum Chain TxConnect Merkle Proofs Stake Standard Policy Mempool Block ChainState.

Local Open Scope Z_scope.

(** ** The entries *)

(** [new CBlockIndex()] with its hash. *)
Definition empty_entry (hash : Z) : entry :=
  let b := null_index in
  {| e_index := {| bi_hash := hash; bi_nFile := bi_nFile b; bi_nBlockPos := bi_nBlockPos b; bi_nChainTrust := bi_nChainTrust b;
       bi_nHeight := bi_nHeight b; bi_nMint := bi_nMint b; bi_nMoneySupply := bi_nMoneySupply b; bi_nFlags := bi_nFlags b;
       bi_nStakeModifier := bi_nStakeModifier b; bi_bnStakeModifierV2 := bi_bnStakeModifierV2 b;
       bi_prevoutStake := bi_prevoutStake b; bi_nStakeTime := bi_nStakeTime b; bi_hashProof := bi_hashProof b;
       bi_nVersion := bi_nVersion b; bi_hashMerkleRoot := bi_hashMerkleRoot b; bi_nTime := bi_nTime b;
       bi_nBits := bi_nBits b; bi_nNonce := bi_nNonce b |};
     e_pprev := None; e_pnext := None |}.

(** [InsertBlockIndex] *)
Definition InsertBlockIndex (hash : Z) (m : block_map) : option Z * block_map :=
  if hash =? 0 then (None, m)
  else match m !! hash with
       | Some _ => (Some hash, m)
       | None => (Some hash, <[hash := empty_entry hash]> m)
       end.

(** The fields of a record with another hash and trust. *)
Definition with_hash_trust (hash trust : Z) (b : CBlockIndex) : CBlockIndex := {|
  bi_hash := hash; bi_nFile := bi_nFile b; bi_nBlockPos := bi_nBlockPos b; bi_nChainTrust := trust;
  bi_nHeight := bi_nHeight b; bi_nMint := bi_nMint b; bi_nMoneySupply := bi_nMoneySupply b; bi_nFlags := bi_nFlags b;
  bi_nStakeModifier := bi_nStakeModifier b; bi_bnStakeModifierV2 := bi_bnStakeModifierV2 b;
  bi_prevoutStake := bi_prevoutStake b; bi_nStakeTime := bi_nStakeTime b; bi_hashProof := bi_hashProof b;
  bi_nVersion := bi_nVersion b; bi_hashMerkleRoot := bi_hashMerkleRoot b; bi_nTime := bi_nTime b;
  bi_nBits := bi_nBits b; bi_nNonce := bi_nNonce b |}.

Record load_state := { ld_index : block_map; ld_seen : gset (COutPoint * Z); ld_genesis : option Z }.

(** The loop over the records, in the order of their keys.  A record of the
    null hash would be a null pointer. *)
Definition load_entry (hashGenesis : Z) (st : load_state) (d : CDiskBlockIndex) : outcome Z load_state :=
  let hash := bi_hash (d_index d) in
  match InsertBlockIndex hash (ld_index st) with
  | (None, _) => Crash
  | (Some _, m) =>
    let '(pprev, m) := InsertBlockIndex (d_hashPrev d) m in
    let '(pnext, m) := InsertBlockIndex (d_hashNext d) m in
    let index := with_hash_trust hash (trust_of m hash) (d_index d) in
    mret {| ld_index := <[hash := {| e_index := index; e_pprev := pprev; e_pnext := pnext |}]> m;
            ld_seen := if index_IsProofOfStake index then {[ (bi_prevoutStake index, bi_nStakeTime index) ]} ∪ ld_seen st
                       else ld_seen st;
            ld_genesis := if bool_decide (ld_genesis st = None) && (hash =? hashGenesis) then Some hash else ld_genesis st |}
  end.

Fixpoint load_entries (hashGenesis : Z) (st : load_state) (records : list CDiskBlockIndex) : outcome Z load_state :=
  match records with
  | [] => mret st
  | d :: records => st ← load_entry hashGenesis st d; load_entries hashGenesis st records
  end.

(** The blocks by height; those of one height in any order. *)
Definition lower (m : block_map) (h k : Z) : Prop := height_of m h <= height_of m k.
#[export] Instance lower_dec m h k : Decision (lower m h k).
Proof. unfold lower. apply _. Defined.
Definition sorted_by_height (m : block_map) : list Z := merge_sort (lower m) (map_to_list m).*1.

(** [pindex->nChainTrust = (pprev ? pprev->nChainTrust : 0) + GetBlockTrust()] *)
Definition set_trust (m : block_map) (h : Z) : block_map :=
  let prev := match pprev_of m h with Some p => trust_of m p | None => 0 end in
  alter (fun e => with_index (with_hash_trust (bi_hash (e_index e))
           ((prev + GetBlockTrust (bi_nBits (e_index e))) mod 2 ^ 256) (e_index e)) e) h m.

Definition sum_trusts (m : block_map) : block_map := foldl set_trust m (sorted_by_height m).

Section load.
Context {SH : ScriptHashes} {EC : ECDSA}.
Variable ext : check_env.
Variable ReadTxFromDisk : CDiskTxPos -> option CTransaction.
Variables (nCoinbaseMaturity nTotalBlocksEstimate hashGenesis : Z).
Variables (TestNet : bool) (rate_limited fStashed : CTransaction -> bool).

(** ** Verifying the last blocks *)

(** Whether any element is bad, all of them looked at. *)
Fixpoint any_bad {A} (bad : A -> outcome Z bool) (l : list A) : outcome Z bool :=
  match l with [] => mret false | a :: l => b ← bad a; bs ← any_bad bad l; mret (b || bs) end.

Definition is_bad (m : outcome Z unit) : outcome Z bool :=
  match m with Ok _ => Ok false | Err _ => Ok true | Throw => Throw | Crash => Crash end.

(** Levels 4 and 6: a spent output of the transaction. *)
Definition bad_spend (nCheckLevel : Z) (mapBlockPos : gset (Z * Z)) (hashTx : Z) (spent : nat * CDiskTxPos) : outcome Z bool :=
  let '(nOutput, txpos) := spent in
  if pos_IsNull txpos then mret false
  else
    let unknown := bool_decide ((nFile txpos, nBlockPos txpos) ∉ mapBlockPos) in
    if 5 <? nCheckLevel then
      match ReadTxFromDisk txpos with
      | None => mret true
      | Some txSpend =>
        bad ← is_bad (CheckTransaction txSpend);
        mret (unknown || bad || negb (existsb (fun i => bool_decide (prevout i = {| prevout_hash := hashTx; prevout_n := Z.of_nat nOutput |}))
                                        (vin txSpend)))
      end
    else mret unknown.

(** Level 5: an input must spend a marked output. *)
Definition bad_prevout (db : tx_db) (i : CTxIn) : outcome Z bool :=
  match db !! prevout_hash (prevout i) with
  | None => mret false
  | Some txindex =>
    if to_u64 (zlen (vSpent txindex) - 1) <? prevout_n (prevout i) then mret true
    else match vSpent txindex !! Z.to_nat (prevout_n (prevout i)) with
         | None => Crash
         | Some p => mret (pos_IsNull p)
         end
  end.

(** Levels 2 to 6 of a transaction of a block at [pos]. *)
Definition bad_tx (nCheckLevel : Z) (db : tx_db) (mapBlockPos : gset (Z * Z)) (file blockPos : Z) (tx : CTransaction) : outcome Z bool :=
  let hashTx := tx_GetHash tx in
  b ← match db !! hashTx with
      | None => mret false
      | Some txindex =>
        let misplaced :=
          if (2 <? nCheckLevel) || negb (file =? nFile (pos txindex)) || negb (blockPos =? nBlockPos (pos txindex)) then
            match ReadTxFromDisk (pos txindex) with
            | None => true
            | Some txFound => negb (tx_GetHash txFound =? hashTx)
            end
          else false in
        spends ← (if 3 <? nCheckLevel then any_bad (bad_spend nCheckLevel mapBlockPos hashTx) (imap pair (vSpent txindex))
                  else mret false);
        mret (misplaced || spends)
      end;
  prevouts ← (if 4 <? nCheckLevel then any_bad (bad_prevout db) (vin tx) else mret false);
  mret (b || prevouts).

(** The walk down the best chain: the last bad block's previous one. *)
Fixpoint verify_loop (s : node) (nCheckLevel nCheckDepth : Z) (fuel : nat) (h : Z) (mapBlockPos : gset (Z * Z)) (pindexFork : option Z)
    : outcome Z (option Z) :=
  match fuel with
  | O => Crash
  | S fuel =>
    match pprev_of (mapBlockIndex s) h with
    | None => mret pindexFork
    | Some p =>
      let pindex := index_at (mapBlockIndex s) h in
      if bi_nHeight pindex <? nBestHeight s - nCheckDepth then mret pindexFork
      else
        block ← ReadFromDisk ext s h;
        bad ← (if 0 <? nCheckLevel then is_bad (CheckBlock (env_of ext s) block true true (6 <? nCheckLevel)) else mret false);
        let mapBlockPos := if 1 <? nCheckLevel then {[ (bi_nFile pindex, bi_nBlockPos pindex) ]} ∪ mapBlockPos else mapBlockPos in
        bads ← (if 1 <? nCheckLevel then
                  any_bad (bad_tx nCheckLevel (db_tx (database s)) mapBlockPos (bi_nFile pindex) (bi_nBlockPos pindex)) (vtx block)
                else mret false);
        verify_loop s nCheckLevel nCheckDepth fuel p mapBlockPos (if bad || bads then Some p else pindexFork)
    end
  end.

Definition check_depth (s : node) (nCheckDepth : Z) : Z :=
  Z.min (nBestHeight s) (if nCheckDepth =? 0 then 1000000000 else nCheckDepth).

Definition verify (s : node) (nCheckLevel nCheckDepth : Z) : outcome Z (option Z) :=
  match g_pindexBest s with
  | None => mret None
  | Some best => verify_loop s nCheckLevel (check_depth s nCheckDepth) (S (size (mapBlockIndex s))) best ∅ None
  end.

(** ** [CTxDB::LoadBlockIndex] *)

(** The globals after the index is in memory. *)
Definition set_loaded (m : block_map) (st : load_state) (s : node) : node := {|
  mapBlockIndex := m; setStakeSeen := ld_seen st; pindexGenesisBlock := ld_genesis st; g_pindexBest := g_pindexBest s;
  hashBestChain := hashBestChain s; nBestHeight := nBestHeight s; nBestChainTrust := nBestChainTrust s;
  nBestInvalidTrust := nBestInvalidTrust s; database := database s; block_files := block_files s; g_mempool := g_mempool s |}.

Definition set_loaded_hash (hash : Z) (s : node) : node := {|
  mapBlockIndex := mapBlockIndex s; setStakeSeen := setStakeSeen s; pindexGenesisBlock := pindexGenesisBlock s;
  g_pindexBest := g_pindexBest s; hashBestChain := hash; nBestHeight := nBestHeight s; nBestChainTrust := nBestChainTrust s;
  nBestInvalidTrust := nBestInvalidTrust s; database := database s; block_files := block_files s; g_mempool := g_mempool s |}.

Definition set_loaded_best (hash : Z) (invalid : Z) (s : node) : node := {|
  mapBlockIndex := mapBlockIndex s; setStakeSeen := setStakeSeen s; pindexGenesisBlock := pindexGenesisBlock s;
  g_pindexBest := Some hash; hashBestChain := hash; nBestHeight := height_of (mapBlockIndex s) hash;
  nBestChainTrust := trust_of (mapBlockIndex s) hash; nBestInvalidTrust := invalid;
  database := database s; block_files := block_files s; g_mempool := g_mempool s |}.

(** The index, the best chain and the invalid trust; [Ok false] without a best
    chain, when there is no genesis block either. *)
Definition load_chain (records : list CDiskBlockIndex) (best invalid : option Z) (s : node) : node * outcome Z bool :=
  run s (load_entries hashGenesis {| ld_index := ∅; ld_seen := setStakeSeen s; ld_genesis := pindexGenesisBlock s |} records) (fun st =>
  let s := set_loaded (sum_trusts (ld_index st)) st s in
  match best with
  | None => (s, if bool_decide (pindexGenesisBlock s = None) then Ok false else Err 0)
  | Some hash =>
    if bool_decide (is_Some (mapBlockIndex s !! hash)) then (set_loaded_best hash (default 0 invalid) s, Ok true)
    else (set_loaded_hash hash s, Err 0)
  end).

(** [records] are the block index records in the order of their keys, [best]
    and [invalid] what the database has of the other two. *)
Definition CTxDB_LoadBlockIndex (nCheckLevel nCheckDepth : Z) (records : list CDiskBlockIndex) (best invalid : option Z) (s : node)
    : node * outcome Z unit :=
  if (0 <? size (mapBlockIndex s))%nat then (s, Ok tt)
  else
    match load_chain records best invalid s with
    | (s, Ok false) => (s, Ok tt)
    | (s, Ok true) =>
      run s (verify s nCheckLevel nCheckDepth) (fun pindexFork =>
      match pindexFork with
      | None => (s, Ok tt)
      | Some h =>
        run s (ReadFromDisk ext s h) (fun block =>
        let '(s, r) := SetBestChain ext ReadTxFromDisk nCoinbaseMaturity nTotalBlocksEstimate hashGenesis TestNet rate_limited fStashed s block h in
        match r with Ok _ | Err _ => (s, Ok tt) | Throw => (s, Throw) | Crash => (s, Crash) end)
      end)
    | (s, r) => run s r (fun _ => (s, Ok tt))
    end.

(** [LoadBlockIndex]: [pos] is where the genesis block is written, if it can be. *)
Definition LoadBlockIndex (fAllowNew : bool) (nCheckLevel nCheckDepth : Z) (records : list CDiskBlockIndex) (best invalid : option Z)
    (genesis : CBlock) (pos : option (Z * Z)) (s : node) : node * outcome Z unit :=
  let '(s, r) := CTxDB_LoadBlockIndex nCheckLevel nCheckDepth records best invalid s in
  run s r (fun _ =>
  if (0 <? size (mapBlockIndex s))%nat then (s, Ok tt)
  else if negb fAllowNew then (s, Err 0)
  else match pos with
       | None => (s, Err 0)
       | Some pos =>
         let '(s, r) := AddToBlockIndex ext ReadTxFromDisk nCoinbaseMaturity nTotalBlocksEstimate hashGenesis TestNet rate_limited fStashed
                          (write_block pos genesis s) genesis (fst pos) (snd pos) hashGenesis in
         run s (no_score r) (fun _ => (s, Ok tt))
       end).
End load.
