(* ===== verification/ChainLoadProps.v ===== *)
(** * Loading restores the chain

    Starting from the records of a consistent node, [LoadBlockIndex] finds the
    same tree, links, trusts and best block. *)

From stdpp Require Import sorting.
From S2P Require Import Prelude Opcode ScriptNum Script SigEncoding Interp LegacyInterp Serialize Transaction SigHash Bignum Chain TxConnect Merkle Proofs Stake Standard Policy Mempool Block ChainState ChainTree ChainLinks Reorg ChainStateProps NodeProps ChainLoad.

Local Open Scope Z_scope.

(** ** Reading the records *)

(** The pointer to the entry of a hash. *)
Definition ptr (hash : Z) : option Z := if hash =? 0 then None else Some hash.

Lemma ptr_Some h : h <> 0 -> ptr h = Some h.
Proof. unfold ptr. destruct (Z.eqb_spec h 0); [done|]. done. Qed.

(** [m'] has the entries of [m] and some empty ones for the hashes in [new]. *)
Definition grows (new : Z -> Prop) (m m' : block_map) : Prop :=
  forall x, m' !! x = m !! x \/ (m !! x = None /\ m' !! x = Some (empty_entry x) /\ new x).

Lemma grows_trans (P Q R : Z -> Prop) m1 m2 m3 : grows P m1 m2 -> grows Q m2 m3 ->
  (forall x, P x -> R x) -> (forall x, Q x -> R x) -> grows R m1 m3.
Proof.
  intros H12 H23 HP HQ x. destruct (H12 x) as [E|(E1 & E2 & Hp)], (H23 x) as [F|(F1 & F2 & Hq)].
  - left. congruence.
  - right. split_and!; [congruence|done|auto].
  - right. split_and!; [done|congruence|auto].
  - congruence.
Qed.

Lemma InsertBlockIndex_grows h m : exists m', InsertBlockIndex h m = (ptr h, m') /\ grows (fun x => x = h /\ h <> 0) m m' /\
  (h <> 0 -> is_Some (m' !! h)).
Proof.
  unfold InsertBlockIndex, ptr. destruct (Z.eqb_spec h 0) as [->|Hh]; [exists m; split_and!; [done|by left|done]|].
  destruct (m !! h) as [e|] eqn:E; eexists; (split_and!; [done| |]).
  - by left.
  - by eexists.
  - intros x. destruct (decide (x = h)) as [->|?]; [right; by rewrite lookup_insert_eq|left; by rewrite lookup_insert_ne].
  - intros _. by rewrite lookup_insert_eq.
Qed.

(** The entry a record becomes, before the trusts are known. *)
Definition raw (d : CDiskBlockIndex) : entry := {|
  e_index := with_hash_trust (bi_hash (d_index d)) 0 (d_index d); e_pprev := ptr (d_hashPrev d); e_pnext := ptr (d_hashNext d) |}.

Definition rec_hash (d : CDiskBlockIndex) : Z := bi_hash (d_index d).
Definition stake_of (d : CDiskBlockIndex) : COutPoint * Z := (bi_prevoutStake (d_index d), bi_nStakeTime (d_index d)).
Definition mentions (d : CDiskBlockIndex) (x : Z) : Prop := (x = d_hashPrev d \/ x = d_hashNext d) /\ x <> 0.

(** Not loaded yet. *)
Definition fresh (m : block_map) (x : Z) : Prop := m !! x = None \/ m !! x = Some (empty_entry x).

Lemma fresh_trust m x : fresh m x -> trust_of m x = 0.
Proof. unfold trust_of, index_at. by intros [-> | ->]. Qed.

Lemma fresh_grows P m m' x : grows P m m' -> fresh m x -> fresh m' x.
Proof. intros H Hx. destruct (H x) as [E|(_ & E & _)]; unfold fresh; rewrite E; auto. Qed.

Lemma load_entry_spec g st d : rec_hash d <> 0 -> fresh (ld_index st) (rec_hash d) ->
  exists st', load_entry g st d = Ok st' /\ ld_index st' !! rec_hash d = Some (raw d) /\
    (forall x, x <> rec_hash d -> ld_index st' !! x = ld_index st !! x \/
       (ld_index st !! x = None /\ ld_index st' !! x = Some (empty_entry x) /\ mentions d x)) /\
    (forall p, p ∈ ld_seen st' <-> p ∈ ld_seen st \/ (index_IsProofOfStake (d_index d) = true /\ p = stake_of d)) /\
    ld_genesis st' = (if bool_decide (ld_genesis st = None) && (rec_hash d =? g) then Some (rec_hash d) else ld_genesis st).
Proof.
  intros Hd Hf. unfold load_entry. fold (rec_hash d).
  destruct (InsertBlockIndex_grows (rec_hash d) (ld_index st)) as (m1 & -> & H1 & _).
  destruct (InsertBlockIndex_grows (d_hashPrev d) m1) as (m2 & E2 & H2 & _).
  destruct (InsertBlockIndex_grows (d_hashNext d) m2) as (m3 & E3 & H3 & _).
  rewrite (ptr_Some _ Hd), E2, E3.
  rewrite (fresh_trust m3) by (eapply fresh_grows; [exact H3|]; eapply fresh_grows; [exact H2|]; by eapply fresh_grows).
  assert (grows (mentions d) m1 m3) as H13.
  { eapply grows_trans; [exact H2|exact H3|..]; unfold mentions; intros x [-> ?]; auto. }
  eexists. split; [done|]. cbn [ld_index ld_seen ld_genesis]. split_and!; [by rewrite lookup_insert_eq| | |done].
  - intros x Hx. rewrite lookup_insert_ne by done. destruct (H13 x) as [->|(? & ? & ?)], (H1 x) as [E|(? & ? & ? & _)];
      first [done|by left|right; split_and!; congruence].
  - intros p. change (index_IsProofOfStake (with_hash_trust _ _ _)) with (index_IsProofOfStake (d_index d)).
    destruct (index_IsProofOfStake (d_index d)); [rewrite elem_of_union, elem_of_singleton|]; naive_solver.
Qed.

Lemma load_entries_spec g ds st : NoDup (map rec_hash ds) -> Forall (fun d => rec_hash d <> 0 /\ fresh (ld_index st) (rec_hash d)) ds ->
  exists st', load_entries g st ds = Ok st' /\
    (forall d, d ∈ ds -> ld_index st' !! rec_hash d = Some (raw d)) /\
    (forall x, x ∉ map rec_hash ds -> ld_index st' !! x = ld_index st !! x \/
       (ld_index st !! x = None /\ ld_index st' !! x = Some (empty_entry x) /\ exists d, d ∈ ds /\ mentions d x)) /\
    (forall p, p ∈ ld_seen st' <-> p ∈ ld_seen st \/ exists d, d ∈ ds /\ index_IsProofOfStake (d_index d) = true /\ p = stake_of d) /\
    (ld_genesis st = Some g \/ (ld_genesis st = None /\ g ∈ map rec_hash ds) -> ld_genesis st' = Some g).
Proof.
  revert st. induction ds as [|d ds IH]; intros st Hnd Hok; cbn [map load_entries] in *.
  { exists st. split_and!; [done|by intros ? ?%elem_of_nil|by left| |].
    - intros p. split; [by left|]. intros [?|(d & ?%elem_of_nil & _)]; done.
    - by intros [?|[_ ?%elem_of_nil]]. }
  apply NoDup_cons in Hnd as [Hd Hnd]. apply Forall_cons in Hok as [[H0 Hf] Hok].
  destruct (load_entry_spec g st d H0 Hf) as (st1 & -> & Hraw & Hrest & Hseen & Hgen). cbn [mbind outcome_bind].
  destruct (IH st1 Hnd) as (st' & -> & Hraw' & Hrest' & Hseen' & Hgen').
  { apply Forall_forall. intros d' Hd'. rewrite Forall_forall in Hok. destruct (Hok d' Hd') as [? Hf']. split; [done|].
    destruct (Hrest (rec_hash d')) as [E|(_ & E & _)]; unfold fresh; rewrite ?E; [|done|by right].
    intros E. apply Hd. rewrite <-E. by apply (list_elem_of_fmap_2 rec_hash). }
  exists st'. split_and!; [done|..].
  - intros d' [->|Hd']%elem_of_cons; [|by apply Hraw']. destruct (Hrest' (rec_hash d) Hd) as [->|(? & _)]; congruence.
  - intros x [Hx Hx']%not_elem_of_cons. destruct (Hrest' x Hx') as [->|(E & E' & d' & ? & ?)], (Hrest x Hx) as [F|(F & F' & Hm)].
    + by left.
    + right. split_and!; [done|done|]. exists d. split; [by left|done].
    + right. split_and!; [congruence|done|]. exists d'. split; [by right|done].
    + congruence.
  - intros p. rewrite Hseen', Hseen. setoid_rewrite elem_of_cons. clear -Hseen. naive_solver.
  - intros Hg. apply Hgen'. rewrite Hgen. destruct Hg as [Hg|[Hg Hin]].
    + left. by rewrite Hg.
    + rewrite Hg. destruct (Z.eqb_spec (rec_hash d) g) as [->|Hne]; [by left|]. right. split; [done|].
      apply elem_of_cons in Hin as [?|?]; [by subst|done].
Qed.

(** ** Summing up the trusts *)

(** Every entry's trust is its previous one's and its own, modulo 2^256. *)
Definition prev_trust (t : Z -> Z) (e : entry) : Z := match e_pprev e with Some p => t p | None => 0 end.
Definition trusts (t : Z -> Z) (m : block_map) : Prop :=
  forall x e, m !! x = Some e -> t x = (prev_trust t e + GetBlockTrust (bi_nBits (e_index e))) mod 2 ^ 256.

Definition entry_with_trust (t : Z) (e : entry) : entry :=
  with_index (with_hash_trust (bi_hash (e_index e)) t (e_index e)) e.

(** The blocks in [l] have their trust. *)
Definition summed (t : Z -> Z) (m : block_map) (l : list Z) (m' : block_map) : Prop :=
  forall x, m' !! x = if decide (x ∈ l) then entry_with_trust (t x) <$> m !! x else m !! x.

Lemma summed_step t m l m' h : trusts t m -> summed t m l m' -> h ∉ l -> (forall p, pprev_of m h = Some p -> p ∈ l /\ is_Some (m !! p)) ->
  summed t m (l ++ [h]) (set_trust m' h).
Proof.
  intros Ht Hs Hh Hp x. unfold set_trust.
  assert (m' !! h = m !! h) as Ehh by (rewrite Hs; by case_decide).
  destruct (decide (x = h)) as [->|Hx].
  - rewrite lookup_alter_eq, decide_True, Ehh by (apply elem_of_app; right; by left). destruct (m !! h) as [e|] eqn:He; [|done]. cbn. f_equal.
    unfold entry_with_trust. do 2 f_equal. rewrite (Ht h e He). do 2 f_equal. unfold pprev_of, prev_trust. rewrite Ehh. cbn.
    destruct (e_pprev e) as [p|] eqn:Ep; [|done]. destruct (Hp p) as [Hin [ep Hep]]; [unfold pprev_of; by rewrite He|].
    unfold trust_of, index_at. rewrite Hs, decide_True, Hep by done. done.
  - rewrite lookup_alter_ne, Hs by done. assert (x ∈ l ++ [h] <-> x ∈ l) as E by (rewrite elem_of_app, list_elem_of_singleton; naive_solver).
    by rewrite (decide_ext _ _ _ _ E).
Qed.

#[export] Instance lower_trans m : Transitive (lower m).
Proof. unfold lower. intros ???. lia. Qed.
#[export] Instance lower_total m : Total (lower m).
Proof. unfold lower. intros h k. lia. Qed.

Lemma sorted_by_height_elem m x : x ∈ sorted_by_height m <-> is_Some (m !! x).
Proof.
  unfold sorted_by_height. rewrite (merge_sort_Permutation (lower m)), list_elem_of_fmap. split.
  - intros ([k e] & -> & H%elem_of_map_to_list). by exists e.
  - intros [e He]. exists (x, e). split; [done|by apply elem_of_map_to_list].
Qed.

(** An entry comes after its previous one. *)
Lemma sorted_prev g m l1 h l2 p : index_ok g m -> sorted_by_height m = l1 ++ h :: l2 -> pprev_of m h = Some p ->
  p ∈ l1 /\ is_Some (m !! p).
Proof.
  intros Hm El Hp. assert (is_Some (m !! h)) as Hh by (apply sorted_by_height_elem; rewrite El; set_solver).
  destruct (pprev_of_height Hm h p Hh Hp) as [Hps Hheight]. split; [|done].
  pose proof (StronglySorted_merge_sort (lower m) (map_to_list m).*1) as Hsort.
  change (merge_sort _ _) with (sorted_by_height m) in Hsort. rewrite El in Hsort.
  apply sorted_by_height_elem in Hps. rewrite El in Hps.
  apply elem_of_app in Hps as [?|[->|Hin]%elem_of_cons]; [done|lia|].
  apply StronglySorted_app_1_r, StronglySorted_inv in Hsort as [_ Hall]. rewrite Forall_forall in Hall.
  apply Hall in Hin. unfold lower in Hin. lia.
Qed.

Lemma sum_trusts_spec g t m : index_ok g m -> trusts t m -> forall x, sum_trusts m !! x = entry_with_trust (t x) <$> m !! x.
Proof.
  intros Hm Ht. assert (summed t m (sorted_by_height m) (sum_trusts m)) as Hs.
  { unfold sum_trusts. pose proof (fun l1 h l2 p => sorted_prev g m l1 h l2 p Hm) as Hprev.
    assert (NoDup (sorted_by_height m)) as Hnd.
    { unfold sorted_by_height. rewrite (merge_sort_Permutation (lower m)). apply NoDup_fst_map_to_list. }
    revert Hprev Hnd. generalize (sorted_by_height m). intros l. induction l as [|h l IH] using rev_ind; intros Hprev Hnd.
    { intros x. by rewrite decide_False by apply not_elem_of_nil. }
    rewrite foldl_snoc. apply NoDup_app in Hnd as (Hnd & Hdis & _). apply summed_step; [done|apply IH; [|done]| |].
    - intros l1 k l2 p E. apply (Hprev l1 k (l2 ++ [h])). by rewrite E, <-app_assoc.
    - intros Hin. apply (Hdis h Hin). by left.
    - intros p Hp. by apply (Hprev l h [] p). }
  intros x. rewrite Hs. case_decide as Hx; [done|]. rewrite sorted_by_height_elem in Hx. apply eq_None_not_Some in Hx. by rewrite Hx.
Qed.

(** ** The loaded index *)

Lemma path_root_entry m p hs : is_path m p hs -> p <> None -> exists x e, m !! x = Some e /\ e_pprev e = None.
Proof.
  induction 1 as [|h e hs He _ IH]; [done|]. intros _. destruct (e_pprev e) as [q|] eqn:Eq; [by apply IH|]. by exists h, e.
Qed.

Section loaded.
Context {SH : ScriptHashes} {EC : ECDSA}.
Variable ext : check_env.
Variable ReadTxFromDisk : CDiskTxPos -> option CTransaction.
Variables (nCoinbaseMaturity hashGenesis : Z).

(** The node whose records are read. *)
Variables (s : node) (tip : Z) (hs : list Z).
Hypothesis Hok : node_ok ext ReadTxFromDisk nCoinbaseMaturity hashGenesis s tip hs.
Hypothesis Htrusts : trusts (trust_of (mapBlockIndex s)) (mapBlockIndex s).
Hypothesis Hnull : mapBlockIndex s !! 0 = None.
Hypothesis Hdom : forall x, is_Some (db_blockindex (database s) !! x) -> is_Some (mapBlockIndex s !! x).
Variable records : list CDiskBlockIndex.
Hypothesis Hrecords : records ≡ₚ (map_to_list (db_blockindex (database s))).*2.

Abbreviation m := (mapBlockIndex s).
Abbreviation db := (db_blockindex (database s)).

Lemma source_index : index_ok hashGenesis m.
Proof using Hok. by destruct Hok. Qed.
Lemma source_disk : disk_ok m (database s) hs.
Proof using Hok. by destruct Hok as [_ _ []]. Qed.
Lemma source_path : is_path m (Some tip) hs.
Proof using Hok. by destruct Hok as [_ _ []]. Qed.
Lemma source_links : links m hs.
Proof using Hok. by destruct Hok as [_ _ []]. Qed.

Lemma record_of x d : db !! x = Some d -> exists e, m !! x = Some e /\ record_ok e x hs d /\ rec_hash d = x /\ x <> 0.
Proof using Hok Hnull Hdom.
  intros Hd. destruct (Hdom x) as [e He]; [by eexists|].
  destruct (source_disk x e He) as (d' & Hd' & Hr). assert (d' = d) as -> by congruence.
  exists e. split_and!; [done|done| |congruence]. destruct Hr as (_ & Hs & _).
  apply erase_supply_fields in Hs as (Hh & _). unfold rec_hash. rewrite Hh. by apply (io_hash _ _ source_index).
Qed.

Lemma elem_of_records d : d ∈ records <-> db !! rec_hash d = Some d.
Proof using Hok Hnull Hdom Hrecords.
  rewrite Hrecords, list_elem_of_fmap. split.
  - intros ([x d'] & -> & Hd%elem_of_map_to_list). cbn. destruct (record_of x d' Hd) as (_ & _ & _ & -> & _). done.
  - intros Hd. exists (rec_hash d, d). split; [done|by apply elem_of_map_to_list].
Qed.

Lemma records_NoDup : NoDup (map rec_hash records).
Proof using Hok Hnull Hdom Hrecords.
  rewrite (fmap_Permutation rec_hash _ _ Hrecords). rewrite <-list_fmap_compose.
  assert ((rec_hash ∘ snd) <$> map_to_list db = (map_to_list db).*1) as ->; [|apply NoDup_fst_map_to_list].
  apply list_fmap_ext. intros i [x d] Hi. cbn. apply list_elem_of_lookup_2, elem_of_map_to_list in Hi.
  by destruct (record_of x d Hi) as (_ & _ & _ & -> & _).
Qed.

Lemma elem_of_hashes x : x ∈ map rec_hash records <-> is_Some (m !! x).
Proof using Hok Hnull Hdom Hrecords.
  rewrite list_elem_of_fmap. split.
  - intros (d & -> & Hd%elem_of_records). by destruct (record_of _ d Hd) as (e & He & _); exists e.
  - intros [e He]. destruct (source_disk x e He) as (d & Hd & _).
    destruct (record_of x d Hd) as (_ & _ & _ & <- & _). exists d. split; [done|by apply elem_of_records].
Qed.

(** Pointers of the record are those of the entry. *)
Lemma record_pprev e x d : m !! x = Some e -> record_ok e x hs d -> ptr (d_hashPrev d) = e_pprev e.
Proof using Hok Hnull.
  intros He (-> & _). destruct (e_pprev e) as [p|] eqn:Ep; [|done]. apply ptr_Some. cbn. intros ->.
  destruct (io_prev _ _ source_index x e 0 He Ep) as (ep & ? & _). congruence.
Qed.

Lemma record_pnext e x d : m !! x = Some e -> record_ok e x hs d -> ptr (d_hashNext d) = e_pnext e.
Proof using Hok Hnull.
  intros He (_ & _ & Hnext & Hnone). pose proof source_links as Hl.
  assert (pnext_of m x = e_pnext e) as Ex by (unfold pnext_of; by rewrite He).
  destruct (e_pnext e) as [n|] eqn:En.
  - apply Hl in Ex. rewrite (Hnext n Ex). apply ptr_Some. intros ->. apply consecutive_elem in Ex as [Hin _].
    pose proof (path_heights source_index _ _ source_path) as Hall. rewrite Forall_forall in Hall.
    destruct (Hall 0 Hin) as [[? ?] _]. congruence.
  - rewrite Hnone; [done|]. intros n Hn. apply Hl in Hn. congruence.
Qed.

Lemma elem_of_chain x : x ∈ hs -> is_Some (m !! x).
Proof using Hok.
  intros Hin. pose proof (path_heights source_index _ _ source_path) as Hall. rewrite Forall_forall in Hall. by apply Hall.
Qed.

(** A record mentions entries only. *)
Lemma mentions_entry d x : d ∈ records -> mentions d x -> is_Some (m !! x).
Proof using Hok Hnull Hdom Hrecords.
  intros Hd%elem_of_records [Hx H0]. destruct (record_of _ d Hd) as (e & He & Hr & _). apply ptr_Some in H0.
  destruct Hx as [-> | ->].
  - rewrite (record_pprev e _ d He Hr) in H0. destruct (io_prev _ _ source_index _ e _ He H0) as (ep & Hep & _). by exists ep.
  - rewrite (record_pnext e _ d He Hr) in H0. apply elem_of_chain.
    assert (pnext_of m (rec_hash d) = Some (d_hashNext d)) as Hn by (unfold pnext_of; by rewrite He).
    apply source_links, consecutive_elem in Hn. tauto.
Qed.

(** What the loop over the records makes. *)
Record loaded (st : load_state) : Prop := {
  loaded_entry x e : m !! x = Some e -> exists d, db !! x = Some d /\ record_ok e x hs d /\ rec_hash d = x /\ ld_index st !! x = Some (raw d);
  loaded_none x : m !! x = None -> ld_index st !! x = None;
}.

Lemma records_load seen : exists st, load_entries hashGenesis {| ld_index := ∅; ld_seen := seen; ld_genesis := None |} records = Ok st /\
  loaded st /\ ld_genesis st = Some hashGenesis /\
  (forall p, p ∈ ld_seen st <-> p ∈ seen \/ exists d, d ∈ records /\ index_IsProofOfStake (d_index d) = true /\ p = stake_of d).
Proof using Hok Hnull Hdom Hrecords.
  destruct (load_entries_spec hashGenesis records {| ld_index := ∅; ld_seen := seen; ld_genesis := None |} records_NoDup)
    as (st & Hst & Hraw & Hrest & Hseen & Hgen).
  { apply Forall_forall. intros d Hd. split; [|by left]. apply elem_of_records in Hd. by destruct (record_of _ d Hd) as (_ & _ & _ & _ & ?). }
  exists st. split_and!; [done| | |done].
  - split.
    + intros x e He. destruct (source_disk x e He) as (d & Hd & Hr). destruct (record_of x d Hd) as (_ & _ & _ & Hx & _).
      exists d. split_and!; [done..|]. rewrite <-Hx. apply Hraw. apply elem_of_records. by rewrite Hx.
    + intros x Hx. destruct (Hrest x) as [->|(_ & _ & d & Hd & Hm)]; [|done|].
      * intros [e He]%elem_of_hashes. congruence.
      * destruct (mentions_entry d x Hd Hm). congruence.
  - apply Hgen. right. split; [done|]. apply elem_of_hashes.
    destruct (path_root_entry _ _ _ source_path) as (x & e & He & Hroot); [done|].
    destruct (io_root _ _ source_index x e He Hroot) as [<- _]. by exists e.
Qed.

Section index.
Variable st : load_state.
Hypothesis Hst : loaded st.

Lemma loaded_index_ok : index_ok hashGenesis (ld_index st).
Proof using Hok Hnull Hst.
  assert (forall x e', ld_index st !! x = Some e' -> exists e, m !! x = Some e /\ bi_hash (e_index e') = x /\
            e_pprev e' = e_pprev e /\ bi_nHeight (e_index e') = bi_nHeight (e_index e)) as Hback.
  { intros x e' He'. destruct (m !! x) as [e|] eqn:He; [|rewrite (loaded_none _ Hst x He) in He'; done].
    destruct (loaded_entry _ Hst x e He) as (d & _ & Hr & Hx & E). assert (e' = raw d) as -> by congruence. exists e. split_and!; [done|done| |].
    - by apply (record_pprev e x d).
    - destruct Hr as (_ & Hs & _). by apply erase_supply_fields in Hs as (_ & _ & _ & _ & ?). }
  split.
  - intros x e' He'. by destruct (Hback x e' He') as (e & _ & ? & _).
  - intros x e' He' Hn. destruct (Hback x e' He') as (e & He & _ & Hp & ->). apply (io_root _ _ source_index x e He). congruence.
  - intros x e' p He' Hn. destruct (Hback x e' He') as (e & He & _ & Hp & ->).
    destruct (io_prev _ _ source_index x e p He) as (ep & Hep & Hh); [congruence|].
    destruct (loaded_entry _ Hst p ep Hep) as (d & _ & (_ & Hs & _) & _ & E). exists (raw d). split; [done|].
    apply erase_supply_fields in Hs as (_ & _ & _ & _ & Hs). cbn. by rewrite Hs.
  - intros x e' He'. destruct (Hback x e' He') as (e & He & _ & _ & ->). by apply (io_height _ _ source_index x e).
Qed.

Lemma loaded_trusts : trusts (trust_of m) (ld_index st).
Proof using Hok Htrusts Hnull Hst.
  intros x e' He'. destruct (m !! x) as [e|] eqn:He; [|rewrite (loaded_none _ Hst x He) in He'; done].
  destruct (loaded_entry _ Hst x e He) as (d & _ & Hr & Hx & E). assert (e' = raw d) as -> by congruence.
  rewrite (Htrusts x e He). unfold prev_trust. cbn. rewrite (record_pprev e x d He Hr). destruct Hr as (_ & Hs & _).
  apply (f_equal bi_nBits) in Hs. cbn in Hs. by rewrite Hs.
Qed.

(** The entry with its trust, against the source. *)
Lemma summed_entry x e : m !! x = Some e -> exists e', sum_trusts (ld_index st) !! x = Some e' /\
  erase_supply (e_index e') = erase_supply (e_index e) /\ e_pprev e' = e_pprev e /\ e_pnext e' = e_pnext e.
Proof using Hok Htrusts Hnull Hst.
  intros He. destruct (loaded_entry _ Hst x e He) as (d & _ & Hr & Hx & E).
  rewrite (sum_trusts_spec hashGenesis (trust_of m)) by first [apply loaded_index_ok|apply loaded_trusts].
  rewrite E. eexists. split; [done|]. cbn [entry_with_trust with_index raw e_index e_pprev e_pnext].
  split_and!; [|by apply (record_pprev e x d)|by apply (record_pnext e x d)].
  destruct Hr as (_ & Hs & _). change (with_hash_trust _ (trust_of m x) _) with (with_hash_trust (rec_hash d) (trust_of m x) (d_index d)).
  change (erase_supply (with_hash_trust ?h ?t ?b)) with (with_hash_trust h t (erase_supply b)).
  rewrite Hs, Hx. unfold trust_of, index_at. rewrite He. cbn [from_option]. rewrite <-(io_hash _ _ source_index x e He). done.
Qed.

Lemma summed_same_tree : same_tree m (sum_trusts (ld_index st)).
Proof using Hok Htrusts Hnull Hst.
  unfold same_tree, tree_of. apply map_eq. intros x. rewrite !lookup_fmap. destruct (m !! x) as [e|] eqn:He.
  - destruct (summed_entry x e He) as (e' & -> & Hs & Hp & _). cbn. by rewrite Hs, Hp.
  - rewrite (sum_trusts_spec hashGenesis (trust_of m)) by first [apply loaded_index_ok|apply loaded_trusts].
    by rewrite (loaded_none _ Hst x He).
Qed.

Lemma summed_pnext x : pnext_of (sum_trusts (ld_index st)) x = pnext_of m x.
Proof using Hok Htrusts Hnull Hst.
  unfold pnext_of. destruct (m !! x) as [e|] eqn:He.
  - by destruct (summed_entry x e He) as (e' & -> & _ & _ & Hn).
  - rewrite (sum_trusts_spec hashGenesis (trust_of m)) by first [apply loaded_index_ok|apply loaded_trusts].
    by rewrite (loaded_none _ Hst x He).
Qed.
End index.

(** ** The node *)

(** The stakes of a block index. *)
Definition stakes (p : COutPoint * Z) : Prop :=
  exists x e, m !! x = Some e /\ index_IsProofOfStake (e_index e) = true /\ p = (bi_prevoutStake (e_index e), bi_nStakeTime (e_index e)).

Lemma record_stakes p :
  (exists d, d ∈ records /\ index_IsProofOfStake (d_index d) = true /\ p = stake_of d) <-> stakes p.
Proof using Hok Hnull Hdom Hrecords.
  assert (forall e x d, record_ok e x hs d -> index_IsProofOfStake (d_index d) = index_IsProofOfStake (e_index e) /\
            stake_of d = (bi_prevoutStake (e_index e), bi_nStakeTime (e_index e))) as Hf.
  { intros e x d (_ & Hs & _). unfold index_IsProofOfStake, stake_of.
    pose proof (f_equal bi_nFlags Hs) as E1. pose proof (f_equal bi_prevoutStake Hs) as E2. pose proof (f_equal bi_nStakeTime Hs) as E3.
    cbn in E1, E2, E3. by rewrite E1, E2, E3. }
  split.
  - intros (d & Hd%elem_of_records & Hp & ->). destruct (record_of _ d Hd) as (e & He & Hr & _).
    destruct (Hf e _ d Hr) as [E1 E2]. exists (rec_hash d), e. split_and!; congruence.
  - intros (x & e & He & Hp & ->). destruct (source_disk x e He) as (d & Hd & Hr). destruct (Hf e x d Hr) as [E1 E2].
    destruct (record_of x d Hd) as (_ & _ & _ & Hx & _). exists d. split_and!; [apply elem_of_records; congruence|congruence|done].
Qed.

Lemma ReadFromDisk_chain s' x : same_tree m (mapBlockIndex s') -> block_files s' = block_files s -> x ∈ hs ->
  exists b, ReadFromDisk ext s' x = Ok b.
Proof using Hok.
  intros Ht Hf Hx. assert (on_chain ext ReadTxFromDisk nCoinbaseMaturity s tip hs) as Hc by (by destruct Hok).
  destruct (ledger_blocks _ _ _ _ _ _ (oc_ledger _ _ _ _ _ _ Hc) x Hx) as [b Hb]. exists b. apply block_at_Some in Hb. apply block_at_Some.
  rewrite <-(block_at_same ext s s'); [|done..]. by apply block_at_Some.
Qed.

(** ** Verification *)

(** Where an entry says its block is. *)
Definition position (s' : node) (x : Z) : Z * Z :=
  (bi_nFile (index_at (mapBlockIndex s') x), bi_nBlockPos (index_at (mapBlockIndex s') x)).

(** A block of the chain passes the tests of a level; [above] are the blocks
    looked at so far, itself included. *)
Definition passes (nCheckLevel : Z) (s' : node) (above : list Z) (x : Z) : Prop :=
  exists b, block_at ext s' x = Some b /\
    (0 < nCheckLevel -> exists u, CheckBlock (env_of ext s') b true true (6 <? nCheckLevel) = Ok u) /\
    (1 < nCheckLevel -> Forall (fun tx => bad_tx ReadTxFromDisk nCheckLevel (db_tx (database s')) (list_to_set (map (position s') above))
                                            (position s' x).1 (position s' x).2 tx = Ok false) (vtx b)).

(** The blocks looked at: those of the chain down to a height, but the last. *)
Fixpoint walked (s' : node) (bound : Z) (l : list Z) : list Z :=
  match l with
  | [] => []
  | x :: tl =>
    match tl with
    | [] => []
    | _ => if height_of (mapBlockIndex s') x <? bound then [] else x :: walked s' bound tl
    end
  end.

Fixpoint all_pass (nCheckLevel : Z) (s' : node) (above l : list Z) : Prop :=
  match l with
  | [] => True
  | x :: l => passes nCheckLevel s' (x :: above) x /\ all_pass nCheckLevel s' (x :: above) l
  end.

Lemma any_bad_false {A} (bad : A -> outcome Z bool) l : any_bad bad l = Ok false <-> Forall (fun a => bad a = Ok false) l.
Proof using.
  induction l as [|a l IH]; cbn [any_bad]; [by split|]. rewrite Forall_cons, <-IH. split.
  - intros H. apply bind_Ok in H as ([] & Ha & H); apply bind_Ok in H as ([] & Hl & H); done.
  - by intros [-> ->].
Qed.

Lemma is_bad_false m0 : is_bad m0 = Ok false <-> exists u, m0 = Ok u.
Proof using. destruct m0 as [u| | |]; cbn; split; try done; [by exists u|by intros []..]. Qed.

(** The two tests of a block. *)
Definition block_test (level : Z) (s' : node) (b : CBlock) : outcome Z bool :=
  if 0 <? level then is_bad (CheckBlock (env_of ext s') b true true (6 <? level)) else mret false.
Definition txs_test (level : Z) (s' : node) (above : list Z) (x : Z) (b : CBlock) : outcome Z bool :=
  any_bad (bad_tx ReadTxFromDisk level (db_tx (database s')) (list_to_set (map (position s') above)) (position s' x).1 (position s' x).2) (vtx b).

Lemma passes_iff level s' above x b : block_at ext s' x = Some b ->
  passes level s' (x :: above) x <->
  block_test level s' b = Ok false /\ (if 1 <? level then txs_test level s' (x :: above) x b else mret false) = Ok false.
Proof using.
  intros Hb. unfold passes, block_test, txs_test. rewrite Hb. destruct (Z.ltb_spec 0 level), (Z.ltb_spec 1 level); try lia;
    rewrite ?is_bad_false, ?any_bad_false; split.
  - intros (b' & [= <-] & H1 & H2). auto.
  - intros [H1 H2]. by exists b.
  - intros (b' & [= <-] & H1 & H2). auto.
  - intros [H1 H2]. exists b. split_and!; [done|done|lia].
  - done.
  - intros _. exists b. split_and!; [done|lia..].
Qed.

(** The tests of a transaction tell, they do not fail. *)
Definition tells {A} (o : outcome Z A) : Prop := forall e, o <> Err e.

Lemma tells_ret {A} (a : A) : tells (mret a).
Proof using. by intros e [=]. Qed.

Lemma tells_bind {A B} (o : outcome Z A) (g : A -> outcome Z B) : tells o -> (forall a, tells (g a)) -> tells (o ≫= g).
Proof using. intros Ho Hg e. specialize (Ho e). destruct o as [a|e'| |]; cbn; try done; [apply Hg|congruence]. Qed.

Lemma any_bad_tells {A} (bad : A -> outcome Z bool) l : (forall a, tells (bad a)) -> tells (any_bad bad l).
Proof using.
  intros H. induction l as [|a l IH]; cbn [any_bad]; [apply tells_ret|].
  apply tells_bind; [done|]. intros ?. apply tells_bind; [done|]. intros ?. apply tells_ret.
Qed.

Lemma is_bad_tells m0 : tells (is_bad m0).
Proof using. by destruct m0. Qed.

Lemma bad_tx_tells level db set file pos tx : tells (bad_tx ReadTxFromDisk level db set file pos tx).
Proof using.
  assert (forall h (p : nat * CDiskTxPos), tells (bad_spend ReadTxFromDisk level set h p)) as Hspend.
  { intros h [n p]. unfold bad_spend. destruct (pos_IsNull p); [apply tells_ret|]. destruct (5 <? level); [|apply tells_ret].
    destruct (ReadTxFromDisk p); [|apply tells_ret]. apply tells_bind; [apply is_bad_tells|intros ?; apply tells_ret]. }
  assert (forall i, tells (bad_prevout db i)) as Hprev.
  { intros i. unfold bad_prevout. destruct (db !! _) as [ti|]; [|apply tells_ret]. destruct (_ <? _); [apply tells_ret|].
    destruct (vSpent ti !! _); [apply tells_ret|done]. }
  unfold bad_tx. apply tells_bind; [|intros ?; apply tells_bind; [|intros ?; apply tells_ret]].
  - destruct (db !! _); [|apply tells_ret]. apply tells_bind; [|intros ?; apply tells_ret].
    destruct (3 <? level); [by apply any_bad_tells|apply tells_ret].
  - destruct (4 <? level); [by apply any_bad_tells|apply tells_ret].
Qed.

Lemma tests_no_err level s' above x b :
  tells (block_test level s' b) /\ tells (txs_test level s' (x :: above) x b).
Proof using.
  split.
  - unfold block_test. destruct (0 <? level); [apply is_bad_tells|apply tells_ret].
  - apply any_bad_tells. intros. apply bad_tx_tells.
Qed.

(** The loop reads every block it looks at, and finds none bad exactly when
    they all pass. *)
Lemma verify_loop_spec s' level depth fuel : same_tree m (mapBlockIndex s') -> block_files s' = block_files s ->
  forall h l above fork, is_path m (Some h) l -> (forall x, x ∈ l -> x ∈ hs) -> (length l <= fuel)%nat ->
  let set := if 1 <? level then list_to_set (map (position s') above) else ∅ in
  (verify_loop ext ReadTxFromDisk s' level depth fuel h set fork = Ok None <->
   fork = None /\ all_pass level s' above (walked s' (nBestHeight s' - depth) l)) /\
  tells (verify_loop ext ReadTxFromDisk s' level depth fuel h set fork).
Proof using Hok.
  intros Ht Hf. induction fuel as [|fuel IH]; intros h l above fork Hl Hin Hlen set.
  { inversion Hl; subst. cbn in Hlen. lia. }
  assert (forall fk : option Z, (mret fk = Ok (E := Z) None <-> fk = None /\ True) /\ tells (mret fk)) as Hstop.
  { intros fk. split; [|apply tells_ret]. split; [by intros [= ->]|by intros [-> _]]. }
  destruct (pprev_of_path _ _ Hl) as (tl & -> & Htl). cbn [verify_loop]. rewrite <-(same_tree_pprev _ _ _ Ht).
  destruct (pprev_of m h) as [p|] eqn:Hp.
  2: { inversion Htl; subst. cbn [walked all_pass]. apply Hstop. }
  destruct (pprev_of_path _ _ Htl) as (tl' & -> & _). cbn [walked].
  change (bi_nHeight (index_at (mapBlockIndex s') h)) with (height_of (mapBlockIndex s') h).
  destruct (height_of _ h <? _); [apply Hstop|].
  destruct (ReadFromDisk_chain s' h Ht Hf) as [b Hb]; [apply Hin; by left|]. rewrite Hb. cbn [mbind outcome_bind all_pass].
  apply block_at_Some in Hb.
  assert (forall fork', let set := if 1 <? level then list_to_set (map (position s') (h :: above)) else ∅ in
    (verify_loop ext ReadTxFromDisk s' level depth fuel p set fork' = Ok None <->
     fork' = None /\ all_pass level s' (h :: above) (walked s' (nBestHeight s' - depth) (p :: tl'))) /\
    tells (verify_loop ext ReadTxFromDisk s' level depth fuel p set fork')) as HI.
  { intros fork'. apply IH; [done|intros x Hx; apply Hin; by right|cbn in Hlen |- *; lia]. }
  pose proof (passes_iff level s' above h b Hb) as Hpass. pose proof (tests_no_err level s' above h b) as Herr. cbn zeta in *.
  subst set. fold (block_test level s' b). destruct (Z.ltb_spec 1 level) as [Hlevel|Hlevel].
  - change (bi_nFile (index_at (mapBlockIndex s') h)) with (position s' h).1 in *.
    change (bi_nBlockPos (index_at (mapBlockIndex s') h)) with (position s' h).2 in *.
    change ({[((position s' h).1, (position s' h).2)]} ∪ list_to_set (map (position s') above)) with
      (list_to_set (C := gset (Z * Z)) (map (position s') (h :: above))).
    fold (txs_test level s' (h :: above) h b). set (c := block_test level s' b) in *. set (t := txs_test level s' (h :: above) h b) in *.
    clearbody c t. destruct c as [b1|e| |]; [|by destruct (proj1 Herr e)|..]; cbn [mbind outcome_bind].
    2,3: split; [|by intros]; split; [done|]; intros (_ & [H _]%Hpass & _); done.
    destruct t as [b2|e| |]; [|by destruct (proj2 Herr e)|..]; cbn [mbind outcome_bind].
    2,3: split; [|by intros]; split; [done|]; intros (_ & [_ H]%Hpass & _); done.
    destruct (b1 || b2) eqn:Eb; destruct (HI (if b1 || b2 then Some p else fork)) as [H1 H2]; rewrite Eb in H1, H2; (split; [|exact H2]); rewrite H1, Hpass.
    + split; [by intros [? _]|]. intros (_ & [[= ->] [= ->]] & _). done.
    + apply orb_false_iff in Eb as [-> ->]. tauto.
  - cbn [mbind outcome_bind mret outcome_ret].
    set (c := block_test level s' b) in *. pose proof (proj1 Herr) as Hc. clearbody c.
    destruct c as [b1|e| |]; [|by destruct (Hc e)|..]; cbn [mbind outcome_bind].
    2,3: split; [|by intros]; split; [done|]; intros (_ & [H _]%Hpass & _); done.
    destruct (HI (if b1 || false then Some p else fork)) as [H1 H2]. split; [|exact H2]. rewrite H1, Hpass. destruct b1; cbn [orb].
    + split; [by intros [? _]|]. by intros (_ & [[=] _] & _).
    + tauto.
Qed.
End loaded.

(** [s'] has the chain of [s]: tree, links and best block. *)
Record same_chain (s s' : node) : Prop := {
  sc_tree : same_tree (mapBlockIndex s) (mapBlockIndex s');
  sc_next x : pnext_of (mapBlockIndex s') x = pnext_of (mapBlockIndex s) x;
  sc_genesis : pindexGenesisBlock s' = pindexGenesisBlock s;
  sc_best : g_pindexBest s' = g_pindexBest s;
  sc_hash : hashBestChain s' = hashBestChain s;
  sc_height : nBestHeight s' = nBestHeight s;
  sc_trust : nBestChainTrust s' = nBestChainTrust s;
  sc_database : database s' = database s;
  sc_files : block_files s' = block_files s;
}.

Section restores.
Context {SH : ScriptHashes} {EC : ECDSA}.
Variable ext : check_env.
Variable ReadTxFromDisk : CDiskTxPos -> option CTransaction.
Variables (nCoinbaseMaturity nTotalBlocksEstimate hashGenesis : Z).
Variables (TestNet : bool) (rate_limited fStashed : CTransaction -> bool).

Lemma same_chain_ok s s' tip hs : same_chain s s' ->
  node_ok ext ReadTxFromDisk nCoinbaseMaturity hashGenesis s tip hs -> node_ok ext ReadTxFromDisk nCoinbaseMaturity hashGenesis s' tip hs.
Proof.
  intros [Ht Hn Hg Hb Hh Hhe Htr Hdb Hf] [Hi Hfo Hc ? ? ? ? ?]. split; try congruence.
  - by eapply index_ok_same.
  - intros p b. rewrite Hf. by apply Hfo.
  - by eapply (on_chain_same _ _ _ s).
  - by rewrite Hhe, <-(height_same _ _ _ Ht).
  - by rewrite Htr, <-(trust_same _ _ _ Ht).
Qed.

Abbreviation chain_at s := (ancestors_of (mapBlockIndex s) (g_pindexBest s)).
Abbreviation consistent := (node_ok ext ReadTxFromDisk nCoinbaseMaturity hashGenesis).

Lemma chain_at_same s s' tip : consistent s tip (ancestors_of (mapBlockIndex s) (Some tip)) -> same_chain s s' ->
  chain_at s' = ancestors_of (mapBlockIndex s) (Some tip).
Proof.
  intros Hok [Ht _ _ Hb _ _ _ _ _]. rewrite Hb, (nk_best _ _ _ _ _ _ _ Hok).
  apply (ancestors_of_path (index_ok_same _ _ _ Ht (nk_index _ _ _ _ _ _ _ Hok))). eapply is_path_same; [exact Ht|]. apply (nk_chain _ _ _ _ _ _ _ Hok).
Qed.

(** Verification of a node that has the chain of a consistent one. *)
Lemma loaded_verify s s' tip level depth :
  consistent s tip (ancestors_of (mapBlockIndex s) (Some tip)) -> same_chain s s' ->
  tells (verify ext ReadTxFromDisk s' level depth) /\
  (verify ext ReadTxFromDisk s' level depth = Ok None <->
   all_pass ext ReadTxFromDisk level s' [] (walked s' (nBestHeight s' - check_depth s' depth) (chain_at s'))).
Proof.
  intros Hok Hsame. rewrite (chain_at_same s s' tip Hok Hsame). destruct Hsame as [Ht _ _ Hb _ _ _ _ Hf].
  unfold verify. rewrite Hb, (nk_best _ _ _ _ _ _ _ Hok). pose proof (oc_path _ _ _ _ _ _ (nk_chain _ _ _ _ _ _ _ Hok)) as Hp.
  pose proof (verify_loop_spec ext ReadTxFromDisk nCoinbaseMaturity hashGenesis s tip _ Hok s' level (check_depth s' depth)
    (S (size (mapBlockIndex s'))) Ht Hf tip _ [] None Hp) as H.
  assert ((if 1 <? level then list_to_set (map (position s') []) else ∅ : gset (Z * Z)) = ∅) as E by (by destruct (1 <? level)).
  cbn zeta in H. rewrite E in H. destruct H as [H1 H2]; [done| |].
  { rewrite <-(same_tree_size _ _ Ht). pose proof (path_length (nk_index _ _ _ _ _ _ _ Hok) _ _ Hp). lia. }
  split; [exact H2|]. rewrite H1. split; [by intros [_ ?]|done].
Qed.

(** Without tests every block passes. *)
Lemma level0_passes s s' tip level bound : level <= 0 ->
  consistent s tip (ancestors_of (mapBlockIndex s) (Some tip)) -> same_chain s s' ->
  all_pass ext ReadTxFromDisk level s' [] (walked s' bound (chain_at s')).
Proof.
  intros Hl Hok Hsame. rewrite (chain_at_same s s' tip Hok Hsame). destruct Hsame as [Ht _ _ _ _ _ _ _ Hf].
  assert (Forall (fun x => exists b, block_at ext s' x = Some b) (ancestors_of (mapBlockIndex s) (Some tip))) as Hall.
  { apply Forall_forall. intros x Hx. destruct (ReadFromDisk_chain ext ReadTxFromDisk nCoinbaseMaturity hashGenesis s tip _ Hok s' x Ht Hf Hx) as [b Hb].
    exists b. by apply block_at_Some. }
  clear Hok. generalize (@nil Z). induction Hall as [|x tl [b Hb] _ IH]; intros above; [done|]. cbn [walked]. destruct tl as [|y tl]; [done|].
  destruct (height_of (mapBlockIndex s') x <? bound); [done|]. split; [|apply IH]. exists b. split_and!; [done|intros; lia|intros; lia].
Qed.

(** C3: restarting the node brings back its chain.  From the block index
    records and [hashBestChain] of a consistent node, read in any order into an
    empty index, [CTxDB::LoadBlockIndex] rebuilds the same tree of blocks with
    the same trusts and [pnext] links, the same genesis and best block, height
    and trust, and the stakes seen; the node is consistent again.  Verification
    can read every block it looks at, and finds none bad exactly when those of
    the chain down to the depth asked for pass the tests of the level: none at
    level 0, [CheckBlock] in the present circumstances from level 1 on, and
    those of the transaction index from level 2 on.  Then this is the state
    returned. *)
Theorem LoadBlockIndex_restores (s s0 : node) (records : list CDiskBlockIndex) (invalid : option Z) (nCheckDepth : Z)
    (Hinv : node_inv ext ReadTxFromDisk nCoinbaseMaturity hashGenesis s)
    (Htrusts : trusts (trust_of (mapBlockIndex s)) (mapBlockIndex s)) (Hnull : mapBlockIndex s !! 0 = None)
    (Hdom : forall x, is_Some (db_blockindex (database s) !! x) -> is_Some (mapBlockIndex s !! x))
    (Hrecords : records ≡ₚ (map_to_list (db_blockindex (database s))).*2)
    (Hempty : mapBlockIndex s0 = ∅ /\ setStakeSeen s0 = ∅ /\ pindexGenesisBlock s0 = None)
    (Hdisk : database s0 = database s /\ block_files s0 = block_files s) :
  exists s', load_chain hashGenesis records (Some (db_hashBestChain (database s))) invalid s0 = (s', Ok true) /\
    same_chain s s' /\ node_inv ext ReadTxFromDisk nCoinbaseMaturity hashGenesis s' /\
    (forall p, p ∈ setStakeSeen s' <-> stakes s p) /\
    forall nCheckLevel,
      let looked_at := walked s' (nBestHeight s' - check_depth s' nCheckDepth) (chain_at s') in
      (forall e, verify ext ReadTxFromDisk s' nCheckLevel nCheckDepth <> Err e) /\
      (verify ext ReadTxFromDisk s' nCheckLevel nCheckDepth = Ok None <-> all_pass ext ReadTxFromDisk nCheckLevel s' [] looked_at) /\
      (nCheckLevel <= 0 \/ all_pass ext ReadTxFromDisk nCheckLevel s' [] looked_at ->
       CTxDB_LoadBlockIndex ext ReadTxFromDisk nCoinbaseMaturity nTotalBlocksEstimate hashGenesis TestNet rate_limited fStashed
         nCheckLevel nCheckDepth records (Some (db_hashBestChain (database s))) invalid s0 = (s', Ok tt)).
Proof.
  destruct Hinv as [tip Hok]. destruct Hempty as (E1 & E2 & E3), Hdisk as (E4 & E5).
  pose proof (nk_chain _ _ _ _ _ _ _ Hok) as Hc.
  destruct (records_load ext ReadTxFromDisk nCoinbaseMaturity hashGenesis s tip _ Hok Hnull Hdom records Hrecords ∅)
    as (st & Hst & Hload & Hgen & Hseen).
  pose proof (summed_same_tree ext ReadTxFromDisk nCoinbaseMaturity hashGenesis s tip _ Hok Htrusts Hnull st Hload) as Ht.
  set (s' := set_loaded_best tip (default 0 invalid) (set_loaded (sum_trusts (ld_index st)) st s0)).
  assert (load_chain hashGenesis records (Some (db_hashBestChain (database s))) invalid s0 = (s', Ok true)) as Hs'.
  { unfold load_chain. rewrite E2, E3, Hst. cbn [run]. rewrite (oc_best _ _ _ _ _ _ Hc).
    rewrite bool_decide_eq_true_2; [done|]. destruct (elem_of_chain ext ReadTxFromDisk nCoinbaseMaturity hashGenesis s tip _ Hok tip) as [e He].
    - pose proof (oc_path _ _ _ _ _ _ Hc) as Hp. inversion Hp; subst. by left.
    - destruct (same_tree_lookup _ _ _ _ Ht He) as (e' & ? & _). by exists e'. }
  assert (same_chain s s') as Hsame.
  { pose proof Hok as [_ _ _ ? ? ? Hheight Htrust]. split; try done; cbn [s' set_loaded_best set_loaded mapBlockIndex pindexGenesisBlock g_pindexBest hashBestChain nBestHeight nBestChainTrust].
    - intros x. by eapply summed_pnext.
    - congruence.
    - by rewrite Hheight, (height_same _ _ _ Ht).
    - by rewrite Htrust, (trust_same _ _ _ Ht). }
  exists s'. split_and!; [done|done|by eapply node_ok_inv, same_chain_ok| |].
  - intros p. change (setStakeSeen s') with (ld_seen st). rewrite Hseen.
    rewrite (record_stakes ext ReadTxFromDisk nCoinbaseMaturity hashGenesis s tip _ Hok Hnull Hdom records Hrecords p). set_solver.
  - intros level looked_at. destruct (loaded_verify s s' tip level nCheckDepth Hok Hsame) as [Hv1 Hv2]. split_and!; [done|done|].
    intros Hpass. assert (verify ext ReadTxFromDisk s' level nCheckDepth = Ok None) as Hv.
    { apply Hv2. destruct Hpass as [Hl|Hl]; [|done]. by eapply level0_passes. }
    unfold CTxDB_LoadBlockIndex. rewrite E1, map_size_empty. cbn [Nat.ltb Nat.leb]. by rewrite Hs', Hv.
Qed.
End restores.

(** ** A node restarted *)

Definition restart (s : node) : node := {|
  mapBlockIndex := ∅; setStakeSeen := ∅; pindexGenesisBlock := None; g_pindexBest := None; hashBestChain := 0;
  nBestHeight := -1; nBestChainTrust := 0; nBestInvalidTrust := 0; database := database s;
  block_files := block_files s; g_mempool := empty_pool 0
|}.

Lemma restart_empty s : mapBlockIndex (restart s) = ∅ /\ setStakeSeen (restart s) = ∅ /\ pindexGenesisBlock (restart s) = None.
Proof. done. Qed.
Lemma restart_disk s : database (restart s) = database s /\ block_files (restart s) = block_files s.
Proof. done. Qed.

Definition toy_records : list CDiskBlockIndex := (map_to_list (db_blockindex (database node_b2))).*2.

Lemma toy_trusts : trusts (trust_of (mapBlockIndex node_b2)) (mapBlockIndex node_b2).
Proof.
  assert (map_Forall (fun x e => trust_of (mapBlockIndex node_b2) x =
    (prev_trust (trust_of (mapBlockIndex node_b2)) e + GetBlockTrust (bi_nBits (e_index e))) mod 2 ^ 256) (mapBlockIndex node_b2)) as H
    by decide_now.
  exact H.
Qed.

Lemma toy_dom x : is_Some (db_blockindex (database node_b2) !! x) -> is_Some (mapBlockIndex node_b2 !! x).
Proof.
  assert (map_Forall (fun x _ => is_Some (mapBlockIndex node_b2 !! x)) (db_blockindex (database node_b2))) as H by decide_now.
  intros [d Hd]. by apply (H x d).
Qed.

Lemma LoadBlockIndex_restores_witness : exists s',
  load_chain genesis_hash (rev toy_records) (Some (db_hashBestChain (database node_b2))) None (restart node_b2) = (s', Ok true) /\
  same_chain node_b2 s'.
Proof.
  assert (rev toy_records ≡ₚ (map_to_list (db_blockindex (database node_b2))).*2) as Hrec by (unfold toy_records; symmetry; exact (Permutation_rev _)).
  assert (mapBlockIndex node_b2 !! 0 = None) as Hnull by decide_now.
  destruct (LoadBlockIndex_restores (node_ext 100500) (fun _ => None) 10 0 genesis_hash false (fun _ => false) (fun _ => false)
    node_b2 (restart node_b2) (rev toy_records) None 0 (proj1 (proj1 node_b2_ok)) toy_trusts Hnull toy_dom Hrec
    (restart_empty node_b2) (restart_disk node_b2)) as (s' & H1 & H2 & _).
  exists s'. by split.
Defined.
