(* ===== verification/Orphans.v ===== *)
(** * Orphan transactions: [main.cpp]

    Transactions whose inputs are unknown wait in [mapOrphanTransactions],
    indexed by the transactions they spend, until a "tx" message brings one of
    these; the collection is bounded by evicting random elements. *)

From stdpp Require Import sorting.
From S2P Require Import Prelude Opcode ScriptNum Script SigEncoding Interp LegacyInterp Serialize Transaction SigHash Chain TxConnect Standard Policy Mempool.

Local Open Scope Z_scope.

Record orphan_txs := {
  mapOrphanTransactions : gmap Z CTransaction;
  mapOrphanTransactionsByPrev : gmap Z (gset Z);
}.

(** [CTransaction()] *)
Definition null_tx (nTime : Z) : CTransaction :=
  {| nVersion := CURRENT_VERSION; nTime := nTime; vin := []; vout := []; nLockTime := 0 |}.

Definition MAX_ORPHAN_TRANSACTIONS : Z := MAX_BLOCK_SIZE / 100.

Section orphans.
Context {SH : ScriptHashes}.

(** [mapOrphanTransactionsByPrev[txin.prevout.hash].insert(hash)] *)
Definition insert_prev (hash : Z) (m : gmap Z (gset Z)) (txin : CTxIn) : gmap Z (gset Z) :=
  <[prevout_hash (prevout txin) := {[hash]} ∪ default ∅ (m !! prevout_hash (prevout txin))]> m.

(** [AddOrphanTx] *)
Definition AddOrphanTx (tx : CTransaction) (o : orphan_txs) : orphan_txs * bool :=
  let hash := tx_GetHash tx in
  if bool_decide (is_Some (mapOrphanTransactions o !! hash)) then (o, false)
  else if 5000 <? tx_size tx then (o, false)
  else ({| mapOrphanTransactions := <[hash := tx]> (mapOrphanTransactions o);
           mapOrphanTransactionsByPrev := foldl (insert_prev hash) (mapOrphanTransactionsByPrev o) (vin tx) |}, true).

(** One input of the loop of [EraseOrphanTx]. *)
Definition erase_prev (hash : Z) (m : gmap Z (gset Z)) (txin : CTxIn) : gmap Z (gset Z) :=
  match m !! prevout_hash (prevout txin) with
  | None => m
  | Some hashes =>
    let hashes := hashes ∖ {[hash]} in
    if bool_decide (hashes = ∅) then delete (prevout_hash (prevout txin)) m
    else <[prevout_hash (prevout txin) := hashes]> m
  end.

(** [EraseOrphanTx] *)
Definition EraseOrphanTx (o : orphan_txs) (hash : Z) : orphan_txs :=
  match mapOrphanTransactions o !! hash with
  | None => o
  | Some tx => {| mapOrphanTransactions := delete hash (mapOrphanTransactions o);
                  mapOrphanTransactionsByPrev := foldl (erase_prev hash) (mapOrphanTransactionsByPrev o) (vin tx) |}
  end.

(** [mapOrphanTransactions.lower_bound(randomhash)], or the first element. *)
Definition keys_of (m : gmap Z CTransaction) : list Z := merge_sort Z.le (map_to_list m).*1.
Definition random_key (m : gmap Z CTransaction) (randomhash : Z) : option Z :=
  match find (fun k => randomhash <=? k) (keys_of m) with Some k => Some k | None => head (keys_of m) end.

(** [LimitOrphanTxSize]: the [n]th number of [GetRandHash] is [rand n]; the
    fuel is the number of orphans. *)
Fixpoint limit_loop (rand : nat -> Z) (fuel : nat) (nMaxOrphans nEvicted : Z) (o : orphan_txs) : outcome unit (orphan_txs * Z) :=
  if nMaxOrphans <? Z.of_nat (size (mapOrphanTransactions o)) then
    match fuel, random_key (mapOrphanTransactions o) (rand (Z.to_nat nEvicted)) with
    | S fuel, Some hash => limit_loop rand fuel nMaxOrphans (nEvicted + 1) (EraseOrphanTx o hash)
    | _, _ => Crash
    end
  else mret (o, nEvicted).

Definition LimitOrphanTxSize (rand : nat -> Z) (nMaxOrphans : Z) (o : orphan_txs) : outcome unit (orphan_txs * Z) :=
  limit_loop rand (size (mapOrphanTransactions o)) nMaxOrphans 0 o.

(** ** The "tx" message *)

(** [AcceptToMemoryPool(mempool, tx, fLimitFree, &fMissingInputs, false, ignoreFees)] *)
Variable accept : CTxMemPool -> CTransaction -> bool -> bool -> bool -> outcome reject CTxMemPool.
(** The time a default [CTransaction] takes. *)
Variable now : Z.

Record resolve_state := {
  rs_pool : CTxMemPool;
  rs_orphans : gmap Z CTransaction;
  vEraseQueue : list Z;
  relayed : list Z;
}.

(** One orphan that spends a transaction of the work queue: the transactions it
    adds to the queue.  [operator[]] makes an element that is not there. *)
Definition resolve_orphan (st : resolve_state) (orphanTxHash : Z) : outcome unit (resolve_state * list Z) :=
  let orphanTx := default (null_tx now) (rs_orphans st !! orphanTxHash) in
  let orphans := <[orphanTxHash := orphanTx]> (rs_orphans st) in
  match accept (rs_pool st) orphanTx true false false with
  | Ok pool => mret ({| rs_pool := pool; rs_orphans := orphans; vEraseQueue := vEraseQueue st ++ [orphanTxHash];
                        relayed := relayed st ++ [orphanTxHash] |}, [orphanTxHash])
  | Err r => mret ({| rs_pool := rs_pool st; rs_orphans := orphans;
                      vEraseQueue := if fMissingInputs r then vEraseQueue st else vEraseQueue st ++ [orphanTxHash];
                      relayed := relayed st |}, [])
  | Throw => Throw
  | Crash => Crash
  end.

Fixpoint resolve_set (st : resolve_state) (hashes : list Z) : outcome unit (resolve_state * list Z) :=
  match hashes with
  | [] => mret (st, [])
  | h :: hashes => '(st, w) ← resolve_orphan st h; '(st, ws) ← resolve_set st hashes; mret (st, w ++ ws)
  end.

(** The loop over [vWorkQueue] with what is left of it. *)
Fixpoint resolve (byPrev : gmap Z (gset Z)) (fuel : nat) (st : resolve_state) (vWorkQueue : list Z) : outcome unit resolve_state :=
  match vWorkQueue with
  | [] => mret st
  | h :: vWorkQueue =>
    match fuel with
    | O => Crash
    | S fuel =>
      match byPrev !! h with
      | None => resolve byPrev fuel st vWorkQueue
      | Some hashes =>
        '(st, ws) ← resolve_set st (merge_sort Z.le (elements hashes));
        resolve byPrev fuel st (vWorkQueue ++ ws)
      end
    end
  end.

(** The pool, the orphans and the transactions relayed after a transaction
    message.  Every orphan enters the queue at most once. *)
Definition process_tx (rand : nat -> Z) (pool : CTxMemPool) (o : orphan_txs) (tx : CTransaction) (ignoreFees : bool)
    : outcome unit (CTxMemPool * orphan_txs * list Z) :=
  let hash := tx_GetHash tx in
  match accept pool tx true false ignoreFees with
  | Ok pool =>
    st ← resolve (mapOrphanTransactionsByPrev o) (2 + size (mapOrphanTransactions o))
           {| rs_pool := pool; rs_orphans := mapOrphanTransactions o; vEraseQueue := []; relayed := [hash] |} [hash];
    mret (rs_pool st,
          foldl EraseOrphanTx {| mapOrphanTransactions := rs_orphans st;
                                 mapOrphanTransactionsByPrev := mapOrphanTransactionsByPrev o |} (vEraseQueue st),
          relayed st)
  | Err r =>
    if fMissingInputs r then
      '(o, _) ← LimitOrphanTxSize rand MAX_ORPHAN_TRANSACTIONS (fst (AddOrphanTx tx o));
      mret (pool, o, [])
    else mret (pool, o, [])
  | Throw => Throw
  | Crash => Crash
  end.
End orphans.
