(* ===== verification/OrphansProps.v ===== *)
(** * Properties of orphan transactions

    The index by previous transaction is exact and holds no empty sets, the
    collection stays within its bound, and handling a transaction message ends;
    it never takes an orphan into the pool. *)

From stdpp Require Import sorting.
From S2P Require Import Prelude Opcode ScriptNum Script SigEncoding Interp LegacyInterp Serialize Transaction SigHash Chain TxConnect Standard Policy Mempool Orphans.

Local Open Scope Z_scope.

(** The transactions a transaction spends. *)
Definition parents (tx : CTransaction) : list Z := map (fun i => prevout_hash (prevout i)) (vin tx).

Definition set_at (m : gmap Z (gset Z)) (p : Z) : gset Z := default ∅ (m !! p).
Definition no_empty (m : gmap Z (gset Z)) : Prop := forall p s, m !! p = Some s -> s <> ∅.

Section ok.
Context {SH : ScriptHashes}.

Record orphans_ok (o : orphan_txs) : Prop := {
  oo_key h tx : mapOrphanTransactions o !! h = Some tx -> tx_GetHash tx = h /\ tx_size tx <= 5000;
  oo_prev p h : h ∈ set_at (mapOrphanTransactionsByPrev o) p <->
    exists tx, mapOrphanTransactions o !! h = Some tx /\ p ∈ parents tx;
  oo_nonempty : no_empty (mapOrphanTransactionsByPrev o);
}.
End ok.

(** ** The index *)

Lemma insert_prev_spec hash m txin p h :
  h ∈ set_at (insert_prev hash m txin) p <-> h ∈ set_at m p \/ (h = hash /\ p = prevout_hash (prevout txin)).
Proof.
  unfold set_at, insert_prev. destruct (decide (p = prevout_hash (prevout txin))) as [->|Hp].
  - rewrite lookup_insert_eq. cbn. rewrite elem_of_union, elem_of_singleton. naive_solver.
  - rewrite lookup_insert_ne by done. naive_solver.
Qed.

Lemma insert_prev_nonempty hash m txin : no_empty m -> no_empty (insert_prev hash m txin).
Proof.
  intros Hm p s. unfold insert_prev. destruct (decide (p = prevout_hash (prevout txin))) as [->|Hp].
  - rewrite lookup_insert_eq. intros [= <-] E. assert (hash ∈ (∅ : gset Z)) as H; [rewrite <-E; set_solver|set_solver].
  - rewrite lookup_insert_ne by done. apply Hm.
Qed.

Lemma insert_prevs_spec hash ins m p h : h ∈ set_at (foldl (insert_prev hash) m ins) p <->
  h ∈ set_at m p \/ (h = hash /\ p ∈ map (fun i => prevout_hash (prevout i)) ins).
Proof.
  revert m. induction ins as [|i ins IH]; intros m; cbn [foldl map].
  - split; [by left|]. by intros [?|[_ ?%elem_of_nil]].
  - rewrite IH, insert_prev_spec, elem_of_cons. naive_solver.
Qed.

Lemma insert_prevs_nonempty hash ins m : no_empty m -> no_empty (foldl (insert_prev hash) m ins).
Proof. revert m. induction ins as [|i ins IH]; intros m Hm; [done|]. by apply IH, insert_prev_nonempty. Qed.

Lemma erase_prev_spec hash m txin p h :
  h ∈ set_at (erase_prev hash m txin) p <-> h ∈ set_at m p /\ ~ (h = hash /\ p = prevout_hash (prevout txin)).
Proof.
  unfold set_at, erase_prev. destruct (m !! prevout_hash (prevout txin)) as [s|] eqn:Es.
  - destruct (decide (p = prevout_hash (prevout txin))) as [->|Hp].
    + rewrite Es. cbn. case_bool_decide as Hs.
      * rewrite lookup_delete_eq. cbn. set_solver.
      * rewrite lookup_insert_eq. cbn. set_solver.
    + case_bool_decide; [rewrite lookup_delete_ne by done|rewrite lookup_insert_ne by done]; naive_solver.
  - split; [|tauto]. intros H. split; [done|]. intros [_ ->]. rewrite Es in H. set_solver.
Qed.

Lemma erase_prev_nonempty hash m txin : no_empty m -> no_empty (erase_prev hash m txin).
Proof.
  intros Hm p s. unfold erase_prev. destruct (m !! _) as [s'|] eqn:Es; [|apply Hm]. case_bool_decide as Hs.
  - intros [_ H]%lookup_delete_Some. by apply (Hm p).
  - intros [[<- <-]|[_ H]]%lookup_insert_Some; [done|by apply (Hm p)].
Qed.

Lemma erase_prevs_spec hash ins m p h : h ∈ set_at (foldl (erase_prev hash) m ins) p <->
  h ∈ set_at m p /\ ~ (h = hash /\ p ∈ map (fun i => prevout_hash (prevout i)) ins).
Proof.
  revert m. induction ins as [|i ins IH]; intros m; cbn [foldl map].
  - split; [|tauto]. intros ?. split; [done|]. by intros [_ ?%elem_of_nil].
  - rewrite IH, erase_prev_spec, elem_of_cons. naive_solver.
Qed.

Lemma erase_prevs_nonempty hash ins m : no_empty m -> no_empty (foldl (erase_prev hash) m ins).
Proof. revert m. induction ins as [|i ins IH]; intros m Hm; [done|]. by apply IH, erase_prev_nonempty. Qed.

(** ** Adding, erasing, limiting *)

Section operations.
Context {SH : ScriptHashes}.

Lemma AddOrphanTx_ok tx o : orphans_ok o -> let o' := fst (AddOrphanTx tx o) in
  orphans_ok o' /\
  (forall h t, mapOrphanTransactions o' !! h = Some t -> mapOrphanTransactions o !! h = Some t \/ (h = tx_GetHash tx /\ t = tx)) /\
  (size (mapOrphanTransactions o') <= S (size (mapOrphanTransactions o)))%nat.
Proof.
  intros Ho. unfold AddOrphanTx. case_bool_decide as Hin; cbn [fst]; [split_and!; [done|by left|lia]|].
  destruct (Z.ltb_spec 5000 (tx_size tx)); cbn [fst]; [split_and!; [done|by left|lia]|].
  apply eq_None_not_Some in Hin. destruct Ho as [Hkey Hprev Hne]. split_and!.
  - split; cbn.
    + intros h t [[<- <-]|[_ Ht]]%lookup_insert_Some; [by split|by apply Hkey].
    + intros p h. rewrite insert_prevs_spec, Hprev. setoid_rewrite lookup_insert_Some. fold (parents tx). split.
      * intros [(t & Ht & Hp)|[-> Hp]]; [|by exists tx; auto]. exists t. split; [|done]. right. split; [congruence|done].
      * intros (t & [[<- <-]|[_ Ht]] & Hp); [by right|left; by exists t].
    + by apply insert_prevs_nonempty.
  - intros h t. cbn. intros [[<- <-]|[_ Ht]]%lookup_insert_Some; auto.
  - cbn. by rewrite map_size_insert_None.
Qed.

Lemma EraseOrphanTx_ok o h : orphans_ok o -> orphans_ok (EraseOrphanTx o h) /\
  mapOrphanTransactions (EraseOrphanTx o h) = delete h (mapOrphanTransactions o).
Proof.
  intros [Hkey Hprev Hne]. unfold EraseOrphanTx. destruct (mapOrphanTransactions o !! h) as [tx|] eqn:Htx.
  2: { split; [done|]. by rewrite delete_id. }
  split; [|done]. split; cbn.
  - intros k t [_ Ht]%lookup_delete_Some. by apply Hkey.
  - intros p k. rewrite erase_prevs_spec, Hprev. setoid_rewrite lookup_delete_Some. fold (parents tx). split.
    + intros [(t & Ht & Hp) Hn]. exists t. split; [|done]. split; [|done]. intros <-. assert (t = tx) as -> by congruence. by apply Hn.
    + intros (t & [Hk Ht] & Hp). split; [by exists t|]. by intros [-> _].
  - by apply erase_prevs_nonempty.
Qed.

Lemma EraseOrphanTxs_ok hs o : orphans_ok o -> orphans_ok (foldl EraseOrphanTx o hs) /\
  (forall h, mapOrphanTransactions (foldl EraseOrphanTx o hs) !! h = if decide (h ∈ hs) then None else mapOrphanTransactions o !! h).
Proof.
  revert o. induction hs as [|k hs IH]; intros o Ho; cbn [foldl].
  { split; [done|]. intros h. by rewrite decide_False by apply not_elem_of_nil. }
  destruct (EraseOrphanTx_ok o k Ho) as [Ho1 E1]. destruct (IH _ Ho1) as [Ho' E']. split; [done|].
  intros h. rewrite E', E1. destruct (decide (h = k)) as [->|Hk].
  - rewrite lookup_delete_eq, (decide_True (P := k ∈ k :: hs)) by (by left). by case_decide.
  - rewrite lookup_delete_ne by done. assert (h ∈ k :: hs <-> h ∈ hs) as E by (rewrite elem_of_cons; tauto).
    by rewrite (decide_ext _ _ _ _ E).
Qed.

Lemma keys_of_elem (m : gmap Z CTransaction) k : k ∈ keys_of m <-> is_Some (m !! k).
Proof.
  unfold keys_of. rewrite (merge_sort_Permutation Z.le), list_elem_of_fmap. split.
  - intros ([x t] & -> & H%elem_of_map_to_list). by exists t.
  - intros [t Ht]. exists (k, t). split; [done|by apply elem_of_map_to_list].
Qed.

Lemma random_key_Some m r : (0 < size m)%nat -> exists k, random_key m r = Some k /\ is_Some (m !! k).
Proof.
  intros Hm. unfold random_key. destruct (find _ (keys_of m)) as [k|] eqn:Ek.
  - exists k. split; [done|]. apply find_some in Ek as [Ek _]. by apply keys_of_elem, list_elem_of_In.
  - destruct (keys_of m) as [|k ks] eqn:El.
    + destruct (map_choose m) as (k & t & Ht); [intros ->; rewrite map_size_empty in Hm; lia|].
      assert (k ∈ keys_of m) as H by (apply keys_of_elem; by exists t). rewrite El in H. by apply elem_of_nil in H.
    + exists k. split; [done|]. apply keys_of_elem. rewrite El. by left.
Qed.

Lemma limit_loop_ok rand fuel nMax n o : orphans_ok o -> 0 <= nMax -> (size (mapOrphanTransactions o) <= fuel)%nat ->
  exists o' n', limit_loop rand fuel nMax n o = Ok (o', n') /\ orphans_ok o' /\
    mapOrphanTransactions o' ⊆ mapOrphanTransactions o /\ Z.of_nat (size (mapOrphanTransactions o')) <= nMax /\
    n' - n = Z.of_nat (size (mapOrphanTransactions o)) - Z.of_nat (size (mapOrphanTransactions o')).
Proof.
  intros Ho Hmax. revert n o Ho. induction fuel as [|fuel IH]; intros n o Ho Hf; cbn [limit_loop].
  { destruct (Z.ltb_spec nMax (Z.of_nat (size (mapOrphanTransactions o)))); [lia|]. exists o, n. split_and!; [done..|lia]. }
  destruct (Z.ltb_spec nMax (Z.of_nat (size (mapOrphanTransactions o)))) as [Hlt|]; [|exists o, n; split_and!; [done..|lia]].
  destruct (random_key_Some (mapOrphanTransactions o) (rand (Z.to_nat n))) as (k & -> & [t Ht]); [lia|].
  destruct (EraseOrphanTx_ok o k Ho) as [Ho1 E1].
    assert (size (mapOrphanTransactions (EraseOrphanTx o k)) = pred (size (mapOrphanTransactions o))) as Es
    by (rewrite E1; by apply map_size_delete_Some).
  destruct (IH (n + 1) _ Ho1) as (o' & n' & -> & Ho' & Hsub & Hle & Hn); [lia|].
  exists o', n'. split_and!; [done|done| |done|lia]. etrans; [exact Hsub|]. rewrite E1. apply delete_subseteq.
Qed.
End operations.

(** ** The transaction message *)

(** The computation ends with a value or an error. *)
Definition returns {E A} (m : outcome E A) : Prop := match m with Ok _ | Err _ => True | _ => False end.

Lemma returns_bind {E A B} (m : outcome E A) (f : A -> outcome E B) : returns m -> (forall a, returns (f a)) -> returns (m ≫= f).
Proof. destruct m; cbn; auto. Qed.
Lemma returns_fail_if {E} b (e : E) : returns (fail_if b e).
Proof. by destruct b. Qed.
Lemma returns_lift {E A} (f : E -> Z) (m : outcome E A) : returns m -> returns (lift_DoS f m).
Proof. by destruct m. Qed.

Ltac returns_step :=
  repeat first [ simple apply returns_bind; [|intros ?] | simple apply returns_fail_if | simple apply returns_lift | exact I ].

Lemma check_outputs_returns exempt outs n : returns (check_outputs exempt n outs).
Proof. revert n. induction outs as [|o outs IH]; intros n; cbn [check_outputs]; [done|]. returns_step. apply IH. Qed.

Lemma check_duplicates_returns ins s : returns (check_duplicates s ins).
Proof. revert s. induction ins as [|i ins IH]; intros s; cbn [check_duplicates]; [done|]. returns_step. apply IH. Qed.

Lemma CheckTransaction_returns tx : returns (CheckTransaction tx).
Proof.
  unfold CheckTransaction. returns_step; [apply check_outputs_returns|apply check_duplicates_returns|].
  destruct (IsCoinBase tx); [|returns_step]. destruct (vin tx); returns_step.
Qed.

Lemma standard_ins_returns ins : returns (standard_ins ins).
Proof. induction ins as [|i ins IH]; cbn [standard_ins]; [done|]. returns_step. apply IH. Qed.

Lemma standard_outs_returns outs n : returns (standard_outs n outs).
Proof.
  revert n. induction outs as [|o outs IH]; intros n; cbn [standard_outs]; [done|]. destruct (IsStandard _) as [ok t].
  returns_step; [|apply IH]. destruct (bool_decide _); returns_step.
Qed.

Section message.
Context {SH : ScriptHashes} {EC : ECDSA}.
Variable ReadTxFromDisk : CDiskTxPos -> option CTransaction.
Variables (txdb : tx_db) (pindexBest : chain) (nCoinbaseMaturity : Z).
Variables (TestNet : bool) (nBestHeight adjusted_time : Z) (fInitialDownload : bool).
Variable mapLockedInputs : gmap COutPoint Z.
Variables (rate_limited fStashed : CTransaction -> bool).

Abbreviation accept_tx := (fun pool tx => AcceptToMemoryPool ReadTxFromDisk txdb pindexBest nCoinbaseMaturity TestNet nBestHeight
  adjusted_time fInitialDownload mapLockedInputs (rate_limited tx) (fStashed tx) pool tx).

Lemma AcceptToMemoryPool_new pool tx a b c pool' : accept_tx pool tx a b c = Ok pool' -> txdb !! tx_GetHash tx = None.
Proof.
  unfold AcceptToMemoryPool. intros H. apply bind_Ok in H as (? & _ & H). apply bind_Ok in H as (? & _ & H).
  apply bind_Ok in H as (? & Hu & _). unfold unseen in Hu. mon_inv.
  by match goal with H : bool_decide (is_Some _) = false |- _ => apply bool_decide_eq_false in H; apply eq_None_not_Some end.
Qed.

(** A transaction with an unknown input is never admitted, and refusing it raises no exception. *)
Lemma AcceptToMemoryPool_missing pool tx a b c : missing_input txdb tx = true -> exists r, accept_tx pool tx a b c = Err r.
Proof.
  intros Hm. unfold AcceptToMemoryPool. rewrite Hm.
  assert (returns (loose_tx tx)) as H1 by (unfold loose_tx; returns_step; apply CheckTransaction_returns).
  assert (returns (if TestNet then mret tt else lift_DoS (fun _ => 0) (IsStandardTx nBestHeight adjusted_time tx))) as H2.
  { destruct TestNet; [done|]. unfold IsStandardTx. returns_step; [apply standard_ins_returns|apply standard_outs_returns]. }
  assert (returns (unseen txdb mapLockedInputs pool tx)) as H3 by (unfold unseen; returns_step).
  destruct (loose_tx tx) as [[]|r| |]; cbn in *; try done; [|by exists r].
  destruct (if TestNet then _ else _) as [[]|r| |]; cbn in *; try done; [|by exists r].
  destruct (unseen _ _ pool tx) as [[]|r| |]; cbn in *; try done; by eexists.
Qed.

Variable now : Z.

(** Orphans with an unknown input do not change the pool. *)
Lemma resolve_set_stuck hashes st : Forall (fun h => exists tx, rs_orphans st !! h = Some tx /\ missing_input txdb tx = true) hashes ->
  exists erase, resolve_set accept_tx now st hashes = Ok ({| rs_pool := rs_pool st; rs_orphans := rs_orphans st;
    vEraseQueue := vEraseQueue st ++ erase; relayed := relayed st |}, []) /\ (forall h, h ∈ erase -> h ∈ hashes).
Proof.
  revert st. induction hashes as [|h hashes IH]; intros st Hall; cbn [resolve_set].
  { exists []. split; [by rewrite app_nil_r; destruct st|done]. }
  apply Forall_cons in Hall as [(tx & Htx & Hm) Hall]. unfold resolve_orphan. rewrite Htx. cbn [default from_option id].
  destruct (AcceptToMemoryPool_missing (rs_pool st) tx true false false Hm) as [r ->]. cbn [mbind outcome_bind mret outcome_ret].
  rewrite insert_id by done.
  edestruct (IH {| rs_pool := rs_pool st; rs_orphans := rs_orphans st;
    vEraseQueue := if fMissingInputs r then vEraseQueue st else vEraseQueue st ++ [h]; relayed := relayed st |}) as (erase & -> & He); [done|].
  cbn. destruct (fMissingInputs r).
  - exists erase. split; [done|]. intros k Hk. right. by apply He.
  - exists (h :: erase). split; [by rewrite <-app_assoc|]. intros k [->|Hk]%elem_of_cons; [by left|right; by apply He].
Qed.

Lemma parents_missing tx p : p ∈ parents tx -> txdb !! p = None -> missing_input txdb tx = true.
Proof.
  unfold parents, missing_input. intros (i & -> & Hi)%list_elem_of_fmap Hp. apply existsb_exists. exists i.
  split; [by apply list_elem_of_In|]. rewrite Hp. by rewrite bool_decide_eq_false_2 by by intros [].
Qed.

Variable rand : nat -> Z.

(** The orphans of the transaction that came are all stuck. *)
Lemma children_missing o h hashes : orphans_ok o -> txdb !! h = None -> mapOrphanTransactionsByPrev o !! h = Some hashes ->
  Forall (fun k => exists tx, mapOrphanTransactions o !! k = Some tx /\ missing_input txdb tx = true) (merge_sort Z.le (elements hashes)).
Proof.
  intros Ho Hh Hs. apply Forall_forall. intros k Hk. rewrite (merge_sort_Permutation Z.le), elem_of_elements in Hk.
  destruct (proj1 (oo_prev _ Ho h k)) as (tx & Htx & Hp); [unfold set_at; by rewrite Hs|].
  exists tx. split; [done|]. by apply (parents_missing tx h).
Qed.

(** C6: handling a transaction message ends, keeps the orphans indexed exactly
    and bounded, and never takes an orphan into the pool: an admitted
    transaction is the only one to enter the pool and to be relayed, since its
    children still count as missing an input ([AcceptToMemoryPool] looks for
    inputs in the database only), and the orphans it removes are children of it;
    a transaction with missing inputs joins the orphans, of which some are
    evicted down to the bound; any other is dropped. *)
Theorem process_tx_orphans (pool : CTxMemPool) (o : orphan_txs) (tx : CTransaction) (ignoreFees : bool) (Ho : orphans_ok o) :
  let r := process_tx accept_tx now rand pool o tx ignoreFees in
  match accept_tx pool tx true false ignoreFees with
  | Ok pool1 =>
    exists o', r = Ok (pool1, o', [tx_GetHash tx]) /\ orphans_ok o' /\ mapOrphanTransactions o' ⊆ mapOrphanTransactions o /\
      (forall h t, mapOrphanTransactions o !! h = Some t -> tx_GetHash tx ∉ parents t -> mapOrphanTransactions o' !! h = Some t)
  | Err e =>
    if fMissingInputs e then
      exists o', r = Ok (pool, o', []) /\ orphans_ok o' /\ Z.of_nat (size (mapOrphanTransactions o')) <= MAX_ORPHAN_TRANSACTIONS /\
        (forall h t, mapOrphanTransactions o' !! h = Some t -> mapOrphanTransactions o !! h = Some t \/ (h = tx_GetHash tx /\ t = tx))
    else r = Ok (pool, o, [])
  | Throw => r = Throw
  | Crash => r = Crash
  end.
Proof.
  cbn zeta. unfold process_tx. destruct (AcceptToMemoryPool _ _ _ _ _ _ _ _ _ _ _ pool tx true false ignoreFees) as [pool1|e| |] eqn:Ha; try done.
  - apply (AcceptToMemoryPool_new pool tx true false ignoreFees) in Ha. cbn [resolve Nat.add].
    destruct (mapOrphanTransactionsByPrev o !! tx_GetHash tx) as [hashes|] eqn:Hs.
    + pose proof (children_missing o _ hashes Ho Ha Hs) as Hall.
      destruct (resolve_set_stuck _ {| rs_pool := pool1; rs_orphans := mapOrphanTransactions o; vEraseQueue := [];
        relayed := [tx_GetHash tx] |} Hall) as (erase & -> & He). cbn [mbind outcome_bind mret outcome_ret app resolve vEraseQueue rs_orphans rs_pool relayed].
      replace {| mapOrphanTransactions := _; mapOrphanTransactionsByPrev := _ |} with o by (by destruct o).
      destruct (EraseOrphanTxs_ok erase o Ho) as [Ho' E']. eexists. split; [done|]. split_and!; [done| |].
      * apply map_subseteq_spec. intros h t. rewrite E'. by case_decide.
      * intros h t Ht Hp. rewrite E', decide_False; [done|]. intros Hin%He. rewrite (merge_sort_Permutation Z.le), elem_of_elements in Hin.
        destruct (proj1 (oo_prev _ Ho (tx_GetHash tx) h)) as (t' & Ht' & Hp'); [unfold set_at; by rewrite Hs|]. congruence.
    + cbn. exists o. split_and!; [by destruct o|done|done|done].
  - destruct (fMissingInputs e); [|done]. destruct (AddOrphanTx_ok tx o Ho) as (Ho1 & Hin & _).
    unfold LimitOrphanTxSize. destruct (limit_loop_ok rand (size (mapOrphanTransactions (fst (AddOrphanTx tx o)))) MAX_ORPHAN_TRANSACTIONS 0 _ Ho1) as (o' & n' & -> & Ho' & Hsub & Hle & _); [done|done|].
    exists o'. split_and!; [done|done|done|]. intros h t Ht. apply Hin. by eapply lookup_weaken.
Qed.
End message.

(** ** An orphan and its parent *)

#[local] Instance first_bytes_hashes : ScriptHashes := {
  h_ripemd160 := firstn 20; h_sha1 := firstn 20; h_sha256 := firstn 32; h_hash160 := firstn 20;
  h_hash256 := fun l => le_encode 8 (foldl (fun a x => (a * 31 + x + 1) mod (2 ^ 61 - 1)) 7 l)
}.
#[local] Instance no_signatures : ECDSA := { pubkey_Verify _ _ _ := false; pubkey_CheckLowS _ := false }.

Definition spending (h value : Z) : CTransaction := {|
  nVersion := 1; nTime := 1000; nLockTime := 0;
  vin := [{| prevout := {| prevout_hash := h; prevout_n := 0 |}; scriptSig := []; nSequence := UINT_MAX |}];
  vout := [{| nValue := value; scriptPubKey := [81] |}]
|}.
(** [paying_tx], in the database, pays anyone; [parent_tx] spends it and
    [child_tx] spends [parent_tx]. *)
Definition paying_tx : CTransaction := spending 5 (10 * COIN).
Definition parent_tx : CTransaction := spending (tx_GetHash paying_tx) (9 * COIN).
Definition child_tx : CTransaction := spending (tx_GetHash parent_tx) (8 * COIN).
Definition orphans_child : orphan_txs := fst (AddOrphanTx child_tx {| mapOrphanTransactions := ∅; mapOrphanTransactionsByPrev := ∅ |}).
Definition small_db : tx_db := {[ tx_GetHash paying_tx := {| pos := {| nFile := 1; nBlockPos := 8; nTxPos := 9 |}; vSpent := [null_pos] |} ]}.

Lemma no_orphans_ok : orphans_ok {| mapOrphanTransactions := ∅; mapOrphanTransactionsByPrev := ∅ |}.
Proof.
  split; cbn.
  - done.
  - intros p h. unfold set_at. rewrite lookup_empty. cbn. split; [set_solver|]. by intros (? & ? & _).
  - by intros p s.
Qed.

Lemma orphans_child_ok : orphans_ok orphans_child.
Proof. apply AddOrphanTx_ok, no_orphans_ok. Qed.

Definition accept_small : CTxMemPool -> CTransaction -> bool -> bool -> bool -> outcome reject CTxMemPool := fun pool tx =>
  AcceptToMemoryPool (fun _ => Some paying_tx) small_db [] 10 true 100 2000 true ∅ false false pool tx.

(** The parent is admitted and the child stays an orphan. *)
Example parent_admitted : match process_tx accept_small 2000 (fun _ => 0) (empty_pool 0) orphans_child parent_tx false with
  | Ok (pool, o, relayed) => bool_decide (is_Some (mapTx pool !! tx_GetHash parent_tx)) && bool_decide (is_Some (mapOrphanTransactions o !! tx_GetHash child_tx))
  | _ => false end = true.
Proof. by vm_compute. Qed.

Lemma process_tx_orphans_witness : exists pool o', mapTx pool !! tx_GetHash parent_tx = Some parent_tx /\
  process_tx accept_small 2000 (fun _ => 0) (empty_pool 0) orphans_child parent_tx false = Ok (pool, o', [tx_GetHash parent_tx]) /\ orphans_ok o'.
Proof.
  pose proof (process_tx_orphans (fun _ => Some paying_tx) small_db [] 10 true 100 2000 true ∅ (fun _ => false) (fun _ => false)
    2000 (fun _ => 0) (empty_pool 0) orphans_child parent_tx false orphans_child_ok) as H.
  change (process_tx _ 2000 (fun _ => 0) (empty_pool 0) orphans_child parent_tx false)
    with (process_tx accept_small 2000 (fun _ => 0) (empty_pool 0) orphans_child parent_tx false) in H. cbv beta zeta in H.
  destruct (AcceptToMemoryPool _ _ _ _ _ _ _ _ _ _ _ (empty_pool 0) parent_tx true false false) as [pool| | |] eqn:E;
    [|vm_compute in E; discriminate E..].
  destruct H as (o' & H & Ho' & _). exists pool, o'. split_and!; [|done|done].
  assert (match AcceptToMemoryPool (fun _ => Some paying_tx) small_db [] 10 true 100 2000 true ∅ false false (empty_pool 0) parent_tx true false false
    with Ok p => bool_decide (mapTx p !! tx_GetHash parent_tx = Some parent_tx) | _ => false end = true) as Hp by by vm_compute.
  rewrite E in Hp. by apply bool_decide_eq_true in Hp.
Defined.
