(* ===== verification/OrphanBlocks.v ===== *)
(** * Orphan blocks and [ProcessBlock]: [main.cpp]

    A block from the network whose previous block is unknown waits in
    [mapOrphanBlocks]; when the previous block is accepted, [ProcessBlock]
    accepts the blocks that waited for it, and those that waited for them.  The
    number of waiting blocks is bounded by dropping a random one. *)

From stdpp Require Import sorting.
From S2P Require Import Prelude Opcode ScriptNum Script SigEncoding Interp LegacyInterp Serialize Transaction SigHash Bignum Chain TxConnect Merkle Proofs Stake Standard Policy Mempool Block ChainState.

Local Open Scope Z_scope.

(** ** Data *)

Record COrphanBlock := { hashBlock : Z; hashPrev : Z; ob_stake : COutPoint * Z; vchBlock : list Z }.

(** The multimap [mapOrphanBlocksByPrev] has the elements of a key in the order
    in which they were inserted. *)
Record orphan_blocks := {
  mapOrphanBlocks : gmap Z COrphanBlock;
  mapOrphanBlocksByPrev : gmap Z (list COrphanBlock);
  setStakeSeenOrphan : gset (COutPoint * Z);
}.

Definition DEFAULT_MAX_ORPHAN_BLOCKS : Z := 10000.

(** The multimap: its elements in order, the insertion at the end of the
    elements of a key, the erasure of one element. *)
Definition key_le {A} (x y : Z * A) : Prop := fst x <= fst y.
#[export] Instance key_le_dec {A} (x y : Z * A) : Decision (key_le x y).
Proof. unfold key_le. apply _. Defined.
Definition multimap_list (m : gmap Z (list COrphanBlock)) : list COrphanBlock :=
  concat (map snd (merge_sort key_le (map_to_list m))).
Definition multimap_at (m : gmap Z (list COrphanBlock)) (k : Z) : list COrphanBlock := default [] (m !! k).
Definition multimap_set (k : Z) (l : list COrphanBlock) (m : gmap Z (list COrphanBlock)) : gmap Z (list COrphanBlock) :=
  match l with [] => delete k m | _ => <[k := l]> m end.
Definition multimap_insert (k : Z) (o : COrphanBlock) (m : gmap Z (list COrphanBlock)) : gmap Z (list COrphanBlock) :=
  multimap_set k (multimap_at m k ++ [o]) m.

(** ** Walks *)

(** [GetOrphanRoot]: from the orphan [it] back to the first one of its chain. *)
Fixpoint root_loop (m : gmap Z COrphanBlock) (fuel : nat) (key : Z) (it : COrphanBlock) : outcome Z Z :=
  match fuel with
  | O => Crash
  | S fuel =>
    match m !! hashPrev it with
    | None => mret key
    | Some it2 => root_loop m fuel (hashPrev it) it2
    end
  end.

Definition GetOrphanRoot (m : gmap Z COrphanBlock) (hash : Z) : outcome Z Z :=
  match m !! hash with None => mret hash | Some it => root_loop m (S (size m)) hash it end.

(** [WantedByOrphan] *)
Fixpoint wanted_loop (m : gmap Z COrphanBlock) (fuel : nat) (o : COrphanBlock) : outcome Z Z :=
  match fuel with
  | O => Crash
  | S fuel => match m !! hashPrev o with None => mret (hashPrev o) | Some o2 => wanted_loop m fuel o2 end
  end.

Definition WantedByOrphan (m : gmap Z COrphanBlock) (o : COrphanBlock) : outcome Z Z := wanted_loop m (S (size m)) o.

(** [PruneOrphanBlocks]: the walk to an orphan without successors. *)
Fixpoint leaf_loop (m : gmap Z (list COrphanBlock)) (fuel : nat) (it : COrphanBlock) : outcome Z COrphanBlock :=
  match fuel with
  | O => Crash
  | S fuel => match multimap_at m (hashBlock it) with [] => mret it | it2 :: _ => leaf_loop m fuel it2 end
  end.

Definition erase_orphan (it : COrphanBlock) (o : orphan_blocks) : orphan_blocks := {|
  mapOrphanBlocks := delete (hashBlock it) (mapOrphanBlocks o);
  mapOrphanBlocksByPrev := multimap_set (hashPrev it)
    (filter (fun x => hashBlock x <> hashBlock it) (multimap_at (mapOrphanBlocksByPrev o) (hashPrev it))) (mapOrphanBlocksByPrev o);
  setStakeSeenOrphan := setStakeSeenOrphan o ∖ {[ ob_stake it ]};
|}.

(** [rnd] is the number [insecure_rand] gives, [maxorphans] the option. *)
Definition PruneOrphanBlocks (maxorphans rnd : Z) (o : orphan_blocks) : outcome Z orphan_blocks :=
  let all := multimap_list (mapOrphanBlocksByPrev o) in
  if zlen all <=? Z.max 0 maxorphans then mret o
  else
    match all !! Z.to_nat (rnd mod zlen all) with
    | None => Crash
    | Some it => it ← leaf_loop (mapOrphanBlocksByPrev o) (S (length all)) it; mret (erase_orphan it o)
    end.

(** ** Messages to the peer *)

(** What [PushGetBlocks] keeps for a peer. *)
Record peer := { pindexLastGetBlocksBegin : option Z; hashLastGetBlocksEnd : Z }.

Inductive request := GetBlocks (locator : list Z) (hashStop : Z) | AskFor (hash : Z).

Record process_state := { ps_node : node; ps_orphans : orphan_blocks; ps_peer : option peer; ps_requests : list request }.

Definition with_node (s : node) (st : process_state) : process_state :=
  {| ps_node := s; ps_orphans := ps_orphans st; ps_peer := ps_peer st; ps_requests := ps_requests st |}.
Definition with_orphans (o : orphan_blocks) (st : process_state) : process_state :=
  {| ps_node := ps_node st; ps_orphans := o; ps_peer := ps_peer st; ps_requests := ps_requests st |}.

(** [PushGetBlocks] *)
Definition PushGetBlocks (hashGenesis : Z) (p : peer) (pindexBegin : option Z) (hashEnd : Z) (st : process_state) : process_state :=
  if bool_decide (pindexBegin = pindexLastGetBlocksBegin p) && (hashEnd =? hashLastGetBlocksEnd p) then st
  else {| ps_node := ps_node st; ps_orphans := ps_orphans st;
          ps_peer := Some {| pindexLastGetBlocksBegin := pindexBegin; hashLastGetBlocksEnd := hashEnd |};
          ps_requests := ps_requests st ++ [GetBlocks (locator_Set hashGenesis (mapBlockIndex (ps_node st)) pindexBegin) hashEnd] |}.

Definition push_request (r : request) (st : process_state) : process_state :=
  {| ps_node := ps_node st; ps_orphans := ps_orphans st; ps_peer := ps_peer st; ps_requests := ps_requests st ++ [r] |}.

(** ** The work queue *)

Section work.
Variable accept : node -> CBlock -> node * outcome Z unit.

(** One orphan whose previous block was accepted. *)
Definition process_child (st : process_state) (child : COrphanBlock) : process_state * outcome Z (list Z) :=
  match @unser _ fmt_block (vchBlock child) with
  | Ok (block, _) =>
    let '(s, r) := accept (ps_node st) block in
    let o := ps_orphans st in
    let st' := with_orphans {| mapOrphanBlocks := delete (hashBlock child) (mapOrphanBlocks o);
                               mapOrphanBlocksByPrev := mapOrphanBlocksByPrev o;
                               setStakeSeenOrphan := setStakeSeenOrphan o ∖ {[ GetProofOfStake block ]} |} (with_node s st) in
    match r with
    | Ok _ => (st', Ok [hashBlock child])
    | Err _ => (st', Ok [])
    | Throw => (with_node s st, Throw)
    | Crash => (with_node s st, Crash)
    end
  | _ => (st, Throw)
  end.

Fixpoint process_children (st : process_state) (children : list COrphanBlock) : process_state * outcome Z (list Z) :=
  match children with
  | [] => (st, Ok [])
  | child :: children =>
    match process_child st child with
    | (st, Ok w) =>
      match process_children st children with
      | (st, Ok ws) => (st, Ok (w ++ ws))
      | (st, r) => (st, r)
      end
    | (st, r) => (st, r)
    end
  end.

(** The loop over [vWorkQueue] with what is left of it. *)
Fixpoint work (fuel : nat) (st : process_state) (vWorkQueue : list Z) : process_state * outcome Z unit :=
  match vWorkQueue with
  | [] => (st, Ok tt)
  | h :: vWorkQueue =>
    match fuel with
    | O => (st, Crash)
    | S fuel =>
      match process_children st (multimap_at (mapOrphanBlocksByPrev (ps_orphans st)) h) with
      | (st, Ok ws) =>
        let o := ps_orphans st in
        work fuel (with_orphans {| mapOrphanBlocks := mapOrphanBlocks o; mapOrphanBlocksByPrev := delete h (mapOrphanBlocksByPrev o);
                                   setStakeSeenOrphan := setStakeSeenOrphan o |} st) (vWorkQueue ++ ws)
      | (st, Err e) => (st, Err e)
      | (st, Throw) => (st, Throw)
      | (st, Crash) => (st, Crash)
      end
    end
  end.
End work.

(** ** [ProcessBlock] *)

Section process.
Context {SH : ScriptHashes} {EC : ECDSA}.
Variable ext : check_env.
Variable ReadTxFromDisk : CDiskTxPos -> option CTransaction.
Variables (nCoinbaseMaturity nTotalBlocksEstimate hashGenesis : Z).
Variables (TestNet : bool) (rate_limited fStashed : CTransaction -> bool).
Variable ReadBlockTime : Z -> Z -> option Z.
Variables (fCheckpoints : bool) (checkpoints : gmap Z Z).
(** Where [WriteToDisk] puts a block. *)
Variable place : node -> CBlock -> option (Z * Z).
(** [-maxorphanblocks], [insecure_rand()], [fReindex || fImporting]. *)
Variables (maxorphans rnd : Z) (fReindexing : bool).

Definition accept_block (s : node) (b : CBlock) : node * outcome Z unit :=
  AcceptBlock ext ReadTxFromDisk nCoinbaseMaturity nTotalBlocksEstimate hashGenesis TestNet rate_limited fStashed
    ReadBlockTime fCheckpoints checkpoints (place s b) s b.

(** [IsCanonicalBlockSignature] *)
Definition IsCanonicalBlockSignature (b : CBlock) : bool :=
  if block_IsProofOfWork b then bool_decide (vchBlockSig b = []) else IsDERSignature (vchBlockSig b) false.

Definition orphan_of (b : CBlock) : COrphanBlock :=
  {| hashBlock := block_GetHash b; hashPrev := blk_hashPrevBlock b; ob_stake := GetProofOfStake b; vchBlock := @ser _ fmt_block b |}.

(** [mapOrphanBlocksByPrev.count(hash)] *)
Definition has_child (o : orphan_blocks) (hash : Z) : bool := negb (bool_decide (multimap_at (mapOrphanBlocksByPrev o) hash = [])).

(** The block joins the orphans. *)
Definition add_orphan (b : CBlock) (o : orphan_blocks) : orphan_blocks :=
  let ob := orphan_of b in {|
  mapOrphanBlocks := <[hashBlock ob := ob]> (mapOrphanBlocks o);
  mapOrphanBlocksByPrev := multimap_insert (hashPrev ob) ob (mapOrphanBlocksByPrev o);
  setStakeSeenOrphan := if block_IsProofOfStake b then {[ GetProofOfStake b ]} ∪ setStakeSeenOrphan o else setStakeSeenOrphan o;
|}.

(** A block without its previous one. *)
Definition process_orphan (st : process_state) (b : CBlock) : process_state * outcome Z unit :=
  match ps_peer st with
  | None => (st, Ok tt)
  | Some p =>
    let hash := block_GetHash b in
    if block_IsProofOfStake b && bool_decide (GetProofOfStake b ∈ setStakeSeenOrphan (ps_orphans st)) && negb (has_child (ps_orphans st) hash)
    then (st, Err 0)
    else
      match PruneOrphanBlocks maxorphans rnd (ps_orphans st) with
      | Ok o =>
        let st := with_orphans (add_orphan b o) st in
        match GetOrphanRoot (mapOrphanBlocks (ps_orphans st)) hash with
        | Ok root =>
          let st := PushGetBlocks hashGenesis p (g_pindexBest (ps_node st)) root st in
          if fInitialDownload ext then (st, Ok tt)
          else match WantedByOrphan (mapOrphanBlocks (ps_orphans st)) (orphan_of b) with
               | Ok wanted => (push_request (AskFor wanted) st, Ok tt)
               | _ => (st, Crash)
               end
        | _ => (st, Crash)
        end
      | _ => (st, Crash)
      end
  end.

(** [ProcessBlock]; the notifications of the masternode and stashed-send
    managers after the block is accepted are left out. *)
Definition ProcessBlock (st : process_state) (b : CBlock) : process_state * outcome Z unit :=
  let hash := block_GetHash b in
  let s := ps_node st in
  if bool_decide (is_Some (mapBlockIndex s !! hash)) then (st, Err 0)
  else if bool_decide (is_Some (mapOrphanBlocks (ps_orphans st) !! hash)) then (st, Err 0)
  else if negb fReindexing && block_IsProofOfStake b && bool_decide (GetProofOfStake b ∈ setStakeSeen s) && negb (has_child (ps_orphans st) hash)
  then (st, Err 0)
  else if negb (IsCanonicalBlockSignature b) then (st, Err 0)
  else
    match CheckBlock (env_of ext s) b true true true with
    | Err _ => (st, Err 0)
    | Throw => (st, Throw)
    | Crash => (st, Crash)
    | Ok _ =>
      if bool_decide (is_Some (mapBlockIndex s !! blk_hashPrevBlock b)) then
        let '(s, r) := accept_block s b in
        let st := with_node s st in
        match r with
        | Ok _ => work accept_block (S (size (mapOrphanBlocks (ps_orphans st)))) st [hash]
        | Err _ => (st, Err 0)
        | Throw => (st, Throw)
        | Crash => (st, Crash)
        end
      else process_orphan st b
    end.
End process.
