(* ===== verification/OrphanBlocksProps.v ===== *)
(** * Properties of orphan blocks

    The two collections agree, their size is bounded, the walks along orphans
    end, and accepting a block also tries exactly the orphans that descend from
    accepted blocks. *)

From stdpp Require Import sorting.
From S2P Require Import Prelude Opcode ScriptNum Script SigEncoding Interp LegacyInterp Serialize Transaction SigHash Bignum Chain TxConnect Merkle Proofs Stake Standard Policy Mempool Block ChainState NodeProps OrphanBlocks.

Local Open Scope Z_scope.

(** ** Multimaps *)

Lemma multimap_at_set k l m p : multimap_at (multimap_set k l m) p = if decide (p = k) then l else multimap_at m p.
Proof.
  unfold multimap_at, multimap_set. case_decide as Hp.
  - subst. destruct l; [by rewrite lookup_delete_eq|by rewrite lookup_insert_eq].
  - destruct l; [by rewrite lookup_delete_ne|by rewrite lookup_insert_ne].
Qed.

Lemma multimap_set_nonempty k l m p : (forall q, m !! q <> Some []) -> multimap_set k l m !! p <> Some [].
Proof.
  intros Hm. unfold multimap_set. destruct l as [|x l].
  - intros [_ H]%lookup_delete_Some. by apply (Hm p).
  - intros [[_ [=]]|[_ H]]%lookup_insert_Some. by apply (Hm p).
Qed.

Lemma multimap_at_insert k o m p : multimap_at (multimap_insert k o m) p = if decide (p = k) then multimap_at m k ++ [o] else multimap_at m p.
Proof. apply multimap_at_set. Qed.

Lemma elem_of_concat {A} (x : A) ls : x ∈ concat ls <-> exists l, x ∈ l /\ l ∈ ls.
Proof. rewrite list_elem_of_In, in_concat. setoid_rewrite list_elem_of_In. naive_solver. Qed.

Lemma multimap_list_elem m o : o ∈ multimap_list m <-> exists p, o ∈ multimap_at m p.
Proof.
  unfold multimap_list. rewrite (merge_sort_Permutation key_le). rewrite elem_of_concat. split.
  - intros (l & Ho & ([p l'] & -> & Hl%elem_of_map_to_list)%list_elem_of_fmap). exists p. unfold multimap_at. by rewrite Hl.
  - intros (p & Ho). unfold multimap_at in Ho. destruct (m !! p) as [l|] eqn:E; [|by apply elem_of_nil in Ho].
    exists l. split; [done|]. apply list_elem_of_fmap. exists (p, l). split; [done|by apply elem_of_map_to_list].
Qed.

(** A list of distinct keys is no longer than the map. *)
Lemma keys_length {A} (m : gmap Z A) (l : list Z) : NoDup l -> (forall x, x ∈ l -> is_Some (m !! x)) -> (length l <= size m)%nat.
Proof.
  intros Hnd Hl. rewrite <-size_dom, <-(size_list_to_set (C := gset Z) l) by done. apply subseteq_size.
  intros x Hx%elem_of_list_to_set. by apply elem_of_dom, Hl.
Qed.

(** ** The invariant *)

Section invariant.
Context {SH : ScriptHashes}.

(** What an orphan holds: a block that can be read again. *)
Definition stored (o : COrphanBlock) : Prop := exists b, @ser_ok _ fmt_block b /\ o = orphan_of b.

Record blocks_ok (o : orphan_blocks) : Prop := {
  bo_key h x : mapOrphanBlocks o !! h = Some x -> hashBlock x = h /\ x ∈ multimap_at (mapOrphanBlocksByPrev o) (hashPrev x);
  bo_prev p x : x ∈ multimap_at (mapOrphanBlocksByPrev o) p -> hashPrev x = p /\ mapOrphanBlocks o !! hashBlock x = Some x;
  bo_nodup p : NoDup (multimap_at (mapOrphanBlocksByPrev o) p);
  bo_nonempty p : mapOrphanBlocksByPrev o !! p <> Some [];
  bo_stored h x : mapOrphanBlocks o !! h = Some x -> stored x;
}.

(** No chain of orphans closes: hashes of blocks decrease along some rank. *)
Definition ranked (rank : Z -> nat) (o : orphan_blocks) : Prop :=
  forall h x, mapOrphanBlocks o !! h = Some x -> (rank (hashPrev x) < rank h)%nat.

Section ok.
Context (o : orphan_blocks) (Ho : blocks_ok o).

Lemma list_map_elem x : x ∈ multimap_list (mapOrphanBlocksByPrev o) <-> mapOrphanBlocks o !! hashBlock x = Some x.
Proof using Ho.
  rewrite multimap_list_elem. split; [intros [p Hp]; by apply (bo_prev _ Ho p)|]. intros Hx. exists (hashPrev x). by apply (bo_key _ Ho _ _ Hx).
Qed.

Lemma list_NoDup : NoDup (multimap_list (mapOrphanBlocksByPrev o)).
Proof using Ho.
  unfold multimap_list. rewrite (merge_sort_Permutation key_le).
  assert (forall L : list (Z * list COrphanBlock), NoDup L.*1 -> (forall k l, (k, l) ∈ L -> NoDup l /\ forall x, x ∈ l -> hashPrev x = k) ->
    NoDup (concat (map snd L))) as Hgen.
  { induction L as [|[k l] L IH]; intros Hnd HL; cbn; [constructor|]. apply NoDup_cons in Hnd as [Hk Hnd].
    destruct (HL k l) as [Hl Hlk]; [by left|]. apply NoDup_app. split_and!; [done| |apply IH; [done|intros ???; apply HL; by right]].
    intros x Hx (l' & Hx' & ([k' l''] & -> & Hin)%list_elem_of_fmap)%elem_of_concat. cbn in Hx'.
    destruct (HL k' l'') as [_ Hk']; [by right|]. apply Hk. apply list_elem_of_fmap. exists (k', l''). split; [|done].
    cbn. by rewrite <-(Hlk x Hx), <-(Hk' x Hx'). }
  apply Hgen; [apply NoDup_fst_map_to_list|]. intros k l Hl%elem_of_map_to_list.
  pose proof (bo_nodup _ Ho k) as Hnd. pose proof (bo_prev _ Ho k) as Hp. unfold multimap_at in *. rewrite Hl in *. cbn in *.
  split; [done|]. intros x Hx. by apply Hp.
Qed.

Lemma list_length : length (multimap_list (mapOrphanBlocksByPrev o)) = size (mapOrphanBlocks o).
Proof using Ho.
  assert (multimap_list (mapOrphanBlocksByPrev o) ≡ₚ (map_to_list (mapOrphanBlocks o)).*2) as ->.
  2: { by rewrite length_map, length_map_to_list. }
  apply NoDup_Permutation; [apply list_NoDup| |].
  - apply NoDup_fmap_2_strong; [|apply NoDup_map_to_list]. intros [h x] [k y] Hx%elem_of_map_to_list Hy%elem_of_map_to_list E. cbn in *. subst y.
    apply (bo_key _ Ho) in Hx as [<- _], Hy as [<- _]. done.
  - intros x. rewrite list_map_elem, list_elem_of_fmap. split.
    + intros Hx. exists (hashBlock x, x). split; [done|by apply elem_of_map_to_list].
    + intros ([h y] & -> & Hy%elem_of_map_to_list). cbn. by destruct (bo_key _ Ho _ _ Hy) as [-> _].
Qed.

(** ** The walks *)

Section walks.
Context (rank : Z -> nat) (Hrank : ranked rank o).

(** [visited] are orphans above the current one, all different. *)
Lemma root_loop_ok fuel key it visited : mapOrphanBlocks o !! key = Some it -> NoDup visited ->
  (forall x, x ∈ visited -> is_Some (mapOrphanBlocks o !! x) /\ (rank key < rank x)%nat) ->
  (size (mapOrphanBlocks o) < fuel + length visited)%nat -> exists root, root_loop (mapOrphanBlocks o) fuel key it = Ok root.
Proof using Ho Hrank.
  revert key it visited. induction fuel as [|fuel IH]; intros key it visited Hit Hnd Hv Hf; cbn [root_loop].
  - pose proof (keys_length (mapOrphanBlocks o) visited Hnd (fun x Hx => proj1 (Hv x Hx))). lia.
  - destruct (mapOrphanBlocks o !! hashPrev it) as [it2|] eqn:E; [|by eexists]. pose proof (Hrank _ _ Hit) as Hlt.
    apply (IH (hashPrev it) it2 (key :: visited)); [done| | |cbn; lia].
    + apply NoDup_cons. split; [|done]. intros Hin. destruct (Hv _ Hin). lia.
    + intros x [->|Hx]%elem_of_cons; [by split; [eexists|]|]. destruct (Hv x Hx). split; [done|lia].
Qed.

Lemma GetOrphanRoot_ok hash : exists root, GetOrphanRoot (mapOrphanBlocks o) hash = Ok root.
Proof using Ho Hrank.
  unfold GetOrphanRoot. destruct (mapOrphanBlocks o !! hash) as [it|] eqn:E; [|by eexists].
  apply (root_loop_ok _ _ _ []); [done|constructor|by intros ? ?%elem_of_nil|cbn; lia].
Qed.

Lemma wanted_loop_ok fuel key it visited : mapOrphanBlocks o !! key = Some it -> NoDup visited ->
  (forall x, x ∈ visited -> is_Some (mapOrphanBlocks o !! x) /\ (rank key < rank x)%nat) ->
  (size (mapOrphanBlocks o) < fuel + length visited)%nat ->
  exists h, wanted_loop (mapOrphanBlocks o) fuel it = Ok h /\ mapOrphanBlocks o !! h = None.
Proof using Ho Hrank.
  revert key it visited. induction fuel as [|fuel IH]; intros key it visited Hit Hnd Hv Hf; cbn [wanted_loop].
  - pose proof (keys_length (mapOrphanBlocks o) visited Hnd (fun x Hx => proj1 (Hv x Hx))). lia.
  - destruct (mapOrphanBlocks o !! hashPrev it) as [it2|] eqn:E; [|by eexists]. pose proof (Hrank _ _ Hit) as Hlt.
    apply (IH (hashPrev it) it2 (key :: visited)); [done| | |cbn; lia].
    + apply NoDup_cons. split; [|done]. intros Hin. destruct (Hv _ Hin). lia.
    + intros x [->|Hx]%elem_of_cons; [by split; [eexists|]|]. destruct (Hv x Hx). split; [done|lia].
Qed.

Lemma leaf_loop_ok fuel it visited : mapOrphanBlocks o !! hashBlock it = Some it -> NoDup visited ->
  (forall x, x ∈ visited -> is_Some (mapOrphanBlocks o !! x) /\ (rank x < rank (hashBlock it))%nat) ->
  (size (mapOrphanBlocks o) < fuel + length visited)%nat ->
  exists leaf, leaf_loop (mapOrphanBlocksByPrev o) fuel it = Ok leaf /\ mapOrphanBlocks o !! hashBlock leaf = Some leaf /\
    multimap_at (mapOrphanBlocksByPrev o) (hashBlock leaf) = [].
Proof using Ho Hrank.
  revert it visited. induction fuel as [|fuel IH]; intros it visited Hit Hnd Hv Hf; cbn [leaf_loop].
  - pose proof (keys_length (mapOrphanBlocks o) visited Hnd (fun x Hx => proj1 (Hv x Hx))). lia.
  - destruct (multimap_at (mapOrphanBlocksByPrev o) (hashBlock it)) as [|it2 l] eqn:E; [by exists it|].
    destruct (bo_prev _ Ho (hashBlock it) it2) as [Hprev Hit2]; [rewrite E; by left|].
    pose proof (Hrank _ _ Hit2) as Hlt. rewrite Hprev in Hlt.
    apply (IH it2 (hashBlock it :: visited)); [done| | |cbn; lia].
    + apply NoDup_cons. split; [|done]. intros Hin. destruct (Hv _ Hin). lia.
    + intros x [->|Hx]%elem_of_cons; [by split; [eexists|]|]. destruct (Hv x Hx). split; [done|lia].
Qed.
End walks.

(** ** Erasing one, pruning *)

Lemma erase_orphan_ok it : mapOrphanBlocks o !! hashBlock it = Some it -> blocks_ok (erase_orphan it o).
Proof using Ho.
  intros Hit. assert (forall p x, x ∈ multimap_at (mapOrphanBlocksByPrev (erase_orphan it o)) p <->
      x ∈ multimap_at (mapOrphanBlocksByPrev o) p /\ hashBlock x <> hashBlock it) as Hat.
  { intros p x. cbn. rewrite multimap_at_set. case_decide as Hp; [subst; rewrite list_elem_of_filter; tauto|].
    split; [|tauto]. intros Hx. split; [done|]. intros E. destruct (bo_prev _ Ho p x Hx) as [Hpx Hx']. rewrite E, Hit in Hx'.
    injection Hx' as ->. congruence. }
  split.
  - intros h x. cbn. intros [Hne Hx]%lookup_delete_Some. destruct (bo_key _ Ho h x Hx) as [Hh Hin].
    split; [done|]. apply Hat. split; [done|congruence].
  - intros p x [Hx Hne]%Hat. destruct (bo_prev _ Ho p x Hx). split; [done|]. cbn. by rewrite lookup_delete_ne.
  - intros p. cbn. rewrite multimap_at_set. case_decide; [apply NoDup_filter|]; apply (bo_nodup _ Ho).
  - intros p. apply multimap_set_nonempty, (bo_nonempty _ Ho).
  - intros h x. cbn. intros [_ Hx]%lookup_delete_Some. by apply (bo_stored _ Ho h).
Qed.

Lemma PruneOrphanBlocks_ok rank maxorphans rnd : ranked rank o -> exists o', PruneOrphanBlocks maxorphans rnd o = Ok o' /\ blocks_ok o' /\
  mapOrphanBlocks o' ⊆ mapOrphanBlocks o /\
  Z.of_nat (size (mapOrphanBlocks o')) < Z.max (Z.of_nat (size (mapOrphanBlocks o))) (Z.max 0 maxorphans + 1) /\
  (forall h x, mapOrphanBlocks o !! h = Some x -> mapOrphanBlocks o' !! h = None -> has_child o h = false).
Proof using Ho.
  intros Hrank. unfold PruneOrphanBlocks. unfold zlen. rewrite list_length.
  destruct (Z.leb_spec (Z.of_nat (size (mapOrphanBlocks o))) (Z.max 0 maxorphans)) as [Hle|Hgt].
  { exists o. split_and!; [done|done|done|lia|congruence]. }
  set (i := Z.to_nat (rnd mod Z.of_nat (size (mapOrphanBlocks o)))).
  destruct (lookup_lt_is_Some_2 (multimap_list (mapOrphanBlocksByPrev o)) i) as [it Hi].
  { rewrite list_length. pose proof (Z.mod_pos_bound rnd (Z.of_nat (size (mapOrphanBlocks o)))). lia. }
  rewrite Hi. apply list_elem_of_lookup_2, list_map_elem in Hi.
  destruct (leaf_loop_ok rank Hrank (S (size (mapOrphanBlocks o))) it []) as (leaf & -> & Hleaf & Hno);
    [done|constructor|by intros ? ?%elem_of_nil|cbn; lia|].
  cbn. exists (erase_orphan leaf o). split_and!; [done|by apply erase_orphan_ok| | |].
  - apply delete_subseteq.
  - cbn. rewrite map_size_delete_Some by by eexists. assert (0 < size (mapOrphanBlocks o))%nat; [|lia].
    destruct (size (mapOrphanBlocks o)) eqn:E; [|lia]. apply map_size_empty_inv in E. rewrite E in Hleaf. by rewrite lookup_empty in Hleaf.
  - intros h x Hx. cbn. rewrite lookup_delete_None. intros [<-|?]; [|congruence]. unfold has_child. by rewrite bool_decide_eq_true_2.
Qed.

Lemma add_orphan_ok b : @ser_ok _ fmt_block b -> mapOrphanBlocks o !! block_GetHash b = None -> blocks_ok (add_orphan b o).
Proof using Ho.
  intros Hb Hnew. assert (forall p x, x ∈ multimap_at (mapOrphanBlocksByPrev (add_orphan b o)) p <->
      x ∈ multimap_at (mapOrphanBlocksByPrev o) p \/ (p = blk_hashPrevBlock b /\ x = orphan_of b)) as Hat.
  { intros p x. cbn. rewrite multimap_at_insert. case_decide as Hp; [|naive_solver].
    subst. rewrite elem_of_app, list_elem_of_singleton. naive_solver. }
  split.
  - intros h x. cbn. intros [[<- <-]|[Hne Hx]]%lookup_insert_Some; [split; [done|]; apply Hat; by right|].
    destruct (bo_key _ Ho h x Hx). split; [done|]. apply Hat. by left.
  - intros p x [Hx|[-> ->]]%Hat; cbn; [|split; [done|by rewrite lookup_insert_eq]].
    destruct (bo_prev _ Ho p x Hx). split; [done|]. rewrite lookup_insert_ne; [done|congruence].
  - intros p. cbn. rewrite multimap_at_insert. case_decide; [|apply (bo_nodup _ Ho)]. apply NoDup_app.
    split_and!; [apply (bo_nodup _ Ho)| |apply NoDup_singleton]. intros x Hx Hx'. apply list_elem_of_singleton in Hx' as ->.
    apply (bo_prev _ Ho) in Hx as [_ Hx]. cbn in Hx. congruence.
  - intros p. apply multimap_set_nonempty, (bo_nonempty _ Ho).
  - intros h x. cbn. intros [[<- <-]|[_ Hx]]%lookup_insert_Some; [by exists b|by apply (bo_stored _ Ho h)].
Qed.

Lemma children_NoDup h : NoDup (map hashBlock (multimap_at (mapOrphanBlocksByPrev o) h)).
Proof using Ho.
  apply NoDup_fmap_2_strong; [|apply (bo_nodup _ Ho)]. intros x y Hx Hy E.
  apply (bo_prev _ Ho) in Hx as [_ Hx], Hy as [_ Hy]. congruence.
Qed.
End ok.
End invariant.

(** ** The work queue *)

Section work.
Context {SH : ScriptHashes}.
Variable accept : node -> CBlock -> node * outcome Z unit.
(** An invariant of the node that accepting good blocks keeps, without
    exceptions. *)
Variables (Inv : node -> Prop) (Good : CBlock -> Prop).
Hypothesis accept_Inv : forall s b, Inv s -> Good b -> Inv (fst (accept s b)) /\
  match snd (accept s b) with Ok _ | Err _ => True | _ => False end.

Definition good_orphan (x : COrphanBlock) : Prop := exists b, @ser_ok _ fmt_block b /\ x = orphan_of b /\ Good b.

Definition drop (x : COrphanBlock) (m : gmap Z COrphanBlock) : gmap Z COrphanBlock := delete (hashBlock x) m.

(** What was tried, in order, and whether it was accepted. *)
Abbreviation log := (list (CBlock * bool)).

Inductive tries : node -> log -> node -> Prop :=
| tries_nil s : tries s [] s
| tries_accepted s b s1 u l s2 : accept s b = (s1, Ok u) -> tries s1 l s2 -> tries s ((b, true) :: l) s2
| tries_refused s b s1 e l s2 : accept s b = (s1, Err e) -> tries s1 l s2 -> tries s ((b, false) :: l) s2.

Definition tried (l : log) : list COrphanBlock := map (fun p => orphan_of p.1) l.
Definition accepted_of (l : log) : list Z := omap (fun p => if p.2 : bool then Some (block_GetHash p.1) else None) l.
Definition stakes_of (l : log) : gset (COutPoint * Z) := list_to_set (map (fun p => GetProofOfStake p.1) l).

(** Every block is tried after its previous one was accepted. *)
Fixpoint in_order (known : list Z) (l : log) : Prop :=
  match l with
  | [] => True
  | (b, ok) :: l => blk_hashPrevBlock b ∈ known /\ in_order (known ++ if ok : bool then [block_GetHash b] else []) l
  end.

Lemma tries_app s l1 s1 l2 s2 : tries s l1 s1 -> tries s1 l2 s2 -> tries s (l1 ++ l2) s2.
Proof using. induction 1; intros H2; cbn; [done|eapply tries_accepted; [done|auto]|eapply tries_refused; [done|auto]]. Qed.

Lemma accepted_of_app l1 l2 : accepted_of (l1 ++ l2) = accepted_of l1 ++ accepted_of l2.
Proof using. apply omap_app. Qed.

Lemma accepted_of_length l : (length (accepted_of l) <= length (tried l))%nat.
Proof using.
  unfold tried. rewrite length_map. induction l as [|[b []] l IH]; [done| |].
  - change (accepted_of ((b, true) :: l)) with (block_GetHash b :: accepted_of l). cbn [length]. lia.
  - change (accepted_of ((b, false) :: l)) with (accepted_of l). cbn [length]. lia.
Qed.

Lemma in_order_mono l : forall K K', (forall h, h ∈ K -> h ∈ K') -> in_order K l -> in_order K' l.
Proof using.
  induction l as [|[b ok] l IH]; intros K K' H; cbn; [done|]. intros [Hb Hl]. split; [by apply H|].
  eapply IH; [|exact Hl]. intros h. rewrite !elem_of_app. intros [?|?]; auto.
Qed.

Lemma in_order_app l1 l2 : forall K, in_order K l1 -> in_order (K ++ accepted_of l1) l2 -> in_order K (l1 ++ l2).
Proof using.
  induction l1 as [|[b ok] l1 IH]; intros K; cbn [in_order app]; [by rewrite app_nil_r|]. intros [Hb Hl1] Hl2. split; [done|].
  apply IH; [done|]. rewrite <-app_assoc. by destruct ok.
Qed.

Lemma in_order_siblings h l : forall K, h ∈ K -> (forall x, x ∈ tried l -> hashPrev x = h) -> in_order K l.
Proof using.
  induction l as [|[b ok] l IH]; intros K Hh Hx; cbn; [done|]. split.
  - by rewrite (Hx (orphan_of b) ltac:(by left) : blk_hashPrevBlock b = h).
  - apply IH; [apply elem_of_app; by left|]. intros x Hin. apply Hx. by right.
Qed.

Lemma process_children_ok C st : Forall good_orphan C -> Inv (ps_node st) ->
  exists st' l, process_children accept st C = (st', Ok (accepted_of l)) /\ tried l = C /\
    tries (ps_node st) l (ps_node st') /\ Inv (ps_node st') /\
    mapOrphanBlocks (ps_orphans st') = foldl (fun m x => drop x m) (mapOrphanBlocks (ps_orphans st)) C /\
    mapOrphanBlocksByPrev (ps_orphans st') = mapOrphanBlocksByPrev (ps_orphans st) /\
    setStakeSeenOrphan (ps_orphans st') = setStakeSeenOrphan (ps_orphans st) ∖ stakes_of l.
Proof using accept_Inv.
  intros HC. revert st. induction HC as [|x C (b & Hb & -> & Hgood) _ IH]; intros st HI; cbn [process_children].
  { exists st, []. split_and!; try done; [constructor|]. unfold stakes_of. cbn. clear. set_solver. }
  unfold process_child. cbn [vchBlock orphan_of].
  rewrite <-(app_nil_r (@ser _ fmt_block b)), unser_ser by done.
  destruct (accept_Inv (ps_node st) b HI Hgood) as [HI' Hret]. destruct (accept (ps_node st) b) as [s r] eqn:Ea. cbn [fst snd] in *.
  edestruct (IH (with_orphans {| mapOrphanBlocks := delete (hashBlock (orphan_of b)) (mapOrphanBlocks (ps_orphans st));
    mapOrphanBlocksByPrev := mapOrphanBlocksByPrev (ps_orphans st);
    setStakeSeenOrphan := setStakeSeenOrphan (ps_orphans st) ∖ {[ GetProofOfStake b ]} |} (with_node s st)) HI') as
    (st' & l & Hst & Htr & Ht & HIn & Hm & Hbp & Hs).
  cbn [ps_orphans with_orphans setStakeSeenOrphan ps_node with_node mapOrphanBlocksByPrev mapOrphanBlocks] in *.
  assert (setStakeSeenOrphan (ps_orphans st) ∖ {[GetProofOfStake b]} ∖ stakes_of l =
    setStakeSeenOrphan (ps_orphans st) ∖ ({[GetProofOfStake b]} ∪ stakes_of l)) as Es by set_solver.
  destruct r as [u|e| |]; try done; rewrite Hst.
  - exists st', ((b, true) :: l). split_and!; [done|by cbn; f_equal|by eapply tries_accepted|done|done|done|by rewrite Hs, Es].
  - exists st', ((b, false) :: l). split_and!; [done|by cbn; f_equal|by eapply tries_refused|done|done|done|by rewrite Hs, Es].
Qed.

Lemma foldl_drop C m k : foldl (fun m x => drop x m) m C !! k = if decide (k ∈ map hashBlock C) then None else m !! k.
Proof.
  revert m. induction C as [|x C IH]; intros m; cbn [foldl map]; [by rewrite decide_False by apply not_elem_of_nil|].
  rewrite IH. unfold drop. destruct (decide (k = hashBlock x)) as [->|Hk].
  - rewrite (decide_True (P := hashBlock x ∈ hashBlock x :: _)) by (by left). rewrite lookup_delete_eq. by case_decide.
  - rewrite lookup_delete_ne by done. assert (k ∈ hashBlock x :: map hashBlock C <-> k ∈ map hashBlock C) as E by (rewrite elem_of_cons; tauto).
    by rewrite (decide_ext _ _ _ _ E).
Qed.

Lemma size_drop C m : NoDup (map hashBlock C) -> (forall k, k ∈ map hashBlock C -> is_Some (m !! k)) ->
  (size (foldl (fun m x => drop x m) m C) + length C)%nat = size m.
Proof.
  revert m. induction C as [|x C IH]; intros m Hnd Hin; cbn [foldl map length] in *; [lia|].
  apply NoDup_cons in Hnd as [Hx Hnd]. assert (is_Some (m !! hashBlock x)) as [y Hy] by (apply Hin; by left).
  assert (size (drop x m) = pred (size m)) as Es by (apply map_size_delete_Some; by exists y).
  assert (size m <> 0)%nat by (intros E; apply map_size_empty_inv in E; subst; by rewrite lookup_empty in Hy).
  assert (forall k, k ∈ map hashBlock C -> is_Some (drop x m !! k)) as Hin'.
  { intros k Hk. unfold drop. rewrite lookup_delete_ne; [apply Hin; by right|]. by intros <-. }
  specialize (IH (drop x m) Hnd Hin'). lia.
Qed.

(** One element of the queue. *)
Definition done_with (h : Z) (o : orphan_blocks) (m : gmap Z COrphanBlock) (seen : gset (COutPoint * Z)) : orphan_blocks :=
  {| mapOrphanBlocks := m; mapOrphanBlocksByPrev := delete h (mapOrphanBlocksByPrev o); setStakeSeenOrphan := seen |}.

Lemma done_with_ok o h m seen : blocks_ok o ->
  m = foldl (fun m x => drop x m) (mapOrphanBlocks o) (multimap_at (mapOrphanBlocksByPrev o) h) ->
  blocks_ok (done_with h o m seen) /\
  forall k, m !! k = match mapOrphanBlocks o !! k with Some x => if decide (hashPrev x = h) then None else Some x | None => None end.
Proof.
  intros Ho ->. assert (forall k, foldl (fun m x => drop x m) (mapOrphanBlocks o) (multimap_at (mapOrphanBlocksByPrev o) h) !! k =
    match mapOrphanBlocks o !! k with Some x => if decide (hashPrev x = h) then None else Some x | None => None end) as Hk.
  { intros k. rewrite foldl_drop. destruct (mapOrphanBlocks o !! k) as [x|] eqn:Ex; [|by case_decide].
    destruct (bo_key _ Ho k x Ex) as [Hx Hin]. destruct (decide (hashPrev x = h)) as [<-|Hne].
    - rewrite decide_True; [done|]. rewrite <-Hx. by apply (list_elem_of_fmap_2 hashBlock).
    - rewrite decide_False; [done|]. intros (y & E & Hy)%list_elem_of_fmap. apply (bo_prev _ Ho) in Hy as [Hp Hy]. congruence. }
  split; [|done].
  assert (forall p, multimap_at (delete h (mapOrphanBlocksByPrev o)) p = if decide (p = h) then [] else multimap_at (mapOrphanBlocksByPrev o) p) as Hat.
  { intros p. unfold multimap_at. case_decide; [subst; by rewrite lookup_delete_eq|by rewrite lookup_delete_ne]. }
  split; cbn [done_with mapOrphanBlocks mapOrphanBlocksByPrev].
  - intros k x. rewrite Hk. destruct (mapOrphanBlocks o !! k) as [y|] eqn:Ey; [|done]. case_decide as Hy; [done|]. intros [= <-].
    rewrite Hat, decide_False by done. by apply (bo_key _ Ho).
  - intros p x. rewrite Hat. case_decide as Hp; [by intros ?%elem_of_nil|]. intros Hx. destruct (bo_prev _ Ho p x Hx) as [E Hx'].
    split; [done|]. rewrite Hk, Hx'. by rewrite decide_False by congruence.
  - intros p. rewrite Hat. case_decide; [constructor|apply (bo_nodup _ Ho)].
  - intros p. rewrite lookup_delete_Some. intros [_ H]. by apply (bo_nonempty _ Ho p).
  - intros k x. rewrite Hk. destruct (mapOrphanBlocks o !! k) as [y|] eqn:Ey; [|done]. case_decide; [done|]. intros [= <-].
    by apply (bo_stored _ Ho k).
Qed.

(** The orphans whose previous block is not in the list. *)
Definition waiting_for (o o' : orphan_blocks) (hs : list Z) : Prop := forall k, mapOrphanBlocks o' !! k =
  match mapOrphanBlocks o !! k with Some x => if decide (hashPrev x ∈ hs) then None else Some x | None => None end.

(** What the loop leaves when it starts with the queue [Q] and has tried [l]. *)
Record worked (Q : list Z) (o o' : orphan_blocks) (l : log) : Prop := {
  wk_waiting : waiting_for o o' (Q ++ accepted_of l);
  wk_tried x : x ∈ tried l <-> mapOrphanBlocks o !! hashBlock x = Some x /\ hashPrev x ∈ Q ++ accepted_of l;
  wk_once : NoDup (tried l);
  wk_order : in_order Q l;
  wk_stakes : setStakeSeenOrphan o' = setStakeSeenOrphan o ∖ stakes_of l;
}.

Lemma worked_nil Q o : (forall x, mapOrphanBlocks o !! hashBlock x = Some x -> hashPrev x ∉ Q) ->
  (forall k x, mapOrphanBlocks o !! k = Some x -> hashBlock x = k) -> worked Q o o [].
Proof using.
  intros H Hk. split; try done; cbn [accepted_of omap list_omap]; rewrite ?app_nil_r.
  - intros k. destruct (mapOrphanBlocks o !! k) as [x|] eqn:Ex; [|done]. rewrite decide_False; [done|]. apply H. by rewrite (Hk k x Ex).
  - intros x. split; [by intros ?%elem_of_nil|]. intros [Hx Hin]. by destruct (H x Hx).
  - constructor.
  - unfold stakes_of. cbn. clear. set_solver.
Qed.

Lemma work_ok fuel st Q : blocks_ok (ps_orphans st) -> (forall k x, mapOrphanBlocks (ps_orphans st) !! k = Some x -> good_orphan x) ->
  Inv (ps_node st) -> (length Q + size (mapOrphanBlocks (ps_orphans st)) <= fuel)%nat ->
  exists st' l, work accept fuel st Q = (st', Ok tt) /\ tries (ps_node st) l (ps_node st') /\ Inv (ps_node st') /\
    blocks_ok (ps_orphans st') /\ worked Q (ps_orphans st) (ps_orphans st') l.
Proof using accept_Inv.
  revert st Q. induction fuel as [|fuel IH]; intros st [|h Q] Ho Hgood HI Hf; cbn [work]; try (cbn in Hf; lia).
  1,2: exists st, []; (split_and!; [done|constructor|done|done|]); apply worked_nil; [by intros x _ ?%elem_of_nil|intros k x Hx; by apply (bo_key _ Ho)].
  set (C := multimap_at (mapOrphanBlocksByPrev (ps_orphans st)) h).
  assert (forall x, x ∈ C -> hashPrev x = h /\ mapOrphanBlocks (ps_orphans st) !! hashBlock x = Some x) as HC by (intros x Hx; by apply (bo_prev _ Ho)).
  destruct (process_children_ok C st) as (st1 & l1 & -> & Hl1 & Ht1 & HI1 & Hm1 & Hb1 & Hs1); [|done|].
  { apply Forall_forall. intros x Hx. destruct (HC x Hx) as [_ Hx']. by apply (Hgood _ _ Hx'). }
  destruct (done_with_ok (ps_orphans st) h (mapOrphanBlocks (ps_orphans st1)) (setStakeSeenOrphan (ps_orphans st1)) Ho Hm1) as [Ho2 Hk2].
  rewrite Hb1. fold (done_with h (ps_orphans st) (mapOrphanBlocks (ps_orphans st1)) (setStakeSeenOrphan (ps_orphans st1))).
  set (o2 := done_with _ _ _ _) in *.
  assert (forall k x, mapOrphanBlocks o2 !! k = Some x <-> mapOrphanBlocks (ps_orphans st) !! k = Some x /\ hashPrev x <> h) as Hsub.
  { intros k x. cbn. rewrite Hk2. destruct (mapOrphanBlocks (ps_orphans st) !! k) as [y|]; [|by split; [|intros []]].
    case_decide; split; [done|by intros [[= ->] ?]|by intros [= ->]|by intros [[= ->] ?]]. }
  assert (length (accepted_of l1) <= length C)%nat as Hlen.
  { rewrite <-Hl1. apply accepted_of_length. }
  destruct (IH (with_orphans o2 st1) (Q ++ accepted_of l1)) as (st' & l2 & -> & Ht2 & HI' & Ho' & [Hwait Htried Honce Horder Hstakes]); [done| |done| |].
  { intros k x Hx. by apply (Hgood k), Hsub. }
  { cbn [with_orphans ps_orphans o2 done_with mapOrphanBlocks].
    pose proof (size_drop C (mapOrphanBlocks (ps_orphans st)) (children_NoDup _ Ho h)) as Hs. rewrite Hm1, length_app. cbn in Hf.
    rewrite <-Hs in Hf; [lia|]. intros k (x & -> & Hx)%list_elem_of_fmap. destruct (HC x Hx) as [_ ?]. by exists x. }
  cbn [with_orphans ps_orphans ps_node] in Hwait, Htried, Honce, Horder, Hstakes, Ht2.
  assert (forall p, p ∈ (Q ++ accepted_of l1) ++ accepted_of l2 <-> p ∈ Q ++ accepted_of (l1 ++ l2)) as Eacc.
  { intros p. by rewrite accepted_of_app, <-app_assoc. }
  exists st', (l1 ++ l2). split_and!; [done|by eapply tries_app|done|done|]. split.
  - intros k. rewrite (Hwait k). cbn [o2 done_with mapOrphanBlocks]. rewrite Hk2.
    destruct (mapOrphanBlocks (ps_orphans st) !! k) as [x|]; [|done]. destruct (decide (hashPrev x = h)) as [->|Hne].
    + by rewrite decide_True by (cbn; by left).
    + apply decide_ext. rewrite Eacc. cbn. rewrite elem_of_cons. tauto.
  - intros x. unfold tried. rewrite map_app, elem_of_app. fold (tried l1) (tried l2). rewrite Hl1, Htried, Hsub, Eacc. cbn [app]. rewrite elem_of_cons.
    destruct (decide (hashPrev x = h)) as [E|Hne].
    + split; [|intros [Hx _]; left; unfold C; rewrite <-E; by apply (bo_key _ Ho _ _ Hx)]. intros [Hx|[[_ ?] _]]; [|done]. destruct (HC x Hx). auto.
    + split; [intros [Hx|[[? _] ?]]; [by destruct (HC x Hx)|auto]|]. intros [? [?|?]]; [done|auto].
  - unfold tried. rewrite map_app. fold (tried l1) (tried l2). rewrite Hl1. apply NoDup_app. split_and!; [apply (bo_nodup _ Ho)| |done].
    intros x Hx [[_ Hne]%Hsub _]%Htried. by destruct (HC x Hx).
  - apply in_order_app.
    + apply (in_order_siblings h); [by left|]. rewrite Hl1. intros x Hx. by apply HC.
    + eapply in_order_mono; [|exact Horder]. intros p Hp. by right.
  - rewrite Hstakes. cbn [o2 done_with setStakeSeenOrphan]. rewrite Hs1. unfold stakes_of. rewrite map_app, list_to_set_app_L. set_solver.
Qed.
End work.

(** ** [ProcessBlock] *)

Section process.
Context {SH : ScriptHashes} {EC : ECDSA}.
Variable ext : check_env.
Variable ReadTxFromDisk : CDiskTxPos -> option CTransaction.
Variables (nCoinbaseMaturity nTotalBlocksEstimate hashGenesis : Z).
Variables (TestNet : bool) (rate_limited fStashed : CTransaction -> bool).
Variable ReadBlockTime : Z -> Z -> option Z.
Variables (fCheckpoints : bool) (checkpoints : gmap Z Z).
Variable place : node -> CBlock -> option (Z * Z).
Variables (maxorphans rnd : Z) (fReindexing : bool).

Abbreviation accept := (accept_block ext ReadTxFromDisk nCoinbaseMaturity nTotalBlocksEstimate hashGenesis TestNet rate_limited fStashed
  ReadBlockTime fCheckpoints checkpoints place).
Abbreviation process := (ProcessBlock ext ReadTxFromDisk nCoinbaseMaturity nTotalBlocksEstimate hashGenesis TestNet rate_limited fStashed
  ReadBlockTime fCheckpoints checkpoints place maxorphans rnd fReindexing).

Variables (Inv : node -> Prop) (Good : CBlock -> Prop) (rank : Z -> nat).

(** The orphans are consistent and hold good blocks. *)
Definition orphans_inv (o : orphan_blocks) : Prop :=
  blocks_ok o /\ forall k x, mapOrphanBlocks o !! k = Some x -> good_orphan Good x.

Definition size_of (o : orphan_blocks) : Z := Z.of_nat (size (mapOrphanBlocks o)).

Lemma good_ranked o : (forall b, Good b -> (rank (blk_hashPrevBlock b) < rank (block_GetHash b))%nat) -> orphans_inv o -> ranked rank o.
Proof.
  intros Hr [Ho Hgood] h x Hx. destruct (bo_key _ Ho h x Hx) as [<- _]. destruct (Hgood _ x Hx) as (b & _ & -> & Hb). by apply Hr.
Qed.

(** A block whose previous one is unknown. *)
Lemma process_orphan_ok st b : (forall b, Good b -> (rank (blk_hashPrevBlock b) < rank (block_GetHash b))%nat) ->
  orphans_inv (ps_orphans st) -> @ser_ok _ fmt_block b -> Good b -> mapOrphanBlocks (ps_orphans st) !! block_GetHash b = None ->
  exists st' r, process_orphan ext hashGenesis maxorphans rnd st b = (st', r) /\ (r = Ok tt \/ (r = Err 0 /\ st' = st)) /\
    ps_node st' = ps_node st /\ orphans_inv (ps_orphans st') /\
    size_of (ps_orphans st') <= Z.max (size_of (ps_orphans st)) (Z.max 0 maxorphans + 1) /\
    (r = Ok tt -> is_Some (ps_peer st) -> mapOrphanBlocks (ps_orphans st') !! block_GetHash b = Some (orphan_of b)).
Proof.
  intros Hr Hinv Hb HGb Hnew. unfold process_orphan. destruct (ps_peer st) as [p|] eqn:Ep.
  2: { exists st, (Ok tt). split_and!; try done; [by left|lia]. }
  destruct (_ && negb _); [exists st, (Err 0); split_and!; try done; [by right|lia]|].
  destruct (PruneOrphanBlocks_ok _ (proj1 Hinv) rank maxorphans rnd (good_ranked _ Hr Hinv)) as (o & -> & Ho & Hsub & Hsize & _).
  assert (mapOrphanBlocks o !! block_GetHash b = None) as Hnew' by (by eapply lookup_weaken_None).
  assert (orphans_inv (add_orphan b o)) as Hinv'.
  { split; [by apply add_orphan_ok|]. intros k x. cbn. intros [[<- <-]|[_ Hx]]%lookup_insert_Some; [by exists b|].
    apply (proj2 Hinv k). by eapply lookup_weaken. }
  cbn [with_orphans ps_orphans ps_node].
  destruct (GetOrphanRoot_ok _ (proj1 Hinv') rank (good_ranked _ Hr Hinv') (block_GetHash b)) as [root ->].
  assert (size_of (add_orphan b o) <= Z.max (size_of (ps_orphans st)) (Z.max 0 maxorphans + 1)) as Hsz.
  { unfold size_of in *. cbn. rewrite map_size_insert_None by done. lia. }
  set (st1 := PushGetBlocks _ _ _ _ _). assert (ps_node st1 = ps_node st /\ ps_orphans st1 = add_orphan b o) as [En Eo].
  { unfold st1, PushGetBlocks. by destruct (_ && _). }
  destruct (fInitialDownload ext).
  { exists st1, (Ok tt). rewrite En, Eo. split_and!; try done; [by left|]. intros _ _. cbn. by rewrite lookup_insert_eq. }
  destruct (wanted_loop_ok (add_orphan b o) (proj1 Hinv') rank (good_ranked _ Hr Hinv')
    (S (size (mapOrphanBlocks (add_orphan b o)))) (block_GetHash b) (orphan_of b) []) as (w & Hw & _);
    [cbn; by rewrite lookup_insert_eq|constructor|by intros ? ?%elem_of_nil|cbn; lia|].
  unfold WantedByOrphan. rewrite Eo, Hw. exists (push_request (AskFor w) st1), (Ok tt).
  cbn [push_request ps_node ps_orphans]. rewrite En, Eo. split_and!; try done; [by left|]. intros _ _. cbn. by rewrite lookup_insert_eq.
Qed.

(** What [ProcessBlock] makes of a state when [CheckBlock] raises no exception. *)
Record processed (st : process_state) (b : CBlock) (st' : process_state) (r : outcome Z unit) : Prop := {
  pr_result : r = Ok tt \/ r = Err 0;
  pr_node : Inv (ps_node st');
  pr_orphans : orphans_inv (ps_orphans st');
  pr_size : size_of (ps_orphans st') <= Z.max (size_of (ps_orphans st)) (Z.max 0 maxorphans + 1);
  pr_known : r = Ok tt -> is_Some (mapBlockIndex (ps_node st) !! blk_hashPrevBlock b) ->
    exists s1 l, accept (ps_node st) b = (s1, Ok tt) /\ tries accept s1 l (ps_node st') /\
      worked [block_GetHash b] (ps_orphans st) (ps_orphans st') l;
  pr_unknown : mapBlockIndex (ps_node st) !! blk_hashPrevBlock b = None ->
    ps_node st' = ps_node st /\
    (r = Ok tt -> is_Some (ps_peer st) -> mapOrphanBlocks (ps_orphans st') !! block_GetHash b = Some (orphan_of b));
}.

Lemma processed_same st b : Inv (ps_node st) -> orphans_inv (ps_orphans st) -> processed st b st (Err 0).
Proof. intros HI Ho. split; try done; [by right|lia]. Qed.

(** C5: [ProcessBlock] manages the blocks that wait for their previous one.  It
    ends without exception unless [CheckBlock] raises one; the two collections of
    orphans stay consistent and bounded by the option; and whatever accepting
    good blocks keeps of the node is kept.  When the previous block is known and
    the block is accepted, the orphans tried are exactly those whose previous
    block was accepted in this call, each once and after its previous one, down
    to every generation: no orphan is left waiting for an accepted block.  They
    leave the collections, with their stakes, whether they are accepted or
    not, and no other does.  When the previous block is unknown, the node itself
    does not change, and with a peer to ask the block joins the orphans. *)
Theorem ProcessBlock_orphans (st : process_state) (b : CBlock)
    (Hstep : forall s b, Inv s -> Good b -> Inv (fst (accept s b)) /\ match snd (accept s b) with Ok _ | Err _ => True | _ => False end)
    (Hrank : forall b, Good b -> (rank (blk_hashPrevBlock b) < rank (block_GetHash b))%nat)
    (HI : Inv (ps_node st)) (Ho : orphans_inv (ps_orphans st)) (Hb : @ser_ok _ fmt_block b) (HGb : Good b) :
  let '(st', r) := process st b in
  match CheckBlock (env_of ext (ps_node st)) b true true true with
  | Throw => r = Throw \/ r = Err 0
  | Crash => r = Crash \/ r = Err 0
  | _ => processed st b st' r
  end.
Proof.
  pose proof (processed_same st b HI Ho) as Hrefuse. unfold ProcessBlock.
  destruct (bool_decide (is_Some (mapBlockIndex _ !! block_GetHash b))); [destruct (CheckBlock _ _ _ _ _); auto|].
  destruct (bool_decide (is_Some (mapOrphanBlocks _ !! _))) eqn:Hnew; [destruct (CheckBlock _ _ _ _ _); auto|].
  apply bool_decide_eq_false, eq_None_not_Some in Hnew.
  destruct (_ && negb (has_child _ _)); [destruct (CheckBlock _ _ _ _ _); auto|].
  destruct (negb (IsCanonicalBlockSignature b)); [destruct (CheckBlock _ _ _ _ _); auto|].
  destruct (CheckBlock _ _ _ _ _) as [u|e| |]; [|done|by left|by left].
  destruct (bool_decide (is_Some (mapBlockIndex _ !! blk_hashPrevBlock b))) eqn:Hprev.
  - apply bool_decide_eq_true in Hprev. destruct (Hstep (ps_node st) b HI HGb) as [HI' Hret].
    destruct (accept (ps_node st) b) as [s [u'|e| |]] eqn:Ea; cbn [fst snd] in *; try done.
    + edestruct (work_ok accept Inv Good Hstep (S (size (mapOrphanBlocks (ps_orphans st)))) (with_node s st) [block_GetHash b])
        as (st' & l & Hwork & Htr & HIn & Ho' & Hwk); [apply Ho|apply Ho|done|cbn; lia|].
      cbn [with_node ps_orphans ps_node] in *. rewrite Hwork. pose proof (wk_waiting _ _ _ _ Hwk) as Hwait.
      split; try done; [by left| | |by intros _ _; exists s, l; rewrite Ea; destruct u'|].
      * split; [done|]. intros k x Hx. rewrite (Hwait k) in Hx. destruct (mapOrphanBlocks (ps_orphans st) !! k) as [y|] eqn:Ey; [|done].
        case_decide; [done|]. injection Hx as <-. by apply (proj2 Ho k).
      * unfold size_of. assert (mapOrphanBlocks (ps_orphans st') ⊆ mapOrphanBlocks (ps_orphans st)) as Hs%map_subseteq_size; [|lia].
        apply map_subseteq_spec. intros k x. rewrite (Hwait k). destruct (mapOrphanBlocks (ps_orphans st) !! k); [|done]. by case_decide.
      * intros Hn. rewrite Hn in Hprev. by destruct Hprev.
    + split; try done; [by right|cbn [with_node ps_orphans]; lia|]. intros Hn. rewrite Hn in Hprev. by destruct Hprev.
  - apply bool_decide_eq_false in Hprev.
    destruct (process_orphan_ok st b Hrank Ho Hb HGb Hnew) as (st' & r & -> & Hr & Hn & Ho' & Hs & Hj).
    split; [destruct Hr as [->|[-> _]]; auto|by rewrite Hn|done|done|done|done].
Qed.
End process.

(** ** A block that arrives before its previous one *)

#[local] Existing Instances poly_hashes no_ecdsa.

Definition toy_place (s : node) (b : CBlock) : option (Z * Z) := Some (1, 1000 * Z.of_nat (S (size (block_files s)))).
Definition toy_accept (s : node) (b : CBlock) : node * outcome Z unit :=
  accept_block (node_ext 100500) (fun _ => None) 10 0 genesis_hash false (fun _ => false) (fun _ => false) (fun _ _ => None) false ∅ toy_place s b.
Definition toy_process (st : process_state) (b : CBlock) : process_state * outcome Z unit :=
  ProcessBlock (node_ext 100500) (fun _ => None) 10 0 genesis_hash false (fun _ => false) (fun _ => false) (fun _ _ => None) false ∅ toy_place
    DEFAULT_MAX_ORPHAN_BLOCKS 0 false st b.

Definition no_blocks : orphan_blocks := {| mapOrphanBlocks := ∅; mapOrphanBlocksByPrev := ∅; setStakeSeenOrphan := ∅ |}.
Definition waiting_state : process_state := {| ps_node := genesis_node; ps_orphans := add_orphan block_b2 no_blocks;
  ps_peer := Some {| pindexLastGetBlocksBegin := None; hashLastGetBlocksEnd := 0 |}; ps_requests := [] |}.

Definition toy_node1 : node := fst (toy_accept genesis_node block_b1).
Definition toy_node2 : node := fst (toy_accept toy_node1 block_b2).
Definition toy_good (b : CBlock) : Prop := b = block_b1 \/ b = block_b2.
Definition toy_reached (s : node) : Prop := s = genesis_node \/ s = toy_node1 \/ s = toy_node2.
Definition toy_rank (h : Z) : nat := if h =? block_GetHash block_b1 then 1 else if h =? block_GetHash block_b2 then 2 else 0.

Lemma no_blocks_ok : blocks_ok no_blocks.
Proof.
  split.
  - done.
  - intros p x. unfold multimap_at. cbn. rewrite lookup_empty. by intros ?%elem_of_nil.
  - intros p. unfold multimap_at. cbn. rewrite lookup_empty. constructor.
  - intros p. cbn. by rewrite lookup_empty.
  - done.
Qed.

Lemma toy_ser_ok b : toy_good b -> @ser_ok _ fmt_block b.
Proof.
  assert (forall b, bool_decide (bytes_ok (@ser _ fmt_block b)) = true -> @unser _ fmt_block (@ser _ fmt_block b) = Ok (b, []) -> @ser_ok _ fmt_block b) as H.
  { intros b' Hb Hu. apply bool_decide_eq_true in Hb. by apply (ser_unser (S := fmt_block) b' _ [] Hb Hu). }
  intros [-> | ->]; apply H; by vm_compute.
Qed.

Lemma waiting_inv : orphans_inv toy_good (ps_orphans waiting_state).
Proof.
  split.
  - apply add_orphan_ok; [apply no_blocks_ok|apply toy_ser_ok; by right|done].
  - intros k x. cbn [waiting_state ps_orphans add_orphan mapOrphanBlocks]. intros [[<- <-]|[_ Hx]]%lookup_insert_Some; [|done].
    exists block_b2. split_and!; [apply toy_ser_ok; by right|done|by right].
Qed.

Lemma toy_step s b : toy_reached s -> toy_good b -> toy_reached (fst (toy_accept s b)) /\
  match snd (toy_accept s b) with Ok _ | Err _ => True | _ => False end.
Proof.
  unfold toy_reached. intros Hs [-> | ->]; destruct Hs as [-> |[-> | ->]]; (split; [|by vm_compute]).
  - right. by left.
  - right. left. by vm_compute.
  - right. right. by vm_compute.
  - left. by vm_compute.
  - right. by right.
  - right. right. by vm_compute.
Qed.

Lemma toy_ranked b : toy_good b -> (toy_rank (blk_hashPrevBlock b) < toy_rank (block_GetHash b))%nat.
Proof. intros [-> | ->]; apply Nat.ltb_lt; by vm_compute. Qed.

(** Reads a result whose tests evaluate to true. *)
Definition succeeds (test : process_state -> bool) (res : process_state * outcome Z unit) : bool :=
  match snd res with Ok _ => test (fst res) | _ => false end.
Definition is_ok (m : outcome Z unit) : bool := match m with Ok _ => true | _ => false end.

Lemma processed_run (res : process_state * outcome Z unit) (chk : outcome Z unit) (P : process_state -> outcome Z unit -> Prop)
    (test : process_state -> bool) : succeeds test res = true -> is_ok chk = true ->
  (let '(st', r) := res in
   match chk with Throw => r = Throw \/ r = Err 0 | Crash => r = Crash \/ r = Err 0 | _ => P st' r end) ->
  test (fst res) = true /\ P (fst res) (Ok tt).
Proof. destruct res as [st' [[]|e| |]]; try done. by destruct chk. Qed.

Definition toy_test (st : process_state) : bool :=
  bool_decide (mapOrphanBlocks (ps_orphans st) = ∅) && bool_decide (g_pindexBest (ps_node st) = Some (block_GetHash block_b2)).

Lemma toy_succeeds : succeeds toy_test (toy_process waiting_state block_b1) = true.
Proof. by vm_compute. Qed.

Lemma toy_checked : is_ok (CheckBlock (env_of (node_ext 100500) (ps_node waiting_state)) block_b1 true true true) = true.
Proof. by vm_compute. Qed.

(** The second block waits; the first comes, and both are accepted. *)
Lemma ProcessBlock_orphans_witness : toy_test (fst (toy_process waiting_state block_b1)) = true /\
  toy_reached (ps_node (fst (toy_process waiting_state block_b1))).
Proof.
  pose proof (ProcessBlock_orphans (node_ext 100500) (fun _ => None) 10 0 genesis_hash false
    (fun _ => false) (fun _ => false) (fun _ _ => None) false ∅ toy_place DEFAULT_MAX_ORPHAN_BLOCKS 0 false toy_reached toy_good toy_rank
    waiting_state block_b1 toy_step toy_ranked (or_introl eq_refl) waiting_inv (toy_ser_ok _ (or_introl eq_refl)) (or_introl eq_refl)) as H.
  apply (processed_run _ _ _ toy_test toy_succeeds toy_checked) in H as [Ht H]. split; [exact Ht|].
  exact (pr_node _ _ _ _ _ _ _ _ _ _ _ _ _ _ _ _ _ _ _ H).
Defined.
