(* ===== verification/HashStream.v ===== *)
(** * Buffered hashing

    The part [CSHA1], [CSHA256], [CSHA512] and [CRIPEMD160] of [crypto/] have
    in common: a chaining state, a buffer of one chunk and a byte counter;
    [Write] buffers, [Finalize] pads.  Each class repeats the code with its
    own chunk size; here it is written once, in a Section over the chunk size
    [B], the size [L] of the length field, its encoding and the compression
    function [Transform], and the four classes are instances.  The reference
    is the Merkle-Damgard construction of the standards: pad the whole
    message, cut it into chunks, fold the compression function. *)

From S2P Require Import Prelude.

Local Open Scope Z_scope.

(** ** [crypto/common.h] *)

Definition be_encode (n : nat) (z : Z) : list Z := rev (le_encode n z).

Definition ReadLE32 (p : list Z) (off : nat) : Z := le_decode (take 4 (drop off p)).
Definition ReadBE32 (p : list Z) (off : nat) : Z := le_decode (rev (take 4 (drop off p))).
Definition ReadBE64 (p : list Z) (off : nat) : Z := le_decode (rev (take 8 (drop off p))).

Definition WriteLE32 (x : Z) : list Z := le_encode 4 x.
Definition WriteLE64 (x : Z) : list Z := le_encode 8 x.
Definition WriteBE32 (x : Z) : list Z := be_encode 4 x.
Definition WriteBE64 (x : Z) : list Z := be_encode 8 x.

Lemma length_be_encode n z : length (be_encode n z) = n.
Proof. unfold be_encode. by rewrite length_rev, length_le_encode. Qed.

Lemma be_encode_ok n z : bytes_ok (be_encode n z).
Proof. apply Forall_rev, le_encode_ok. Qed.

(** [memcpy(buf + off, data, n)] for the [n] bytes [data]. *)
Definition memcpy_at (buf : list Z) (off : nat) (data : list Z) : list Z :=
  take off buf ++ data ++ drop (off + length data) buf.

Lemma length_memcpy_at buf off data :
  (off + length data <= length buf)%nat -> length (memcpy_at buf off data) = length buf.
Proof. intros. unfold memcpy_at. rewrite !length_app, length_take, length_drop. lia. Qed.

Lemma take_memcpy_at buf off data :
  (off + length data <= length buf)%nat ->
  take (off + length data) (memcpy_at buf off data) = take off buf ++ data.
Proof.
  intros. unfold memcpy_at. rewrite app_assoc. apply take_app_length'.
  rewrite length_app, length_take. lia.
Qed.

(** ** The hasher *)

Record hasher {St : Type} := Hasher {
  hs_s : St;
  hs_buf : list Z;
  hs_bytes : Z;
}.
Arguments hasher : clear implicits.

Section stream.
Context {St : Type} (B L : nat) (P : Z) (sizedesc : Z -> list Z).
Context (Initialize : St) (Transform : St -> list Z -> St).
Implicit Types (h : hasher St) (data msg : list Z).

(** The constructor; the buffer is not initialised, [buf] is what it holds. *)
Definition hasher_init (buf : list Z) : hasher St := Hasher _ Initialize buf 0.

(** [Reset] *)
Definition hasher_Reset h : hasher St := Hasher _ Initialize (hs_buf h) 0.

(** [while (end >= data + B)]: the state, the counter and what is left. *)
Fixpoint full_chunks (fuel : nat) (s : St) (bytes : Z) data : St * Z * list Z :=
  match fuel with
  | O => (s, bytes, data)
  | S fuel =>
      if (B <=? length data)%nat
      then full_chunks fuel (Transform s (take B data)) (to_u64 (bytes + Z.of_nat B)) (drop B data)
      else (s, bytes, data)
  end.

Definition hasher_Write h data : hasher St :=
  let bufsize := Z.to_nat (hs_bytes h mod Z.of_nat B) in
  let '(s, buf, bytes, data, bufsize) :=
    if negb (bufsize =? 0)%nat && (B <=? bufsize + length data)%nat
    then
      let n := (B - bufsize)%nat in
      let buf := memcpy_at (hs_buf h) bufsize (take n data) in
      (Transform (hs_s h) buf, buf, to_u64 (hs_bytes h + Z.of_nat n), drop n data, 0%nat)
    else (hs_s h, hs_buf h, hs_bytes h, data, bufsize) in
  let '(s, bytes, data) := full_chunks (length data) s bytes data in
  if (0 <? length data)%nat
  then Hasher _ s (memcpy_at buf bufsize data) (to_u64 (bytes + zlen data))
  else Hasher _ s buf bytes.

(** [static const unsigned char pad[B] = {0x80}], its first [n] bytes. *)
Definition pad_bytes (n : nat) : list Z := take n (0x80 :: replicate (B - 1) 0).

(** [Finalize] up to the writing of the result; the caller reads [s]. *)
Definition hasher_Finalize h : hasher St :=
  let desc := sizedesc (to_u64 (Z.shiftl (hs_bytes h) 3)) in
  let h1 := hasher_Write h
              (pad_bytes (Z.to_nat (1 + (P - hs_bytes h mod Z.of_nat B) mod Z.of_nat B))) in
  hasher_Write h1 desc.

(** ** The reference construction *)

(** A message cut into chunks of [B] bytes; what is left over is dropped. *)
Fixpoint chunks (fuel : nat) msg : list (list Z) :=
  match fuel with
  | O => []
  | S fuel =>
      if (B <=? length msg)%nat then take B msg :: chunks fuel (drop B msg) else []
  end.

(** A one, the least number of zeros that completes a chunk, the length. *)
Definition md_pad msg : list Z :=
  msg ++ 0x80 :: replicate (Z.to_nat ((- (zlen msg + 1 + Z.of_nat L)) mod Z.of_nat B)) 0
      ++ sizedesc (8 * zlen msg).

Definition md_hash msg : St :=
  foldl Transform Initialize (chunks (length (md_pad msg)) (md_pad msg)).

(** ** The hasher follows the reference *)

Context (HB : (0 < B)%nat) (HBdiv : (Z.of_nat B | 2 ^ 64)).

(** The hasher has read the message: whole chunks are in the state, the
    rest in the buffer. *)
Definition represents h msg : Prop :=
  exists blocks tail,
    msg = concat blocks ++ tail /\
    Forall (fun b : list Z => length b = B) blocks /\
    (length tail < B)%nat /\
    hs_s h = foldl Transform Initialize blocks /\
    length (hs_buf h) = B /\
    take (length tail) (hs_buf h) = tail /\
    hs_bytes h = to_u64 (zlen msg).

Lemma init_represents buf : length buf = B -> represents (hasher_init buf) [].
Proof. intros Hb. exists [], []. repeat split; cbn; auto using take_0. Qed.

Lemma Reset_represents h msg : represents h msg -> represents (hasher_Reset h) [].
Proof. intros (?&?&_&_&_&_&Hb&_). exists [], []. repeat split; cbn; auto using take_0. Qed.

Lemma length_concat_blocks blocks :
  Forall (fun b : list Z => length b = B) blocks -> length (concat blocks) = (B * length blocks)%nat.
Proof. induction 1 as [|b bs Hb _ IH]; cbn; [lia|]. rewrite length_app, IH, Hb. lia. Qed.

Lemma represents_bufsize blocks tail :
  Forall (fun b : list Z => length b = B) blocks -> (length tail < B)%nat ->
  to_u64 (zlen (concat blocks ++ tail)) mod Z.of_nat B = Z.of_nat (length tail).
Proof.
  intros Hbs Ht. unfold to_u64, zlen. rewrite length_app, length_concat_blocks by done.
  rewrite Z.mod_mod_divide by done.
  rewrite Nat2Z.inj_add, Nat2Z.inj_mul, Z.add_comm, Z.mul_comm, Z.mod_add by lia.
  apply Z.mod_small. lia.
Qed.

Lemma full_chunks_spec fuel s bytes data :
  (length data <= fuel)%nat ->
  exists blocks tail,
    data = concat blocks ++ tail /\ Forall (fun b : list Z => length b = B) blocks /\
    (length tail < B)%nat /\
    exists k, full_chunks fuel s bytes data = (foldl Transform s blocks, k, tail) /\
    (0 <= bytes < 2 ^ 64 -> k = to_u64 (bytes + zlen (concat blocks))).
Proof.
  revert s bytes data. induction fuel as [|fuel IH]; intros s bytes data Hf; cbn [full_chunks].
  - exists [], data. repeat split; [constructor|lia|]. exists bytes. split; [done|].
    intros. cbn. rewrite Z.add_0_r. by rewrite to_u64_id.
  - destruct (Nat.leb_spec B (length data)) as [Hle|Hgt].
    + destruct (IH (Transform s (take B data)) (to_u64 (bytes + Z.of_nat B)) (drop B data))
        as (bs&t&E&Hbs&Ht&k&->&Hk); [rewrite length_drop; lia|].
      exists (take B data :: bs), t. split_and!.
      * cbn. by rewrite <-app_assoc, <-E, take_drop.
      * constructor; [rewrite length_take; lia|done].
      * done.
      * exists k. split; [done|]. intros Hb. rewrite Hk by (apply Z.mod_pos_bound; lia).
        cbn [concat]. rewrite zlen_app. unfold to_u64, zlen. rewrite length_take, Nat.min_l by lia.
        rewrite Zplus_mod_idemp_l. f_equal. lia.
    + exists [], data. repeat split; [constructor|lia|]. exists bytes. split; [done|].
      intros. cbn. rewrite Z.add_0_r. by rewrite to_u64_id.
Qed.

(** The second half of [Write]: whole chunks, then the rest to the buffer. *)
Lemma finish_represents s buf bytes data msg blocks tail :
  msg = concat blocks ++ tail -> Forall (fun b : list Z => length b = B) blocks ->
  (length tail < B)%nat -> s = foldl Transform Initialize blocks -> length buf = B ->
  take (length tail) buf = tail -> bytes = to_u64 (zlen msg) ->
  tail = [] \/ (length tail + length data < B)%nat ->
  represents
    (let '(s, bytes, data) := full_chunks (length data) s bytes data in
     if (0 <? length data)%nat
     then Hasher _ s (memcpy_at buf (length tail) data) (to_u64 (bytes + zlen data))
     else Hasher _ s buf bytes) (msg ++ data).
Proof.
  intros Hmsg Hbs Ht Hs Hb Htake Hbytes Hcase.
  destruct (full_chunks_spec (length data) s bytes data) as (bs&tl&E&Hbs'&Htl&k&->&Hk); [lia|].
  specialize (Hk ltac:(rewrite Hbytes; apply Z.mod_pos_bound; lia)).
  assert (msg ++ data = concat (blocks ++ bs) ++ (tail ++ tl)) as Hmsg'.
  { rewrite concat_app, Hmsg, E, <-!app_assoc. f_equal.
    destruct Hcase as [->|Hlt]; [done|]. destruct bs as [|b bs]; [done|].
    apply Forall_cons in Hbs' as [Hlb _].
    apply (f_equal length) in E. cbn in E. rewrite !length_app in E. lia. }
  assert (length tail + length tl < B)%nat as Hlen.
  { destruct Hcase as [->|Hlt]; [cbn; lia|].
    apply (f_equal length) in E. rewrite length_app in E. lia. }
  assert (k = to_u64 (zlen (msg ++ concat bs))) as Hk'.
  { rewrite Hk, Hbytes, zlen_app. unfold to_u64. by rewrite Zplus_mod_idemp_l. }
  exists (blocks ++ bs), (tail ++ tl). rewrite length_app.
  destruct (Nat.ltb_spec 0 (length tl)) as [Hpos|Hz].
  - split_and!; cbn [hs_s hs_buf hs_bytes]; [done|by apply Forall_app|lia|by rewrite foldl_app, Hs|..].
    + rewrite length_memcpy_at by lia. done.
    + rewrite take_memcpy_at by lia. by rewrite Htake.
    + rewrite Hk'. unfold to_u64. rewrite Zplus_mod_idemp_l, <-zlen_app, <-app_assoc. by rewrite <-E.
  - assert (tl = []) as -> by (destruct tl; [done|cbn in Hz; lia]).
    rewrite app_nil_r in E. rewrite app_nil_r, Nat.add_0_r in *.
    split_and!; cbn [hs_s hs_buf hs_bytes]; [done|by apply Forall_app|lia|by rewrite foldl_app, Hs|done|done|].
    by rewrite Hk', E.
Qed.

Lemma Write_represents h msg data :
  represents h msg -> represents (hasher_Write h data) (msg ++ data).
Proof.
  intros (blocks&tail&Hmsg&Hbs&Ht&Hs&Hb&Htake&Hbytes).
  unfold hasher_Write.
  rewrite Hbytes, Hmsg, represents_bufsize, Nat2Z.id, <-Hmsg by done.
  destruct (negb (length tail =? 0)%nat && (B <=? length tail + length data)%nat) eqn:E.
  - apply andb_true_iff in E as [Ht0%negb_true_iff%Nat.eqb_neq Hle%Nat.leb_le].
    set (n := (B - length tail)%nat).
    assert (length (take n data) = n) as Hn by (rewrite length_take; lia).
    assert (memcpy_at (hs_buf h) (length tail) (take n data) = tail ++ take n data) as Hbuf.
    { rewrite <-(take_ge (memcpy_at _ _ _) (length tail + length (take n data))) by
        (rewrite length_memcpy_at; lia).
      rewrite take_memcpy_at by lia. by rewrite Htake. }
    replace (msg ++ data) with ((msg ++ take n data) ++ drop n data)
      by (by rewrite <-app_assoc, take_drop).
    apply (finish_represents _ _ _ _ _ (blocks ++ [tail ++ take n data]) []).
    + rewrite concat_app. cbn. rewrite !app_nil_r, Hmsg. by rewrite app_assoc.
    + apply Forall_app. split; [done|]. apply Forall_singleton. rewrite length_app, Hn. lia.
    + done.
    + rewrite foldl_app. cbn. by rewrite Hbuf, Hs.
    + rewrite length_memcpy_at; lia.
    + done.
    + rewrite zlen_app. unfold to_u64. rewrite Zplus_mod_idemp_l. unfold zlen. by rewrite Hn.
    + by left.
  - apply (finish_represents _ _ _ _ _ blocks tail); try done.
    apply andb_false_iff in E as [Ht0%negb_false_iff%Nat.eqb_eq|Hlt%Nat.leb_gt]; [|by right].
    left. by destruct tail.
Qed.

(** A message that fills its chunks is hashed by folding over them. *)
Lemma chunks_concat fuel blocks :
  Forall (fun b : list Z => length b = B) blocks -> (length (concat blocks) <= fuel)%nat ->
  chunks fuel (concat blocks) = blocks.
Proof.
  intros Hbs. revert fuel. induction Hbs as [|b bs Hb Hbs IH]; intros fuel Hf.
  - destruct fuel; cbn [chunks concat]; [done|]. destruct (Nat.leb_spec B (length (@nil Z))); [|done].
    cbn in *; lia.
  - cbn in Hf. rewrite length_app in Hf. destruct fuel as [|fuel]; [lia|]. cbn [chunks concat].
    destruct (Nat.leb_spec B (length (b ++ concat bs))) as [_|Hgt];
      [|rewrite length_app in Hgt; lia].
    rewrite take_app_length', drop_app_length' by done. rewrite IH by lia. done.
Qed.

Lemma represents_full h msg :
  represents h msg -> (Z.of_nat B | zlen msg) ->
  hs_s h = foldl Transform Initialize (chunks (length msg) msg).
Proof.
  intros (blocks&tail&Hmsg&Hbs&Ht&Hs&_) [q Hq].
  assert (tail = []) as ->.
  { apply zlen_0. unfold zlen in *. rewrite Hmsg, length_app, length_concat_blocks in Hq by done.
    rewrite <-(Z.mod_small (Z.of_nat (length tail)) (Z.of_nat B)) by lia.
    replace (Z.of_nat (length tail)) with ((q - Z.of_nat (length blocks)) * Z.of_nat B) by lia.
    apply Z.mod_mul. lia. }
  rewrite app_nil_r in Hmsg. subst msg. by rewrite chunks_concat.
Qed.

Context (HP : (P + 1 + Z.of_nat L) mod Z.of_nat B = 0).
Context (Hdesc : forall z, length (sizedesc z) = L).

Lemma pad_length msg :
  (Z.of_nat B | zlen (md_pad msg)).
Proof.
  assert (forall z, zlen (sizedesc z) = Z.of_nat L) as Hz by (intros; unfold zlen; by rewrite Hdesc).
  assert (forall n, zlen (replicate n 0) = Z.of_nat n) as Hr
    by (intros; unfold zlen; by rewrite length_replicate).
  unfold md_pad. rewrite zlen_app, zlen_cons, zlen_app, Hz, Hr.
  rewrite Z2Nat.id by (apply Z.mod_pos_bound; lia).
  apply Z.mod_divide; [lia|].
  set (m := zlen msg + 1 + Z.of_nat L).
  replace (zlen msg + (1 + ((- m) mod Z.of_nat B + Z.of_nat L))) with (m + (- m) mod Z.of_nat B)
    by (unfold m; lia).
  rewrite Zplus_mod_idemp_r, Z.add_opp_diag_r. by apply Z.mod_0_l; lia.
Qed.

(** The padding of [Finalize] is the padding of the standard. *)
Lemma pad_bytes_spec len :
  pad_bytes (Z.to_nat (1 + (P - len mod Z.of_nat B) mod Z.of_nat B)) =
  0x80 :: replicate (Z.to_nat ((- (len + 1 + Z.of_nat L)) mod Z.of_nat B)) 0.
Proof.
  assert ((P - len mod Z.of_nat B) mod Z.of_nat B = (- (len + 1 + Z.of_nat L)) mod Z.of_nat B) as ->.
  { rewrite Zminus_mod_idemp_r. apply Z.mod_divide in HP as [q Hq]; [|lia].
    replace (P - len) with (- (len + 1 + Z.of_nat L) + q * Z.of_nat B) by lia.
    by rewrite Z.mod_add by lia. }
  set (k := (- (len + 1 + Z.of_nat L)) mod Z.of_nat B).
  assert (0 <= k < Z.of_nat B) as Hk by (apply Z.mod_pos_bound; lia).
  unfold pad_bytes. replace (Z.to_nat (1 + k)) with (S (Z.to_nat k)) by lia.
  cbn [take]. f_equal. rewrite take_replicate, Nat.min_l by lia. done.
Qed.

(** [Finalize] leaves the hash of the message in the state, for a message
    whose length in bits fits the counter. *)
Lemma Finalize_spec h msg :
  represents h msg -> zlen msg < 2 ^ 61 -> hs_s (hasher_Finalize h) = md_hash msg.
Proof.
  intros Hrep Hlen. unfold hasher_Finalize, md_hash.
  assert (hs_bytes h = zlen msg) as ->.
  { destruct Hrep as (?&?&_&_&_&_&_&_&->). apply to_u64_id. pose proof (zlen_nonneg msg). lia. }
  rewrite pad_bytes_spec.
  assert (to_u64 (Z.shiftl (zlen msg) 3) = 8 * zlen msg) as ->.
  { rewrite Z.shiftl_mul_pow2 by lia. change (2 ^ 3) with 8. rewrite Z.mul_comm.
    apply to_u64_id. pose proof (zlen_nonneg msg). lia. }
  apply represents_full; [|apply pad_length].
  unfold md_pad. rewrite app_comm_cons, app_assoc. by apply Write_represents, Write_represents.
Qed.

(** [Finalize] wrote the padding: the hasher is that of a longer message. *)
Lemma Finalize_represents h msg : represents h msg -> exists k, represents (hasher_Finalize h) (msg ++ k).
Proof.
  intros Hrep. eexists. unfold hasher_Finalize. rewrite app_assoc.
  by apply Write_represents, Write_represents.
Qed.

(** Writing a message in pieces hashes their concatenation. *)
Lemma Writes_represents h msg datas :
  represents h msg -> represents (foldl hasher_Write h datas) (msg ++ concat datas).
Proof.
  revert h msg. induction datas as [|d ds IH]; intros h msg Hrep; cbn; [by rewrite app_nil_r|].
  rewrite app_assoc. by apply IH, Write_represents.
Qed.

Lemma stream_spec buf datas :
  length buf = B -> zlen (concat datas) < 2 ^ 61 ->
  hs_s (hasher_Finalize (foldl hasher_Write (hasher_init buf) datas)) = md_hash (concat datas).
Proof.
  intros Hb Hlen. apply Finalize_spec; [|done].
  by apply (Writes_represents _ []), init_represents.
Qed.

End stream.

(** The reference depends only on the values of its parameters. *)
Lemma md_hash_ext {St} B L desc desc' (iv iv' : St) T T' msg :
  iv = iv' -> (forall s c, T s c = T' s c) -> desc (8 * zlen msg) = desc' (8 * zlen msg) ->
  md_hash B L desc iv T msg = md_hash B L desc' iv' T' msg.
Proof.
  intros -> HT Hd. unfold md_hash, md_pad. rewrite Hd.
  match goal with |- foldl _ _ ?l = _ => generalize l end.
  intros cs. revert iv'. induction cs as [|c cs IH]; intros iv'; cbn; [done|]. by rewrite HT, IH.
Qed.
