(* ===== verification/HashWords.v ===== *)
(** * Words, constants and message schedules of the hash functions

    The 32-bit and 64-bit operations of the hash functions of [crypto/], the
    number-theoretic definitions of their constants the standards give (the
    first bits of the fractional parts of square and cube roots of primes),
    and the message schedule, once as the standards have it (every word from
    earlier ones) and once as the code keeps it (a window of 16 words). *)

From S2P Require Import Prelude.

Local Open Scope Z_scope.

(** ** Words *)

(** [uint32_t] and [uint64_t] operators; [>>], [&], [|] and [^] of unsigned
    words are those of the integers. *)
Definition add32 (x y : Z) : Z := to_u32 (x + y).
Definition shl32 (x n : Z) : Z := to_u32 (Z.shiftl x n).
Definition not32 (x : Z) : Z := to_u32 (Z.lnot x).
Definition add64 (x y : Z) : Z := to_u64 (x + y).
Definition shl64 (x n : Z) : Z := to_u64 (Z.shiftl x n).

Declare Scope word_scope.
Delimit Scope word_scope with word.
Infix ">>:" := Z.shiftr (at level 32, left associativity) : word_scope.
Infix "<<32" := shl32 (at level 32, left associativity) : word_scope.
Infix "<<64" := shl64 (at level 32, left associativity) : word_scope.
Infix "&:" := Z.land (at level 40, left associativity) : word_scope.
Infix "^:" := Z.lxor (at level 45, left associativity) : word_scope.
Infix "|:" := Z.lor (at level 47, left associativity) : word_scope.
Infix "+32" := add32 (at level 31, left associativity) : word_scope.
Infix "+64" := add64 (at level 31, left associativity) : word_scope.
Open Scope word_scope.

(** The rotations of the standards, on words of [w] bits. *)
Definition ROTR (w n x : Z) : Z := (x >>: n) |: (Z.shiftl x (w - n) mod 2 ^ w).
Definition ROTL (w n x : Z) : Z := (Z.shiftl x n mod 2 ^ w) |: (x >>: (w - n)).

Definition SHR (n x : Z) : Z := x >>: n.

(** Sums of words: wrapping after each addition or once at the end.  The
    congruence [eqm] of the Standard Library is the setoid to rewrite in. *)
#[export] Existing Instances eqm_setoid Zplus_eqm.

Lemma mod_eqm_iff m a b : a mod m = b mod m <-> eqm m a b.
Proof. done. Qed.

Ltac wrap_sums :=
  unfold add32, add64, to_u32, to_u64;
  apply mod_eqm_iff; rewrite ?Zmod_eqm;
  apply mod_eqm_iff; f_equal; lia.

(** Equality of two bitwise expressions. *)
Ltac bitwise :=
  apply Z.bits_inj'; intros ? ?;
  rewrite ?Z.lor_spec, ?Z.land_spec, ?Z.lxor_spec, ?Z.land_spec, ?Z.lxor_spec, ?Z.lor_spec, ?Z.lnot_spec by done;
  repeat match goal with |- context [Z.testbit ?x ?i] => destruct (Z.testbit x i) end; done.

(** The sixteen word variables [w0] to [w15] of the code. *)
Abbreviation words16 := (Z * Z * Z * Z * Z * Z * Z * Z * Z * Z * Z * Z * Z * Z * Z * Z)%type
  (only parsing).

Definition list_of_words16 (ws : words16) : list Z :=
  let '(w0, w1, w2, w3, w4, w5, w6, w7, w8, w9, w10, w11, w12, w13, w14, w15) := ws in
  [w0; w1; w2; w3; w4; w5; w6; w7; w8; w9; w10; w11; w12; w13; w14; w15].

(** The sixteen words of [n] bytes of a chunk, big and little endian. *)
Definition be_words (n : nat) (chunk : list Z) : list Z :=
  map (fun i => le_decode (rev (take n (drop (n * i) chunk)))) (seq 0 16).
Definition le_words (n : nat) (chunk : list Z) : list Z :=
  map (fun i => le_decode (take n (drop (n * i) chunk))) (seq 0 16).

(** ** Constants *)

(** The largest integer whose cube is at most [n], by bisection over the
    bits below bit [k]. *)
Fixpoint icbrt_bits (k : nat) (r n : Z) : Z :=
  match k with
  | O => r
  | S k =>
      let r' := r + 2 ^ Z.of_nat k in
      icbrt_bits k (if r' * r' * r' <=? n then r' else r) n
  end.

Definition icbrt (n : Z) : Z := icbrt_bits (Z.to_nat (Z.log2 n / 3 + 1)) 0 n.

(** The first [w] bits of the fractional part of the roots of [p]. *)
Definition sqrt_frac (w p : Z) : Z := Z.sqrt (p * 2 ^ (2 * w)) mod 2 ^ w.
Definition cbrt_frac (w p : Z) : Z := icbrt (p * 2 ^ (3 * w)) mod 2 ^ w.

(** The primes of a list of successive numbers from 2, by the sieve. *)
Fixpoint sieve (fuel : nat) (l : list Z) : list Z :=
  match fuel, l with
  | S fuel, p :: l => p :: sieve fuel (List.filter (fun n => negb (n mod p =? 0)) l)
  | _, _ => []
  end.

Definition first_primes (n : nat) : list Z := sieve n (seqZ 2 408).

(** [icbrt] is the integer cube root. *)
Lemma icbrt_bits_spec k r n :
  0 <= r -> r * r * r <= n < (r + 2 ^ Z.of_nat k) ^ 3 ->
  icbrt_bits k r n ^ 3 <= n < (icbrt_bits k r n + 1) ^ 3.
Proof.
  revert r. induction k as [|k IH]; intros r Hr Hn; cbn [icbrt_bits].
  - change (2 ^ Z.of_nat 0) with 1 in Hn. lia.
  - rewrite Nat2Z.inj_succ, Z.pow_succ_r in Hn by lia.
    pose proof (Z.pow_pos_nonneg 2 (Z.of_nat k) ltac:(lia) ltac:(lia)).
    destruct (Z.leb_spec ((r + 2 ^ Z.of_nat k) * (r + 2 ^ Z.of_nat k) * (r + 2 ^ Z.of_nat k)) n).
    + apply IH; [lia|]. split; [done|].
      replace (r + 2 ^ Z.of_nat k + 2 ^ Z.of_nat k) with (r + 2 * 2 ^ Z.of_nat k) by lia. lia.
    + apply IH; [done|]. lia.
Qed.

Lemma icbrt_spec n : 0 < n -> icbrt n ^ 3 <= n < (icbrt n + 1) ^ 3.
Proof.
  intros Hn. apply icbrt_bits_spec; [lia|]. split; [lia|].
  pose proof (Z.log2_nonneg n). destruct (Z.log2_spec n Hn) as [_ Hlt].
  set (k := Z.log2 n / 3 + 1).
  assert (0 <= k) as Hk by (apply Z.add_nonneg_nonneg; [apply Z.div_pos|]; lia).
  assert (Z.succ (Z.log2 n) <= k * 3).
  { pose proof (Z.div_mod (Z.log2 n) 3 ltac:(lia)).
    pose proof (Z.mod_pos_bound (Z.log2 n) 3 ltac:(lia)). unfold k. lia. }
  rewrite Z2Nat.id, Z.add_0_l, <-Z.pow_mul_r by lia.
  eapply Z.lt_le_trans; [exact Hlt|]. by apply Z.pow_le_mono_r.
Qed.

(** ** Message schedules *)

Section schedule.
(** [next_rev] makes the next word from the earlier ones, latest first. *)
Context {T : Type} (step : T -> Z * Z -> T) (next_rev : list Z -> Z).

Fixpoint extend (n : nat) (Ws : list Z) : list Z :=
  match n with O => Ws | S n => let Ws := extend n Ws in next_rev Ws :: Ws end.

(** All the words of the message schedule, in order. *)
Definition schedule (n : nat) (M : list Z) : list Z := rev (extend n (rev M)).

(** The rounds of the standards: one for each constant and each word. *)
Definition rounds (K M : list Z) (st : T) : T :=
  foldl step st (zip K (schedule (length K - length M) M)).

(** The words through a window of [n0] words: [next] makes the next word from
    the window, which loses its first. *)
Context (next : list Z -> Z).

Definition slide (win : list Z) : list Z := tail win ++ [next win].

Fixpoint slides (n : nat) (win : list Z) : list Z :=
  match n with O => win | S n => slide (slides n win) end.

Context (n0 : nat) (Hn0 : (0 < n0)%nat).
Context (Hnext : forall win rest, length win = n0 -> next_rev (rev win ++ rest) = next win).

Fixpoint heads (n : nat) (win : list Z) : list Z :=
  match n with O => [] | S n => hd 0 win :: heads n (slide win) end.

Lemma length_slide win : length win = n0 -> length (slide win) = n0.
Proof. intros H. unfold slide. rewrite length_app. destruct win; cbn in *; lia. Qed.

Lemma slides_slide n win : slides n (slide win) = slide (slides n win).
Proof. induction n as [|n IH]; cbn; [done|]. by rewrite IH. Qed.

Lemma length_slides n win : length win = n0 -> length (slides n win) = n0.
Proof. intros. induction n; cbn; [done|]. by apply length_slide. Qed.

Lemma heads_snoc n win : heads (S n) win = heads n win ++ [hd 0 (slides n win)].
Proof.
  revert win. induction n as [|n IH]; intros win; [done|].
  change (heads (S (S n)) win) with (hd 0 win :: heads (S n) (slide win)).
  rewrite IH. cbn [heads app]. by rewrite slides_slide.
Qed.

Lemma slide_hd win : length win = n0 -> hd 0 win :: slide win = win ++ [next win].
Proof. intros H. destruct win; [cbn in H; lia|]. done. Qed.

Lemma extend_heads n win :
  length win = n0 ->
  extend n (rev win) = rev (heads n win ++ slides n win).
Proof.
  intros Hlen. induction n as [|n IH]; [done|].
  cbn [extend]. rewrite IH, rev_app_distr, Hnext by by apply length_slides.
  rewrite heads_snoc, <-app_assoc. cbn [app slides].
  rewrite (slide_hd (slides n win) (length_slides n win Hlen)).
  by rewrite !rev_app_distr.
Qed.

Lemma heads_app n m win : heads (n + m) win = heads n win ++ heads m (slides n win).
Proof.
  revert win. induction n as [|n IH]; intros win; [done|].
  cbn [heads Nat.add app]. by rewrite IH, slides_slide.
Qed.

Lemma heads_all k win :
  (k <= length win)%nat -> heads k win = take k win.
Proof.
  revert win. induction k as [|k IH]; intros win Hk; [done|].
  destruct win as [|x win]; [cbn in Hk; lia|]. cbn in *. f_equal.
  rewrite IH by (unfold slide; rewrite length_app; cbn; lia).
  unfold slide. cbn. by rewrite take_app_le by lia.
Qed.

Lemma hd_slides j win : length win = n0 -> (j < n0)%nat -> hd 0 (slides j win) = nth j win 0.
Proof.
  intros Hlen Hj. pose proof (heads_snoc j win) as E.
  rewrite !heads_all in E by lia. rewrite (take_S_r _ _ (nth j win 0)) in E.
  - by apply app_inj_tail in E as [_ ->].
  - by destruct (nth_lookup_or_length win j 0); [|lia].
Qed.

(** Later rounds: every round first makes its word. *)
Fixpoint later_rounds (K win : list Z) (st : T) : T :=
  match K with
  | [] => st
  | k :: K => later_rounds K (slide win) (step st (k, next win))
  end.

Lemma later_rounds_cons k K x win st :
  later_rounds (k :: K) (x :: win) st =
  later_rounds K (win ++ [next (x :: win)]) (step st (k, next (x :: win))).
Proof. done. Qed.

Lemma hd_slides_next win : length win = n0 -> hd 0 (slides n0 win) = next win.
Proof.
  intros Hlen. transitivity (hd 0 (slides (pred n0) (slide win))).
  { rewrite slides_slide. change (slide (slides (pred n0) win)) with (slides (S (pred n0)) win).
    by rewrite Nat.succ_pred_pos. }
  rewrite hd_slides by (by apply length_slide || lia).
  unfold slide. destruct win; cbn in Hlen; [lia|]. subst n0. cbn.
  rewrite app_nth2, Nat.sub_diag by lia. done.
Qed.

Lemma later_rounds_spec K win st :
  length win = n0 ->
  later_rounds K win st = foldl step st (zip K (heads (length K) (slides n0 win))).
Proof.
  revert win st. induction K as [|k K IH]; intros win st Hlen; [done|].
  cbn [later_rounds length heads zip zip_with foldl]. rewrite IH by by apply length_slide.
  by rewrite slides_slide, hd_slides_next.
Qed.

(** The rounds as the code has them. *)
Lemma rounds_later K K0 M st :
  length M = n0 -> length K0 = n0 ->
  rounds (K0 ++ K) M st = later_rounds K M (foldl step st (zip K0 M)).
Proof.
  intros Hlen HK0. unfold rounds, schedule. rewrite extend_heads, rev_involutive, length_app, Hlen by done.
  replace (length K0 + length K - n0)%nat with (length K) by lia.
  rewrite later_rounds_spec by done.
  assert (heads (length K) M ++ slides (length K) M = M ++ heads (length K) (slides n0 M)) as ->.
  { assert (forall u, length u = n0 -> heads n0 u = u) as Hall
      by (intros u Hu; rewrite heads_all, take_ge by lia; done).
    transitivity (heads (length K + n0) M).
    - by rewrite heads_app, Hall by by apply length_slides.
    - by rewrite Nat.add_comm, heads_app, Hall. }
  by rewrite zip_with_app, foldl_app by lia.
Qed.
End schedule.

(** ** Running both sides *)

Lemma foldl_cons {A B} (f : A -> B -> A) a x l : foldl f a (x :: l) = foldl f (f a x) l.
Proof. done. Qed.

(** The goals compare unrolled code, the left side of the first premise, with
    [foldl] or [later_rounds] in the conclusion.  [next_round] brings the next
    round of the code to its front. *)
Ltac next_round :=
  lazymatch goal with |- ?l = ?r -> ?Q => let l' := eval hnf in l in change (l' = r -> Q) end.

(** The state after a round of the specification is that of the code's. *)
Ltac run_round round_eq :=
  rewrite round_eq;
  match goal with
  | |- context [later_rounds _ _ _ _ (match ?e with (_, _) => _ end)] => destruct e as [? ?]
  | |- context [foldl _ (match ?e with (_, _) => _ end) _] => destruct e as [? ?]
  end.

(** A round on a word of the chunk, one that makes its word first, and the
    last round of all. *)
Ltac first_round round_eq := next_round; rewrite foldl_cons; run_round round_eq.

Ltac make_word word_eq :=
  next_round; rewrite later_rounds_cons, word_eq; cbn [app];
  match goal with |- context [later_rounds _ _ _ [_; _; _; _; _; _; _; _; _; _; _; _; _; _; _; ?e] _] =>
    let n := fresh "n" in generalize e; intros n end.

Ltac later_round word_eq round_eq := make_word word_eq; run_round round_eq.

Ltac eval_list l :=
  let l' := eval vm_compute in l in replace l with l' by (vm_compute; reflexivity).

(** * The SHA-2 compression function

    The reference [crypto/sha256.cpp] and [crypto/sha512.cpp] are compared
    with: the compression function of FIPS 180-4 (sections 6.2.2 and 6.4.2)
    for words of [w] bits, with its constants computed from their definition. *)

(** The eight working variables. *)
Abbreviation octet := (Z * Z * Z * Z * Z * Z * Z * Z)%type (only parsing).

Definition Ch_spec (x y z : Z) : Z := (x &: y) ^: (Z.lnot x &: z).
Definition Maj_spec (x y z : Z) : Z := (x &: y) ^: (x &: z) ^: (y &: z).

Lemma octet_eq {A : Type} (x x' y y' : A) (a b c e f g : A) :
  x = x' -> y = y' -> (x, a, b, c, y, e, f, g) = (x', a, b, c, y', e, f, g).
Proof. by intros -> ->. Qed.

Section sha2.
Context (w : Z) (Sigma0 Sigma1 sigma0 sigma1 : Z -> Z).

Definition sha2_step (st : octet) (kw : Z * Z) : octet :=
  let '(a, b, c, d, e, f, g, h) := st in
  let T1 := h + Sigma1 e + Ch_spec e f g + kw.1 + kw.2 in
  let T2 := Sigma0 a + Maj_spec a b c in
  ((T1 + T2) mod 2 ^ w, a, b, c, (d + T1) mod 2 ^ w, e, f, g).

(** W(t) from W(t-1), W(t-2), ... *)
Definition sha2_next (Ws : list Z) : Z :=
  (sigma1 (nth 1 Ws 0) + nth 6 Ws 0 + sigma0 (nth 14 Ws 0) + nth 15 Ws 0) mod 2 ^ w.

(** The same from a window of the last sixteen words, oldest first. *)
Definition sha2_window (win : list Z) : Z :=
  (sigma1 (nth 14 win 0) + nth 9 win 0 + sigma0 (nth 1 win 0) + nth 0 win 0) mod 2 ^ w.

Definition add_octet (x y : octet) : octet :=
  let '(a, b, c, d, e, f, g, h) := x in
  let '(a', b', c', d', e', f', g', h') := y in
  ((a + a') mod 2 ^ w, (b + b') mod 2 ^ w, (c + c') mod 2 ^ w, (d + d') mod 2 ^ w,
   (e + e') mod 2 ^ w, (f + f') mod 2 ^ w, (g + g') mod 2 ^ w, (h + h') mod 2 ^ w).

(** The constants: cube roots of the first primes, square roots for the
    initial value. *)
Definition sha2_K (n : nat) : list Z := map (cbrt_frac w) (first_primes n).

Definition sha2_iv : octet :=
  let ps := first_primes 8 in
  let H i := sqrt_frac w (nth i ps 0) in
  (H 0%nat, H 1%nat, H 2%nat, H 3%nat, H 4%nat, H 5%nat, H 6%nat, H 7%nat).

Definition sha2_compress (n : nat) (H : octet) (M : list Z) : octet :=
  add_octet H (rounds sha2_step sha2_next (sha2_K n) M H).

Lemma sha2_next_window win rest :
  length win = 16%nat -> sha2_next (rev win ++ rest) = sha2_window win.
Proof.
  intros H. do 16 (destruct win as [|? win]; [discriminate H|]).
  destruct win; [done | discriminate H].
Qed.
End sha2.
