(* ===== verification/Sha256.v ===== *)
(** * CSHA256

    [crypto/sha256.cpp]: the round function, the unrolled compression function
    [Transform] with its sixteen word variables, and the class [CSHA256] over
    the buffered hashing of HashStream.  [Transform] is proved to be the
    compression function of FIPS 180-4, so the class computes SHA-256. *)

From S2P Require Import Prelude HashStream HashWords.

Local Open Scope Z_scope.

(** ** FIPS 180-4 *)

Module Sha256Spec.

(** The functions of section 4.1.2. *)
Definition Sigma0_spec (x : Z) : Z := ROTR 32 2 x ^: ROTR 32 13 x ^: ROTR 32 22 x.
Definition Sigma1_spec (x : Z) : Z := ROTR 32 6 x ^: ROTR 32 11 x ^: ROTR 32 25 x.
Definition sigma0_spec (x : Z) : Z := ROTR 32 7 x ^: ROTR 32 18 x ^: SHR 3 x.
Definition sigma1_spec (x : Z) : Z := ROTR 32 17 x ^: ROTR 32 19 x ^: SHR 10 x.

Definition compress (s : octet) (chunk : list Z) : octet :=
  sha2_compress 32 Sigma0_spec Sigma1_spec sigma0_spec sigma1_spec 64 s (be_words 4 chunk).

Definition digest (s : octet) : list Z :=
  let '(s0, s1, s2, s3, s4, s5, s6, s7) := s in
  concat (map (be_encode 4) [s0; s1; s2; s3; s4; s5; s6; s7]).

Definition sha256 (msg : list Z) : list Z :=
  digest (md_hash 64 8 (be_encode 8) (sha2_iv 32) compress msg).

Lemma sha256_digest_ok s : bytes_ok (digest s) /\ zlen (digest s) = 32.
Proof.
  destruct s as [[[[[[[? ?] ?] ?] ?] ?] ?] ?]. unfold digest. cbn [map concat].
  split; [rewrite !Forall_app; auto 20 using be_encode_ok|].
  unfold zlen. rewrite !length_app, !length_be_encode. done.
Qed.

End Sha256Spec.

(** ** The code *)

Module Sha256.

Definition Ch (x y z : Z) : Z := z ^: (x &: (y ^: z)).
Definition Maj (x y z : Z) : Z := (x &: y) |: (z &: (x |: y)).
Definition Sigma0 (x : Z) : Z := (x >>: 2 |: x <<32 30) ^: (x >>: 13 |: x <<32 19) ^: (x >>: 22 |: x <<32 10).
Definition Sigma1 (x : Z) : Z := (x >>: 6 |: x <<32 26) ^: (x >>: 11 |: x <<32 21) ^: (x >>: 25 |: x <<32 7).
Definition sigma0 (x : Z) : Z := (x >>: 7 |: x <<32 25) ^: (x >>: 18 |: x <<32 14) ^: (x >>: 3).
Definition sigma1 (x : Z) : Z := (x >>: 17 |: x <<32 15) ^: (x >>: 19 |: x <<32 13) ^: (x >>: 10).

(** One round; it changes [d] and [h]. *)
Definition Round (a b c d e f g h k w : Z) : Z * Z :=
  let t1 := h +32 Sigma1 e +32 Ch e f g +32 k +32 w in
  let t2 := Sigma0 a +32 Maj a b c in
  (d +32 t1, t1 +32 t2).

Definition Initialize : octet :=
  (0x6a09e667, 0xbb67ae85, 0x3c6ef372, 0xa54ff53a,
   0x510e527f, 0x9b05688c, 0x1f83d9ab, 0x5be0cd19).

Definition rounds_0_15 (st : octet) (chunk : list Z) : octet * words16 :=
  let '(a, b, c, d, e, f, g, h) := st in
  let w0 := ReadBE32 chunk 0 in let '(d, h) := Round a b c d e f g h 0x428a2f98 w0 in
  let w1 := ReadBE32 chunk 4 in let '(c, g) := Round h a b c d e f g 0x71374491 w1 in
  let w2 := ReadBE32 chunk 8 in let '(b, f) := Round g h a b c d e f 0xb5c0fbcf w2 in
  let w3 := ReadBE32 chunk 12 in let '(a, e) := Round f g h a b c d e 0xe9b5dba5 w3 in
  let w4 := ReadBE32 chunk 16 in let '(h, d) := Round e f g h a b c d 0x3956c25b w4 in
  let w5 := ReadBE32 chunk 20 in let '(g, c) := Round d e f g h a b c 0x59f111f1 w5 in
  let w6 := ReadBE32 chunk 24 in let '(f, b) := Round c d e f g h a b 0x923f82a4 w6 in
  let w7 := ReadBE32 chunk 28 in let '(e, a) := Round b c d e f g h a 0xab1c5ed5 w7 in
  let w8 := ReadBE32 chunk 32 in let '(d, h) := Round a b c d e f g h 0xd807aa98 w8 in
  let w9 := ReadBE32 chunk 36 in let '(c, g) := Round h a b c d e f g 0x12835b01 w9 in
  let w10 := ReadBE32 chunk 40 in let '(b, f) := Round g h a b c d e f 0x243185be w10 in
  let w11 := ReadBE32 chunk 44 in let '(a, e) := Round f g h a b c d e 0x550c7dc3 w11 in
  let w12 := ReadBE32 chunk 48 in let '(h, d) := Round e f g h a b c d 0x72be5d74 w12 in
  let w13 := ReadBE32 chunk 52 in let '(g, c) := Round d e f g h a b c 0x80deb1fe w13 in
  let w14 := ReadBE32 chunk 56 in let '(f, b) := Round c d e f g h a b 0x9bdc06a7 w14 in
  let w15 := ReadBE32 chunk 60 in let '(e, a) := Round b c d e f g h a 0xc19bf174 w15 in
  ((a, b, c, d, e, f, g, h), (w0, w1, w2, w3, w4, w5, w6, w7, w8, w9, w10, w11, w12, w13, w14, w15)).

Definition rounds_16_31 (st : octet) (ws : words16) : octet * words16 :=
  let '(a, b, c, d, e, f, g, h) := st in
  let '(w0, w1, w2, w3, w4, w5, w6, w7, w8, w9, w10, w11, w12, w13, w14, w15) := ws in
  let w0 := w0 +32 (sigma1 w14 +32 w9 +32 sigma0 w1) in
  let '(d, h) := Round a b c d e f g h 0xe49b69c1 w0 in
  let w1 := w1 +32 (sigma1 w15 +32 w10 +32 sigma0 w2) in
  let '(c, g) := Round h a b c d e f g 0xefbe4786 w1 in
  let w2 := w2 +32 (sigma1 w0 +32 w11 +32 sigma0 w3) in
  let '(b, f) := Round g h a b c d e f 0x0fc19dc6 w2 in
  let w3 := w3 +32 (sigma1 w1 +32 w12 +32 sigma0 w4) in
  let '(a, e) := Round f g h a b c d e 0x240ca1cc w3 in
  let w4 := w4 +32 (sigma1 w2 +32 w13 +32 sigma0 w5) in
  let '(h, d) := Round e f g h a b c d 0x2de92c6f w4 in
  let w5 := w5 +32 (sigma1 w3 +32 w14 +32 sigma0 w6) in
  let '(g, c) := Round d e f g h a b c 0x4a7484aa w5 in
  let w6 := w6 +32 (sigma1 w4 +32 w15 +32 sigma0 w7) in
  let '(f, b) := Round c d e f g h a b 0x5cb0a9dc w6 in
  let w7 := w7 +32 (sigma1 w5 +32 w0 +32 sigma0 w8) in
  let '(e, a) := Round b c d e f g h a 0x76f988da w7 in
  let w8 := w8 +32 (sigma1 w6 +32 w1 +32 sigma0 w9) in
  let '(d, h) := Round a b c d e f g h 0x983e5152 w8 in
  let w9 := w9 +32 (sigma1 w7 +32 w2 +32 sigma0 w10) in
  let '(c, g) := Round h a b c d e f g 0xa831c66d w9 in
  let w10 := w10 +32 (sigma1 w8 +32 w3 +32 sigma0 w11) in
  let '(b, f) := Round g h a b c d e f 0xb00327c8 w10 in
  let w11 := w11 +32 (sigma1 w9 +32 w4 +32 sigma0 w12) in
  let '(a, e) := Round f g h a b c d e 0xbf597fc7 w11 in
  let w12 := w12 +32 (sigma1 w10 +32 w5 +32 sigma0 w13) in
  let '(h, d) := Round e f g h a b c d 0xc6e00bf3 w12 in
  let w13 := w13 +32 (sigma1 w11 +32 w6 +32 sigma0 w14) in
  let '(g, c) := Round d e f g h a b c 0xd5a79147 w13 in
  let w14 := w14 +32 (sigma1 w12 +32 w7 +32 sigma0 w15) in
  let '(f, b) := Round c d e f g h a b 0x06ca6351 w14 in
  let w15 := w15 +32 (sigma1 w13 +32 w8 +32 sigma0 w0) in
  let '(e, a) := Round b c d e f g h a 0x14292967 w15 in
  ((a, b, c, d, e, f, g, h), (w0, w1, w2, w3, w4, w5, w6, w7, w8, w9, w10, w11, w12, w13, w14, w15)).

Definition rounds_32_47 (st : octet) (ws : words16) : octet * words16 :=
  let '(a, b, c, d, e, f, g, h) := st in
  let '(w0, w1, w2, w3, w4, w5, w6, w7, w8, w9, w10, w11, w12, w13, w14, w15) := ws in
  let w0 := w0 +32 (sigma1 w14 +32 w9 +32 sigma0 w1) in
  let '(d, h) := Round a b c d e f g h 0x27b70a85 w0 in
  let w1 := w1 +32 (sigma1 w15 +32 w10 +32 sigma0 w2) in
  let '(c, g) := Round h a b c d e f g 0x2e1b2138 w1 in
  let w2 := w2 +32 (sigma1 w0 +32 w11 +32 sigma0 w3) in
  let '(b, f) := Round g h a b c d e f 0x4d2c6dfc w2 in
  let w3 := w3 +32 (sigma1 w1 +32 w12 +32 sigma0 w4) in
  let '(a, e) := Round f g h a b c d e 0x53380d13 w3 in
  let w4 := w4 +32 (sigma1 w2 +32 w13 +32 sigma0 w5) in
  let '(h, d) := Round e f g h a b c d 0x650a7354 w4 in
  let w5 := w5 +32 (sigma1 w3 +32 w14 +32 sigma0 w6) in
  let '(g, c) := Round d e f g h a b c 0x766a0abb w5 in
  let w6 := w6 +32 (sigma1 w4 +32 w15 +32 sigma0 w7) in
  let '(f, b) := Round c d e f g h a b 0x81c2c92e w6 in
  let w7 := w7 +32 (sigma1 w5 +32 w0 +32 sigma0 w8) in
  let '(e, a) := Round b c d e f g h a 0x92722c85 w7 in
  let w8 := w8 +32 (sigma1 w6 +32 w1 +32 sigma0 w9) in
  let '(d, h) := Round a b c d e f g h 0xa2bfe8a1 w8 in
  let w9 := w9 +32 (sigma1 w7 +32 w2 +32 sigma0 w10) in
  let '(c, g) := Round h a b c d e f g 0xa81a664b w9 in
  let w10 := w10 +32 (sigma1 w8 +32 w3 +32 sigma0 w11) in
  let '(b, f) := Round g h a b c d e f 0xc24b8b70 w10 in
  let w11 := w11 +32 (sigma1 w9 +32 w4 +32 sigma0 w12) in
  let '(a, e) := Round f g h a b c d e 0xc76c51a3 w11 in
  let w12 := w12 +32 (sigma1 w10 +32 w5 +32 sigma0 w13) in
  let '(h, d) := Round e f g h a b c d 0xd192e819 w12 in
  let w13 := w13 +32 (sigma1 w11 +32 w6 +32 sigma0 w14) in
  let '(g, c) := Round d e f g h a b c 0xd6990624 w13 in
  let w14 := w14 +32 (sigma1 w12 +32 w7 +32 sigma0 w15) in
  let '(f, b) := Round c d e f g h a b 0xf40e3585 w14 in
  let w15 := w15 +32 (sigma1 w13 +32 w8 +32 sigma0 w0) in
  let '(e, a) := Round b c d e f g h a 0x106aa070 w15 in
  ((a, b, c, d, e, f, g, h), (w0, w1, w2, w3, w4, w5, w6, w7, w8, w9, w10, w11, w12, w13, w14, w15)).

Definition rounds_48_63 (st : octet) (ws : words16) : octet :=
  let '(a, b, c, d, e, f, g, h) := st in
  let '(w0, w1, w2, w3, w4, w5, w6, w7, w8, w9, w10, w11, w12, w13, w14, w15) := ws in
  let w0 := w0 +32 (sigma1 w14 +32 w9 +32 sigma0 w1) in
  let '(d, h) := Round a b c d e f g h 0x19a4c116 w0 in
  let w1 := w1 +32 (sigma1 w15 +32 w10 +32 sigma0 w2) in
  let '(c, g) := Round h a b c d e f g 0x1e376c08 w1 in
  let w2 := w2 +32 (sigma1 w0 +32 w11 +32 sigma0 w3) in
  let '(b, f) := Round g h a b c d e f 0x2748774c w2 in
  let w3 := w3 +32 (sigma1 w1 +32 w12 +32 sigma0 w4) in
  let '(a, e) := Round f g h a b c d e 0x34b0bcb5 w3 in
  let w4 := w4 +32 (sigma1 w2 +32 w13 +32 sigma0 w5) in
  let '(h, d) := Round e f g h a b c d 0x391c0cb3 w4 in
  let w5 := w5 +32 (sigma1 w3 +32 w14 +32 sigma0 w6) in
  let '(g, c) := Round d e f g h a b c 0x4ed8aa4a w5 in
  let w6 := w6 +32 (sigma1 w4 +32 w15 +32 sigma0 w7) in
  let '(f, b) := Round c d e f g h a b 0x5b9cca4f w6 in
  let w7 := w7 +32 (sigma1 w5 +32 w0 +32 sigma0 w8) in
  let '(e, a) := Round b c d e f g h a 0x682e6ff3 w7 in
  let w8 := w8 +32 (sigma1 w6 +32 w1 +32 sigma0 w9) in
  let '(d, h) := Round a b c d e f g h 0x748f82ee w8 in
  let w9 := w9 +32 (sigma1 w7 +32 w2 +32 sigma0 w10) in
  let '(c, g) := Round h a b c d e f g 0x78a5636f w9 in
  let w10 := w10 +32 (sigma1 w8 +32 w3 +32 sigma0 w11) in
  let '(b, f) := Round g h a b c d e f 0x84c87814 w10 in
  let w11 := w11 +32 (sigma1 w9 +32 w4 +32 sigma0 w12) in
  let '(a, e) := Round f g h a b c d e 0x8cc70208 w11 in
  let w12 := w12 +32 (sigma1 w10 +32 w5 +32 sigma0 w13) in
  let '(h, d) := Round e f g h a b c d 0x90befffa w12 in
  let w13 := w13 +32 (sigma1 w11 +32 w6 +32 sigma0 w14) in
  let '(g, c) := Round d e f g h a b c 0xa4506ceb w13 in
  let '(f, b) := Round c d e f g h a b 0xbef9a3f7 (w14 +32 sigma1 w12 +32 w7 +32 sigma0 w15) in
  let '(e, a) := Round b c d e f g h a 0xc67178f2 (w15 +32 sigma1 w13 +32 w8 +32 sigma0 w0) in
  (a, b, c, d, e, f, g, h).


Definition Transform (s : octet) (chunk : list Z) : octet :=
  let '(st, ws) := rounds_0_15 s chunk in
  let '(st, ws) := rounds_16_31 st ws in
  let '(st, ws) := rounds_32_47 st ws in
  let st := rounds_48_63 st ws in
  let '(a, b, c, d, e, f, g, h) := st in
  let '(s0, s1, s2, s3, s4, s5, s6, s7) := s in
  (s0 +32 a, s1 +32 b, s2 +32 c, s3 +32 d, s4 +32 e, s5 +32 f, s6 +32 g, s7 +32 h).

(** ** The class *)

Definition init (buf : list Z) : hasher octet := hasher_init Initialize buf.
Definition Reset (h : hasher octet) : hasher octet := hasher_Reset Initialize h.
Definition Write (h : hasher octet) (data : list Z) : hasher octet := hasher_Write 64 Transform h data.

Definition sizedesc (bits : Z) : list Z := WriteBE64 bits.

Definition Finalize (h : hasher octet) : list Z :=
  let '(s0, s1, s2, s3, s4, s5, s6, s7) := hs_s (hasher_Finalize 64 119 sizedesc Transform h) in
  WriteBE32 s0 ++ WriteBE32 s1 ++ WriteBE32 s2 ++ WriteBE32 s3 ++
  WriteBE32 s4 ++ WriteBE32 s5 ++ WriteBE32 s6 ++ WriteBE32 s7.

(** ** The code computes it *)

Lemma sha256_Initialize_spec : Initialize = sha2_iv 32.
Proof. vm_compute. reflexivity. Qed.

Lemma sha256_Ch_eq x y z : Ch x y z = Ch_spec x y z.
Proof. unfold Ch, Ch_spec. bitwise. Qed.

Lemma sha256_Maj_eq x y z : Maj x y z = Maj_spec x y z.
Proof. unfold Maj, Maj_spec. bitwise. Qed.

(** The shifts of the code are the rotations of the standard. *)
Lemma sha256_Sigma_eq x :
  Sigma0 x = Sha256Spec.Sigma0_spec x /\ Sigma1 x = Sha256Spec.Sigma1_spec x /\ sigma0 x = Sha256Spec.sigma0_spec x /\ sigma1 x = Sha256Spec.sigma1_spec x.
Proof. done. Qed.

Lemma sha256_Round_step a b c d e f g h k w :
  sha2_step 32 Sha256Spec.Sigma0_spec Sha256Spec.Sigma1_spec (a, b, c, d, e, f, g, h) (k, w) =
  let '(d', h') := Round a b c d e f g h k w in (h', a, b, c, d', e, f, g).
Proof.
  unfold sha2_step, Round. cbn [fst snd].
  rewrite <-sha256_Ch_eq, <-sha256_Maj_eq, <-(proj1 (sha256_Sigma_eq a)), <-(proj1 (proj2 (sha256_Sigma_eq e))).
  apply octet_eq; wrap_sums.
Qed.

Lemma sha256_window_eq w0 w1 w2 w3 w4 w5 w6 w7 w8 w9 w10 w11 w12 w13 w14 w15 :
  sha2_window 32 Sha256Spec.sigma0_spec Sha256Spec.sigma1_spec [w0; w1; w2; w3; w4; w5; w6; w7; w8; w9; w10; w11; w12; w13; w14; w15] =
  w0 +32 (sigma1 w14 +32 w9 +32 sigma0 w1).
Proof.
  unfold sha2_window. cbn [nth]. destruct (sha256_Sigma_eq w14) as (_ & _ & _ & <-), (sha256_Sigma_eq w1) as (_ & _ & <- & _). wrap_sums.
Qed.

(** The last two words are added without being stored. *)
Lemma sha256_last_word w0 x y z : w0 +32 x +32 y +32 z = w0 +32 (x +32 y +32 z).
Proof. wrap_sums. Qed.

Opaque Round.

Abbreviation step := (sha2_step 32 Sha256Spec.Sigma0_spec Sha256Spec.Sigma1_spec).
Abbreviation next := (sha2_window 32 Sha256Spec.sigma0_spec Sha256Spec.sigma1_spec).
(** The constants, evaluated once. *)
Definition K : list Z := Eval vm_compute in sha2_K 32 64.

Lemma sha256_K : sha2_K 32 64 = K.
Proof. vm_compute. reflexivity. Qed.

Lemma sha256_words chunk : be_words 4 chunk = map (fun i => ReadBE32 chunk (4 * i)) (seq 0 16).
Proof. done. Qed.

Ltac split_octet st := destruct st as [[[[[[[? ?] ?] ?] ?] ?] ?] ?].
Ltac split_words ws := destruct ws as [[[[[[[[[[[[[[[? ?] ?] ?] ?] ?] ?] ?] ?] ?] ?] ?] ?] ?] ?] ?].

Lemma sha256_rounds_0_15_spec st chunk st' ws' :
  rounds_0_15 st chunk = (st', ws') ->
  foldl step st (zip (take 16 K) (be_words 4 chunk)) = st' /\ list_of_words16 ws' = be_words 4 chunk.
Proof.
  split_octet st. eval_list (take 16 K).
  rewrite sha256_words. cbn [map seq Nat.mul Nat.add]. unfold rounds_0_15.
  cbn [zip zip_with]. do 16 first_round sha256_Round_step. next_round. by intros [= <- <-].
Qed.

Lemma sha256_rounds_16_31_spec st ws st' ws' Ks :
  rounds_16_31 st ws = (st', ws') ->
  later_rounds step next (take 16 (drop 16 K) ++ Ks) (list_of_words16 ws) st =
  later_rounds step next Ks (list_of_words16 ws') st'.
Proof.
  split_octet st. split_words ws. eval_list (take 16 (drop 16 K)).
  unfold rounds_16_31. cbn [list_of_words16 app].
  do 16 later_round sha256_window_eq sha256_Round_step. next_round. by intros [= <- <-].
Qed.

Lemma sha256_rounds_32_47_spec st ws st' ws' Ks :
  rounds_32_47 st ws = (st', ws') ->
  later_rounds step next (take 16 (drop 32 K) ++ Ks) (list_of_words16 ws) st =
  later_rounds step next Ks (list_of_words16 ws') st'.
Proof.
  split_octet st. split_words ws. eval_list (take 16 (drop 32 K)).
  unfold rounds_32_47. cbn [list_of_words16 app].
  do 16 later_round sha256_window_eq sha256_Round_step. next_round. by intros [= <- <-].
Qed.

Lemma sha256_rounds_48_63_spec st ws st' :
  rounds_48_63 st ws = st' ->
  later_rounds step next (take 16 (drop 48 K)) (list_of_words16 ws) st = st'.
Proof.
  split_octet st. split_words ws. eval_list (take 16 (drop 48 K)).
  unfold rounds_48_63. cbn [list_of_words16].
  do 14 later_round sha256_window_eq sha256_Round_step.
  do 2 (next_round; rewrite sha256_last_word; later_round sha256_window_eq sha256_Round_step).
  next_round. by intros <-.
Qed.

Lemma sha256_Transform_spec s chunk : Transform s chunk = Sha256Spec.compress s chunk.
Proof.
  unfold Transform, Sha256Spec.compress, sha2_compress. rewrite sha256_K.
  destruct (rounds_0_15 s chunk) as [st0 ws0] eqn:E0.
  apply sha256_rounds_0_15_spec in E0 as [E0 Ew].
  destruct (rounds_16_31 st0 ws0) as [st1 ws1] eqn:E1.
  destruct (rounds_32_47 st1 ws1) as [st2 ws2] eqn:E2.
  assert (K = take 16 K ++ take 16 (drop 16 K) ++ take 16 (drop 32 K) ++ take 16 (drop 48 K)) as ->
    by (vm_compute; reflexivity).
  rewrite (rounds_later _ _ next 16 ltac:(lia) (sha2_next_window _ _ _)), E0, <-Ew
    by (vm_compute; reflexivity).
  rewrite (sha256_rounds_16_31_spec _ _ _ _ _ E1), (sha256_rounds_32_47_spec _ _ _ _ _ E2), (sha256_rounds_48_63_spec _ _ _ eq_refl).
  split_octet s. split_octet (rounds_48_63 st2 ws2).
  reflexivity.
Qed.

Transparent Round.

Lemma sha256_Finalize_digest h :
  Finalize h = Sha256Spec.digest (hs_s (hasher_Finalize 64 119 sizedesc Transform h)).
Proof.
  unfold Finalize. split_octet (hs_s (hasher_Finalize 64 119 sizedesc Transform h)).
  cbn [Sha256Spec.digest map concat]. by rewrite app_nil_r.
Qed.

Lemma sha256_length_sizedesc z : length (sizedesc z) = 8%nat.
Proof. apply length_be_encode. Qed.

(** The class computes SHA-256 of what was written, for messages whose
    length in bits fits the counter. *)
Lemma CSHA256_spec buf datas :
  length buf = 64%nat -> zlen (concat datas) < 2 ^ 61 ->
  Finalize (foldl Write (init buf) datas) = Sha256Spec.sha256 (concat datas).
Proof.
  intros Hb Hlen. rewrite sha256_Finalize_digest. unfold Sha256Spec.sha256. f_equal.
  unfold Write, init. rewrite (stream_spec _ 8) by
    (done || lia || (by apply Z.mod_divide) || (intros; apply sha256_length_sizedesc)).
  apply md_hash_ext; [apply sha256_Initialize_spec|apply sha256_Transform_spec|].
  done.
Qed.
End Sha256.
