(* ===== verification/Sha512.v ===== *)
(** * CSHA512

    [crypto/sha512.cpp]: the round function, the unrolled compression function
    [Transform] with its sixteen word variables, and the class [CSHA512] over
    the buffered hashing of HashStream.  [Transform] is proved to be the
    compression function of FIPS 180-4, so the class computes SHA-512. *)

From S2P Require Import Prelude HashStream HashWords.

Local Open Scope Z_scope.

(** ** FIPS 180-4 *)

Module Sha512Spec.

(** The functions of section 4.1.3. *)
Definition Sigma0_spec (x : Z) : Z := ROTR 64 28 x ^: ROTR 64 34 x ^: ROTR 64 39 x.
Definition Sigma1_spec (x : Z) : Z := ROTR 64 14 x ^: ROTR 64 18 x ^: ROTR 64 41 x.
Definition sigma0_spec (x : Z) : Z := ROTR 64 1 x ^: ROTR 64 8 x ^: SHR 7 x.
Definition sigma1_spec (x : Z) : Z := ROTR 64 19 x ^: ROTR 64 61 x ^: SHR 6 x.

Definition compress (s : octet) (chunk : list Z) : octet :=
  sha2_compress 64 Sigma0_spec Sigma1_spec sigma0_spec sigma1_spec 80 s (be_words 8 chunk).

Definition digest (s : octet) : list Z :=
  let '(s0, s1, s2, s3, s4, s5, s6, s7) := s in
  concat (map (be_encode 8) [s0; s1; s2; s3; s4; s5; s6; s7]).

Definition sha512 (msg : list Z) : list Z :=
  digest (md_hash 128 16 (be_encode 16) (sha2_iv 64) compress msg).

Lemma sha512_digest_ok s : bytes_ok (digest s) /\ zlen (digest s) = 64.
Proof.
  destruct s as [[[[[[[? ?] ?] ?] ?] ?] ?] ?]. unfold digest. cbn [map concat].
  split; [rewrite !Forall_app; auto 20 using be_encode_ok|].
  unfold zlen. rewrite !length_app, !length_be_encode. done.
Qed.

End Sha512Spec.

(** ** The code *)

Module Sha512.

Definition Ch (x y z : Z) : Z := z ^: (x &: (y ^: z)).
Definition Maj (x y z : Z) : Z := (x &: y) |: (z &: (x |: y)).
Definition Sigma0 (x : Z) : Z := (x >>: 28 |: x <<64 36) ^: (x >>: 34 |: x <<64 30) ^: (x >>: 39 |: x <<64 25).
Definition Sigma1 (x : Z) : Z := (x >>: 14 |: x <<64 50) ^: (x >>: 18 |: x <<64 46) ^: (x >>: 41 |: x <<64 23).
Definition sigma0 (x : Z) : Z := (x >>: 1 |: x <<64 63) ^: (x >>: 8 |: x <<64 56) ^: (x >>: 7).
Definition sigma1 (x : Z) : Z := (x >>: 19 |: x <<64 45) ^: (x >>: 61 |: x <<64 3) ^: (x >>: 6).

(** One round; it changes [d] and [h]. *)
Definition Round (a b c d e f g h k w : Z) : Z * Z :=
  let t1 := h +64 Sigma1 e +64 Ch e f g +64 k +64 w in
  let t2 := Sigma0 a +64 Maj a b c in
  (d +64 t1, t1 +64 t2).

Definition Initialize : octet :=
  (0x6a09e667f3bcc908, 0xbb67ae8584caa73b, 0x3c6ef372fe94f82b, 0xa54ff53a5f1d36f1,
   0x510e527fade682d1, 0x9b05688c2b3e6c1f, 0x1f83d9abfb41bd6b, 0x5be0cd19137e2179).

Definition rounds_0_15 (st : octet) (chunk : list Z) : octet * words16 :=
  let '(a, b, c, d, e, f, g, h) := st in
  let w0 := ReadBE64 chunk 0 in let '(d, h) := Round a b c d e f g h 0x428a2f98d728ae22 w0 in
  let w1 := ReadBE64 chunk 8 in let '(c, g) := Round h a b c d e f g 0x7137449123ef65cd w1 in
  let w2 := ReadBE64 chunk 16 in let '(b, f) := Round g h a b c d e f 0xb5c0fbcfec4d3b2f w2 in
  let w3 := ReadBE64 chunk 24 in let '(a, e) := Round f g h a b c d e 0xe9b5dba58189dbbc w3 in
  let w4 := ReadBE64 chunk 32 in let '(h, d) := Round e f g h a b c d 0x3956c25bf348b538 w4 in
  let w5 := ReadBE64 chunk 40 in let '(g, c) := Round d e f g h a b c 0x59f111f1b605d019 w5 in
  let w6 := ReadBE64 chunk 48 in let '(f, b) := Round c d e f g h a b 0x923f82a4af194f9b w6 in
  let w7 := ReadBE64 chunk 56 in let '(e, a) := Round b c d e f g h a 0xab1c5ed5da6d8118 w7 in
  let w8 := ReadBE64 chunk 64 in let '(d, h) := Round a b c d e f g h 0xd807aa98a3030242 w8 in
  let w9 := ReadBE64 chunk 72 in let '(c, g) := Round h a b c d e f g 0x12835b0145706fbe w9 in
  let w10 := ReadBE64 chunk 80 in let '(b, f) := Round g h a b c d e f 0x243185be4ee4b28c w10 in
  let w11 := ReadBE64 chunk 88 in let '(a, e) := Round f g h a b c d e 0x550c7dc3d5ffb4e2 w11 in
  let w12 := ReadBE64 chunk 96 in let '(h, d) := Round e f g h a b c d 0x72be5d74f27b896f w12 in
  let w13 := ReadBE64 chunk 104 in let '(g, c) := Round d e f g h a b c 0x80deb1fe3b1696b1 w13 in
  let w14 := ReadBE64 chunk 112 in let '(f, b) := Round c d e f g h a b 0x9bdc06a725c71235 w14 in
  let w15 := ReadBE64 chunk 120 in let '(e, a) := Round b c d e f g h a 0xc19bf174cf692694 w15 in
  ((a, b, c, d, e, f, g, h), (w0, w1, w2, w3, w4, w5, w6, w7, w8, w9, w10, w11, w12, w13, w14, w15)).

Definition rounds_16_31 (st : octet) (ws : words16) : octet * words16 :=
  let '(a, b, c, d, e, f, g, h) := st in
  let '(w0, w1, w2, w3, w4, w5, w6, w7, w8, w9, w10, w11, w12, w13, w14, w15) := ws in
  let w0 := w0 +64 (sigma1 w14 +64 w9 +64 sigma0 w1) in
  let '(d, h) := Round a b c d e f g h 0xe49b69c19ef14ad2 w0 in
  let w1 := w1 +64 (sigma1 w15 +64 w10 +64 sigma0 w2) in
  let '(c, g) := Round h a b c d e f g 0xefbe4786384f25e3 w1 in
  let w2 := w2 +64 (sigma1 w0 +64 w11 +64 sigma0 w3) in
  let '(b, f) := Round g h a b c d e f 0x0fc19dc68b8cd5b5 w2 in
  let w3 := w3 +64 (sigma1 w1 +64 w12 +64 sigma0 w4) in
  let '(a, e) := Round f g h a b c d e 0x240ca1cc77ac9c65 w3 in
  let w4 := w4 +64 (sigma1 w2 +64 w13 +64 sigma0 w5) in
  let '(h, d) := Round e f g h a b c d 0x2de92c6f592b0275 w4 in
  let w5 := w5 +64 (sigma1 w3 +64 w14 +64 sigma0 w6) in
  let '(g, c) := Round d e f g h a b c 0x4a7484aa6ea6e483 w5 in
  let w6 := w6 +64 (sigma1 w4 +64 w15 +64 sigma0 w7) in
  let '(f, b) := Round c d e f g h a b 0x5cb0a9dcbd41fbd4 w6 in
  let w7 := w7 +64 (sigma1 w5 +64 w0 +64 sigma0 w8) in
  let '(e, a) := Round b c d e f g h a 0x76f988da831153b5 w7 in
  let w8 := w8 +64 (sigma1 w6 +64 w1 +64 sigma0 w9) in
  let '(d, h) := Round a b c d e f g h 0x983e5152ee66dfab w8 in
  let w9 := w9 +64 (sigma1 w7 +64 w2 +64 sigma0 w10) in
  let '(c, g) := Round h a b c d e f g 0xa831c66d2db43210 w9 in
  let w10 := w10 +64 (sigma1 w8 +64 w3 +64 sigma0 w11) in
  let '(b, f) := Round g h a b c d e f 0xb00327c898fb213f w10 in
  let w11 := w11 +64 (sigma1 w9 +64 w4 +64 sigma0 w12) in
  let '(a, e) := Round f g h a b c d e 0xbf597fc7beef0ee4 w11 in
  let w12 := w12 +64 (sigma1 w10 +64 w5 +64 sigma0 w13) in
  let '(h, d) := Round e f g h a b c d 0xc6e00bf33da88fc2 w12 in
  let w13 := w13 +64 (sigma1 w11 +64 w6 +64 sigma0 w14) in
  let '(g, c) := Round d e f g h a b c 0xd5a79147930aa725 w13 in
  let w14 := w14 +64 (sigma1 w12 +64 w7 +64 sigma0 w15) in
  let '(f, b) := Round c d e f g h a b 0x06ca6351e003826f w14 in
  let w15 := w15 +64 (sigma1 w13 +64 w8 +64 sigma0 w0) in
  let '(e, a) := Round b c d e f g h a 0x142929670a0e6e70 w15 in
  ((a, b, c, d, e, f, g, h), (w0, w1, w2, w3, w4, w5, w6, w7, w8, w9, w10, w11, w12, w13, w14, w15)).

Definition rounds_32_47 (st : octet) (ws : words16) : octet * words16 :=
  let '(a, b, c, d, e, f, g, h) := st in
  let '(w0, w1, w2, w3, w4, w5, w6, w7, w8, w9, w10, w11, w12, w13, w14, w15) := ws in
  let w0 := w0 +64 (sigma1 w14 +64 w9 +64 sigma0 w1) in
  let '(d, h) := Round a b c d e f g h 0x27b70a8546d22ffc w0 in
  let w1 := w1 +64 (sigma1 w15 +64 w10 +64 sigma0 w2) in
  let '(c, g) := Round h a b c d e f g 0x2e1b21385c26c926 w1 in
  let w2 := w2 +64 (sigma1 w0 +64 w11 +64 sigma0 w3) in
  let '(b, f) := Round g h a b c d e f 0x4d2c6dfc5ac42aed w2 in
  let w3 := w3 +64 (sigma1 w1 +64 w12 +64 sigma0 w4) in
  let '(a, e) := Round f g h a b c d e 0x53380d139d95b3df w3 in
  let w4 := w4 +64 (sigma1 w2 +64 w13 +64 sigma0 w5) in
  let '(h, d) := Round e f g h a b c d 0x650a73548baf63de w4 in
  let w5 := w5 +64 (sigma1 w3 +64 w14 +64 sigma0 w6) in
  let '(g, c) := Round d e f g h a b c 0x766a0abb3c77b2a8 w5 in
  let w6 := w6 +64 (sigma1 w4 +64 w15 +64 sigma0 w7) in
  let '(f, b) := Round c d e f g h a b 0x81c2c92e47edaee6 w6 in
  let w7 := w7 +64 (sigma1 w5 +64 w0 +64 sigma0 w8) in
  let '(e, a) := Round b c d e f g h a 0x92722c851482353b w7 in
  let w8 := w8 +64 (sigma1 w6 +64 w1 +64 sigma0 w9) in
  let '(d, h) := Round a b c d e f g h 0xa2bfe8a14cf10364 w8 in
  let w9 := w9 +64 (sigma1 w7 +64 w2 +64 sigma0 w10) in
  let '(c, g) := Round h a b c d e f g 0xa81a664bbc423001 w9 in
  let w10 := w10 +64 (sigma1 w8 +64 w3 +64 sigma0 w11) in
  let '(b, f) := Round g h a b c d e f 0xc24b8b70d0f89791 w10 in
  let w11 := w11 +64 (sigma1 w9 +64 w4 +64 sigma0 w12) in
  let '(a, e) := Round f g h a b c d e 0xc76c51a30654be30 w11 in
  let w12 := w12 +64 (sigma1 w10 +64 w5 +64 sigma0 w13) in
  let '(h, d) := Round e f g h a b c d 0xd192e819d6ef5218 w12 in
  let w13 := w13 +64 (sigma1 w11 +64 w6 +64 sigma0 w14) in
  let '(g, c) := Round d e f g h a b c 0xd69906245565a910 w13 in
  let w14 := w14 +64 (sigma1 w12 +64 w7 +64 sigma0 w15) in
  let '(f, b) := Round c d e f g h a b 0xf40e35855771202a w14 in
  let w15 := w15 +64 (sigma1 w13 +64 w8 +64 sigma0 w0) in
  let '(e, a) := Round b c d e f g h a 0x106aa07032bbd1b8 w15 in
  ((a, b, c, d, e, f, g, h), (w0, w1, w2, w3, w4, w5, w6, w7, w8, w9, w10, w11, w12, w13, w14, w15)).

Definition rounds_48_63 (st : octet) (ws : words16) : octet * words16 :=
  let '(a, b, c, d, e, f, g, h) := st in
  let '(w0, w1, w2, w3, w4, w5, w6, w7, w8, w9, w10, w11, w12, w13, w14, w15) := ws in
  let w0 := w0 +64 (sigma1 w14 +64 w9 +64 sigma0 w1) in
  let '(d, h) := Round a b c d e f g h 0x19a4c116b8d2d0c8 w0 in
  let w1 := w1 +64 (sigma1 w15 +64 w10 +64 sigma0 w2) in
  let '(c, g) := Round h a b c d e f g 0x1e376c085141ab53 w1 in
  let w2 := w2 +64 (sigma1 w0 +64 w11 +64 sigma0 w3) in
  let '(b, f) := Round g h a b c d e f 0x2748774cdf8eeb99 w2 in
  let w3 := w3 +64 (sigma1 w1 +64 w12 +64 sigma0 w4) in
  let '(a, e) := Round f g h a b c d e 0x34b0bcb5e19b48a8 w3 in
  let w4 := w4 +64 (sigma1 w2 +64 w13 +64 sigma0 w5) in
  let '(h, d) := Round e f g h a b c d 0x391c0cb3c5c95a63 w4 in
  let w5 := w5 +64 (sigma1 w3 +64 w14 +64 sigma0 w6) in
  let '(g, c) := Round d e f g h a b c 0x4ed8aa4ae3418acb w5 in
  let w6 := w6 +64 (sigma1 w4 +64 w15 +64 sigma0 w7) in
  let '(f, b) := Round c d e f g h a b 0x5b9cca4f7763e373 w6 in
  let w7 := w7 +64 (sigma1 w5 +64 w0 +64 sigma0 w8) in
  let '(e, a) := Round b c d e f g h a 0x682e6ff3d6b2b8a3 w7 in
  let w8 := w8 +64 (sigma1 w6 +64 w1 +64 sigma0 w9) in
  let '(d, h) := Round a b c d e f g h 0x748f82ee5defb2fc w8 in
  let w9 := w9 +64 (sigma1 w7 +64 w2 +64 sigma0 w10) in
  let '(c, g) := Round h a b c d e f g 0x78a5636f43172f60 w9 in
  let w10 := w10 +64 (sigma1 w8 +64 w3 +64 sigma0 w11) in
  let '(b, f) := Round g h a b c d e f 0x84c87814a1f0ab72 w10 in
  let w11 := w11 +64 (sigma1 w9 +64 w4 +64 sigma0 w12) in
  let '(a, e) := Round f g h a b c d e 0x8cc702081a6439ec w11 in
  let w12 := w12 +64 (sigma1 w10 +64 w5 +64 sigma0 w13) in
  let '(h, d) := Round e f g h a b c d 0x90befffa23631e28 w12 in
  let w13 := w13 +64 (sigma1 w11 +64 w6 +64 sigma0 w14) in
  let '(g, c) := Round d e f g h a b c 0xa4506cebde82bde9 w13 in
  let w14 := w14 +64 (sigma1 w12 +64 w7 +64 sigma0 w15) in
  let '(f, b) := Round c d e f g h a b 0xbef9a3f7b2c67915 w14 in
  let w15 := w15 +64 (sigma1 w13 +64 w8 +64 sigma0 w0) in
  let '(e, a) := Round b c d e f g h a 0xc67178f2e372532b w15 in
  ((a, b, c, d, e, f, g, h), (w0, w1, w2, w3, w4, w5, w6, w7, w8, w9, w10, w11, w12, w13, w14, w15)).

Definition rounds_64_79 (st : octet) (ws : words16) : octet :=
  let '(a, b, c, d, e, f, g, h) := st in
  let '(w0, w1, w2, w3, w4, w5, w6, w7, w8, w9, w10, w11, w12, w13, w14, w15) := ws in
  let w0 := w0 +64 (sigma1 w14 +64 w9 +64 sigma0 w1) in
  let '(d, h) := Round a b c d e f g h 0xca273eceea26619c w0 in
  let w1 := w1 +64 (sigma1 w15 +64 w10 +64 sigma0 w2) in
  let '(c, g) := Round h a b c d e f g 0xd186b8c721c0c207 w1 in
  let w2 := w2 +64 (sigma1 w0 +64 w11 +64 sigma0 w3) in
  let '(b, f) := Round g h a b c d e f 0xeada7dd6cde0eb1e w2 in
  let w3 := w3 +64 (sigma1 w1 +64 w12 +64 sigma0 w4) in
  let '(a, e) := Round f g h a b c d e 0xf57d4f7fee6ed178 w3 in
  let w4 := w4 +64 (sigma1 w2 +64 w13 +64 sigma0 w5) in
  let '(h, d) := Round e f g h a b c d 0x06f067aa72176fba w4 in
  let w5 := w5 +64 (sigma1 w3 +64 w14 +64 sigma0 w6) in
  let '(g, c) := Round d e f g h a b c 0x0a637dc5a2c898a6 w5 in
  let w6 := w6 +64 (sigma1 w4 +64 w15 +64 sigma0 w7) in
  let '(f, b) := Round c d e f g h a b 0x113f9804bef90dae w6 in
  let w7 := w7 +64 (sigma1 w5 +64 w0 +64 sigma0 w8) in
  let '(e, a) := Round b c d e f g h a 0x1b710b35131c471b w7 in
  let w8 := w8 +64 (sigma1 w6 +64 w1 +64 sigma0 w9) in
  let '(d, h) := Round a b c d e f g h 0x28db77f523047d84 w8 in
  let w9 := w9 +64 (sigma1 w7 +64 w2 +64 sigma0 w10) in
  let '(c, g) := Round h a b c d e f g 0x32caab7b40c72493 w9 in
  let w10 := w10 +64 (sigma1 w8 +64 w3 +64 sigma0 w11) in
  let '(b, f) := Round g h a b c d e f 0x3c9ebe0a15c9bebc w10 in
  let w11 := w11 +64 (sigma1 w9 +64 w4 +64 sigma0 w12) in
  let '(a, e) := Round f g h a b c d e 0x431d67c49c100d4c w11 in
  let w12 := w12 +64 (sigma1 w10 +64 w5 +64 sigma0 w13) in
  let '(h, d) := Round e f g h a b c d 0x4cc5d4becb3e42b6 w12 in
  let w13 := w13 +64 (sigma1 w11 +64 w6 +64 sigma0 w14) in
  let '(g, c) := Round d e f g h a b c 0x597f299cfc657e2a w13 in
  let '(f, b) := Round c d e f g h a b 0x5fcb6fab3ad6faec (w14 +64 sigma1 w12 +64 w7 +64 sigma0 w15) in
  let '(e, a) := Round b c d e f g h a 0x6c44198c4a475817 (w15 +64 sigma1 w13 +64 w8 +64 sigma0 w0) in
  (a, b, c, d, e, f, g, h).


Definition Transform (s : octet) (chunk : list Z) : octet :=
  let '(st, ws) := rounds_0_15 s chunk in
  let '(st, ws) := rounds_16_31 st ws in
  let '(st, ws) := rounds_32_47 st ws in
  let '(st, ws) := rounds_48_63 st ws in
  let st := rounds_64_79 st ws in
  let '(a, b, c, d, e, f, g, h) := st in
  let '(s0, s1, s2, s3, s4, s5, s6, s7) := s in
  (s0 +64 a, s1 +64 b, s2 +64 c, s3 +64 d, s4 +64 e, s5 +64 f, s6 +64 g, s7 +64 h).

(** ** The class *)

Definition init (buf : list Z) : hasher octet := hasher_init Initialize buf.
Definition Reset (h : hasher octet) : hasher octet := hasher_Reset Initialize h.
Definition Write (h : hasher octet) (data : list Z) : hasher octet := hasher_Write 128 Transform h data.

Definition sizedesc (bits : Z) : list Z := replicate 8 0 ++ WriteBE64 bits.

Definition Finalize (h : hasher octet) : list Z :=
  let '(s0, s1, s2, s3, s4, s5, s6, s7) := hs_s (hasher_Finalize 128 239 sizedesc Transform h) in
  WriteBE64 s0 ++ WriteBE64 s1 ++ WriteBE64 s2 ++ WriteBE64 s3 ++
  WriteBE64 s4 ++ WriteBE64 s5 ++ WriteBE64 s6 ++ WriteBE64 s7.

(** ** The code computes it *)

Lemma sha512_Initialize_spec : Initialize = sha2_iv 64.
Proof. vm_compute. reflexivity. Qed.

Lemma sha512_Ch_eq x y z : Ch x y z = Ch_spec x y z.
Proof. unfold Ch, Ch_spec. bitwise. Qed.

Lemma sha512_Maj_eq x y z : Maj x y z = Maj_spec x y z.
Proof. unfold Maj, Maj_spec. bitwise. Qed.

(** The shifts of the code are the rotations of the standard. *)
Lemma sha512_Sigma_eq x :
  Sigma0 x = Sha512Spec.Sigma0_spec x /\ Sigma1 x = Sha512Spec.Sigma1_spec x /\ sigma0 x = Sha512Spec.sigma0_spec x /\ sigma1 x = Sha512Spec.sigma1_spec x.
Proof. done. Qed.

Lemma sha512_Round_step a b c d e f g h k w :
  sha2_step 64 Sha512Spec.Sigma0_spec Sha512Spec.Sigma1_spec (a, b, c, d, e, f, g, h) (k, w) =
  let '(d', h') := Round a b c d e f g h k w in (h', a, b, c, d', e, f, g).
Proof.
  unfold sha2_step, Round. cbn [fst snd].
  rewrite <-sha512_Ch_eq, <-sha512_Maj_eq, <-(proj1 (sha512_Sigma_eq a)), <-(proj1 (proj2 (sha512_Sigma_eq e))).
  apply octet_eq; wrap_sums.
Qed.

Lemma sha512_window_eq w0 w1 w2 w3 w4 w5 w6 w7 w8 w9 w10 w11 w12 w13 w14 w15 :
  sha2_window 64 Sha512Spec.sigma0_spec Sha512Spec.sigma1_spec [w0; w1; w2; w3; w4; w5; w6; w7; w8; w9; w10; w11; w12; w13; w14; w15] =
  w0 +64 (sigma1 w14 +64 w9 +64 sigma0 w1).
Proof.
  unfold sha2_window. cbn [nth]. destruct (sha512_Sigma_eq w14) as (_ & _ & _ & <-), (sha512_Sigma_eq w1) as (_ & _ & <- & _). wrap_sums.
Qed.

(** The last two words are added without being stored. *)
Lemma sha512_last_word w0 x y z : w0 +64 x +64 y +64 z = w0 +64 (x +64 y +64 z).
Proof. wrap_sums. Qed.

Opaque Round.

Abbreviation step := (sha2_step 64 Sha512Spec.Sigma0_spec Sha512Spec.Sigma1_spec).
Abbreviation next := (sha2_window 64 Sha512Spec.sigma0_spec Sha512Spec.sigma1_spec).
(** The constants, evaluated once. *)
Definition K : list Z := Eval vm_compute in sha2_K 64 80.

Lemma sha512_K : sha2_K 64 80 = K.
Proof. vm_compute. reflexivity. Qed.

Lemma sha512_words chunk : be_words 8 chunk = map (fun i => ReadBE64 chunk (8 * i)) (seq 0 16).
Proof. done. Qed.

Ltac split_octet st := destruct st as [[[[[[[? ?] ?] ?] ?] ?] ?] ?].
Ltac split_words ws := destruct ws as [[[[[[[[[[[[[[[? ?] ?] ?] ?] ?] ?] ?] ?] ?] ?] ?] ?] ?] ?] ?].

Lemma sha512_rounds_0_15_spec st chunk st' ws' :
  rounds_0_15 st chunk = (st', ws') ->
  foldl step st (zip (take 16 K) (be_words 8 chunk)) = st' /\ list_of_words16 ws' = be_words 8 chunk.
Proof.
  split_octet st. eval_list (take 16 K).
  rewrite sha512_words. cbn [map seq Nat.mul Nat.add]. unfold rounds_0_15.
  cbn [zip zip_with]. do 16 first_round sha512_Round_step. next_round. by intros [= <- <-].
Qed.

Lemma sha512_rounds_16_31_spec st ws st' ws' Ks :
  rounds_16_31 st ws = (st', ws') ->
  later_rounds step next (take 16 (drop 16 K) ++ Ks) (list_of_words16 ws) st =
  later_rounds step next Ks (list_of_words16 ws') st'.
Proof.
  split_octet st. split_words ws. eval_list (take 16 (drop 16 K)).
  unfold rounds_16_31. cbn [list_of_words16 app].
  do 16 later_round sha512_window_eq sha512_Round_step. next_round. by intros [= <- <-].
Qed.

Lemma sha512_rounds_32_47_spec st ws st' ws' Ks :
  rounds_32_47 st ws = (st', ws') ->
  later_rounds step next (take 16 (drop 32 K) ++ Ks) (list_of_words16 ws) st =
  later_rounds step next Ks (list_of_words16 ws') st'.
Proof.
  split_octet st. split_words ws. eval_list (take 16 (drop 32 K)).
  unfold rounds_32_47. cbn [list_of_words16 app].
  do 16 later_round sha512_window_eq sha512_Round_step. next_round. by intros [= <- <-].
Qed.

Lemma sha512_rounds_48_63_spec st ws st' ws' Ks :
  rounds_48_63 st ws = (st', ws') ->
  later_rounds step next (take 16 (drop 48 K) ++ Ks) (list_of_words16 ws) st =
  later_rounds step next Ks (list_of_words16 ws') st'.
Proof.
  split_octet st. split_words ws. eval_list (take 16 (drop 48 K)).
  unfold rounds_48_63. cbn [list_of_words16 app].
  do 16 later_round sha512_window_eq sha512_Round_step. next_round. by intros [= <- <-].
Qed.

Lemma sha512_rounds_64_79_spec st ws st' :
  rounds_64_79 st ws = st' ->
  later_rounds step next (take 16 (drop 64 K)) (list_of_words16 ws) st = st'.
Proof.
  split_octet st. split_words ws. eval_list (take 16 (drop 64 K)).
  unfold rounds_64_79. cbn [list_of_words16].
  do 14 later_round sha512_window_eq sha512_Round_step.
  do 2 (next_round; rewrite sha512_last_word; later_round sha512_window_eq sha512_Round_step).
  next_round. by intros <-.
Qed.

Lemma sha512_Transform_spec s chunk : Transform s chunk = Sha512Spec.compress s chunk.
Proof.
  unfold Transform, Sha512Spec.compress, sha2_compress. rewrite sha512_K.
  destruct (rounds_0_15 s chunk) as [st0 ws0] eqn:E0.
  apply sha512_rounds_0_15_spec in E0 as [E0 Ew].
  destruct (rounds_16_31 st0 ws0) as [st1 ws1] eqn:E1.
  destruct (rounds_32_47 st1 ws1) as [st2 ws2] eqn:E2.
  destruct (rounds_48_63 st2 ws2) as [st3 ws3] eqn:E3.
  assert (K = take 16 K ++ take 16 (drop 16 K) ++ take 16 (drop 32 K) ++ take 16 (drop 48 K) ++ take 16 (drop 64 K)) as ->
    by (vm_compute; reflexivity).
  rewrite (rounds_later _ _ next 16 ltac:(lia) (sha2_next_window _ _ _)), E0, <-Ew
    by (vm_compute; reflexivity).
  rewrite (sha512_rounds_16_31_spec _ _ _ _ _ E1), (sha512_rounds_32_47_spec _ _ _ _ _ E2), (sha512_rounds_48_63_spec _ _ _ _ _ E3), (sha512_rounds_64_79_spec _ _ _ eq_refl).
  split_octet s. split_octet (rounds_64_79 st3 ws3).
  reflexivity.
Qed.

Transparent Round.

Lemma sha512_Finalize_digest h :
  Finalize h = Sha512Spec.digest (hs_s (hasher_Finalize 128 239 sizedesc Transform h)).
Proof.
  unfold Finalize. split_octet (hs_s (hasher_Finalize 128 239 sizedesc Transform h)).
  cbn [Sha512Spec.digest map concat]. by rewrite app_nil_r.
Qed.

Lemma sha512_length_sizedesc z : length (sizedesc z) = 16%nat.
Proof. unfold sizedesc, WriteBE64. rewrite length_app, length_replicate, length_be_encode. done. Qed.

Lemma sizedesc_spec z : 0 <= z < 2 ^ 64 -> sizedesc z = be_encode 16 z.
Proof.
  intros Hz. unfold sizedesc, WriteBE64, be_encode.
  change 16%nat with (8 + 8)%nat. by rewrite le_encode_high, rev_app_distr.
Qed.

(** The class computes SHA-512 of what was written, for messages whose
    length in bits fits the counter. *)
Lemma CSHA512_spec buf datas :
  length buf = 128%nat -> zlen (concat datas) < 2 ^ 61 ->
  Finalize (foldl Write (init buf) datas) = Sha512Spec.sha512 (concat datas).
Proof.
  intros Hb Hlen. rewrite sha512_Finalize_digest. unfold Sha512Spec.sha512. f_equal.
  unfold Write, init. rewrite (stream_spec _ 16) by
    (done || lia || (by apply Z.mod_divide) || (intros; apply sha512_length_sizedesc)).
  apply md_hash_ext; [apply sha512_Initialize_spec|apply sha512_Transform_spec|].
  apply sizedesc_spec. pose proof (zlen_nonneg (concat datas)). lia.
Qed.
End Sha512.
