(* ===== verification/Sha1.v ===== *)
(** * CSHA1

    [crypto/sha1.cpp]: the round, the unrolled compression function
    [Transform], and the class [CSHA1] over the buffered hashing of
    HashStream; proved to compute the SHA-1 of FIPS 180-4. *)

From S2P Require Import Prelude HashStream HashWords.

Local Open Scope Z_scope.

(** The five working variables. *)
Abbreviation quintet := (Z * Z * Z * Z * Z)%type (only parsing).

(** ** FIPS 180-4 *)

Module Sha1Spec.

Definition f (t x y z : Z) : Z :=
  if t <? 20 then Ch_spec x y z
  else if t <? 40 then x ^: y ^: z
  else if t <? 60 then Maj_spec x y z
  else x ^: y ^: z.

(** The constants are the integer parts of 2^30 times square roots. *)
Definition K (t : Z) : Z :=
  Z.sqrt ((if t <? 20 then 2 else if t <? 40 then 3 else if t <? 60 then 5 else 10) * 2 ^ 60).

Definition iv : quintet :=
  (le_decode [0x01; 0x23; 0x45; 0x67], le_decode [0x89; 0xab; 0xcd; 0xef],
   le_decode [0xfe; 0xdc; 0xba; 0x98], le_decode [0x76; 0x54; 0x32; 0x10],
   le_decode [0xf0; 0xe1; 0xd2; 0xc3]).

Definition step (st : quintet) (tw : Z * Z) : quintet :=
  let '(a, b, c, d, e) := st in
  ((ROTL 32 5 a + f tw.1 b c d + e + K tw.1 + tw.2) mod 2 ^ 32, a, ROTL 32 30 b, c, d).

(** W(t) from W(t-1), W(t-2), ..., and from the last sixteen, oldest first. *)
Definition next (Ws : list Z) : Z :=
  ROTL 32 1 (nth 2 Ws 0 ^: nth 7 Ws 0 ^: nth 13 Ws 0 ^: nth 15 Ws 0).

Definition window (win : list Z) : Z :=
  ROTL 32 1 (nth 13 win 0 ^: nth 8 win 0 ^: nth 2 win 0 ^: nth 0 win 0).

Definition add_quintet (x y : quintet) : quintet :=
  let '(a, b, c, d, e) := x in
  let '(a', b', c', d', e') := y in
  ((a + a') mod 2 ^ 32, (b + b') mod 2 ^ 32, (c + c') mod 2 ^ 32, (d + d') mod 2 ^ 32,
   (e + e') mod 2 ^ 32).

Definition compress (s : quintet) (chunk : list Z) : quintet :=
  add_quintet s (rounds step next (seqZ 0 80) (be_words 4 chunk) s).

Definition digest (s : quintet) : list Z :=
  let '(s0, s1, s2, s3, s4) := s in concat (map (be_encode 4) [s0; s1; s2; s3; s4]).

Definition sha1 (msg : list Z) : list Z := digest (md_hash 64 8 (be_encode 8) iv compress msg).

Lemma next_window win rest : length win = 16%nat -> next (rev win ++ rest) = window win.
Proof.
  intros H. do 16 (destruct win as [|? win]; [discriminate H|]).
  destruct win; [done | discriminate H].
Qed.

Lemma sha1_digest_ok s : bytes_ok (digest s) /\ zlen (digest s) = 20.
Proof.
  destruct s as [[[[? ?] ?] ?] ?]. unfold digest. cbn [map concat].
  split; [rewrite !Forall_app; auto 20 using be_encode_ok|].
  unfold zlen. rewrite !length_app, !length_be_encode. done.
Qed.

End Sha1Spec.

(** ** The code *)

Module Sha1.

(** One round; it changes [b] and [e]. *)
Definition Round (a b c d e f k w : Z) : Z * Z :=
  ((b <<32 30) |: (b >>: 2), e +32 (((a <<32 5) |: (a >>: 27)) +32 f +32 k +32 w)).

Definition f1 (b c d : Z) : Z := d ^: (b &: (c ^: d)).
Definition f2 (b c d : Z) : Z := b ^: c ^: d.
Definition f3 (b c d : Z) : Z := (b &: c) |: (d &: (b |: c)).
Definition left (x : Z) : Z := (x <<32 1) |: (x >>: 31).

Definition Initialize : quintet :=
  (0x67452301, 0xEFCDAB89, 0x98BADCFE, 0x10325476, 0xC3D2E1F0).

Definition k1 : Z := 0x5A827999.
Definition k2 : Z := 0x6ED9EBA1.
Definition k3 : Z := 0x8F1BBCDC.
Definition k4 : Z := 0xCA62C1D6.

Definition rounds_0_15 (st : quintet) (chunk : list Z) : quintet * words16 :=
  let '(a, b, c, d, e) := st in
  let w0 := ReadBE32 chunk 0 in let '(b, e) := Round a b c d e (f1 b c d) k1 w0 in
  let w1 := ReadBE32 chunk 4 in let '(a, d) := Round e a b c d (f1 a b c) k1 w1 in
  let w2 := ReadBE32 chunk 8 in let '(e, c) := Round d e a b c (f1 e a b) k1 w2 in
  let w3 := ReadBE32 chunk 12 in let '(d, b) := Round c d e a b (f1 d e a) k1 w3 in
  let w4 := ReadBE32 chunk 16 in let '(c, a) := Round b c d e a (f1 c d e) k1 w4 in
  let w5 := ReadBE32 chunk 20 in let '(b, e) := Round a b c d e (f1 b c d) k1 w5 in
  let w6 := ReadBE32 chunk 24 in let '(a, d) := Round e a b c d (f1 a b c) k1 w6 in
  let w7 := ReadBE32 chunk 28 in let '(e, c) := Round d e a b c (f1 e a b) k1 w7 in
  let w8 := ReadBE32 chunk 32 in let '(d, b) := Round c d e a b (f1 d e a) k1 w8 in
  let w9 := ReadBE32 chunk 36 in let '(c, a) := Round b c d e a (f1 c d e) k1 w9 in
  let w10 := ReadBE32 chunk 40 in let '(b, e) := Round a b c d e (f1 b c d) k1 w10 in
  let w11 := ReadBE32 chunk 44 in let '(a, d) := Round e a b c d (f1 a b c) k1 w11 in
  let w12 := ReadBE32 chunk 48 in let '(e, c) := Round d e a b c (f1 e a b) k1 w12 in
  let w13 := ReadBE32 chunk 52 in let '(d, b) := Round c d e a b (f1 d e a) k1 w13 in
  let w14 := ReadBE32 chunk 56 in let '(c, a) := Round b c d e a (f1 c d e) k1 w14 in
  let w15 := ReadBE32 chunk 60 in let '(b, e) := Round a b c d e (f1 b c d) k1 w15 in
  ((a, b, c, d, e), (w0, w1, w2, w3, w4, w5, w6, w7, w8, w9, w10, w11, w12, w13, w14, w15)).

Definition rounds_16_31 (st : quintet) (ws : words16) : quintet * words16 :=
  let '(a, b, c, d, e) := st in
  let '(w0, w1, w2, w3, w4, w5, w6, w7, w8, w9, w10, w11, w12, w13, w14, w15) := ws in
  let w0 := left (w0 ^: w13 ^: w8 ^: w2) in let '(a, d) := Round e a b c d (f1 a b c) k1 w0 in
  let w1 := left (w1 ^: w14 ^: w9 ^: w3) in let '(e, c) := Round d e a b c (f1 e a b) k1 w1 in
  let w2 := left (w2 ^: w15 ^: w10 ^: w4) in let '(d, b) := Round c d e a b (f1 d e a) k1 w2 in
  let w3 := left (w3 ^: w0 ^: w11 ^: w5) in let '(c, a) := Round b c d e a (f1 c d e) k1 w3 in
  let w4 := left (w4 ^: w1 ^: w12 ^: w6) in let '(b, e) := Round a b c d e (f2 b c d) k2 w4 in
  let w5 := left (w5 ^: w2 ^: w13 ^: w7) in let '(a, d) := Round e a b c d (f2 a b c) k2 w5 in
  let w6 := left (w6 ^: w3 ^: w14 ^: w8) in let '(e, c) := Round d e a b c (f2 e a b) k2 w6 in
  let w7 := left (w7 ^: w4 ^: w15 ^: w9) in let '(d, b) := Round c d e a b (f2 d e a) k2 w7 in
  let w8 := left (w8 ^: w5 ^: w0 ^: w10) in let '(c, a) := Round b c d e a (f2 c d e) k2 w8 in
  let w9 := left (w9 ^: w6 ^: w1 ^: w11) in let '(b, e) := Round a b c d e (f2 b c d) k2 w9 in
  let w10 := left (w10 ^: w7 ^: w2 ^: w12) in let '(a, d) := Round e a b c d (f2 a b c) k2 w10 in
  let w11 := left (w11 ^: w8 ^: w3 ^: w13) in let '(e, c) := Round d e a b c (f2 e a b) k2 w11 in
  let w12 := left (w12 ^: w9 ^: w4 ^: w14) in let '(d, b) := Round c d e a b (f2 d e a) k2 w12 in
  let w13 := left (w13 ^: w10 ^: w5 ^: w15) in let '(c, a) := Round b c d e a (f2 c d e) k2 w13 in
  let w14 := left (w14 ^: w11 ^: w6 ^: w0) in let '(b, e) := Round a b c d e (f2 b c d) k2 w14 in
  let w15 := left (w15 ^: w12 ^: w7 ^: w1) in let '(a, d) := Round e a b c d (f2 a b c) k2 w15 in
  ((a, b, c, d, e), (w0, w1, w2, w3, w4, w5, w6, w7, w8, w9, w10, w11, w12, w13, w14, w15)).

Definition rounds_32_47 (st : quintet) (ws : words16) : quintet * words16 :=
  let '(a, b, c, d, e) := st in
  let '(w0, w1, w2, w3, w4, w5, w6, w7, w8, w9, w10, w11, w12, w13, w14, w15) := ws in
  let w0 := left (w0 ^: w13 ^: w8 ^: w2) in let '(e, c) := Round d e a b c (f2 e a b) k2 w0 in
  let w1 := left (w1 ^: w14 ^: w9 ^: w3) in let '(d, b) := Round c d e a b (f2 d e a) k2 w1 in
  let w2 := left (w2 ^: w15 ^: w10 ^: w4) in let '(c, a) := Round b c d e a (f2 c d e) k2 w2 in
  let w3 := left (w3 ^: w0 ^: w11 ^: w5) in let '(b, e) := Round a b c d e (f2 b c d) k2 w3 in
  let w4 := left (w4 ^: w1 ^: w12 ^: w6) in let '(a, d) := Round e a b c d (f2 a b c) k2 w4 in
  let w5 := left (w5 ^: w2 ^: w13 ^: w7) in let '(e, c) := Round d e a b c (f2 e a b) k2 w5 in
  let w6 := left (w6 ^: w3 ^: w14 ^: w8) in let '(d, b) := Round c d e a b (f2 d e a) k2 w6 in
  let w7 := left (w7 ^: w4 ^: w15 ^: w9) in let '(c, a) := Round b c d e a (f2 c d e) k2 w7 in
  let w8 := left (w8 ^: w5 ^: w0 ^: w10) in let '(b, e) := Round a b c d e (f3 b c d) k3 w8 in
  let w9 := left (w9 ^: w6 ^: w1 ^: w11) in let '(a, d) := Round e a b c d (f3 a b c) k3 w9 in
  let w10 := left (w10 ^: w7 ^: w2 ^: w12) in let '(e, c) := Round d e a b c (f3 e a b) k3 w10 in
  let w11 := left (w11 ^: w8 ^: w3 ^: w13) in let '(d, b) := Round c d e a b (f3 d e a) k3 w11 in
  let w12 := left (w12 ^: w9 ^: w4 ^: w14) in let '(c, a) := Round b c d e a (f3 c d e) k3 w12 in
  let w13 := left (w13 ^: w10 ^: w5 ^: w15) in let '(b, e) := Round a b c d e (f3 b c d) k3 w13 in
  let w14 := left (w14 ^: w11 ^: w6 ^: w0) in let '(a, d) := Round e a b c d (f3 a b c) k3 w14 in
  let w15 := left (w15 ^: w12 ^: w7 ^: w1) in let '(e, c) := Round d e a b c (f3 e a b) k3 w15 in
  ((a, b, c, d, e), (w0, w1, w2, w3, w4, w5, w6, w7, w8, w9, w10, w11, w12, w13, w14, w15)).

Definition rounds_48_63 (st : quintet) (ws : words16) : quintet * words16 :=
  let '(a, b, c, d, e) := st in
  let '(w0, w1, w2, w3, w4, w5, w6, w7, w8, w9, w10, w11, w12, w13, w14, w15) := ws in
  let w0 := left (w0 ^: w13 ^: w8 ^: w2) in let '(d, b) := Round c d e a b (f3 d e a) k3 w0 in
  let w1 := left (w1 ^: w14 ^: w9 ^: w3) in let '(c, a) := Round b c d e a (f3 c d e) k3 w1 in
  let w2 := left (w2 ^: w15 ^: w10 ^: w4) in let '(b, e) := Round a b c d e (f3 b c d) k3 w2 in
  let w3 := left (w3 ^: w0 ^: w11 ^: w5) in let '(a, d) := Round e a b c d (f3 a b c) k3 w3 in
  let w4 := left (w4 ^: w1 ^: w12 ^: w6) in let '(e, c) := Round d e a b c (f3 e a b) k3 w4 in
  let w5 := left (w5 ^: w2 ^: w13 ^: w7) in let '(d, b) := Round c d e a b (f3 d e a) k3 w5 in
  let w6 := left (w6 ^: w3 ^: w14 ^: w8) in let '(c, a) := Round b c d e a (f3 c d e) k3 w6 in
  let w7 := left (w7 ^: w4 ^: w15 ^: w9) in let '(b, e) := Round a b c d e (f3 b c d) k3 w7 in
  let w8 := left (w8 ^: w5 ^: w0 ^: w10) in let '(a, d) := Round e a b c d (f3 a b c) k3 w8 in
  let w9 := left (w9 ^: w6 ^: w1 ^: w11) in let '(e, c) := Round d e a b c (f3 e a b) k3 w9 in
  let w10 := left (w10 ^: w7 ^: w2 ^: w12) in let '(d, b) := Round c d e a b (f3 d e a) k3 w10 in
  let w11 := left (w11 ^: w8 ^: w3 ^: w13) in let '(c, a) := Round b c d e a (f3 c d e) k3 w11 in
  let w12 := left (w12 ^: w9 ^: w4 ^: w14) in let '(b, e) := Round a b c d e (f2 b c d) k4 w12 in
  let w13 := left (w13 ^: w10 ^: w5 ^: w15) in let '(a, d) := Round e a b c d (f2 a b c) k4 w13 in
  let w14 := left (w14 ^: w11 ^: w6 ^: w0) in let '(e, c) := Round d e a b c (f2 e a b) k4 w14 in
  let w15 := left (w15 ^: w12 ^: w7 ^: w1) in let '(d, b) := Round c d e a b (f2 d e a) k4 w15 in
  ((a, b, c, d, e), (w0, w1, w2, w3, w4, w5, w6, w7, w8, w9, w10, w11, w12, w13, w14, w15)).

Definition rounds_64_79 (st : quintet) (ws : words16) : quintet :=
  let '(a, b, c, d, e) := st in
  let '(w0, w1, w2, w3, w4, w5, w6, w7, w8, w9, w10, w11, w12, w13, w14, w15) := ws in
  let w0 := left (w0 ^: w13 ^: w8 ^: w2) in let '(c, a) := Round b c d e a (f2 c d e) k4 w0 in
  let w1 := left (w1 ^: w14 ^: w9 ^: w3) in let '(b, e) := Round a b c d e (f2 b c d) k4 w1 in
  let w2 := left (w2 ^: w15 ^: w10 ^: w4) in let '(a, d) := Round e a b c d (f2 a b c) k4 w2 in
  let w3 := left (w3 ^: w0 ^: w11 ^: w5) in let '(e, c) := Round d e a b c (f2 e a b) k4 w3 in
  let w4 := left (w4 ^: w1 ^: w12 ^: w6) in let '(d, b) := Round c d e a b (f2 d e a) k4 w4 in
  let w5 := left (w5 ^: w2 ^: w13 ^: w7) in let '(c, a) := Round b c d e a (f2 c d e) k4 w5 in
  let w6 := left (w6 ^: w3 ^: w14 ^: w8) in let '(b, e) := Round a b c d e (f2 b c d) k4 w6 in
  let w7 := left (w7 ^: w4 ^: w15 ^: w9) in let '(a, d) := Round e a b c d (f2 a b c) k4 w7 in
  let w8 := left (w8 ^: w5 ^: w0 ^: w10) in let '(e, c) := Round d e a b c (f2 e a b) k4 w8 in
  let w9 := left (w9 ^: w6 ^: w1 ^: w11) in let '(d, b) := Round c d e a b (f2 d e a) k4 w9 in
  let w10 := left (w10 ^: w7 ^: w2 ^: w12) in let '(c, a) := Round b c d e a (f2 c d e) k4 w10 in
  let w11 := left (w11 ^: w8 ^: w3 ^: w13) in let '(b, e) := Round a b c d e (f2 b c d) k4 w11 in
  let w12 := left (w12 ^: w9 ^: w4 ^: w14) in let '(a, d) := Round e a b c d (f2 a b c) k4 w12 in
  let '(e, c) := Round d e a b c (f2 e a b) k4 (left (w13 ^: w10 ^: w5 ^: w15)) in
  let '(d, b) := Round c d e a b (f2 d e a) k4 (left (w14 ^: w11 ^: w6 ^: w0)) in
  let '(c, a) := Round b c d e a (f2 c d e) k4 (left (w15 ^: w12 ^: w7 ^: w1)) in
  (a, b, c, d, e).

Definition Transform (s : quintet) (chunk : list Z) : quintet :=
  let '(st, ws) := rounds_0_15 s chunk in
  let '(st, ws) := rounds_16_31 st ws in
  let '(st, ws) := rounds_32_47 st ws in
  let '(st, ws) := rounds_48_63 st ws in
  let st := rounds_64_79 st ws in
  let '(a, b, c, d, e) := st in
  let '(s0, s1, s2, s3, s4) := s in
  (s0 +32 a, s1 +32 b, s2 +32 c, s3 +32 d, s4 +32 e).

(** ** The class *)

Definition init (buf : list Z) : hasher quintet := hasher_init Initialize buf.
Definition Reset (h : hasher quintet) : hasher quintet := hasher_Reset Initialize h.
Definition Write (h : hasher quintet) (data : list Z) : hasher quintet := hasher_Write 64 Transform h data.

Definition Finalize (h : hasher quintet) : list Z :=
  let '(s0, s1, s2, s3, s4) := hs_s (hasher_Finalize 64 119 WriteBE64 Transform h) in
  WriteBE32 s0 ++ WriteBE32 s1 ++ WriteBE32 s2 ++ WriteBE32 s3 ++ WriteBE32 s4.

(** ** The code computes SHA-1 *)

Lemma sha1_Round_step a b c d e t fv k w :
  Sha1Spec.f t b c d = fv -> Sha1Spec.K t = k ->
  Sha1Spec.step (a, b, c, d, e) (t, w) =
  let '(b', e') := Round a b c d e fv k w in (e', a, b', c, d).
Proof.
  intros Hf Hk. unfold Sha1Spec.step, Round. cbn [fst snd]. rewrite Hf, Hk.
  change (ROTL 32 5 a) with ((a <<32 5) |: (a >>: 27)).
  change (ROTL 32 30 b) with ((b <<32 30) |: (b >>: 2)).
  f_equal. f_equal. f_equal. f_equal. wrap_sums.
Qed.

Lemma K_spec t : 0 <= t < 80 ->
  Sha1Spec.K t = if t <? 20 then k1 else if t <? 40 then k2 else if t <? 60 then k3 else k4.
Proof.
  intros _. unfold Sha1Spec.K.
  destruct (t <? 20); [done|]. destruct (t <? 40); [done|]. by destruct (t <? 60).
Qed.

Lemma f_spec t b c d : 0 <= t < 80 ->
  Sha1Spec.f t b c d = if t <? 20 then f1 b c d else if t <? 40 then f2 b c d
                       else if t <? 60 then f3 b c d else f2 b c d.
Proof.
  intros _. unfold Sha1Spec.f.
  destruct (t <? 20); [unfold f1, Ch_spec; bitwise|]. destruct (t <? 40); [done|].
  destruct (t <? 60); [unfold f3, Maj_spec; bitwise|done].
Qed.

Lemma sha1_window_eq w0 w1 w2 w3 w4 w5 w6 w7 w8 w9 w10 w11 w12 w13 w14 w15 :
  Sha1Spec.window [w0; w1; w2; w3; w4; w5; w6; w7; w8; w9; w10; w11; w12; w13; w14; w15] =
  left (w0 ^: w13 ^: w8 ^: w2).
Proof.
  unfold Sha1Spec.window. cbn [nth].
  replace (w13 ^: w8 ^: w2 ^: w0) with (w0 ^: w13 ^: w8 ^: w2) by bitwise. done.
Qed.

Opaque Round.

Abbreviation step := Sha1Spec.step.
Abbreviation next := Sha1Spec.window.
Abbreviation Ts := (seqZ 0 80).

(** The code permutes the names of its variables each round, and not back
    after sixteen. *)
Definition rotate (n : nat) (st : quintet) : quintet :=
  Nat.iter n (fun st : quintet => let '(a, b, c, d, e) := st in (e, a, b, c, d)) st.

(** A round of the specification, by its number, is the code's. *)
Ltac sha1_round_eq :=
  match goal with |- context [step (?a, ?b, ?c, ?d, ?e) (?t, ?w)] =>
    rewrite (sha1_Round_step a b c d e t _ _ w (f_spec t b c d ltac:(lia)) (K_spec t ltac:(lia)));
    let c1 := eval vm_compute in (t <? 20) in change (t <? 20) with c1;
    let c2 := eval vm_compute in (t <? 40) in change (t <? 40) with c2;
    let c3 := eval vm_compute in (t <? 60) in change (t <? 60) with c3;
    cbv match;
    match goal with
    | |- context [later_rounds _ _ _ _ (match ?r with (_, _) => _ end)] => destruct r as [? ?]
    | |- context [foldl _ (match ?r with (_, _) => _ end) _] => destruct r as [? ?]
    end
  end.

Ltac split_quintet st := destruct st as [[[[? ?] ?] ?] ?].
Lemma sha1_words chunk : be_words 4 chunk = map (fun i => ReadBE32 chunk (4 * i)) (seq 0 16).
Proof. done. Qed.

Ltac split_words ws := destruct ws as [[[[[[[[[[[[[[[? ?] ?] ?] ?] ?] ?] ?] ?] ?] ?] ?] ?] ?] ?] ?].

Lemma sha1_rounds_0_15_spec st chunk st' ws' :
  rounds_0_15 st chunk = (st', ws') ->
  foldl step st (zip (take 16 Ts) (be_words 4 chunk)) = rotate 1 st' /\
  list_of_words16 ws' = be_words 4 chunk.
Proof.
  split_quintet st. eval_list (take 16 Ts).
  rewrite sha1_words. cbn [map seq Nat.mul Nat.add]. unfold rounds_0_15.
  cbn [zip zip_with].
  do 16 (next_round; rewrite foldl_cons; sha1_round_eq).
  next_round. by intros [= <- <-].
Qed.

Lemma sha1_rounds_16_31_spec st ws st' ws' Ks :
  rounds_16_31 st ws = (st', ws') ->
  later_rounds step next (take 16 (drop 16 Ts) ++ Ks) (list_of_words16 ws) (rotate 1 st) =
  later_rounds step next Ks (list_of_words16 ws') (rotate 2 st').
Proof.
  split_quintet st. split_words ws. eval_list (take 16 (drop 16 Ts)).
  unfold rounds_16_31. cbn [list_of_words16 app rotate Nat.iter nat_rect].
  do 16 (make_word sha1_window_eq; sha1_round_eq).
  next_round. by intros [= <- <-].
Qed.

Lemma sha1_rounds_32_47_spec st ws st' ws' Ks :
  rounds_32_47 st ws = (st', ws') ->
  later_rounds step next (take 16 (drop 32 Ts) ++ Ks) (list_of_words16 ws) (rotate 2 st) =
  later_rounds step next Ks (list_of_words16 ws') (rotate 3 st').
Proof.
  split_quintet st. split_words ws. eval_list (take 16 (drop 32 Ts)).
  unfold rounds_32_47. cbn [list_of_words16 app rotate Nat.iter nat_rect].
  do 16 (make_word sha1_window_eq; sha1_round_eq).
  next_round. by intros [= <- <-].
Qed.

Lemma sha1_rounds_48_63_spec st ws st' ws' Ks :
  rounds_48_63 st ws = (st', ws') ->
  later_rounds step next (take 16 (drop 48 Ts) ++ Ks) (list_of_words16 ws) (rotate 3 st) =
  later_rounds step next Ks (list_of_words16 ws') (rotate 4 st').
Proof.
  split_quintet st. split_words ws. eval_list (take 16 (drop 48 Ts)).
  unfold rounds_48_63. cbn [list_of_words16 app rotate Nat.iter nat_rect].
  do 16 (make_word sha1_window_eq; sha1_round_eq).
  next_round. by intros [= <- <-].
Qed.

Lemma sha1_rounds_64_79_spec st ws st' :
  rounds_64_79 st ws = st' ->
  later_rounds step next (take 16 (drop 64 Ts)) (list_of_words16 ws) (rotate 4 st) = st'.
Proof.
  split_quintet st. split_words ws. eval_list (take 16 (drop 64 Ts)).
  unfold rounds_64_79. cbn [list_of_words16 rotate Nat.iter nat_rect].
  do 16 (make_word sha1_window_eq; sha1_round_eq).
  next_round. by intros <-.
Qed.

Lemma sha1_Initialize_spec : Initialize = Sha1Spec.iv.
Proof. vm_compute. reflexivity. Qed.

Lemma sha1_Transform_spec s chunk : Transform s chunk = Sha1Spec.compress s chunk.
Proof.
  unfold Transform, Sha1Spec.compress.
  destruct (rounds_0_15 s chunk) as [st0 ws0] eqn:E0.
  apply sha1_rounds_0_15_spec in E0 as [E0 Ew].
  destruct (rounds_16_31 st0 ws0) as [st1 ws1] eqn:E1.
  destruct (rounds_32_47 st1 ws1) as [st2 ws2] eqn:E2.
  destruct (rounds_48_63 st2 ws2) as [st3 ws3] eqn:E3.
  assert (Ts = take 16 Ts ++ take 16 (drop 16 Ts) ++ take 16 (drop 32 Ts) ++ take 16 (drop 48 Ts) ++
    take 16 (drop 64 Ts)) as -> by (vm_compute; reflexivity).
  rewrite (rounds_later _ _ next 16 ltac:(lia) Sha1Spec.next_window), E0, <-Ew
    by (vm_compute; reflexivity).
  rewrite (sha1_rounds_16_31_spec _ _ _ _ _ E1), (sha1_rounds_32_47_spec _ _ _ _ _ E2),
    (sha1_rounds_48_63_spec _ _ _ _ _ E3), (sha1_rounds_64_79_spec _ _ _ eq_refl).
  split_quintet s. split_quintet (rounds_64_79 st3 ws3).
  reflexivity.
Qed.

Transparent Round.

Lemma sha1_Finalize_digest h :
  Finalize h = Sha1Spec.digest (hs_s (hasher_Finalize 64 119 WriteBE64 Transform h)).
Proof.
  unfold Finalize. split_quintet (hs_s (hasher_Finalize 64 119 WriteBE64 Transform h)).
  cbn [Sha1Spec.digest map concat]. by rewrite app_nil_r.
Qed.

(** The class computes SHA-1 of what was written, for messages whose length
    in bits fits the counter. *)
Lemma CSHA1_spec buf datas :
  length buf = 64%nat -> zlen (concat datas) < 2 ^ 61 ->
  Finalize (foldl Write (init buf) datas) = Sha1Spec.sha1 (concat datas).
Proof.
  intros Hb Hlen. rewrite sha1_Finalize_digest. unfold Sha1Spec.sha1. f_equal.
  unfold Write, init. rewrite (stream_spec _ 8) by
    (done || lia || (by apply Z.mod_divide) || (intros; apply length_be_encode)).
  apply md_hash_ext; [apply sha1_Initialize_spec|apply sha1_Transform_spec|done].
Qed.

End Sha1.
