(* ===== verification/Ripemd160.v ===== *)
(** * CRIPEMD160

    [crypto/ripemd160.cpp]: the two lines of rounds, written interleaved and
    unrolled, and the class [CRIPEMD160] over the buffered hashing of
    HashStream.  The reference follows the paper that defines RIPEMD-160: the
    order of the words from two permutations, the shifts by round and word,
    the constants from square and cube roots. *)

From S2P Require Import Prelude HashStream HashWords.

Local Open Scope Z_scope.

Abbreviation quintet := (Z * Z * Z * Z * Z)%type (only parsing).

(** ** RIPEMD-160 *)

Module RmdSpec.

(** The permutations of the sixteen words. *)
Definition rho (i : nat) : nat := nth i [7; 4; 13; 1; 10; 6; 15; 3; 12; 0; 9; 5; 2; 14; 11; 8]%nat 0%nat.
Definition pi (i : nat) : nat := ((9 * i + 5) mod 16)%nat.

(** The shift of a word, by round. *)
Definition shifts (j i : nat) : Z :=
  nth i (nth j
    [[11; 14; 15; 12;  5;  8;  7;  9; 11; 13; 14; 15;  6;  7;  9;  8];
     [12; 13; 11; 15;  6;  9;  9;  7; 12; 15; 11; 13;  7;  8;  7;  7];
     [13; 15; 14; 11;  7;  7;  6;  8; 13; 14; 13; 12;  5;  5;  6;  9];
     [14; 11; 12; 14;  8;  6;  5;  5; 15; 12; 15; 14;  9;  9;  8;  6];
     [15; 12; 13; 13;  9;  5;  8;  6; 14; 11; 12; 11;  8;  6;  5;  5]] []) 0.

(** The complement of a word. *)
Definition neg (x : Z) : Z := Z.lnot x mod 2 ^ 32.

Definition f (j : nat) (x y z : Z) : Z :=
  match j with
  | 0%nat => x ^: y ^: z
  | 1%nat => (x &: y) |: (neg x &: z)
  | 2%nat => (x |: neg y) ^: z
  | 3%nat => (x &: z) |: (y &: neg z)
  | _ => x ^: (y |: neg z)
  end.

(** Integer parts of 2^30 times square and cube roots. *)
Definition K_left (j : nat) : Z := Z.sqrt (nth j [0; 2; 3; 5; 7] 0 * 2 ^ 60).
Definition K_right (j : nat) : Z :=
  match nth j [2; 3; 5; 7; 0] 0 with 0 => 0 | p => icbrt (p * 2 ^ 90) end.

(** What one step of a line uses: round, constant, word, shift. *)
Record instr := Instr { i_f : nat; i_K : Z; i_word : nat; i_shift : Z }.

Definition left_instr (t : nat) : instr :=
  let j := (t / 16)%nat in
  let r := Nat.iter j rho (t mod 16)%nat in
  Instr j (K_left j) r (shifts j r).

Definition right_instr (t : nat) : instr :=
  let j := (t / 16)%nat in
  let r := Nat.iter j rho (pi (t mod 16)) in
  Instr (4 - j) (K_right j) r (shifts j r).

Definition step (X : list Z) (st : quintet) (i : instr) : quintet :=
  let '(A, B, C, D, E) := st in
  (E, (ROTL 32 (i_shift i) ((A + f (i_f i) B C D + nth (i_word i) X 0 + i_K i) mod 2 ^ 32) + E) mod 2 ^ 32,
   B, ROTL 32 10 C, D).

Definition compress (h : quintet) (chunk : list Z) : quintet :=
  let X := le_words 4 chunk in
  let '(A, B, C, D, E) := foldl (step X) h (map left_instr (seq 0 80)) in
  let '(A', B', C', D', E') := foldl (step X) h (map right_instr (seq 0 80)) in
  let '(h0, h1, h2, h3, h4) := h in
  ((h1 + C + D') mod 2 ^ 32, (h2 + D + E') mod 2 ^ 32, (h3 + E + A') mod 2 ^ 32,
   (h4 + A + B') mod 2 ^ 32, (h0 + B + C') mod 2 ^ 32).

Definition iv : quintet :=
  (le_decode [0x01; 0x23; 0x45; 0x67], le_decode [0x89; 0xab; 0xcd; 0xef],
   le_decode [0xfe; 0xdc; 0xba; 0x98], le_decode [0x76; 0x54; 0x32; 0x10],
   le_decode [0xf0; 0xe1; 0xd2; 0xc3]).

Definition digest (s : quintet) : list Z :=
  let '(s0, s1, s2, s3, s4) := s in concat (map (le_encode 4) [s0; s1; s2; s3; s4]).

Definition ripemd160 (msg : list Z) : list Z := digest (md_hash 64 8 (le_encode 8) iv compress msg).

Lemma rmd_digest_ok s : bytes_ok (digest s) /\ zlen (digest s) = 20.
Proof.
  destruct s as [[[[? ?] ?] ?] ?]. unfold digest. cbn [map concat].
  split; [rewrite !Forall_app; auto 20 using le_encode_ok|].
  unfold zlen. rewrite !length_app, !length_le_encode. done.
Qed.

End RmdSpec.

(** ** The code *)

Module Ripemd160.

Definition f1 (x y z : Z) : Z := x ^: y ^: z.
Definition f2 (x y z : Z) : Z := (x &: y) |: (not32 x &: z).
Definition f3 (x y z : Z) : Z := (x |: not32 y) ^: z.
Definition f4 (x y z : Z) : Z := (x &: z) |: (y &: not32 z).
Definition f5 (x y z : Z) : Z := x ^: (y |: not32 z).

Definition Initialize : quintet :=
  (0x67452301, 0xEFCDAB89, 0x98BADCFE, 0x10325476, 0xC3D2E1F0).

Definition rol (x i : Z) : Z := (x <<32 i) |: (x >>: (32 - i)).

(** One step of a line; it changes [a] and [c]. *)
Definition Round (a b c d e f x k r : Z) : Z * Z :=
  (rol (a +32 f +32 x +32 k) r +32 e, rol c 10).

Definition R11 (a b c d e x r : Z) : Z * Z := Round a b c d e (f1 b c d) x 0 r.
Definition R21 (a b c d e x r : Z) : Z * Z := Round a b c d e (f2 b c d) x 0x5A827999 r.
Definition R31 (a b c d e x r : Z) : Z * Z := Round a b c d e (f3 b c d) x 0x6ED9EBA1 r.
Definition R41 (a b c d e x r : Z) : Z * Z := Round a b c d e (f4 b c d) x 0x8F1BBCDC r.
Definition R51 (a b c d e x r : Z) : Z * Z := Round a b c d e (f5 b c d) x 0xA953FD4E r.
Definition R12 (a b c d e x r : Z) : Z * Z := Round a b c d e (f5 b c d) x 0x50A28BE6 r.
Definition R22 (a b c d e x r : Z) : Z * Z := Round a b c d e (f4 b c d) x 0x5C4DD124 r.
Definition R32 (a b c d e x r : Z) : Z * Z := Round a b c d e (f3 b c d) x 0x6D703EF3 r.
Definition R42 (a b c d e x r : Z) : Z * Z := Round a b c d e (f2 b c d) x 0x7A6D76E9 r.
Definition R52 (a b c d e x r : Z) : Z * Z := Round a b c d e (f1 b c d) x 0 r.

Definition round_1 (ws : words16) (st1 st2 : quintet) : quintet * quintet :=
  let '(w0, w1, w2, w3, w4, w5, w6, w7, w8, w9, w10, w11, w12, w13, w14, w15) := ws in
  let '(a1, b1, c1, d1, e1) := st1 in
  let '(a2, b2, c2, d2, e2) := st2 in
  let '(a1, c1) := R11 a1 b1 c1 d1 e1 w0 11 in let '(a2, c2) := R12 a2 b2 c2 d2 e2 w5 8 in
  let '(e1, b1) := R11 e1 a1 b1 c1 d1 w1 14 in let '(e2, b2) := R12 e2 a2 b2 c2 d2 w14 9 in
  let '(d1, a1) := R11 d1 e1 a1 b1 c1 w2 15 in let '(d2, a2) := R12 d2 e2 a2 b2 c2 w7 9 in
  let '(c1, e1) := R11 c1 d1 e1 a1 b1 w3 12 in let '(c2, e2) := R12 c2 d2 e2 a2 b2 w0 11 in
  let '(b1, d1) := R11 b1 c1 d1 e1 a1 w4 5 in let '(b2, d2) := R12 b2 c2 d2 e2 a2 w9 13 in
  let '(a1, c1) := R11 a1 b1 c1 d1 e1 w5 8 in let '(a2, c2) := R12 a2 b2 c2 d2 e2 w2 15 in
  let '(e1, b1) := R11 e1 a1 b1 c1 d1 w6 7 in let '(e2, b2) := R12 e2 a2 b2 c2 d2 w11 15 in
  let '(d1, a1) := R11 d1 e1 a1 b1 c1 w7 9 in let '(d2, a2) := R12 d2 e2 a2 b2 c2 w4 5 in
  let '(c1, e1) := R11 c1 d1 e1 a1 b1 w8 11 in let '(c2, e2) := R12 c2 d2 e2 a2 b2 w13 7 in
  let '(b1, d1) := R11 b1 c1 d1 e1 a1 w9 13 in let '(b2, d2) := R12 b2 c2 d2 e2 a2 w6 7 in
  let '(a1, c1) := R11 a1 b1 c1 d1 e1 w10 14 in let '(a2, c2) := R12 a2 b2 c2 d2 e2 w15 8 in
  let '(e1, b1) := R11 e1 a1 b1 c1 d1 w11 15 in let '(e2, b2) := R12 e2 a2 b2 c2 d2 w8 11 in
  let '(d1, a1) := R11 d1 e1 a1 b1 c1 w12 6 in let '(d2, a2) := R12 d2 e2 a2 b2 c2 w1 14 in
  let '(c1, e1) := R11 c1 d1 e1 a1 b1 w13 7 in let '(c2, e2) := R12 c2 d2 e2 a2 b2 w10 14 in
  let '(b1, d1) := R11 b1 c1 d1 e1 a1 w14 9 in let '(b2, d2) := R12 b2 c2 d2 e2 a2 w3 12 in
  let '(a1, c1) := R11 a1 b1 c1 d1 e1 w15 8 in let '(a2, c2) := R12 a2 b2 c2 d2 e2 w12 6 in
  ((a1, b1, c1, d1, e1), (a2, b2, c2, d2, e2)).

Definition round_2 (ws : words16) (st1 st2 : quintet) : quintet * quintet :=
  let '(w0, w1, w2, w3, w4, w5, w6, w7, w8, w9, w10, w11, w12, w13, w14, w15) := ws in
  let '(a1, b1, c1, d1, e1) := st1 in
  let '(a2, b2, c2, d2, e2) := st2 in
  let '(e1, b1) := R21 e1 a1 b1 c1 d1 w7 7 in let '(e2, b2) := R22 e2 a2 b2 c2 d2 w6 9 in
  let '(d1, a1) := R21 d1 e1 a1 b1 c1 w4 6 in let '(d2, a2) := R22 d2 e2 a2 b2 c2 w11 13 in
  let '(c1, e1) := R21 c1 d1 e1 a1 b1 w13 8 in let '(c2, e2) := R22 c2 d2 e2 a2 b2 w3 15 in
  let '(b1, d1) := R21 b1 c1 d1 e1 a1 w1 13 in let '(b2, d2) := R22 b2 c2 d2 e2 a2 w7 7 in
  let '(a1, c1) := R21 a1 b1 c1 d1 e1 w10 11 in let '(a2, c2) := R22 a2 b2 c2 d2 e2 w0 12 in
  let '(e1, b1) := R21 e1 a1 b1 c1 d1 w6 9 in let '(e2, b2) := R22 e2 a2 b2 c2 d2 w13 8 in
  let '(d1, a1) := R21 d1 e1 a1 b1 c1 w15 7 in let '(d2, a2) := R22 d2 e2 a2 b2 c2 w5 9 in
  let '(c1, e1) := R21 c1 d1 e1 a1 b1 w3 15 in let '(c2, e2) := R22 c2 d2 e2 a2 b2 w10 11 in
  let '(b1, d1) := R21 b1 c1 d1 e1 a1 w12 7 in let '(b2, d2) := R22 b2 c2 d2 e2 a2 w14 7 in
  let '(a1, c1) := R21 a1 b1 c1 d1 e1 w0 12 in let '(a2, c2) := R22 a2 b2 c2 d2 e2 w15 7 in
  let '(e1, b1) := R21 e1 a1 b1 c1 d1 w9 15 in let '(e2, b2) := R22 e2 a2 b2 c2 d2 w8 12 in
  let '(d1, a1) := R21 d1 e1 a1 b1 c1 w5 9 in let '(d2, a2) := R22 d2 e2 a2 b2 c2 w12 7 in
  let '(c1, e1) := R21 c1 d1 e1 a1 b1 w2 11 in let '(c2, e2) := R22 c2 d2 e2 a2 b2 w4 6 in
  let '(b1, d1) := R21 b1 c1 d1 e1 a1 w14 7 in let '(b2, d2) := R22 b2 c2 d2 e2 a2 w9 15 in
  let '(a1, c1) := R21 a1 b1 c1 d1 e1 w11 13 in let '(a2, c2) := R22 a2 b2 c2 d2 e2 w1 13 in
  let '(e1, b1) := R21 e1 a1 b1 c1 d1 w8 12 in let '(e2, b2) := R22 e2 a2 b2 c2 d2 w2 11 in
  ((a1, b1, c1, d1, e1), (a2, b2, c2, d2, e2)).

Definition round_3 (ws : words16) (st1 st2 : quintet) : quintet * quintet :=
  let '(w0, w1, w2, w3, w4, w5, w6, w7, w8, w9, w10, w11, w12, w13, w14, w15) := ws in
  let '(a1, b1, c1, d1, e1) := st1 in
  let '(a2, b2, c2, d2, e2) := st2 in
  let '(d1, a1) := R31 d1 e1 a1 b1 c1 w3 11 in let '(d2, a2) := R32 d2 e2 a2 b2 c2 w15 9 in
  let '(c1, e1) := R31 c1 d1 e1 a1 b1 w10 13 in let '(c2, e2) := R32 c2 d2 e2 a2 b2 w5 7 in
  let '(b1, d1) := R31 b1 c1 d1 e1 a1 w14 6 in let '(b2, d2) := R32 b2 c2 d2 e2 a2 w1 15 in
  let '(a1, c1) := R31 a1 b1 c1 d1 e1 w4 7 in let '(a2, c2) := R32 a2 b2 c2 d2 e2 w3 11 in
  let '(e1, b1) := R31 e1 a1 b1 c1 d1 w9 14 in let '(e2, b2) := R32 e2 a2 b2 c2 d2 w7 8 in
  let '(d1, a1) := R31 d1 e1 a1 b1 c1 w15 9 in let '(d2, a2) := R32 d2 e2 a2 b2 c2 w14 6 in
  let '(c1, e1) := R31 c1 d1 e1 a1 b1 w8 13 in let '(c2, e2) := R32 c2 d2 e2 a2 b2 w6 6 in
  let '(b1, d1) := R31 b1 c1 d1 e1 a1 w1 15 in let '(b2, d2) := R32 b2 c2 d2 e2 a2 w9 14 in
  let '(a1, c1) := R31 a1 b1 c1 d1 e1 w2 14 in let '(a2, c2) := R32 a2 b2 c2 d2 e2 w11 12 in
  let '(e1, b1) := R31 e1 a1 b1 c1 d1 w7 8 in let '(e2, b2) := R32 e2 a2 b2 c2 d2 w8 13 in
  let '(d1, a1) := R31 d1 e1 a1 b1 c1 w0 13 in let '(d2, a2) := R32 d2 e2 a2 b2 c2 w12 5 in
  let '(c1, e1) := R31 c1 d1 e1 a1 b1 w6 6 in let '(c2, e2) := R32 c2 d2 e2 a2 b2 w2 14 in
  let '(b1, d1) := R31 b1 c1 d1 e1 a1 w13 5 in let '(b2, d2) := R32 b2 c2 d2 e2 a2 w10 13 in
  let '(a1, c1) := R31 a1 b1 c1 d1 e1 w11 12 in let '(a2, c2) := R32 a2 b2 c2 d2 e2 w0 13 in
  let '(e1, b1) := R31 e1 a1 b1 c1 d1 w5 7 in let '(e2, b2) := R32 e2 a2 b2 c2 d2 w4 7 in
  let '(d1, a1) := R31 d1 e1 a1 b1 c1 w12 5 in let '(d2, a2) := R32 d2 e2 a2 b2 c2 w13 5 in
  ((a1, b1, c1, d1, e1), (a2, b2, c2, d2, e2)).

Definition round_4 (ws : words16) (st1 st2 : quintet) : quintet * quintet :=
  let '(w0, w1, w2, w3, w4, w5, w6, w7, w8, w9, w10, w11, w12, w13, w14, w15) := ws in
  let '(a1, b1, c1, d1, e1) := st1 in
  let '(a2, b2, c2, d2, e2) := st2 in
  let '(c1, e1) := R41 c1 d1 e1 a1 b1 w1 11 in let '(c2, e2) := R42 c2 d2 e2 a2 b2 w8 15 in
  let '(b1, d1) := R41 b1 c1 d1 e1 a1 w9 12 in let '(b2, d2) := R42 b2 c2 d2 e2 a2 w6 5 in
  let '(a1, c1) := R41 a1 b1 c1 d1 e1 w11 14 in let '(a2, c2) := R42 a2 b2 c2 d2 e2 w4 8 in
  let '(e1, b1) := R41 e1 a1 b1 c1 d1 w10 15 in let '(e2, b2) := R42 e2 a2 b2 c2 d2 w1 11 in
  let '(d1, a1) := R41 d1 e1 a1 b1 c1 w0 14 in let '(d2, a2) := R42 d2 e2 a2 b2 c2 w3 14 in
  let '(c1, e1) := R41 c1 d1 e1 a1 b1 w8 15 in let '(c2, e2) := R42 c2 d2 e2 a2 b2 w11 14 in
  let '(b1, d1) := R41 b1 c1 d1 e1 a1 w12 9 in let '(b2, d2) := R42 b2 c2 d2 e2 a2 w15 6 in
  let '(a1, c1) := R41 a1 b1 c1 d1 e1 w4 8 in let '(a2, c2) := R42 a2 b2 c2 d2 e2 w0 14 in
  let '(e1, b1) := R41 e1 a1 b1 c1 d1 w13 9 in let '(e2, b2) := R42 e2 a2 b2 c2 d2 w5 6 in
  let '(d1, a1) := R41 d1 e1 a1 b1 c1 w3 14 in let '(d2, a2) := R42 d2 e2 a2 b2 c2 w12 9 in
  let '(c1, e1) := R41 c1 d1 e1 a1 b1 w7 5 in let '(c2, e2) := R42 c2 d2 e2 a2 b2 w2 12 in
  let '(b1, d1) := R41 b1 c1 d1 e1 a1 w15 6 in let '(b2, d2) := R42 b2 c2 d2 e2 a2 w13 9 in
  let '(a1, c1) := R41 a1 b1 c1 d1 e1 w14 8 in let '(a2, c2) := R42 a2 b2 c2 d2 e2 w9 12 in
  let '(e1, b1) := R41 e1 a1 b1 c1 d1 w5 6 in let '(e2, b2) := R42 e2 a2 b2 c2 d2 w7 5 in
  let '(d1, a1) := R41 d1 e1 a1 b1 c1 w6 5 in let '(d2, a2) := R42 d2 e2 a2 b2 c2 w10 15 in
  let '(c1, e1) := R41 c1 d1 e1 a1 b1 w2 12 in let '(c2, e2) := R42 c2 d2 e2 a2 b2 w14 8 in
  ((a1, b1, c1, d1, e1), (a2, b2, c2, d2, e2)).

Definition round_5 (ws : words16) (st1 st2 : quintet) : quintet * quintet :=
  let '(w0, w1, w2, w3, w4, w5, w6, w7, w8, w9, w10, w11, w12, w13, w14, w15) := ws in
  let '(a1, b1, c1, d1, e1) := st1 in
  let '(a2, b2, c2, d2, e2) := st2 in
  let '(b1, d1) := R51 b1 c1 d1 e1 a1 w4 9 in let '(b2, d2) := R52 b2 c2 d2 e2 a2 w12 8 in
  let '(a1, c1) := R51 a1 b1 c1 d1 e1 w0 15 in let '(a2, c2) := R52 a2 b2 c2 d2 e2 w15 5 in
  let '(e1, b1) := R51 e1 a1 b1 c1 d1 w5 5 in let '(e2, b2) := R52 e2 a2 b2 c2 d2 w10 12 in
  let '(d1, a1) := R51 d1 e1 a1 b1 c1 w9 11 in let '(d2, a2) := R52 d2 e2 a2 b2 c2 w4 9 in
  let '(c1, e1) := R51 c1 d1 e1 a1 b1 w7 6 in let '(c2, e2) := R52 c2 d2 e2 a2 b2 w1 12 in
  let '(b1, d1) := R51 b1 c1 d1 e1 a1 w12 8 in let '(b2, d2) := R52 b2 c2 d2 e2 a2 w5 5 in
  let '(a1, c1) := R51 a1 b1 c1 d1 e1 w2 13 in let '(a2, c2) := R52 a2 b2 c2 d2 e2 w8 14 in
  let '(e1, b1) := R51 e1 a1 b1 c1 d1 w10 12 in let '(e2, b2) := R52 e2 a2 b2 c2 d2 w7 6 in
  let '(d1, a1) := R51 d1 e1 a1 b1 c1 w14 5 in let '(d2, a2) := R52 d2 e2 a2 b2 c2 w6 8 in
  let '(c1, e1) := R51 c1 d1 e1 a1 b1 w1 12 in let '(c2, e2) := R52 c2 d2 e2 a2 b2 w2 13 in
  let '(b1, d1) := R51 b1 c1 d1 e1 a1 w3 13 in let '(b2, d2) := R52 b2 c2 d2 e2 a2 w13 6 in
  let '(a1, c1) := R51 a1 b1 c1 d1 e1 w8 14 in let '(a2, c2) := R52 a2 b2 c2 d2 e2 w14 5 in
  let '(e1, b1) := R51 e1 a1 b1 c1 d1 w11 11 in let '(e2, b2) := R52 e2 a2 b2 c2 d2 w0 15 in
  let '(d1, a1) := R51 d1 e1 a1 b1 c1 w6 8 in let '(d2, a2) := R52 d2 e2 a2 b2 c2 w3 13 in
  let '(c1, e1) := R51 c1 d1 e1 a1 b1 w15 5 in let '(c2, e2) := R52 c2 d2 e2 a2 b2 w9 11 in
  let '(b1, d1) := R51 b1 c1 d1 e1 a1 w13 6 in let '(b2, d2) := R52 b2 c2 d2 e2 a2 w11 11 in
  ((a1, b1, c1, d1, e1), (a2, b2, c2, d2, e2)).

Definition Transform (s : quintet) (chunk : list Z) : quintet :=
  let ws :=
    (ReadLE32 chunk 0, ReadLE32 chunk 4, ReadLE32 chunk 8, ReadLE32 chunk 12,
     ReadLE32 chunk 16, ReadLE32 chunk 20, ReadLE32 chunk 24, ReadLE32 chunk 28,
     ReadLE32 chunk 32, ReadLE32 chunk 36, ReadLE32 chunk 40, ReadLE32 chunk 44,
     ReadLE32 chunk 48, ReadLE32 chunk 52, ReadLE32 chunk 56, ReadLE32 chunk 60) in
  let '(st1, st2) := round_1 ws s s in
  let '(st1, st2) := round_2 ws st1 st2 in
  let '(st1, st2) := round_3 ws st1 st2 in
  let '(st1, st2) := round_4 ws st1 st2 in
  let '(st1, st2) := round_5 ws st1 st2 in
  let '(a1, b1, c1, d1, e1) := st1 in
  let '(a2, b2, c2, d2, e2) := st2 in
  let '(s0, s1, s2, s3, s4) := s in
  (s1 +32 c1 +32 d2, s2 +32 d1 +32 e2, s3 +32 e1 +32 a2, s4 +32 a1 +32 b2, s0 +32 b1 +32 c2).

(** ** The class *)

Definition init (buf : list Z) : hasher quintet := hasher_init Initialize buf.
Definition Reset (h : hasher quintet) : hasher quintet := hasher_Reset Initialize h.
Definition Write (h : hasher quintet) (data : list Z) : hasher quintet := hasher_Write 64 Transform h data.

Definition Finalize (h : hasher quintet) : list Z :=
  let '(s0, s1, s2, s3, s4) := hs_s (hasher_Finalize 64 119 WriteLE64 Transform h) in
  WriteLE32 s0 ++ WriteLE32 s1 ++ WriteLE32 s2 ++ WriteLE32 s3 ++ WriteLE32 s4.

(** ** The code computes RIPEMD-160 *)

Lemma rmd_Round_step X i a b c d e x k r fv :
  RmdSpec.f (RmdSpec.i_f i) b c d = fv -> nth (RmdSpec.i_word i) X 0 = x ->
  RmdSpec.i_K i = k -> RmdSpec.i_shift i = r ->
  RmdSpec.step X (a, b, c, d, e) i =
  let '(a', c') := Round a b c d e fv x k r in (e, a', b, c', d).
Proof.
  intros <- <- <- <-. unfold RmdSpec.step, Round.
  change (ROTL 32) with (fun n x => rol x n). cbn beta.
  f_equal. f_equal. f_equal. f_equal.
  replace ((a + RmdSpec.f (RmdSpec.i_f i) b c d + nth (RmdSpec.i_word i) X 0 + RmdSpec.i_K i) mod 2 ^ 32)
    with (a +32 RmdSpec.f (RmdSpec.i_f i) b c d +32 nth (RmdSpec.i_word i) X 0 +32 RmdSpec.i_K i) by wrap_sums.
  done.
Qed.

Opaque Round.

Ltac split_quintet st := destruct st as [[[[? ?] ?] ?] ?].
Ltac split_words ws := destruct ws as [[[[[[[[[[[[[[[? ?] ?] ?] ?] ?] ?] ?] ?] ?] ?] ?] ?] ?] ?] ?].

(** The next step of a line on both sides. *)
Ltac rmd_round :=
  next_round;
  lazymatch goal with |- match Round ?a ?b ?c ?d ?e ?fv ?x ?k ?r with (_, _) => _ end = _ -> _ =>
    match goal with |- context [foldl (RmdSpec.step ?X) (a, b, c, d, e) (?i :: ?l)] =>
      rewrite (foldl_cons (RmdSpec.step X) (a, b, c, d, e) i l),
        (rmd_Round_step X i a b c d e x k r fv eq_refl eq_refl eq_refl eq_refl)
    end;
    destruct (Round a b c d e fv x k r) as [? ?]
  end.

Ltac unfold_rounds := unfold R11, R21, R31, R41, R51, R12, R22, R32, R42, R52.

(** The names of the variables move each step, and not back after sixteen. *)
Definition rotate (n : nat) (st : quintet) : quintet :=
  Nat.iter n (fun st : quintet => let '(a, b, c, d, e) := st in (e, a, b, c, d)) st.

Lemma round_1_spec ws l r l' r' :
  round_1 ws l r = (l', r') ->
  foldl (RmdSpec.step (list_of_words16 ws)) (rotate 0 l) (map RmdSpec.left_instr (seq 0 16)) = rotate 1 l' /\
  foldl (RmdSpec.step (list_of_words16 ws)) (rotate 0 r) (map RmdSpec.right_instr (seq 0 16)) = rotate 1 r'.
Proof.
  split_words ws. split_quintet l. split_quintet r.
  eval_list (map RmdSpec.left_instr (seq 0 16)). eval_list (map RmdSpec.right_instr (seq 0 16)).
  unfold round_1. unfold_rounds. cbn [rotate Nat.iter nat_rect list_of_words16].
  do 32 rmd_round. next_round. by intros [= <- <-].
Qed.

Lemma round_2_spec ws l r l' r' :
  round_2 ws l r = (l', r') ->
  foldl (RmdSpec.step (list_of_words16 ws)) (rotate 1 l) (map RmdSpec.left_instr (seq 16 16)) = rotate 2 l' /\
  foldl (RmdSpec.step (list_of_words16 ws)) (rotate 1 r) (map RmdSpec.right_instr (seq 16 16)) = rotate 2 r'.
Proof.
  split_words ws. split_quintet l. split_quintet r.
  eval_list (map RmdSpec.left_instr (seq 16 16)). eval_list (map RmdSpec.right_instr (seq 16 16)).
  unfold round_2. unfold_rounds. cbn [rotate Nat.iter nat_rect list_of_words16].
  do 32 rmd_round. next_round. by intros [= <- <-].
Qed.

Lemma round_3_spec ws l r l' r' :
  round_3 ws l r = (l', r') ->
  foldl (RmdSpec.step (list_of_words16 ws)) (rotate 2 l) (map RmdSpec.left_instr (seq 32 16)) = rotate 3 l' /\
  foldl (RmdSpec.step (list_of_words16 ws)) (rotate 2 r) (map RmdSpec.right_instr (seq 32 16)) = rotate 3 r'.
Proof.
  split_words ws. split_quintet l. split_quintet r.
  eval_list (map RmdSpec.left_instr (seq 32 16)). eval_list (map RmdSpec.right_instr (seq 32 16)).
  unfold round_3. unfold_rounds. cbn [rotate Nat.iter nat_rect list_of_words16].
  do 32 rmd_round. next_round. by intros [= <- <-].
Qed.

Lemma round_4_spec ws l r l' r' :
  round_4 ws l r = (l', r') ->
  foldl (RmdSpec.step (list_of_words16 ws)) (rotate 3 l) (map RmdSpec.left_instr (seq 48 16)) = rotate 4 l' /\
  foldl (RmdSpec.step (list_of_words16 ws)) (rotate 3 r) (map RmdSpec.right_instr (seq 48 16)) = rotate 4 r'.
Proof.
  split_words ws. split_quintet l. split_quintet r.
  eval_list (map RmdSpec.left_instr (seq 48 16)). eval_list (map RmdSpec.right_instr (seq 48 16)).
  unfold round_4. unfold_rounds. cbn [rotate Nat.iter nat_rect list_of_words16].
  do 32 rmd_round. next_round. by intros [= <- <-].
Qed.

Lemma round_5_spec ws l r l' r' :
  round_5 ws l r = (l', r') ->
  foldl (RmdSpec.step (list_of_words16 ws)) (rotate 4 l) (map RmdSpec.left_instr (seq 64 16)) = rotate 5 l' /\
  foldl (RmdSpec.step (list_of_words16 ws)) (rotate 4 r) (map RmdSpec.right_instr (seq 64 16)) = rotate 5 r'.
Proof.
  split_words ws. split_quintet l. split_quintet r.
  eval_list (map RmdSpec.left_instr (seq 64 16)). eval_list (map RmdSpec.right_instr (seq 64 16)).
  unfold round_5. unfold_rounds. cbn [rotate Nat.iter nat_rect list_of_words16].
  do 32 rmd_round. next_round. by intros [= <- <-].
Qed.


Lemma rmd_Initialize_spec : Initialize = RmdSpec.iv.
Proof. vm_compute. reflexivity. Qed.

Lemma instrs_split (line : nat -> RmdSpec.instr) :
  map line (seq 0 80) = map line (seq 0 16) ++ map line (seq 16 16) ++ map line (seq 32 16) ++
                        map line (seq 48 16) ++ map line (seq 64 16).
Proof. reflexivity. Qed.

Lemma rmd_Transform_spec s chunk : Transform s chunk = RmdSpec.compress s chunk.
Proof.
  unfold Transform, RmdSpec.compress. cbn zeta. rewrite !instrs_split, !foldl_app.
  match goal with |- context [round_1 ?w s s] => set (ws := w) end.
  change (le_words 4 chunk) with (list_of_words16 ws).
  destruct (round_1 ws s s) as [l1 r1] eqn:E1.
  destruct (round_2 ws l1 r1) as [l2 r2] eqn:E2.
  destruct (round_3 ws l2 r2) as [l3 r3] eqn:E3.
  destruct (round_4 ws l3 r3) as [l4 r4] eqn:E4.
  destruct (round_5 ws l4 r4) as [l5 r5] eqn:E5.
  apply round_1_spec in E1 as [El1 Er1]. apply round_2_spec in E2 as [El2 Er2].
  apply round_3_spec in E3 as [El3 Er3]. apply round_4_spec in E4 as [El4 Er4].
  apply round_5_spec in E5 as [El5 Er5].
  change (rotate 0 s) with s in El1, Er1.
  rewrite El1, El2, El3, El4, El5, Er1, Er2, Er3, Er4, Er5.
  split_quintet l5. split_quintet r5. split_quintet s.
  cbn [rotate Nat.iter nat_rect]. unfold add32, to_u32. by rewrite !Zplus_mod_idemp_l.
Qed.

Transparent Round.

Lemma rmd_Finalize_digest h :
  Finalize h = RmdSpec.digest (hs_s (hasher_Finalize 64 119 WriteLE64 Transform h)).
Proof.
  unfold Finalize. split_quintet (hs_s (hasher_Finalize 64 119 WriteLE64 Transform h)).
  cbn [RmdSpec.digest map concat]. by rewrite app_nil_r.
Qed.

(** The class computes RIPEMD-160 of what was written, for messages whose
    length in bits fits the counter. *)
Lemma CRIPEMD160_spec buf datas :
  length buf = 64%nat -> zlen (concat datas) < 2 ^ 61 ->
  Finalize (foldl Write (init buf) datas) = RmdSpec.ripemd160 (concat datas).
Proof.
  intros Hb Hlen. rewrite rmd_Finalize_digest. unfold RmdSpec.ripemd160. f_equal.
  unfold Write, init. rewrite (stream_spec _ 8) by
    (done || lia || (by apply Z.mod_divide) || (intros; apply length_le_encode)).
  apply md_hash_ext; [apply rmd_Initialize_spec|apply rmd_Transform_spec|done].
Qed.

End Ripemd160.
