(* ===== verification/Hasher.v ===== *)
(** * Hashers as an interface, and HMAC

    What the users of a hash class rely on: it can be created, written to in
    pieces and finalised, and gives the hash of what was written.  [CSHA256]
    and [CSHA512] implement it, and OpenSSL's [SHA256_*] and [SHA512_*]
    functions are assumed to.  [CHMAC_SHA256] ([crypto/hmac_sha256.cpp]),
    [CHMAC_SHA512] ([crypto/hmac_sha512.cpp]) and the [HMAC_SHA512_*]
    functions of [hash.cpp], three copies of the same code, are written over
    the interface and proved to be the HMAC of RFC 2104. *)

From S2P Require Import Prelude HashStream HashWords Sha256 Sha512.

Local Open Scope Z_scope.

(** A hasher: its operations, the hash function it is for, and its laws. *)
Class StreamHash := {
  sh_state : Type;
  sh_block : nat;
  sh_out : nat;
  sh_init : sh_state;
  sh_write : sh_state -> list Z -> sh_state;
  sh_final : sh_state -> list Z;
  sh_hash : list Z -> list Z;
  sh_reads : sh_state -> list Z -> Prop;
}.

Class StreamHashLaws (SH : StreamHash) : Prop := {
  sh_init_reads : sh_reads sh_init [];
  sh_write_reads s msg data : sh_reads s msg -> sh_reads (sh_write s data) (msg ++ data);
  sh_final_hash s msg : sh_reads s msg -> zlen msg < 2 ^ 61 -> sh_final s = sh_hash msg;
  sh_hash_length msg : length (sh_hash msg) = sh_out;
  sh_out_block : (sh_out <= sh_block)%nat;
  sh_block_small : (sh_block <= 1024)%nat;
}.

(** What a local variable of the class holds in its buffer before it is
    written: anything will do. *)
Definition uninitialised (n : nat) : list Z := replicate n 0xcc.

#[export] Instance CSHA256 : StreamHash := {
  sh_state := hasher octet;
  sh_block := 64;
  sh_out := 32;
  sh_init := Sha256.init (uninitialised 64);
  sh_write := Sha256.Write;
  sh_final := Sha256.Finalize;
  sh_hash := Sha256Spec.sha256;
  sh_reads := represents 64 Sha256.Initialize Sha256.Transform;
}.

#[export] Instance CSHA512 : StreamHash := {
  sh_state := hasher octet;
  sh_block := 128;
  sh_out := 64;
  sh_init := Sha512.init (uninitialised 128);
  sh_write := Sha512.Write;
  sh_final := Sha512.Finalize;
  sh_hash := Sha512Spec.sha512;
  sh_reads := represents 128 Sha512.Initialize Sha512.Transform;
}.

(** ** HMAC *)

Section hmac.
Context (SH : StreamHash).

Record hmac_state := Hmac { outer : sh_state; inner : sh_state }.

(** [key[n] ^= b] for every byte. *)
Definition xor_key (b : Z) (key : list Z) : list Z := map (fun x => Z.lxor x b) key.

(** The constructor. *)
Definition hmac_init (key : list Z) : hmac_state :=
  let rkey :=
    if (length key <=? sh_block)%nat
    then key ++ replicate (sh_block - length key) 0
    else sh_final (sh_write sh_init key) ++ replicate (sh_block - sh_out) 0 in
  let rkey := xor_key 0x5c rkey in
  let outer := sh_write sh_init rkey in
  let rkey := xor_key (Z.lxor 0x5c 0x36) rkey in
  Hmac outer (sh_write sh_init rkey).

Definition hmac_Write (h : hmac_state) (data : list Z) : hmac_state :=
  Hmac (outer h) (sh_write (inner h) data).

Definition hmac_Finalize (h : hmac_state) : list Z :=
  let temp := sh_final (inner h) in
  sh_final (sh_write (outer h) temp).

(** RFC 2104, of a hash function [H] with blocks of [B] bytes. *)
Definition hmac (H : list Z -> list Z) (B : nat) (key msg : list Z) : list Z :=
  let k := if (B <? length key)%nat then H key else key in
  let K := k ++ replicate (B - length k) 0 in
  H (xor_key 0x5c K ++ H (xor_key 0x36 K ++ msg)).

Context {Laws : StreamHashLaws SH}.

Lemma xor_key_twice a b key : xor_key (Z.lxor a b) (xor_key a key) = xor_key b key.
Proof.
  unfold xor_key. rewrite map_map. apply map_ext. intros x. bitwise.
Qed.

Lemma length_xor_key b key : length (xor_key b key) = length key.
Proof. unfold xor_key. by rewrite length_map. Qed.

Lemma writes_reads s msg datas :
  sh_reads s msg -> sh_reads (foldl sh_write s datas) (msg ++ concat datas).
Proof.
  revert s msg. induction datas as [|d ds IH]; intros s msg Hs; cbn; [by rewrite app_nil_r|].
  rewrite app_assoc. by apply IH, sh_write_reads.
Qed.

Lemma hmac_Writes h datas :
  foldl hmac_Write h datas = Hmac (outer h) (foldl sh_write (inner h) datas).
Proof. revert h. induction datas as [|d ds IH]; intros [o i]; cbn; [done|]. by rewrite IH. Qed.

(** Creating with a key, writing in pieces and finalising gives the HMAC. *)
Lemma hmac_spec key datas :
  zlen key < 2 ^ 61 -> zlen (concat datas) < 2 ^ 60 ->
  hmac_Finalize (foldl hmac_Write (hmac_init key) datas) = hmac sh_hash sh_block key (concat datas).
Proof.
  intros Hkey Hlen. rewrite hmac_Writes.
  set (K := (if (sh_block <? length key)%nat then sh_hash key else key) ++
    replicate (sh_block - length (if (sh_block <? length key)%nat then sh_hash key else key)) 0).
  assert (hmac_init key = Hmac (sh_write sh_init (xor_key 0x5c K)) (sh_write sh_init (xor_key 0x36 K))) as ->.
  { unfold hmac_init. rewrite xor_key_twice. unfold K.
    destruct (Nat.leb_spec (length key) sh_block), (Nat.ltb_spec sh_block (length key)); try lia; [done|].
    rewrite (sh_final_hash _ ([] ++ key)) by (done || apply sh_write_reads, sh_init_reads).
    by rewrite app_nil_l, sh_hash_length. }
  assert (length K = sh_block) as HK.
  { unfold K. pose proof sh_out_block. rewrite length_app, length_replicate.
    destruct (Nat.ltb_spec sh_block (length key)); [rewrite sh_hash_length|]; lia. }
  pose proof sh_block_small. pose proof sh_out_block.
  unfold hmac_Finalize, hmac. cbn [outer inner]. fold K.
  assert (sh_final (foldl sh_write (sh_write sh_init (xor_key 0x36 K)) datas) =
          sh_hash (xor_key 0x36 K ++ concat datas)) as ->.
  { apply sh_final_hash; [apply writes_reads; apply (sh_write_reads sh_init []), sh_init_reads|].
    rewrite zlen_app. unfold zlen at 1. rewrite length_xor_key. lia. }
  apply sh_final_hash.
  - apply sh_write_reads. apply (sh_write_reads sh_init []), sh_init_reads.
  - unfold zlen. rewrite length_app, length_xor_key, sh_hash_length. lia.
Qed.
End hmac.

Definition CHMAC_SHA256 (key : list Z) : hmac_state CSHA256 := hmac_init CSHA256 key.
Definition CHMAC_SHA256_Write := hmac_Write CSHA256.
Definition CHMAC_SHA256_Finalize (h : hmac_state CSHA256) : list Z := hmac_Finalize CSHA256 h.

Definition CHMAC_SHA512 (key : list Z) : hmac_state CSHA512 := hmac_init CSHA512 key.
Definition CHMAC_SHA512_Write := hmac_Write CSHA512.
Definition CHMAC_SHA512_Finalize (h : hmac_state CSHA512) : list Z := hmac_Finalize CSHA512 h.

(** ** The classes are hashers *)

Lemma stream_divides B : (0 < B)%nat -> 2 ^ 64 mod Z.of_nat B = 0 -> (Z.of_nat B | 2 ^ 64).
Proof. intros HB H. by apply Z.mod_divide; [lia|]. Qed.

#[export] Instance CSHA256_laws : StreamHashLaws CSHA256.
Proof.
  assert (Z.of_nat 64 | 2 ^ 64) as Hdiv by (by apply stream_divides; [lia|]).
  split; cbn [sh_state sh_block sh_out sh_init sh_write sh_final sh_hash sh_reads CSHA256].
  - apply init_represents; [lia|apply length_replicate].
  - intros s msg data Hr. apply Write_represents; [lia|done..].
  - intros s msg Hr Hlen. rewrite Sha256.sha256_Finalize_digest. unfold Sha256Spec.sha256. f_equal.
    rewrite (Finalize_spec 64 8 119 Sha256.sizedesc Sha256.Initialize Sha256.Transform) with (msg := msg)
      by (done || lia || (intros; apply Sha256.sha256_length_sizedesc)).
    apply md_hash_ext; [apply Sha256.sha256_Initialize_spec|apply Sha256.sha256_Transform_spec|].
    done.
  - intros msg. pose proof (proj2 (Sha256Spec.sha256_digest_ok (md_hash 64 8 (be_encode 8) (sha2_iv 32) Sha256Spec.compress msg))) as H.
    unfold zlen in H. unfold Sha256Spec.sha256. lia.
  - lia.
  - lia.
Qed.

#[export] Instance CSHA512_laws : StreamHashLaws CSHA512.
Proof.
  assert (Z.of_nat 128 | 2 ^ 64) as Hdiv by (by apply stream_divides; [lia|]).
  split; cbn [sh_state sh_block sh_out sh_init sh_write sh_final sh_hash sh_reads CSHA512].
  - apply init_represents; [lia|apply length_replicate].
  - intros s msg data Hr. apply Write_represents; [lia|done..].
  - intros s msg Hr Hlen. rewrite Sha512.sha512_Finalize_digest. unfold Sha512Spec.sha512. f_equal.
    rewrite (Finalize_spec 128 16 239 Sha512.sizedesc Sha512.Initialize Sha512.Transform) with (msg := msg)
      by (done || lia || (intros; apply Sha512.sha512_length_sizedesc)).
    apply md_hash_ext; [apply Sha512.sha512_Initialize_spec|apply Sha512.sha512_Transform_spec|].
    apply Sha512.sizedesc_spec; pose proof (zlen_nonneg msg); lia.
  - intros msg. pose proof (proj2 (Sha512Spec.sha512_digest_ok (md_hash 128 16 (be_encode 16) (sha2_iv 64) Sha512Spec.compress msg))) as H.
    unfold zlen in H. unfold Sha512Spec.sha512. lia.
  - lia.
  - lia.
Qed.
