(* ===== verification/Hash.v ===== *)
(** * Hashing of data

    [hash.h] and [hash.cpp]: the double hashers [CHash256] and [CHash160] over
    the classes of [crypto/], [CHashWriter] and [Hash] over OpenSSL's SHA-256,
    [BIP32Hash] over its SHA-512, and the two unrolled SipHash functions.
    OpenSSL's functions are instances of the interface of Hasher, a hypothesis
    of the sections that use them. *)

From S2P Require Import Prelude HashStream HashWords Sha256 Sha512 Sha1 Ripemd160 Hasher Interp.

Local Open Scope Z_scope.

(** ** [CHash256] and [CHash160] *)

Definition CHash256 : hasher octet := Sha256.init (uninitialised 64).
Definition CHash256_Write (sha : hasher octet) (data : list Z) : hasher octet := Sha256.Write sha data.

Definition CHash256_Finalize (sha : hasher octet) : list Z :=
  let buf := Sha256.Finalize sha in
  let sha := hasher_Finalize 64 119 Sha256.sizedesc Sha256.Transform sha in
  Sha256.Finalize (Sha256.Write (Sha256.Reset sha) buf).

Definition CHash256_Reset (sha : hasher octet) : hasher octet := Sha256.Reset sha.

Definition CHash160 : hasher octet := Sha256.init (uninitialised 64).
Definition CHash160_Write (sha : hasher octet) (data : list Z) : hasher octet := Sha256.Write sha data.

Definition CHash160_Finalize (sha : hasher octet) : list Z :=
  let buf := Sha256.Finalize sha in
  Ripemd160.Finalize (Ripemd160.Write (Ripemd160.init (uninitialised 64)) buf).

(** The hash functions of the script interpreter. *)
#[export] Instance crypto_hashes : ScriptHashes := {
  h_ripemd160 v := Ripemd160.Finalize (Ripemd160.Write (Ripemd160.init (uninitialised 64)) v);
  h_sha1 v := Sha1.Finalize (Sha1.Write (Sha1.init (uninitialised 64)) v);
  h_sha256 v := Sha256.Finalize (Sha256.Write (Sha256.init (uninitialised 64)) v);
  h_hash160 v := CHash160_Finalize (CHash160_Write CHash160 v);
  h_hash256 v := CHash256_Finalize (CHash256_Write CHash256 v);
}.

(** ** Over OpenSSL *)

Section openssl.
(** [SHA256_Init], [_Update], [_Final], and the same for SHA-512. *)
Context (SSL256 SSL512 : StreamHash).

(** [CHashWriter]: its stream is written to by the serializers. *)
Definition CHashWriter_write (ctx : sh_state (StreamHash := SSL256)) (pch : list Z) := sh_write ctx pch.

Definition CHashWriter_GetHash (ctx : sh_state (StreamHash := SSL256)) : list Z :=
  let hash1 := sh_final ctx in
  sh_final (sh_write (StreamHash := SSL256) sh_init hash1).

(** [Hash] of one range, of two and of three. *)
Definition Hash (ps : list (list Z)) : list Z :=
  let hash1 := sh_final (foldl sh_write (sh_init (StreamHash := SSL256)) ps) in
  sh_final (sh_write (StreamHash := SSL256) sh_init hash1).

(** [HMAC_SHA512_Init], [_Update] and [_Final]: the code of [CHMAC_SHA512]
    over OpenSSL's SHA-512. *)
Definition HMAC_SHA512_Init (pkey : list Z) : hmac_state SSL512 := hmac_init SSL512 pkey.
Definition HMAC_SHA512_Update (ctx : hmac_state SSL512) (pdata : list Z) := hmac_Write SSL512 ctx pdata.
Definition HMAC_SHA512_Final (ctx : hmac_state SSL512) : list Z := hmac_Finalize SSL512 ctx.

Definition BIP32Hash (chainCode : list Z) (nChild header : Z) (data : list Z) : list Z :=
  let num := [ (nChild >>: 24) &: 0xFF; (nChild >>: 16) &: 0xFF;
               (nChild >>: 8) &: 0xFF; (nChild >>: 0) &: 0xFF ] in
  let ctx := HMAC_SHA512_Init chainCode in
  let ctx := HMAC_SHA512_Update ctx [header] in
  let ctx := HMAC_SHA512_Update ctx data in
  let ctx := HMAC_SHA512_Update ctx num in
  HMAC_SHA512_Final ctx.
End openssl.

(** ** SipHash *)

Definition quad : Type := Z * Z * Z * Z.

Definition ROTL64 (x b : Z) : Z := (x <<64 b) |: (x >>: (64 - b)).

Definition SIPROUND (v : quad) : quad :=
  let '(v0, v1, v2, v3) := v in
  let v0 := v0 +64 v1 in let v1 := ROTL64 v1 13 in let v1 := v1 ^: v0 in
  let v0 := ROTL64 v0 32 in
  let v2 := v2 +64 v3 in let v3 := ROTL64 v3 16 in let v3 := v3 ^: v2 in
  let v0 := v0 +64 v3 in let v3 := ROTL64 v3 21 in let v3 := v3 ^: v0 in
  let v2 := v2 +64 v1 in let v1 := ROTL64 v1 17 in let v1 := v1 ^: v2 in
  let v2 := ROTL64 v2 32 in
  (v0, v1, v2, v3).

(** The [pos]-th 64-bit word of a [uint256], from its 32-bit words [pn]. *)
Definition GetUint64 (val : Z) (pos : Z) : Z :=
  let pn i := (val >>: (32 * i)) mod 2 ^ 32 in
  pn (pos * 2) |: (pn (pos * 2 + 1) <<64 32).

Definition SipHashUint256 (k0 k1 val : Z) : Z :=
  let d := GetUint64 val 0 in
  let v0 := 0x736f6d6570736575 ^: k0 in
  let v1 := 0x646f72616e646f6d ^: k1 in
  let v2 := 0x6c7967656e657261 ^: k0 in
  let v3 := 0x7465646279746573 ^: k1 ^: d in
  let '(v0, v1, v2, v3) := SIPROUND (v0, v1, v2, v3) in
  let '(v0, v1, v2, v3) := SIPROUND (v0, v1, v2, v3) in
  let v0 := v0 ^: d in
  let d := GetUint64 val 1 in
  let v3 := v3 ^: d in
  let '(v0, v1, v2, v3) := SIPROUND (v0, v1, v2, v3) in
  let '(v0, v1, v2, v3) := SIPROUND (v0, v1, v2, v3) in
  let v0 := v0 ^: d in
  let d := GetUint64 val 2 in
  let v3 := v3 ^: d in
  let '(v0, v1, v2, v3) := SIPROUND (v0, v1, v2, v3) in
  let '(v0, v1, v2, v3) := SIPROUND (v0, v1, v2, v3) in
  let v0 := v0 ^: d in
  let d := GetUint64 val 3 in
  let v3 := v3 ^: d in
  let '(v0, v1, v2, v3) := SIPROUND (v0, v1, v2, v3) in
  let '(v0, v1, v2, v3) := SIPROUND (v0, v1, v2, v3) in
  let v0 := v0 ^: d in
  let v3 := v3 ^: (4 <<64 59) in
  let '(v0, v1, v2, v3) := SIPROUND (v0, v1, v2, v3) in
  let '(v0, v1, v2, v3) := SIPROUND (v0, v1, v2, v3) in
  let v0 := v0 ^: (4 <<64 59) in
  let v2 := v2 ^: 0xFF in
  let '(v0, v1, v2, v3) := SIPROUND (v0, v1, v2, v3) in
  let '(v0, v1, v2, v3) := SIPROUND (v0, v1, v2, v3) in
  let '(v0, v1, v2, v3) := SIPROUND (v0, v1, v2, v3) in
  let '(v0, v1, v2, v3) := SIPROUND (v0, v1, v2, v3) in
  v0 ^: v1 ^: v2 ^: v3.

Definition SipHashUint256Extra (k0 k1 val extra : Z) : Z :=
  let d := GetUint64 val 0 in
  let v0 := 0x736f6d6570736575 ^: k0 in
  let v1 := 0x646f72616e646f6d ^: k1 in
  let v2 := 0x6c7967656e657261 ^: k0 in
  let v3 := 0x7465646279746573 ^: k1 ^: d in
  let '(v0, v1, v2, v3) := SIPROUND (v0, v1, v2, v3) in
  let '(v0, v1, v2, v3) := SIPROUND (v0, v1, v2, v3) in
  let v0 := v0 ^: d in
  let d := GetUint64 val 1 in
  let v3 := v3 ^: d in
  let '(v0, v1, v2, v3) := SIPROUND (v0, v1, v2, v3) in
  let '(v0, v1, v2, v3) := SIPROUND (v0, v1, v2, v3) in
  let v0 := v0 ^: d in
  let d := GetUint64 val 2 in
  let v3 := v3 ^: d in
  let '(v0, v1, v2, v3) := SIPROUND (v0, v1, v2, v3) in
  let '(v0, v1, v2, v3) := SIPROUND (v0, v1, v2, v3) in
  let v0 := v0 ^: d in
  let d := GetUint64 val 3 in
  let v3 := v3 ^: d in
  let '(v0, v1, v2, v3) := SIPROUND (v0, v1, v2, v3) in
  let '(v0, v1, v2, v3) := SIPROUND (v0, v1, v2, v3) in
  let v0 := v0 ^: d in
  let d := (36 <<64 56) |: extra in
  let v3 := v3 ^: d in
  let '(v0, v1, v2, v3) := SIPROUND (v0, v1, v2, v3) in
  let '(v0, v1, v2, v3) := SIPROUND (v0, v1, v2, v3) in
  let v0 := v0 ^: d in
  let v2 := v2 ^: 0xFF in
  let '(v0, v1, v2, v3) := SIPROUND (v0, v1, v2, v3) in
  let '(v0, v1, v2, v3) := SIPROUND (v0, v1, v2, v3) in
  let '(v0, v1, v2, v3) := SIPROUND (v0, v1, v2, v3) in
  let '(v0, v1, v2, v3) := SIPROUND (v0, v1, v2, v3) in
  v0 ^: v1 ^: v2 ^: v3.
