(* ===== verification/HashProps.v ===== *)
(** * The hash functions compute their standards

    [CSHA1], [CSHA256], [CSHA512] and [CRIPEMD160] compute the functions of
    their definitions however the message is cut into writes, the HMAC
    classes the HMAC of RFC 2104, the unrolled SipHash functions SipHash-2-4
    of the bytes. *)

From S2P Require Import Prelude HashStream HashWords Sha256 Sha512 Sha1 Ripemd160 Hasher Interp InterpFacts Hash.

Local Open Scope Z_scope.

(** ** Digests *)

#[export] Instance crypto_hashes_ok : ScriptHashesOk crypto_hashes.
Proof.
  split; intros v; cbn [h_ripemd160 h_sha1 h_sha256 h_hash160 h_hash256 crypto_hashes];
    unfold CHash160_Finalize, CHash256_Finalize;
    rewrite ?Ripemd160.rmd_Finalize_digest, ?Sha1.sha1_Finalize_digest;
    first [apply RmdSpec.rmd_digest_ok | apply Sha1Spec.sha1_digest_ok
          | rewrite Sha256.sha256_Finalize_digest; apply Sha256Spec.sha256_digest_ok].
Qed.

Lemma sha256_length msg : zlen (Sha256Spec.sha256 msg) = 32.
Proof. apply Sha256Spec.sha256_digest_ok. Qed.

(** [Sha256Spec.sha256] twice, and RIPEMD-160 of it. *)
Definition hash256_spec (msg : list Z) : list Z := Sha256Spec.sha256 (Sha256Spec.sha256 msg).
Definition hash160_spec (msg : list Z) : list Z := RmdSpec.ripemd160 (Sha256Spec.sha256 msg).

Lemma CHash160_spec sha msg :
  sh_reads (StreamHash := CSHA256) sha msg -> zlen msg < 2 ^ 61 ->
  CHash160_Finalize sha = hash160_spec msg.
Proof.
  intros Hr Hlen. unfold CHash160_Finalize.
  rewrite (sh_final_hash (SH := CSHA256) sha msg Hr Hlen : Sha256.Finalize sha = _).
  change (sh_hash msg) with (Sha256Spec.sha256 msg).
  pose proof (Ripemd160.CRIPEMD160_spec (uninitialised 64) [Sha256Spec.sha256 msg]) as E.
  cbn [foldl concat] in E. rewrite app_nil_r in E. apply E; [apply length_replicate|].
  rewrite sha256_length. lia.
Qed.

Lemma CHash256_spec sha msg :
  sh_reads (StreamHash := CSHA256) sha msg -> zlen msg < 2 ^ 61 ->
  CHash256_Finalize sha = hash256_spec msg.
Proof.
  intros Hr Hlen. unfold CHash256_Finalize, hash256_spec.
  rewrite (sh_final_hash (SH := CSHA256) sha msg Hr Hlen : Sha256.Finalize sha = _).
  change (sh_hash msg) with (Sha256Spec.sha256 msg).
  assert (Z.of_nat 64 | 2 ^ 64) as Hdiv by (by apply stream_divides; [lia|]).
  destruct (Finalize_represents 64 119 Sha256.sizedesc Sha256.Initialize Sha256.Transform
    ltac:(lia) Hdiv sha msg Hr) as [k Hk].
  apply (sh_final_hash (SH := CSHA256) _ (Sha256Spec.sha256 msg)); [|by rewrite sha256_length].
  apply (sh_write_reads (SH := CSHA256) _ []).
  eapply Reset_represents, Hk. lia.
Qed.

(** [Hash] over OpenSSL's SHA-256. *)
Lemma Hash_spec (SSL256 : StreamHash) {Laws : StreamHashLaws SSL256} datas :
  sh_hash (StreamHash := SSL256) = Sha256Spec.sha256 -> zlen (concat datas) < 2 ^ 61 ->
  Hash SSL256 datas = hash256_spec (concat datas).
Proof.
  intros Hh Hlen. unfold Hash, hash256_spec.
  rewrite (sh_final_hash (foldl sh_write sh_init datas) (concat datas))
    by (done || apply (writes_reads SSL256 _ []), sh_init_reads).
  rewrite Hh. rewrite (sh_final_hash _ (Sha256Spec.sha256 (concat datas))), Hh; [done| |by rewrite sha256_length].
  apply (sh_write_reads _ []), sh_init_reads.
Qed.

(** [BIP32Hash] over a hasher of OpenSSL. *)
Lemma BIP32Hash_spec (SSL512 : StreamHash) {Laws : StreamHashLaws SSL512} chainCode nChild header data :
  zlen chainCode < 2 ^ 60 -> zlen data < 2 ^ 59 -> 0 <= nChild < 2 ^ 32 ->
  BIP32Hash SSL512 chainCode nChild header data =
    hmac sh_hash sh_block chainCode (header :: data ++ be_encode 4 nChild).
Proof.
  intros Hchain Hdata Hchild.
  unfold BIP32Hash.
  assert ([(nChild >>: 24) &: 0xFF; (nChild >>: 16) &: 0xFF; (nChild >>: 8) &: 0xFF; (nChild >>: 0) &: 0xFF] =
          be_encode 4 nChild) as ->.
  { rewrite !land_ff, !Z.shiftr_div_pow2 by lia. unfold be_encode. cbn [le_encode rev app].
    change (2 ^ 0) with 1. rewrite Z.div_1_r, !Z.div_div by lia. done. }
  pose proof (hmac_spec SSL512 chainCode [[header]; data; be_encode 4 nChild]) as E.
  cbn [foldl concat app] in E. rewrite app_nil_r in E.
  apply E; [lia|]. rewrite zlen_cons, zlen_app. unfold zlen at 2. rewrite length_be_encode. lia.
Qed.

(** ** SipHash-2-4 *)

Definition sip_round (v : quad) : quad :=
  let '(v0, v1, v2, v3) := v in
  let v0 := (v0 + v1) mod 2 ^ 64 in let v2 := (v2 + v3) mod 2 ^ 64 in
  let v1 := ROTL 64 13 v1 in let v3 := ROTL 64 16 v3 in
  let v1 := v1 ^: v0 in let v3 := v3 ^: v2 in
  let v0 := ROTL 64 32 v0 in
  let v2 := (v2 + v1) mod 2 ^ 64 in let v0 := (v0 + v3) mod 2 ^ 64 in
  let v1 := ROTL 64 17 v1 in let v3 := ROTL 64 21 v3 in
  let v1 := v1 ^: v2 in let v3 := v3 ^: v0 in
  let v2 := ROTL 64 32 v2 in
  (v0, v1, v2, v3).

(** "somepseudorandomlygeneratedbytes" *)
Definition sip_iv (k0 k1 : Z) : quad :=
  (le_decode (rev [115; 111; 109; 101; 112; 115; 101; 117]) ^: k0,
   le_decode (rev [100; 111; 114; 97; 110; 100; 111; 109]) ^: k1,
   le_decode (rev [108; 121; 103; 101; 110; 101; 114; 97]) ^: k0,
   le_decode (rev [116; 101; 100; 98; 121; 116; 101; 115]) ^: k1).

Definition sip_block (v : quad) (m : Z) : quad :=
  let '(v0, v1, v2, v3) := v in
  let '(v0, v1, v2, v3) := sip_round (sip_round (v0, v1, v2, v3 ^: m)) in
  (v0 ^: m, v1, v2, v3).

(** The message as 64-bit words, the last with the length in its top byte. *)
Definition sip_words (msg : list Z) : list Z :=
  map le_decode (chunks 8 (length msg) msg) ++
  [le_decode (drop (8 * (length msg / 8)) msg) + 2 ^ 56 * (zlen msg mod 256)].

Definition siphash24 (k0 k1 : Z) (msg : list Z) : Z :=
  let '(v0, v1, v2, v3) := foldl sip_block (sip_iv k0 k1) (sip_words msg) in
  let '(v0, v1, v2, v3) :=
    sip_round (sip_round (sip_round (sip_round (v0, v1, v2 ^: 0xff, v3)))) in
  v0 ^: v1 ^: v2 ^: v3.

Lemma SIPROUND_spec v : SIPROUND v = sip_round v.
Proof. by destruct v as [[[v0 v1] v2] v3]. Qed.

Lemma GetUint64_spec val i : 0 <= val -> 0 <= i -> GetUint64 val i = (val / 2 ^ (64 * i)) mod 2 ^ 64.
Proof.
  intros Hv Hi. unfold GetUint64, shl64, to_u64.
  rewrite !Z.shiftr_div_pow2 by lia.
  set (x := val / 2 ^ (64 * i)).
  replace (32 * (i * 2)) with (64 * i) by lia.
  replace (val / 2 ^ (32 * (i * 2 + 1))) with (x / 2 ^ 32).
  2: { unfold x. rewrite Z.div_div, <-Z.pow_add_r by lia. do 2 f_equal. lia. }
  fold x. rewrite Z.shiftl_mul_pow2 by lia.
  pose proof (Z.mod_pos_bound (x / 2 ^ 32) (2 ^ 32) ltac:(lia)).
  pose proof (Z.mod_pos_bound x (2 ^ 32) ltac:(lia)).
  rewrite (Z.mod_small (_ * _)) by lia. rewrite <-Z.shiftl_mul_pow2 by lia.
  rewrite lor_shiftl_add by lia.
  change (2 ^ 64) with (2 ^ 32 * 2 ^ 32). by rewrite Z.rem_mul_r by lia.
Qed.

Lemma le_encode_app n m z :
  0 <= z -> le_encode (n + m) z = le_encode n z ++ le_encode m (z / 2 ^ (8 * Z.of_nat n)).
Proof.
  revert z. induction n as [|n IH]; intros z Hz.
  - cbn [Nat.add le_encode app]. change (2 ^ (8 * Z.of_nat 0)) with 1. by rewrite Z.div_1_r.
  - cbn [Nat.add le_encode app]. f_equal. rewrite IH by (apply Z.div_pos; lia). f_equal. f_equal.
    change 256 with (2 ^ 8). rewrite Z.div_div, <-Z.pow_add_r by lia. do 2 f_equal. lia.
Qed.

(** The words of a 256-bit number followed by fewer than eight bytes. *)
Lemma sip_words_uint256 val tail :
  0 <= val -> (length tail < 8)%nat ->
  sip_words (le_encode 32 val ++ tail) =
  [GetUint64 val 0; GetUint64 val 1; GetUint64 val 2; GetUint64 val 3;
   le_decode tail + 2 ^ 56 * ((32 + zlen tail) mod 256)].
Proof.
  intros Hv Ht.
  assert (le_encode 32 val = concat (map (fun i => le_encode 8 (val / 2 ^ (64 * i))) [0; 1; 2; 3])) as Ev.
  { cbn [map concat]. rewrite app_nil_r.
    change 32%nat with (8 + (8 + (8 + 8)))%nat. rewrite le_encode_app by done.
    change (2 ^ (64 * 0)) with 1. rewrite Z.div_1_r. f_equal.
    rewrite le_encode_app by (by apply Z.div_pos). f_equal.
    rewrite le_encode_app by (apply Z.div_pos; [by apply Z.div_pos|lia]).
    rewrite !Z.div_div by lia. done. }
  unfold sip_words. rewrite zlen_app, zlen_le_encode, length_app, length_le_encode.
  rewrite Ev at 1.
  replace ((32 + length tail) / 8)%nat with 4%nat
    by (apply (Nat.div_unique _ 8 4 (length tail)); lia).
  rewrite (drop_app_length' _ _ 32) by by rewrite length_le_encode.
  cbn [map concat]. rewrite <-!app_assoc.
  assert (forall f w r, (8 <= 8 + f)%nat ->
    chunks 8 (S f) (le_encode 8 w ++ r) = le_encode 8 w :: chunks 8 f r) as Hstep.
  { intros f w r _. cbn [chunks]. rewrite length_app, length_le_encode.
    destruct (Nat.leb_spec 8 (8 + length r)); [|lia].
    by rewrite take_app_length', drop_app_length' by by rewrite length_le_encode. }
  change (32 + length tail)%nat with (S (S (S (S (28 + length tail))))).
  rewrite !Hstep by lia. cbn [map app].
  assert (chunks 8 (28 + length tail) tail = []) as ->.
  { cbn [Nat.add chunks]. destruct (Nat.leb_spec 8 (length tail)); [lia|done]. }
  rewrite !le_decode_encode, !GetUint64_spec by lia. done.
Qed.

Opaque sip_round.

(** Both sides run their next round. *)
Ltac sip_step :=
  cbv beta iota; rewrite ?SIPROUND_spec;
  match goal with |- context [sip_round (?a, ?b, ?c, ?d)] =>
    destruct (sip_round (a, b, c, d)) as [[[? ?] ?] ?] end.

Lemma SipHashUint256_spec k0 k1 val :
  0 <= val < 2 ^ 256 -> SipHashUint256 k0 k1 val = siphash24 k0 k1 (le_encode 32 val).
Proof.
  intros Hv. unfold siphash24.
  rewrite <-(app_nil_r (le_encode 32 val)), sip_words_uint256 by (cbn; lia).
  change (le_decode [] + 2 ^ 56 * ((32 + zlen (@nil Z)) mod 256)) with (4 <<64 59).
  unfold SipHashUint256, sip_block. cbn [foldl]. change (sip_iv k0 k1) with
    (0x736f6d6570736575 ^: k0, 0x646f72616e646f6d ^: k1, 0x6c7967656e657261 ^: k0, 0x7465646279746573 ^: k1).
  do 14 sip_step. done.
Qed.

Lemma SipHashUint256Extra_spec k0 k1 val extra :
  0 <= val < 2 ^ 256 -> 0 <= extra < 2 ^ 32 ->
  SipHashUint256Extra k0 k1 val extra = siphash24 k0 k1 (le_encode 32 val ++ le_encode 4 extra).
Proof.
  intros Hv He. unfold siphash24.
  rewrite sip_words_uint256 by (rewrite ?length_le_encode; lia).
  assert (le_decode (le_encode 4 extra) + 2 ^ 56 * ((32 + zlen (le_encode 4 extra)) mod 256) =
          (36 <<64 56) |: extra) as ->.
  { rewrite le_decode_encode_small, zlen_le_encode by done.
    change (36 <<64 56) with (Z.shiftl 36 56). rewrite Z.lor_comm, lor_shiftl_add by lia. done. }
  unfold SipHashUint256Extra, sip_block. cbn [foldl]. change (sip_iv k0 k1) with
    (0x736f6d6570736575 ^: k0, 0x646f72616e646f6d ^: k1, 0x6c7967656e657261 ^: k0, 0x7465646279746573 ^: k1).
  do 14 sip_step. done.
Qed.

Transparent sip_round.

(** ** The properties *)

(** C7: [CSHA256], [CSHA512], [CSHA1] and [CRIPEMD160] compute SHA-256,
    SHA-512, SHA-1 (FIPS 180-4) and RIPEMD-160 of everything written, however
    it was cut into writes and whatever the buffer held at first, for messages
    of fewer than 2^61 bytes; [CHash256] and [CHash160] their compositions.  The
    functions are those of the standards: rotations by their amounts, constants
    from the roots of the first primes, padding and byte order of their own. *)
Theorem crypto_hashes_correct buf buf' datas (msg := concat datas)
    (Hbuf : length buf = 64%nat) (Hbuf' : length buf' = 128%nat) (Hlen : zlen msg < 2 ^ 61) :
  Sha256.Finalize (foldl Sha256.Write (Sha256.init buf) datas) = Sha256Spec.sha256 msg /\
  Sha512.Finalize (foldl Sha512.Write (Sha512.init buf') datas) = Sha512Spec.sha512 msg /\
  Sha1.Finalize (foldl Sha1.Write (Sha1.init buf) datas) = Sha1Spec.sha1 msg /\
  Ripemd160.Finalize (foldl Ripemd160.Write (Ripemd160.init buf) datas) = RmdSpec.ripemd160 msg /\
  CHash256_Finalize (foldl CHash256_Write CHash256 datas) = hash256_spec msg /\
  CHash160_Finalize (foldl CHash160_Write CHash160 datas) = hash160_spec msg.
Proof.
  assert (sh_reads (StreamHash := CSHA256) (foldl sh_write (sh_init (StreamHash := CSHA256)) datas) msg)
    as Hr by (apply (writes_reads CSHA256 _ []), sh_init_reads).
  split_and!; [by apply Sha256.CSHA256_spec|by apply Sha512.CSHA512_spec|by apply Sha1.CSHA1_spec
              |by apply Ripemd160.CRIPEMD160_spec|by apply CHash256_spec|by apply CHash160_spec].
Qed.

(** The test vectors of the standards for "abc". *)
Definition abc : list Z := [97; 98; 99].
Definition abc_sha256 : list Z := [186; 120; 22; 191; 143; 1; 207; 234; 65; 65; 64; 222; 93; 174; 34; 35; 176; 3; 97; 163; 150; 23; 122; 156; 180; 16; 255; 97; 242; 0; 21; 173].
Definition abc_sha512 : list Z := [221; 175; 53; 161; 147; 97; 122; 186; 204; 65; 115; 73; 174; 32; 65; 49; 18; 230; 250; 78; 137; 169; 126; 162; 10; 158; 238; 230; 75; 85; 211; 154; 33; 146; 153; 42; 39; 79; 193; 168; 54; 186; 60; 35; 163; 254; 235; 189; 69; 77; 68; 35; 100; 60; 232; 14; 42; 154; 201; 79; 165; 76; 164; 159].
Definition abc_sha1 : list Z := [169; 153; 62; 54; 71; 6; 129; 106; 186; 62; 37; 113; 120; 80; 194; 108; 156; 208; 216; 157].
Definition abc_ripemd160 : list Z := [142; 178; 8; 247; 224; 93; 152; 122; 155; 4; 74; 142; 152; 198; 176; 135; 241; 90; 11; 252].

Lemma crypto_hashes_correct_witness :
  Sha256.Finalize (foldl Sha256.Write (Sha256.init (replicate 64 7)) [[97]; [98; 99]]) = abc_sha256 /\
  Sha512.Finalize (foldl Sha512.Write (Sha512.init (replicate 128 7)) [[97]; [98; 99]]) = abc_sha512 /\
  Sha1.Finalize (foldl Sha1.Write (Sha1.init (replicate 64 7)) [[97]; [98; 99]]) = abc_sha1 /\
  Ripemd160.Finalize (foldl Ripemd160.Write (Ripemd160.init (replicate 64 7)) [[97]; [98; 99]]) = abc_ripemd160.
Proof.
  destruct (crypto_hashes_correct (replicate 64 7) (replicate 128 7) [[97]; [98; 99]] eq_refl eq_refl eq_refl)
    as (H1 & H2 & H3 & H4 & _).
  rewrite H1, H2, H3, H4. split_and!; vm_compute; reflexivity.
Defined.

(** [CHMAC_SHA256] and [CHMAC_SHA512] compute the HMAC of RFC 2104 of what
    is written for every key, shorter or longer than a block; with a SHA-512
    of OpenSSL that computes SHA-512, [BIP32Hash] is the HMAC-SHA512, under
    the chain code, of the header, the data and the big-endian child number;
    with its SHA-256, [Hash] of ranges and a [CHashWriter] give the double
    SHA-256 of their concatenation. *)
Theorem HMAC_correct (SSL256 SSL512 : StreamHash)
    (Laws256 : StreamHashLaws SSL256) (Laws : StreamHashLaws SSL512)
    (Hhash256 : sh_hash (StreamHash := SSL256) = Sha256Spec.sha256)
    (Hblock : sh_block (StreamHash := SSL512) = 128%nat)
    (Hhash : sh_hash (StreamHash := SSL512) = Sha512Spec.sha512)
    key datas chainCode nChild header data
    (Hkey : zlen key < 2 ^ 61) (Hlen : zlen (concat datas) < 2 ^ 60)
    (Hchain : zlen chainCode = 32) (Hdata : zlen data = 32) (Hchild : 0 <= nChild < 2 ^ 32) :
  CHMAC_SHA256_Finalize (foldl CHMAC_SHA256_Write (CHMAC_SHA256 key) datas) =
    hmac Sha256Spec.sha256 64 key (concat datas) /\
  CHMAC_SHA512_Finalize (foldl CHMAC_SHA512_Write (CHMAC_SHA512 key) datas) =
    hmac Sha512Spec.sha512 128 key (concat datas) /\
  BIP32Hash SSL512 chainCode nChild header data =
    hmac Sha512Spec.sha512 128 chainCode (header :: data ++ be_encode 4 nChild) /\
  Hash SSL256 datas = hash256_spec (concat datas) /\
  CHashWriter_GetHash SSL256 (foldl (CHashWriter_write SSL256) sh_init datas) = hash256_spec (concat datas).
Proof.
  assert (Hash SSL256 datas = hash256_spec (concat datas)) as HH by (apply Hash_spec; [done..|lia]).
  split_and!; [by apply (hmac_spec CSHA256)|by apply (hmac_spec CSHA512)| |done|done].
  rewrite (BIP32Hash_spec SSL512) by lia. by rewrite Hblock, Hhash.
Qed.

Lemma HMAC_correct_witness :
  BIP32Hash CSHA512 (replicate 32 1) 5 0 (replicate 32 2) =
  hmac Sha512Spec.sha512 128 (replicate 32 1) (0 :: replicate 32 2 ++ be_encode 4 5).
Proof.
  refine (proj1 (proj2 (proj2 (HMAC_correct CSHA256 CSHA512 CSHA256_laws CSHA512_laws eq_refl eq_refl eq_refl
    [1] [[2]] (replicate 32 1) 5 0 (replicate 32 2) _ _ _ _ _)))); (reflexivity || lia).
Defined.

(** [SipHashUint256] and [SipHashUint256Extra] are SipHash-2-4, under the
    128-bit key, of the 32 bytes of the hash, and of these followed by the
    four bytes of the extra number. *)
Theorem SipHash_correct k0 k1 val extra
    (Hval : 0 <= val < 2 ^ 256) (Hextra : 0 <= extra < 2 ^ 32) :
  SipHashUint256 k0 k1 val = siphash24 k0 k1 (le_encode 32 val) /\
  SipHashUint256Extra k0 k1 val extra = siphash24 k0 k1 (le_encode 32 val ++ le_encode 4 extra).
Proof. split; [by apply SipHashUint256_spec|by apply SipHashUint256Extra_spec]. Qed.

Lemma SipHash_correct_witness :
  SipHashUint256 1 2 3 = siphash24 1 2 (le_encode 32 3).
Proof. refine (proj1 (SipHash_correct 1 2 3 4 _ _)); lia. Defined.
