(* ===== verification/Genesis.v ===== *)
(** * Chain parameters and the genesis blocks

    [chainparams.cpp] with the constants of [globals.h]: the parameters of the
    main and the test network and their genesis blocks.  With the hash
    functions of Hash the assertions of the constructor are evaluated, and
    [LoadBlockIndex] is run on the genesis block of each network. *)

From S2P Require Import Prelude ScriptNum Script Interp Transaction SigHash Bignum Chain TxConnect Proofs Block Merkle Mempool ChainState ChainLoad ChainLoadProps HashStream Hasher Hash HashProps.

Local Open Scope Z_scope.

(** ** [globals.h] *)

Definition GENESIS_nTIME : Z := 1534163480.
Definition GENESIS_nNONCE : Z := 668663.
(** "On 2018/8/13 We make the world better by SPHINX." *)
Definition PSZ_TIMESTAMP : list Z := [79; 110; 32; 50; 48; 49; 56; 47; 56; 47; 49; 51; 32; 87; 101; 32; 109; 97; 107; 101; 32; 116; 104; 101; 32; 119; 111; 114; 108; 100; 32; 98; 101; 116; 116; 101; 114; 32; 98; 121; 32; 83; 80; 72; 73; 78; 88; 46].
Definition GENESIS_HASH : Z := 0x0000031c79da6e1f6696f8cace965a197cb066da695081cae656ee90d7c44835.
Definition GENESIS_MERKLE : Z := 0x39dcb47ad0e3112e85eb60dd69cbdf6a5b3bbf3b63330c258858707ecf216c73.

(** ** [CMainParams] *)

(** [txNew]; the parameters are [MainParams] of Proofs. *)
Definition genesis_tx : CTransaction := {|
  nVersion := 1;
  nTime := GENESIS_nTIME;
  vin := [{| prevout := null_outpoint;
             scriptSig := push_int64 0 ++ push_data (serialize 42) ++ push_data PSZ_TIMESTAMP;
             nSequence := UINT_MAX |}];
  vout := [{| nValue := 0; scriptPubKey := [] |}];
  nLockTime := 0
|}.

Definition main_genesis : CBlock := {|
  blk_nVersion := 1;
  blk_hashPrevBlock := 0;
  blk_hashMerkleRoot := BuildMerkleTree [tx_GetHash genesis_tx];
  blk_nTime := 1534163480;
  blk_nBits := GetCompact (ProofOfWorkLimit MainParams);
  blk_nNonce := GENESIS_nNONCE;
  vtx := [genesis_tx];
  vchBlockSig := []
|}.

Definition main_hashGenesisBlock : Z := block_GetHash main_genesis.

(** ** [CTestNetParams] *)

(** Built on [CMainParams]; [hashGenesisBlock] is inherited. *)
Definition test_params : CChainParams := {|
  ProofOfWorkLimit := Z.shiftr (2 ^ 256 - 1) 16;
  ProofOfStakeLimit := ProofOfStakeLimit MainParams;
  TargetSpacing := TargetSpacing MainParams;
  TargetTimespan := TargetTimespan MainParams;
  LastPOWBlock := 0x7fffffff
|}.

Definition test_hashGenesisBlock : Z := main_hashGenesisBlock.

(** The member [genesis] of [CTestNetParams] hides that of [CMainParams] and
    is a new [CBlock]; only these two fields are set. *)
Definition test_genesis : CBlock := {|
  blk_nVersion := blk_nVersion null_block;
  blk_hashPrevBlock := blk_hashPrevBlock null_block;
  blk_hashMerkleRoot := blk_hashMerkleRoot null_block;
  blk_nTime := blk_nTime null_block;
  blk_nBits := 520159231;
  blk_nNonce := 80086;
  vtx := vtx null_block;
  vchBlockSig := vchBlockSig null_block
|}.

(** ** Starting a node *)

Definition fresh_node : node := {|
  mapBlockIndex := ∅; setStakeSeen := ∅; pindexGenesisBlock := None; g_pindexBest := None; hashBestChain := 0;
  nBestHeight := -1; nBestChainTrust := 0; nBestInvalidTrust := 0;
  database := {| db_tx := ∅; db_hashBestChain := 0; db_blockindex := ∅ |};
  block_files := ∅; g_mempool := empty_pool 0
|}.

(** What one sees of a node after a start. *)
Definition started (r : node * outcome Z unit) : outcome Z unit * (Z * Z * option Z * option Z) :=
  (snd r, (hashBestChain (fst r), nBestHeight (fst r), g_pindexBest (fst r), pindexGenesisBlock (fst r))).

Section start.
Context {EC : ECDSA}.
Variable ext : check_env.
Variable ReadTxFromDisk : CDiskTxPos -> option CTransaction.
Variables (nCoinbaseMaturity nTotalBlocksEstimate : Z).
Variables (rate_limited fStashed : CTransaction -> bool).

(** [LoadBlockIndex(true)] on an empty data directory. *)
Definition start (TestNet : bool) : node * outcome Z unit :=
  LoadBlockIndex ext ReadTxFromDisk nCoinbaseMaturity nTotalBlocksEstimate
    (if TestNet then test_hashGenesisBlock else main_hashGenesisBlock) TestNet rate_limited fStashed
    true 1 2500 [] None None (if TestNet then test_genesis else main_genesis) (Some (1, 8)) fresh_node.
End start.

(** ** What the constructors assert, and the first start *)

(** The assertions on the main network's genesis block hold: with the
    SHA-256 of [crypto/] the Merkle root and the block hash are the constants
    of [globals.h], and the hash meets the target.  On an empty data directory
    [LoadBlockIndex] makes it the best block at height 0.  On the test network
    it fails: [CTestNetParams] declares a [genesis] of its own, an empty block
    whose hash is not the inherited [hashGenesisBlock], and handling its
    rejection dereferences the null [pprev]. *)
Example genesis_starts {EC : ECDSA} ext ReadTxFromDisk nCoinbaseMaturity nTotalBlocksEstimate rate_limited fStashed :
  let start := start ext ReadTxFromDisk nCoinbaseMaturity nTotalBlocksEstimate rate_limited fStashed in
  blk_hashMerkleRoot main_genesis = GENESIS_MERKLE /\ main_hashGenesisBlock = GENESIS_HASH /\
  CheckProofOfWork MainParams main_hashGenesisBlock (blk_nBits main_genesis) = true /\
  started (start false) = (Ok tt, (GENESIS_HASH, 0, Some GENESIS_HASH, Some GENESIS_HASH)) /\
  block_GetHash test_genesis <> test_hashGenesisBlock /\
  started (start true) = (Crash, (0, -1, None, None)).
Proof. split_and!; [vm_compute; (reflexivity || discriminate)..]. Qed.
