(* ===== verification/Base58.v ===== *)
(** * Base58 and addresses

    [base58.cpp]: the conversion between byte vectors and base-58 strings,
    the checksummed form, and the address and secret classes over it.  A C
    string is the list of its characters, without the terminating zero; the
    digit vectors, which the code walks with reverse iterators, are kept with
    the least significant digit first. *)

From S2P Require Import Prelude Interp Transaction.

Local Open Scope Z_scope.

(** [isspace] in the C locale *)
Definition isspace (c : Z) : bool := (c =? 32) || ((9 <=? c) && (c <=? 13)).

(** [str.c_str()] as a C string *)
Definition c_str (str : list Z) : list Z := take_while (fun c => negb (c =? 0)) str.

(** "123456789ABCDEFGHJKLMNPQRSTUVWXYZabcdefghijkmnopqrstuvwxyz" *)
Definition pszBase58 : list Z :=
  seqZ 49 9 ++ seqZ 65 8 ++ seqZ 74 5 ++ seqZ 80 11 ++ seqZ 97 11 ++ seqZ 109 14.

(** [strchr(pszBase58, c) - pszBase58] *)
Definition strchr (psz : list Z) (c : Z) : option Z :=
  Z.of_nat <$> (fst <$> list_find (fun x => x = c) psz).

(** ** Decoding *)

(** "b256 = b256 * 58 + ch": the loop from the least significant digit, which
    stops when the carry is used up and [length] digits are done. *)
Fixpoint decode_digits (length i : nat) (carry : Z) (b256 : list Z) : list Z * Z * nat :=
  match b256 with
  | [] => ([], carry, i)
  | d :: b256' =>
    if negb (carry =? 0) || (i <? length)%nat then
      let carry := carry + 58 * d in
      let '(ds, c, i) := decode_digits length (S i) (carry / 256) b256' in
      (carry mod 256 :: ds, c, i)
    else (b256, carry, i)
  end.

(** [while ( *psz && !isspace( *psz))]: the digits, their number and the rest
    of the string. *)
Fixpoint decode_chars (length : nat) (b256 psz : list Z) : outcome unit (list Z * nat * list Z) :=
  match psz with
  | [] => mret (b256, length, psz)
  | c :: psz' =>
    if isspace c then mret (b256, length, psz)
    else match strchr pszBase58 c with
         | None => Err tt
         | Some ch =>
           let '(b256, carry, i) := decode_digits length 0 ch b256 in
           _ ← assert_that (carry =? 0);
           decode_chars i b256 psz'
         end
  end.

Definition DecodeBase58 (psz : list Z) : outcome unit (list Z) :=
  let psz := drop_while isspace psz in
  let zeroes := length (take_while (fun c => c =? 49) psz) in
  let psz := drop_while (fun c => c =? 49) psz in
  let size := (length psz * 733 / 1000 + 1)%nat in
  '(b256, len, psz) ← decode_chars 0 (replicate size 0) psz;
  match drop_while isspace psz with
  | _ :: _ => Err tt
  | [] =>
    let it := drop_while (fun d => d =? 0) (rev (take len b256)) in
    mret (replicate zeroes 0 ++ it)
  end.

(** ** Encoding *)

(** "b58 = b58 * 256 + ch" *)
Fixpoint encode_digits (carry : Z) (b58 : list Z) : list Z * Z :=
  match b58 with
  | [] => ([], carry)
  | d :: b58 =>
    let carry := carry + 256 * d in
    let '(ds, c) := encode_digits (carry / 58) b58 in
    (carry mod 58 :: ds, c)
  end.

Fixpoint encode_bytes (b58 bytes : list Z) : outcome unit (list Z) :=
  match bytes with
  | [] => mret b58
  | b :: bytes =>
    let '(b58, carry) := encode_digits b b58 in
    _ ← assert_that (carry =? 0);
    encode_bytes b58 bytes
  end.

Definition EncodeBase58 (vch : list Z) : outcome unit (list Z) :=
  let zeroes := length (take_while (fun b => b =? 0) vch) in
  let rest := drop_while (fun b => b =? 0) vch in
  b58 ← encode_bytes (replicate (length rest * 138 / 100 + 1) 0) rest;
  let it := drop_while (fun d => d =? 0) (rev b58) in
  mret (replicate zeroes 49 ++ map (fun d => nth (Z.to_nat d) pszBase58 0) it).

(** ** The checksummed form *)

Section check.
Context {SH : ScriptHashes}.

(** [Hash]: the double SHA-256; its first four bytes are the check. *)
Definition EncodeBase58Check (vchIn : list Z) : outcome unit (list Z) :=
  EncodeBase58 (vchIn ++ take 4 (h_hash256 vchIn)).

Definition DecodeBase58Check (psz : list Z) : outcome unit (list Z) :=
  vchRet ← DecodeBase58 psz;
  if (length vchRet <? 4)%nat then Err tt
  else
    let body := take (length vchRet - 4) vchRet in
    if bool_decide (take 4 (h_hash256 body) = drop (length vchRet - 4) vchRet) then mret body else Err tt.
End check.
