(* ===== verification/Base58Props.v ===== *)
(** * Base 58 is a codec

    The digit loops never overflow the vectors the code allocates, and a
    string decodes exactly when it is the encoding of the bytes it decodes
    to, up to white space around it. *)

From S2P Require Import Prelude Interp InterpFacts Base58.

Local Open Scope Z_scope.

(** ** Digit lists, least significant first *)

Fixpoint val (b : Z) (ds : list Z) : Z :=
  match ds with [] => 0 | d :: ds => d + b * val b ds end.

Abbreviation digits b := (Forall (fun d => 0 <= d < b)).

Fixpoint trim (ds : list Z) : list Z :=
  match ds with
  | [] => []
  | d :: ds => match trim ds with [] => if d =? 0 then [] else [d] | t => d :: t end
  end.

Section val.
Context (b : Z) (Hb : 1 < b).

Lemma val_nonneg ds : digits b ds -> 0 <= val b ds.
Proof. induction 1; cbn; [lia|nia]. Qed.

Lemma val_bound ds : digits b ds -> val b ds < b ^ zlen ds.
Proof.
  induction 1 as [|d ds Hd _ IH]; [unfold zlen; cbn; lia|].
  rewrite zlen_cons, Z.pow_add_r, Z.pow_1_r by (lia || auto). cbn [val]. nia.
Qed.

Lemma val_app ds es : val b (ds ++ es) = val b ds + b ^ zlen ds * val b es.
Proof.
  induction ds as [|d ds IH]; [unfold zlen; cbn [val app length]; change (b ^ Z.of_nat 0) with 1; lia|].
  rewrite zlen_cons, Z.pow_add_r, Z.pow_1_r by (lia || auto). cbn [val app]. rewrite IH. lia.
Qed.

Lemma val_zeros n : val b (replicate n 0) = 0.
Proof. induction n as [|n IH]; cbn; [done|]. rewrite IH. lia. Qed.

Lemma digits_zeros n : digits b (replicate n 0).
Proof. apply Forall_replicate. lia. Qed.

Lemma val_0_trim ds : digits b ds -> (val b ds = 0 <-> trim ds = []).
Proof.
  induction 1 as [|d ds Hd Hds IH]; [done|]. cbn [val trim].
  pose proof (val_nonneg ds Hds). destruct (trim ds) as [|t ts].
  - rewrite (proj2 IH eq_refl). destruct (Z.eqb_spec d 0); split; (done || nia).
  - split; [|done]. intros. assert (val b ds = 0) as E by nia. by apply IH in E.
Qed.

(** The digits up to high zeros are determined by the value. *)
Lemma trim_unique ds es : digits b ds -> digits b es -> val b ds = val b es -> trim ds = trim es.
Proof.
  intros Hds. revert es. induction Hds as [|d ds Hd Hds IH]; intros es Hes E.
  - symmetry. by apply val_0_trim.
  - destruct Hes as [|e es He Hes].
    + apply (proj1 (val_0_trim (d :: ds) ltac:(by constructor))). done.
    + cbn [val] in E. assert (d = e) as <-.
      { apply (f_equal (fun x => x mod b)) in E. 
        rewrite !(Z.mul_comm b), !Z.mod_add, !Z.mod_small in E by lia. done. }
      cbn [trim]. rewrite (IH es Hes); [done|]. nia.
Qed.

Lemma trim_last ds : trim ds = [] \/ exists k d, trim ds = k ++ [d] /\ d <> 0.
Proof.
  induction ds as [|d ds IH]; [by left|]. cbn [trim]. destruct (trim ds) as [|t ts] eqn:Et.
  - destruct (Z.eqb_spec d 0); [by left|]. right. by exists [], d.
  - right. destruct IH as [|(k&e&->&He)]; [done|]. by exists (d :: k), e.
Qed.

Lemma trim_snoc ds d : d <> 0 -> trim (ds ++ [d]) = ds ++ [d].
Proof.
  intros Hd. induction ds as [|e ds IH]; cbn [app trim].
  - by destruct (Z.eqb_spec d 0).
  - rewrite IH. by destruct (ds ++ [d]) eqn:E; [destruct ds|].
Qed.

Lemma trim_snoc_0 ds : trim (ds ++ [0]) = trim ds.
Proof. induction ds as [|e ds IH]; cbn [app trim]; [done|]. by rewrite IH. Qed.

Lemma digits_trim ds : digits b ds -> digits b (trim ds).
Proof.
  induction 1 as [|d ds Hd Hds IH]; cbn; [done|]. destruct (trim ds); [|by constructor].
  destruct (d =? 0); [done|by apply Forall_singleton].
Qed.

Lemma val_trim ds : val b (trim ds) = val b ds.
Proof.
  induction ds as [|d ds IH]; [done|]. cbn [trim val]. rewrite <-IH.
  destruct (trim ds) as [|t ts]; [|done]. destruct (Z.eqb_spec d 0) as [->|]; cbn; lia.
Qed.
End val.

(** Skipping leading zeros of the big-endian digits. *)
Lemma drop_zeros ds : drop_while (fun d => d =? 0) (rev ds) = rev (trim ds).
Proof.
  induction ds as [|d ds IH] using rev_ind; [done|].
  rewrite rev_app_distr. cbn [rev app drop_while].
  destruct (Z.eqb_spec d 0) as [->|Hd].
  - by rewrite IH, trim_snoc_0.
  - by rewrite trim_snoc, rev_app_distr.
Qed.

(** ** The digit loops *)

Lemma encode_digits_spec carry ds ds' c :
  digits 58 ds -> 0 <= carry -> encode_digits carry ds = (ds', c) ->
  digits 58 ds' /\ length ds' = length ds /\ 0 <= c /\
  val 58 ds' + 58 ^ zlen ds * c = 256 * val 58 ds + carry.
Proof.
  revert carry ds' c. induction ds as [|d ds IH]; intros carry ds' c Hds Hc E; cbn [encode_digits] in E.
  - injection E as <- <-. unfold zlen. cbn [length val]. change (58 ^ Z.of_nat 0) with 1.
    split_and!; (done || lia).
  - apply Forall_cons in Hds as [Hd Hds].
    destruct (encode_digits ((carry + 256 * d) / 58) ds) as [es c'] eqn:E'. injection E as <- <-.
    apply IH in E' as (H1&H2&H3&H4); [|done|by apply Z.div_pos; lia].
    split_and!; [constructor; [by apply Z.mod_pos_bound|done]|cbn; lia|done|].
    rewrite zlen_cons, Z.pow_add_r by (lia || auto). cbn [val].
    pose proof (Z.div_mod (carry + 256 * d) 58 ltac:(lia)). nia.
Qed.

Lemma decode_digits_spec len i carry ds ds' c i' :
  digits 256 ds -> 0 <= carry -> trim (drop (len - i) ds) = [] ->
  decode_digits len i carry ds = (ds', c, i') ->
  digits 256 ds' /\ length ds' = length ds /\ 0 <= c /\
  val 256 ds' + 256 ^ zlen ds * c = 58 * val 256 ds + carry /\
  (i <= i')%nat /\ trim (drop (i' - i) ds') = [].
Proof.
  revert i carry ds' c i'. induction ds as [|d ds IH]; intros i carry ds' c i' Hds Hc Hz E;
    cbn [decode_digits] in E.
  - injection E as <- <- <-. unfold zlen. cbn [length val]. change (256 ^ Z.of_nat 0) with 1.
    rewrite drop_nil. split_and!; (done || lia).
  - destruct (negb (carry =? 0) || (i <? len)%nat) eqn:Hgo.
    + apply Forall_cons in Hds as [Hd Hds].
      destruct (decode_digits len (S i) ((carry + 58 * d) / 256) ds) as [[es c'] j] eqn:E'.
      injection E as <- <- <-.
      apply IH in E' as (H1&H2&H3&H4&H5&H6); [|done|by apply Z.div_pos; lia|].
      * split_and!; [constructor; [by apply Z.mod_pos_bound|done]|cbn; lia|done| |lia|].
        { rewrite zlen_cons, Z.pow_add_r by (lia || auto). cbn [val].
          pose proof (Z.div_mod (carry + 58 * d) 256 ltac:(lia)). nia. }
        replace (j - i)%nat with (S (j - S i)) by lia. done.
      * destruct (decide (i < len)%nat).
        { replace (len - i)%nat with (S (len - S i)) in Hz by lia. done. }
        replace (len - i)%nat with 0%nat in Hz by lia. replace (len - S i)%nat with 0%nat by lia.
        rewrite drop_0 in *. cbn [trim] in Hz. by destruct (trim ds).
    + injection E as <- <- <-. apply orb_false_iff in Hgo as [Hc0%negb_false_iff%Z.eqb_eq Hlen%Nat.ltb_ge].
      replace (len - i)%nat with 0%nat in Hz by lia. rewrite Nat.sub_diag.
      assert (val 256 (d :: ds) = 0) as H0 by (by apply (val_0_trim 256)).
      split_and!; [done|done|lia| |lia|done]. rewrite H0. lia.
Qed.

(** ** The sizes allocated are enough *)

Lemma pow_root a b n k p q :
  0 < a -> 0 < b -> 0 <= n -> 0 <= k -> 0 < p -> 0 <= q -> a ^ p < b ^ q -> q * n < p * k -> 1 < b -> a ^ n < b ^ k.
Proof.
  intros Ha Hb Hn Hk Hp Hq Hab Hkn Hb1.
  destruct (Z.lt_ge_cases (a ^ n) (b ^ k)) as [|Hge]; [done|]. exfalso.
  assert (a ^ (n * p) < b ^ (k * p)) as Hlt.
  { apply Z.le_lt_trans with (b ^ (q * n)).
    - rewrite (Z.mul_comm n p), !Z.pow_mul_r by lia. apply Z.pow_le_mono_l. split; [|lia]. apply Z.pow_nonneg. lia.
    - apply Z.pow_lt_mono_r; lia. }
  rewrite !Z.pow_mul_r in Hlt by lia.
  assert ((b ^ k) ^ p <= (a ^ n) ^ p); [|lia].
  apply Z.pow_le_mono_l. split; [apply Z.pow_nonneg; lia|done].
Qed.

Lemma encode_size n : 256 ^ Z.of_nat n < 58 ^ Z.of_nat (n * 138 / 100 + 1).
Proof.
  assert (256 ^ 100 < 58 ^ 138) as Hr by (by vm_compute).
  refine (pow_root 256 58 _ _ 100 138 _ _ _ _ _ _ Hr _ _); try lia.
  pose proof (Nat.div_mod (n * 138) 100 ltac:(lia)). pose proof (Nat.mod_upper_bound (n * 138) 100 ltac:(lia)). lia.
Qed.

Lemma decode_size n : 58 ^ Z.of_nat n < 256 ^ Z.of_nat (n * 733 / 1000 + 1).
Proof.
  assert (58 ^ 1000 < 256 ^ 733) as Hr by (by vm_compute).
  refine (pow_root 58 256 _ _ 1000 733 _ _ _ _ _ _ Hr _ _); try lia.
  pose proof (Nat.div_mod (n * 733) 1000 ltac:(lia)). pose proof (Nat.mod_upper_bound (n * 733) 1000 ltac:(lia)). lia.
Qed.

(** ** The alphabet *)

Definition alpha (d : Z) : Z := nth (Z.to_nat d) pszBase58 0.

Lemma alpha_facts d : 0 <= d < 58 ->
  strchr pszBase58 (alpha d) = Some d /\ isspace (alpha d) = false /\ (alpha d = 49 <-> d = 0).
Proof.
  intros Hd.
  assert (forallb (fun d => bool_decide (strchr pszBase58 (alpha d) = Some d) && negb (isspace (alpha d)) &&
    eqb (alpha d =? 49) (d =? 0)) (seqZ 0 58) = true) as H by (vm_compute; done).
  rewrite forallb_forall in H. specialize (H d ltac:(apply list_elem_of_In, elem_of_seqZ; lia)).
  apply andb_true_iff in H as [[H1%bool_decide_eq_true H2%negb_true_iff]%andb_true_iff H3%eqb_prop].
  split_and!; [done..|]. rewrite <-!Z.eqb_eq. by rewrite H3.
Qed.

Lemma strchr_alpha c d : strchr pszBase58 c = Some d -> c = alpha d /\ 0 <= d < 58.
Proof.
  unfold strchr. destruct (list_find _ _) as [[i x]|] eqn:E; [|done]. cbn. intros [= <-].
  apply list_find_Some in E as (Hi&->&_). unfold alpha. rewrite Nat2Z.id. split.
  - by apply nth_lookup_Some with (d := 0) in Hi.
  - apply lookup_lt_Some in Hi. change (length pszBase58) with 58%nat in Hi. lia.
Qed.

(** ** White space *)

Lemma run_replicate (c : Z) l : forallb (fun x => x =? c) l = true -> l = replicate (length l) c.
Proof. induction l as [|x l IH]; cbn; [done|]. intros [->%Z.eqb_eq H]%andb_true_iff. f_equal. auto. Qed.

(** ** Encoding *)

Lemma val_rev_cons b0 x l : 1 < b0 -> val b0 (rev (x :: l)) = val b0 (rev l) + b0 ^ zlen l * x.
Proof.
  intros Hb. cbn [rev]. rewrite val_app by done. unfold zlen. rewrite length_rev. cbn [val]. lia.
Qed.

Lemma encode_bytes_spec bytes b58 :
  bytes_ok bytes -> digits 58 b58 ->
  val 58 b58 * 256 ^ zlen bytes + val 256 (rev bytes) < 58 ^ zlen b58 ->
  exists ds, encode_bytes b58 bytes = Ok ds /\ digits 58 ds /\
    val 58 ds = val 58 b58 * 256 ^ zlen bytes + val 256 (rev bytes).
Proof.
  intros Hbs. revert b58. induction Hbs as [|x bytes Hx Hbs IH]; intros b58 Hd Hlt.
  - exists b58. cbn. unfold zlen. change (256 ^ Z.of_nat (length (@nil Z))) with 1. split_and!; (done || lia).
  - cbn [encode_bytes]. destruct (encode_digits x b58) as [es c] eqn:E.
    unfold byte_ok in Hx. apply encode_digits_spec in E as (H1&H2&H3&H4); [|done|lia].
    rewrite val_rev_cons, zlen_cons, Z.pow_add_r, Z.pow_1_r in * by (lia || auto).
    pose proof (val_nonneg 256 ltac:(lia) (rev bytes) ltac:(by apply Forall_rev)) as Hr.
    pose proof (val_nonneg 58 ltac:(lia) es H1) as He.
    pose proof (Z.pow_pos_nonneg 256 (zlen bytes) ltac:(lia) ltac:(auto)) as Hp.
    assert (c = 0) as ->.
    { pose proof (Z.pow_pos_nonneg 58 (zlen b58) ltac:(lia) ltac:(auto)). nia. }
    rewrite Z.mul_0_r, Z.add_0_r in H4. cbn [Z.eqb assert_that mbind outcome_bind].
    destruct (IH es H1) as (ds&Eds&Hds&Hv).
    { unfold zlen in *. rewrite H2, H4. nia. }
    exists ds. split_and!; [done|done|]. rewrite Hv, H4. nia.
Qed.

Lemma EncodeBase58_spec z rest ds :
  bytes_ok rest -> stops (fun b => b =? 0) rest -> digits 58 ds -> val 58 ds = val 256 (rev rest) ->
  EncodeBase58 (replicate z 0 ++ rest) = Ok (replicate z 49 ++ map alpha (rev (trim ds))).
Proof.
  intros Hrest Hstop Hds Hv. unfold EncodeBase58.
  rewrite take_while_run, drop_while_app, drop_while_id, length_replicate by (done || by apply forallb_replicate).
  set (size := (length rest * 138 / 100 + 1)%nat).
  destruct (encode_bytes_spec rest (replicate size 0)) as (es&->&Hes&Hve); [done|apply digits_zeros; lia| |].
  - rewrite val_zeros, Z.mul_0_l, Z.add_0_l.
    eapply Z.lt_le_trans; [apply val_bound; [lia|by apply Forall_rev]|].
    unfold zlen. rewrite length_rev, length_replicate. pose proof (encode_size (length rest)). unfold size. lia.
  - cbn [mbind outcome_bind mret outcome_ret]. rewrite drop_zeros.
    rewrite (trim_unique 58 ltac:(lia) es ds Hes Hds); [done|].
    rewrite Hve, val_zeros, Hv. lia.
Qed.

Lemma trim_app_zeros l k : trim k = [] -> trim (l ++ k) = trim l.
Proof. intros Hk. induction l as [|x l IH]; cbn [app trim]; [done|by rewrite IH]. Qed.

(** A big-endian list without leading zero is already trimmed. *)
Lemma trim_rev_stops l : stops (fun d => d =? 0) l -> trim (rev l) = rev l.
Proof. destruct l as [|x l]; cbn; [done|]. intros Hx. apply trim_snoc. by apply Z.eqb_neq. Qed.

Lemma stops_rev_trim l : stops (fun d => d =? 0) (rev (trim l)).
Proof.
  destruct (trim_last l) as [->|(k&d&->&Hd)]; [done|]. rewrite rev_app_distr. cbn. by apply Z.eqb_neq.
Qed.

Lemma zeros_split l : l = replicate (length (take_while (fun b => b =? 0) l)) 0 ++ drop_while (fun b => b =? 0) l.
Proof.
  destruct (drop_while_split (fun b => b =? 0) l) as [E H]. apply run_replicate in H. by rewrite <-H.
Qed.

Lemma digits_exist b n : 1 < b -> 0 <= n -> exists ds, digits b ds /\ val b ds = n.
Proof.
  intros Hb Hn. revert n Hn. apply (well_founded_induction (Z.lt_wf 0) (fun n => 0 <= n -> _)). intros n IH Hn.
  destruct (decide (n = 0)) as [->|]; [by exists []|].
  destruct (IH (n / b)) as (ds&Hds&Hv).
  - split; [by apply Z.div_pos; lia|]. apply Z.div_lt; lia.
  - by apply Z.div_pos; lia.
  - exists (n mod b :: ds). split; [constructor; [by apply Z.mod_pos_bound; lia|done]|].
    cbn [val]. rewrite Hv. pose proof (Z.div_mod n b ltac:(lia)). lia.
Qed.

(** Every byte vector has an encoding, of this shape. *)
Lemma EncodeBase58_shape v :
  bytes_ok v ->
  exists z rest ds, v = replicate z 0 ++ rest /\ stops (fun b => b =? 0) rest /\
    digits 58 ds /\ trim ds = ds /\ val 58 ds = val 256 (rev rest) /\
    EncodeBase58 v = Ok (replicate z 49 ++ map alpha (rev ds)).
Proof.
  intros Hv. pose proof (zeros_split v) as E.
  set (z := length (take_while (fun b => b =? 0) v)) in E.
  set (rest := drop_while (fun b => b =? 0) v) in E.
  assert (stops (fun b => b =? 0) rest) as Hs by apply drop_while_stops.
  assert (bytes_ok rest) as Hr.
  { rewrite E in Hv. by apply Forall_app in Hv as [_ Hv]. }
  destruct (digits_exist 58 (val 256 (rev rest))) as (ds&Hds&Hval); [lia|apply val_nonneg; [lia|by apply Forall_rev]|].
  assert (val 58 (trim ds) = val 256 (rev rest)) as Hval' by (by rewrite val_trim).
  assert (digits 58 (trim ds)) as Hd' by (by apply digits_trim).
  exists z, rest, (trim ds).
  assert (trim (trim ds) = trim ds) as Htt.
  { apply (trim_unique 58); [lia|done..|]. by rewrite val_trim. }
  split_and!; [done..|]. rewrite E, (EncodeBase58_spec z rest (trim ds)) by done. by rewrite Htt.
Qed.

(** ** Decoding *)

Lemma decode_chars_spec ds r len b256 :
  digits 58 ds -> digits 256 b256 -> trim (drop len b256) = [] -> stops (fun c => negb (isspace c)) r ->
  val 256 b256 * 58 ^ zlen ds + val 58 (rev ds) < 256 ^ zlen b256 ->
  exists b' len', decode_chars len b256 (map alpha ds ++ r) = Ok (b', len', r) /\
    digits 256 b' /\ trim (drop len' b') = [] /\
    val 256 b' = val 256 b256 * 58 ^ zlen ds + val 58 (rev ds).
Proof.
  intros Hds. revert len b256. induction Hds as [|d ds Hd Hds IH]; intros len b256 Hb Hz Hr Hlt.
  - exists b256, len. cbn [map app]. unfold zlen. change (58 ^ Z.of_nat (length (@nil Z))) with 1.
    split_and!; [|done..|cbn; lia].
    destruct r as [|c r]; cbn in *; [done|]. apply negb_false_iff in Hr. by rewrite Hr.
  - destruct (alpha_facts d Hd) as (Hch&Hsp&_).
    cbn [map app decode_chars]. rewrite Hsp, Hch.
    destruct (decode_digits len 0 d b256) as [[es c] i] eqn:E.
    apply decode_digits_spec in E as (H1&H2&H3&H4&_&H6); [|done|lia|by rewrite Nat.sub_0_r].
    rewrite Nat.sub_0_r in H6.
    rewrite val_rev_cons, zlen_cons, Z.pow_add_r, Z.pow_1_r in * by (lia || auto).
    pose proof (val_nonneg 58 ltac:(lia) (rev ds) ltac:(by apply Forall_rev)) as Hvr.
    pose proof (val_nonneg 256 ltac:(lia) es H1) as He.
    pose proof (Z.pow_pos_nonneg 58 (zlen ds) ltac:(lia) ltac:(auto)) as Hp.
    assert (c = 0) as ->.
    { pose proof (Z.pow_pos_nonneg 256 (zlen b256) ltac:(lia) ltac:(auto)). nia. }
    rewrite Z.mul_0_r, Z.add_0_r in H4. cbn [Z.eqb assert_that mbind outcome_bind].
    destruct (IH i es H1 H6 Hr) as (b'&len'&Eq&Hb'&Hz'&Hv').
    { unfold zlen in *. rewrite H2, H4. nia. }
    exists b', len'. split_and!; [done..|]. rewrite Hv', H4. nia.
Qed.

Lemma decode_chars_inv len b256 psz b' len' r :
  decode_chars len b256 psz = Ok (b', len', r) ->
  exists ds, psz = map alpha ds ++ r /\ digits 58 ds /\ stops (fun c => negb (isspace c)) r.
Proof.
  revert len b256. induction psz as [|c psz IH]; intros len b256 E; cbn [decode_chars] in E.
  - injection E as <- <- <-. exists []. by split_and!.
  - destruct (isspace c) eqn:Hsp.
    + injection E as <- <- <-. exists []. split_and!; [done..|]. cbn. by rewrite Hsp.
    + destruct (strchr pszBase58 c) as [d|] eqn:Hch; [|done].
      apply strchr_alpha in Hch as [-> Hd].
      destruct (decode_digits len 0 d b256) as [[es cc] i]. 
      destruct (cc =? 0); [|done]. cbn in E.
      apply IH in E as (ds&->&Hds&Hr). exists (d :: ds). split_and!; [done|by constructor|done].
Qed.

Lemma DecodeBase58_spec sp1 z ds sp2 b :
  forallb isspace sp1 = true -> forallb isspace sp2 = true ->
  digits 58 ds -> stops (fun d => d =? 0) ds -> digits 256 b -> val 256 b = val 58 (rev ds) ->
  DecodeBase58 (sp1 ++ (replicate z 49 ++ map alpha ds) ++ sp2) = Ok (replicate z 0 ++ rev (trim b)).
Proof.
  intros Hsp1 Hsp2 Hds Hst Hb Hv. unfold DecodeBase58.
  assert (stops (fun c => negb (isspace c)) sp2) as Hs2.
  { destruct sp2; cbn in *; [done|]. apply andb_true_iff in Hsp2 as [-> _]. done. }
  assert (stops (fun c => c =? 49) (map alpha ds ++ sp2)) as H49.
  { destruct ds as [|d ds].
    - destruct sp2 as [|c sp2]; cbn in *; [done|]. apply andb_true_iff in Hsp2 as [Hc _].
      destruct (Z.eqb_spec c 49) as [->|]; done.
    - cbn in *. apply Forall_cons in Hds as [Hd _]. apply Z.eqb_neq. apply Z.eqb_neq in Hst.
      destruct (alpha_facts d Hd) as (_&_&H). tauto. }
  assert (stops isspace ((replicate z 49 ++ map alpha ds) ++ sp2) \/ (z = 0%nat /\ ds = [])) as [Hs|[-> ->]].
  { destruct z; [|by left]. destruct ds as [|d ds]; [by right|]. left. cbn.
    apply Forall_cons in Hds as [Hd _]. by destruct (alpha_facts d Hd) as (_&?&_). }
  2: { cbn [replicate map app] in *. rewrite drop_while_app by done.
       assert (drop_while isspace sp2 = []) as ->.
       { rewrite <-(app_nil_r sp2). by rewrite drop_while_app. }
       cbn in Hv. cbn. apply val_0_trim in Hv; [|lia|done]. by rewrite Hv. }
  rewrite drop_while_app, (drop_while_id isspace), <-(app_assoc _ _ sp2) by done.
  rewrite take_while_run, drop_while_app, drop_while_id, length_replicate by (done || by apply forallb_replicate).
  set (size := (length (map alpha ds ++ sp2) * 733 / 1000 + 1)%nat).
  destruct (decode_chars_spec ds sp2 0 (replicate size 0)) as (b'&len'&->&Hb'&Hz'&Hv'); try done.
  - apply digits_zeros. lia.
  - rewrite drop_0. apply (val_0_trim 256); [lia|apply digits_zeros; lia|by rewrite val_zeros].
  - rewrite val_zeros, Z.mul_0_l, Z.add_0_l.
    eapply Z.lt_le_trans; [apply val_bound; [lia|by apply Forall_rev]|].
    unfold zlen. rewrite length_rev, length_replicate.
    pose proof (decode_size (length (map alpha ds ++ sp2))) as Hsz. fold size in Hsz.
    rewrite length_app, length_map in Hsz.
    apply Z.le_trans with (58 ^ Z.of_nat (length ds + length sp2)); [|lia].
    apply Z.pow_le_mono_r; lia.
  - cbn [mbind outcome_bind mret outcome_ret].
    rewrite <-(app_nil_r sp2), drop_while_app by done. cbn [drop_while]. rewrite drop_zeros.
    rewrite val_zeros, Z.mul_0_l, Z.add_0_l, <-Hv in Hv'.
    rewrite <-(trim_app_zeros _ _ Hz'), take_drop. do 3 f_equal. by apply (trim_unique 256).
Qed.

(** The codec, shared with the checksummed form. *)
Lemma Base58_codec s v :
  DecodeBase58 s = Ok v <->
  bytes_ok v /\
  exists sp1 core sp2, s = sp1 ++ core ++ sp2 /\
    forallb isspace sp1 = true /\ forallb isspace sp2 = true /\ EncodeBase58 v = Ok core.
Proof.
  split.
  - intros E0. pose proof E0 as E. unfold DecodeBase58 in E.
    destruct (drop_while_split isspace s) as [Es Hsp1].
    set (s1 := drop_while isspace s) in *.
    destruct (drop_while_split (fun c => c =? 49) s1) as [Es1 H49].
    pose proof (drop_while_stops (fun c => c =? 49) s1) as Hst.
    set (z := length (take_while (fun c => c =? 49) s1)) in *.
    set (s2 := drop_while (fun c => c =? 49) s1) in *.
    destruct (decode_chars 0 _ s2) as [[[b' len'] r]|e| |] eqn:Ed; [|done..].
    apply decode_chars_inv in Ed as (ds&Es2&Hds&Hr).
    cbn [mbind outcome_bind mret outcome_ret] in E.
    destruct (drop_while_split isspace r) as [Er Hsp2].
    destruct (drop_while isspace r) as [|] eqn:Er'; [|done]. rewrite app_nil_r in Er.
    rewrite <-Er in Hsp2. apply run_replicate in H49. fold z in H49.
    assert (stops (fun d => d =? 0) ds) as Hds0.
    { destruct ds as [|d ds]; [done|]. rewrite Es2 in Hst. cbn in *. apply Forall_cons in Hds as [Hd _].
      apply Z.eqb_neq. apply Z.eqb_neq in Hst. destruct (alpha_facts d Hd) as (_&_&H). tauto. }
    assert (s = take_while isspace s ++ (replicate z 49 ++ map alpha ds) ++ r) as Es'.
    { rewrite <-app_assoc, <-Es2, <-H49, <-Es1. done. }
    destruct (digits_exist 256 (val 58 (rev ds))) as (b&Hb&Hv); [lia|apply val_nonneg; [lia|by apply Forall_rev]|].
    assert (v = replicate z 0 ++ rev (trim b)) as ->.
    { pose proof (DecodeBase58_spec _ z ds r b Hsp1 Hsp2 Hds Hds0 Hb Hv) as Es3. rewrite <-Es' in Es3. 
      congruence. }
    split; [by apply Forall_app_2; [apply Forall_replicate|apply Forall_rev, digits_trim]|].
    exists (take_while isspace s), (replicate z 49 ++ map alpha ds), r. split_and!; [done..|].
    rewrite (EncodeBase58_spec z (rev (trim b)) (rev ds)).
    + by rewrite trim_rev_stops, rev_involutive.
    + by apply Forall_rev, digits_trim.
    + apply stops_rev_trim.
    + by apply Forall_rev.
    + by rewrite rev_involutive, val_trim.
  - intros (Hv&sp1&core&sp2&->&Hsp1&Hsp2&E).
    destruct (EncodeBase58_shape v Hv) as (z&rest&ds&->&Hst&Hds&Ht&Hval&Eq).
    rewrite Eq in E. injection E as <-.
    rewrite (DecodeBase58_spec _ _ _ _ (rev rest)); try done.
    + by rewrite trim_rev_stops, rev_involutive.
    + by apply Forall_rev.
    + rewrite <-Ht. apply stops_rev_trim.
    + apply Forall_rev. by apply Forall_app in Hv as [_ Hv].
    + by rewrite rev_involutive.
Qed.

(** ** Decoding never crashes *)

Lemma decode_chars_total len b256 psz :
  digits 256 b256 -> trim (drop len b256) = [] ->
  (val 256 b256 + 1) * 58 ^ zlen psz <= 256 ^ zlen b256 ->
  match decode_chars len b256 psz with Ok _ | Err _ => True | _ => False end.
Proof.
  revert len b256. induction psz as [|c psz IH]; intros len b256 Hb Hz Hlt; cbn [decode_chars]; [done|].
  destruct (isspace c); [done|]. destruct (strchr pszBase58 c) as [d|] eqn:Hch; [|done].
  apply strchr_alpha in Hch as [_ Hd].
  destruct (decode_digits len 0 d b256) as [[es cc] i] eqn:E.
  apply decode_digits_spec in E as (H1&H2&H3&H4&_&H6); [|done|lia|by rewrite Nat.sub_0_r].
  rewrite Nat.sub_0_r in H6. rewrite zlen_cons, Z.pow_add_r, Z.pow_1_r in Hlt by (lia || auto).
  pose proof (val_nonneg 256 ltac:(lia) es H1) as He.
  pose proof (Z.pow_pos_nonneg 58 (zlen psz) ltac:(lia) ltac:(auto)) as Hp.
  assert (cc = 0) as ->.
  { pose proof (Z.pow_pos_nonneg 256 (zlen b256) ltac:(lia) ltac:(auto)). nia. }
  rewrite Z.mul_0_r, Z.add_0_r in H4. cbn [Z.eqb assert_that mbind outcome_bind].
  apply IH; [done..|]. unfold zlen in *. rewrite H2, H4. nia.
Qed.

Lemma DecodeBase58_total s : match DecodeBase58 s with Ok _ | Err _ => True | _ => False end.
Proof.
  unfold DecodeBase58. set (psz := drop_while _ (drop_while _ s)).
  pose proof (decode_chars_total 0 (replicate (length psz * 733 / 1000 + 1) 0) psz) as H.
  destruct (decode_chars 0 _ psz) as [[[b len] r]|e| |] eqn:E; cbn; [by destruct (drop_while isspace r)|done|..].
  all: apply H; [apply digits_zeros; lia| |].
  all: try (rewrite drop_0; apply (val_0_trim 256); [lia|apply digits_zeros; lia|by rewrite val_zeros]).
  all: rewrite val_zeros; unfold zlen at 2; rewrite length_replicate;
    pose proof (decode_size (length psz)); unfold zlen; lia.
Qed.

(** C8: [DecodeBase58] is the inverse of [EncodeBase58], and accepts nothing
    else: a string decodes to a byte vector exactly when the string is that
    vector's encoding, up to white space around it.  In particular every byte
    vector is encoded (no digit vector overflows), distinct vectors have
    distinct encodings and no vector has two. *)
Theorem DecodeBase58_codec s v :
  (DecodeBase58 s = Ok v <->
   bytes_ok v /\
   exists sp1 core sp2, s = sp1 ++ core ++ sp2 /\
     forallb isspace sp1 = true /\ forallb isspace sp2 = true /\ EncodeBase58 v = Ok core) /\
  (bytes_ok v -> exists core, EncodeBase58 v = Ok core) /\
  match DecodeBase58 s with Ok _ | Err _ => True | _ => False end.
Proof.
  split_and!; [apply Base58_codec| |apply DecodeBase58_total].
  intros Hv. destruct (EncodeBase58_shape v Hv) as (z & rest & ds & _ & _ & _ & _ & _ & ->). by eexists.
Qed.
