(* ===== verification/Keys.v ===== *)
(** * Keys and extended keys

    [key.h], [key.cpp], [pubkey.h], [pubkey.cpp]: the containers of private
    and public keys, the DER parsers and writers of the code, signing and
    verifying, and the derivation of extended keys (BIP 32).  The functions of
    libsecp256k1 are the class [Secp256k1]; a [CPubKey] is its array of 65
    bytes, a [CKey] its flags and its array of 32 bytes. *)

From S2P Require Import Prelude Serialize HashStream HashWords Sha256 Hasher Hash Interp Transaction SigHash Standard.

Local Open Scope Z_scope.
Local Open Scope word_scope.

(** ** The library *)

Class Secp256k1 := {
  secp256k1_pubkey : Type;
  secp256k1_ecdsa_signature : Type;
  secp256k1_ecdsa_recoverable_signature : Type;
  secp256k1_ec_seckey_verify : list Z -> bool;
  secp256k1_ec_pubkey_create : list Z -> option secp256k1_pubkey;
  (** compressed or not *)
  secp256k1_ec_pubkey_serialize : bool -> secp256k1_pubkey -> list Z;
  secp256k1_ec_pubkey_parse : list Z -> option secp256k1_pubkey;
  (** the result and the key afterwards *)
  secp256k1_ec_privkey_tweak_add : list Z -> list Z -> bool * list Z;
  secp256k1_ec_pubkey_tweak_add : secp256k1_pubkey -> list Z -> option secp256k1_pubkey;
  (** the hash, the key and the extra entropy *)
  secp256k1_ecdsa_sign : Z -> list Z -> option (list Z) -> option secp256k1_ecdsa_signature;
  secp256k1_ecdsa_signature_serialize_der : secp256k1_ecdsa_signature -> list Z;
  secp256k1_ecdsa_signature_parse_compact : list Z -> bool * secp256k1_ecdsa_signature;
  (** whether it was changed, and the normalized signature *)
  secp256k1_ecdsa_signature_normalize : secp256k1_ecdsa_signature -> bool * secp256k1_ecdsa_signature;
  secp256k1_ecdsa_verify : secp256k1_ecdsa_signature -> Z -> secp256k1_pubkey -> bool;
  secp256k1_ecdsa_sign_recoverable : Z -> list Z -> option secp256k1_ecdsa_recoverable_signature;
  (** the 64 bytes and the recovery id *)
  secp256k1_ecdsa_recoverable_signature_serialize_compact :
    secp256k1_ecdsa_recoverable_signature -> list Z * Z;
  secp256k1_ecdsa_recoverable_signature_parse_compact :
    list Z -> Z -> option secp256k1_ecdsa_recoverable_signature;
  secp256k1_ecdsa_recover : secp256k1_ecdsa_recoverable_signature -> Z -> option secp256k1_pubkey;
}.

(** ** Data *)

(** [CPubKey]: the array [vch]. *)
Definition pubkey_bytes : Type := list Z.

Record CKey : Type := { fValid : bool; fCompressed : bool; key_vch : list Z }.

(** [CExtKey] and [CExtPubKey]: the same fields around a key. *)
Record ext_key (K : Type) : Type := ExtKey {
  nDepth : Z;
  vchFingerprint : list Z;
  nChild : Z;
  vchChainCode : list Z;
  ext_ : K
}.
Arguments ExtKey {K} _ _ _ _ _.
Arguments nDepth {K} _.
Arguments vchFingerprint {K} _.
Arguments nChild {K} _.
Arguments vchChainCode {K} _.
Arguments ext_ {K} _.

Definition CExtKey : Type := ext_key CKey.
Definition CExtPubKey : Type := ext_key pubkey_bytes.

(** ** Lax DER signatures *)

(** [while (lenbyte > 0 && input[pos] == 0)] *)
Fixpoint lax_skip (lenbyte : nat) (input : list Z) : nat * list Z :=
  match lenbyte, input with
  | S lenbyte', b :: input' => if b =? 0 then lax_skip lenbyte' input' else (lenbyte, input)
  | _, _ => (lenbyte, input)
  end.

(** The length of an integer; [size_t] has eight bytes. *)
Definition lax_length (input : list Z) : option (Z * list Z) :=
  match input with
  | [] => None
  | lenbyte :: input =>
    if (lenbyte &: 0x80) =? 0 then Some (lenbyte, input)
    else
      let lenbyte := lenbyte - 0x80 in
      if zlen input <? lenbyte then None
      else
        let '(lenbyte, input) := lax_skip (Z.to_nat lenbyte) input in
        if (8 <=? lenbyte)%nat then None
        else Some (foldl (fun rlen b => (Z.shiftl rlen 8) + b) 0 (take lenbyte input), drop lenbyte input)
  end.

(** An integer: its bytes and the input after it. *)
Definition lax_integer (input : list Z) : option (list Z * list Z) :=
  match input with
  | [] => None
  | tag :: input =>
    if negb (tag =? 0x02) then None
    else
      '(rlen, input) ← lax_length input;
      if zlen input <? rlen then None
      else Some (take (Z.to_nat rlen) input, drop (Z.to_nat rlen) input)
  end.

(** Its 32 bytes in the signature; [None] is an overflow. *)
Definition lax_copy (r : list Z) : option (list Z) :=
  let r := drop_while (fun b => b =? 0) r in
  if 32 <? zlen r then None else Some (replicate (32 - length r) 0 ++ r).

Section secp.
Context {SECP : Secp256k1}.

Definition ecdsa_signature_parse_der_lax (input : list Z) : option secp256k1_ecdsa_signature :=
  let zero := snd (secp256k1_ecdsa_signature_parse_compact (replicate 64 0)) in
  match input with
  | [] => None
  | tag :: input =>
    if negb (tag =? 0x30) then None
    else
      match input with
      | [] => None
      | lenbyte :: input =>
        input ← (if (lenbyte &: 0x80) =? 0 then Some input
                 else
                   let lenbyte := lenbyte - 0x80 in
                   if zlen input <? lenbyte then None else Some (drop (Z.to_nat lenbyte) input));
        '(r, input) ← lax_integer input;
        '(s, input) ← lax_integer input;
        match lax_copy r, lax_copy s with
        | Some r, Some s =>
          match secp256k1_ecdsa_signature_parse_compact (r ++ s) with
          | (true, sig) => Some sig
          | (false, _) => Some zero
          end
        | _, _ => Some zero
        end
      end
  end.

(** ** Public keys *)

Definition Invalidate (vch : pubkey_bytes) : pubkey_bytes := <[0%nat := 0xFF]> vch.
(** The default constructor. *)
Definition CPubKey_new : pubkey_bytes := Invalidate (uninitialised 65).

Definition pubkey_Set (vch : pubkey_bytes) (range : list Z) : pubkey_bytes :=
  let len := match range with [] => 0 | b :: _ => CPubKey_GetLen b end in
  if negb (len =? 0) && (len =? zlen range) then range ++ drop (length range) vch else Invalidate vch.

Definition CPubKey_make (range : list Z) : pubkey_bytes := pubkey_Set (uninitialised 65) range.

Definition pubkey_size (vch : pubkey_bytes) : Z := CPubKey_GetLen (nth 0 vch 0).
(** from [begin()] to [end()]; also [Raw] *)
Definition pubkey_data (vch : pubkey_bytes) : list Z := take (Z.to_nat (pubkey_size vch)) vch.
Definition pubkey_IsValid (vch : pubkey_bytes) : bool := 0 <? pubkey_size vch.
Definition pubkey_IsCompressed (vch : pubkey_bytes) : bool := pubkey_size vch =? 33.

Definition pubkey_eq (a b : pubkey_bytes) : bool :=
  (nth 0 a 0 =? nth 0 b 0) && bool_decide (pubkey_data a = take (Z.to_nat (pubkey_size a)) b).
Definition pubkey_lt (a b : pubkey_bytes) : bool :=
  (nth 0 a 0 <? nth 0 b 0) ||
  ((nth 0 a 0 =? nth 0 b 0) && bytes_lt (pubkey_data a) (take (Z.to_nat (pubkey_size a)) b)).

(** [Serialize] *)
Definition pubkey_Serialize (vch : pubkey_bytes) : list Z :=
  WriteCompactSize (pubkey_size vch) ++ pubkey_data vch.

(** [Unserialize] into an object: the bytes read replace its first ones. *)
Definition pubkey_Unserialize (vch : pubkey_bytes) : reader pubkey_bytes :=
  len ← ReadCompactSize;
  d ← read_bytes (Z.to_nat len);
  mret (if len <=? 65 then d ++ drop (length d) vch else Invalidate vch).

Section hashes.
Context {SH : ScriptHashes}.
Definition pubkey_GetID (vch : pubkey_bytes) : list Z := h_hash160 (pubkey_data vch).
End hashes.

Definition CPubKey_Verify (vch : pubkey_bytes) (hash : Z) (vchSig : list Z) : bool :=
  if negb (pubkey_IsValid vch) then false
  else match secp256k1_ec_pubkey_parse (pubkey_data vch) with
       | None => false
       | Some pubkey =>
         if zlen vchSig =? 0 then false
         else match ecdsa_signature_parse_der_lax vchSig with
              | None => false
              | Some sig =>
                let sig := snd (secp256k1_ecdsa_signature_normalize sig) in
                secp256k1_ecdsa_verify sig hash pubkey
              end
       end.

(** The result and the key afterwards. *)
Definition RecoverCompact (vch : pubkey_bytes) (hash : Z) (vchSig : list Z) : bool * pubkey_bytes :=
  if negb (zlen vchSig =? 65) then (false, vch)
  else
    let recid := (nth 0 vchSig 0 - 27) &: 3 in
    let fComp := negb ((nth 0 vchSig 0 - 27) &: 4 =? 0) in
    match secp256k1_ecdsa_recoverable_signature_parse_compact (tail vchSig) recid with
    | None => (false, vch)
    | Some sig =>
      match secp256k1_ecdsa_recover sig hash with
      | None => (false, vch)
      | Some pubkey => (true, pubkey_Set vch (secp256k1_ec_pubkey_serialize fComp pubkey))
      end
    end.

Definition IsFullyValid (vch : pubkey_bytes) : bool :=
  if negb (pubkey_IsValid vch) then false
  else bool_decide (is_Some (secp256k1_ec_pubkey_parse (pubkey_data vch))).

Definition Decompress (vch : pubkey_bytes) : bool * pubkey_bytes :=
  if negb (pubkey_IsValid vch) then (false, vch)
  else match secp256k1_ec_pubkey_parse (pubkey_data vch) with
       | None => (false, vch)
       | Some pubkey => (true, pubkey_Set vch (secp256k1_ec_pubkey_serialize false pubkey))
       end.

(** [CPubKey::CheckLowS] *)
Definition CPubKey_CheckLowS (vchSig : list Z) : bool :=
  match ecdsa_signature_parse_der_lax vchSig with
  | None => false
  | Some sig => negb (fst (secp256k1_ecdsa_signature_normalize sig))
  end.

(** ** Private keys *)

(** The default constructor. *)
Definition CKey_new : CKey := {| fValid := false; fCompressed := false; key_vch := uninitialised 32 |}.

Definition key_size (k : CKey) : Z := if fValid k then 32 else 0.

(** [Check] is [secp256k1_ec_seckey_verify]. *)
Definition key_Set (k : CKey) (range : list Z) (fCompressedIn : bool) : CKey :=
  if negb (zlen range =? 32) || negb (secp256k1_ec_seckey_verify range)
  then {| fValid := false; fCompressed := fCompressed k; key_vch := key_vch k |}
  else {| fValid := true; fCompressed := fCompressedIn; key_vch := range |}.

(** One round of [MakeNewKey]'s loop per element of [rand]. *)
Fixpoint MakeNewKey (rand : list (list Z)) (fCompressedIn : bool) : option CKey :=
  match rand with
  | [] => None
  | vch :: rand =>
    if secp256k1_ec_seckey_verify vch
    then Some {| fValid := true; fCompressed := fCompressedIn; key_vch := vch |}
    else MakeNewKey rand fCompressedIn
  end.

(** *** DER private keys *)

Definition ec_privkey_import_parse (privkey : list Z) : option (list Z) :=
  match privkey with
  | tag :: lenb :: privkey =>
    if negb (tag =? 0x30) || ((lenb &: 0x80) =? 0) then None
    else
      let lenb := lenb &: Z.lnot 0x80 in
      if (lenb <? 1) || (2 <? lenb) || (zlen privkey <? lenb) then None
      else
        let len := Z.lor (byte_at privkey (lenb - 1))
                     (if 1 <? lenb then Z.shiftl (byte_at privkey (lenb - 2)) 8 else 0) in
        let privkey := drop (Z.to_nat lenb) privkey in
        if zlen privkey <? len then None
        else match privkey with
             | v0 :: v1 :: v2 :: privkey =>
               if negb ((v0 =? 0x02) && (v1 =? 0x01) && (v2 =? 0x01)) then None
               else match privkey with
                    | e0 :: e1 :: privkey =>
                      if negb (e0 =? 0x04) || (0x20 <? e1) || (zlen privkey <? e1) then None
                      else Some (replicate (32 - Z.to_nat e1) 0 ++ take (Z.to_nat e1) privkey)
                    | _ => None
                    end
             | _ => None
             end
  | _ => None
  end.

(** The result and [out32]. *)
Definition ec_privkey_import_der (privkey : list Z) : bool * list Z :=
  match ec_privkey_import_parse privkey with
  | None => (false, replicate 32 0)
  | Some out32 =>
    if secp256k1_ec_seckey_verify out32 then (true, out32) else (false, replicate 32 0)
  end.

(** The group parameters both forms contain, up to the generator. *)
Definition der_middle (h1 h2 : Z) : list Z :=
  [0xA0; 0x81; h1; 0x30; 0x81; h2; 0x02; 0x01; 0x01; 0x30; 0x2C; 0x06; 0x07; 0x2A; 0x86; 0x48;
   0xCE; 0x3D; 0x01; 0x01; 0x02; 0x21; 0x00; 0xFF; 0xFF; 0xFF; 0xFF; 0xFF; 0xFF; 0xFF; 0xFF; 0xFF;
   0xFF; 0xFF; 0xFF; 0xFF; 0xFF; 0xFF; 0xFF; 0xFF; 0xFF; 0xFF; 0xFF; 0xFF; 0xFF; 0xFF; 0xFF; 0xFF;
   0xFF; 0xFF; 0xFE; 0xFF; 0xFF; 0xFC; 0x2F; 0x30; 0x06; 0x04; 0x01; 0x00; 0x04; 0x01; 0x07; 0x04].

Definition der_generator_x : list Z :=
  [0x79; 0xBE; 0x66; 0x7E; 0xF9; 0xDC; 0xBB; 0xAC; 0x55; 0xA0; 0x62; 0x95; 0xCE; 0x87;
   0x0B; 0x07; 0x02; 0x9B; 0xFC; 0xDB; 0x2D; 0xCE; 0x28; 0xD9; 0x59; 0xF2; 0x81; 0x5B; 0x16; 0xF8;
   0x17; 0x98].

Definition der_generator_y : list Z :=
  [0x48; 0x3A; 0xDA; 0x77; 0x26; 0xA3; 0xC4; 0x65; 0x5D; 0xA4; 0xFB; 0xFC; 0x0E; 0x11;
   0x08; 0xA8; 0xFD; 0x17; 0xB4; 0x48; 0xA6; 0x85; 0x54; 0x19; 0x9C; 0x47; 0xD0; 0x8F; 0xFB; 0x10;
   0xD4; 0xB8].

Definition der_order : list Z :=
  [0x02; 0x21; 0x00; 0xFF; 0xFF; 0xFF; 0xFF; 0xFF; 0xFF; 0xFF; 0xFF; 0xFF; 0xFF; 0xFF;
   0xFF; 0xFF; 0xFF; 0xFF; 0xFE; 0xBA; 0xAE; 0xDC; 0xE6; 0xAF; 0x48; 0xA0; 0x3B; 0xBF; 0xD2; 0x5E;
   0x8C; 0xD0; 0x36; 0x41; 0x41; 0x02; 0x01; 0x01].

(** The bytes written; [None] is the result 0.  [compressed] is an [int] that
    is tested for zero. *)
Definition ec_privkey_export_der (key32 : list Z) (compressed : Z) : option (list Z) :=
  pubkey ← secp256k1_ec_pubkey_create key32;
  Some (if negb (compressed =? 0)
        then [0x30; 0x81; 0xD3; 0x02; 0x01; 0x01; 0x04; 0x20] ++ key32 ++
             der_middle 0x85 0x82 ++ [0x21; 0x02] ++ der_generator_x ++ der_order ++
             [0xA1; 0x24; 0x03; 0x22; 0x00] ++ secp256k1_ec_pubkey_serialize true pubkey
        else [0x30; 0x82; 0x01; 0x13; 0x02; 0x01; 0x01; 0x04; 0x20] ++ key32 ++
             der_middle 0xA5 0xA2 ++ [0x41; 0x04] ++ der_generator_x ++ der_generator_y ++ der_order ++
             [0xA1; 0x44; 0x03; 0x42; 0x00] ++ secp256k1_ec_pubkey_serialize false pubkey).

Definition SetPrivKey (k : CKey) (privkey : list Z) (fCompressedIn : bool) : bool * CKey :=
  match ec_privkey_import_der privkey with
  | (true, vch) => (true, {| fValid := true; fCompressed := fCompressedIn; key_vch := vch |})
  | (false, vch) => (false, {| fValid := fValid k; fCompressed := fCompressed k; key_vch := vch |})
  end.

(** The flags of [secp256k1.h], neither of them zero. *)
Definition SECP256K1_EC_COMPRESSED : Z := Z.lor (Z.shiftl 1 1) (Z.shiftl 1 8).
Definition SECP256K1_EC_UNCOMPRESSED : Z := Z.shiftl 1 1.

Definition GetPrivKey (k : CKey) : outcome unit (list Z) :=
  _ ← assert_that (fValid k);
  match ec_privkey_export_der (key_vch k) (if fCompressed k then SECP256K1_EC_COMPRESSED else SECP256K1_EC_UNCOMPRESSED) with
  | None => Crash
  | Some privkey => mret privkey
  end.

(** *** Signing *)

Definition GetPubKey (k : CKey) : outcome unit pubkey_bytes :=
  _ ← assert_that (fValid k);
  match secp256k1_ec_pubkey_create (key_vch k) with
  | None => Crash
  | Some pubkey =>
    let pub := secp256k1_ec_pubkey_serialize (fCompressed k) pubkey in
    let result := pub ++ drop (length pub) CPubKey_new in
    _ ← assert_that (pubkey_size result =? zlen pub);
    _ ← assert_that (pubkey_IsValid result);
    mret result
  end.

(** [CKey::Sign]; [Err] is false. *)
Definition key_Sign (k : CKey) (hash test_case : Z) : outcome unit (list Z) :=
  if negb (fValid k) then Err tt
  else
    let extra_entropy := WriteLE32 test_case ++ replicate 28 0 in
    match secp256k1_ecdsa_sign hash (key_vch k) (if test_case =? 0 then None else Some extra_entropy) with
    | None => Crash
    | Some sig => mret (secp256k1_ecdsa_signature_serialize_der sig)
    end.

(** The hash [VerifyPubKey] signs, with eight random bytes. *)
Definition verification_hash (rnd : list Z) : Z :=
  le_decode (CHash256_Finalize (CHash256_Write (CHash256_Write CHash256 (cstr "Bitcoin key verification" ++ [10])) rnd)).

Definition VerifyPubKey (k : CKey) (rnd : list Z) (pubkey : pubkey_bytes) : outcome unit bool :=
  if negb (eqb (pubkey_IsCompressed pubkey) (fCompressed k)) then mret false
  else
    let hash := verification_hash rnd in
    match key_Sign k hash 0 with
    | Ok vchSig => mret (CPubKey_Verify pubkey hash vchSig)
    | Err _ => mret (CPubKey_Verify pubkey hash [])
    | Throw => Throw
    | Crash => Crash
    end.

Definition SignCompact (k : CKey) (hash : Z) : outcome unit (list Z) :=
  if negb (fValid k) then Err tt
  else match secp256k1_ecdsa_sign_recoverable hash (key_vch k) with
       | None => Crash
       | Some sig =>
         let '(compact, rec) := secp256k1_ecdsa_recoverable_signature_serialize_compact sig in
         _ ← assert_that (negb (rec =? -1));
         mret ((27 + rec + (if fCompressed k then 4 else 0)) mod 256 :: compact)
       end.

Definition key_Load (k : CKey) (rnd privkey : list Z) (vchPubKey : pubkey_bytes) (fSkipCheck : bool) :
    outcome unit (bool * CKey) :=
  match ec_privkey_import_der privkey with
  | (false, vch) => mret (false, {| fValid := fValid k; fCompressed := fCompressed k; key_vch := vch |})
  | (true, vch) =>
    let k := {| fValid := true; fCompressed := pubkey_IsCompressed vchPubKey; key_vch := vch |} in
    if fSkipCheck then mret (true, k)
    else ok ← VerifyPubKey k rnd vchPubKey; mret (ok, k)
  end.

(** ** Derivation (BIP 32) *)

Section derive.
Context (SSL512 : StreamHash).

(** [CKey::Derive]: the result, [keyChild] and [ccChild]. *)
Definition key_Derive (k : CKey) (nChild : Z) (cc : list Z) : outcome unit (bool * CKey * list Z) :=
  _ ← assert_that (fValid k);
  _ ← assert_that (fCompressed k);
  out ← (if Z.shiftr nChild 31 =? 0 then
           pubkey ← GetPubKey k;
           _ ← assert_that (pubkey_size pubkey =? 33);
           mret (BIP32Hash SSL512 cc nChild (nth 0 pubkey 0) (tail (pubkey_data pubkey)))
         else
           _ ← assert_that (key_size k =? 32);
           mret (BIP32Hash SSL512 cc nChild 0 (key_vch k)));
  let ccChild := drop 32 out in
  let '(ret, vch) := secp256k1_ec_privkey_tweak_add (key_vch k) (take 32 out) in
  mret (ret, {| fValid := ret; fCompressed := true; key_vch := vch |}, ccChild).

(** [CPubKey::Derive]: the result, [pubkeyChild] and [ccChild]. *)
Definition pubkey_Derive (vch : pubkey_bytes) (pubkeyChild : pubkey_bytes) (nChild : Z) (cc : list Z) :
    outcome unit (bool * pubkey_bytes * list Z) :=
  _ ← assert_that (pubkey_IsValid vch);
  _ ← assert_that (Z.shiftr nChild 31 =? 0);
  _ ← assert_that (pubkey_size vch =? 33);
  let out := BIP32Hash SSL512 cc nChild (nth 0 vch 0) (tail (pubkey_data vch)) in
  let ccChild := drop 32 out in
  match secp256k1_ec_pubkey_parse (pubkey_data vch) with
  | None => mret (false, pubkeyChild, ccChild)
  | Some pubkey =>
    match secp256k1_ec_pubkey_tweak_add pubkey (take 32 out) with
    | None => mret (false, pubkeyChild, ccChild)
    | Some pubkey =>
      mret (true, pubkey_Set pubkeyChild (secp256k1_ec_pubkey_serialize true pubkey), ccChild)
    end
  end.

Section ids.
Context {SH : ScriptHashes}.

Definition ext_Derive (k : CExtKey) (n : Z) : outcome unit (bool * CExtKey) :=
  pubkey ← GetPubKey (ext_ k);
  let id := pubkey_GetID pubkey in
  '(ret, keyChild, ccChild) ← key_Derive (ext_ k) n (vchChainCode k);
  mret (ret, ExtKey ((nDepth k + 1) mod 256) (take 4 id) n ccChild keyChild).

Definition extpub_Derive (k out : CExtPubKey) (n : Z) : outcome unit (bool * CExtPubKey) :=
  let id := pubkey_GetID (ext_ k) in
  '(ret, pubkeyChild, ccChild) ← pubkey_Derive (ext_ k) (ext_ out) n (vchChainCode k);
  mret (ret, ExtKey ((nDepth k + 1) mod 256) (take 4 id) n ccChild pubkeyChild).
End ids.

Definition SetMaster (key : CKey) (seed : list Z) : CExtKey :=
  let ctx := HMAC_SHA512_Init SSL512 (cstr "Bitcoin seed") in
  let ctx := HMAC_SHA512_Update SSL512 ctx seed in
  let out := HMAC_SHA512_Final SSL512 ctx in
  ExtKey 0 (replicate 4 0) 0 (drop 32 out) (key_Set key (take 32 out) true).
End derive.

Definition Neuter (k : CExtKey) : outcome unit CExtPubKey :=
  pubkey ← GetPubKey (ext_ k);
  mret (ExtKey (nDepth k) (vchFingerprint k) (nChild k) (vchChainCode k) pubkey).

(** The bytes of [nChild] in [Encode] and [Decode]. *)
Definition encode_child (n : Z) : list Z :=
  [ (n >>: 24) &: 0xFF; (n >>: 16) &: 0xFF; (n >>: 8) &: 0xFF; (n >>: 0) &: 0xFF ].
Definition decode_child (code : list Z) : Z :=
  Z.lor (Z.lor (Z.lor (Z.shiftl (byte_at code 5) 24) (Z.shiftl (byte_at code 6) 16)) (Z.shiftl (byte_at code 7) 8))
    (byte_at code 8) mod 2 ^ 32.

Definition ext_Encode (k : CExtKey) : outcome unit (list Z) :=
  _ ← assert_that (key_size (ext_ k) =? 32);
  mret ([nDepth k] ++ vchFingerprint k ++ encode_child (nChild k) ++ vchChainCode k ++ [0] ++ key_vch (ext_ k)).

(** into an object whose key is [key] *)
Definition ext_Decode (key : CKey) (code : list Z) : CExtKey :=
  ExtKey (byte_at code 0) (take 4 (drop 1 code)) (decode_child code) (take 32 (drop 9 code))
    (key_Set key (take 32 (drop 42 code)) true).

Definition extpub_Encode (k : CExtPubKey) : outcome unit (list Z) :=
  _ ← assert_that (pubkey_size (ext_ k) =? 33);
  mret ([nDepth k] ++ vchFingerprint k ++ encode_child (nChild k) ++ vchChainCode k ++ take 33 (ext_ k)).

Definition extpub_Decode (pubkey : pubkey_bytes) (code : list Z) : CExtPubKey :=
  ExtKey (byte_at code 0) (take 4 (drop 1 code)) (decode_child code) (take 32 (drop 9 code))
    (pubkey_Set pubkey (take 33 (drop 41 code))).

(** The signature machinery of the interpreter and of the cache. *)
#[export] Instance secp_ecdsa : ECDSA := {
  pubkey_Verify key hash vchSig := CPubKey_Verify (CPubKey_make key) hash vchSig;
  pubkey_CheckLowS := CPubKey_CheckLowS;
}.
End secp.
