(* ===== verification/KeysProps.v ===== *)
(** * Keys: signing, encodings and derivation

    Over the documented behaviour of libsecp256k1 (the class
    [Secp256k1Laws]): public derivation of extended keys agrees with private
    derivation, signatures written by a key are read back and verified, and
    private keys survive their DER form. *)

From S2P Require Import Prelude Serialize HashStream HashWords Sha256 Sha512 Hasher Hash HashProps Interp InterpFacts Transaction SigHash Standard SigEncoding Der Keys.

Local Open Scope Z_scope.
Local Open Scope word_scope.

(** The value of big-endian bytes. *)
Definition be_value (l : list Z) : Z := le_decode (rev l).

(** ** What the code relies on of libsecp256k1 *)

Class Secp256k1Laws (SECP : Secp256k1) : Prop := {
  seckey_length k : secp256k1_ec_seckey_verify k = true -> length k = 32%nat;
  create_valid k : secp256k1_ec_seckey_verify k = true -> is_Some (secp256k1_ec_pubkey_create k);
  serialize_form c P : exists h d, secp256k1_ec_pubkey_serialize c P = h :: d /\
    if c then (h = 2 \/ h = 3) /\ length d = 32%nat else h = 4 /\ length d = 64%nat;
  parse_serialize c P : secp256k1_ec_pubkey_parse (secp256k1_ec_pubkey_serialize c P) = Some P;
  (** the tweak of the public key is that of the private one *)
  tweak_add k P t : secp256k1_ec_seckey_verify k = true -> secp256k1_ec_pubkey_create k = Some P ->
    length t = 32%nat ->
    match secp256k1_ec_privkey_tweak_add k t with
    | (true, k') => secp256k1_ec_seckey_verify k' = true /\
        secp256k1_ec_pubkey_tweak_add P t = secp256k1_ec_pubkey_create k'
    | (false, _) => secp256k1_ec_pubkey_tweak_add P t = None
    end;
  (** a signature is a pair of integers in DER, with low S *)
  sign_law k P hash e : secp256k1_ec_seckey_verify k = true -> secp256k1_ec_pubkey_create k = Some P ->
    exists sig r s, secp256k1_ecdsa_sign hash k e = Some sig /\
      bytes_ok r /\ bytes_ok s /\ der_positive r /\ der_positive s /\
      0 < be_value r < 2 ^ 256 /\ 0 < be_value s < 2 ^ 256 /\ zlen r <= 33 /\ zlen s <= 33 /\
      secp256k1_ecdsa_signature_serialize_der sig = der_sequence r s [] /\
      secp256k1_ecdsa_signature_parse_compact (be_encode 32 (be_value r) ++ be_encode 32 (be_value s)) = (true, sig) /\
      secp256k1_ecdsa_signature_normalize sig = (false, sig) /\
      secp256k1_ecdsa_verify sig hash P = true;
  recover_law k P hash : secp256k1_ec_seckey_verify k = true -> secp256k1_ec_pubkey_create k = Some P ->
    exists sig d rec, secp256k1_ecdsa_sign_recoverable hash k = Some sig /\
      secp256k1_ecdsa_recoverable_signature_serialize_compact sig = (d, rec) /\
      length d = 64%nat /\ 0 <= rec <= 3 /\
      secp256k1_ecdsa_recoverable_signature_parse_compact d rec = Some sig /\
      secp256k1_ecdsa_recover sig hash = Some P;
}.

(** ** Lax DER on DER *)

Lemma be_value_app l k : be_value (l ++ k) = be_value l * 256 ^ zlen k + be_value k.
Proof.
  unfold be_value. rewrite rev_app_distr. rewrite le_decode_app. unfold zlen. rewrite length_rev. lia.
Qed.

Lemma be_value_strip l : be_value (drop_while (fun b => b =? 0) l) = be_value l.
Proof.
  induction l as [|b l IH]; [done|]. cbn [drop_while]. destruct (Z.eqb_spec b 0) as [->|]; [|done].
  rewrite IH. change (0 :: l) with ([0] ++ l). rewrite be_value_app. change (be_value [0]) with 0. lia.
Qed.

Lemma be_encode_value l : bytes_ok l -> be_encode (length l) (be_value l) = l.
Proof.
  intros Hl. unfold be_encode, be_value. rewrite <-length_rev, le_encode_decode by (by apply Forall_rev).
  apply rev_involutive.
Qed.

Lemma be_value_bound l : bytes_ok l -> 0 <= be_value l < 256 ^ zlen l.
Proof.
  intros Hl. unfold be_value, zlen. rewrite <-length_rev. apply le_decode_bound. by apply Forall_rev.
Qed.

(** The 32 bytes of an integer that fits. *)
Lemma lax_copy_value r :
  bytes_ok r -> be_value r < 2 ^ 256 -> lax_copy r = Some (be_encode 32 (be_value r)).
Proof.
  intros Hr Hlt. unfold lax_copy.
  pose proof (drop_while_stops (fun b => b =? 0) r) as Hst.
  rewrite <-be_value_strip in *. destruct (drop_while_split (fun b => b =? 0) r) as [E _].
  rewrite E in Hr. apply Forall_app in Hr as [_ Hr].
  set (d := drop_while (fun b => b =? 0) r) in *.
  assert (zlen d <= 32) as Hlen.
  { destruct d as [|b d]; [unfold zlen; cbn; lia|]. cbn [stops] in Hst. apply Z.eqb_neq in Hst.
    apply Forall_cons in Hr as [Hb Hd]. unfold byte_ok in Hb.
    change (b :: d) with ([b] ++ d) in Hlt. rewrite be_value_app in Hlt. change (be_value [b]) with (b + 256 * 0) in Hlt.
    pose proof (be_value_bound d Hd). rewrite zlen_cons.
    destruct (Z.le_gt_cases (1 + zlen d) 32) as [|Hgt]; [done|exfalso].
    assert (256 ^ 32 <= 256 ^ zlen d) by (apply Z.pow_le_mono_r; lia).
    change (256 ^ 32) with (2 ^ 256) in *. nia. }
  destruct (Z.ltb_spec 32 (zlen d)); [lia|]. f_equal.
  unfold be_encode, be_value. unfold zlen in Hlen.
  replace 32%nat with (length d + (32 - length d))%nat at 2 by lia.
  rewrite le_encode_high.
  - rewrite rev_app_distr, (rev_alt (replicate _ _)). change (rev_append ?l []) with (reverse l). rewrite reverse_replicate. f_equal. symmetry.
    rewrite <-(length_rev d), le_encode_decode by (by apply Forall_rev). apply rev_involutive.
  - pose proof (be_value_bound d Hr) as Hbd. unfold be_value, zlen in Hbd. done.
Qed.

Lemma land_0x80 n : 0 <= n < 128 -> (n &: 0x80) = 0.
Proof.
  intros Hn. apply Z.bits_inj'. intros i Hi. rewrite Z.land_spec, Z.bits_0.
  destruct (decide (i = 7)) as [->|Hi7].
  - rewrite (Z.bits_above_log2 n 7); [done|lia|]. destruct (decide (n = 0)) as [->|]; [done|].
    apply Z.log2_lt_pow2; lia.
  - change 0x80 with (2 ^ 7). rewrite Z.pow2_bits_false by done. by rewrite andb_false_r.
Qed.

Lemma lax_length_short n input : 0 <= n < 128 -> lax_length (n :: input) = Some (n, input).
Proof. intros Hn. unfold lax_length. by rewrite land_0x80. Qed.

Lemma lax_integer_short r input :
  zlen r < 128 -> lax_integer ([0x02; zlen r] ++ r ++ input) = Some (r, input).
Proof.
  intros Hr. cbn [app]. unfold lax_integer. rewrite lax_length_short by (by auto).
  cbn [mbind option_bind Z.eqb negb Pos.eqb]. rewrite zlen_app.
  destruct (Z.ltb_spec (zlen r + zlen input) (zlen r)) as [H|_]; [pose proof (zlen_nonneg input); lia|].
  unfold zlen. by rewrite Nat2Z.id, take_app_length, drop_app_length.
Qed.

Section laws.
Context {SECP : Secp256k1}.

(** The lax parser on a DER signature: the two integers. *)
Lemma parse_der_lax_sequence r s tail :
  bytes_ok r -> bytes_ok s -> zlen r + zlen s + 4 < 128 -> be_value r < 2 ^ 256 -> be_value s < 2 ^ 256 ->
  ecdsa_signature_parse_der_lax (der_sequence r s tail) =
    match secp256k1_ecdsa_signature_parse_compact (be_encode 32 (be_value r) ++ be_encode 32 (be_value s)) with
    | (true, sig) => Some sig
    | (false, _) => Some (snd (secp256k1_ecdsa_signature_parse_compact (replicate 64 0)))
    end.
Proof.
  intros Hr Hs Hlen Hrv Hsv. unfold ecdsa_signature_parse_der_lax, der_sequence. cbn [app].
  pose proof (zlen_nonneg r). pose proof (zlen_nonneg s).
  rewrite land_0x80 by lia.
  cbn [Z.eqb negb Pos.eqb mbind option_bind].
  change (2 :: zlen r :: r ++ 2 :: zlen s :: s ++ tail) with ([2; zlen r] ++ r ++ [2; zlen s] ++ s ++ tail).
  rewrite !lax_integer_short by lia. cbn [mbind option_bind]. rewrite lax_integer_short by lia.
  cbn [mbind option_bind]. rewrite !lax_copy_value by done. by destruct (secp256k1_ecdsa_signature_parse_compact (_ ++ _)) as [[] ?].
Qed.

Context {Laws : Secp256k1Laws SECP}.

(** ** Public keys *)

(** The array holds the bytes [pub] of a key. *)
Definition holds (vch : pubkey_bytes) (pub : list Z) : Prop :=
  exists rest, vch = pub ++ rest /\ pubkey_size vch = zlen pub.

Lemma holds_data vch pub : holds vch pub -> pubkey_data vch = pub.
Proof.
  intros (rest & -> & Hsz). unfold pubkey_data. rewrite Hsz. unfold zlen. by rewrite Nat2Z.id, take_app_length.
Qed.

Lemma serialize_size c P : zlen (secp256k1_ec_pubkey_serialize c P) = if c then 33 else 65.
Proof. destruct (serialize_form c P) as (h & d & -> & H). rewrite zlen_cons. unfold zlen. destruct c; lia. Qed.

Lemma serialize_holds c P rest : holds (secp256k1_ec_pubkey_serialize c P ++ rest) (secp256k1_ec_pubkey_serialize c P).
Proof.
  exists rest. split; [done|]. rewrite serialize_size. unfold pubkey_size.
  destruct (serialize_form c P) as (h & d & -> & H). cbn [app nth]. destruct c.
  - by destruct H as [[->| ->] _].
  - by destruct H as [-> _].
Qed.

Lemma pubkey_Set_holds vch pub : pubkey_size pub = zlen pub -> 0 < zlen pub ->
  pubkey_Set vch pub = pub ++ drop (length pub) vch /\ holds (pubkey_Set vch pub) pub.
Proof.
  intros Hsz Hpos. unfold pubkey_Set. destruct pub as [|h d]; [done|].
  unfold pubkey_size in Hsz. cbn [nth] in Hsz. rewrite Hsz, Z.eqb_refl.
  destruct (Z.eqb_spec (zlen (h :: d)) 0); [lia|]. cbn [negb andb]. split; [done|].
  exists (drop (length (h :: d)) vch). by split.
Qed.

Lemma pubkey_Set_serialize vch c P :
  holds (pubkey_Set vch (secp256k1_ec_pubkey_serialize c P)) (secp256k1_ec_pubkey_serialize c P).
Proof.
  pose proof (serialize_holds c P []) as (rest & E & Hsz). rewrite app_nil_r in E, Hsz.
  apply pubkey_Set_holds; [done|]. rewrite serialize_size. by destruct c.
Qed.

(** [CPubKey_make] holds what [CPubKey_of] accepts. *)
Lemma CPubKey_make_data v : pubkey_data (CPubKey_make v) = default [] (CPubKey_of v).
Proof.
  unfold CPubKey_make, pubkey_Set, CPubKey_of. destruct v as [|h d]; [done|].
  destruct (negb (CPubKey_GetLen h =? 0) && (CPubKey_GetLen h =? zlen (h :: d))) eqn:E; [|done].
  apply andb_prop in E as [E0 E]. apply Z.eqb_eq in E.
  apply (holds_data _ (h :: d)). by exists (drop (length (h :: d)) (uninitialised 65)).
Qed.

(** ** Private keys *)

(** [fValid] corresponds to the actual state. *)
Definition key_ok (k : CKey) : Prop := fValid k = true -> secp256k1_ec_seckey_verify (key_vch k) = true.

(** A valid key is that of the point [P]. *)
Definition key_of (k : CKey) (P : secp256k1_pubkey) : Prop :=
  fValid k = true /\ secp256k1_ec_seckey_verify (key_vch k) = true /\
  secp256k1_ec_pubkey_create (key_vch k) = Some P.

Lemma key_of_exists k : key_ok k -> fValid k = true -> exists P, key_of k P.
Proof. intros Hok Hv. destruct (create_valid (key_vch k) (Hok Hv)) as [P HP]. exists P. split_and!; auto. Qed.

Lemma GetPubKey_spec k P : key_of k P ->
  exists pub, GetPubKey k = Ok pub /\ holds pub (secp256k1_ec_pubkey_serialize (fCompressed k) P).
Proof.
  intros (Hv & Hs & HP). unfold GetPubKey. rewrite Hv, HP. cbn [assert_that mbind outcome_bind].
  pose proof (serialize_holds (fCompressed k) P
    (drop (length (secp256k1_ec_pubkey_serialize (fCompressed k) P)) CPubKey_new)) as Hh.
  destruct Hh as (rest & E & Hsz). rewrite Hsz, Z.eqb_refl. cbn [assert_that mbind outcome_bind].
  unfold pubkey_IsValid. rewrite Hsz, serialize_size. destruct (fCompressed k) eqn:Hc; cbn;
  (eexists; split; [done|]); eexists; split; try done; by rewrite Hsz.
Qed.

(** ** Encodings *)

Lemma decode_encode_child n : 0 <= n < 2 ^ 32 -> encode_child n = be_encode 4 n.
Proof.
  intros Hn. unfold encode_child. rewrite !land_ff, !Z.shiftr_div_pow2 by lia.
  unfold be_encode. cbn [le_encode rev app].
  change (2 ^ 0) with 1. by rewrite Z.div_1_r, !Z.div_div by lia.
Qed.

(** The reader on the fields it looks at, with a length of one or two bytes. *)
Lemma import_parse_body k rest (len : Z) :
  length k = 32%nat -> len <= 37 + zlen rest ->
  match [0x02; 0x01; 0x01; 0x04; 0x20] ++ k ++ rest with
  | v0 :: v1 :: v2 :: e0 :: e1 :: privkey =>
    (zlen ([0x02; 0x01; 0x01; 0x04; 0x20] ++ k ++ rest) <? len) = false /\
    (zlen privkey <? e1) = false /\ replicate (32 - Z.to_nat e1) 0 ++ take (Z.to_nat e1) privkey = k
  | _ => False
  end.
Proof.
  intros Hk Hlen. cbn [app]. split_and!.
  - apply Z.ltb_ge. rewrite !zlen_cons, zlen_app. unfold zlen at 1. lia.
  - apply Z.ltb_ge. rewrite zlen_app. unfold zlen at 1. pose proof (zlen_nonneg rest). lia.
  - change (Z.to_nat 0x20) with 32%nat. rewrite <-Hk, Nat.sub_diag. cbn [replicate app]. apply take_app_length.
Qed.

Lemma import_parse_1 a k rest : length k = 32%nat -> a <= 37 + zlen rest ->
  ec_privkey_import_parse ([0x30; 0x81; a; 0x02; 0x01; 0x01; 0x04; 0x20] ++ k ++ rest) = Some k.
Proof.
  intros Hk Ha. destruct (import_parse_body k rest a Hk Ha) as (H1 & H2 & H3). cbn [app] in *.
  unfold ec_privkey_import_parse. change ((0x81 &: 0x80) =? 0) with false. change (0x81 &: Z.lnot 0x80) with 1.
  cbn [negb orb Z.eqb Z.ltb Z.compare Pos.eqb Pos.compare Pos.compare_cont Z.sub Z.opp Z.add Z.pos_sub].
  rewrite zlen_cons. destruct (Z.ltb_spec (1 + zlen (2 :: 1 :: 1 :: 4 :: 32 :: k ++ rest)) 1) as [Hlt|_].
  { pose proof (zlen_nonneg (2 :: 1 :: 1 :: 4 :: 32 :: k ++ rest)). lia. }
  change (Z.to_nat 1) with 1%nat. cbn [drop]. rewrite Z.lor_0_r.
  change (1 - 1) with 0.
  change (byte_at (a :: 2 :: 1 :: 1 :: 4 :: 32 :: k ++ rest) 0) with a.
  rewrite H1, H2, H3. done.
Qed.

Lemma import_parse_2 b a k rest : length k = 32%nat -> Z.lor a (Z.shiftl b 8) <= 37 + zlen rest ->
  ec_privkey_import_parse ([0x30; 0x82; b; a; 0x02; 0x01; 0x01; 0x04; 0x20] ++ k ++ rest) = Some k.
Proof.
  intros Hk Ha. destruct (import_parse_body k rest _ Hk Ha) as (H1 & H2 & H3). cbn [app] in *.
  unfold ec_privkey_import_parse. change ((0x82 &: 0x80) =? 0) with false. change (0x82 &: Z.lnot 0x80) with 2.
  cbn [negb orb Z.eqb Z.ltb Z.compare Pos.eqb Pos.compare Pos.compare_cont].
  rewrite !zlen_cons. destruct (Z.ltb_spec (1 + (1 + (1 + (1 + (1 + (1 + (1 + zlen (k ++ rest)))))))) 2) as [Hlt|_].
  { pose proof (zlen_nonneg (k ++ rest)). lia. }
  change (Z.to_nat 2) with 2%nat. cbn [drop].
  change (byte_at (b :: a :: 2 :: 1 :: 1 :: 4 :: 32 :: k ++ rest) (2 - 1)) with a.
  change (byte_at (b :: a :: 2 :: 1 :: 1 :: 4 :: 32 :: k ++ rest) (2 - 2)) with b.
  rewrite H1, H2, H3. done.
Qed.

(** [ec_privkey_import_der] reads what [ec_privkey_export_der] wrote. *)
Lemma import_export k P c :
  secp256k1_ec_seckey_verify k = true -> secp256k1_ec_pubkey_create k = Some P ->
  exists d, ec_privkey_export_der k c = Some d /\ ec_privkey_import_der d = (true, k) /\
    (c <> 0 -> take 3 d = [0x30; 0x81; 0xD3] /\ zlen d = 214).
Proof.
  intros Hk HP. unfold ec_privkey_export_der. rewrite HP. cbn [mbind option_bind].
  eexists. split; [done|]. pose proof (seckey_length k Hk) as Hlen. split.
  - unfold ec_privkey_import_der. pose proof (serialize_size (negb (c =? 0)) P) as Hsz.
    destruct (negb (c =? 0)); [rewrite import_parse_1|rewrite import_parse_2]; try done; try by rewrite Hk.
    all: rewrite !zlen_app, Hsz; vm_compute; done.
  - intros Hc. assert ((c =? 0) = false) as -> by lia. cbn [negb]. split; [done|].
    rewrite !zlen_app, serialize_size. unfold zlen at 2. rewrite Hlen. by vm_compute.
Qed.

Lemma lor_bytes a b c d : byte_ok a -> byte_ok b -> byte_ok c -> byte_ok d ->
  Z.lor (Z.lor (Z.lor (Z.shiftl a 24) (Z.shiftl b 16)) (Z.shiftl c 8)) d = le_decode [d; c; b; a].
Proof.
  unfold byte_ok. intros Ha Hb Hc Hd.
  rewrite (Z.lor_comm _ d), (Z.lor_comm _ (Z.shiftl c 8)), (Z.lor_comm (Z.shiftl a 24)), !Z.lor_assoc.
  rewrite (lor_shiftl_add d), (lor_shiftl_add (d + _)), (lor_shiftl_add (d + _ + _)) by lia. cbn [le_decode]. lia.
Qed.

(** [Decode] of 74 bytes laid out as [Encode] does. *)
Lemma decode_fields d fp n cc tl : length fp = 4%nat -> 0 <= n < 2 ^ 32 -> length cc = 32%nat ->
  let code := [d] ++ fp ++ encode_child n ++ cc ++ tl in
  byte_at code 0 = d /\ take 4 (drop 1 code) = fp /\ decode_child code = n /\
  take 32 (drop 9 code) = cc /\ drop 41 code = tl.
Proof.
  intros Hfp Hn Hcc. cbv zeta.
  assert (length (encode_child n) = 4%nat) as Hel by done.
  assert (forall i, drop (5 + i) ([d] ++ fp ++ encode_child n ++ cc ++ tl) = drop i (encode_child n ++ cc ++ tl)) as Hd5.
  { intros i. rewrite <-drop_drop. f_equal. rewrite app_assoc.
    rewrite (drop_app_length' ([d] ++ fp)); [done|cbn; lia]. }
  split_and!.
  - done.
  - cbn [app drop]. by apply take_app_length'.
  - unfold decode_child, byte_at.
    assert (forall i, (i < 4)%nat -> nth (5 + i) ([d] ++ fp ++ encode_child n ++ cc ++ tl) 0 = nth i (encode_child n) 0) as Hnth.
    { intros i Hi. rewrite app_assoc, app_nth2 by (cbn; lia). rewrite app_nth1 by (cbn; lia). f_equal. cbn. lia. }
    change (Z.to_nat 5) with (5 + 0)%nat. change (Z.to_nat 6) with (5 + 1)%nat.
    change (Z.to_nat 7) with (5 + 2)%nat. change (Z.to_nat 8) with (5 + 3)%nat.
    rewrite !Hnth by lia. unfold encode_child. cbn [nth]. rewrite !land_ff, !Z.shiftr_div_pow2 by lia.
    rewrite lor_bytes by (apply Z.mod_pos_bound; lia).
    rewrite <-(le_decode_encode_small 4 n) at 5 by done. rewrite Z.mod_small.
    + cbn [le_encode]. change (2 ^ 0) with 1. by rewrite Z.div_1_r, !Z.div_div by lia.
    + change (2 ^ 32) with (256 ^ 4). apply (le_decode_bound [_; _; _; _]).
      repeat constructor; apply Z.mod_pos_bound; lia.
  - pose proof (Hd5 4%nat) as E. cbn [Nat.add] in E. rewrite E, drop_app_length' by done. by apply take_app_length'.
  - pose proof (Hd5 36%nat) as E. cbn [Nat.add] in E. rewrite E, app_assoc. apply drop_app_length'. rewrite length_app. lia.
Qed.

(** ** Signing *)

Lemma sign_facts k P hash e : key_of k P ->
  exists d, key_Sign k hash e = Ok d /\ bytes_ok d /\
    (exists r s, d = der_sequence r s [] /\ der_positive r /\ der_positive s) /\ zlen d <= 72 /\
    CPubKey_CheckLowS d = true /\
    forall pub c, holds pub (secp256k1_ec_pubkey_serialize c P) -> CPubKey_Verify pub hash d = true.
Proof.
  intros (Hv & Hs & HP). unfold key_Sign. rewrite Hv. cbn [negb].
  destruct (sign_law (key_vch k) P hash (if e =? 0 then None else Some (WriteLE32 e ++ replicate 28 0)) Hs HP)
    as (sig & r & s & -> & Hr & Hs' & Hrp & Hsp & Hrv & Hsv & Hrl & Hsl & Hder & Hparse & Hnorm & Hver).
  rewrite Hder. eexists. split; [done|].
  pose proof (zlen_nonneg r). pose proof (zlen_nonneg s).
  assert (ecdsa_signature_parse_der_lax (der_sequence r s []) = Some sig) as Hlax.
  { rewrite parse_der_lax_sequence by (done || lia). by rewrite Hparse. }
  split_and!.
  - unfold der_sequence. rewrite app_nil_r. repeat (apply Forall_app_2 || constructor); unfold byte_ok; (done || lia).
  - by exists r, s.
  - rewrite zlen_der_sequence. change (zlen (@nil Z)) with 0. lia.
  - unfold CPubKey_CheckLowS. by rewrite Hlax, Hnorm.
  - intros pub c Hh. pose proof (holds_data _ _ Hh) as Hd. unfold CPubKey_Verify, pubkey_IsValid.
    rewrite Hd, parse_serialize, Hlax, Hnorm. destruct Hh as (rest & _ & Hsz).
    rewrite Hsz, serialize_size, zlen_der_sequence. change (zlen (@nil Z)) with 0.
    destruct (Z.eqb_spec (zlen r + zlen s + 0 + 6) 0); [lia|]. by destruct c.
Qed.

Lemma SignCompact_spec k P hash vch : key_of k P ->
  exists d, SignCompact k hash = Ok d /\ length d = 65%nat /\
    RecoverCompact vch hash d = (true, pubkey_Set vch (secp256k1_ec_pubkey_serialize (fCompressed k) P)).
Proof.
  intros (Hv & Hs & HP). unfold SignCompact. rewrite Hv. cbn [negb].
  destruct (recover_law (key_vch k) P hash Hs HP) as (sig & d & rec & -> & Hser & Hlen & Hrec & Hparse & Hrcv).
  rewrite Hser. destruct (Z.eqb_spec rec (-1)); [lia|]. cbn [negb assert_that mbind outcome_bind mret outcome_ret].
  eexists. split; [done|]. split; [cbn; by rewrite Hlen|].
  unfold RecoverCompact. rewrite zlen_cons. unfold zlen. rewrite Hlen. cbn [Z.of_nat negb nth tail].
  assert (((27 + rec + (if fCompressed k then 4 else 0)) mod 256 - 27) &: 3 = rec /\
          negb (((27 + rec + (if fCompressed k then 4 else 0)) mod 256 - 27) &: 4 =? 0) = fCompressed k) as [-> ->].
  { assert (rec = 0 \/ rec = 1 \/ rec = 2 \/ rec = 3) as [->|[->|[->| ->]]] by lia; by destruct (fCompressed k). }
  by rewrite Hparse, Hrcv.
Qed.

(** C11: what a valid key signs verifies.  Its public key can be computed; the
    signature of any hash, followed by a hash type, is strict DER, with low S
    and at most 72 bytes; it is read back by the lax parser and verifies under the public key; a compact
    signature recovers that public key; the private key written to DER is
    loaded again as the same key and passes the check of the pair.  What is
    written is the structure of 214 bytes with the compressed public key, also
    for a key that is not compressed. *)
Theorem key_signatures_verify (k k0 : CKey) hash e rnd vch ht (Hok : key_ok k) (Hv : fValid k = true) (Hht : byte_ok ht) :
  exists pub d c der, GetPubKey k = Ok pub /\
    key_Sign k hash e = Ok d /\ IsDERSignature (d ++ [ht]) true = true /\ zlen d <= 72 /\ CPubKey_CheckLowS d = true /\
    CPubKey_Verify pub hash d = true /\
    SignCompact k hash = Ok c /\ (RecoverCompact vch hash c).1 = true /\
      pubkey_data (RecoverCompact vch hash c).2 = pubkey_data pub /\
    VerifyPubKey k rnd pub = Ok true /\
    GetPrivKey k = Ok der /\ key_Load k0 rnd der pub false = Ok (true, k) /\
    take 3 der = [0x30; 0x81; 0xD3] /\ zlen der = 214.
Proof.
  destruct (key_of_exists k Hok Hv) as [P HP].
  destruct (GetPubKey_spec k P HP) as (pub & Epub & Hpub).
  destruct (sign_facts k P hash e HP) as (d & Ed & Hd & (r & s & Eds & Hr & Hs) & Hlen & Hlow & Hver).
  destruct (SignCompact_spec k P hash vch HP) as (c & Ec & _ & Erec).
  destruct (import_export (key_vch k) P (if fCompressed k then SECP256K1_EC_COMPRESSED else SECP256K1_EC_UNCOMPRESSED))
    as (der & Ex & Im & Hder); [apply HP..|].
  assert (forall k1, k1 = k -> VerifyPubKey k1 rnd pub = Ok true) as HV.
  { intros k1 ->. unfold VerifyPubKey, pubkey_IsCompressed.
    assert (pubkey_size pub = if fCompressed k then 33 else 65) as ->.
    { destruct Hpub as (rest & _ & ->). apply serialize_size. }
    assert (eqb ((if fCompressed k then 33 else 65) =? 33) (fCompressed k) = true) as -> by (by destruct (fCompressed k)).
    destruct (sign_facts k P (verification_hash rnd) 0 HP) as (d' & -> & _ & _ & _ & _ & Hver').
    cbn [negb]. by rewrite (Hver' pub (fCompressed k)). }
  exists pub, d, c, der. split_and!; try done.
  - assert (d ++ [ht] = der_sequence r s [ht]) as Ed'.
    { rewrite Eds. unfold der_sequence. by rewrite !app_nil_r, <-!app_assoc. }
    apply IsDERSignature_spec; [by apply Forall_app_2; [|apply Forall_singleton]|].
    exists r, s, [ht]. split_and!; try done; rewrite Ed', zlen_der_sequence;
      rewrite Eds, zlen_der_sequence in Hlen; change (zlen (@nil Z)) with 0 in *; change (zlen [ht]) with 1.
    + destruct Hr as (? & ? & -> & _), Hs as (? & ? & -> & _). rewrite !zlen_cons.
      pose proof (zlen_nonneg x0). pose proof (zlen_nonneg x2). lia.
    + lia.
  - by apply (Hver _ (fCompressed k)).
  - by rewrite Erec.
  - rewrite Erec. cbn [snd]. rewrite (holds_data _ _ Hpub). apply holds_data, pubkey_Set_serialize.
  - by apply HV.
  - unfold GetPrivKey. rewrite Hv. cbn [assert_that mbind outcome_bind]. by rewrite Ex.
  - unfold key_Load. rewrite Im. 
    assert ({| fValid := true; fCompressed := pubkey_IsCompressed pub; key_vch := key_vch k |} = k) as ->.
    { unfold pubkey_IsCompressed. destruct Hpub as (rest & _ & ->). rewrite serialize_size.
      destruct k as [v c0 kv]. cbn in *. subst v. by destruct c0. }
    by rewrite HV.
  - apply Hder. by destruct (fCompressed k).
  - apply Hder. by destruct (fCompressed k).
Qed.

(** ** Derivation *)

Context {SH : ScriptHashes} (SSL512 : StreamHash) {SSLLaws : StreamHashLaws SSL512}
  (Hout : sh_out (StreamHash := SSL512) = 64%nat).

Lemma BIP32Hash_length cc n h d :
  length cc = 32%nat -> length d = 32%nat -> 0 <= n < 2 ^ 32 -> length (BIP32Hash SSL512 cc n h d) = 64%nat.
Proof.
  intros Hcc Hd Hn. rewrite (BIP32Hash_spec SSL512) by (unfold zlen; lia). unfold hmac. by rewrite sh_hash_length.
Qed.

Lemma holds_head vch pub : holds vch pub -> pub <> [] -> nth 0 vch 0 = nth 0 pub 0.
Proof. intros (rest & -> & _). by destruct pub. Qed.

(** [CKey::Derive] on a valid compressed key. *)
Lemma key_Derive_spec k P n cc :
  key_of k P -> fCompressed k = true -> length cc = 32%nat -> 0 <= n < 2 ^ 32 ->
  exists out, length out = 64%nat /\
    (n < 2 ^ 31 -> out = BIP32Hash SSL512 cc n (nth 0 (secp256k1_ec_pubkey_serialize true P) 0)
                           (tail (secp256k1_ec_pubkey_serialize true P))) /\
    key_Derive SSL512 k n cc =
      let '(ret, vch) := secp256k1_ec_privkey_tweak_add (key_vch k) (take 32 out) in
      Ok (ret, {| fValid := ret; fCompressed := true; key_vch := vch |}, drop 32 out).
Proof.
  intros Hk Hc Hcc Hn. destruct (GetPubKey_spec k P Hk) as (pub & Epub & Hpub).
  destruct Hk as (Hv & Hs & HP). rewrite Hc in Hpub.
  destruct (serialize_form true P) as (h & d & Ed & [_ Hd]).
  unfold key_Derive. rewrite Hv, Hc. cbn [assert_that mbind outcome_bind].
  destruct (Z.eqb_spec (n >>: 31) 0) as [H31|H31]; rewrite Z.shiftr_div_pow2 in H31 by lia.
  - eexists. split_and!; [|done|].
    + rewrite Ed. apply BIP32Hash_length; done.
    + rewrite Epub. cbn [mbind outcome_bind].
      rewrite (holds_data _ _ Hpub). destruct Hpub as (rest & -> & Hsz). rewrite Hsz, serialize_size.
      cbn [assert_that Z.eqb Pos.eqb mbind outcome_bind]. rewrite Ed. cbn [app nth tail mbind outcome_bind mret outcome_ret].
      by destruct (secp256k1_ec_privkey_tweak_add _ _).
  - exists (BIP32Hash SSL512 cc n 0 (key_vch k)). split_and!.
    + apply BIP32Hash_length; [done|by apply seckey_length|done].
    + intros Hlt. exfalso. apply H31. apply Z.div_small. lia.
    + unfold key_size. rewrite Hv. cbn [assert_that Z.eqb Pos.eqb mbind outcome_bind mret outcome_ret].
      by destruct (secp256k1_ec_privkey_tweak_add _ _).
Qed.

(** [CPubKey::Derive] on the bytes of a point. *)
Lemma pubkey_Derive_spec vch P child n cc :
  holds vch (secp256k1_ec_pubkey_serialize true P) -> 0 <= n < 2 ^ 31 ->
  pubkey_Derive SSL512 vch child n cc =
    let out := BIP32Hash SSL512 cc n (nth 0 (secp256k1_ec_pubkey_serialize true P) 0)
                 (tail (secp256k1_ec_pubkey_serialize true P)) in
    match secp256k1_ec_pubkey_tweak_add P (take 32 out) with
    | None => Ok (false, child, drop 32 out)
    | Some P' => Ok (true, pubkey_Set child (secp256k1_ec_pubkey_serialize true P'), drop 32 out)
    end.
Proof.
  intros Hh Hn. pose proof (holds_data _ _ Hh) as Hdata. unfold pubkey_Derive, pubkey_IsValid.
  rewrite Hdata, (holds_head _ _ Hh) by (by destruct (serialize_form true P) as (? & ? & -> & _)).
  destruct Hh as (rest & E & Hsz). rewrite Hsz, serialize_size.
  rewrite Z.shiftr_div_pow2, Z.div_small by lia. cbn [assert_that Z.eqb Z.ltb Z.compare Pos.eqb mbind outcome_bind].
  by rewrite parse_serialize.
Qed.

(** Equal extended public keys: their unused bytes do not matter. *)
Definition extpub_eq (a b : CExtPubKey) : Prop :=
  nDepth a = nDepth b /\ vchFingerprint a = vchFingerprint b /\ nChild a = nChild b /\
  vchChainCode a = vchChainCode b /\ pubkey_data (ext_ a) = pubkey_data (ext_ b).

(** An extended private key that can be derived from. *)
Definition ext_ok (k : CExtKey) : Prop :=
  key_ok (ext_ k) /\ fValid (ext_ k) = true /\ fCompressed (ext_ k) = true /\ length (vchChainCode k) = 32%nat.

Lemma Neuter_spec k : ext_ok k -> exists K P, Neuter k = Ok K /\ key_of (ext_ k) P /\
  nDepth K = nDepth k /\ vchFingerprint K = vchFingerprint k /\ nChild K = nChild k /\
  vchChainCode K = vchChainCode k /\ holds (ext_ K) (secp256k1_ec_pubkey_serialize true P).
Proof.
  intros (Hok & Hv & Hc & _). destruct (key_of_exists _ Hok Hv) as [P HP].
  destruct (GetPubKey_spec _ P HP) as (pub & Epub & Hpub). rewrite Hc in Hpub.
  unfold Neuter. rewrite Epub. cbn [mbind outcome_bind mret outcome_ret].
  by exists (ExtKey (nDepth k) (vchFingerprint k) (nChild k) (vchChainCode k) pub), P.
Qed.

(** C10: deriving extended keys (BIP 32).  From a valid extended private key
    every derivation returns; a hardened child cannot be derived from the
    public key (the assertion fails), and for every other child public
    derivation does what private derivation does: both fail, or the child
    private key is valid and its public key is the child public key. *)
Theorem BIP32_derivation (k : CExtKey) (out : CExtPubKey) n (Hk : ext_ok k) (Hn : 0 <= n < 2 ^ 32) :
  exists K b k', Neuter k = Ok K /\ ext_Derive SSL512 k n = Ok (b, k') /\
    (b = true -> ext_ok k') /\
    if 2 ^ 31 <=? n then extpub_Derive SSL512 K out n = Crash
    else exists K', extpub_Derive SSL512 K out n = Ok (b, K') /\
      if b then exists N, Neuter k' = Ok N /\ extpub_eq N K' else fValid (ext_ k') = false.
Proof.
  destruct (Neuter_spec k Hk) as (K & P & EK & HP & EKd & _ & _ & EKcc & HKh).
  destruct Hk as (Hok & Hv & Hc & Hcc).
  destruct (GetPubKey_spec _ P HP) as (pub & Epub & Hpub). rewrite Hc in Hpub.
  destruct (key_Derive_spec _ P n (vchChainCode k) HP Hc Hcc Hn) as (o & Ho & Hsoft & Ed).
  pose proof (tweak_add (key_vch (ext_ k)) P (take 32 o) ltac:(apply HP) ltac:(apply HP)
    ltac:(rewrite length_take; lia)) as Ht.
  exists K. unfold ext_Derive. rewrite Epub. cbn [mbind outcome_bind]. rewrite Ed.
  destruct (secp256k1_ec_privkey_tweak_add (key_vch (ext_ k)) (take 32 o)) as [b vch].
  cbn [mbind outcome_bind mret outcome_ret]. eexists b, _. split_and!; [done|done| |].
  - intros ->. destruct Ht as [Ht _]. split_and!; [by intros _|reflexivity|reflexivity|].
    change (length (drop 32 o) = 32%nat). rewrite length_drop. lia.
  - destruct (Z.leb_spec (2 ^ 31) n) as [H31|H31].
    + unfold extpub_Derive, pubkey_Derive, pubkey_IsValid.
      destruct HKh as (rest & E & Hsz). rewrite Hsz, serialize_size.
      assert ((n >>: 31 =? 0) = false) as ->; [|done].
      apply Z.eqb_neq. rewrite Z.shiftr_div_pow2 by lia. intros E0.
      pose proof (Z.div_str_pos n (2 ^ 31) ltac:(lia)). lia.
    + unfold extpub_Derive. rewrite (pubkey_Derive_spec _ P) by (done || lia).
      cbv zeta. rewrite EKcc, <-Hsoft by done.
      destruct b; cbn [mbind outcome_bind mret outcome_ret].
      * destruct Ht as [Hs' ->]. destruct (create_valid vch Hs') as [P' HP']. rewrite HP'.
        eexists. split; [done|].
        destruct (GetPubKey_spec {| fValid := true; fCompressed := true; key_vch := vch |} P') as (pub' & E' & H');
          [done|].
        unfold Neuter. cbn [ext_]. rewrite E'. eexists. split; [done|].
        split_and!; cbn [nDepth vchFingerprint nChild vchChainCode ext_]; try done.
        { by rewrite EKd. }
        { unfold pubkey_GetID. by rewrite (holds_data _ _ Hpub), (holds_data _ _ HKh). }
        rewrite (holds_data _ _ H'). symmetry. apply holds_data, pubkey_Set_serialize.
      * rewrite Ht. by eexists.
Qed.

End laws.

(** ** A library that satisfies the laws *)

(** The group of integers modulo 127, a key its own public key. *)
Definition toy_verify (k : list Z) : bool :=
  bool_decide (k = replicate 31 0 ++ [nth 31 k 0]) && (0 <? nth 31 k 0) && (nth 31 k 0 <? 127).

Definition toy_secp : Secp256k1 := {|
  secp256k1_pubkey := Z;
  secp256k1_ecdsa_signature := Z * Z;
  secp256k1_ecdsa_recoverable_signature := Z;
  secp256k1_ec_seckey_verify := toy_verify;
  secp256k1_ec_pubkey_create k := if toy_verify k then Some (nth 31 k 0) else None;
  secp256k1_ec_pubkey_serialize c P := if c then 2 :: replicate 31 0 ++ [P] else 4 :: replicate 63 0 ++ [P];
  secp256k1_ec_pubkey_parse l :=
    match l with
    | h :: d => if h =? 2 then Some (nth 31 d 0) else if h =? 4 then Some (nth 63 d 0) else None
    | [] => None
    end;
  secp256k1_ec_privkey_tweak_add k t :=
    let v := (nth 31 k 0 + be_value t) mod 127 in
    if v =? 0 then (false, replicate 32 0) else (true, replicate 31 0 ++ [v]);
  secp256k1_ec_pubkey_tweak_add P t :=
    let v := (P + be_value t) mod 127 in if v =? 0 then None else Some v;
  secp256k1_ecdsa_sign hash k e := Some (nth 31 k 0, 1);
  secp256k1_ecdsa_signature_serialize_der sig := der_sequence [sig.1] [sig.2] [];
  secp256k1_ecdsa_signature_parse_compact l := (true, (be_value (take 32 l), be_value (drop 32 l)));
  secp256k1_ecdsa_signature_normalize sig := (false, sig);
  secp256k1_ecdsa_verify sig hash P := sig.1 =? P;
  secp256k1_ecdsa_sign_recoverable hash k := Some (nth 31 k 0);
  secp256k1_ecdsa_recoverable_signature_serialize_compact sig := (replicate 63 0 ++ [sig], 0);
  secp256k1_ecdsa_recoverable_signature_parse_compact d rec := Some (nth 63 d 0);
  secp256k1_ecdsa_recover sig hash := Some sig
|}.

Lemma toy_verify_form k : toy_verify k = true -> exists v, k = replicate 31 0 ++ [v] /\ 0 < v < 127.
Proof.
  unfold toy_verify. intros [[H1%bool_decide_eq_true H2]%andb_prop H3]%andb_prop. exists (nth 31 k 0).
  split; [done|lia].
Qed.

Lemma toy_verify_value v : 0 < v < 127 -> toy_verify (replicate 31 0 ++ [v]) = true.
Proof.
  intros Hv. unfold toy_verify. change (nth 31 (replicate 31 0 ++ [v]) 0) with v.
  rewrite bool_decide_eq_true_2 by done. cbn. lia.
Qed.

#[export] Instance toy_secp_laws : Secp256k1Laws toy_secp.
Proof.
  split; cbn -[replicate nth be_value be_encode toy_verify].
  - by intros k (v & -> & _)%toy_verify_form.
  - intros k Hk. by rewrite Hk.
  - intros [] P; [exists 2, (replicate 31 0 ++ [P])|exists 4, (replicate 63 0 ++ [P])]; cbn; auto.
  - by intros [] P.
  - intros k P t Hk. rewrite Hk. intros [= <-] Ht.
    destruct (Z.eqb_spec ((nth 31 k 0 + be_value t) mod 127) 0) as [E|E]; [done|].
    pose proof (Z.mod_pos_bound (nth 31 k 0 + be_value t) 127 ltac:(lia)).
    rewrite toy_verify_value by lia. done.
  - intros k P hash e Hk. rewrite Hk. intros [= <-]. destruct (toy_verify_form k Hk) as (v & -> & Hv).
    change (nth 31 (replicate 31 0 ++ [v]) 0) with v.
    assert (be_value [v] = v) as Ev by (cbn; lia).
    exists (v, 1), [v], [1]. split_and!; try done; try (rewrite Ev; lia).
    + apply Forall_singleton. unfold byte_ok. lia.
    + by apply Forall_singleton.
    + exists v, []. split_and!; [done|lia|done].
    + by exists 1, [].
    + rewrite Ev. f_equal. rewrite take_app_length', drop_app_length' by (by rewrite length_be_encode).
      unfold be_value, be_encode. rewrite !rev_involutive, !le_decode_encode_small by lia. done.
    + apply Z.eqb_refl.
  - intros k P hash Hk. rewrite Hk. intros [= <-].
    exists (nth 31 k 0), (replicate 63 0 ++ [nth 31 k 0]), 0. by split_and!.
Qed.

(** A key of it. *)
Definition toy_key : CKey := {| fValid := true; fCompressed := true; key_vch := replicate 31 0 ++ [5] |}.

#[local] Existing Instance toy_secp.

Definition toy_ext : CExtKey := ExtKey 0 (replicate 4 0) 0 (replicate 32 1) toy_key.

Lemma BIP32_derivation_witness :
  exists K b k', Neuter toy_ext = Ok K /\ ext_Derive (SH := crypto_hashes) CSHA512 toy_ext 7 = Ok (b, k') /\
    (b = true -> ext_ok k') /\
    exists K', extpub_Derive (SH := crypto_hashes) CSHA512 K (ExtKey 0 [] 0 [] CPubKey_new) 7 = Ok (b, K') /\
      if b then exists N, Neuter k' = Ok N /\ extpub_eq N K' else fValid (ext_ k') = false.
Proof.
  refine (BIP32_derivation (SECP := toy_secp) (SH := crypto_hashes) CSHA512 eq_refl toy_ext
    (ExtKey 0 [] 0 [] CPubKey_new) 7 _ _); [|lia].
  split_and!; [by intros _|reflexivity..].
Defined.

Lemma key_signatures_verify_witness :
  exists pub d, GetPubKey (SECP := toy_secp) toy_key = Ok pub /\
    key_Sign (SECP := toy_secp) toy_key 12345 0 = Ok d /\ CPubKey_Verify (SECP := toy_secp) pub 12345 d = true.
Proof.
  destruct (key_signatures_verify (SECP := toy_secp) toy_key CKey_new 12345 0 (replicate 8 0) [] 1) as
    (pub & d & c & der & H1 & H2 & _ & _ & _ & H3 & _); [by intros _|reflexivity|decide_now|].
  by exists pub, d.
Defined.
