(* ===== verification/Address.v ===== *)
(** * Addresses and encoded keys

    The classes of [base58.h] and [base58.cpp] over a version and data:
    [CBase58Data], the addresses [CSphinxcoinAddress] and [CCryptoAddress],
    the secret [CSphinxcoinSecret] and the setters of the extended keys, with
    the prefixes of [chainparams.cpp]. *)

From S2P Require Import Prelude Interp Transaction SigHash Standard Keys Base58.

Local Open Scope Z_scope.

(** ** Prefixes *)

(** [CChainParams::Base58Type] *)
Inductive Base58Type : Type :=
  | PUBKEY_ADDRESS
  | SCRIPT_ADDRESS
  | SECRET_KEY
  | STEALTH_ADDRESS
  | EXT_PUBLIC_KEY
  | EXT_SECRET_KEY.

(** A cast of an integer; there are [MAX_BASE58_TYPES] prefixes. *)
Definition Base58Type_of (n : Z) : option Base58Type :=
  [PUBKEY_ADDRESS; SCRIPT_ADDRESS; SECRET_KEY; STEALTH_ADDRESS; EXT_PUBLIC_KEY; EXT_SECRET_KEY] !! Z.to_nat n.

Definition main_base58Prefixes (t : Base58Type) : list Z :=
  match t with
  | PUBKEY_ADDRESS => [0x39]
  | SCRIPT_ADDRESS => [85]
  | SECRET_KEY => [153]
  | STEALTH_ADDRESS => [40]
  | EXT_PUBLIC_KEY => [0x04; 0x88; 0xB2; 0x1E]
  | EXT_SECRET_KEY => [0x04; 0x88; 0xAD; 0xE4]
  end.

Definition test_base58Prefixes (t : Base58Type) : list Z :=
  match t with
  | PUBKEY_ADDRESS => [97]
  | SCRIPT_ADDRESS => [196]
  | SECRET_KEY => [239]
  | STEALTH_ADDRESS => [40]
  | EXT_PUBLIC_KEY => [0x04; 0x35; 0x87; 0xCF]
  | EXT_SECRET_KEY => [0x04; 0x35; 0x83; 0x94]
  end.

(** [Params().Base58Prefix(t)] *)
Definition Base58Prefix (fTestNet : bool) : Base58Type -> list Z :=
  if fTestNet then test_base58Prefixes else main_base58Prefixes.

(** ** [CBase58Data] *)

Record CBase58Data : Type := Base58Data { vchVersion : list Z; vchData : list Z }.

Definition CBase58Data_new : CBase58Data := Base58Data [] [].

Definition SetData (vchVersionIn pdata : list Z) : CBase58Data := Base58Data vchVersionIn pdata.

Section data.
Context {SH : ScriptHashes}.

(** The result and the object. *)
Definition SetString (psz : list Z) (nVersionBytes : nat) : outcome unit (bool * CBase58Data) :=
  match DecodeBase58Check psz with
  | Ok vchTemp =>
    if (length vchTemp <? nVersionBytes)%nat then mret (false, CBase58Data_new)
    else mret (true, Base58Data (take nVersionBytes vchTemp) (drop nVersionBytes vchTemp))
  | Err _ => mret (false, CBase58Data_new)
  | Throw => Throw
  | Crash => Crash
  end.

Definition SetString_str (str : list Z) : outcome unit (bool * CBase58Data) := SetString (c_str str) 1.

Definition ToString (d : CBase58Data) : outcome unit (list Z) := EncodeBase58Check (vchVersion d ++ vchData d).
End data.

Definition CompareTo (a b58 : CBase58Data) : Z :=
  if bytes_lt (vchVersion a) (vchVersion b58) then -1
  else if bytes_lt (vchVersion b58) (vchVersion a) then 1
  else if bytes_lt (vchData a) (vchData b58) then -1
  else if bytes_lt (vchData b58) (vchData a) then 1
  else 0.

(** ** Addresses *)

(** The methods of an address class, which reads its prefixes at two types. *)
Section address.
Context (prefix : Base58Type -> list Z) (pubkey_address script_address : Base58Type).

Definition Set_keyID (id : list Z) : CBase58Data := SetData (prefix pubkey_address) (take 20 id).
Definition Set_scriptID (id : list Z) : CBase58Data := SetData (prefix script_address) (take 20 id).

(** [Set(dest)] with the visitor; [None] is false, the object unchanged. *)
Definition Set_dest (dest : CTxDestination) : option CBase58Data :=
  match dest with
  | CKeyID id => Some (Set_keyID id)
  | CScriptID id => Some (Set_scriptID id)
  | CNoDestination => None
  | CStealthAddress => None
  end.

Definition address_IsValid (a : CBase58Data) : bool :=
  let fCorrectSize := zlen (vchData a) =? 20 in
  let fKnownVersion := bool_decide (vchVersion a = prefix pubkey_address) ||
                       bool_decide (vchVersion a = prefix script_address) in
  fCorrectSize && fKnownVersion.

Definition address_Get (a : CBase58Data) : CTxDestination :=
  if negb (address_IsValid a) then CNoDestination
  else
    let id := vchData a in
    if bool_decide (vchVersion a = prefix pubkey_address) then CKeyID id
    else if bool_decide (vchVersion a = prefix script_address) then CScriptID id
    else CNoDestination.

Definition address_GetKeyID (a : CBase58Data) : option (list Z) :=
  if negb (address_IsValid a) || negb (bool_decide (vchVersion a = prefix pubkey_address)) then None
  else Some (vchData a).

Definition address_IsScript (a : CBase58Data) : bool :=
  address_IsValid a && bool_decide (vchVersion a = prefix script_address).
End address.

Section classes.
Context (fTestNet : bool).

Definition CSphinxcoinAddress_Set (dest : CTxDestination) : option CBase58Data :=
  Set_dest (Base58Prefix fTestNet) PUBKEY_ADDRESS SCRIPT_ADDRESS dest.
Definition CSphinxcoinAddress_IsValid (a : CBase58Data) : bool :=
  address_IsValid (Base58Prefix fTestNet) PUBKEY_ADDRESS SCRIPT_ADDRESS a.
Definition CSphinxcoinAddress_Get (a : CBase58Data) : CTxDestination :=
  address_Get (Base58Prefix fTestNet) PUBKEY_ADDRESS SCRIPT_ADDRESS a.
Definition CSphinxcoinAddress_GetKeyID (a : CBase58Data) : option (list Z) :=
  address_GetKeyID (Base58Prefix fTestNet) PUBKEY_ADDRESS SCRIPT_ADDRESS a.
Definition CSphinxcoinAddress_IsScript (a : CBase58Data) : bool :=
  address_IsScript (Base58Prefix fTestNet) PUBKEY_ADDRESS SCRIPT_ADDRESS a.

(** [pubkey_address] and [script_address] of base58.cpp: casts of 0 and 5. *)
Definition crypto_pubkey_address : Base58Type := default PUBKEY_ADDRESS (Base58Type_of 0).
Definition crypto_script_address : Base58Type := default PUBKEY_ADDRESS (Base58Type_of 5).

Definition CCryptoAddress_Set (dest : CTxDestination) : option CBase58Data :=
  Set_dest (Base58Prefix fTestNet) crypto_pubkey_address crypto_script_address dest.
Definition CCryptoAddress_IsValid (a : CBase58Data) : bool :=
  address_IsValid (Base58Prefix fTestNet) crypto_pubkey_address crypto_script_address a.
Definition CCryptoAddress_Get (a : CBase58Data) : CTxDestination :=
  address_Get (Base58Prefix fTestNet) crypto_pubkey_address crypto_script_address a.
Definition CCryptoAddress_GetKeyID (a : CBase58Data) : option (list Z) :=
  address_GetKeyID (Base58Prefix fTestNet) crypto_pubkey_address crypto_script_address a.
Definition CCryptoAddress_IsScript (a : CBase58Data) : bool :=
  address_IsScript (Base58Prefix fTestNet) crypto_pubkey_address crypto_script_address a.

(** ** Secrets *)

Definition Secret_SetKey (vchSecret : CKey) : outcome unit CBase58Data :=
  _ ← assert_that (fValid vchSecret);
  let d := SetData (Base58Prefix fTestNet SECRET_KEY) (take (Z.to_nat (key_size vchSecret)) (key_vch vchSecret)) in
  mret (if fCompressed vchSecret then Base58Data (vchVersion d) (vchData d ++ [1]) else d).

(** Reads 32 bytes; fewer is undefined behaviour. *)
Definition Secret_GetKey {SECP : Secp256k1} (d : CBase58Data) : outcome unit CKey :=
  _ ← assert_that (32 <=? zlen (vchData d));
  mret (key_Set CKey_new (take 32 (vchData d)) ((32 <? zlen (vchData d)) && (byte_at (vchData d) 32 =? 1))).

Definition Secret_IsValid (d : CBase58Data) : bool :=
  let fExpectedFormat := (zlen (vchData d) =? 32) || ((zlen (vchData d) =? 33) && (byte_at (vchData d) 32 =? 1)) in
  let fCorrectVersion := bool_decide (vchVersion d = Base58Prefix fTestNet SECRET_KEY) in
  fExpectedFormat && fCorrectVersion.

Definition Secret_SetString {SH : ScriptHashes} (pszSecret : list Z) : outcome unit (bool * CBase58Data) :=
  '(ok, d) ← SetString pszSecret 1;
  mret (ok && Secret_IsValid d, d).

(** ** Extended keys *)

Definition ExtKey_SetKey (key : CExtKey) : outcome unit CBase58Data :=
  vch ← ext_Encode key;
  mret (SetData (Base58Prefix fTestNet EXT_SECRET_KEY) vch).

Definition ExtPubKey_SetKey (key : CExtPubKey) : outcome unit CBase58Data :=
  vch ← extpub_Encode key;
  mret (SetData (Base58Prefix fTestNet EXT_PUBLIC_KEY) vch).
End classes.
