(* ===== verification/AddressProps.v ===== *)
(** * Addresses and secrets round trip

    A string is an address of the network exactly when it is the text of a
    destination, up to white space; secrets and extended keys are read back as
    they were written. *)

From S2P Require Import Prelude Interp InterpFacts Transaction SigHash Standard StandardProps Hash HashProps Keys KeysProps Base58 Base58Props Address.

Local Open Scope Z_scope.

Section hashes.
Context {SH : ScriptHashes} {SHok : ScriptHashesOk SH}.

(** ** The checksummed codec *)

Lemma check_bytes v : bytes_ok v -> bytes_ok (v ++ take 4 (h_hash256 v)).
Proof. intros Hv. apply Forall_app_2; [done|]. apply Forall_take, hash256_ok. Qed.

Lemma length_check v : length (take 4 (h_hash256 v)) = 4%nat.
Proof. rewrite length_take. destruct (hash256_ok v) as [_ H]. unfold zlen in H. lia. Qed.

Lemma DecodeBase58Check_codec s v :
  DecodeBase58Check s = Ok v <->
  bytes_ok v /\
  exists sp1 core sp2, s = sp1 ++ core ++ sp2 /\
    forallb isspace sp1 = true /\ forallb isspace sp2 = true /\ EncodeBase58Check v = Ok core.
Proof.
  unfold DecodeBase58Check, EncodeBase58Check. split.
  - intros E. apply bind_Ok in E as (w & E & Hw).
    destruct (Nat.ltb_spec (length w) 4) as [|Hlen]; [done|].
    destruct (bool_decide_reflect (take 4 (h_hash256 (take (length w - 4) w)) = drop (length w - 4) w)) as [Hchk|]; [|done].
    injection Hw as <-. apply Base58_codec in E as (Hok & sp1 & core & sp2 & Es & H1 & H2 & Ec).
    split; [by apply Forall_take|]. exists sp1, core, sp2. split_and!; [done..|].
    by rewrite Hchk, take_drop.
  - intros (Hv & sp1 & core & sp2 & -> & H1 & H2 & Ec).
    rewrite (proj2 (Base58_codec _ (v ++ take 4 (h_hash256 v)))).
    + cbn [mbind outcome_bind]. rewrite length_app, length_check, Nat.add_sub.
      destruct (Nat.ltb_spec (length v + 4) 4); [lia|].
      rewrite take_app_length, drop_app_length, bool_decide_eq_true_2; done.
    + split; [by apply check_bytes|]. by exists sp1, core, sp2.
Qed.

(** ** [CBase58Data] *)

Lemma SetString_total s n : exists b d, SetString s n = Ok (b, d).
Proof.
  unfold SetString, DecodeBase58Check. pose proof (DecodeBase58_total s).
  destruct (DecodeBase58 s) as [v|[]| |]; try done; cbn [mbind outcome_bind]; [|by eexists _, _].
  destruct (length v <? 4)%nat; [by eexists _, _|].
  destruct (bool_decide _); cbn [mret outcome_ret]; [|by eexists _, _]. destruct (_ <? _)%nat; by eexists _, _.
Qed.

(** The texts of an object: its encoding, up to white space around it. *)
Definition texts (d : CBase58Data) (s : list Z) : Prop :=
  exists sp1 core sp2, s = sp1 ++ core ++ sp2 /\
    forallb isspace sp1 = true /\ forallb isspace sp2 = true /\ ToString d = Ok core.

Definition data_ok (d : CBase58Data) : Prop := bytes_ok (vchVersion d) /\ bytes_ok (vchData d).

Lemma SetString_codec s n d :
  SetString s n = Ok (true, d) <-> data_ok d /\ length (vchVersion d) = n /\ texts d s.
Proof.
  unfold SetString, texts, ToString. split.
  - destruct (DecodeBase58Check s) as [v| | |] eqn:E; try done.
    destruct (Nat.ltb_spec (length v) n); [done|]. intros [= <-]. cbn [vchVersion vchData].
    apply DecodeBase58Check_codec in E as (Hv & H'). rewrite take_drop, length_take.
    split_and!; [split; [by apply Forall_take|by apply Forall_drop]|lia|done].
  - intros ([Hv Hd] & Hn & H). rewrite (proj2 (DecodeBase58Check_codec s (vchVersion d ++ vchData d))).
    + rewrite length_app. destruct (Nat.ltb_spec (length (vchVersion d) + length (vchData d)) n); [lia|].
      rewrite <-Hn, take_app_length, drop_app_length. by destruct d.
    + split; [by apply Forall_app_2|done].
Qed.

Lemma ToString_total d : data_ok d -> exists s, ToString d = Ok s.
Proof.
  intros [Hv Hd]. unfold ToString, EncodeBase58Check.
  destruct (EncodeBase58_shape (vchVersion d ++ vchData d ++ take 4 (h_hash256 (vchVersion d ++ vchData d)))) as
    (z & rest & ds & _ & _ & _ & _ & _ & E).
  - rewrite app_assoc. by apply check_bytes, Forall_app_2.
  - rewrite <-app_assoc, E. by eexists.
Qed.

(** ** Addresses *)

(** A destination an address can be made of. *)
Definition dest_bytes (dest : CTxDestination) : Prop :=
  match dest with CKeyID id | CScriptID id => length id = 20%nat /\ bytes_ok id | _ => False end.

(** What the two prefixes must satisfy. *)
Definition prefixes_ok (prefix : Base58Type -> list Z) (pk sc : Base58Type) : Prop :=
  prefix pk <> prefix sc /\ length (prefix pk) = 1%nat /\ length (prefix sc) = 1%nat /\
  bytes_ok (prefix pk) /\ bytes_ok (prefix sc).

Section address.
Context (prefix : Base58Type -> list Z) (pk sc : Base58Type).

Lemma address_Get_valid a : address_IsValid prefix pk sc a = true -> data_ok a ->
  dest_bytes (address_Get prefix pk sc a) /\ Set_dest prefix pk sc (address_Get prefix pk sc a) = Some a.
Proof.
  intros Hval [_ Hd]. unfold address_Get. rewrite Hval. cbn [negb]. unfold address_IsValid in Hval.
  apply andb_prop in Hval as [Hlen%Z.eqb_eq Hver].
  assert (length (vchData a) = 20%nat) as Hl by (unfold zlen in Hlen; lia).
  destruct a as [v d]. cbn [vchVersion vchData] in *.
  destruct (bool_decide_reflect (v = prefix pk)) as [->|_].
  - split; [done|]. cbn. unfold Set_keyID, SetData. by rewrite take_ge by lia.
  - destruct (bool_decide_reflect (v = prefix sc)) as [->|_]; [|done].
    split; [done|]. cbn. unfold Set_scriptID, SetData. by rewrite take_ge by lia.
Qed.

Lemma Set_dest_facts dest (Hp : prefixes_ok prefix pk sc) : dest_bytes dest ->
  exists a, Set_dest prefix pk sc dest = Some a /\ data_ok a /\ length (vchVersion a) = 1%nat /\
    address_IsValid prefix pk sc a = true /\ address_Get prefix pk sc a = dest /\
    address_GetKeyID prefix pk sc a = match dest with CKeyID id => Some id | _ => None end /\
    address_IsScript prefix pk sc a = match dest with CScriptID _ => true | _ => false end.
Proof.
  destruct Hp as (Hne & H1 & H2 & H3 & H4).
  destruct dest as [|id|id|]; try done; intros [Hl Hb]; cbn [Set_dest]; eexists; (split; [done|]);
    unfold Set_keyID, Set_scriptID, SetData; rewrite take_ge by lia;
    unfold address_IsScript, address_GetKeyID, address_Get, address_IsValid; cbn [vchVersion vchData];
    assert ((zlen id =? 20) = true) as -> by (unfold zlen; lia).
  - rewrite bool_decide_eq_true_2 by done. rewrite (bool_decide_eq_false_2 (prefix pk = prefix sc)) by done. done.
  - rewrite (bool_decide_eq_true_2 (prefix sc = prefix sc)) by done.
    rewrite (bool_decide_eq_false_2 (prefix sc = prefix pk)) by done. done.
Qed.
End address.

Lemma network_prefixes_ok net : prefixes_ok (Base58Prefix net) PUBKEY_ADDRESS SCRIPT_ADDRESS.
Proof. destruct net; split_and!; decide_now. Qed.

(** C9: addresses, on both networks.  Setting an address from a string always
    returns; it yields a valid address exactly when the string is the text of
    a key or script hash of 20 bytes, up to white space around it, and then
    [Get] is that destination, which alone has this text.  [GetKeyID] and
    [IsScript] tell the two kinds apart.  A [CCryptoAddress] made of a script
    hash, whose prefix is that of the extended keys, is read back from its own
    text as an invalid address. *)
Theorem address_roundtrip net s :
  (exists b a, SetString s 1 = Ok (b, a)) /\
  (forall dest a, SetString s 1 = Ok (true, a) /\ CSphinxcoinAddress_IsValid net a = true /\
      CSphinxcoinAddress_Get net a = dest <->
    dest_bytes dest /\ CSphinxcoinAddress_Set net dest = Some a /\ texts a s) /\
  (forall dest, dest_bytes dest -> exists a, CSphinxcoinAddress_Set net dest = Some a /\ (exists t, ToString a = Ok t) /\
    CSphinxcoinAddress_GetKeyID net a = match dest with CKeyID id => Some id | _ => None end /\
    CSphinxcoinAddress_IsScript net a = match dest with CScriptID _ => true | _ => false end) /\
  (forall id a, dest_bytes (CScriptID id) -> CCryptoAddress_Set net (CScriptID id) = Some a ->
    CCryptoAddress_IsValid net a = true /\
    (texts a s -> exists a', SetString s 1 = Ok (true, a') /\ CCryptoAddress_IsValid net a' = false)).
Proof.
  pose proof (network_prefixes_ok net) as Hp. split_and!.
  - apply SetString_total.
  - intros dest a. split.
    + intros (E & Hval & <-). apply SetString_codec in E as (Hok & _ & Ht).
      destruct (address_Get_valid _ _ _ _ Hval Hok). done.
    + intros (Hd & E & Ht).
      destruct (Set_dest_facts _ _ _ _ Hp Hd) as (a' & E' & Hok & Hlen & Hval & Hget & _).
      assert (a' = a) as -> by (unfold CSphinxcoinAddress_Set in E; congruence).
      split_and!; [|done|done]. by apply SetString_codec.
  - intros dest Hd. destruct (Set_dest_facts _ _ _ _ Hp Hd) as (a & E & Hok & _ & _ & _ & Hk & Hs).
    exists a. split_and!; [done|by apply ToString_total|done|done].
  - intros id a [Hl Hb] [= <-]. unfold Set_scriptID, SetData. rewrite take_ge by lia. split.
    + unfold CCryptoAddress_IsValid, address_IsValid. cbn [vchVersion vchData].
      rewrite (bool_decide_eq_true_2 (Base58Prefix net crypto_script_address = Base58Prefix net crypto_script_address)) by done.
      rewrite orb_true_r, andb_true_r. unfold zlen. lia.
    + intros Ht. set (pre := Base58Prefix net crypto_script_address) in *.
      assert (exists x y, pre = x :: y /\ length y = 3%nat /\ bytes_ok pre) as (x & y & Epre & Hy & Hpre).
      { destruct net; eexists _, _; (split; [reflexivity|]); (split; [reflexivity|]); decide_now. }
      exists (Base58Data [x] (y ++ id)). split.
      * apply SetString_codec. rewrite Epre in *. apply Forall_cons in Hpre as [Hx Hyb]. split_and!.
        { split; [by apply Forall_singleton|by apply Forall_app_2]. } { done. }
        unfold texts, ToString in *. exact Ht.
      * unfold CCryptoAddress_IsValid, address_IsValid. cbn [vchVersion vchData].
        rewrite zlen_app. unfold zlen. rewrite Hy, Hl. done.
Qed.
End hashes.

Lemma address_roundtrip_witness :
  exists a, CSphinxcoinAddress_Set false (CScriptID (replicate 20 7)) = Some a /\
    (exists t, ToString (SH := crypto_hashes) a = Ok t) /\
    CSphinxcoinAddress_GetKeyID false a = None /\ CSphinxcoinAddress_IsScript false a = true.
Proof.
  refine (proj1 (proj2 (proj2 (address_roundtrip (SH := crypto_hashes) false []))) (CScriptID (replicate 20 7)) _).
  split; [reflexivity|decide_now].
Defined.

(** ** Secrets and extended keys *)

Section secrets.
Context {SH : ScriptHashes} {SHok : ScriptHashesOk SH}.

Context {SECP : Secp256k1} {Laws : Secp256k1Laws SECP}.

Lemma text_SetString d n : data_ok d -> length (vchVersion d) = n ->
  exists t, ToString d = Ok t /\ SetString t n = Ok (true, d).
Proof.
  intros Hok Hn. destruct (ToString_total d Hok) as [t Et]. exists t. split; [done|].
  apply SetString_codec. split_and!; [done|done|]. exists [], t, []. by rewrite app_nil_r.
Qed.

Lemma key_eta key : fValid key = true -> {| fValid := true; fCompressed := fCompressed key; key_vch := key_vch key |} = key.
Proof. destruct key. by intros [= ->]. Qed.

(** The fields of an extended key fit the 74 bytes. *)
Definition ext_fits {K} (k : ext_key K) : Prop :=
  byte_ok (nDepth k) /\ length (vchFingerprint k) = 4%nat /\ bytes_ok (vchFingerprint k) /\
  0 <= nChild k < 2 ^ 32 /\ length (vchChainCode k) = 32%nat /\ bytes_ok (vchChainCode k).

Lemma encode_child_ok n : bytes_ok (encode_child n).
Proof. unfold encode_child. rewrite !land_ff. repeat constructor; apply Z.mod_pos_bound; lia. Qed.

Lemma ext_Encode_Decode (k : CExtKey) : ext_fits k -> ext_ok k -> bytes_ok (key_vch (ext_ k)) ->
  exists code, ext_Encode k = Ok code /\ length code = 74%nat /\ bytes_ok code /\
    forall key, ext_Decode key code = k.
Proof.
  intros (Hd & Hfp & Hfpb & Hn & Hcc & Hccb) (Hok & Hv & Hc & _) Hkb.
  pose proof (seckey_length _ (Hok Hv)) as Hlen.
  unfold ext_Encode, key_size. rewrite Hv. cbn [assert_that Z.eqb Pos.eqb mbind outcome_bind mret outcome_ret].
  eexists. split_and!; [done| | |].
  - rewrite !length_app, Hfp, Hcc, Hlen. done.
  - repeat (apply Forall_app_2; [|]); try done; try apply encode_child_ok; by apply Forall_singleton.
  - intros key. destruct (decode_fields (nDepth k) (vchFingerprint k) (nChild k) (vchChainCode k)
      ([0] ++ key_vch (ext_ k))) as (E1 & E2 & E3 & E4 & E5); [done..|].
    unfold ext_Decode. rewrite E1, E2, E3, E4.
    assert (drop 42 ([nDepth k] ++ vchFingerprint k ++ encode_child (nChild k) ++ vchChainCode k ++ [0] ++ key_vch (ext_ k))
      = key_vch (ext_ k)) as ->.
    { change 42%nat with (41 + 1)%nat. by rewrite <-drop_drop, E5. }
    rewrite take_ge by lia. unfold key_Set. rewrite (Hok Hv). unfold zlen. rewrite Hlen. cbn [Z.eqb negb orb Z.of_nat].
    destruct k as [kd kf kn kc [kv kco kvch]]. cbn in *. by subst.
Qed.

Lemma extpub_Encode_Decode (k : CExtPubKey) : ext_fits k -> pubkey_size (ext_ k) = 33 -> (33 <= length (ext_ k))%nat ->
  bytes_ok (ext_ k) ->
  exists code, extpub_Encode k = Ok code /\ length code = 74%nat /\ bytes_ok code /\
    forall pub, extpub_eq (extpub_Decode pub code) k.
Proof.
  intros (Hd & Hfp & Hfpb & Hn & Hcc & Hccb) Hsz Hlen Hb.
  assert (length (take 33 (ext_ k)) = 33%nat) as H33 by (rewrite length_take; lia).
  unfold extpub_Encode. rewrite Hsz. cbn [assert_that Z.eqb Pos.eqb mbind outcome_bind mret outcome_ret].
  eexists. split_and!; [done| | |].
  - rewrite !length_app, Hfp, Hcc, H33. done.
  - repeat (apply Forall_app_2; [|]); try done; try apply encode_child_ok; [by apply Forall_singleton|by apply Forall_take].
  - intros pub. destruct (decode_fields (nDepth k) (vchFingerprint k) (nChild k) (vchChainCode k)
      (take 33 (ext_ k))) as (E1 & E2 & E3 & E4 & E5); [done..|].
    unfold extpub_Decode. rewrite E1, E2, E3, E4, E5, take_take, Nat.min_id.
    split_and!; try done. cbn [ext_].
    assert (pubkey_size (take 33 (ext_ k)) = 33) as Hs by (unfold pubkey_size in *; by destruct (ext_ k)).
    assert (zlen (take 33 (ext_ k)) = 33) as Hz by (unfold zlen; lia).
    destruct (pubkey_Set_holds pub (take 33 (ext_ k))) as [_ Hh]; [by rewrite Hs, Hz|lia|].
    rewrite (holds_data _ _ Hh). unfold pubkey_data. by rewrite Hsz.
Qed.

(** A valid private key is recovered from the text of its secret, with
    its compression flag, whatever network; the text of an extended private or
    public key, read with a version of four bytes, decodes to the same key. *)
Theorem secrets_roundtrip net (key : CKey) (xk : CExtKey) (xp : CExtPubKey)
    (Hkey : key_ok key) (Hv : fValid key = true) (Hb : bytes_ok (key_vch key))
    (Hxk : ext_fits xk) (Hxok : ext_ok xk) (Hxb : bytes_ok (key_vch (ext_ xk)))
    (Hxp : ext_fits xp) (Hxs : pubkey_size (ext_ xp) = 33) (Hxl : (33 <= length (ext_ xp))%nat)
    (Hxpb : bytes_ok (ext_ xp)) :
  (exists d t, Secret_SetKey net key = Ok d /\ ToString d = Ok t /\
    Secret_SetString net t = Ok (true, d) /\ Secret_GetKey d = Ok key) /\
  (exists d t, ExtKey_SetKey net xk = Ok d /\ ToString d = Ok t /\
    SetString t 4 = Ok (true, d) /\ forall k, ext_Decode k (vchData d) = xk) /\
  (exists d t, ExtPubKey_SetKey net xp = Ok d /\ ToString d = Ok t /\
    SetString t 4 = Ok (true, d) /\ forall p, extpub_eq (extpub_Decode p (vchData d)) xp).
Proof.
  split_and!.
  - pose proof (seckey_length _ (Hkey Hv)) as Hlen.
    unfold Secret_SetKey, key_size. rewrite Hv. cbn [assert_that mbind outcome_bind mret outcome_ret].
    rewrite take_ge by (rewrite Hlen; done). unfold SetData. cbn [vchVersion vchData].
    set (d := if fCompressed key then _ else _).
    assert (vchVersion d = Base58Prefix net SECRET_KEY) as Hver by (subst d; by destruct (fCompressed key)).
    assert (vchData d = key_vch key ++ if fCompressed key then [1] else []) as Hdat.
    { subst d. destruct (fCompressed key); cbn [vchData]; [done|by rewrite app_nil_r]. }
    assert (zlen (vchData d) = if fCompressed key then 33 else 32) as Hz.
    { rewrite Hdat, zlen_app. unfold zlen. rewrite Hlen. by destruct (fCompressed key). }
    assert (((32 <? zlen (vchData d)) && (byte_at (vchData d) 32 =? 1)) = fCompressed key) as Hcomp.
    { rewrite Hz. destruct (fCompressed key); [|done]. rewrite Hdat. unfold byte_at.
      change (Z.to_nat 32) with 32%nat. rewrite <-Hlen. rewrite nth_middle. done. }
    destruct (text_SetString d 1) as (t & Et & Es).
    { split; [rewrite Hver; destruct net; decide_now|]. rewrite Hdat. apply Forall_app_2; [done|].
      destruct (fCompressed key); decide_now. }
    { rewrite Hver. by destruct net. }
    exists d, t. split_and!; [done|done| |].
    + unfold Secret_SetString. rewrite Es. cbn [mbind outcome_bind mret outcome_ret].
      unfold Secret_IsValid. rewrite Hver, bool_decide_eq_true_2 by done.
      rewrite Hz in Hcomp |- *. destruct (fCompressed key); [|done]. apply andb_prop in Hcomp as [_ ->]. done.
    + unfold Secret_GetKey. rewrite Hcomp, Hz.
      assert ((32 <=? (if fCompressed key then 33 else 32)) = true) as -> by (by destruct (fCompressed key)).
      cbn [assert_that mbind outcome_bind mret outcome_ret]. rewrite Hdat, take_app_length' by done.
      unfold key_Set. rewrite (Hkey Hv). unfold zlen. rewrite Hlen. cbn [Z.eqb negb orb Z.of_nat].
      by rewrite key_eta.
  - destruct (ext_Encode_Decode xk Hxk Hxok Hxb) as (code & E & Hlen & Hcb & Hdec).
    unfold ExtKey_SetKey. rewrite E. cbn [mbind outcome_bind mret outcome_ret]. unfold SetData.
    destruct (text_SetString (Base58Data (Base58Prefix net EXT_SECRET_KEY) code) 4) as (t & Et & Es).
    { split; [destruct net; decide_now|done]. } { by destruct net. }
    by eexists _, t.
  - destruct (extpub_Encode_Decode xp Hxp Hxs Hxl Hxpb) as (code & E & Hlen & Hcb & Hdec).
    unfold ExtPubKey_SetKey. rewrite E. cbn [mbind outcome_bind mret outcome_ret]. unfold SetData.
    destruct (text_SetString (Base58Data (Base58Prefix net EXT_PUBLIC_KEY) code) 4) as (t & Et & Es).
    { split; [destruct net; decide_now|done]. } { by destruct net. }
    by eexists _, t.
Qed.
End secrets.

Lemma secrets_roundtrip_witness :
  exists d t, Secret_SetKey false toy_key = Ok d /\ ToString (SH := crypto_hashes) d = Ok t /\
    Secret_SetString (SH := crypto_hashes) false t = Ok (true, d) /\ Secret_GetKey (SECP := toy_secp) d = Ok toy_key.
Proof.
  refine (proj1 (secrets_roundtrip (SH := crypto_hashes) (SECP := toy_secp) false toy_key toy_ext
    (ExtKey 0 (replicate 4 0) 0 (replicate 32 1) (CPubKey_make (2 :: replicate 32 5))) _ _ _ _ _ _ _ _ _ _)).
  - by intros _.
  - reflexivity.
  - decide_now.
  - split_and!; (reflexivity || decide_now || cbn; lia).
  - split_and!; [by intros _|reflexivity..].
  - decide_now.
  - split_and!; (reflexivity || decide_now || cbn; lia).
  - reflexivity.
  - apply Nat.leb_le. reflexivity.
  - decide_now.
Defined.
