(* ===== verification/Sign.v ===== *)
(** * Key stores and signing

    [keystore.h], [keystore.cpp], [script/ismine.cpp], the visitors of
    [script/script.cpp], the signing [Solver] of [script/standard.cpp] and
    [script/sign.cpp]: the key store with its maps, whether a script is
    spendable with it, the scripts that sign for a standard script, and the
    combination of partial signatures.  A boolean function whose output matters
    also on false returns the pair. *)

From S2P Require Import Prelude Opcode Script SigEncoding Interp Transaction SigHash Standard Keys.

Local Open Scope Z_scope.

(** ** [CBasicKeyStore] *)

Record CBasicKeyStore : Type := KeyStore {
  mapKeys : gmap (list Z) CKey;
  mapScripts : gmap (list Z) (list Z);
  setWatchOnly : gset (list Z)
}.

Section store.
Context {SH : ScriptHashes} {SECP : Secp256k1}.

Definition AddKeyPubKey (ks : CBasicKeyStore) (key : CKey) (pubkey : pubkey_bytes) : CBasicKeyStore :=
  {| mapKeys := <[pubkey_GetID pubkey := key]> (mapKeys ks);
     mapScripts := mapScripts ks; setWatchOnly := setWatchOnly ks |}.

Definition AddKey (ks : CBasicKeyStore) (key : CKey) : outcome unit CBasicKeyStore :=
  pubkey ← GetPubKey key;
  mret (AddKeyPubKey ks key pubkey).

Definition HaveKey (ks : CBasicKeyStore) (address : list Z) : bool := bool_decide (is_Some (mapKeys ks !! address)).
Definition GetKey (ks : CBasicKeyStore) (address : list Z) : option CKey := mapKeys ks !! address.
Definition GetKeys (ks : CBasicKeyStore) : gset (list Z) := dom (mapKeys ks).

(** [CKeyStore::GetPubKey]: [None] is false. *)
Definition store_GetPubKey (ks : CBasicKeyStore) (address : list Z) : outcome unit (option pubkey_bytes) :=
  match GetKey ks address with
  | None => mret None
  | Some key => Some <$> GetPubKey key
  end.

(** [CScriptID(redeemScript)] *)
Definition CScriptID_of (redeemScript : list Z) : list Z := h_hash160 redeemScript.

Definition AddCScript (ks : CBasicKeyStore) (redeemScript : list Z) : bool * CBasicKeyStore :=
  if MAX_SCRIPT_ELEMENT_SIZE <? zlen redeemScript then (false, ks)
  else (true, {| mapKeys := mapKeys ks; mapScripts := <[CScriptID_of redeemScript := redeemScript]> (mapScripts ks);
                 setWatchOnly := setWatchOnly ks |}).

Definition HaveCScript (ks : CBasicKeyStore) (hash : list Z) : bool := bool_decide (is_Some (mapScripts ks !! hash)).
Definition GetCScript (ks : CBasicKeyStore) (hash : list Z) : option (list Z) := mapScripts ks !! hash.

Definition AddWatchOnly (ks : CBasicKeyStore) (dest : list Z) : CBasicKeyStore :=
  {| mapKeys := mapKeys ks; mapScripts := mapScripts ks; setWatchOnly := {[dest]} ∪ setWatchOnly ks |}.
Definition RemoveWatchOnly (ks : CBasicKeyStore) (dest : list Z) : CBasicKeyStore :=
  {| mapKeys := mapKeys ks; mapScripts := mapScripts ks; setWatchOnly := setWatchOnly ks ∖ {[dest]} |}.
Definition HaveWatchOnly (ks : CBasicKeyStore) (dest : list Z) : bool := bool_decide (dest ∈ setWatchOnly ks).
Definition HaveAnyWatchOnly (ks : CBasicKeyStore) : bool := negb (bool_decide (setWatchOnly ks = ∅)).

(** ** [ismine.cpp] *)

Inductive isminetype : Type := ISMINE_NO | ISMINE_WATCH_ONLY | ISMINE_SPENDABLE.

#[export] Instance isminetype_eq_dec : EqDecision isminetype.
Proof. solve_decision. Defined.

Definition HaveKeys (pubkeys : list valtype) (ks : CBasicKeyStore) : Z :=
  foldl (fun nResult pubkey => if HaveKey ks (CPubKey_GetID pubkey) then nResult + 1 else nResult) 0 pubkeys.

Definition watch_or_no (ks : CBasicKeyStore) (scriptPubKey : list Z) : isminetype :=
  if HaveWatchOnly ks scriptPubKey then ISMINE_WATCH_ONLY else ISMINE_NO.

(** [IsMine(keystore, scriptPubKey)]; [None] is out of fuel: the recursion
    goes through the scripts of the store. *)
Fixpoint IsMine (fuel : nat) (ks : CBasicKeyStore) (scriptPubKey : list Z) : option isminetype :=
  match fuel with
  | O => None
  | S fuel =>
    match Solver scriptPubKey with
    | (false, _, _) => Some (watch_or_no ks scriptPubKey)
    | (true, whichType, vSolutions) =>
      match whichType with
      | TX_NONSTANDARD | TX_NULL_DATA => Some (watch_or_no ks scriptPubKey)
      | TX_PUBKEY =>
        if HaveKey ks (CPubKey_GetID (nth 0 vSolutions [])) then Some ISMINE_SPENDABLE
        else Some (watch_or_no ks scriptPubKey)
      | TX_PUBKEYHASH =>
        if HaveKey ks (nth 0 vSolutions []) then Some ISMINE_SPENDABLE
        else Some (watch_or_no ks scriptPubKey)
      | TX_SCRIPTHASH =>
        match GetCScript ks (nth 0 vSolutions []) with
        | Some subscript =>
          ret ← IsMine fuel ks subscript;
          Some (if bool_decide (ret = ISMINE_SPENDABLE) then ret else watch_or_no ks scriptPubKey)
        | None => Some (watch_or_no ks scriptPubKey)
        end
      | TX_MULTISIG =>
        let keys := removelast (tl vSolutions) in
        if HaveKeys keys ks =? zlen keys then Some ISMINE_SPENDABLE
        else Some (watch_or_no ks scriptPubKey)
      end
    end
  end.

Definition IsMine_dest (fuel : nat) (ks : CBasicKeyStore) (dest : CTxDestination) : option isminetype :=
  IsMine fuel ks (GetScriptForDestination dest).

(** [CAffectedKeysVisitor]: [Process] appends to [vKeys]; [None] is out of
    fuel. *)
Fixpoint affected_keys (fuel : nat) (ks : CBasicKeyStore) (script : list Z) (vKeys : list (list Z)) : option (list (list Z)) :=
  match fuel with
  | O => None
  | S fuel =>
    match ExtractDestinations script with
    | None => Some vKeys
    | Some (_, vDest, _) =>
      foldl (fun vKeys dest =>
        vKeys ← vKeys;
        match dest with
        | CKeyID keyId => Some (if HaveKey ks keyId then vKeys ++ [keyId] else vKeys)
        | CScriptID scriptId =>
          match GetCScript ks scriptId with
          | Some script => affected_keys fuel ks script vKeys
          | None => Some vKeys
          end
        | CStealthAddress => Some vKeys
        | CNoDestination => Some vKeys
        end) (Some vKeys) vDest
    end
  end.

(** ** Signing *)

(** [Sign1]: [Err] is false, [scriptSigRet] unchanged; the variable [test] is
    a bool that holds -1, so the test case is 1. *)
Definition Sign1 (address : list Z) (ks : CBasicKeyStore) (hash nHashType : Z) (scriptSigRet : list Z) : outcome unit (list Z) :=
  match GetKey ks address with
  | None => Err tt
  | Some key =>
    vchSig ← key_Sign key hash 1;
    let vchSig := vchSig ++ [nHashType mod 256] in
    mret (scriptSigRet ++ push_data vchSig)
  end.

(** The loop of [SignN] over the keys. *)
Fixpoint sign_keys (keys : list valtype) (nSigned nRequired : Z) (ks : CBasicKeyStore) (hash nHashType : Z)
    (scriptSigRet : list Z) : outcome unit (Z * list Z) :=
  match keys with
  | [] => mret (nSigned, scriptSigRet)
  | pubkey :: keys =>
    if negb (nSigned <? nRequired) then mret (nSigned, scriptSigRet)
    else
      match Sign1 (CPubKey_GetID pubkey) ks hash nHashType scriptSigRet with
      | Ok scriptSigRet => sign_keys keys (nSigned + 1) nRequired ks hash nHashType scriptSigRet
      | Err _ => sign_keys keys nSigned nRequired ks hash nHashType scriptSigRet
      | Throw => Throw
      | Crash => Crash
      end
  end.

Definition SignN (multisigdata : list valtype) (ks : CBasicKeyStore) (hash nHashType : Z) (scriptSigRet : list Z)
    : outcome unit (bool * list Z) :=
  let nRequired := front0 multisigdata in
  '(nSigned, scriptSigRet) ← sign_keys (removelast (tl multisigdata)) 0 nRequired ks hash nHashType scriptSigRet;
  mret (nSigned =? nRequired, scriptSigRet).

(** [Sign1] as a boolean, with the script it leaves. *)
Definition or_false (s : list Z) (m : outcome unit (list Z)) : outcome unit (bool * list Z) :=
  match m with
  | Ok s' => mret (true, s')
  | Err _ => mret (false, s)
  | Throw => Throw
  | Crash => Crash
  end.

(** [Solver(keystore, scriptPubKey, hash, nHashType, scriptSigRet, whichTypeRet)] *)
Definition Solver_sign (ks : CBasicKeyStore) (scriptPubKey : list Z) (hash nHashType : Z)
    : outcome unit (bool * txnouttype * list Z) :=
  match Solver scriptPubKey with
  | (false, whichTypeRet, _) => mret (false, whichTypeRet, [])
  | (true, whichTypeRet, vSolutions) =>
    '(ret, scriptSigRet) ←
      match whichTypeRet with
      | TX_NONSTANDARD | TX_NULL_DATA => mret (false, [])
      | TX_PUBKEY => or_false [] (Sign1 (CPubKey_GetID (nth 0 vSolutions [])) ks hash nHashType [])
      | TX_PUBKEYHASH =>
        let keyID := nth 0 vSolutions [] in
        '(ok, scriptSigRet) ← or_false [] (Sign1 keyID ks hash nHashType []);
        if negb ok then mret (false, scriptSigRet)
        else
          vch ← store_GetPubKey ks keyID;
          let data := pubkey_data (default CPubKey_new vch) in
          _ ← assert_that (zlen data <? op_code OP_PUSHDATA1);
          mret (true, scriptSigRet ++ zlen data :: data)
      | TX_SCRIPTHASH =>
        match GetCScript ks (nth 0 vSolutions []) with
        | Some subscript => mret (true, subscript)
        | None => mret (false, [])
        end
      | TX_MULTISIG => SignN vSolutions ks hash nHashType (push_op OP_0 [])
      end;
    mret (ret, whichTypeRet, scriptSigRet)
  end.

Definition set_scriptSig (tx : CTransaction) (n : nat) (script : list Z) : CTransaction :=
  with_vin tx (alter (fun txin => {| prevout := prevout txin; scriptSig := script; nSequence := nSequence txin |}) n (vin tx)).

(** The checker [SignatureChecker(txTo, nIn)]. *)
Definition signature_checker (txTo : CTransaction) (nIn : Z) : SigBackend := {|
  CheckLowS := pubkey_CheckLowS;
  checker_CheckSig := SignatureChecker_CheckSig txTo nIn
|}.

Definition verified (m : outcome ScriptError unit) : outcome unit bool :=
  match m with
  | Ok _ => mret true
  | Err _ => mret false
  | Throw => Throw
  | Crash => Crash
  end.

Definition SignSignature (ks : CBasicKeyStore) (fromPubKey : list Z) (txTo : CTransaction) (nIn nHashType : Z)
    : outcome unit (bool * CTransaction) :=
  _ ← assert_that (nIn <? zlen (vin txTo));
  let n := Z.to_nat nIn in
  let hash := SignatureHash fromPubKey txTo nIn nHashType in
  '(ok, whichType, sig) ← Solver_sign ks fromPubKey hash nHashType;
  let txTo := set_scriptSig txTo n sig in
  if negb ok then mret (false, txTo)
  else
    '(fSolved, txTo) ←
      (if bool_decide (whichType = TX_SCRIPTHASH) then
         let subscript := sig in
         let hash2 := SignatureHash subscript txTo nIn nHashType in
         '(ok, subType, sig) ← Solver_sign ks subscript hash2 nHashType;
         let fSolved := ok && negb (bool_decide (subType = TX_SCRIPTHASH)) in
         mret (fSolved, set_scriptSig txTo n (sig ++ push_data subscript))
       else mret (true, txTo));
    if negb fSolved then mret (false, txTo)
    else
      let scriptSig := match vin txTo !! n with Some txin => scriptSig txin | None => [] end in
      ok ← verified (VerifyScript (SB := signature_checker txTo nIn) scriptSig fromPubKey STANDARD_SCRIPT_VERIFY_FLAGS);
      mret (ok, txTo).

(** [SignSignature(keystore, txFrom, txTo, nIn, nHashType)] *)
Definition SignSignature_from (ks : CBasicKeyStore) (txFrom txTo : CTransaction) (nIn nHashType : Z)
    : outcome unit (bool * CTransaction) :=
  match vin txTo !! Z.to_nat nIn with
  | None => Crash
  | Some txin =>
    match vout txFrom !! Z.to_nat (prevout_n (prevout txin)) with
    | None => Crash
    | Some txout => SignSignature ks (scriptPubKey txout) txTo nIn nHashType
    end
  end.

(** ** Signature creators *)

(** [TransactionSignatureCreator::CreateSig]; [Err] is false. *)
Definition CreateSig (ks : CBasicKeyStore) (txTo : CTransaction) (nIn nHashType : Z) (address scriptCode : list Z)
    : outcome unit (list Z) :=
  match GetKey ks address with
  | None => Err tt
  | Some key =>
    let hash := SignatureHash scriptCode txTo nIn nHashType in
    vchSig ← key_Sign key hash 0;
    mret (vchSig ++ [nHashType mod 256])
  end.

Section creator.
(** The key store and [CreateSig] of the creator. *)
Context (ks : CBasicKeyStore) (create : list Z -> list Z -> outcome unit (list Z)).

(** [Sign1c]; on false [ret] is unchanged. *)
Definition Sign1c (address scriptCode : list Z) (ret : list valtype) : outcome unit (list valtype) :=
  vchSig ← create address scriptCode;
  mret (ret ++ [vchSig]).

Fixpoint sign_keys_c (keys : list valtype) (nSigned nRequired : Z) (scriptCode : list Z) (ret : list valtype)
    : outcome unit (Z * list valtype) :=
  match keys with
  | [] => mret (nSigned, ret)
  | pubkey :: keys =>
    if negb (nSigned <? nRequired) then mret (nSigned, ret)
    else
      match Sign1c (CPubKey_GetID pubkey) scriptCode ret with
      | Ok ret => sign_keys_c keys (nSigned + 1) nRequired scriptCode ret
      | Err _ => sign_keys_c keys nSigned nRequired scriptCode ret
      | Throw => Throw
      | Crash => Crash
      end
  end.

Definition SignNc (multisigdata : list valtype) (scriptCode : list Z) (ret : list valtype) : outcome unit (bool * list valtype) :=
  let nRequired := front0 multisigdata in
  '(nSigned, ret) ← sign_keys_c (removelast (tl multisigdata)) 0 nRequired scriptCode ret;
  mret (nSigned =? nRequired, ret).

Definition or_false_c (m : outcome unit (list valtype)) : outcome unit (bool * list valtype) :=
  match m with
  | Ok ret => mret (true, ret)
  | Err _ => mret (false, [])
  | Throw => Throw
  | Crash => Crash
  end.

Definition SignStep (scriptPubKey : list Z) : outcome unit (bool * txnouttype * list valtype) :=
  match Solver scriptPubKey with
  | (false, whichTypeRet, _) => mret (false, whichTypeRet, [])
  | (true, whichTypeRet, vSolutions) =>
    '(ok, ret) ←
      match whichTypeRet with
      | TX_NONSTANDARD | TX_NULL_DATA => mret (false, [])
      | TX_PUBKEY => or_false_c (Sign1c (CPubKey_GetID (nth 0 vSolutions [])) scriptPubKey [])
      | TX_PUBKEYHASH =>
        let keyID := nth 0 vSolutions [] in
        '(ok, ret) ← or_false_c (Sign1c keyID scriptPubKey []);
        if negb ok then mret (false, ret)
        else
          vch ← store_GetPubKey ks keyID;
          mret (true, ret ++ [pubkey_data (default CPubKey_new vch)])
      | TX_SCRIPTHASH =>
        match GetCScript ks (nth 0 vSolutions []) with
        | Some scriptRet => mret (true, [scriptRet])
        | None => mret (false, [])
        end
      | TX_MULTISIG => SignNc vSolutions scriptPubKey [[]]
      end;
    mret (ok, whichTypeRet, ret)
  end.

(** [PushAll] *)
Definition PushAll (values : list valtype) : list Z := foldl (fun result v => result ++ push_data v) [] values.

(** [ProduceSignature]: the result and [sigdata.scriptSig]. *)
Definition ProduceSignature (SB : SigBackend) (fromPubKey : list Z) : outcome unit (bool * list Z) :=
  '(solved, whichType, result) ← SignStep fromPubKey;
  '(solved, result) ←
    (if solved && bool_decide (whichType = TX_SCRIPTHASH) then
       let subscript := hd [] result in
       '(ok, whichType, result) ← SignStep subscript;
       mret (ok && negb (bool_decide (whichType = TX_SCRIPTHASH)), result ++ [subscript])
     else mret (solved, result));
  let scriptSig := PushAll result in
  if negb solved then mret (false, scriptSig)
  else
    ok ← verified (VerifyScript (SB := SB) scriptSig fromPubKey STANDARD_SCRIPT_VERIFY_FLAGS);
    mret (ok, scriptSig).
End creator.

Definition transaction_ProduceSignature (ks : CBasicKeyStore) (txTo : CTransaction) (nIn nHashType : Z) (fromPubKey : list Z) :=
  ProduceSignature ks (CreateSig ks txTo nIn nHashType) (signature_checker txTo nIn) fromPubKey.
End store.

(** ** Combining signatures *)

(** [std::set<valtype>::insert] *)
Fixpoint vset_insert (v : valtype) (s : list valtype) : list valtype :=
  match s with
  | [] => [v]
  | x :: s' => if bytes_lt v x then v :: s else if bytes_lt x v then x :: vset_insert v s' else s
  end.

Section combine.
(** [checker.CheckSig(sig, pubkey, scriptPubKey)] *)
Context (check : valtype -> valtype -> list Z -> bool).

Definition insert_sigs (sigs allsigs : list valtype) : list valtype :=
  foldl (fun allsigs v => if zlen v =? 0 then allsigs else vset_insert v allsigs) allsigs sigs.

(** The inner loop: the first key without signature that [sig] checks for. *)
Fixpoint match_sig (sig : valtype) (keys : list valtype) (scriptPubKey : list Z) (sigs : gmap valtype valtype) : gmap valtype valtype :=
  match keys with
  | [] => sigs
  | pubkey :: keys =>
    match sigs !! pubkey with
    | Some _ => match_sig sig keys scriptPubKey sigs
    | None => if check sig pubkey scriptPubKey then <[pubkey := sig]> sigs else match_sig sig keys scriptPubKey sigs
    end
  end.

(** The merged signatures of the first [n] keys that have one. *)
Fixpoint merge_sigs (n : nat) (keys : list valtype) (sigs : gmap valtype valtype) : list valtype :=
  match n, keys with
  | O, _ => []
  | _, [] => []
  | S n', pubkey :: keys =>
    match sigs !! pubkey with
    | Some sig => sig :: merge_sigs n' keys sigs
    | None => merge_sigs n keys sigs
    end
  end.

Definition CombineMultisig (scriptPubKey : list Z) (vSolutions sigs1 sigs2 : list valtype) : outcome unit (list valtype) :=
  let allsigs := insert_sigs sigs2 (insert_sigs sigs1 []) in
  _ ← assert_that (1 <? zlen vSolutions);
  let nSigsRequired := Z.to_nat (front0 vSolutions) in
  let keys := removelast (tl vSolutions) in
  let sigs := foldl (fun sigs sig => match_sig sig keys scriptPubKey sigs) ∅ allsigs in
  let have := merge_sigs nSigsRequired keys sigs in
  mret ([] :: have ++ replicate (nSigsRequired - length have) []).

(** [CombineSignatures] on the stacks of the two scripts, from the bottom; the
    recursion pops a stack, whose length is fuel enough. *)
Fixpoint CombineSignatures (fuel : nat) (scriptPubKey : list Z) (txType : txnouttype) (vSolutions sigs1 sigs2 : list valtype)
    : outcome unit (list valtype) :=
  match txType with
  | TX_NONSTANDARD | TX_NULL_DATA =>
    mret (if zlen sigs2 <=? zlen sigs1 then sigs1 else sigs2)
  | TX_PUBKEY | TX_PUBKEYHASH =>
    mret (match sigs1 with [] | [] :: _ => sigs2 | _ => sigs1 end)
  | TX_SCRIPTHASH =>
    if (zlen sigs1 =? 0) || (zlen (List.last sigs1 []) =? 0) then mret sigs2
    else if (zlen sigs2 =? 0) || (zlen (List.last sigs2 []) =? 0) then mret sigs1
    else
      match fuel with
      | O => Throw
      | S fuel =>
        let spk := List.last sigs1 [] in
        let '(_, txType2, vSolutions2) := Solver spk in
        result ← CombineSignatures fuel spk txType2 vSolutions2 (removelast sigs1) (removelast sigs2);
        mret (result ++ [spk])
      end
  | TX_MULTISIG => CombineMultisig scriptPubKey vSolutions sigs1 sigs2
  end.
End combine.
