(* ===== verification/SignProps.v ===== *)
(** * A key store signs what it holds the keys of

    For the scripts the code makes for keys, key hashes, multisignatures and
    script hashes, [SignSignature] with a key store that holds the keys writes
    a script the interpreter accepts; what [IsMine] says is related to it; the
    combination of partial multisignatures keeps the order of the keys. *)

From stdpp Require Import sorting.
From S2P Require Import Prelude Opcode ScriptNum Script ScriptFacts SigEncoding Der Interp InterpFacts InterpSafe InterpProps Multisig Transaction SigHash Standard StandardProps HashStream Hash HashProps Keys KeysProps Sign.

Local Open Scope Z_scope.

(** ** Running the templates *)

Section run.
Context {SH : ScriptHashes} {SB : SigBackend}.

Lemma run_smallint flags k rest code stack alt vf n :
  1 <= k <= 16 -> forallb id vf = true -> zlen stack + zlen alt < 1000 ->
  run flags (EvalState (0x50 + k :: rest) code stack alt vf n) =
  run flags (EvalState rest code (serialize k :: stack) alt vf n).
Proof.
  intros Hk Hvf Hsz.
  rewrite (run_instr flags _ _ _ _ rest (opcode_instr (0x50 + k) ltac:(lia))) by done.
  assert (exists op, opcode_of_byte (0x50 + k) = op /\ op_gtb op OP_16 = false /\ op_leb op OP_PUSHDATA4 = false /\
    disabled_opcode op = false /\ op_code op - (op_code OP_1 - 1) = k /\
    forall st, exec_op op flags true st = Ok (with_stack st (exec_push op (es_stack st)))) as (op & -> & H1 & H2 & H3 & H4 & H5).
  { assert (k = 1 \/ k = 2 \/ k = 3 \/ k = 4 \/ k = 5 \/ k = 6 \/ k = 7 \/ k = 8 \/ k = 9 \/ k = 10 \/ k = 11 \/
      k = 12 \/ k = 13 \/ k = 14 \/ k = 15 \/ k = 16) as Hcases by lia.
    repeat destruct Hcases as [->|Hcases]; [..|subst k]; eexists; split_and!; reflexivity. }
  unfold eval_instr. cbn [es_vfExec es_nOpCount es_codehash es_stack es_altstack].
  rewrite Hvf, H1, H2, H3, andb_false_r. change (MAX_SCRIPT_ELEMENT_SIZE <? zlen []) with false.
  cbn [andb orb fail_if mbind outcome_bind]. rewrite H5. cbn [mbind outcome_bind with_stack es_stack es_altstack].
  unfold exec_push. rewrite H4, zlen_cons.
  assert ((1000 <? 1 + zlen stack + zlen alt) = false) as -> by lia. done.
Qed.
End run.

(** A signature's push is not among the chunks of the script. *)

(** A signature's push is not among the chunks of the script. *)
Lemma FindAndDelete_none script cs d :
  zlen d < 2 ^ 32 -> parses script cs [] -> Forall (fun c => c <> push_data d) cs ->
  snd (FindAndDelete script (push_data d)) = script.
Proof.
  intros Hd Hp Hne. rewrite (FindAndDelete_instr _ _ _ _ _ _ (push_data_instr d Hd) Hp). cbn [snd].
  rewrite (parses_concat _ _ _ Hp). f_equal. f_equal. clear Hp.
  induction Hne as [|c cs Hc _ IH]; [done|]. by rewrite filter_cons_True, IH.
Qed.

Lemma push_data_inj a b : zlen a < 2 ^ 32 -> zlen b < 2 ^ 32 -> push_data a = push_data b -> a = b.
Proof.
  intros Ha Hb E. pose proof (instr_GetOp2 _ _ _ [] (push_data_instr a Ha)) as G.
  rewrite E, (instr_GetOp2 _ _ _ [] (push_data_instr b Hb)) in G. congruence.
Qed.

Lemma push_data_long d op : 2 <= zlen d -> [op] <> push_data d.
Proof.
  intros Hd E. assert (zlen (push_data d) > 1) as Hl.
  { unfold push_data. repeat case_match; autorewrite with zlen; rewrite ?zlen_le_encode; lia. }
  rewrite <-E in Hl. by vm_compute in Hl.
Qed.

(** ** The scripts of the code *)

Definition pubkey_script (key : list Z) : list Z := push_data key ++ [0xac].

Definition multisig_script (m : Z) (keys : list valtype) : list Z :=
  0x50 + m :: concat (map push_data keys) ++ [0x50 + zlen keys; 0xae].

Lemma foldl_push (ds : list valtype) s : foldl (fun s d => s ++ push_data d) s ds = s ++ concat (map push_data ds).
Proof.
  revert s. induction ds as [|d ds IH]; intros s; cbn [foldl map concat]; [by rewrite app_nil_r|].
  by rewrite IH, <-app_assoc.
Qed.

Lemma GetScriptForMultisig_eq {E} m keys : 1 <= m <= 16 -> 1 <= zlen keys <= 16 ->
  GetScriptForMultisig (E := E) m keys = Ok (multisig_script m keys).
Proof.
  intros Hm Hn. unfold GetScriptForMultisig.
  assert (forall k, 1 <= k <= 16 -> exists op, EncodeOP_N (E := E) k = Ok op /\ op_code op = 0x50 + k) as Henc.
  { intros k Hk. assert (k = 1 \/ k = 2 \/ k = 3 \/ k = 4 \/ k = 5 \/ k = 6 \/ k = 7 \/ k = 8 \/ k = 9 \/ k = 10 \/ k = 11 \/
      k = 12 \/ k = 13 \/ k = 14 \/ k = 15 \/ k = 16) as Hcases by lia.
    repeat destruct Hcases as [->|Hcases]; [..|subst k]; eexists; split; reflexivity. }
  destruct (Henc m Hm) as (om & -> & Eom). destruct (Henc (zlen keys) Hn) as (on & -> & Eon).
  cbn [mbind outcome_bind mret outcome_ret]. f_equal. unfold push_op, multisig_script. rewrite Eom, Eon. cbn [app].
  rewrite foldl_push. cbn [app]. by rewrite <-app_assoc.
Qed.

Section eval.
Context {SH : ScriptHashes} {SB : SigBackend}.

(** A key or signature as the scripts push it. *)
Definition pushable (d : valtype) : Prop := 2 <= zlen d <= 520.

Lemma pushable_fits flags d : pushable d -> push_fits flags d.
Proof.
  intros Hd. split; [unfold MAX_SCRIPT_ELEMENT_SIZE, pushable in *; lia|]. intros _.
  apply CheckMinimalPush_push. unfold pushable in Hd. lia.
Qed.

Lemma EvalScript_pubkey key sig flags :
  pushable key ->
  EvalScript [sig] (pubkey_script key) flags =
  (_ ← check_encodings sig key flags;
   Ok [bool_vch (checker_CheckSig sig key (snd (FindAndDelete (pubkey_script key) (push_data sig))))]).
Proof.
  intros Hk. rewrite EvalScript_run. unfold eval_init.
  pose proof (push_data_size key ltac:(unfold pushable in Hk; lia)) as Hsz.
  assert ((10000 <? zlen (pubkey_script key)) = false) as -> by (unfold pubkey_script; autorewrite with zlen; lia).
  cbn [fail_if mbind outcome_bind]. unfold pubkey_script at 1.
  rewrite run_push by (done || by apply pushable_fits).
  rewrite run_op by done. cbn -[bool_decide run pubkey_script FindAndDelete push_data]. rewrite exec_checksig_top.
  pose proof (check_encodings_raises False sig key flags).
  destruct (check_encodings _ _ _) as [[]| | |]; [|done..]. cbn -[run pubkey_script FindAndDelete push_data].
  by rewrite run_nil.
Qed.

Lemma concat_pushes_size ds b : Forall (fun d => zlen (push_data d) <= b) ds -> zlen (concat (map push_data ds)) <= b * zlen ds.
Proof.
  induction 1 as [|d ds Hd _ IH]; cbn [map concat]; [unfold zlen; cbn; lia|].
  rewrite zlen_app, zlen_cons. lia.
Qed.

Lemma EvalScript_multisig m keys sigs flags :
  1 <= m <= zlen keys -> zlen keys <= 16 -> Forall pushable keys -> zlen sigs = m ->
  encodings_ok flags sigs keys ->
  EvalScript (sigs ++ [[]]) (multisig_script m keys) flags =
    Ok [bool_vch (greedy (fun s k => checker_CheckSig s k (without_sigs (multisig_script m keys) sigs)) sigs (reverse keys))].
Proof.
  intros Hm Hn Hkeys Hsigs Henc. rewrite EvalScript_run. unfold eval_init.
  assert (zlen (concat (map push_data keys)) <= 525 * zlen keys) as Hsz.
  { apply concat_pushes_size. eapply Forall_impl; [exact Hkeys|]. intros d Hd. apply push_data_size. unfold pushable in Hd. lia. }
  assert ((10000 <? zlen (multisig_script m keys)) = false) as -> by (unfold multisig_script; autorewrite with zlen; lia).
  cbn [fail_if mbind outcome_bind]. unfold multisig_script at 1.
  pose proof (zlen_nonneg sigs). assert (zlen (sigs ++ [[]]) = m + 1) as Hst by (rewrite zlen_app, Hsigs; done).
  rewrite run_smallint by (done || lia || (rewrite Hst, (@zlen_nil valtype); lia)).
  rewrite run_pushes; [| |done|rewrite zlen_cons, Hst, (@zlen_nil valtype); lia].
  2: { eapply Forall_impl; [exact Hkeys|]. intros d. apply pushable_fits. }
  rewrite run_smallint; [|lia|done|].
  2: { rewrite zlen_app, zlen_cons, Hst, (@zlen_nil valtype). unfold zlen at 1. rewrite length_reverse. unfold zlen in *. lia. }
  assert (serialize (zlen keys) :: reverse keys ++ serialize m :: sigs ++ [[]] = multisig_stack sigs (reverse keys) [] []) as ->.
  { unfold multisig_stack. rewrite Hsigs. f_equal. unfold zlen. by rewrite length_reverse. }
  assert (zlen (reverse keys) = zlen keys) as Hrk by (unfold zlen; by rewrite length_reverse).
  erewrite run_op_Ok; [|done..| |].
  3: instantiate (1 := EvalState [] _ [_] [] [] _); done.
  2: { cbn -[exec_checkmultisig multisig_script multisig_stack]. rewrite exec_checkmultisig_run; [reflexivity|lia|lia| |done].
       intros s k Hs Hk. apply Henc; [done|rewrite elem_of_reverse in Hk; exact Hk]. }
  by rewrite run_nil.
Qed.
End eval.

(** ** What [Sign1] writes *)

Section sign.
Context {SH : ScriptHashes} {SHok : ScriptHashesOk SH} {SECP : Secp256k1} {Laws : Secp256k1Laws SECP}.

(** The bytes of the public key of [key], whose point is [P]. *)
Definition pub_of (key : CKey) (P : secp256k1_pubkey) : list Z := secp256k1_ec_pubkey_serialize (fCompressed key) P.

Lemma pub_of_facts key P :
  CPubKey_of (pub_of key P) = Some (pub_of key P) /\ IsCompressedOrUncompressedPubKey (pub_of key P) = true /\
  zlen (pub_of key P) = (if fCompressed key then 33 else 65) /\ hd 0 (pub_of key P) <> 0x30.
Proof.
  pose proof (serialize_size (fCompressed key) P) as Hsz. unfold pub_of.
  destruct (serialize_form (fCompressed key) P) as (h & d & E & Hf). rewrite E in *.
  unfold CPubKey_of, IsCompressedOrUncompressedPubKey. change (byte_at (h :: d) 0) with h. rewrite Hsz.
  destruct (fCompressed key).
  - by destruct Hf as [[->| ->] _].
  - by destruct Hf as [-> _].
Qed.

(** The hash types [IsDefinedHashtypeSignature] accepts. *)
Definition hashtype_ok (ht : Z) : Prop := byte_ok ht /\ SIGHASH_ALL <= Z.land ht (Z.lnot SIGHASH_ANYONECANPAY) <= SIGHASH_SINGLE.

(** The standard flags, and those that also evaluate redeem scripts. *)
Definition std_flags (flags : Z) : Prop :=
  flags = STANDARD_SCRIPT_VERIFY_FLAGS \/ flags = Z.lor STANDARD_SCRIPT_VERIFY_FLAGS SCRIPT_VERIFY_P2SH.

(** A signature the interpreter takes with the standard flags. *)
Definition sig_ok (sig : list Z) : Prop :=
  9 <= zlen sig <= 73 /\ hd 0 sig = 0x30 /\
  forall (low : valtype -> bool) flags e, std_flags flags -> CheckSignatureEncoding low sig flags e = Ok tt.

Lemma sig_ok_pushable sig : sig_ok sig -> pushable sig.
Proof. intros [H _]. unfold pushable. lia. Qed.

Lemma sig_ok_encoding (SB : SigBackend) sig key flags : std_flags flags ->
  sig_ok sig -> IsCompressedOrUncompressedPubKey key = true -> check_encodings sig key flags = Ok tt.
Proof.
  intros Hf (_ & _ & H) Hk. unfold check_encodings. rewrite H by done. cbn [mbind outcome_bind].
  unfold CheckPubKeyEncoding. by rewrite Hk, andb_false_r.
Qed.

Lemma signed_ok d r s ht : bytes_ok d -> d = der_sequence r s [] -> der_positive r -> der_positive s -> zlen d <= 72 ->
  hashtype_ok ht -> sig_ok (d ++ [ht]).
Proof.
  intros Hd -> Hr Hs Hlen [Hht Hdef].
  rewrite zlen_der_sequence in Hlen. change (zlen (@nil Z)) with 0 in Hlen.
  assert (2 <= zlen r + zlen s) as Hmin.
  { destruct Hr as (? & ? & -> & _), Hs as (? & ? & -> & _). rewrite !zlen_cons.
    pose proof (zlen_nonneg x0). pose proof (zlen_nonneg x2). lia. }
  assert (IsDERSignature (der_sequence r s [] ++ [ht]) true = true) as Hder.
  { apply IsDERSignature_spec; [by apply Forall_app_2; [|apply Forall_singleton]|].
    assert (der_sequence r s [] ++ [ht] = der_sequence r s [ht]) as ->.
    { unfold der_sequence. by rewrite !app_nil_r, <-!app_assoc. }
    exists r, s, [ht]. split_and!; try done; rewrite zlen_der_sequence; change (zlen [ht]) with 1; lia. }
  split_and!; [rewrite zlen_app, zlen_der_sequence; change (zlen (@nil Z)) with 0; change (zlen [ht]) with 1; lia..|done|].
  intros low flags e Hf. unfold CheckSignatureEncoding. rewrite Hder, andb_false_r.
  assert (has_flag flags SCRIPT_VERIFY_LOW_S = false) as -> by (by destruct Hf as [->| ->]).
  cbn [fail_if mbind outcome_bind mret outcome_ret].
  assert (IsDefinedHashtypeSignature (der_sequence r s [] ++ [ht]) = true) as ->; [|by rewrite andb_false_r].
  unfold IsDefinedHashtypeSignature. rewrite zlen_app. change (zlen [ht]) with 1.
  pose proof (zlen_nonneg (der_sequence r s [])).
  destruct (Z.eqb_spec (zlen (der_sequence r s []) + 1) 0); [lia|].
  assert (byte_at (der_sequence r s [] ++ [ht]) (zlen (der_sequence r s []) + 1 - 1) = ht) as ->.
  { apply byte_at_app. lia. }
  apply negb_true_iff, orb_false_iff. split; lia.
Qed.

(** The key store holds the key under its identifier. *)
Definition holds_key (ks : CBasicKeyStore) (id : list Z) (key : CKey) (P : secp256k1_pubkey) : Prop :=
  mapKeys ks !! id = Some key /\ key_of key P /\ id = h_hash160 (pub_of key P).

Lemma key_Sign_checks key P hash e ht : key_of key P -> hashtype_ok ht ->
  exists d, key_Sign key hash e = Ok d /\ sig_ok (d ++ [ht]) /\
    forall txTo nIn code, SignatureHash code txTo nIn ht = hash ->
      SignatureChecker_CheckSig txTo nIn (d ++ [ht]) (pub_of key P) code = true.
Proof.
  intros HP Hht.
  destruct (sign_facts key P hash e HP) as (d & Ed & Hd & (r & s & Eds & Hr & Hs) & Hlen & _ & Hver).
  exists d. split_and!; [done|by eapply signed_ok|].
  intros txTo nIn code Hhash. destruct (pub_of_facts key P) as (Hof & _).
  unfold SignatureChecker_CheckSig. rewrite Hof.
  destruct (d ++ [ht]) as [|x l] eqn:E; [by destruct d|]. rewrite <-E.
  rewrite List.last_last, removelast_last, Hhash.
  apply (Hver _ (fCompressed key)). apply pubkey_Set_serialize.
Qed.

Lemma Sign1_spec ks id key P hash ht s : holds_key ks id key P -> hashtype_ok ht ->
  exists sig, Sign1 id ks hash ht s = Ok (s ++ push_data sig) /\ sig_ok sig /\
    forall txTo nIn code, SignatureHash code txTo nIn ht = hash ->
      SignatureChecker_CheckSig txTo nIn sig (pub_of key P) code = true.
Proof.
  intros (Hk & HP & _) Hht. destruct (key_Sign_checks key P hash 1 ht HP Hht) as (d & Ed & Hok & Hver).
  exists (d ++ [ht]). split_and!; [|done|done].
  unfold Sign1, GetKey. rewrite Hk, Ed. cbn [mbind outcome_bind mret outcome_ret].
  destruct Hht as [Hb _]. unfold byte_ok in Hb. by rewrite Z.mod_small.
Qed.

Lemma store_GetPubKey_spec ks id key P : holds_key ks id key P ->
  exists pub, store_GetPubKey ks id = Ok (Some pub) /\ pubkey_data pub = pub_of key P.
Proof.
  intros (Hk & HP & _). destruct (GetPubKey_spec key P HP) as (pub & E & Hh).
  exists pub. unfold store_GetPubKey, GetKey. rewrite Hk, E. split; [done|]. by apply holds_data.
Qed.

(** Altering an element in a way [g] does not see. *)
Lemma map_alter_id {A B} (f : A -> A) (g : A -> B) n l : (forall x, g (f x) = g x) -> map g (alter f n l) = map g l.
Proof.
  intros Hg. revert n. induction l as [|x l IH]; intros n; [done|]. destruct n as [|n]; cbn; [by rewrite Hg|].
  f_equal. apply IH.
Qed.

Lemma nth_alter_id {A B} (f : A -> A) (g : A -> B) n l d : (forall x, g (f x) = g x) -> g (nth n (alter f n l) d) = g (nth n l d).
Proof.
  intros Hg. revert n. induction l as [|x l IH]; intros n; [by destruct n|]. destruct n as [|n]; cbn; [done|apply IH].
Qed.

(** The signature hash does not read the script being written. *)
Lemma SignatureHash_scriptSig code tx nIn ht s :
  SignatureHash code (set_scriptSig tx (Z.to_nat nIn) s) nIn ht = SignatureHash code tx nIn ht.
Proof.
  unfold SignatureHash, sighash_tx, set_scriptSig. cbn [vin with_vin].
  assert (zlen (alter (fun txin => {| prevout := prevout txin; scriptSig := s; nSequence := nSequence txin |})
    (Z.to_nat nIn) (vin tx)) = zlen (vin tx)) as Hlen by (unfold zlen; by rewrite length_alter).
  rewrite Hlen.
  set (f := fun txin => {| prevout := prevout txin; scriptSig := s; nSequence := nSequence txin |}).
  destruct (zlen (vin tx) <=? nIn); [done|].
  assert (forall c, blank_scripts c (Z.to_nat nIn) (alter f (Z.to_nat nIn) (vin tx)) =
    blank_scripts c (Z.to_nat nIn) (vin tx)) as Hbl; [|by rewrite Hbl].
  intros c. unfold blank_scripts. rewrite map_alter_id by done.
  f_equal. by rewrite (nth_alter_id f (fun txin => with_scriptSig txin c)).
Qed.

(** ** The scripts a key store signs for *)

(** No signature is part of a script of keys. *)
Lemma sig_not_key sig key P : sig_ok sig -> sig <> pub_of key P.
Proof. intros (_ & Hhd & _) ->. by destruct (pub_of_facts key P) as (_ & _ & _ & H). Qed.

Lemma pub_pushable key P : pushable (pub_of key P).
Proof. destruct (pub_of_facts key P) as (_ & _ & H & _). unfold pushable. destruct (fCompressed key); lia. Qed.

Lemma multisig_parses m keys : 1 <= m <= 16 -> 1 <= zlen keys <= 16 -> Forall pushable keys ->
  parses (multisig_script m keys) ([0x50 + m] :: map push_data keys ++ [[0x50 + zlen keys]; [0xae]]) [].
Proof.
  intros Hm Hn Hk.
  assert (multisig_script m keys = concat ([0x50 + m] :: map push_data keys ++ [[0x50 + zlen keys]; [0xae]]) ++ []) as ->.
  { unfold multisig_script. cbn [concat app]. by rewrite concat_app, app_nil_r. }
  apply parses_build; [|done]. constructor; [eexists _, _; apply opcode_instr; lia|].
  apply Forall_app_2; [|repeat constructor; eexists _, _; apply opcode_instr; lia].
  apply Forall_map. eapply Forall_impl; [exact Hk|]. intros d Hd. eexists _, _. apply push_data_instr. unfold pushable in Hd. lia.
Qed.

Lemma without_sigs_multisig m keys sigs : 1 <= m <= 16 -> 1 <= zlen keys <= 16 -> Forall pushable keys ->
  Forall (fun s => pushable s /\ s ∉ keys) sigs -> without_sigs (multisig_script m keys) sigs = multisig_script m keys.
Proof.
  intros Hm Hn Hk. induction 1 as [|sg sigs [Hs Hne] _ IH]; [done|]. unfold without_sigs in *. cbn [fold_left].
  assert (zlen sg < 2 ^ 32 /\ 2 <= zlen sg) as [Hs1 Hs2] by (unfold pushable in Hs; lia).
  rewrite (FindAndDelete_none _ _ _ Hs1 (multisig_parses m keys Hm Hn Hk)); [done|].
  constructor; [by apply push_data_long|]. apply Forall_app_2; [|repeat constructor; by apply push_data_long].
  apply Forall_map, Forall_forall. intros k Hin E. apply push_data_inj in E; [by subst| |done].
  rewrite Forall_forall in Hk. specialize (Hk k Hin). unfold pushable in Hk. lia.
Qed.

Lemma FindAndDelete_pubkey key sig : pushable key -> pushable sig -> sig <> key ->
  snd (FindAndDelete (pubkey_script key) (push_data sig)) = pubkey_script key.
Proof.
  intros Hk Hs Hne. unfold pushable in *.
  apply (FindAndDelete_none _ [push_data key; [0xac]]); [lia| |].
  - assert (pubkey_script key = concat [push_data key; [0xac]] ++ []) as -> by (cbn; by rewrite !app_nil_r).
    apply parses_build; [|done]. repeat constructor; eexists _, _; [apply push_data_instr; lia|by apply opcode_instr].
  - repeat constructor; [|apply push_data_long; lia]. intros E. apply push_data_inj in E; [by subst|lia..].
Qed.

(** The keys of a script that the store has are its own, no other key with
    the same hash. *)
Definition own_keys (ks : CBasicKeyStore) (keys : list valtype) : Prop :=
  Forall (fun k => pushable k /\ IsCompressedOrUncompressedPubKey k = true /\ hd 0 k <> 0x30 /\
    (HaveKey ks (CPubKey_GetID k) = true -> exists key P, holds_key ks (CPubKey_GetID k) key P /\ k = pub_of key P)) keys.

(** What the interpreter checks of a signature for a key. *)
Definition signs_for (hash ht : Z) (sig key : valtype) : Prop :=
  sig_ok sig /\ forall txTo nIn code, SignatureHash code txTo nIn ht = hash ->
    SignatureChecker_CheckSig txTo nIn sig key code = true.

Lemma sign_keys_spec ks hash ht m keys nSigned s :
  hashtype_ok ht -> own_keys ks keys -> nSigned <= m ->
  exists sigs ks', sign_keys keys nSigned m ks hash ht s = Ok (nSigned + zlen sigs, s ++ concat (map push_data sigs)) /\
    ks' `sublist_of` keys /\ Forall2 (signs_for hash ht) sigs ks' /\
    nSigned + zlen sigs = Z.min m (nSigned + HaveKeys keys ks).
Proof.
  intros Hht Hown. unfold HaveKeys.
  assert (forall l (a : Z), foldl (fun n pubkey => if HaveKey ks (CPubKey_GetID pubkey) then n + 1 else n) a l =
    a + foldl (fun n pubkey => if HaveKey ks (CPubKey_GetID pubkey) then n + 1 else n) 0 l) as Hacc.
  { induction l as [|x l IH]; intros a; cbn [foldl]; [lia|]. rewrite IH. symmetry. rewrite IH.
    destruct (HaveKey ks (CPubKey_GetID x)); lia. }
  assert (forall l, 0 <= foldl (fun n pubkey => if HaveKey ks (CPubKey_GetID pubkey) then n + 1 else n) 0 l) as Hpos.
  { induction l as [|x l IH]; cbn [foldl]; [lia|]. rewrite Hacc. destruct (HaveKey ks (CPubKey_GetID x)); lia. }
  revert nSigned s. induction Hown as [|k keys (Hpk & Hck & Hhk & Hk) Hkeys IH]; intros nSigned s Hle.
  - exists [], []. cbn. rewrite app_nil_r. unfold zlen. cbn. split_and!; [f_equal; f_equal; lia|done|constructor|lia].
  - cbn [sign_keys foldl]. rewrite Hacc. specialize (Hpos keys).
    destruct (Z.ltb_spec nSigned m) as [Hlt|Hge]; cbn [negb].
    + destruct (HaveKey ks (CPubKey_GetID k)) eqn:Hhave.
      * destruct (Hk eq_refl) as (key & P & Hholds & ->).
        destruct (Sign1_spec ks _ key P hash ht s Hholds Hht) as (sig & -> & Hok & Hver).
        destruct (IH (nSigned + 1) (s ++ push_data sig) ltac:(lia)) as (sigs & ks' & -> & Hsub & HF & Hcount).
        exists (sig :: sigs), (pub_of key P :: ks'). rewrite zlen_cons. cbn [map concat]. split_and!.
        { rewrite <-app_assoc. do 2 f_equal. lia. }
        { by constructor. } { by constructor. } { lia. }
      * assert (Sign1 (CPubKey_GetID k) ks hash ht s = Err tt) as ->.
        { unfold Sign1, GetKey. unfold HaveKey in Hhave. apply bool_decide_eq_false in Hhave.
          by apply eq_None_not_Some in Hhave as ->. }
        destruct (IH nSigned s Hle) as (sigs & ks' & -> & Hsub & HF & Hcount).
        exists sigs, ks'. split_and!; [done|by constructor|done|lia].
    + exists [], []. cbn. rewrite app_nil_r. unfold zlen. cbn.
      split_and!; [f_equal; f_equal; lia|apply sublist_nil_l|constructor|].
      destruct (HaveKey ks (CPubKey_GetID k)); lia.
Qed.

(** The scripts the code makes for keys, which the store can sign for in the
    transaction: a key hash it has the key of (a signature that happens to be
    the hash itself apart), a key, and as many keys as a multisignature asks. *)
Inductive signable (ks : CBasicKeyStore) (tx : CTransaction) (nIn ht : Z) : list Z -> Prop :=
| signable_pubkeyhash id key P :
    holds_key ks id key P ->
    (forall d, key_Sign key (SignatureHash (GetScriptForDestination (CKeyID id)) tx nIn ht) 1 = Ok d -> d ++ [ht] <> id) ->
    signable ks tx nIn ht (GetScriptForDestination (CKeyID id))
| signable_pubkey k :
    own_keys ks [k] -> HaveKey ks (CPubKey_GetID k) = true -> signable ks tx nIn ht (GetScriptForRawPubKey k)
| signable_multisig m keys s :
    1 <= m <= HaveKeys keys ks -> zlen keys <= 16 -> own_keys ks keys ->
    GetScriptForMultisig (E := unit) m keys = Ok s -> signable ks tx nIn ht s.

Lemma key_sized_of k : IsCompressedOrUncompressedPubKey k = true -> key_sized k = true.
Proof.
  unfold IsCompressedOrUncompressedPubKey, key_sized. destruct (Z.ltb_spec (zlen k) 33); [done|].
  destruct (_ =? _); [intros ?%Z.eqb_eq; lia|]. destruct (_ || _); [intros ?%Z.eqb_eq; lia|done].
Qed.

Lemma not_p2sh_head s : hd 0 s <> 0xa9 -> IsPayToScriptHash s = false.
Proof.
  intros Hh. unfold IsPayToScriptHash. replace (byte_at s 0) with (hd 0 s) by (by destruct s).
  change (op_code OP_HASH160) with 0xa9. apply Z.eqb_neq in Hh. by rewrite Hh, andb_false_r.
Qed.

Lemma Solver_raw key : key_sized key = true -> Solver (GetScriptForRawPubKey key) = (true, TX_PUBKEY, [key]).
Proof.
  intros Hsz. apply Solver_complete, (standard_pubkey _ (push_opcode key)); [|done].
  unfold key_sized in Hsz.
  apply (reads_push_op _ [_]); [done..|]. apply (reads_push_data [] []); [lia|constructor].
Qed.

Lemma HaveKeys_bound_from keys ks a :
  a <= foldl (fun n pubkey => if HaveKey ks (CPubKey_GetID pubkey) then n + 1 else n) a keys <= a + zlen keys.
Proof.
  revert a. induction keys as [|x l IH]; intros a; cbn [foldl]; [unfold zlen; cbn; lia|]. rewrite zlen_cons.
destruct (HaveKey ks (CPubKey_GetID x)); [specialize (IH (a + 1))|specialize (IH a)]; lia.
Qed.

Lemma HaveKeys_bound keys ks : 0 <= HaveKeys keys ks <= zlen keys.
Proof. apply (HaveKeys_bound_from keys ks 0). Qed.

Lemma greedy_reverse ok sigs keys : sigs_match ok sigs keys -> greedy ok (reverse sigs) (reverse keys) = true.
Proof.
  intros (ks' & Hsub & HF). apply greedy_spec. exists (reverse ks'). split; [|by apply Forall2_reverse].
  clear HF. induction Hsub as [|x l1 l2 Hs IH|x l1 l2 Hs IH]; [constructor|..]; rewrite !reverse_cons.
  - by apply sublist_app.
  - by apply sublist_inserts_r.
Qed.

(** Signing such a script: pushes that make the interpreter accept it. *)
Lemma Solver_sign_signable ks tx nIn ht s :
  signable ks tx nIn ht s -> hashtype_ok ht ->
  exists t ds, Solver_sign ks s (SignatureHash s tx nIn ht) ht = Ok (true, t, concat (map push_data ds)) /\
    t <> TX_SCRIPTHASH /\ (forall flags, Forall (push_fits flags) ds) /\ zlen ds <= 17 /\
    IsPayToScriptHash s = false /\ 2 <= zlen s /\
    forall tx' flags, std_flags flags -> (forall code, SignatureHash code tx' nIn ht = SignatureHash code tx nIn ht) ->
      EvalScript (SB := signature_checker tx' nIn) (reverse ds) s flags = Ok [bool_vch true].
Proof.
  intros Hs Hht. destruct Hs as [id key P Hk Hne|k Hown Hhave|m keys s Hm Hn Hown Es].
  - pose proof Hk as (Hget & HP & Eid). destruct (pub_of_facts key P) as (Hof & Hcomp & Hlen & Hhd).
    assert (zlen id = 20) as Hid by (rewrite Eid; apply hash160_ok).
    destruct (key_Sign_checks key P (SignatureHash (GetScriptForDestination (CKeyID id)) tx nIn ht) 1 ht HP Hht)
      as (d & Ed & Hok & Hver). specialize (Hne d Ed).
    destruct (store_GetPubKey_spec ks id key P Hk) as (pub & Epub & Hdata).
    exists TX_PUBKEYHASH, [d ++ [ht]; pub_of key P].
    pose proof (sig_ok_pushable _ Hok) as Hsp. pose proof (pub_pushable key P) as Hpp.
    assert (GetScriptForDestination (CKeyID id) = p2pkh id) as Escript.
    { unfold p2pkh. rewrite zlen_push20 by done. cbn. by rewrite <-app_assoc. }
    split_and!; [|done|intros; repeat constructor; by apply pushable_fits|unfold zlen; cbn; lia| | |].
    + destruct (Solver_GetScriptForDestination (CKeyID id) Hid) as (id' & Es & [= <-]).
      unfold Solver_sign. rewrite Es. cbn [nth]. unfold Sign1, GetKey. rewrite Hget, Ed.
      destruct Hht as [Hb _]. unfold byte_ok in Hb. rewrite Z.mod_small by lia.
      cbn [mbind outcome_bind mret outcome_ret or_false negb app]. rewrite Epub. cbn [mbind outcome_bind default].
      unfold Datatypes.id. rewrite Hdata. destruct (Z.ltb_spec (zlen (pub_of key P)) (op_code OP_PUSHDATA1)) as [Hlt|Hge].
      2: { rewrite Hlen in Hge. cbn in Hge. destruct (fCompressed key); lia. }
      cbn [assert_that mbind outcome_bind mret outcome_ret map concat]. rewrite app_nil_r.
      do 4 f_equal. unfold push_data. assert ((zlen (pub_of key P) <? 76) = true) as -> by (by apply Z.ltb_lt). done.
    + rewrite Escript. unfold IsPayToScriptHash, p2pkh. rewrite zlen_push20 by done. autorewrite with zlen.
      assert ((1 + (1 + 0) + (1 + zlen id + (1 + (1 + 0))) =? 23) = false) as -> by lia. done.
    + rewrite Escript. unfold p2pkh. autorewrite with zlen. pose proof (zlen_nonneg (push_data id)). lia.
    + intros tx' flags Hf Hhash. rewrite Escript in *. change (reverse [_; _]) with [pub_of key P; d ++ [ht]].
      rewrite EvalScript_p2pkh by done. rewrite bool_decide_eq_true_2 by done.
      rewrite (sig_ok_encoding _ _ _ _ Hf Hok Hcomp). cbn [mbind outcome_bind].
      rewrite FindAndDelete_p2pkh by (done || (unfold pushable, MAX_SCRIPT_ELEMENT_SIZE in *; lia)).
      cbn [checker_CheckSig signature_checker]. by rewrite Hver.
  - apply Forall_singleton in Hown as (Hpk & Hcomp & Hhd & Hk).
    destruct (Hk Hhave) as (key & P & Hholds & ->).
    destruct (Sign1_spec ks _ key P (SignatureHash (GetScriptForRawPubKey (pub_of key P)) tx nIn ht) ht [] Hholds Hht)
      as (sig & E1 & Hok & Hver).
    pose proof (sig_ok_pushable _ Hok) as Hsp.
    assert (GetScriptForRawPubKey (pub_of key P) = pubkey_script (pub_of key P)) as Escript by done.
    exists TX_PUBKEY, [sig].
    split_and!; [|done|intros; repeat constructor; by apply pushable_fits|unfold zlen; cbn; lia| | |].
    + unfold Solver_sign. rewrite Solver_raw by (by apply key_sized_of). cbn [nth]. rewrite E1.
      cbn [or_false mbind outcome_bind mret outcome_ret map concat app]. by rewrite app_nil_r.
    + rewrite Escript. apply not_p2sh_head. unfold pubkey_script, push_data.
      destruct (pub_of_facts key P) as (_ & _ & Hlen & _).
      assert ((zlen (pub_of key P) <? 76) = true) as -> by (apply Z.ltb_lt; rewrite Hlen; destruct (fCompressed key); lia).
      cbn. rewrite Hlen. destruct (fCompressed key); lia.
    + rewrite Escript. unfold pubkey_script. pose proof (push_data_long (pub_of key P) 0 ltac:(unfold pushable in Hpk; lia)) as Hl.
      rewrite zlen_app. change (zlen [0xac]) with 1. destruct (push_data (pub_of key P)) eqn:Ep; [|rewrite zlen_cons; pose proof (zlen_nonneg l); lia].
      exfalso. unfold push_data in Ep. destruct (zlen (pub_of key P) <? 76); [done|]. by repeat case_match.
    + intros tx' flags Hf Hhash. rewrite Escript in *. change (reverse [sig]) with [sig].
      rewrite EvalScript_pubkey by done. rewrite (sig_ok_encoding _ _ _ _ Hf Hok Hcomp). cbn [mbind outcome_bind].
      rewrite FindAndDelete_pubkey by (done || by apply sig_not_key).
      cbn [checker_CheckSig signature_checker]. by rewrite Hver.
  - pose proof (HaveKeys_bound keys ks) as Hhb.
    rewrite (GetScriptForMultisig_eq m keys) in Es by lia. injection Es as <-.
    assert (Forall pushable keys) as Hpk by (eapply Forall_impl; [exact Hown|]; by intros k (H & _)).
    destruct (sign_keys_spec ks (SignatureHash (multisig_script m keys) tx nIn ht) ht m keys 0 (push_op OP_0 []) Hht Hown ltac:(lia))
      as (sigs & ks' & E & Hsub & HF & Hcount).
    assert (zlen sigs = m) as Hsm by lia.
    assert (Forall (fun s => sig_ok s) sigs) as Hoks.
    { clear -HF. induction HF as [|x y l k [H _] _ IH]; by constructor. }
    exists TX_MULTISIG, ([] :: sigs). split_and!; [|done| | | | |].
    + unfold Solver_sign. destruct (GetScriptForMultisig_standard (E := unit) m keys) as (s' & Es' & Hsol); [lia|lia| |].
      { eapply Forall_impl; [exact Hown|]. intros k (_ & H & _). by apply key_sized_of. }
      rewrite GetScriptForMultisig_eq in Es' by lia. injection Es' as <-. rewrite Hsol.
      unfold SignN. change (front0 ([m] :: keys ++ [[zlen keys]])) with m. cbn [tl]. rewrite removelast_last, E.
      cbn [mbind outcome_bind mret outcome_ret]. rewrite Z.add_0_l, Hsm, Z.eqb_refl. done.
    + intros flags. constructor; [by split|]. eapply Forall_impl; [exact Hoks|]. intros s Hs.
      by apply pushable_fits, sig_ok_pushable.
    + rewrite zlen_cons. lia.
    + apply not_p2sh_head. unfold multisig_script. cbn. lia.
    + unfold multisig_script. autorewrite with zlen. pose proof (zlen_nonneg (concat (map push_data keys))). lia.
    + intros tx' flags Hf Hhash. rewrite reverse_cons.
      rewrite EvalScript_multisig; [|lia|lia|done|unfold zlen; rewrite length_reverse; done|].
      2: { intros sg k Hsg Hk. apply (sig_ok_encoding _ _ _ _ Hf).
           - rewrite Forall_forall in Hoks. apply Hoks. rewrite elem_of_reverse in Hsg. exact Hsg.
           - unfold own_keys in Hown. rewrite Forall_forall in Hown. by destruct (Hown k Hk) as (_ & H & _). }
      do 3 f_equal. rewrite without_sigs_multisig; [|lia|lia|done|].
      2: { apply Forall_reverse. eapply Forall_impl; [exact Hoks|]. intros sg Hsg.
           split; [by apply sig_ok_pushable|]. intros Hin. unfold own_keys in Hown. rewrite Forall_forall in Hown.
           destruct (Hown sg Hin) as (_ & _ & Hhd & _). by destruct Hsg as (_ & ? & _). }
      apply greedy_reverse. exists ks'. split; [done|]. eapply Forall2_impl; [exact HF|].
      intros sg k [_ Hver]. cbn [checker_CheckSig signature_checker]. apply Hver. apply Hhash.
Qed.

(** ** [SignSignature] *)

Lemma pushes_size ds : (forall flags, Forall (push_fits flags) ds) -> zlen (concat (map push_data ds)) <= 525 * zlen ds.
Proof.
  intros Hds. apply concat_pushes_size. eapply Forall_impl; [apply (Hds 0)|]. intros d [Hd _].
  apply push_data_size. unfold MAX_SCRIPT_ELEMENT_SIZE in Hd. lia.
Qed.

Lemma VerifyScript_pushes (SB : SigBackend) ds s flags :
  std_flags flags -> (forall flags, Forall (push_fits flags) ds) -> zlen ds <= 18 -> IsPayToScriptHash s = false ->
  EvalScript (reverse ds) s flags = Ok [bool_vch true] -> VerifyScript (concat (map push_data ds)) s flags = Ok tt.
Proof.
  intros Hf Hds Hn Hp2sh Heval. pose proof (pushes_size ds Hds) as Hsz. unfold VerifyScript.
  assert (has_flag flags SCRIPT_VERIFY_SIGPUSHONLY = false) as -> by (by destruct Hf as [->| ->]).
  cbn [andb fail_if mbind outcome_bind].
  rewrite EvalScript_pushes; [|apply Hds|rewrite (@zlen_nil valtype); lia|lia].
  cbn [mbind outcome_bind]. rewrite app_nil_r, Heval. cbn [mbind outcome_bind].
  rewrite Hp2sh, andb_false_r. done.
Qed.

Lemma Solver_sign_p2sh ks h s hash ht : zlen h = 20 -> GetCScript ks h = Some s ->
  Solver_sign ks (GetScriptForDestination (CScriptID h)) hash ht = Ok (true, TX_SCRIPTHASH, s).
Proof. intros Hh Hs. unfold Solver_sign. rewrite Solver_p2sh by done. cbn [nth]. by rewrite Hs. Qed.

Lemma set_scriptSig_twice tx n a b : set_scriptSig (set_scriptSig tx n a) n b = set_scriptSig tx n b.
Proof.
  unfold set_scriptSig, with_vin. cbn [nVersion nTime vin vout nLockTime]. f_equal. generalize (vin tx). intros l. revert n.
  induction l as [|x l IH]; intros [|n]; [done..|]. cbn. f_equal. apply IH.
Qed.

Lemma set_scriptSig_lookup tx n a : (n < length (vin tx))%nat ->
  match vin (set_scriptSig tx n a) !! n with Some txin => scriptSig txin | None => [] end = a.
Proof.
  intros Hn. unfold set_scriptSig. cbn [vin with_vin]. rewrite list_lookup_alter, decide_True by done.
  by destruct (lookup_lt_is_Some_2 (vin tx) n Hn) as [x ->].
Qed.

Lemma SignSignature_spec ks tx nIn ht s
    (Hn : 0 <= nIn < zlen (vin tx)) (Hht : hashtype_ok ht) (Hs : signable ks tx nIn ht s) :
  (exists ds, let tx' := set_scriptSig tx (Z.to_nat nIn) (concat (map push_data ds)) in
    SignSignature ks s tx nIn ht = Ok (true, tx') /\
    forall flags, std_flags flags ->
      VerifyScript (SB := signature_checker tx' nIn) (concat (map push_data ds)) s flags = Ok tt) /\
  (GetCScript ks (CScriptID_of s) = Some s -> zlen s <= MAX_SCRIPT_ELEMENT_SIZE ->
   exists ds, let sig := concat (map push_data (ds ++ [s])) in
    let tx' := set_scriptSig tx (Z.to_nat nIn) sig in
    let p2sh := GetScriptForDestination (CScriptID (CScriptID_of s)) in
    SignSignature ks p2sh tx nIn ht = Ok (true, tx') /\
    forall flags, std_flags flags -> VerifyScript (SB := signature_checker tx' nIn) sig p2sh flags = Ok tt).
Proof.
  destruct (Solver_sign_signable ks tx nIn ht s Hs Hht) as (t & ds & Esign & Ht & Hfits & Hlen & Hp2sh & Hs2 & Heval).
  assert (Z.to_nat nIn < length (vin tx))%nat as Hn' by (unfold zlen in Hn; lia).
  split.
  - exists ds. cbv zeta. set (tx' := set_scriptSig tx (Z.to_nat nIn) (concat (map push_data ds))).
    assert (forall flags, std_flags flags ->
      VerifyScript (SB := signature_checker tx' nIn) (concat (map push_data ds)) s flags = Ok tt) as HV.
    { intros flags Hf. apply VerifyScript_pushes; try done; [lia|]. apply Heval; [done|].
      intros code. apply SignatureHash_scriptSig. }
    split; [|done]. unfold SignSignature.
    assert ((nIn <? zlen (vin tx)) = true) as -> by lia. cbn [assert_that mbind outcome_bind].
    rewrite Esign. cbn [mbind outcome_bind negb]. rewrite bool_decide_eq_false_2 by done.
    cbn [mbind outcome_bind mret outcome_ret negb]. rewrite set_scriptSig_lookup by done. fold tx'.
    rewrite HV by (by left). done.
  - intros Hget Hsz. exists ds. cbv zeta. set (tx' := set_scriptSig tx (Z.to_nat nIn) (concat (map push_data (ds ++ [s])))).
    assert (zlen (CScriptID_of s) = 20) as Hid by (apply hash160_ok).
    assert (forall flags, Forall (push_fits flags) (ds ++ [s])) as Hfits'.
    { intros flags. apply Forall_app_2; [done|]. apply Forall_singleton, pushable_fits. unfold pushable, MAX_SCRIPT_ELEMENT_SIZE in *. lia. }
    assert (forall flags, std_flags flags -> VerifyScript (SB := signature_checker tx' nIn)
      (concat (map push_data (ds ++ [s]))) (GetScriptForDestination (CScriptID (CScriptID_of s))) flags = Ok tt) as HV.
    { pose proof (pushes_size _ Hfits') as Hsize. rewrite zlen_app in Hsize. change (zlen [s]) with 1 in Hsize.
      assert (forall flags, std_flags flags -> EvalScript (SB := signature_checker tx' nIn) (reverse ds) s flags = Ok [bool_vch true]) as He.
      { intros flags Hf. apply Heval; [done|]. intros code. apply SignatureHash_scriptSig. }
      rewrite p2sh_script by done. intros flags [-> | ->].
      - unfold VerifyScript. change (has_flag STANDARD_SCRIPT_VERIFY_FLAGS SCRIPT_VERIFY_SIGPUSHONLY) with false.
        change (has_flag STANDARD_SCRIPT_VERIFY_FLAGS SCRIPT_VERIFY_P2SH) with false. cbn [andb fail_if mbind outcome_bind].
        rewrite EvalScript_pushes; [|apply Hfits'|rewrite (@zlen_nil valtype), zlen_app; change (zlen [s]) with 1; lia|lia].
        cbn [mbind outcome_bind]. rewrite app_nil_r, reverse_app. change (reverse [s] ++ reverse ds) with (s :: reverse ds).
        rewrite EvalScript_p2sh; [|done|rewrite zlen_cons; unfold zlen in *; rewrite length_reverse; lia].
        rewrite bool_decide_eq_true_2 by done. done.
      - rewrite VerifyScript_p2sh_eq; [|done|done|apply Hfits'|lia|lia].
        rewrite bool_decide_eq_true_2 by done. cbn [negb fail_if mbind outcome_bind].
        rewrite He by (by right). done. }
    split; [|done]. unfold SignSignature.
    assert ((nIn <? zlen (vin tx)) = true) as -> by lia. cbn [assert_that mbind outcome_bind].
    rewrite (Solver_sign_p2sh ks (CScriptID_of s) s) by done. cbn [mbind outcome_bind mret outcome_ret negb]. rewrite bool_decide_eq_true_2 by done.
    rewrite SignatureHash_scriptSig, Esign. cbn [mbind outcome_bind mret outcome_ret andb].
    rewrite bool_decide_eq_false_2 by done. cbn [negb mbind outcome_bind mret outcome_ret].
    rewrite set_scriptSig_twice.
    assert (concat (map push_data ds) ++ push_data s = concat (map push_data (ds ++ [s]))) as ->.
    { rewrite map_app, concat_app. cbn. by rewrite app_nil_r. }
    rewrite set_scriptSig_lookup by done. fold tx'. rewrite HV by (by left). done.
Qed.

(** C12: a key store signs what it holds the keys of.  For the script of a key
    hash, of a key, or of a multisignature of which it holds enough keys,
    [SignSignature] returns true, with pushes as the only change to the
    transaction; for the hash of such a script that it holds it does too,
    pushing the script last.  The interpreter accepts the result with the
    standard flags, and also when it evaluates the redeem script. *)
Theorem SignSignature_signs ks tx nIn ht s
    (Hn : 0 <= nIn < zlen (vin tx)) (Hht : hashtype_ok ht) (Hs : signable ks tx nIn ht s) :
  (exists ds, let tx' := set_scriptSig tx (Z.to_nat nIn) (concat (map push_data ds)) in
    SignSignature ks s tx nIn ht = Ok (true, tx') /\
    forall flags, std_flags flags ->
      VerifyScript (SB := signature_checker tx' nIn) (concat (map push_data ds)) s flags = Ok tt) /\
  (GetCScript ks (CScriptID_of s) = Some s -> zlen s <= MAX_SCRIPT_ELEMENT_SIZE ->
   exists ds, let sig := concat (map push_data (ds ++ [s])) in
    let tx' := set_scriptSig tx (Z.to_nat nIn) sig in
    let p2sh := GetScriptForDestination (CScriptID (CScriptID_of s)) in
    SignSignature ks p2sh tx nIn ht = Ok (true, tx') /\
    forall flags, std_flags flags -> VerifyScript (SB := signature_checker tx' nIn) sig p2sh flags = Ok tt).
Proof. by apply SignSignature_spec. Qed.
End sign.

(** ** The store and [IsMine] *)

Section store.
Context {SH : ScriptHashes} {SHok : ScriptHashesOk SH} {SECP : Secp256k1} {Laws : Secp256k1Laws SECP}.

(** Keys and scripts stand under their identifiers, and scripts fit a push. *)
Definition store_ok (ks : CBasicKeyStore) : Prop :=
  (forall id key, mapKeys ks !! id = Some key -> exists P, holds_key ks id key P) /\
  (forall h s, mapScripts ks !! h = Some s -> h = CScriptID_of s /\ zlen s <= MAX_SCRIPT_ELEMENT_SIZE).

Lemma AddKey_ok ks key : store_ok ks -> key_ok key -> fValid key = true ->
  exists ks' id, AddKey ks key = Ok ks' /\ store_ok ks' /\ GetKey ks' id = Some key /\
    forall id', GetKey ks' id' = if decide (id' = id) then Some key else GetKey ks id'.
Proof.
  intros [Hk Hs] Hok Hv. destruct (key_of_exists key Hok Hv) as [P HP].
  destruct (GetPubKey_spec key P HP) as (pub & E & Hpub).
  assert (pubkey_GetID pub = h_hash160 (pub_of key P)) as Hid.
  { unfold pubkey_GetID. by rewrite (holds_data _ _ Hpub). }
  unfold AddKey. rewrite E. eexists _, (pubkey_GetID pub). split; [done|].
  assert (forall id', GetKey (AddKeyPubKey ks key pub) id' = if decide (id' = pubkey_GetID pub) then Some key else GetKey ks id') as Hget.
  { intros id'. unfold GetKey, AddKeyPubKey. cbn [mapKeys]. destruct (decide (id' = pubkey_GetID pub)) as [->|Hne].
    - by rewrite lookup_insert_eq.
    - by rewrite lookup_insert_ne. }
  split_and!; [|by rewrite Hget, decide_True|done].
  split; [|done]. intros id key' Hl. pose proof (Hget id) as G. unfold GetKey in G. rewrite G in Hl. unfold holds_key. rewrite G.
  destruct (decide (id = pubkey_GetID pub)) as [->|Hne].
  - injection Hl as <-. exists P. by rewrite <-Hid.
  - destruct (Hk id key' Hl) as (P' & H). by exists P'.
Qed.

Lemma AddCScript_ok ks s : store_ok ks ->
  store_ok (AddCScript ks s).2 /\ (AddCScript ks s).1 = (zlen s <=? MAX_SCRIPT_ELEMENT_SIZE) /\
  (zlen s <= MAX_SCRIPT_ELEMENT_SIZE -> GetCScript (AddCScript ks s).2 (CScriptID_of s) = Some s).
Proof.
  intros [Hk Hs]. unfold AddCScript. destruct (Z.ltb_spec MAX_SCRIPT_ELEMENT_SIZE (zlen s)) as [Hlt|Hge]; cbn [fst snd].
  - split_and!; [done|symmetry; by apply Z.leb_gt|lia].
  - split_and!; [|symmetry; by apply Z.leb_le|intros _; unfold GetCScript; cbn [mapScripts]; by rewrite lookup_insert_eq].
    split; [done|]. cbn [mapScripts]. intros h s'. rewrite lookup_insert_Some. intros [[<- <-]|[_ H]]; [done|by apply Hs].
Qed.

Lemma watch_not_spendable ks s : watch_or_no ks s <> ISMINE_SPENDABLE.
Proof. unfold watch_or_no. by destruct (HaveWatchOnly ks s). Qed.

(** [b ? SPENDABLE : watch] is spendable exactly when [b]. *)
Lemma spendable_if (b : bool) ks s :
  (if b then Some ISMINE_SPENDABLE else Some (watch_or_no ks s)) = Some ISMINE_SPENDABLE <-> b = true.
Proof. destruct b; [done|]. split; [|done]. intros [= H]. by apply watch_not_spendable in H. Qed.

Lemma HaveKeys_all keys ks : HaveKeys keys ks = zlen keys <-> Forall (fun k => HaveKey ks (CPubKey_GetID k) = true) keys.
Proof.
  unfold HaveKeys. assert (forall a, foldl (fun n pubkey => if HaveKey ks (CPubKey_GetID pubkey) then n + 1 else n) a keys = a + zlen keys
    <-> Forall (fun k => HaveKey ks (CPubKey_GetID k) = true) keys) as H; [|apply (H 0)].
  induction keys as [|k keys IH]; intros a; cbn [foldl]; [unfold zlen; cbn; split; [by constructor|lia]|].
  rewrite zlen_cons, Forall_cons. destruct (HaveKey ks (CPubKey_GetID k)) eqn:E.
  - rewrite <-(IH (a + 1)). split; [split; [done|lia]|intros [_ H]; lia].
  - split; [|by intros [? _]]. intros H. pose proof (HaveKeys_bound_from keys ks a). lia.
Qed.

(** What the store can spend, by the shape of the script: a key or key hash it
    has the key of, a multisignature of which it has every key, the hash of a
    stored script that it can spend. *)
Inductive spendable (ks : CBasicKeyStore) : list Z -> Prop :=
| spendable_pubkey s k :
    standard s TX_PUBKEY [k] -> is_Some (GetKey ks (CPubKey_GetID k)) -> spendable ks s
| spendable_pubkeyhash s h :
    standard s TX_PUBKEYHASH [h] -> is_Some (GetKey ks h) -> spendable ks s
| spendable_multisig s m keys n :
    standard s TX_MULTISIG ([m] :: keys ++ [[n]]) -> Forall (fun k => is_Some (GetKey ks (CPubKey_GetID k))) keys -> spendable ks s
| spendable_scripthash s h s' :
    standard s TX_SCRIPTHASH [h] -> GetCScript ks h = Some s' -> spendable ks s' -> spendable ks s.

(** Stored scripts that are hashes of stored scripts, [n] times. *)
Inductive nested (ks : CBasicKeyStore) : nat -> list Z -> Prop :=
| nested_O s : nested ks 0 s
| nested_S n s h s' : standard s TX_SCRIPTHASH [h] -> GetCScript ks h = Some s' -> nested ks n s' -> nested ks (S n) s.

(** A standard script that pays keys is spendable when the store has them. *)
Definition has_all (ks : CBasicKeyStore) (t : txnouttype) (sols : list valtype) : Prop :=
  match t with
  | TX_PUBKEY => is_Some (GetKey ks (CPubKey_GetID (nth 0 sols [])))
  | TX_PUBKEYHASH => is_Some (GetKey ks (nth 0 sols []))
  | TX_MULTISIG => Forall (fun k => is_Some (GetKey ks (CPubKey_GetID k))) (removelast (tl sols))
  | TX_SCRIPTHASH => exists s', GetCScript ks (nth 0 sols []) = Some s' /\ spendable ks s'
  | TX_NONSTANDARD | TX_NULL_DATA => False
  end.

Lemma spendable_iff ks s t sols : standard s t sols -> spendable ks s <-> has_all ks t sols.
Proof.
  intros Hs. pose proof (Solver_complete s t sols Hs) as E. split.
  - intros H. inversion H as [s0 k H1 H2|s0 h H1 H2|s0 m keys n H1 H2|s0 h s' H1 H2 H3]; subst s0;
      apply Solver_complete in H1; rewrite E in H1; injection H1 as -> ->; cbn [has_all nth tl]; [done|done| |by exists s'].
    by rewrite removelast_last.
  - destruct Hs as [h Hh|s o k Hr Hk|s o h Hr Hh|s om m keys on Hr Hk Hm Hn Hle|s o d Hr Hd|s Hr]; cbn [has_all nth tl]; [|..|done|done].
    + intros (s' & H1 & H2). eapply (spendable_scripthash ks _ h); [by constructor|done|done].
    + intros H. apply (spendable_pubkey ks s k); [by econstructor|done].
    + intros H. apply (spendable_pubkeyhash ks s h); [by econstructor|done].
    + rewrite removelast_last. intros H. apply (spendable_multisig ks s m keys.*2 (zlen keys)); [by econstructor|done].
Qed.

Lemma not_standard_spendable ks s t sols : Solver s = (false, t, sols) -> ~ spendable ks s.
Proof. intros E H. inversion H as [s0 k H1 H2|s0 h H1 H2|s0 m keys n H1 H2|s0 h s' H1 H2 H3]; subst s0; apply Solver_complete in H1; congruence. Qed.

(** The answer of [IsMine] for a script. *)
Definition answers (ks : CBasicKeyStore) (s : list Z) (r : isminetype) : Prop :=
  (r = ISMINE_SPENDABLE <-> spendable ks s) /\ (r = ISMINE_WATCH_ONLY <-> ~ spendable ks s /\ s ∈ setWatchOnly ks).

Lemma answers_spendable ks s : spendable ks s -> answers ks s ISMINE_SPENDABLE.
Proof. intros H. split; [done|]. split; [done|]. by intros [? _]. Qed.

Lemma answers_watch ks s : ~ spendable ks s -> answers ks s (watch_or_no ks s).
Proof.
  intros H. unfold watch_or_no, HaveWatchOnly. destruct (bool_decide_reflect (s ∈ setWatchOnly ks)); split; split; try done; tauto.
Qed.

Lemma flat_not_nested ks n s t sols : standard s t sols -> t <> TX_SCRIPTHASH -> ~ nested ks (S n) s.
Proof. intros Hs Ht H. inversion H as [|m s0 h s' H1 _ _]; subst. apply Solver_complete in H1, Hs. congruence. Qed.

Lemma answers_if (b : bool) ks n s t sols : standard s t sols -> t <> TX_SCRIPTHASH -> (b = true <-> has_all ks t sols) ->
  match (if b then Some ISMINE_SPENDABLE else Some (watch_or_no ks s)) with
  | Some r => answers ks s r /\ ~ nested ks (S n) s
  | None => nested ks (S n) s
  end.
Proof.
  intros Hs Ht Hb. pose proof (flat_not_nested ks n s t sols Hs Ht). rewrite <-(spendable_iff ks s t sols Hs) in Hb.
  destruct b; (split; [|done]); [apply answers_spendable|apply answers_watch; intros H1]; naive_solver.
Qed.

(** The answer is exact, and it is missing only when the fuel does not reach
    the end of the nested scripts. *)
Lemma IsMine_answers ks fuel s :
  match IsMine fuel ks s with Some r => answers ks s r /\ ~ nested ks fuel s | None => nested ks fuel s end.
Proof.
  revert s. induction fuel as [|fuel IH]; intros s; [constructor|]. cbn [IsMine].
  destruct (Solver s) as [[[] t] sols] eqn:E.
  2: { split; [by apply answers_watch, (not_standard_spendable ks s t sols)|]. intros H. inversion H as [|n s0 h s' H1 _ _]; subst.
       apply Solver_complete in H1. congruence. }
  pose proof (Solver_sound s t sols E) as Hs.
  destruct t.
  - by apply (answers_if false ks fuel s TX_NONSTANDARD sols).
  - apply (answers_if _ ks fuel s TX_PUBKEY sols); [done|done|apply bool_decide_eq_true].
  - apply (answers_if _ ks fuel s TX_PUBKEYHASH sols); [done|done|apply bool_decide_eq_true].
  - assert (exists h, sols = [h]) as [h ->] by (inversion Hs; by eexists). cbn [nth]. pose proof (spendable_iff ks s _ _ Hs) as Hsp. cbn [has_all nth] in Hsp.
    destruct (GetCScript ks h) as [s'|] eqn:Eh.
    + specialize (IH s'). destruct (IsMine fuel ks s') as [r|]; cbn [mbind option_bind]; [|by eapply nested_S].
      destruct IH as [[IH _] Hn]. split.
      * destruct (bool_decide_reflect (r = ISMINE_SPENDABLE)) as [->|Hr].
        -- apply answers_spendable, Hsp. exists s'. split; [done|by apply IH].
        -- apply answers_watch. rewrite Hsp. intros (s2 & [= <-] & H). by apply Hr, IH.
      * intros H. inversion H as [|n s0 h0 s2 H1 H2 H3]; subst. apply Solver_complete in H1. rewrite E in H1. injection H1 as <-. congruence.
    + split.
      * apply answers_watch. rewrite Hsp. by intros (? & ? & _).
      * intros H. inversion H as [|n s0 h0 s2 H1 H2 H3]; subst. apply Solver_complete in H1. rewrite E in H1. injection H1 as <-. congruence.
  - apply (answers_if _ ks fuel s TX_MULTISIG sols); [done|done|]. rewrite Z.eqb_eq, HaveKeys_all. apply Forall_iff. intros k. apply bool_decide_eq_true.
  - by apply (answers_if false ks fuel s TX_NULL_DATA sols).
Qed.

(** C20: [IsMine] answers for every script: spendable exactly for the standard
    scripts to a key or key hash that the store has the key of, the
    multisignatures of which it has all keys, and the hashes of a stored script
    that is spendable in turn; of all others, nonstandard scripts, null data
    and unknown script hashes among them, it calls those that the store watches
    watch-only and the rest not its own.  It gives an answer unless the scripts
    of the store are hashes of each other for longer than the fuel lasts.  The
    last kind covers too much: the hash of a script that is itself the hash of
    a script is called spendable, but [SignSignature] never signs for it; for
    a key hash it calls spendable, it does. *)
Theorem IsMine_spendable ks fuel (Hks : store_ok ks) :
  (forall s r, IsMine fuel ks s = Some r ->
    (r = ISMINE_SPENDABLE <-> spendable ks s) /\
    (r = ISMINE_WATCH_ONLY <-> ~ spendable ks s /\ s ∈ setWatchOnly ks)) /\
  (forall s, IsMine fuel ks s = None <-> nested ks fuel s) /\
  (forall id, zlen id = 20 -> spendable ks (GetScriptForDestination (CKeyID id)) <-> is_Some (GetKey ks id)) /\
  (forall k, key_sized k = true -> spendable ks (GetScriptForRawPubKey k) <-> is_Some (GetKey ks (CPubKey_GetID k))) /\
  (forall m keys s, 1 <= m <= zlen keys -> zlen keys <= 16 -> Forall (fun k => key_sized k = true) keys ->
    GetScriptForMultisig (E := unit) m keys = Ok s ->
    spendable ks s <-> Forall (fun k => is_Some (GetKey ks (CPubKey_GetID k))) keys) /\
  (forall h, zlen h = 20 -> spendable ks (GetScriptForDestination (CScriptID h)) <->
    exists s, GetCScript ks h = Some s /\ spendable ks s) /\
  (forall h h' tx nIn ht, zlen h = 20 -> zlen h' = 20 -> GetCScript ks h = Some (GetScriptForDestination (CScriptID h')) ->
    0 <= nIn < zlen (vin tx) ->
    exists tx', SignSignature ks (GetScriptForDestination (CScriptID h)) tx nIn ht = Ok (false, tx')) /\
  (forall id tx nIn ht, let script := GetScriptForDestination (CKeyID id) in
    zlen id = 20 -> 0 <= nIn < zlen (vin tx) -> hashtype_ok ht ->
    IsMine fuel ks script = Some ISMINE_SPENDABLE ->
    (forall key d, GetKey ks id = Some key -> key_Sign key (SignatureHash script tx nIn ht) 1 = Ok d -> d ++ [ht] <> id) ->
    exists tx', SignSignature ks script tx nIn ht = Ok (true, tx')).
Proof.
  assert (forall id, zlen id = 20 -> standard (GetScriptForDestination (CKeyID id)) TX_PUBKEYHASH [id]) as Hid.
  { intros id Hid. destruct (Solver_GetScriptForDestination (CKeyID id) Hid) as (id' & Es & [= <-]). by apply Solver_sound. }
  split_and!.
  - intros s r E. pose proof (IsMine_answers ks fuel s) as H. rewrite E in H. apply H.
  - intros s. pose proof (IsMine_answers ks fuel s) as H. destruct (IsMine fuel ks s); [|done]. split; [done|]. by intros ?%H.
  - intros id H. by rewrite (spendable_iff ks _ _ _ (Hid id H)).
  - intros k Hk. by rewrite (spendable_iff ks _ _ _ (Solver_sound _ _ _ (Solver_raw k Hk))).
  - intros m keys s Hm Hn Hk Es. destruct (GetScriptForMultisig_standard (E := unit) m keys Hm Hn Hk) as (s' & Es' & Hsol).
    rewrite Es in Es'. injection Es' as <-. rewrite (spendable_iff ks _ _ _ (Solver_sound _ _ _ Hsol)). cbn [has_all tl]. by rewrite removelast_last.
  - intros h Hh. by rewrite (spendable_iff ks _ _ _ (Solver_sound _ _ _ (Solver_p2sh h Hh))).
  - intros h h' tx nIn ht Hh Hh' Hget Hn. set (s := GetScriptForDestination (CScriptID h')) in Hget.
    unfold SignSignature. assert ((nIn <? zlen (vin tx)) = true) as -> by lia. cbn [assert_that mbind outcome_bind].
    rewrite (Solver_sign_p2sh ks h s) by done. cbn [mbind outcome_bind mret outcome_ret negb].
    rewrite bool_decide_eq_true_2 by done. set (hash2 := SignatureHash s _ _ _).
    assert (exists b sig, Solver_sign ks s hash2 ht = Ok (b, TX_SCRIPTHASH, sig)) as (b & sig & ->).
    { unfold Solver_sign. unfold s. rewrite Solver_p2sh by done. cbn [nth]. destruct (GetCScript ks h'); by eexists _, _. }
    cbn [mbind outcome_bind mret outcome_ret]. rewrite bool_decide_eq_true_2, andb_false_r by done. by eexists.
  - intros id tx nIn ht script Hlen Hn Hht Hmine Hne. pose proof (IsMine_answers ks fuel script) as H. rewrite Hmine in H.
    destruct H as [[Hsp _] _]. destruct Hsp as [Hsp _]. specialize (Hsp eq_refl).
    apply (spendable_iff ks _ _ _ (Hid id Hlen)) in Hsp as [key Hkey].
    destruct Hks as [Hk _]. destruct (Hk id key Hkey) as (P & HP).
    destruct (SignSignature_spec ks tx nIn ht script Hn Hht) as [(ds & E & _) _].
    + apply (signable_pubkeyhash ks tx nIn ht id key P HP). intros d. by apply Hne.
    + by eexists.
Qed.
End store.

#[local] Existing Instance toy_secp.
#[local] Existing Instance crypto_hashes.

Definition toy_id : list Z := Eval vm_compute in h_hash160 (2 :: replicate 31 0 ++ [5]).
Definition toy_store : CBasicKeyStore := {| mapKeys := {[toy_id := toy_key]}; mapScripts := ∅; setWatchOnly := ∅ |}.
Definition toy_spend : CTransaction := {| nVersion := 1; nTime := 0;
  vin := [{| prevout := null_outpoint; scriptSig := []; nSequence := 0 |}]; vout := []; nLockTime := 0 |}.

Lemma toy_holds : holds_key toy_store toy_id toy_key 5.
Proof. split_and!; [unfold toy_store; apply lookup_singleton_eq|by split_and!|by vm_compute]. Qed.

Lemma toy_store_ok : store_ok toy_store.
Proof.
  split; [|done]. intros id key H. unfold toy_store in H. cbn [mapKeys] in H.
  apply lookup_singleton_Some in H as [<- <-]. exists 5. apply toy_holds.
Qed.

Lemma SignSignature_signs_witness : exists ds,
  let tx' := set_scriptSig toy_spend 0 (concat (map push_data ds)) in
  SignSignature toy_store (GetScriptForDestination (CKeyID toy_id)) toy_spend 0 1 = Ok (true, tx') /\
  forall flags, std_flags flags ->
    VerifyScript (SB := signature_checker tx' 0) (concat (map push_data ds)) (GetScriptForDestination (CKeyID toy_id)) flags = Ok tt.
Proof.
  refine (proj1 (SignSignature_signs toy_store toy_spend 0 1 (GetScriptForDestination (CKeyID toy_id)) _ _ _)).
  - by vm_compute.
  - by vm_compute.
  - apply (signable_pubkeyhash _ _ _ _ _ _ _ toy_holds). intros d [= <-]. intros H. discriminate (f_equal (@length Z) H).
Defined.

(** The store spends to its key and not to null data. *)
Lemma IsMine_spendable_witness :
  spendable toy_store (GetScriptForDestination (CKeyID toy_id)) /\ ~ spendable toy_store [0x6a] /\ ~ nested toy_store 1 [0x6a].
Proof.
  destruct (IsMine_spendable toy_store 1 toy_store_ok) as (H1 & H2 & _). split_and!.
  - apply (H1 (GetScriptForDestination (CKeyID toy_id)) ISMINE_SPENDABLE); [|reflexivity]. by vm_compute.
  - assert (IsMine 1 toy_store [0x6a] = Some ISMINE_NO) as E by by vm_compute. intros H. destruct (H1 _ _ E) as [[_ Hs] _]. discriminate (Hs H).
  - assert (IsMine 1 toy_store [0x6a] <> None) as E by by vm_compute. intros H. by apply E, H2.
Defined.

(** ** Combining partial multisignatures *)

(** The order of the signatures. *)
Lemma bytes_lt_irrefl a : bytes_lt a a = false.
Proof. induction a as [|x a IH]; cbn [bytes_lt]; [done|]. by rewrite Z.ltb_irrefl, IH, andb_false_r. Qed.

Lemma bytes_lt_trans a b c : bytes_lt a b = true -> bytes_lt b c = true -> bytes_lt a c = true.
Proof.
  revert b c. induction a as [|x a IH]; intros [|y b] [|z c]; cbn [bytes_lt]; try done.
  destruct (Z.ltb_spec x y), (Z.ltb_spec y z), (Z.ltb_spec x z), (Z.eqb_spec x y), (Z.eqb_spec y z), (Z.eqb_spec x z);
    cbn [orb andb]; intros Ha Hb; try lia; try done; by apply (IH b).
Qed.

Lemma bytes_lt_total a b : bytes_lt a b = false -> bytes_lt b a = false -> a = b.
Proof.
  revert b. induction a as [|x a IH]; intros [|y b]; cbn [bytes_lt]; try done.
  destruct (Z.ltb_spec x y), (Z.ltb_spec y x), (Z.eqb_spec x y), (Z.eqb_spec y x); cbn [orb andb]; intros Ha Hb; try lia; try done.
  f_equal; [done|by apply IH].
Qed.

Abbreviation in_order_set := (StronglySorted (fun a b => bytes_lt a b = true)).

Lemma vset_insert_in v l x : x ∈ vset_insert v l <-> x = v \/ x ∈ l.
Proof.
  induction l as [|y l IH]; cbn [vset_insert]; [set_solver|]. destruct (bytes_lt v y) eqn:E1; [set_solver|].
  destruct (bytes_lt y v) eqn:E2; [set_solver|]. rewrite (bytes_lt_total v y E1 E2). set_solver.
Qed.

Lemma vset_insert_sorted v l : in_order_set l -> in_order_set (vset_insert v l).
Proof.
  induction 1 as [|y l Hl IH Hy]; cbn [vset_insert]; [by repeat constructor|]. destruct (bytes_lt v y) eqn:E1.
  - constructor; [by constructor|]. constructor; [done|]. eapply Forall_impl; [exact Hy|]. intros z. by apply bytes_lt_trans.
  - destruct (bytes_lt y v) eqn:E2; [|by constructor]. constructor; [done|]. rewrite Forall_forall in *. intros z [->|H]%vset_insert_in; auto.
Qed.

Lemma in_order_NoDup l : in_order_set l -> NoDup l.
Proof.
  induction 1 as [|y l Hl IH Hy]; constructor; [|done]. intros H. rewrite Forall_forall in Hy. specialize (Hy y H). by rewrite bytes_lt_irrefl in Hy.
Qed.

Lemma insert_sigs_in sigs all x : x ∈ insert_sigs sigs all <-> (x ∈ sigs /\ x <> []) \/ x ∈ all.
Proof.
  unfold insert_sigs. revert all. induction sigs as [|v sigs IH]; intros all; cbn [foldl]; [set_solver|]. rewrite IH, elem_of_cons.
  destruct (Z.eqb_spec (zlen v) 0) as [E|E].
  - assert (v = []) as -> by (destruct v; [done|rewrite zlen_cons in E; pose proof (zlen_nonneg v); lia]). naive_solver.
  - assert (v <> []) by by intros ->. rewrite vset_insert_in. naive_solver.
Qed.

Lemma insert_sigs_sorted sigs all : in_order_set all -> in_order_set (insert_sigs sigs all).
Proof.
  unfold insert_sigs. revert all. induction sigs as [|v sigs IH]; intros all Hall; cbn [foldl]; [done|]. apply IH.
  destruct (zlen v =? 0); [done|by apply vset_insert_sorted].
Qed.

Section combine.
Context (check : valtype -> valtype -> list Z -> bool) (script : list Z) (keys : list valtype).

(** The signatures seen so far are matched with keys they check for, each with
    one key, and none is left for a key without signature. *)
Record matched (seen : list valtype) (sigs : gmap valtype valtype) : Prop := {
  ma_sound : forall k s, sigs !! k = Some s -> check s k script = true /\ s ∈ seen /\ k ∈ keys;
  ma_once : forall k k' s, sigs !! k = Some s -> sigs !! k' = Some s -> k = k';
  ma_all : forall k s, k ∈ keys -> s ∈ seen -> check s k script = true -> is_Some (sigs !! k) \/ exists k', sigs !! k' = Some s
}.

(** A signature goes to one key that has none, if there is one it checks for. *)
Lemma match_sig_cases sig ks sigs :
  (match_sig check sig ks script sigs = sigs /\ forall k, k ∈ ks -> check sig k script = true -> is_Some (sigs !! k)) \/
  (exists k, k ∈ ks /\ sigs !! k = None /\ check sig k script = true /\ match_sig check sig ks script sigs = <[k := sig]> sigs).
Proof.
  induction ks as [|k ks IH]; cbn [match_sig]; [left; set_solver|]. destruct (sigs !! k) as [s|] eqn:E.
  - destruct IH as [[-> H]|(k' & H1 & H2)]; [left|right; exists k'; set_solver]. split; [done|]. intros k'. rewrite elem_of_cons. intros [->|?]; eauto.
  - destruct (check sig k script) eqn:Ec; [right; exists k; set_solver|].
    destruct IH as [[-> H]|(k' & H1 & H2)]; [left|right; exists k'; set_solver]. split; [done|]. intros k'. rewrite elem_of_cons. intros [->|?]; [congruence|eauto].
Qed.

Lemma match_sig_matched seen sig sigs : matched seen sigs -> sig ∉ seen -> matched (seen ++ [sig]) (match_sig check sig keys script sigs).
Proof.
  intros [H1 H2 H3] Hnew. destruct (match_sig_cases sig keys sigs) as [[-> H]|(k0 & Hin & Hnone & Hc & ->)].
  - split; [|done|].
    + intros k s Hk. destruct (H1 k s Hk) as (? & ? & ?). set_solver.
    + intros k s Hk [Hs| ->%list_elem_of_singleton]%elem_of_app Hck; [by apply H3|left; by apply H].
  - assert (forall k, sigs !! k <> Some sig) as Hfresh by (intros k Hk; by destruct (H1 k sig Hk) as (_ & ? & _)). split.
    + intros k s [[<- <-]|[_ Hk]]%lookup_insert_Some; [set_solver|]. destruct (H1 k s Hk) as (? & ? & ?). set_solver.
    + intros k k' s [[<- <-]|[? Hk]]%lookup_insert_Some [[<- E]|[? Hk']]%lookup_insert_Some; [done|by apply Hfresh in Hk'| |by eapply H2].
      subst s. by apply Hfresh in Hk.
    + intros k s Hk [Hs| ->%list_elem_of_singleton]%elem_of_app Hck; [|right; exists k0; by rewrite lookup_insert_eq].
      destruct (decide (k0 = k)) as [->|Hne]; [left; by rewrite lookup_insert_eq|].
      destruct (H3 k s Hk Hs Hck) as [?|[k' Hk']]; [left; by rewrite lookup_insert_ne|right].
      exists k'. rewrite lookup_insert_ne; [done|]. intros ->. congruence.
Qed.

Lemma match_sigs_matched l seen sigs : matched seen sigs -> NoDup (seen ++ l) ->
  matched (seen ++ l) (foldl (fun sigs sig => match_sig check sig keys script sigs) sigs l).
Proof.
  revert seen sigs. induction l as [|s l IH]; intros seen sigs Hm Hnd; cbn [foldl]; [by rewrite app_nil_r|].
  replace (seen ++ s :: l) with ((seen ++ [s]) ++ l) in * by by rewrite <-app_assoc. apply IH; [|done].
  apply match_sig_matched; [done|]. rewrite <-app_assoc in Hnd. apply NoDup_app in Hnd as (_ & Hnd & _). set_solver.
Qed.

(** The signatures of the keys, in their order. *)
Lemma merge_sigs_eq (n : nat) (ks : list valtype) (sigs : gmap valtype valtype) : merge_sigs n ks sigs = take n (omap (fun k => sigs !! k) ks).
Proof.
  revert n. induction ks as [|k ks IH]; intros [|n]; cbn [merge_sigs omap list_omap]; [done..|]. fold (omap (fun k => sigs !! k) ks).
  destruct (sigs !! k); cbn [take]; by rewrite IH.
Qed.

Lemma picked_match (pick : valtype -> option valtype) (n : nat) (ks : list valtype) : (forall k s, pick k = Some s -> check s k script = true) ->
  sigs_match (fun s k => check s k script) (take n (omap pick ks)) ks.
Proof.
  intros Hp. unfold sigs_match. revert n. induction ks as [|k ks IH]; intros n.
  - exists []. split; [done|]. destruct n; constructor.
  - cbn [omap list_omap]. fold (omap pick ks). destruct (pick k) as [s|] eqn:E.
    + destruct n as [|n]; [exists []; split; [apply sublist_nil_l|constructor]|]. destruct (IH n) as (l & Hl & HF). exists (k :: l).
      split; [by constructor|]. constructor; [by apply Hp|done].
    + destruct (IH n) as (l & Hl & HF). exists l. split; [by constructor|done].
Qed.
End combine.

(** A signature of one of the scripts. *)
Definition given (sigs1 sigs2 : list valtype) (s : valtype) : Prop := s <> [] /\ (s ∈ sigs1 \/ s ∈ sigs2).

Lemma all_given sigs1 sigs2 s : s ∈ insert_sigs sigs2 (insert_sigs sigs1 []) <-> given sigs1 sigs2 s.
Proof. unfold given. rewrite !insert_sigs_in. set_solver. Qed.

Lemma all_sorted sigs1 sigs2 : in_order_set (insert_sigs sigs2 (insert_sigs sigs1 [])).
Proof. apply insert_sigs_sorted, insert_sigs_sorted. constructor. Qed.

Lemma all_sym sigs1 sigs2 : insert_sigs sigs2 (insert_sigs sigs1 []) = insert_sigs sigs1 (insert_sigs sigs2 []).
Proof.
  apply (StronglySorted_unique_strong (fun a b => bytes_lt a b = true)); try apply all_sorted.
  - intros a b _ _ H1 H2. pose proof (bytes_lt_trans a b a H1 H2) as H. by rewrite bytes_lt_irrefl in H.
  - apply NoDup_Permutation; [apply in_order_NoDup, all_sorted..|]. intros s. rewrite !all_given. unfold given. tauto.
Qed.

Lemma CombineMultisig_eq check script m keys n sigs1 sigs2 :
  CombineMultisig check script ([m] :: keys ++ [[n]]) sigs1 sigs2 =
  let sigs := foldl (fun sigs sig => match_sig check sig keys script sigs) ∅ (insert_sigs sigs2 (insert_sigs sigs1 [])) in
  let have := merge_sigs (Z.to_nat m) keys sigs in Ok ([] :: have ++ replicate (Z.to_nat m - length have) []).
Proof.
  unfold CombineMultisig. assert ((1 <? zlen ([m] :: keys ++ [[n]])) = true) as ->.
  { rewrite zlen_cons, zlen_app. change (zlen [[n]]) with 1. pose proof (zlen_nonneg keys). lia. }
  cbn [assert_that mbind outcome_bind mret outcome_ret tl]. by rewrite removelast_last.
Qed.

(** C21: combining the signatures of two scripts for a multisignature never
    fails, and gives the placeholder of CHECKMULTISIG followed by exactly as
    many elements as signatures are required: the signatures picked for the
    keys, in the order of the keys and no more than required, then empty ones.
    A key gets a signature of one of the scripts that checks for it, no
    signature goes to two keys, and no key is left without one while a
    signature that checks for it goes to no other key; so when no signature
    checks for two keys, a key has one exactly when either script has one for
    it.  The result depends on the two sets of signatures only, and when no
    empty one is left, CHECKMULTISIG accepts it. *)
Theorem CombineMultisig_merges check script m keys n sigs1 sigs2 (Hm : 0 <= m) :
  exists (pick : valtype -> option valtype) empties, let sigs := take (Z.to_nat m) (omap pick keys) in
    CombineMultisig check script ([m] :: keys ++ [[n]]) sigs1 sigs2 = Ok ([] :: sigs ++ replicate empties []) /\
    Z.of_nat (length sigs + empties) = m /\
    (forall k s, pick k = Some s -> k ∈ keys /\ given sigs1 sigs2 s /\ check s k script = true) /\
    (forall k k' s, pick k = Some s -> pick k' = Some s -> k = k') /\
    (forall k s, k ∈ keys -> given sigs1 sigs2 s -> check s k script = true -> is_Some (pick k) \/ exists k', pick k' = Some s) /\
    ((forall s k k', given sigs1 sigs2 s -> k ∈ keys -> k' ∈ keys -> check s k script = true -> check s k' script = true -> k = k') ->
     forall k, k ∈ keys -> is_Some (pick k) <-> exists s, given sigs1 sigs2 s /\ check s k script = true) /\
    CombineMultisig check script ([m] :: keys ++ [[n]]) sigs2 sigs1 = Ok ([] :: sigs ++ replicate empties []) /\
    sigs_match (fun s k => check s k script) sigs keys /\
    (empties = 0%nat -> greedy (fun s k => check s k script) sigs keys = true).
Proof.
  rewrite !CombineMultisig_eq, (all_sym sigs2 sigs1). cbv zeta. set (all := insert_sigs sigs2 _). set (sigs := foldl _ ∅ all).
  assert (matched check script keys all sigs) as [H1 H2 H3].
  { apply (match_sigs_matched check script keys all [] ∅); [|apply in_order_NoDup, all_sorted]. split; [|intros k k' s E|set_solver].
    - intros k s E. by rewrite lookup_empty in E.
    - by rewrite lookup_empty in E. }
  rewrite merge_sigs_eq. set (pick := fun k => sigs !! k). set (have := take _ _).
  assert (sigs_match (fun s k => check s k script) have keys) as Hmatch by (apply picked_match; intros k s E; by apply (H1 k s)).
  assert (forall k s, pick k = Some s -> k ∈ keys /\ given sigs1 sigs2 s /\ check s k script = true) as Hsound.
  { intros k s E. destruct (H1 k s E) as (? & ? & ?). by rewrite <-all_given. }
  assert (forall k s, k ∈ keys -> given sigs1 sigs2 s -> check s k script = true -> is_Some (pick k) \/ exists k', pick k' = Some s) as Hall.
  { intros k s Hk Hs. apply H3; [done|by apply all_given]. }
  exists pick, (Z.to_nat m - length have)%nat. fold have. split_and!; try done.
  - assert (length have <= Z.to_nat m)%nat by (subst have; rewrite length_take; lia). lia.
  - intros Huniq k Hk. split.
    + intros [s E]. exists s. by apply Hsound in E as (_ & ? & ?).
    + intros (s & Hs & Hc). destruct (Hall k s Hk Hs Hc) as [?|[k' E]]; [done|]. destruct (Hsound _ _ E) as (Hk' & _ & Hc').
      rewrite (Huniq s k k') by done. by exists s.
  - intros _. by apply greedy_spec.
Qed.

(** Of two required signatures the first script has the third key's, the second
    the first key's. *)
Lemma CombineMultisig_merges_witness : exists pick empties, let sigs := take 2 (omap pick [[7]; [8]; [9]]) in
  CombineMultisig (fun s k _ => bool_decide (s = k)) [] ([2] :: [[7]; [8]; [9]] ++ [[3]]) [[9]] [[7]; []] =
    Ok ([] :: sigs ++ replicate empties []) /\ pick [9] = Some [9] /\ pick [7] = Some [7] /\ pick [8] = None.
Proof.
  destruct (CombineMultisig_merges (fun s k _ => bool_decide (s = k)) [] 2 [[7]; [8]; [9]] 3 [[9]] [[7]; []] ltac:(lia))
    as (pick & e & H1 & _ & H2 & _ & _ & H3 & _). exists pick, e. split; [exact H1|].
  assert (forall k, k ∈ [[7]; [8]; [9]] -> is_Some (pick k) <-> k = [7] \/ k = [9]) as Hk.
  { intros k Hk. rewrite H3; [|intros s a b _ _ _ Ha%bool_decide_eq_true_1 Hb%bool_decide_eq_true_1; congruence|done]. split.
    - intros (s & [_ Hs] & <-%bool_decide_eq_true_1). set_solver.
    - intros [-> | ->]; eexists; (split; [|by apply bool_decide_eq_true_2]); split; set_solver. }
  assert (forall k, k ∈ [[7]; [8]; [9]] -> k = [7] \/ k = [9] -> pick k = Some k) as Hp.
  { intros k Hin H. destruct (proj2 (Hk k Hin) H) as [s E]. rewrite E. by destruct (H2 k s E) as (_ & _ & ->%bool_decide_eq_true_1). }
  split_and!; [apply Hp; set_solver..|]. destruct (pick [8]) as [s|] eqn:E; [|done].
  exfalso. assert ([8] = [7] \/ [8] = [9]) as [[=]|[=]]. apply Hk; [set_solver|]. by exists s.
Defined.
