(* ===== verification/Encodings.v ===== *)
(** * Text encodings

    [utilstrencodings.h], [utilstrencodings.cpp] and the hexadecimal part of
    [util.cpp]: hexadecimal, base 64 and base 32.  The encoders and decoders
    are machines over a mode and the bits left over, as in the source; a C
    string is the list of its characters without the terminating zero, and
    reading its end gives that zero. *)

From S2P Require Import Prelude Base58.

Local Open Scope Z_scope.

(** ** Hexadecimal *)

Definition p_util_hexdigit : list Z :=
  replicate 48 (-1) ++ [0; 1; 2; 3; 4; 5; 6; 7; 8; 9] ++ replicate 7 (-1) ++
  [0xa; 0xb; 0xc; 0xd; 0xe; 0xf] ++ replicate 26 (-1) ++ [0xa; 0xb; 0xc; 0xd; 0xe; 0xf] ++ replicate 153 (-1).

Definition HexDigit (c : Z) : Z := nth (Z.to_nat c) p_util_hexdigit (-1).

Definition IsHex (str : list Z) : bool :=
  forallb (fun c => negb (HexDigit c <? 0)) str && (0 <? zlen str) && (zlen str mod 2 =? 0).

(** [ParseHex(psz)]: spaces may stand before the first digit of a pair. *)
Fixpoint ParseHex (psz : list Z) : list Z :=
  match psz with
  | [] => []
  | c :: psz =>
    if isspace c then ParseHex psz
    else
      let c := HexDigit c in
      if c =? -1 then []
      else
        let n := Z.shiftl c 4 mod 256 in
        match psz with
        | [] => []
        | c :: psz =>
          let c := HexDigit c in
          if c =? -1 then []
          else Z.lor n c :: ParseHex psz
        end
  end.

Definition hexmap : list Z := cstr "0123456789abcdef".

(** [HexStr(vch, fSpaces)] *)
Fixpoint HexStr_loop (first fSpaces : bool) (vch : list Z) : list Z :=
  match vch with
  | [] => []
  | val :: vch =>
    (if fSpaces && negb first then [32] else []) ++
    nth (Z.to_nat (Z.shiftr val 4)) hexmap 0 :: nth (Z.to_nat (Z.land val 15)) hexmap 0 ::
    HexStr_loop false fSpaces vch
  end.

Definition HexStr (vch : list Z) (fSpaces : bool) : list Z := HexStr_loop true fSpaces vch.

(** ** Base 64 *)

Definition pbase64 : list Z := cstr "ABCDEFGHIJKLMNOPQRSTUVWXYZabcdefghijklmnopqrstuvwxyz0123456789+/".
Definition digit64 (d : Z) : Z := nth (Z.to_nat d) pbase64 0.

(** One round of the loop of [EncodeBase64]: characters, mode, left_. *)
Definition encode64_step (mode left_ enc : Z) : list Z * Z * Z :=
  match mode with
  | 0 => ([digit64 (Z.shiftr enc 2)], 1, Z.shiftl (Z.land enc 3) 4)
  | 1 => ([digit64 (Z.lor left_ (Z.shiftr enc 4))], 2, Z.shiftl (Z.land enc 15) 2)
  | _ => ([digit64 (Z.lor left_ (Z.shiftr enc 6)); digit64 (Z.land enc 63)], 0, left_)
  end.

Fixpoint encode64_loop (mode left_ : Z) (pch : list Z) : list Z :=
  match pch with
  | [] => if mode =? 0 then [] else digit64 left_ :: 61 :: (if mode =? 1 then [61] else [])
  | enc :: pch =>
    let '(cs, mode, left_) := encode64_step mode left_ enc in
    cs ++ encode64_loop mode left_ pch
  end.

Definition EncodeBase64 (pch : list Z) : list Z := encode64_loop 0 0 pch.

Definition decode64_table : list Z :=
  replicate 43 (-1) ++ [62; -1; -1; -1; 63; 52; 53; 54; 55; 56; 57; 58; 59; 60; 61] ++ replicate 7 (-1) ++
  seqZ 0 26 ++ replicate 6 (-1) ++ seqZ 26 26 ++ replicate 133 (-1).
Definition decode64 (c : Z) : Z := nth (Z.to_nat c) decode64_table (-1).

(** One round of the loop of [DecodeBase64]: bytes, mode, left_. *)
Definition decode64_step (mode left_ dec : Z) : list Z * Z * Z :=
  match mode with
  | 0 => ([], 1, dec)
  | 1 => ([Z.lor (Z.shiftl left_ 2) (Z.shiftr dec 4) mod 256], 2, Z.land dec 15)
  | 2 => ([Z.lor (Z.shiftl left_ 4) (Z.shiftr dec 2) mod 256], 3, Z.land dec 3)
  | _ => ([Z.lor (Z.shiftl left_ 6) dec mod 256], 0, left_)
  end.

(** The loop: bytes, mode, left_ and the rest of the string. *)
Fixpoint decode64_loop (mode left_ : Z) (p : list Z) : list Z * Z * Z * list Z :=
  match p with
  | [] => ([], mode, left_, p)
  | c :: p' =>
    let dec := decode64 c in
    if dec =? -1 then ([], mode, left_, p)
    else
      let '(bs, mode, left_) := decode64_step mode left_ dec in
      let '(bs', mode, left_, p) := decode64_loop mode left_ p' in
      (bs ++ bs', mode, left_, p)
  end.

(** [p[i]], the end of the string included *)
Definition char_at (p : list Z) (i : nat) : Z := nth i p 0.

(** [p[0] == '=' && ... && p[n-1] == '=' && decode_table[p[n]] == -1] *)
Definition padded (decode : Z -> Z) (n : nat) (p : list Z) : bool :=
  forallb (fun i => char_at p i =? 61) (seq 0 n) && (decode (char_at p n) =? -1).

(** [DecodeBase64(p, pfInvalid)]: the bytes and [*pfInvalid] *)
Definition DecodeBase64 (p : list Z) : list Z * bool :=
  let '(vchRet, mode, left_, p) := decode64_loop 0 0 p in
  (vchRet,
   match mode with
   | 0 => false
   | 1 => true
   | 2 => negb (left_ =? 0) || negb (padded decode64 2 p)
   | _ => negb (left_ =? 0) || negb (padded decode64 1 p)
   end).

(** ** Base 32 *)

Definition pbase32 : list Z := cstr "abcdefghijklmnopqrstuvwxyz234567".
Definition digit32 (d : Z) : Z := nth (Z.to_nat d) pbase32 0.

Definition encode32_step (mode left_ enc : Z) : list Z * Z * Z :=
  match mode with
  | 0 => ([digit32 (Z.shiftr enc 3)], 1, Z.shiftl (Z.land enc 7) 2)
  | 1 => ([digit32 (Z.lor left_ (Z.shiftr enc 6)); digit32 (Z.land (Z.shiftr enc 1) 31)], 2, Z.shiftl (Z.land enc 1) 4)
  | 2 => ([digit32 (Z.lor left_ (Z.shiftr enc 4))], 3, Z.shiftl (Z.land enc 15) 1)
  | 3 => ([digit32 (Z.lor left_ (Z.shiftr enc 7)); digit32 (Z.land (Z.shiftr enc 2) 31)], 4, Z.shiftl (Z.land enc 3) 3)
  | _ => ([digit32 (Z.lor left_ (Z.shiftr enc 5)); digit32 (Z.land enc 31)], 0, left_)
  end.

Definition nPadding : list nat := [0; 6; 4; 3; 1]%nat.

Fixpoint encode32_loop (mode left_ : Z) (pch : list Z) : list Z :=
  match pch with
  | [] => if mode =? 0 then [] else digit32 left_ :: replicate (nth (Z.to_nat mode) nPadding 0%nat) 61
  | enc :: pch =>
    let '(cs, mode, left_) := encode32_step mode left_ enc in
    cs ++ encode32_loop mode left_ pch
  end.

Definition EncodeBase32 (pch : list Z) : list Z := encode32_loop 0 0 pch.

Definition decode32_table : list Z :=
  replicate 50 (-1) ++ seqZ 26 6 ++ replicate 9 (-1) ++ seqZ 0 26 ++ replicate 6 (-1) ++ seqZ 0 26 ++ replicate 133 (-1).
Definition decode32 (c : Z) : Z := nth (Z.to_nat c) decode32_table (-1).

Definition decode32_step (mode left_ dec : Z) : list Z * Z * Z :=
  match mode with
  | 0 => ([], 1, dec)
  | 1 => ([Z.lor (Z.shiftl left_ 3) (Z.shiftr dec 2) mod 256], 2, Z.land dec 3)
  | 2 => ([], 3, Z.lor (Z.shiftl left_ 5) dec)
  | 3 => ([Z.lor (Z.shiftl left_ 1) (Z.shiftr dec 4) mod 256], 4, Z.land dec 15)
  | 4 => ([Z.lor (Z.shiftl left_ 4) (Z.shiftr dec 1) mod 256], 5, Z.land dec 1)
  | 5 => ([], 6, Z.lor (Z.shiftl left_ 5) dec)
  | 6 => ([Z.lor (Z.shiftl left_ 2) (Z.shiftr dec 3) mod 256], 7, Z.land dec 7)
  | _ => ([Z.lor (Z.shiftl left_ 5) dec mod 256], 0, left_)
  end.

Fixpoint decode32_loop (mode left_ : Z) (p : list Z) : list Z * Z * Z * list Z :=
  match p with
  | [] => ([], mode, left_, p)
  | c :: p' =>
    let dec := decode32 c in
    if dec =? -1 then ([], mode, left_, p)
    else
      let '(bs, mode, left_) := decode32_step mode left_ dec in
      let '(bs', mode, left_, p) := decode32_loop mode left_ p' in
      (bs ++ bs', mode, left_, p)
  end.

(** [DecodeBase32(p, pfInvalid)] *)
Definition DecodeBase32 (p : list Z) : list Z * bool :=
  let '(vchRet, mode, left_, p) := decode32_loop 0 0 p in
  (vchRet,
   match mode with
   | 0 => false
   | 1 | 3 | 6 => true
   | 2 => negb (left_ =? 0) || negb (padded decode32 6 p)
   | 4 => negb (left_ =? 0) || negb (padded decode32 4 p)
   | 5 => negb (left_ =? 0) || negb (padded decode32 3 p)
   | _ => negb (left_ =? 0) || negb (padded decode32 1 p)
   end).

(** [DecodeBase64(str)] and [DecodeBase32(str)] on strings, which may hold zeros *)
Definition DecodeBase64_str (str : list Z) : list Z := fst (DecodeBase64 (c_str str)).
Definition DecodeBase32_str (str : list Z) : list Z := fst (DecodeBase32 (c_str str)).

(** ** Numbers *)

Definition isdigit (c : Z) : bool := (48 <=? c) && (c <=? 57).

(** The digits at the start of a string: the number and the rest. *)
Fixpoint read_digits (n : Z) (s : list Z) : Z * list Z :=
  match s with
  | c :: s' => if isdigit c then read_digits (10 * n + (c - 48)) s' else (n, s)
  | [] => (n, s)
  end.

(** [strtol(nptr, &endp, 10)] with a 64-bit long: the number, the string at
    [endp], and whether [errno] is set.  Without digits [endp] is [nptr]. *)
Definition strtol (nptr : list Z) : Z * list Z * bool :=
  let s := drop_while isspace nptr in
  let '(neg, s) := match s with 45 :: s' => (true, s') | 43 :: s' => (false, s') | _ => (false, s) end in
  match s with
  | c :: _ =>
    if isdigit c then
      let '(n, endp) := read_digits 0 s in
      let n := if (neg : bool) then - n else n in
      (Z.max INT64_MIN (Z.min INT64_MAX n), endp, (n <? INT64_MIN) || (INT64_MAX <? n))
    else (0, nptr, false)
  | [] => (0, nptr, false)
  end.

(** [ParseInt32(str, out)]: [None] is false. *)
Definition ParseInt32 (str : list Z) : option Z :=
  let '(n, endp, errno) := strtol (c_str str) in
  if bool_decide (endp = []) && negb errno && (- 2 ^ 31 <=? n) && (n <=? 2 ^ 31 - 1) then Some n else None.
