(* ===== verification/EncodingsProps.v ===== *)
(** * Text encodings are codecs

    Base 64 and base 32 are proved group by group (three bytes are four
    digits, five bytes are eight): what decodes as valid is an encoding of the
    bytes, and encodings decode to them.  Hexadecimal is proved pair by
    pair. *)

From S2P Require Import Prelude Base58 Encodings.

Local Open Scope Z_scope.

(** ** Bit fields as arithmetic *)

Lemma lor_shl k a b : 0 <= k -> 0 <= b < 2 ^ k -> Z.lor (Z.shiftl a k) b = a * 2 ^ k + b.
Proof. intros Hk Hb. rewrite Z.lor_comm, lor_shiftl_add by done. lia. Qed.

Lemma land_ones_1 a : Z.land a 1 = a mod 2. Proof. by apply (Z.land_ones a 1). Qed.
Lemma land_ones_2 a : Z.land a 3 = a mod 4. Proof. by apply (Z.land_ones a 2). Qed.
Lemma land_ones_3 a : Z.land a 7 = a mod 8. Proof. by apply (Z.land_ones a 3). Qed.
Lemma land_ones_4 a : Z.land a 15 = a mod 16. Proof. by apply (Z.land_ones a 4). Qed.
Lemma land_ones_5 a : Z.land a 31 = a mod 32. Proof. by apply (Z.land_ones a 5). Qed.
Lemma land_ones_6 a : Z.land a 63 = a mod 64. Proof. by apply (Z.land_ones a 6). Qed.

Ltac div_lia := Z.to_euclidean_division_equations; lia.

(** Shifts, masks and disjoint unions become quotients, remainders, sums. *)
Ltac to_arith :=
  rewrite ?land_ones_1, ?land_ones_2, ?land_ones_3, ?land_ones_4, ?land_ones_5, ?land_ones_6;
  rewrite ?Z.shiftr_div_pow2 by lia;
  repeat (rewrite lor_shl by (first [lia | cbn; div_lia]));
  rewrite ?Z.shiftl_mul_pow2 by lia;
  change (2 ^ 1) with 2 in *; change (2 ^ 2) with 4 in *; change (2 ^ 3) with 8 in *; change (2 ^ 4) with 16 in *;
  change (2 ^ 5) with 32 in *; change (2 ^ 6) with 64 in *; change (2 ^ 7) with 128 in *.

(** ** Digits *)

(** The tables of a base: digits are characters, characters digits. *)
Lemma table_digit (table alphabet : list Z) n c
    (Hlen : length table = 256%nat)
    (Hall : forallb (fun c => let d := nth (Z.to_nat c) table (-1) in
      (d =? -1) || ((0 <=? d) && (d <? n) && (nth (Z.to_nat d) alphabet 0 =? c))) (seqZ 0 256) = true)
    (Hzero : nth 0 table (-1) = -1) :
  let d := nth (Z.to_nat c) table (-1) in
  d = -1 \/ (0 <= d < n /\ nth (Z.to_nat d) alphabet 0 = c).
Proof.
  intros d. destruct (decide (0 <= c < 256)) as [Hc|Hc].
  - pose proof (byte_enum _ Hall c Hc) as H. cbv beta zeta in H. fold d in H. lia.
  - left. subst d. destruct (decide (c < 0)).
    + by rewrite Z2Nat.nonpos by lia.
    + apply nth_overflow. lia.
Qed.

Lemma decode64_digit c : decode64 c = -1 \/ (0 <= decode64 c < 64 /\ digit64 (decode64 c) = c).
Proof. by apply table_digit. Qed.

Lemma digit64_ok d : 0 <= d < 64 -> decode64 (digit64 d) = d.
Proof.
  intros Hd. assert (forallb (fun d => decode64 (digit64 d) =? d) (seqZ 0 64) = true) as H by reflexivity.
  rewrite forallb_forall in H. specialize (H d). rewrite Z.eqb_eq in H.
  apply H, list_elem_of_In, elem_of_seqZ. lia.
Qed.

(** The string does not go on with a digit. *)
Definition ends (decode : Z -> Z) (p : list Z) : Prop := decode (char_at p 0) = -1.

(** Induction on the groups of [n] elements of a list. *)
Lemma group_ind {A} (n : nat) (Hn : (0 < n)%nat) (P : list A -> Prop) :
  (forall l, (length l < n)%nat -> P l) ->
  (forall g l, length g = n -> P l -> P (g ++ l)) -> forall l, P l.
Proof.
  intros H0 HS l. remember (length l) as k eqn:Hk. revert l Hk. induction (lt_wf k) as [k _ IH]. intros l ->.
  destruct (decide (length l < n)%nat); [by apply H0|].
  rewrite <-(take_drop n l). apply HS; [rewrite length_take; lia|].
  apply (IH (length (drop n l))); [rewrite length_drop; lia|done].
Qed.

(** Padding: [n] equality signs, then no digit. *)
Lemma padded_spec decode n p : padded decode n p = true <-> exists q, p = replicate n 61 ++ q /\ ends decode q.
Proof.
  unfold padded, ends. revert p. induction n as [|n IH]; intros p.
  - cbn. rewrite Z.eqb_eq. split; [by eauto|]. by intros (q & -> & ?).
  - cbn [seq forallb replicate].
    destruct p as [|c p].
    + split; [done|]. by intros (q & ? & _).
    + rewrite <-(fmap_S_seq 0 n).
      assert (forall l, forallb (fun i => char_at (c :: p) i =? 61) (S <$> l) = forallb (fun i => char_at p i =? 61) l) as ->.
      { intros l. induction l as [|i l IHl]; cbn; [done|]. by rewrite <-IHl. }
      specialize (IH p). cbn [char_at nth]. change (nth n p 0) with (char_at p n).
      rewrite <-andb_assoc, andb_true_iff, IH, Z.eqb_eq. split.
      * intros (-> & q & -> & ?). by exists q.
      * intros (q & [= -> ->] & ?). eauto.
Qed.

(** ** Base 64 *)

Definition group64 (d0 d1 d2 d3 : Z) : list Z :=
  [(d0 * 4 + d1 / 16) mod 256; (d1 mod 16 * 16 + d2 / 4) mod 256; (d2 mod 4 * 64 + d3) mod 256].

Lemma loop64_end m l p : ends decode64 p -> decode64_loop m l p = ([], m, l, p).
Proof. unfold ends. destruct p as [|c p]; cbn; [done|]. by intros ->. Qed.

Lemma loop64_step m l d p : 0 <= d < 64 ->
  decode64_loop m l (digit64 d :: p) =
    let '(bs, m, l) := decode64_step m l d in
    let '(bs', m, l, q) := decode64_loop m l p in (bs ++ bs', m, l, q).
Proof. intros Hd. cbn [decode64_loop]. rewrite digit64_ok by done. by destruct (Z.eqb_spec d (-1)); [lia|]. Qed.

Lemma digits64 p : ends decode64 p \/ exists d q, p = digit64 d :: q /\ 0 <= d < 64.
Proof.
  destruct p as [|c p]; [by left|]. destruct (decode64_digit c) as [?|[? <-]]; [by left|right; eauto].
Qed.

Definition verdict64 (r : list Z * Z * Z * list Z) : list Z * bool :=
  let '(vchRet, mode, left_, p) := r in
  (vchRet,
   match mode with
   | 0 => false
   | 1 => true
   | 2 => negb (left_ =? 0) || negb (padded decode64 2 p)
   | _ => negb (left_ =? 0) || negb (padded decode64 1 p)
   end).

Lemma verdict64_left l p : verdict64 (decode64_loop 0 l p) = DecodeBase64 p.
Proof. destruct p as [|c p]; [done|]. unfold DecodeBase64, verdict64. cbn [decode64_loop decode64_step]. by destruct (decode64 c =? -1). Qed.

Section group64.
Context (d0 d1 d2 d3 : Z) (H0 : 0 <= d0 < 64) (H1 : 0 <= d1 < 64) (H2 : 0 <= d2 < 64) (H3 : 0 <= d3 < 64).

Lemma DecodeBase64_group p :
  DecodeBase64 (map digit64 [d0; d1; d2; d3] ++ p) =
  (group64 d0 d1 d2 d3 ++ fst (DecodeBase64 p), snd (DecodeBase64 p)).
Proof.
  rewrite <-(verdict64_left 0), <-(verdict64_left (Z.land d2 3)). cbn [map app].
  rewrite loop64_step by done. cbn [decode64_step]. rewrite loop64_step by done. cbn [decode64_step].
  rewrite loop64_step by done. cbn [decode64_step]. rewrite loop64_step by done. cbn [decode64_step].
  destruct (decode64_loop 0 (Z.land d2 3) p) as [[[bs m] l] q]. cbn [verdict64 fst snd app].
  unfold group64. to_arith. done.
Qed.

Lemma EncodeBase64_group bs : EncodeBase64 (group64 d0 d1 d2 d3 ++ bs) = map digit64 [d0; d1; d2; d3] ++ EncodeBase64 bs.
Proof.
  unfold EncodeBase64, group64. cbn [app encode64_loop encode64_step map].
  assert (forall l, encode64_loop 0 l bs = encode64_loop 0 0 bs) as -> by (intros; by destruct bs).
  to_arith. repeat f_equal; div_lia.
Qed.
End group64.

(** The last group: one or two bytes and their padding. *)
Lemma DecodeBase64_tail1 d0 d1 p : 0 <= d0 < 64 -> 0 <= d1 < 64 -> ends decode64 p ->
  DecodeBase64 (digit64 d0 :: digit64 d1 :: p) =
  ([(d0 * 4 + d1 / 16) mod 256], negb (d1 mod 16 =? 0) || negb (padded decode64 2 p)).
Proof.
  intros H0 H1 Hp. rewrite <-(verdict64_left 0). rewrite loop64_step by done. cbn [decode64_step].
  rewrite loop64_step by done. cbn [decode64_step]. rewrite loop64_end by done. cbn [verdict64 app].
  by to_arith.
Qed.

Lemma DecodeBase64_tail2 d0 d1 d2 p : 0 <= d0 < 64 -> 0 <= d1 < 64 -> 0 <= d2 < 64 -> ends decode64 p ->
  DecodeBase64 (digit64 d0 :: digit64 d1 :: digit64 d2 :: p) =
  ([(d0 * 4 + d1 / 16) mod 256; (d1 mod 16 * 16 + d2 / 4) mod 256], negb (d2 mod 4 =? 0) || negb (padded decode64 1 p)).
Proof.
  intros H0 H1 H2 Hp. rewrite <-(verdict64_left 0). rewrite loop64_step by done. cbn [decode64_step].
  rewrite loop64_step by done. cbn [decode64_step]. rewrite loop64_step by done. cbn [decode64_step].
  rewrite loop64_end by done. cbn [verdict64 app]. by to_arith.
Qed.

Lemma ends_pad64 n q : ends decode64 (replicate (S n) 61 ++ q).
Proof. done. Qed.

Lemma EncodeBase64_1 b : byte_ok b ->
  EncodeBase64 [b] = digit64 (b / 4) :: digit64 (b mod 4 * 16) :: [61; 61].
Proof. intros Hb. cbn. by to_arith. Qed.

Lemma EncodeBase64_2 b c : byte_ok b -> byte_ok c ->
  EncodeBase64 [b; c] = digit64 (b / 4) :: digit64 (b mod 4 * 16 + c / 16) :: digit64 (c mod 16 * 4) :: [61].
Proof. unfold byte_ok. intros Hb Hc. cbn. by to_arith. Qed.

Lemma group64_bytes b0 b1 b2 : byte_ok b0 -> byte_ok b1 -> byte_ok b2 ->
  exists d0 d1 d2 d3, (0 <= d0 < 64 /\ 0 <= d1 < 64 /\ 0 <= d2 < 64 /\ 0 <= d3 < 64) /\ [b0; b1; b2] = group64 d0 d1 d2 d3.
Proof.
  unfold byte_ok. intros. exists (b0 / 4), (b0 mod 4 * 16 + b1 / 16), (b1 mod 16 * 4 + b2 / 64), (b2 mod 64).
  split; [split_and!; div_lia|]. unfold group64. repeat f_equal; div_lia.
Qed.

Lemma group64_ok d0 d1 d2 d3 : bytes_ok (group64 d0 d1 d2 d3).
Proof. repeat constructor; unfold byte_ok; div_lia. Qed.

(** Encodings decode. *)
Lemma DecodeBase64_encode bs q : bytes_ok bs -> ends decode64 q -> DecodeBase64 (EncodeBase64 bs ++ q) = (bs, false).
Proof.
  intros Hbs Hq. induction bs as [bs Hl|g bs Hg IH] using (group_ind 3 ltac:(lia)).
  - destruct bs as [|b [|c [|]]]; [| | |cbn in Hl; lia].
    + cbn [EncodeBase64 encode64_loop app]. rewrite <-(verdict64_left 0), loop64_end by done. done.
    + apply Forall_inv in Hbs as Hb. rewrite EncodeBase64_1 by done. unfold byte_ok in Hb. cbn [app].
      rewrite DecodeBase64_tail1 by (done || div_lia).
      assert (padded decode64 2 (61 :: 61 :: q) = true) as -> by (apply padded_spec; by exists q).
      f_equal; [f_equal; div_lia|]. rewrite orb_false_r. apply negb_false_iff, Z.eqb_eq. div_lia.
    + apply Forall_cons in Hbs as [Hb Hc]. apply Forall_inv in Hc. rewrite EncodeBase64_2 by done. unfold byte_ok in *.
      cbn [app]. rewrite DecodeBase64_tail2 by (done || div_lia).
      assert (padded decode64 1 (61 :: q) = true) as -> by (apply padded_spec; by exists q).
      f_equal; [repeat f_equal; div_lia|]. rewrite orb_false_r. apply negb_false_iff, Z.eqb_eq. div_lia.
  - apply Forall_app in Hbs as [Hb Hbs]. destruct g as [|b0 [|b1 [|b2 [|]]]]; try done.
    rewrite !Forall_cons in Hb. destruct Hb as (H0 & H1 & H2 & _).
    destruct (group64_bytes b0 b1 b2 H0 H1 H2) as (d0 & d1 & d2 & d3 & (? & ? & ? & ?) & ->).
    rewrite EncodeBase64_group, <-app_assoc, DecodeBase64_group, IH by done. done.
Qed.

(** Nothing else is valid. *)
Lemma DecodeBase64_valid p bs : DecodeBase64 p = (bs, false) ->
  bytes_ok bs /\ exists q, p = EncodeBase64 bs ++ q /\ ends decode64 q.
Proof.
  revert bs. induction p as [p IH] using (induction_ltof1 _ length). unfold ltof in IH. intros bs.
  destruct (digits64 p) as [Hp|(d0 & p1 & -> & H0)].
  { rewrite <-(verdict64_left 0), loop64_end by done. intros [= <-]. split; [done|]. by exists p. }
  destruct (digits64 p1) as [Hp|(d1 & p2 & -> & H1)].
  { rewrite <-(verdict64_left 0), loop64_step by done. cbn [decode64_step]. by rewrite loop64_end by done. }
  destruct (digits64 p2) as [Hp|(d2 & p3 & -> & H2)].
  { rewrite DecodeBase64_tail1 by done. intros [= <- Hv]. apply orb_false_iff in Hv as [Hl Hpad].
    apply negb_false_iff, Z.eqb_eq in Hl. apply negb_false_iff, padded_spec in Hpad as (q & -> & Hq).
    split; [repeat constructor; div_lia|]. exists q. split; [|done].
    rewrite EncodeBase64_1 by (unfold byte_ok; div_lia). cbn [app replicate]. repeat f_equal; div_lia. }
  destruct (digits64 p3) as [Hp|(d3 & p4 & -> & H3)].
  { rewrite DecodeBase64_tail2 by done. intros [= <- Hv]. apply orb_false_iff in Hv as [Hl Hpad].
    apply negb_false_iff, Z.eqb_eq in Hl. apply negb_false_iff, padded_spec in Hpad as (q & -> & Hq).
    split; [repeat constructor; div_lia|]. exists q. split; [|done].
    rewrite EncodeBase64_2 by (unfold byte_ok; div_lia). cbn [app replicate]. repeat f_equal; div_lia. }
  change (digit64 d0 :: digit64 d1 :: digit64 d2 :: digit64 d3 :: p4) with (map digit64 [d0; d1; d2; d3] ++ p4).
  rewrite DecodeBase64_group by done. intros E. apply pair_equal_spec in E as [<- Hv].
  destruct (IH p4 ltac:(cbn; lia) (fst (DecodeBase64 p4))) as (Hok & q & Hq & Hend).
  { rewrite <-Hv. by destruct (DecodeBase64 p4). }
  split; [apply Forall_app; split; [apply group64_ok|done]|].
  exists q. split; [|done]. by rewrite EncodeBase64_group, <-app_assoc, <-Hq by done.
Qed.

(** ** Base 32 *)

(** [tolower] in the C locale *)
Definition lower_text (c : Z) : Z := if (65 <=? c) && (c <=? 90) then c + 32 else c.

Lemma decode32_digit c : decode32 c = -1 \/ (0 <= decode32 c < 32 /\ digit32 (decode32 c) = lower_text c).
Proof.
  destruct (decide (0 <= c < 256)) as [Hc|Hc].
  - assert (((decode32 c =? -1) || ((0 <=? decode32 c) && (decode32 c <? 32) && (digit32 (decode32 c) =? lower_text c))) = true).
    { revert c Hc. by apply byte_enum. }
    lia.
  - left. unfold decode32. destruct (decide (c < 0)); [by rewrite Z2Nat.nonpos by lia|]. apply nth_overflow.
    change (length decode32_table) with 256%nat. lia.
Qed.

Lemma digit32_ok d : 0 <= d < 32 -> decode32 (digit32 d) = d.
Proof.
  intros Hd. assert (forallb (fun d => decode32 (digit32 d) =? d) (seqZ 0 32) = true) as H by reflexivity.
  rewrite forallb_forall in H. specialize (H d). rewrite Z.eqb_eq in H.
  apply H, list_elem_of_In, elem_of_seqZ. lia.
Qed.

Definition digit_char32 (c : Z) : Prop := 0 <= decode32 c < 32.

Lemma digits32 p : ends decode32 p \/ exists c q, p = c :: q /\ digit_char32 c.
Proof. destruct p as [|c p]; [by left|]. destruct (decode32_digit c) as [?|[? _]]; [by left|right; eauto]. Qed.

(** The machine on digits. *)
Fixpoint run32 (m l : Z) (ds : list Z) : list Z * Z * Z :=
  match ds with
  | [] => ([], m, l)
  | d :: ds =>
    let '(bs, m, l) := decode32_step m l d in
    let '(bs', m, l) := run32 m l ds in (bs ++ bs', m, l)
  end.

Lemma loop32_run cs m l p : Forall digit_char32 cs ->
  decode32_loop m l (cs ++ p) =
    let '(bs, m, l) := run32 m l (map decode32 cs) in
    let '(bs', m, l, q) := decode32_loop m l p in (bs ++ bs', m, l, q).
Proof.
  intros Hcs. revert m l. induction Hcs as [|c cs Hc _ IH]; intros m l; cbn [app map run32].
  - by destruct (decode32_loop m l p) as [[[? ?] ?] ?].
  - cbn [decode32_loop]. unfold digit_char32 in Hc. destruct (Z.eqb_spec (decode32 c) (-1)); [lia|].
    destruct (decode32_step m l (decode32 c)) as [[bs m1] l1]. rewrite IH.
    destruct (run32 m1 l1 (map decode32 cs)) as [[bs' m2] l2].
    destruct (decode32_loop m2 l2 p) as [[[bs'' ?] ?] ?]. by rewrite app_assoc.
Qed.

Lemma loop32_end m l p : ends decode32 p -> decode32_loop m l p = ([], m, l, p).
Proof. unfold ends. destruct p as [|c p]; cbn [decode32_loop char_at nth]; [done|]. by intros ->. Qed.

Definition verdict32 (r : list Z * Z * Z * list Z) : list Z * bool :=
  let '(vchRet, mode, left_, p) := r in
  (vchRet,
   match mode with
   | 0 => false
   | 1 | 3 | 6 => true
   | 2 => negb (left_ =? 0) || negb (padded decode32 6 p)
   | 4 => negb (left_ =? 0) || negb (padded decode32 4 p)
   | 5 => negb (left_ =? 0) || negb (padded decode32 3 p)
   | _ => negb (left_ =? 0) || negb (padded decode32 1 p)
   end).

Lemma verdict32_left l p : verdict32 (decode32_loop 0 l p) = DecodeBase32 p.
Proof. destruct p as [|c p]; [done|]. unfold DecodeBase32, verdict32. cbn [decode32_loop decode32_step]. by destruct (decode32 c =? -1). Qed.

(** The digits of a string cut at the first character that is none, or after
    eight. *)
Lemma take_digits32 n p : exists cs q, p = cs ++ q /\ Forall digit_char32 cs /\
  (length cs = n \/ ((length cs < n)%nat /\ ends decode32 q)).
Proof.
  revert p. induction n as [|n IH]; intros p; [exists [], p; by split_and!; [..|left]|].
  destruct (digits32 p) as [Hp|(c & q & -> & Hc)].
  - exists [], p. split_and!; [done|done|]. right. split; [cbn; lia|done].
  - destruct (IH q) as (cs & r & -> & Hcs & H). exists (c :: cs), r. split_and!; [done|by constructor|].
    cbn. destruct H as [<-|[? ?]]; [by left|right; split; [lia|done]].
Qed.

Definition group32 (ds : list Z) : list Z :=
  match ds with
  | [d0; d1; d2; d3; d4; d5; d6; d7] =>
    [d0 * 8 + d1 / 4; (d1 mod 4 * 32 + d2) * 2 + d3 / 16; d3 mod 16 * 16 + d4 / 2; (d4 mod 2 * 32 + d5) * 4 + d6 / 8; d6 mod 8 * 32 + d7]
  | _ => []
  end.

Ltac run32 := cbn [run32 decode32_step map app length group32]; to_arith.

Lemma DecodeBase32_group cs p : Forall digit_char32 cs -> length cs = 8%nat ->
  DecodeBase32 (cs ++ p) = (group32 (map decode32 cs) ++ fst (DecodeBase32 p), snd (DecodeBase32 p)).
Proof.
  intros Hcs Hl. rewrite <-(verdict32_left 0), loop32_run by done.
  destruct cs as [|c0 [|c1 [|c2 [|c3 [|c4 [|c5 [|c6 [|c7 [|]]]]]]]]]; try done.
  rewrite !Forall_cons in Hcs. unfold digit_char32 in Hcs. destruct Hcs as (H0 & H1 & H2 & H3 & H4 & H5 & H6 & H7 & _).
  cbn [map]. generalize dependent (decode32 c0). generalize dependent (decode32 c1). generalize dependent (decode32 c2).
  generalize dependent (decode32 c3). generalize dependent (decode32 c4). generalize dependent (decode32 c5).
  generalize dependent (decode32 c6). generalize dependent (decode32 c7). clear. intros d7 H7 d6 H6 d5 H5 d4 H4 d3 H3 d2 H2 d1 H1 d0 H0.
  cbn [run32 decode32_step app]. rewrite <-(verdict32_left (Z.land d6 7) p).
  destruct (decode32_loop 0 (Z.land d6 7) p) as [[[bs m] l] q]. cbn [verdict32 fst snd app group32]. to_arith.
  repeat f_equal; div_lia.
Qed.

(** The digits of a group of five bytes; a shorter last group is filled up
    with zeros and keeps the digits its bits reach into. *)
Definition ungroup32 (bs : list Z) : list Z :=
  match bs with
  | [b0; b1; b2; b3; b4] =>
    [b0 / 8; b0 mod 8 * 4 + b1 / 64; b1 / 2 mod 32; b1 mod 2 * 16 + b2 / 16; b2 mod 16 * 2 + b3 / 128;
     b3 / 4 mod 32; b3 mod 4 * 8 + b4 / 32; b4 mod 32]
  | _ => []
  end.

Definition tail_digits (n : nat) : nat := nth n [0; 2; 4; 5; 7]%nat 8%nat.

Lemma EncodeBase32_group g bs : bytes_ok g -> length g = 5%nat ->
  EncodeBase32 (g ++ bs) = map digit32 (ungroup32 g) ++ EncodeBase32 bs.
Proof.
  intros Hg Hl. destruct g as [|b0 [|b1 [|b2 [|b3 [|b4 [|]]]]]]; try done.
  rewrite !Forall_cons in Hg. unfold byte_ok in Hg. destruct Hg as (H0 & H1 & H2 & H3 & H4 & _).
  unfold EncodeBase32. cbn [app encode32_loop encode32_step map ungroup32].
  assert (forall l, encode32_loop 0 l bs = encode32_loop 0 0 bs) as -> by (intros; by destruct bs).
  to_arith. repeat f_equal; div_lia.
Qed.

Lemma EncodeBase32_tail g : bytes_ok g -> (length g < 5)%nat ->
  EncodeBase32 g = map digit32 (take (tail_digits (length g)) (ungroup32 (g ++ replicate (5 - length g) 0)))
    ++ replicate (nth (length g) nPadding 0%nat) 61.
Proof.
  intros Hg Hl. destruct g as [|b0 [|b1 [|b2 [|b3 [|]]]]]; [| | | | |cbn in Hl; lia];
    rewrite ?Forall_cons in Hg; unfold byte_ok in Hg; destruct_and?; [done|..];
    unfold EncodeBase32; cbn [app encode32_loop encode32_step map ungroup32 length replicate take tail_digits nth Nat.sub];
    cbn -[Z.land Z.lor Z.shiftl Z.shiftr Z.div Z.modulo Z.add Z.mul digit32]; to_arith; repeat f_equal; div_lia.
Qed.

Lemma ungroup32_ok g : bytes_ok g -> length g = 5%nat ->
  Forall (fun d => 0 <= d < 32) (ungroup32 g) /\ length (ungroup32 g) = 8%nat /\ group32 (ungroup32 g) = g.
Proof.
  intros Hg Hl. destruct g as [|b0 [|b1 [|b2 [|b3 [|b4 [|]]]]]]; try done.
  rewrite !Forall_cons in Hg. unfold byte_ok in Hg. destruct Hg as (H0 & H1 & H2 & H3 & H4 & _).
  split_and!; [repeat constructor; div_lia|done|]. cbn [ungroup32 group32]. repeat f_equal; div_lia.
Qed.

Lemma group32_ok ds : Forall (fun d => 0 <= d < 32) ds -> length ds = 8%nat ->
  bytes_ok (group32 ds) /\ length (group32 ds) = 5%nat /\ ungroup32 (group32 ds) = ds.
Proof.
  intros Hd Hl. destruct ds as [|d0 [|d1 [|d2 [|d3 [|d4 [|d5 [|d6 [|d7 [|]]]]]]]]]; try done.
  rewrite !Forall_cons in Hd. destruct Hd as (H0 & H1 & H2 & H3 & H4 & H5 & H6 & H7 & _).
  split_and!; [repeat constructor; unfold byte_ok; div_lia|done|]. cbn [ungroup32 group32]. repeat f_equal; div_lia.
Qed.

Definition fill32 (g : list Z) : list Z := take (tail_digits (length g)) (ungroup32 (g ++ replicate (5 - length g) 0)).

Ltac small_cbn := cbn -[Z.land Z.lor Z.shiftl Z.shiftr Z.div Z.modulo Z.add Z.mul padded decode32 digit32].

Lemma DecodeBase32_tail g cs q : bytes_ok g -> (length g < 5)%nat -> Forall digit_char32 cs ->
  map decode32 cs = fill32 g -> ends decode32 q ->
  DecodeBase32 (cs ++ q) = (g, negb (padded decode32 (nth (length g) nPadding 0%nat) q)).
Proof.
  intros Hg Hl Hcs Hds Hq. rewrite <-(verdict32_left 0), loop32_run, Hds by done.
  destruct g as [|b0 [|b1 [|b2 [|b3 [|]]]]]; [| | | | |cbn in Hl; lia];
    rewrite ?Forall_cons in Hg; unfold byte_ok in Hg; destruct_and?.
  - small_cbn. rewrite loop32_end by done. small_cbn.
    by assert (padded decode32 0 q = true) as -> by (apply padded_spec; by exists q).
  - small_cbn. rewrite loop32_end by done. small_cbn. to_arith.
    rewrite (proj2 (Z.eqb_eq ((_ : Z) mod 4) 0)) by div_lia. cbn [negb orb]. repeat f_equal; div_lia.
  - small_cbn. rewrite loop32_end by done. small_cbn. to_arith.
    rewrite (proj2 (Z.eqb_eq ((_ : Z) mod 16) 0)) by div_lia. cbn [negb orb]. repeat f_equal; div_lia.
  - small_cbn. rewrite loop32_end by done. small_cbn. to_arith.
    rewrite (proj2 (Z.eqb_eq ((_ : Z) mod 2) 0)) by div_lia. cbn [negb orb]. repeat f_equal; div_lia.
  - small_cbn. rewrite loop32_end by done. small_cbn. to_arith.
    rewrite (proj2 (Z.eqb_eq ((_ : Z) mod 8) 0)) by div_lia. cbn [negb orb]. repeat f_equal; div_lia.
Qed.

(** A valid string that ends within a group ends with a filled group. *)
Lemma DecodeBase32_tail_valid cs q bs : Forall digit_char32 cs -> (length cs < 8)%nat -> ends decode32 q ->
  DecodeBase32 (cs ++ q) = (bs, false) ->
  bytes_ok bs /\ (length bs < 5)%nat /\ map decode32 cs = fill32 bs /\
  padded decode32 (nth (length bs) nPadding 0%nat) q = true.
Proof.
  intros Hcs Hl Hq. rewrite <-(verdict32_left 0), loop32_run by done.
  assert (Forall (fun d => 0 <= d < 32) (map decode32 cs)) as Hds by (rewrite Forall_map; exact Hcs).
  rewrite <-(length_map decode32) in Hl. generalize dependent (map decode32 cs). clear cs Hcs. intros ds Hl Hds.
  destruct ds as [|d0 [|d1 [|d2 [|d3 [|d4 [|d5 [|d6 [|]]]]]]]]; [| | | | | | | |cbn in Hl; lia];
    rewrite ?Forall_cons in Hds; destruct_and?; small_cbn; rewrite loop32_end by done; small_cbn; try (by intros [=]);
    try (intros [= <- Hv]; apply orb_false_iff in Hv as [Hz Hp]; apply negb_false_iff in Hp;
         apply negb_false_iff, Z.eqb_eq in Hz; revert Hz; to_arith; intros Hz;
         split_and!; [repeat constructor; unfold byte_ok; div_lia|small_cbn; lia| |done];
         unfold fill32; small_cbn; repeat f_equal; div_lia).
  intros [= <-]. split_and!; [done|small_cbn; lia|done|]. apply padded_spec. by exists q.
Qed.

(** Characters of digits, upper or lower case. *)
Lemma lower_digits s ds : map lower_text s = map digit32 ds -> Forall (fun d => 0 <= d < 32) ds ->
  map decode32 s = ds /\ Forall digit_char32 s.
Proof.
  assert (forall c, decode32 (lower_text c) = decode32 c) as Hlow.
  { intros c. destruct (decide (0 <= c < 256)) as [Hc|Hc].
    - apply Z.eqb_eq. revert c Hc. by apply byte_enum.
    - unfold lower_text. by assert ((65 <=? c) && (c <=? 90) = false) as -> by lia. }
  intros E Hds. revert s E. induction Hds as [|d ds Hd _ IH]; intros [|c s] E; try done. injection E as E1 E2.
  destruct (IH s E2) as [<- ?].
  assert (decode32 c = d) as <- by (by rewrite <-Hlow, E1, digit32_ok).
  split; [done|by constructor].
Qed.

Lemma lower_pad s k : map lower_text s = replicate k 61 -> s = replicate k 61.
Proof.
  revert s. induction k as [|k IH]; intros [|c s] E; try done. injection E as E1 E2. cbn.
  f_equal; [|auto]. unfold lower_text in E1. destruct ((65 <=? c) && (c <=? 90)) eqn:E; lia.
Qed.

Lemma lower_pads k : map lower_text (replicate k 61) = replicate k 61.
Proof. induction k as [|k IH]; cbn [map replicate]; [done|]. by rewrite IH. Qed.

Lemma lower_digit_chars cs : Forall digit_char32 cs -> map lower_text cs = map digit32 (map decode32 cs).
Proof.
  induction 1 as [|c cs Hc _ IH]; cbn [map]; [done|]. rewrite IH. f_equal.
  destruct (decode32_digit c) as [E|[_ ->]]; [|done]. unfold digit_char32 in Hc. lia.
Qed.

Lemma fill32_ok g : bytes_ok g -> (length g < 5)%nat -> Forall (fun d => 0 <= d < 32) (fill32 g).
Proof.
  intros Hg Hl. apply Forall_take, ungroup32_ok.
  - apply Forall_app. split; [done|]. by apply Forall_replicate.
  - rewrite length_app, length_replicate. lia.
Qed.

Lemma DecodeBase32_encode bs s q : bytes_ok bs -> map lower_text s = EncodeBase32 bs -> ends decode32 q ->
  DecodeBase32 (s ++ q) = (bs, false).
Proof.
  intros Hbs Hs Hq. revert s Hs. induction bs as [bs Hl|g bs Hg IH] using (group_ind 5 ltac:(lia)); intros s Hs.
  - rewrite EncodeBase32_tail in Hs by done. apply map_eq_app in Hs as (cs & pad & -> & Hcs & Hpad).
    apply lower_digits in Hcs as [Hds Hcs]; [|by apply fill32_ok]. apply lower_pad in Hpad as ->.
    rewrite <-app_assoc, (DecodeBase32_tail bs) by (try done; by destruct (nth (length bs) nPadding 0%nat)).
    f_equal. apply negb_false_iff, padded_spec. by exists q.
  - apply Forall_app in Hbs as [Hok Hbs]. rewrite EncodeBase32_group in Hs by done.
    apply map_eq_app in Hs as (cs & s' & -> & Hcs & Hs').
    destruct (ungroup32_ok g) as (Hr & Hlen & Hgr); [done..|].
    apply lower_digits in Hcs as [Hds Hcs]; [|done].
    rewrite <-app_assoc, DecodeBase32_group, Hds, Hgr by (try done; by rewrite <-(length_map decode32), Hds).
    by rewrite (IH Hbs s' Hs').
Qed.

Lemma DecodeBase32_valid p bs : DecodeBase32 p = (bs, false) ->
  bytes_ok bs /\ exists s q, p = s ++ q /\ map lower_text s = EncodeBase32 bs /\ ends decode32 q.
Proof.
  revert bs. induction p as [p IH] using (induction_ltof1 _ length). unfold ltof in IH. intros bs E.
  destruct (take_digits32 8 p) as (cs & q & -> & Hcs & [Hl|[Hl Hq]]).
  - rewrite DecodeBase32_group in E by done. apply pair_equal_spec in E as [<- Hv].
    destruct (IH q) with (bs := fst (DecodeBase32 q)) as (Hok & s & r & -> & Hs & Hr).
    { rewrite length_app. lia. }
    { rewrite <-Hv. by destruct (DecodeBase32 q). }
    destruct (group32_ok (map decode32 cs)) as (Hg & Hgl & Hug); [by rewrite Forall_map|by rewrite length_map|].
    split; [by apply Forall_app|]. exists (cs ++ s), r. split_and!; [by rewrite app_assoc| |done].
    by rewrite map_app, EncodeBase32_group, Hug, Hs, lower_digit_chars by done.
  - destruct (DecodeBase32_tail_valid cs q bs) as (Hok & Hbl & Hds & Hpad); [done..|].
    apply padded_spec in Hpad as (r & -> & Hr). split; [done|].
    exists (cs ++ replicate (nth (length bs) nPadding 0%nat) 61), r. split_and!; [by rewrite app_assoc| |done].
    rewrite map_app, lower_digit_chars, Hds, EncodeBase32_tail by done. f_equal. apply lower_pads.
Qed.

(** ** Hexadecimal *)

Definition hex_pair (b : Z) : list Z := [nth (Z.to_nat (b / 16)) hexmap 0; nth (Z.to_nat (b mod 16)) hexmap 0].

Lemma HexStr_pairs vch : HexStr vch false = concat (map hex_pair vch).
Proof.
  unfold HexStr. generalize true. induction vch as [|b vch IH]; intros f; [done|].
  cbn [HexStr_loop andb app map concat]. unfold hex_pair at 1. rewrite IH, land_ones_4, Z.shiftr_div_pow2 by lia. done.
Qed.

Lemma HexDigit_spec c : HexDigit c = -1 \/
  (0 <= HexDigit c < 16 /\ nth (Z.to_nat (HexDigit c)) hexmap 0 = lower_text c /\ isspace c = false).
Proof.
  destruct (decide (0 <= c < 256)) as [Hc|Hc].
  - assert ((HexDigit c =? -1) || ((0 <=? HexDigit c) && (HexDigit c <? 16) &&
      (nth (Z.to_nat (HexDigit c)) hexmap 0 =? lower_text c) && negb (isspace c)) = true); [|destruct (isspace c); lia].
    revert c Hc. by apply byte_enum.
  - left. unfold HexDigit. destruct (decide (c < 0)); [by rewrite Z2Nat.nonpos by lia|]. apply nth_overflow.
    change (length p_util_hexdigit) with 256%nat. lia.
Qed.

Lemma hexmap_digit n : 0 <= n < 16 -> HexDigit (nth (Z.to_nat n) hexmap 0) = n.
Proof.
  intros Hn. assert (forallb (fun n => HexDigit (nth (Z.to_nat n) hexmap 0) =? n) (seqZ 0 16) = true) as H by reflexivity.
  rewrite forallb_forall in H. specialize (H n). rewrite Z.eqb_eq in H. apply H, list_elem_of_In, elem_of_seqZ. lia.
Qed.

Lemma ParseHex_two c d p : HexDigit c <> -1 -> HexDigit d <> -1 ->
  ParseHex (c :: d :: p) = HexDigit c * 16 + HexDigit d :: ParseHex p.
Proof.
  intros Hc Hd. destruct (HexDigit_spec c) as [|(Rc & _ & Sc)], (HexDigit_spec d) as [|(Rd & _)]; try done.
  cbn [ParseHex]. rewrite Sc. apply Z.eqb_neq in Hc, Hd. rewrite Hc, Hd. f_equal.
  rewrite Z.mod_small by (rewrite Z.shiftl_mul_pow2; lia). by rewrite lor_shl.
Qed.

Lemma ParseHex_pair b p : byte_ok b -> ParseHex (hex_pair b ++ p) = b :: ParseHex p.
Proof.
  unfold byte_ok. intros Hb. unfold hex_pair. cbn [app].
  rewrite ParseHex_two, !hexmap_digit by (rewrite ?hexmap_digit; div_lia). f_equal. div_lia.
Qed.

(** What [IsHex] accepts is the encoding of some bytes, up to case, which
    [ParseHex] finds. *)
Lemma ParseHex_HexStr bs : bytes_ok bs -> ParseHex (HexStr bs false) = bs.
Proof.
  intros Hbs. rewrite HexStr_pairs. induction Hbs as [|b bs Hb _ IH]; [done|].
  cbn [map concat]. by rewrite ParseHex_pair, IH.
Qed.

Lemma IsHex_HexStr bs : bytes_ok bs -> bs <> [] -> IsHex (HexStr bs false) = true.
Proof.
  intros Hbs Hne. unfold IsHex. rewrite HexStr_pairs, !andb_true_iff.
  assert (zlen (concat (map hex_pair bs)) = 2 * zlen bs) as ->.
  { clear. induction bs as [|b bs IH]; [done|]. cbn [map concat]. rewrite zlen_app, IH, zlen_cons. change (zlen (hex_pair b)) with 2. lia. }
  split_and!.
  - apply forallb_forall. intros c Hc. apply in_concat in Hc as (l & Hl & Hc). apply in_map_iff in Hl as (b & <- & Hb).
    rewrite List.Forall_forall in Hbs. specialize (Hbs b Hb). unfold byte_ok in Hbs.
    apply negb_true_iff, Z.ltb_ge. destruct Hc as [<-|[<-|[]]]; rewrite hexmap_digit; div_lia.
  - destruct bs; [done|]. rewrite zlen_cons. pose proof (zlen_nonneg bs). lia.
  - apply Z.eqb_eq. div_lia.
Qed.

Lemma IsHex_valid s : IsHex s = true -> exists bs, bytes_ok bs /\ map lower_text s = HexStr bs false /\ ParseHex s = bs.
Proof.
  unfold IsHex. rewrite !andb_true_iff. intros [[H _] Hm]. apply Z.eqb_eq in Hm. setoid_rewrite HexStr_pairs.
  induction s as [s IH] using (induction_ltof1 _ length). unfold ltof in IH. destruct s as [|c [|d s]].
  - by exists [].
  - done.
  - cbn [forallb] in H. rewrite !andb_true_iff, !negb_true_iff, !Z.ltb_ge in H. destruct H as (Hc & Hd & Hs).
    destruct (IH s) as (bs & Hok & Hl & Hp); [cbn; lia|done| |].
    { rewrite !zlen_cons in Hm. div_lia. }
    destruct (HexDigit_spec c) as [|(Rc & Lc & _)], (HexDigit_spec d) as [|(Rd & Ld & _)]; [lia..|].
    exists (HexDigit c * 16 + HexDigit d :: bs). split_and!.
    + constructor; [unfold byte_ok; lia|done].
    + cbn [map concat]. rewrite <-Hl. unfold hex_pair.
      assert ((HexDigit c * 16 + HexDigit d) / 16 = HexDigit c) as -> by div_lia.
      assert ((HexDigit c * 16 + HexDigit d) mod 16 = HexDigit d) as -> by div_lia. by rewrite Lc, Ld.
    + by rewrite ParseHex_two, Hp by lia.
Qed.

(** C19: the decoders are exact inverses of the encoders.  A string decodes as
    valid base 64 to some bytes exactly when it starts with their encoding and
    no digit follows; the same holds of base 32, up to the case of letters;
    [IsHex] accepts exactly the encodings of one byte or more, up to case, and
    [ParseHex] reads these back. *)
Theorem Encodings_codec :
  (forall p bs, DecodeBase64 p = (bs, false) <->
    bytes_ok bs /\ exists q, p = EncodeBase64 bs ++ q /\ ends decode64 q) /\
  (forall p bs, DecodeBase32 p = (bs, false) <->
    bytes_ok bs /\ exists s q, p = s ++ q /\ map lower_text s = EncodeBase32 bs /\ ends decode32 q) /\
  (forall s, IsHex s = true <-> exists bs, bytes_ok bs /\ bs <> [] /\ map lower_text s = HexStr bs false /\ ParseHex s = bs) /\
  (forall bs, bytes_ok bs -> ParseHex (HexStr bs false) = bs).
Proof.
  split_and!.
  - intros p bs. split; [apply DecodeBase64_valid|]. intros (? & q & -> & ?). by apply DecodeBase64_encode.
  - intros p bs. split; [apply DecodeBase32_valid|]. intros (? & s & q & -> & ? & ?). by apply DecodeBase32_encode.
  - intros s. split.
    + intros H. destruct (IsHex_valid s H) as (bs & Hok & Hl & Hp). exists bs. split_and!; try done.
      intros ->. destruct s; [by vm_compute in H|done].
    + intros (bs & Hok & Hne & Hl & _). assert (IsHex (map lower_text s) = IsHex s) as <-; [|rewrite Hl; by apply IsHex_HexStr].
      unfold IsHex. unfold zlen. rewrite length_map. f_equal. f_equal.
      clear. induction s as [|c s IH]; cbn [map forallb]; [done|]. rewrite IH. f_equal. f_equal. f_equal.
      destruct (decide (0 <= c < 256)) as [Hc|Hc]; [apply Z.eqb_eq; revert c Hc; by apply byte_enum|].
      unfold lower_text. by assert ((65 <=? c) && (c <=? 90) = false) as -> by lia.
  - apply ParseHex_HexStr.
Qed.

Lemma Encodings_codec_witness :
  DecodeBase64 (cstr "aGk=") = ([104; 105], false) /\ DecodeBase32 (cstr "NBUQ====") = ([104; 105], false).
Proof.
  split.
  - refine (proj2 (proj1 Encodings_codec _ _) _). split; [by repeat constructor|]. by exists [].
  - refine (proj2 (proj1 (proj2 Encodings_codec) _ _) _). split; [by repeat constructor|]. by exists (cstr "NBUQ===="), [].
Defined.
