(* ===== verification/NetAddr.v ===== *)
(** * Network addresses

    The classes [CNetAddr], [CService] and [CSubNet] of [netbase.h] and
    [netbase.cpp]: kinds of addresses, routability, groups, reachability, the
    text of Tor and I2P addresses, host names with ports, subnets, the proxy
    settings.  A [CNetAddr] is its array [ip] of 16 bytes.  The resolver of
    the system ([getaddrinfo]) is an argument; sockets are not modelled. *)

From S2P Require Import Prelude Interp Transaction SigHash Base58 Encodings EncodingsProps.

Local Open Scope Z_scope.

(** ** [CNetAddr] *)

Inductive Network : Type := NET_UNROUTABLE | NET_IPV4 | NET_IPV6 | NET_TOR | NET_I2P.

#[export] Instance Network_eq_dec : EqDecision Network.
Proof. solve_decision. Defined.

Definition net_code (n : Network) : Z :=
  match n with NET_UNROUTABLE => 0 | NET_IPV4 => 1 | NET_IPV6 => 2 | NET_TOR => 3 | NET_I2P => 4 end.

(** [boost::to_lower] *)
Definition to_lower (s : list Z) : list Z := map (fun c => if (65 <=? c) && (c <=? 90) then c + 32 else c) s.

Definition ParseNetwork (net : list Z) : Network :=
  let net := to_lower net in
  if bool_decide (net = cstr "ipv4") then NET_IPV4
  else if bool_decide (net = cstr "ipv6") then NET_IPV6
  else if bool_decide (net = cstr "tor") then NET_TOR
  else if bool_decide (net = cstr "i2p") then NET_I2P
  else NET_UNROUTABLE.

Definition CNetAddr := list Z.

Definition CNetAddr_new : CNetAddr := replicate 16 0.

Definition pchIPv4 : list Z := [0; 0; 0; 0; 0; 0; 0; 0; 0; 0; 0xff; 0xff].
Definition pchOnionCat : list Z := [0xFD; 0x87; 0xD8; 0x7E; 0xEB; 0x43].
Definition pchGarliCat : list Z := [0xFD; 0x60; 0xDB; 0x4D; 0xDD; 0xB5].

Definition GetByte (ip : CNetAddr) (n : Z) : Z := nth (Z.to_nat (15 - n)) ip 0.

(** [memcmp(ip, pch, sizeof(pch)) == 0] *)
Definition has_prefix (ip pch : list Z) : bool := bool_decide (take (length pch) ip = pch).

Definition IsIPv4 (ip : CNetAddr) : bool := has_prefix ip pchIPv4.
Definition IsTor (ip : CNetAddr) : bool := has_prefix ip pchOnionCat.
Definition IsI2P (ip : CNetAddr) : bool := has_prefix ip pchGarliCat.
Definition IsIPv6 (ip : CNetAddr) : bool := negb (IsIPv4 ip) && negb (IsTor ip) && negb (IsI2P ip).

Definition IsRFC1918 (ip : CNetAddr) : bool :=
  IsIPv4 ip && ((GetByte ip 3 =? 10) || ((GetByte ip 3 =? 192) && (GetByte ip 2 =? 168)) ||
    ((GetByte ip 3 =? 172) && ((16 <=? GetByte ip 2) && (GetByte ip 2 <=? 31)))).
Definition IsRFC3927 (ip : CNetAddr) : bool := IsIPv4 ip && ((GetByte ip 3 =? 169) && (GetByte ip 2 =? 254)).
Definition IsRFC3849 (ip : CNetAddr) : bool :=
  (GetByte ip 15 =? 0x20) && (GetByte ip 14 =? 0x01) && (GetByte ip 13 =? 0x0D) && (GetByte ip 12 =? 0xB8).
Definition IsRFC3964 (ip : CNetAddr) : bool := (GetByte ip 15 =? 0x20) && (GetByte ip 14 =? 0x02).
Definition pchRFC6052 : list Z := [0; 0x64; 0xFF; 0x9B; 0; 0; 0; 0; 0; 0; 0; 0].
Definition IsRFC6052 (ip : CNetAddr) : bool := has_prefix ip pchRFC6052.
Definition IsRFC4380 (ip : CNetAddr) : bool :=
  (GetByte ip 15 =? 0x20) && (GetByte ip 14 =? 0x01) && (GetByte ip 13 =? 0) && (GetByte ip 12 =? 0).
Definition pchRFC4862 : list Z := [0xFE; 0x80; 0; 0; 0; 0; 0; 0].
Definition IsRFC4862 (ip : CNetAddr) : bool := has_prefix ip pchRFC4862.
Definition IsRFC4193 (ip : CNetAddr) : bool := Z.land (GetByte ip 15) 0xFE =? 0xFC.
Definition pchRFC6145 : list Z := [0; 0; 0; 0; 0; 0; 0; 0; 0xFF; 0xFF; 0; 0].
Definition IsRFC6145 (ip : CNetAddr) : bool := has_prefix ip pchRFC6145.
Definition IsRFC4843 (ip : CNetAddr) : bool :=
  (GetByte ip 15 =? 0x20) && (GetByte ip 14 =? 0x01) && (GetByte ip 13 =? 0x00) && (Z.land (GetByte ip 12) 0xF0 =? 0x10).

Definition pchLocal : list Z := [0; 0; 0; 0; 0; 0; 0; 0; 0; 0; 0; 0; 0; 0; 0; 1].
Definition IsLocal (ip : CNetAddr) : bool :=
  (IsIPv4 ip && ((GetByte ip 3 =? 127) || (GetByte ip 3 =? 0))) || has_prefix ip pchLocal.

Definition IsMulticast (ip : CNetAddr) : bool :=
  (IsIPv4 ip && (Z.land (GetByte ip 3) 0xF0 =? 0xE0)) || (GetByte ip 15 =? 0xFF).

Definition IsValid (ip : CNetAddr) : bool :=
  if has_prefix ip (drop 3 pchIPv4) then false
  else if has_prefix ip (replicate 16 0) then false
  else if IsRFC3849 ip then false
  else if IsIPv4 ip then
    if bool_decide (drop 12 ip = replicate 4 0xff) then false
    else if bool_decide (drop 12 ip = replicate 4 0) then false
    else true
  else true.

Definition IsRoutable (ip : CNetAddr) : bool :=
  IsValid ip && negb (IsRFC1918 ip || IsRFC3927 ip || IsRFC4862 ip ||
    (IsRFC4193 ip && negb (IsTor ip) && negb (IsI2P ip)) || IsRFC4843 ip || IsLocal ip).

Definition GetNetwork (ip : CNetAddr) : Network :=
  if negb (IsRoutable ip) then NET_UNROUTABLE
  else if IsIPv4 ip then NET_IPV4
  else if IsTor ip then NET_TOR
  else if IsI2P ip then NET_I2P
  else NET_IPV6.

(** The last part of [GetGroup]: the high [nBits] bits from [nStartByte] on,
    the rest of the last byte filled with ones. *)
Fixpoint group_bits (fuel : nat) (ip : CNetAddr) (nStartByte nBits : Z) : list Z :=
  match fuel with
  | O => []
  | S fuel =>
    if 8 <=? nBits then GetByte ip (15 - nStartByte) :: group_bits fuel ip (nStartByte + 1) (nBits - 8)
    else if 0 <? nBits then [Z.lor (GetByte ip (15 - nStartByte)) (Z.shiftl 1 nBits - 1)]
    else []
  end.

Definition GetGroup (ip : CNetAddr) : list Z :=
  let '(nClass, nBits) := if IsLocal ip then (255, 0) else (net_code NET_IPV6, 16) in
  let group nClass nStartByte nBits := nClass :: group_bits (S (Z.to_nat (nBits / 8))) ip nStartByte nBits in
  if negb (IsRoutable ip) then group (net_code NET_UNROUTABLE) 0 0
  else if IsIPv4 ip || IsRFC6145 ip || IsRFC6052 ip then group (net_code NET_IPV4) 12 nBits
  else if IsRFC3964 ip then group (net_code NET_IPV4) 2 nBits
  else if IsRFC4380 ip then
    [net_code NET_IPV4; Z.lxor (GetByte ip 3) 0xFF; Z.lxor (GetByte ip 2) 0xFF]
  else if IsTor ip then group (net_code NET_TOR) 6 4
  else if IsI2P ip then group (net_code NET_I2P) 6 4
  else if (GetByte ip 15 =? 0x20) && (GetByte ip 14 =? 0x01) && (GetByte ip 13 =? 0x04) && (GetByte ip 12 =? 0x70)
  then group nClass 0 36
  else group nClass 0 32.

(** [CNetAddr::GetHash] *)
Definition NetAddr_GetHash `{ScriptHashes} (ip : CNetAddr) : Z := le_decode (take 8 (h_hash256 ip)).

(** ** Reachability *)

Inductive Reachability : Type :=
| REACH_UNREACHABLE | REACH_DEFAULT | REACH_TEREDO | REACH_IPV6_WEAK | REACH_IPV4 | REACH_IPV6_STRONG | REACH_PRIVATE.

(** The values of [GetExtNetwork]. *)
Inductive ExtNetwork : Type := EXT (n : Network) | NET_UNKNOWN | NET_TEREDO.

Definition GetExtNetwork (addr : option CNetAddr) : ExtNetwork :=
  match addr with
  | None => NET_UNKNOWN
  | Some ip => if IsRFC4380 ip then NET_TEREDO else EXT (GetNetwork ip)
  end.

Definition GetReachabilityFrom (ip : CNetAddr) (paddrPartner : option CNetAddr) : Reachability :=
  if negb (IsRoutable ip) then REACH_UNREACHABLE
  else
    let ourNet := GetExtNetwork (Some ip) in
    let fTunnel := IsRFC3964 ip || IsRFC6052 ip || IsRFC6145 ip in
    match GetExtNetwork paddrPartner with
    | EXT NET_IPV4 => match ourNet with EXT NET_IPV4 => REACH_IPV4 | _ => REACH_DEFAULT end
    | EXT NET_IPV6 =>
      match ourNet with
      | NET_TEREDO => REACH_TEREDO
      | EXT NET_IPV4 => REACH_IPV4
      | EXT NET_IPV6 => if fTunnel then REACH_IPV6_WEAK else REACH_IPV6_STRONG
      | _ => REACH_DEFAULT
      end
    | EXT NET_TOR =>
      match ourNet with EXT NET_IPV4 => REACH_IPV4 | EXT NET_TOR => REACH_PRIVATE | _ => REACH_DEFAULT end
    | EXT NET_I2P => match ourNet with EXT NET_I2P => REACH_PRIVATE | _ => REACH_DEFAULT end
    | NET_TEREDO =>
      match ourNet with
      | NET_TEREDO => REACH_TEREDO
      | EXT NET_IPV6 => REACH_IPV6_WEAK
      | EXT NET_IPV4 => REACH_IPV4
      | _ => REACH_DEFAULT
      end
    | NET_UNKNOWN | EXT NET_UNROUTABLE =>
      match ourNet with
      | NET_TEREDO => REACH_TEREDO
      | EXT NET_IPV6 => REACH_IPV6_WEAK
      | EXT NET_IPV4 => REACH_IPV4
      | EXT NET_I2P => REACH_PRIVATE
      | EXT NET_TOR => REACH_PRIVATE
      | _ => REACH_DEFAULT
      end
    end.

(** ** Text *)

(** [CNetAddr::SetSpecial]; [None] is false.  The prefix copied for an I2P
    name is the one of Tor. *)
Definition SetSpecial (strName : list Z) : option CNetAddr :=
  let ends_in (suffix : list Z) :=
    (zlen suffix <? zlen strName) && bool_decide (drop (length strName - length suffix) strName = suffix) in
  let special (suffix pch : list Z) :=
    let vchAddr := fst (DecodeBase32 (c_str (take (length strName - length suffix) strName))) in
    if bool_decide (length vchAddr = 10%nat) then Some (pch ++ vchAddr) else None in
  if ends_in (cstr ".onion") then special (cstr ".onion") pchOnionCat
  else if ends_in (cstr ".oc.b32.i2p") then special (cstr ".oc.b32.i2p") pchOnionCat
  else None.

(** [%u] and [%x] of the text forms *)
Fixpoint number_loop (fuel : nat) (base n : Z) (s : list Z) : list Z :=
  match fuel with
  | O => s
  | S fuel =>
    let s := nth (Z.to_nat (n mod base)) hexmap 0 :: s in
    if n / base =? 0 then s else number_loop fuel base (n / base) s
  end.
Definition format_number (base n : Z) : list Z := number_loop 20 base n [].

Fixpoint join (sep : list Z) (ss : list (list Z)) : list Z :=
  match ss with [] => [] | [s] => s | s :: ss => s ++ sep ++ join sep ss end.

(** [CNetAddr::ToStringIP]; [getnameinfo] is the numeric form the system
    gives an IPv4 or IPv6 address, if it does. *)
Definition ToStringIP (getnameinfo : CNetAddr -> option (list Z)) (ip : CNetAddr) : list Z :=
  if IsTor ip then EncodeBase32 (drop 6 ip) ++ cstr ".onion"
  else if IsI2P ip then EncodeBase32 (drop 6 ip) ++ cstr ".oc.b32.i2p"
  else
    match getnameinfo ip with
    | Some name => name
    | None =>
      if IsIPv4 ip then join [46] (map (fun n => format_number 10 (GetByte ip n)) [3; 2; 1; 0])
      else join [58] (map (fun n => format_number 16 (Z.lor (Z.shiftl (GetByte ip n) 8) (GetByte ip (n - 1)))) [15; 13; 11; 9; 7; 5; 3; 1])
    end.

(** [in.find_last_of(c)] *)
Definition find_last_of (s : list Z) (c : Z) : option nat :=
  (fun p => (length s - 1 - fst p)%nat) <$> list_find (fun x => x = c) (rev s).

(** [SplitHostPort(in, portOut, hostOut)]: the port, if it is set, and the
    host.  The number of [strtol] is cut to an int before it is tested. *)
Definition SplitHostPort (s : list Z) (portOut : Z) : Z * list Z :=
  let colon := find_last_of s 58 in
  let '(s, portOut) :=
    match colon with
    | None => (s, portOut)
    | Some colon =>
      let fBracketed := (nth 0 s 0 =? 91) && (nth (colon - 1) s 0 =? 93) in
      let fMultiColon := bool_decide (is_Some (find_last_of (take colon s) 58)) in
      if (Nat.eqb colon 0) || fBracketed || negb fMultiColon then
        let '(n, endp, _) := strtol (c_str (drop (S colon) s)) in
        let n := to_i32 n in
        if bool_decide (endp = []) && (0 <=? n) then
          (take colon s, if (0 <? n) && (n <? 0x10000) then n else portOut)
        else (s, portOut)
      else (s, portOut)
    end in
  (portOut,
   if (0 <? zlen s) && (nth 0 s 0 =? 91) && (List.last s 0 =? 93)
   then take (length s - 2) (drop 1 s) else s).

(** ** Looking up hosts *)

(** What [getaddrinfo] lists: IPv4 and IPv6 addresses in network order, and
    others. *)
Inductive sockaddr : Type := AF_INET (sin_addr : list Z) | AF_INET6 (sin6_addr : list Z) | AF_OTHER.

(** [CNetAddr::SetRaw]; [Crash] is the failed assertion. *)
Definition SetRaw (network : Network) (ip_in : list Z) : outcome unit CNetAddr :=
  match network with
  | NET_IPV4 => mret (pchIPv4 ++ take 4 ip_in)
  | NET_IPV6 => mret (take 16 ip_in)
  | _ => Crash
  end.

(** The addresses of a list of results, at most [nMaxSolutions] unless that
    is zero. *)
Fixpoint take_results (nMaxSolutions : Z) (aiTrav : list sockaddr) (vIP : list CNetAddr) : outcome unit (list CNetAddr) :=
  match aiTrav with
  | [] => mret vIP
  | ai :: aiTrav =>
    if (nMaxSolutions =? 0) || (zlen vIP <? nMaxSolutions) then
      vIP ← match ai with
            | AF_INET sin_addr => ip ← SetRaw NET_IPV4 sin_addr; mret (vIP ++ [ip])
            | AF_INET6 sin6_addr => ip ← SetRaw NET_IPV6 sin6_addr; mret (vIP ++ [ip])
            | AF_OTHER => mret vIP
            end;
      take_results nMaxSolutions aiTrav vIP
    else mret vIP
  end.

Record CService : Type := Service { svc_ip : CNetAddr; port : Z }.

#[export] Instance CService_eq_dec : EqDecision CService.
Proof. solve_decision. Defined.

Definition CService_lt (a b : CService) : bool :=
  bytes_lt (svc_ip a) (svc_ip b) || (bool_decide (svc_ip a = svc_ip b) && (port a <? port b)).

(** [CService::GetKey] *)
Definition GetKey_service (s : CService) : list Z := svc_ip s ++ [port s / 0x100; Z.land (port s) 0x0FF].

(** [CService::ToStringIPPort] *)
Definition ToStringIPPort (getnameinfo : CNetAddr -> option (list Z)) (s : CService) : list Z :=
  let ip := svc_ip s in
  if IsIPv4 ip || IsTor ip || IsI2P ip then ToStringIP getnameinfo ip ++ [58] ++ format_number 10 (port s)
  else [91] ++ ToStringIP getnameinfo ip ++ [93; 58] ++ format_number 10 (port s).

Section lookup.
(** [getaddrinfo(name, fAllowLookup)]; [None] is an error. *)
Context (getaddrinfo : list Z -> bool -> option (list sockaddr)).

(** [LookupIntern]; [Err] is false. *)
Definition LookupIntern (pszName : list Z) (nMaxSolutions : Z) (fAllowLookup : bool) : outcome unit (list CNetAddr) :=
  match SetSpecial pszName with
  | Some addr => mret [addr]
  | None =>
    match getaddrinfo pszName fAllowLookup with
    | None => Err tt
    | Some aiRes =>
      vIP ← take_results nMaxSolutions aiRes [];
      _ ← fail_if (negb (0 <? zlen vIP)) tt;
      mret vIP
    end
  end.

Definition LookupHost (strHost : list Z) (nMaxSolutions : Z) (fAllowLookup : bool) : outcome unit (list CNetAddr) :=
  _ ← fail_if (zlen strHost =? 0) tt;
  let strHost :=
    if (nth 0 strHost 0 =? 91) && (List.last strHost 0 =? 93) then take (length strHost - 2) (drop 1 strHost) else strHost in
  LookupIntern strHost nMaxSolutions fAllowLookup.

(** [Lookup(pszName, vAddr, portDefault, fAllowLookup, nMaxSolutions)] *)
Definition Lookup (pszName : list Z) (portDefault : Z) (fAllowLookup : bool) (nMaxSolutions : Z) : outcome unit (list CService) :=
  _ ← fail_if (zlen pszName =? 0) tt;
  let '(port, hostname) := SplitHostPort pszName portDefault in
  vIP ← LookupIntern (c_str hostname) nMaxSolutions fAllowLookup;
  mret (map (fun ip => Service ip (port mod 0x10000)) vIP).

(** [Lookup(pszName, addr, portDefault, fAllowLookup)] *)
Definition Lookup_one (pszName : list Z) (portDefault : Z) (fAllowLookup : bool) : outcome unit CService :=
  vService ← Lookup pszName portDefault fAllowLookup 1;
  mret (hd (Service CNetAddr_new 0) vService).

(** ** [CSubNet] *)

Record CSubNet : Type := SubNet { network : CNetAddr; netmask : list Z; valid : bool }.

(** Clear the bits [n..127]: [netmask[n>>3] &= ~(1<<(n&7))]. *)
Fixpoint clear_bits (fuel : nat) (n : Z) (netmask : list Z) : list Z :=
  match fuel with
  | O => netmask
  | S fuel =>
    if n <? 128 then
      clear_bits fuel (n + 1) (alter (fun b => Z.land b (255 - Z.shiftl 1 (Z.land n 7))) (Z.to_nat (Z.shiftr n 3)) netmask)
    else netmask
  end.

(** [for (x = 0; x < asize; x++) netmask[15-x] = addr.GetByte(x);] *)
Definition copy_mask (asize : Z) (addr : CNetAddr) (netmask : list Z) : list Z :=
  foldl (fun m x => <[Z.to_nat (15 - x) := GetByte addr x]> m) netmask (seqZ 0 asize).

Definition CSubNet_new (strSubnet : list Z) (fAllowLookup : bool) : outcome unit CSubNet :=
  let slash := find_last_of strSubnet 47 in
  let netmask := replicate 16 255 in
  let strAddress := match slash with Some p => take p strSubnet | None => strSubnet end in
  match LookupHost (c_str strAddress) 1 fAllowLookup with
  | Ok vIP =>
    let network := hd CNetAddr_new vIP in
    match slash with
    | None => mret (SubNet network netmask true)
    | Some p =>
      let strNetmask := drop (S p) strSubnet in
      let noffset := if IsIPv4 network then 12 * 8 else 0 in
      match ParseInt32 strNetmask with
      | Some n =>
        if (0 <=? n) && (n <=? 128 - noffset) then
          mret (SubNet network (clear_bits 128 (n + noffset) netmask) true)
        else mret (SubNet network netmask false)
      | None =>
        match LookupHost (c_str strNetmask) 1 false with
        | Ok vIP =>
          let asize := if IsIPv4 network then 4 else 16 in
          mret (SubNet network (copy_mask asize (hd CNetAddr_new vIP) netmask) true)
        | Err _ => mret (SubNet network netmask false)
        | Throw => Throw
        | Crash => Crash
        end
      end
    end
  | Err _ => mret (SubNet CNetAddr_new netmask false)
  | Throw => Throw
  | Crash => Crash
  end.
End lookup.

(** [CSubNet::Match] *)
Definition Match (s : CSubNet) (addr : CNetAddr) : bool :=
  if negb (valid s) || negb (IsValid addr) then false
  else forallb (fun x => Z.land (GetByte addr x) (nth (Z.to_nat (15 - x)) (netmask s) 0) =? GetByte (network s) x) (seqZ 0 16).

Definition NetmaskBits (x : Z) : Z :=
  match x with
  | 0x00 => 0 | 0x80 => 1 | 0xc0 => 2 | 0xe0 => 3 | 0xf0 => 4 | 0xf8 => 5 | 0xfc => 6 | 0xfe => 7 | 0xff => 8
  | _ => -1
  end.

(** The prefix length [CSubNet::ToString] prints; [None] is [!valid_cidr]. *)
Definition subnet_cidr (s : CSubNet) : option Z :=
  let n := if IsIPv4 (network s) then 12%nat else 0%nat in
  let m := drop n (netmask s) in
  let cidr := 8 * zlen (take_while (fun b => b =? 0xff) m) in
  match drop_while (fun b => b =? 0xff) m with
  | [] => Some cidr
  | b :: m =>
    let bits := NetmaskBits b in
    if bits <? 0 then None
    else if forallb (fun b => b =? 0) m then Some (cidr + bits) else None
  end.

(** ** Proxies *)

(** [proxyInfo] by network and [nameproxyInfo]: the address and the SOCKS
    version, which is 0 where none is set. *)
Record Proxies : Type := ProxyState { proxyInfo : Network -> CService * Z; nameproxyInfo : CService * Z }.

Definition SetProxy (ps : Proxies) (net : Network) (addrProxy : CService) (nSocksVersion : Z) : bool * Proxies :=
  if negb (nSocksVersion =? 0) && negb (nSocksVersion =? 4) && negb (nSocksVersion =? 5) then (false, ps)
  else if negb (nSocksVersion =? 0) && negb (IsValid (svc_ip addrProxy)) then (false, ps)
  else (true, ProxyState (fun n => if decide (n = net) then (addrProxy, nSocksVersion) else proxyInfo ps n) (nameproxyInfo ps)).

Definition GetProxy (ps : Proxies) (net : Network) : option (CService * Z) :=
  if snd (proxyInfo ps net) =? 0 then None else Some (proxyInfo ps net).

Definition SetNameProxy (ps : Proxies) (addrProxy : CService) (nSocksVersion : Z) : bool * Proxies :=
  if negb (nSocksVersion =? 0) && negb (nSocksVersion =? 5) then (false, ps)
  else if negb (nSocksVersion =? 0) && negb (IsValid (svc_ip addrProxy)) then (false, ps)
  else (true, ProxyState (proxyInfo ps) (addrProxy, nSocksVersion)).

Definition HaveNameProxy (ps : Proxies) : bool := negb (snd (nameproxyInfo ps) =? 0).

Definition IsProxy (ps : Proxies) (addr : CNetAddr) : bool :=
  existsb (fun net => negb (snd (proxyInfo ps net) =? 0) && bool_decide (addr = svc_ip (fst (proxyInfo ps net))))
    [NET_UNROUTABLE; NET_IPV4; NET_IPV6; NET_TOR; NET_I2P].

(** * Properties of network addresses

    The text of Tor and I2P addresses and what reading it back gives; which
    addresses a subnet written with a prefix length matches. *)

Definition netaddr_ok (ip : CNetAddr) : Prop := length ip = 16%nat /\ bytes_ok ip.

(** ** Text *)

Lemma has_prefix_spec ip pch : has_prefix ip pch = true <-> exists rest, ip = pch ++ rest.
Proof.
  unfold has_prefix. rewrite bool_decide_eq_true. split.
  - intros H. exists (drop (length pch) ip). by rewrite <-H at 1; rewrite take_drop.
  - intros [rest ->]. by rewrite take_app_length.
Qed.

Lemma digit32_char d : 0 <= d < 32 -> lower_text (digit32 d) = digit32 d /\ digit32 d <> 0.
Proof.
  intros Hd. assert (forallb (fun d => (lower_text (digit32 d) =? digit32 d) && negb (digit32 d =? 0)) (seqZ 0 32) = true) as H by reflexivity.
  rewrite forallb_forall in H. specialize (H d). rewrite andb_true_iff, negb_true_iff, Z.eqb_eq, Z.eqb_neq in H.
  apply H, list_elem_of_In, elem_of_seqZ. lia.
Qed.

(** Ten bytes are sixteen lower-case digits. *)
Lemma EncodeBase32_ten bs : bytes_ok bs -> length bs = 10%nat ->
  length (EncodeBase32 bs) = 16%nat /\ map lower_text (EncodeBase32 bs) = EncodeBase32 bs /\ c_str (EncodeBase32 bs) = EncodeBase32 bs.
Proof.
  intros Hb Hl. rewrite <-(take_drop 5 bs), <-(app_nil_r (drop 5 bs)).
  rewrite !EncodeBase32_group by (first [by apply Forall_take|by apply Forall_drop|rewrite ?length_take, ?length_drop; lia]).
  destruct (ungroup32_ok (take 5 bs)) as (H1 & L1 & _); [by apply Forall_take|rewrite length_take; lia|].
  destruct (ungroup32_ok (drop 5 bs)) as (H2 & L2 & _); [by apply Forall_drop|rewrite length_drop; lia|].
  change (EncodeBase32 []) with (@nil Z). rewrite app_nil_r, <-map_app.
  assert (Forall (fun d => 0 <= d < 32) (ungroup32 (take 5 bs) ++ ungroup32 (drop 5 bs))) as H by by apply Forall_app.
  split_and!; [rewrite length_map, length_app; lia| |].
  - induction H as [|d ds Hd _ IH]; cbn [map]; [done|]. by rewrite IH, (proj1 (digit32_char d Hd)).
  - unfold c_str. induction H as [|d ds Hd _ IH]; cbn [map take_while]; [done|].
    destruct (digit32_char d Hd) as [_ Hz]. apply Z.eqb_neq in Hz. by rewrite Hz, IH.
Qed.

Lemma ends_in_app (s suffix suffix' : list Z) :
  (length suffix <= length suffix')%nat -> (0 < length s)%nat ->
  (zlen suffix <? zlen (s ++ suffix')) && bool_decide (drop (length (s ++ suffix') - length suffix) (s ++ suffix') = suffix) =
  bool_decide (drop (length suffix' - length suffix) suffix' = suffix).
Proof.
  intros Hl Hs. assert ((zlen suffix <? zlen (s ++ suffix')) = true) as ->.
  { rewrite zlen_app. unfold zlen. lia. }
  rewrite andb_true_l, length_app, drop_app_ge by lia.
  by replace (length s + length suffix' - length suffix - length s)%nat with (length suffix' - length suffix)%nat by lia.
Qed.

Lemma SetSpecial_encoded bs suffix : bytes_ok bs -> length bs = 10%nat ->
  suffix = cstr ".onion" \/ suffix = cstr ".oc.b32.i2p" ->
  SetSpecial (EncodeBase32 bs ++ suffix) = Some (pchOnionCat ++ bs).
Proof.
  intros Hb Hl Hsuf. destruct (EncodeBase32_ten bs Hb Hl) as (Hlen & Hlow & Hcs).
  assert (fst (DecodeBase32 (c_str (take (length (EncodeBase32 bs ++ suffix) - length suffix) (EncodeBase32 bs ++ suffix)))) = bs) as Hdec.
  { rewrite length_app, Nat.add_sub, take_app_length, Hcs, <-(app_nil_r (EncodeBase32 bs)).
    by rewrite (DecodeBase32_encode bs). }
  unfold SetSpecial. cbv zeta. destruct Hsuf as [-> | ->]; rewrite !ends_in_app by (cbn; lia).
  - rewrite (bool_decide_true (drop _ _ = cstr ".onion")) by (vm_compute; done).
    rewrite Hdec, bool_decide_true by done. done.
  - rewrite (bool_decide_false (drop _ _ = cstr ".onion")) by (vm_compute; done).
    rewrite (bool_decide_true (drop _ _ = cstr ".oc.b32.i2p")) by (vm_compute; done).
    rewrite Hdec, bool_decide_true by done. done.
Qed.

(** The text of a Tor address is read back as this address.  The text of an
    I2P address is not: [SetSpecial] copies the prefix of Tor, so it is read
    back as the Tor address with the same last ten bytes. *)
Theorem SetSpecial_text getnameinfo ip (Hip : netaddr_ok ip) :
  (IsTor ip = true -> SetSpecial (ToStringIP getnameinfo ip) = Some ip) /\
  (IsI2P ip = true -> exists ip', SetSpecial (ToStringIP getnameinfo ip) = Some ip' /\
    IsI2P ip' = false /\ IsTor ip' = true /\ drop 6 ip' = drop 6 ip).
Proof.
  destruct Hip as [Hl Hb]. assert (length (drop 6 ip) = 10%nat) as Hd by (rewrite length_drop; lia).
  assert (bytes_ok (drop 6 ip)) as Hbd by by apply Forall_drop.
  split; intros H; unfold ToStringIP.
  - rewrite H, SetSpecial_encoded by auto. apply has_prefix_spec in H as [rest ->]. done.
  - assert (IsTor ip = false) as ->.
    { apply has_prefix_spec in H as [rest ->]. unfold IsTor, has_prefix. by rewrite bool_decide_false. }
    rewrite H, SetSpecial_encoded by auto. exists (pchOnionCat ++ drop 6 ip). split_and!; [done|..].
    + unfold IsI2P, has_prefix. by rewrite bool_decide_false.
    + apply has_prefix_spec. eauto.
    + done.
Qed.

Lemma SetSpecial_text_witness :
  let tor := pchOnionCat ++ seqZ 1 10 in
  SetSpecial (ToStringIP (fun _ => None) tor) = Some tor.
Proof.
  refine (proj1 (SetSpecial_text (fun _ => None) (pchOnionCat ++ seqZ 1 10) _) _); [|done].
  split; [done|]. apply (bool_decide_unpack _). by vm_compute.
Defined.

(** ** Subnets *)

(** The bits the mask of [N] bits keeps of byte [j]: the low ones. *)
Definition kept (N j : Z) : Z := Z.max 0 (Z.min 8 (N - 8 * j)).

Lemma clear_bits_mask N : 0 <= N <= 128 ->
  clear_bits 128 N (replicate 16 255) = map (fun j => Z.ones (kept N j)) (seqZ 0 16).
Proof.
  intros HN.
  assert (forallb (fun N => bool_decide (clear_bits 128 N (replicate 16 255) = map (fun j => Z.ones (kept N j)) (seqZ 0 16)))
    (seqZ 0 129) = true) as H by by vm_compute.
  rewrite forallb_forall in H. apply (bool_decide_eq_true_1 _), H, list_elem_of_In, elem_of_seqZ. lia.
Qed.

Definition subnet (ip : CNetAddr) (N : Z) : CSubNet := SubNet ip (clear_bits 128 N (replicate 16 255)) true.

Lemma Match_bits ip N a : 0 <= N <= 128 ->
  Match (subnet ip N) a = true <->
  IsValid a = true /\ forall j, 0 <= j < 16 -> nth (Z.to_nat j) a 0 mod 2 ^ kept N j = nth (Z.to_nat j) ip 0.
Proof.
  intros HN. unfold Match, subnet. cbn [valid netmask network negb orb]. rewrite clear_bits_mask by done.
  destruct (IsValid a); cbn [negb]; [|by split; [|intros [? _]]].
  rewrite forallb_forall.
  assert (forall j, 0 <= j < 16 -> nth (Z.to_nat j) (map (fun j => Z.ones (kept N j)) (seqZ 0 16)) 0 = Z.ones (kept N j)) as Hm.
  { intros j Hj. rewrite (nth_indep _ 0 (Z.ones (kept N 0))) by (rewrite length_map, length_seqZ; lia).
    rewrite (map_nth (fun j => Z.ones (kept N j))). f_equal. f_equal. rewrite <-(Z2Nat.id j) at 2 by lia.
    rewrite (nth_lookup_Some _ _ _ j); [lia|]. rewrite lookup_seqZ. lia. }
  split.
  - intros H. split; [done|]. intros j Hj. specialize (H (15 - j)). rewrite Z.eqb_eq in H. unfold GetByte in H.
    replace (15 - (15 - j)) with j in H by lia. rewrite Hm, Z.land_ones in H by (unfold kept; lia).
    apply H, list_elem_of_In, elem_of_seqZ. lia.
  - intros [_ H] x Hx. apply list_elem_of_In, elem_of_seqZ in Hx. rewrite Z.eqb_eq. unfold GetByte.
    rewrite Hm, Z.land_ones by (unfold kept; lia). apply H. lia.
Qed.

(** Whole bytes: the prefixes agree and the rest of the network is zero. *)
Lemma Match_bytes ip N a : 0 <= N <= 128 -> N mod 8 = 0 -> netaddr_ok ip -> netaddr_ok a ->
  let n := Z.to_nat (N / 8) in
  Match (subnet ip N) a = true <-> IsValid a = true /\ ip = take n a ++ replicate (16 - n) 0.
Proof.
  intros HN Hm [Hli Hbi] [Hla Hba] n. rewrite Match_bits by done.
  assert (N = 8 * Z.of_nat n) as EN by (subst n; rewrite Z2Nat.id by div_lia; div_lia).
  apply and_iff_compat_l. split.
  - intros H. apply list_eq. intros i. destruct (decide (i < 16)%nat) as [Hi|Hi].
    2: { rewrite !lookup_ge_None_2; [done|rewrite length_app, length_take, length_replicate; lia|lia]. }
    specialize (H (Z.of_nat i) ltac:(lia)). rewrite Nat2Z.id in H.
    destruct (lookup_lt_is_Some_2 ip i) as [x Hx]; [lia|]. destruct (lookup_lt_is_Some_2 a i) as [y Hy]; [lia|].
    rewrite (nth_lookup_Some _ _ _ _ Hx), (nth_lookup_Some _ _ _ _ Hy) in H. rewrite Hx, <-H.
    destruct (decide (i < n)%nat).
    + rewrite lookup_app_l, lookup_take, decide_True, Hy by (rewrite ?length_take; lia). f_equal.
      rewrite EN. unfold kept. replace (Z.max 0 _) with 8 by lia. apply Z.mod_small.
      rewrite Forall_lookup in Hba. apply (Hba i y Hy).
    + rewrite lookup_app_r, length_take by (rewrite length_take; lia).
      rewrite lookup_replicate_2 by lia. f_equal. rewrite EN. unfold kept. replace (Z.max 0 _) with 0 by lia. apply Z.mod_1_r.
  - intros -> j Hj. destruct (lookup_lt_is_Some_2 a (Z.to_nat j)) as [y Hy]; [lia|].
    rewrite (nth_lookup_Some _ _ _ _ Hy). destruct (decide (j < Z.of_nat n)).
    + erewrite nth_lookup_Some; [|rewrite lookup_app_l, lookup_take, decide_True by (rewrite ?length_take; lia); exact Hy].
      rewrite EN. unfold kept. replace (Z.max 0 _) with 8 by lia. apply Z.mod_small.
      rewrite Forall_lookup in Hba. apply (Hba _ y Hy).
    + erewrite nth_lookup_Some; [|rewrite lookup_app_r, length_take by (rewrite length_take; lia); apply lookup_replicate_2; lia].
      rewrite EN. unfold kept. replace (Z.max 0 _) with 0 by lia. apply Z.mod_1_r.
Qed.

Lemma list_find_app_r {A} (P : A -> Prop) `{forall x, Decision (P x)} l k i x :
  Forall (fun y => ~ P y) l -> list_find P k = Some (i, x) -> list_find P (l ++ k) = Some ((length l + i)%nat, x).
Proof.
  intros Hl Hk. induction Hl as [|y l Hy _ IH]; cbn; [done|]. by rewrite decide_False, IH.
Qed.

Lemma find_last_of_app s t c : Forall (fun y => y <> c) t -> find_last_of (s ++ c :: t) c = Some (length s).
Proof.
  intros Ht. unfold find_last_of. rewrite rev_app_distr. cbn [rev]. rewrite <-app_assoc.
  rewrite (list_find_app_r _ (rev t) _ 0 c); [|by apply Forall_rev|cbn; by rewrite decide_True].
  cbn. f_equal. rewrite length_app, length_rev. cbn. lia.
Qed.

Lemma CSubNet_new_prefix gai strAddress strMask look ip n :
  LookupHost gai (c_str strAddress) 1 look = Ok [ip] -> Forall (fun c => c <> 47) strMask ->
  let N := n + (if IsIPv4 ip then 96 else 0) in
  ParseInt32 strMask = Some n -> 0 <= n -> N <= 128 ->
  CSubNet_new gai (strAddress ++ 47 :: strMask) look = Ok (subnet ip N).
Proof.
  intros Hip Hno N Hn H0 HN. unfold CSubNet_new. rewrite find_last_of_app by done.
  rewrite take_app_length, Hip. cbn [hd]. replace (drop (S (length strAddress)) (strAddress ++ 47 :: strMask)) with strMask.
  2: { rewrite (cons_middle 47), app_assoc, drop_app_length'; [done|]. rewrite length_app. cbn. lia. }
  rewrite Hn. change (12 * 8) with 96. destruct (IsIPv4 ip); subst N.
  - assert ((0 <=? n) && (n <=? 128 - 96) = true) as -> by lia. done.
  - assert ((0 <=? n) && (n <=? 128 - 0) = true) as -> by lia. done.
Qed.

(** A subnet written as an address and a number of bits matches an address
    exactly when, in every byte, the bits the mask keeps are those of the
    network and the network has no others.  For whole bytes these are the
    first bytes, as in CIDR notation.  In a byte that is cut the mask keeps the
    low bits where CIDR means the high ones: the subnet 10.16.0.0/12 matches
    nothing in 10.16.0.0 to 10.31.255.255, not even its own address. *)
Theorem CSubNet_bits gai strAddress strMask look ip n a
    (Hip : LookupHost gai (c_str strAddress) 1 look = Ok [ip]) (Hno : Forall (fun c => c <> 47) strMask)
    (Hn : ParseInt32 strMask = Some n) (Hok : netaddr_ok ip) (Ha : netaddr_ok a) :
  let N := n + (if IsIPv4 ip then 96 else 0) in
  (0 <= n -> N <= 128 -> exists s, CSubNet_new gai (strAddress ++ 47 :: strMask) look = Ok s /\
    (Match s a = true <-> IsValid a = true /\
      forall j, 0 <= j < 16 -> nth (Z.to_nat j) a 0 mod 2 ^ kept N j = nth (Z.to_nat j) ip 0) /\
    (N mod 8 = 0 -> Match s a = true <->
      let k := Z.to_nat (N / 8) in IsValid a = true /\ ip = take k a ++ replicate (16 - k) 0)) /\
  (forall x y z, 16 <= x < 32 -> Match (subnet (pchIPv4 ++ [10; 16; 0; 0]) 108) (pchIPv4 ++ [10; x; y; z]) = false).
Proof.
  intros N. split.
  - intros H0 HN. exists (subnet ip N). assert (0 <= N) by (subst N; destruct (IsIPv4 ip); lia).
    split_and!; [by apply CSubNet_new_prefix|by apply Match_bits|]. intros Hm. by apply Match_bytes.
  - intros x y z Hx. apply not_true_iff_false. rewrite Match_bits by lia. intros [_ H].
    specialize (H 13 ltac:(lia)). change (x mod 16 = 16) in H. div_lia.
Qed.

Lemma CSubNet_bits_witness :
  let gai := fun s (_ : bool) => if bool_decide (s = cstr "1.2.3.0") then Some [AF_INET [1; 2; 3; 0]] else None in
  exists s, CSubNet_new gai (cstr "1.2.3.0" ++ 47 :: cstr "24") false = Ok s /\
    (Match s (pchIPv4 ++ [1; 2; 3; 77]) = true).
Proof.
  intros gai.
  destruct (CSubNet_bits gai (cstr "1.2.3.0") (cstr "24") false (pchIPv4 ++ [1; 2; 3; 0]) 24 (pchIPv4 ++ [1; 2; 3; 77]))
    as [H _]; [by vm_compute|decide_now|by vm_compute|split; [done|decide_now]|split; [done|decide_now]|].
  destruct H as (s & Hs & _ & Hm); [vm_compute; discriminate|vm_compute; discriminate|].
  exists s. split; [exact Hs|]. apply Hm; [by vm_compute|]. split; by vm_compute.
Defined.
