(* ===== verification/AddrMan.v ===== *)
(** * The address manager

    [addrman.h] and [addrman.cpp]: the table of known peer addresses with its
    "new" buckets (sets of ids) and "tried" buckets (vectors of ids), the
    indexes over them, and the operations that move entries between them.
    Calls of [GetRandInt] in an operation are numbered: [rnd k n] is the
    result of call [k] with argument [n].  The adjusted time is an argument.
    [mapInfo[id]] of an id without entry, which would add an entry, is
    [Crash]. *)

From stdpp Require Import sorting.
From S2P Require Import Prelude Interp Serialize Transaction SigHash NetAddr.

Local Open Scope Z_scope.

(** ** Entries *)

(** [CAddress] of [protocol.h] *)
Record CAddress : Type := Addr {
  addr_service : CService;
  a_nServices : Z;
  a_nTime : Z;
  a_nLastTry : Z
}.

Definition addr_ip (a : CAddress) : CNetAddr := svc_ip (addr_service a).

(** [CAddress(ipIn, nServicesIn)] *)
Definition CAddress_new (ip : CService) (nServices : Z) : CAddress := Addr ip nServices 100000000 0.

Record CAddrInfo : Type := AddrInfo {
  info_addr : CAddress;
  info_source : CNetAddr;
  nLastSuccess : Z;
  nAttempts : Z;
  nRefCount : Z;
  fInTried : bool;
  nRandomPos : Z
}.

(** [CAddrInfo(addrIn, addrSource)], with [Init] *)
Definition CAddrInfo_new (addr : CAddress) (source : CNetAddr) : CAddrInfo :=
  AddrInfo (Addr (addr_service addr) (a_nServices addr) (a_nTime addr) 0) source 0 0 0 false (-1).

Definition info_ip (i : CAddrInfo) : CNetAddr := addr_ip (info_addr i).
Definition info_service (i : CAddrInfo) : CService := addr_service (info_addr i).
Definition info_nTime (i : CAddrInfo) : Z := a_nTime (info_addr i).
Definition info_nLastTry (i : CAddrInfo) : Z := a_nLastTry (info_addr i).

Definition set_addr (a : CAddress) (i : CAddrInfo) : CAddrInfo :=
  AddrInfo a (info_source i) (nLastSuccess i) (nAttempts i) (nRefCount i) (fInTried i) (nRandomPos i).
Definition set_nRefCount (n : Z) (i : CAddrInfo) : CAddrInfo :=
  AddrInfo (info_addr i) (info_source i) (nLastSuccess i) (nAttempts i) n (fInTried i) (nRandomPos i).
Definition set_fInTried (b : bool) (i : CAddrInfo) : CAddrInfo :=
  AddrInfo (info_addr i) (info_source i) (nLastSuccess i) (nAttempts i) (nRefCount i) b (nRandomPos i).
Definition set_nRandomPos (n : Z) (i : CAddrInfo) : CAddrInfo :=
  AddrInfo (info_addr i) (info_source i) (nLastSuccess i) (nAttempts i) (nRefCount i) (fInTried i) n.
Definition with_nTime (t : Z) (a : CAddress) : CAddress := Addr (addr_service a) (a_nServices a) (to_u32 t) (a_nLastTry a).

Definition ADDRMAN_TRIED_BUCKET_COUNT : Z := 256.
Definition ADDRMAN_TRIED_BUCKET_SIZE : Z := 64.
Definition ADDRMAN_NEW_BUCKET_COUNT : Z := 256.
Definition ADDRMAN_NEW_BUCKET_SIZE : Z := 64.
Definition ADDRMAN_TRIED_BUCKETS_PER_GROUP : Z := 8.
Definition ADDRMAN_NEW_BUCKETS_PER_SOURCE_GROUP : Z := 64.
Definition ADDRMAN_NEW_BUCKETS_PER_ADDRESS : Z := 8.
Definition ADDRMAN_TRIED_ENTRIES_INSPECT_ON_EVICT : Z := 4.
Definition ADDRMAN_HORIZON_DAYS : Z := 30.
Definition ADDRMAN_RETRIES : Z := 3.
Definition ADDRMAN_MAX_FAILURES : Z := 10.
Definition ADDRMAN_MIN_FAIL_DAYS : Z := 7.
Definition ADDRMAN_GETADDR_MAX_PCT : Z := 23.
Definition ADDRMAN_GETADDR_MAX : Z := 2500.

Section buckets.
Context {SH : ScriptHashes}.

(** [Hash(ss.begin(), ss.end()).Get64()] *)
Definition hash64 (ss : list Z) : Z := le_decode (take 8 (h_hash256 ss)).

Definition GetTriedBucket (nKey : list Z) (i : CAddrInfo) : Z :=
  let hash1 := hash64 (ser (Serialize := fmt_bytes) nKey ++ ser (Serialize := fmt_bytes) (GetKey_service (info_service i))) in
  let hash2 := hash64 (ser (Serialize := fmt_bytes) nKey ++ ser (Serialize := fmt_bytes) (GetGroup (info_ip i)) ++
    le_encode 8 (hash1 mod ADDRMAN_TRIED_BUCKETS_PER_GROUP)) in
  hash2 mod ADDRMAN_TRIED_BUCKET_COUNT.

Definition GetNewBucket (nKey : list Z) (src : CNetAddr) (i : CAddrInfo) : Z :=
  let vchGroupKey := GetGroup (info_ip i) in
  let vchSourceGroupKey := GetGroup src in
  let hash1 := hash64 (ser (Serialize := fmt_bytes) nKey ++ ser (Serialize := fmt_bytes) vchGroupKey ++
    ser (Serialize := fmt_bytes) vchSourceGroupKey) in
  let hash2 := hash64 (ser (Serialize := fmt_bytes) nKey ++ ser (Serialize := fmt_bytes) vchSourceGroupKey ++
    le_encode 8 (hash1 mod ADDRMAN_NEW_BUCKETS_PER_SOURCE_GROUP)) in
  hash2 mod ADDRMAN_NEW_BUCKET_COUNT.
End buckets.

Definition IsTerrible (nNow : Z) (i : CAddrInfo) : bool :=
  if negb (info_nLastTry i =? 0) && (nNow - 60 <=? info_nLastTry i) then false
  else if nNow + 10 * 60 <? info_nTime i then true
  else if (info_nTime i =? 0) || (ADDRMAN_HORIZON_DAYS * 86400 <? nNow - info_nTime i) then true
  else if (nLastSuccess i =? 0) && (ADDRMAN_RETRIES <=? nAttempts i) then true
  else if (ADDRMAN_MIN_FAIL_DAYS * 86400 <? nNow - nLastSuccess i) && (ADDRMAN_MAX_FAILURES <=? nAttempts i) then true
  else false.

(** ** The tables *)

Record CAddrMan : Type := AddrMan {
  nKey : list Z;
  nIdCount : Z;
  mapInfo : gmap Z CAddrInfo;
  mapAddr : gmap CNetAddr Z;
  vRandom : list Z;
  nTried : Z;
  vvTried : list (list Z);
  nNew : Z;
  vvNew : list (gset Z)
}.

(** [CAddrMan()] with the random key. *)
Definition CAddrMan_new (key : list Z) : CAddrMan :=
  AddrMan key 0 ∅ ∅ [] 0 (replicate 256 []) 0 (replicate 256 ∅).

Definition set_mapInfo (m : gmap Z CAddrInfo) (am : CAddrMan) : CAddrMan :=
  AddrMan (nKey am) (nIdCount am) m (mapAddr am) (vRandom am) (nTried am) (vvTried am) (nNew am) (vvNew am).
Definition set_vRandom (v : list Z) (am : CAddrMan) : CAddrMan :=
  AddrMan (nKey am) (nIdCount am) (mapInfo am) (mapAddr am) v (nTried am) (vvTried am) (nNew am) (vvNew am).
Definition set_tried (n : Z) (v : list (list Z)) (am : CAddrMan) : CAddrMan :=
  AddrMan (nKey am) (nIdCount am) (mapInfo am) (mapAddr am) (vRandom am) n v (nNew am) (vvNew am).
Definition set_new (n : Z) (v : list (gset Z)) (am : CAddrMan) : CAddrMan :=
  AddrMan (nKey am) (nIdCount am) (mapInfo am) (mapAddr am) (vRandom am) (nTried am) (vvTried am) n v.

(** Change the entry of an id in place. *)
Definition update_info (id : Z) (f : CAddrInfo -> CAddrInfo) (am : CAddrMan) : CAddrMan :=
  set_mapInfo (alter f id (mapInfo am)) am.

(** The elements of a [std::set<int>] in the order of its iterator. *)
Definition set_order (s : gset Z) : list Z := merge_sort Z.le (elements s).

(** [vvNew[b]] and [vvTried[b]] *)
Definition new_bucket (am : CAddrMan) (b : Z) : gset Z := nth (Z.to_nat b) (vvNew am) ∅.
Definition tried_bucket (am : CAddrMan) (b : Z) : list Z := nth (Z.to_nat b) (vvTried am) [].

Definition erase_from_new (b id : Z) (am : CAddrMan) : CAddrMan :=
  set_new (nNew am) (alter (fun s => s ∖ {[id]}) (Z.to_nat b) (vvNew am)) am.
Definition insert_to_new (b id : Z) (am : CAddrMan) : CAddrMan :=
  set_new (nNew am) (alter (fun s => {[id]} ∪ s) (Z.to_nat b) (vvNew am)) am.

(** [Find(addr, pnId)]: the id and the entry. *)
Definition Find (am : CAddrMan) (addr : CNetAddr) : option (Z * CAddrInfo) :=
  match mapAddr am !! addr with
  | None => None
  | Some id => (fun info => (id, info)) <$> mapInfo am !! id
  end.

(** [Create(addr, addrSource, pnId)] *)
Definition Create (am : CAddrMan) (addr : CAddress) (addrSource : CNetAddr) : Z * CAddrMan :=
  let nId := nIdCount am in
  (nId,
   AddrMan (nKey am) (to_i32 (nIdCount am + 1))
     (<[nId := set_nRandomPos (zlen (vRandom am)) (CAddrInfo_new addr addrSource)]> (mapInfo am))
     (<[addr_ip addr := nId]> (mapAddr am)) (vRandom am ++ [nId]) (nTried am) (vvTried am) (nNew am) (vvNew am)).

Definition SwapRandom (nRndPos1 nRndPos2 : Z) (am : CAddrMan) : outcome unit CAddrMan :=
  if nRndPos1 =? nRndPos2 then mret am
  else
    match (if 0 <=? nRndPos1 then vRandom am !! Z.to_nat nRndPos1 else None),
          (if 0 <=? nRndPos2 then vRandom am !! Z.to_nat nRndPos2 else None) with
    | Some nId1, Some nId2 =>
      _ ← assert_that (bool_decide (is_Some (mapInfo am !! nId1)));
      _ ← assert_that (bool_decide (is_Some (mapInfo am !! nId2)));
      let am := update_info nId1 (set_nRandomPos nRndPos2) am in
      let am := update_info nId2 (set_nRandomPos nRndPos1) am in
      mret (set_vRandom (<[Z.to_nat nRndPos2 := nId1]> (<[Z.to_nat nRndPos1 := nId2]> (vRandom am))) am)
    | _, _ => Crash
    end.

(** [if (--info.nRefCount == 0) { ... }] of [ShrinkNew]: the entry is deleted
    with its last reference. *)
Definition release (id : Z) (am : CAddrMan) : outcome unit CAddrMan :=
  match mapInfo am !! id with
  | None => Crash
  | Some info =>
    let n := nRefCount info - 1 in
    let am := update_info id (set_nRefCount n) am in
    if n =? 0 then
      am ← SwapRandom (nRandomPos info) (zlen (vRandom am) - 1) am;
      _ ← assert_that (0 <? zlen (vRandom am));
      mret (AddrMan (nKey am) (nIdCount am) (delete id (mapInfo am)) (delete (info_ip info) (mapAddr am))
        (removelast (vRandom am)) (nTried am) (vvTried am) (nNew am - 1) (vvNew am))
    else mret am
  end.

(** The first loop of [ShrinkNew]: an entry that can be deleted. *)
Fixpoint find_terrible (nNow : Z) (m : gmap Z CAddrInfo) (ids : list Z) : outcome unit (option Z) :=
  match ids with
  | [] => mret None
  | id :: ids =>
    match m !! id with
    | None => Crash
    | Some info => if IsTerrible nNow info then mret (Some id) else find_terrible nNow m ids
    end
  end.

(** The second loop: the oldest of the entries at the positions [n]. *)
Fixpoint find_oldest (m : gmap Z CAddrInfo) (n : list Z) (ids : list Z) (nI nOldest : Z) : outcome unit Z :=
  match ids with
  | [] => mret nOldest
  | id :: ids =>
    if bool_decide (nI ∈ n) then
      if nOldest =? -1 then find_oldest m n ids (nI + 1) id
      else
        match m !! id, m !! nOldest with
        | Some info, Some old =>
          find_oldest m n ids (nI + 1) (if info_nTime info <? info_nTime old then id else nOldest)
        | _, _ => Crash
        end
    else find_oldest m n ids (nI + 1) nOldest
  end.

Definition ShrinkNew (rnd : nat -> Z -> Z) (nNow : Z) (nUBucket : Z) (am : CAddrMan) : outcome unit CAddrMan :=
  _ ← assert_that ((0 <=? nUBucket) && (nUBucket <? zlen (vvNew am)));
  let vNew := new_bucket am nUBucket in
  let size := Z.of_nat (base.size vNew) in
  terrible ← find_terrible nNow (mapInfo am) (set_order vNew);
  match terrible with
  | Some id =>
    am ← release id am;
    mret (erase_from_new nUBucket id am)
  | None =>
    let n := [rnd 0%nat size; rnd 1%nat size; rnd 2%nat size; rnd 3%nat size] in
    nOldest ← find_oldest (mapInfo am) n (set_order vNew) 0 (-1);
    am ← release nOldest am;
    mret (erase_from_new nUBucket nOldest am)
  end.

(** [SelectTried(nKBucket)]: the shuffled bucket and the position.  The
    element [nTemp] stands at position [i] after the exchange, while the
    position that is kept is the one it came from. *)
Fixpoint select_loop (fuel : nat) (rnd : nat -> Z -> Z) (m : gmap Z CAddrInfo) (i : nat) (vTried : list Z)
    (nOldest nOldestPos : Z) : outcome unit (list Z * Z) :=
  match fuel with
  | O => mret (vTried, nOldestPos)
  | S fuel =>
    if (i <? length vTried)%nat then
      let nPos := (Z.to_nat (rnd i (zlen vTried - Z.of_nat i)%Z) + i)%nat in
      match vTried !! nPos, vTried !! i with
      | Some nTemp, Some vi =>
        let vTried := <[i := nTemp]> (<[nPos := vi]> vTried) in
        if nOldest =? -1 then select_loop fuel rnd m (S i) vTried nTemp (Z.of_nat nPos)
        else
          match m !! nTemp, m !! nOldest with
          | Some info, Some old =>
            if nLastSuccess info <? nLastSuccess old then select_loop fuel rnd m (S i) vTried nTemp (Z.of_nat nPos)
            else select_loop fuel rnd m (S i) vTried nOldest nOldestPos
          | _, _ => Crash
          end
      | _, _ => Crash
      end
    else mret (vTried, nOldestPos)
  end.

Definition SelectTried (rnd : nat -> Z -> Z) (nKBucket : Z) (am : CAddrMan) : outcome unit (Z * CAddrMan) :=
  '(vTried, nOldestPos) ←
    select_loop (Z.to_nat ADDRMAN_TRIED_ENTRIES_INSPECT_ON_EVICT) rnd (mapInfo am) 0 (tried_bucket am nKBucket) (-1) (-1);
  mret (nOldestPos, set_tried (nTried am) (<[Z.to_nat nKBucket := vTried]> (vvTried am)) am).

(** The first loop of [MakeTried]: the id is erased from every bucket. *)
Definition erase_everywhere (id : Z) (am : CAddrMan) : CAddrMan :=
  let n := Z.of_nat (length (filter (fun s => id ∈ s) (vvNew am))) in
  let am := update_info id (fun i => set_nRefCount (nRefCount i - n) i) am in
  set_new (nNew am) (map (fun s => s ∖ {[id]}) (vvNew am)) am.

Section tables.
Context {SH : ScriptHashes}.

(** [MakeTried(info, nId, nOrigin)] *)
Definition MakeTried (rnd : nat -> Z -> Z) (nId nOrigin : Z) (am : CAddrMan) : outcome unit CAddrMan :=
  _ ← assert_that (bool_decide (nId ∈ new_bucket am nOrigin));
  let am := erase_everywhere nId am in
  let am := set_new (nNew am - 1) (vvNew am) am in
  match mapInfo am !! nId with
  | None => Crash
  | Some info =>
    _ ← assert_that (nRefCount info =? 0);
    let nKBucket := GetTriedBucket (nKey am) info in
    let vTried := tried_bucket am nKBucket in
    if zlen vTried <? ADDRMAN_TRIED_BUCKET_SIZE then
      let am := set_tried (nTried am + 1) (alter (fun v => v ++ [nId]) (Z.to_nat nKBucket) (vvTried am)) am in
      mret (update_info nId (set_fInTried true) am)
    else
      '(nPos, am) ← SelectTried rnd nKBucket am;
      match tried_bucket am nKBucket !! Z.to_nat nPos with
      | None => Crash
      | Some old =>
        match mapInfo am !! old with
        | None => Crash
        | Some infoOld =>
          let nUBucket := GetNewBucket (nKey am) (info_source infoOld) infoOld in
          let am := update_info old (fun i => set_nRefCount 1 (set_fInTried false i)) am in
          let am :=
            if Z.of_nat (base.size (new_bucket am nUBucket)) <? ADDRMAN_NEW_BUCKET_SIZE
            then insert_to_new nUBucket old am else insert_to_new nOrigin old am in
          let am := set_new (nNew am + 1) (vvNew am) am in
          let am := set_tried (nTried am) (alter (<[Z.to_nat nPos := nId]>) (Z.to_nat nKBucket) (vvTried am)) am in
          mret (update_info nId (set_fInTried true) am)
        end
      end
  end.

(** The bucket [Good_] finds the id in, from the random one on. *)
Definition bucket_of (nRnd : Z) (nId : Z) (vvNew : list (gset Z)) : Z :=
  let n := zlen vvNew in
  let order := map (fun k => (k + nRnd) mod n) (seqZ 0 n) in
  match list_find (fun nB => nId ∈ nth (Z.to_nat nB) vvNew ∅) order with
  | Some (_, nB) => nB
  | None => -1
  end.

Definition Good_ (rnd : nat -> Z -> Z) (addr : CService) (nTime : Z) (am : CAddrMan) : outcome unit CAddrMan :=
  match Find am (svc_ip addr) with
  | None => mret am
  | Some (nId, info) =>
    if negb (bool_decide (info_service info = addr)) then mret am
    else
      let am := update_info nId (fun i =>
        AddrInfo (Addr (info_service i) (a_nServices (info_addr i)) (to_u32 nTime) nTime) (info_source i)
          nTime 0 (nRefCount i) (fInTried i) (nRandomPos i)) am in
      if fInTried info then mret am
      else
        let nRnd := rnd 0%nat (zlen (vvNew am)) in
        let nUBucket := bucket_of nRnd nId (vvNew am) in
        if nUBucket =? -1 then mret am
        else MakeTried (fun k => rnd (S k)) nId nUBucket am
  end.

(** The part of [Add_] that puts an id into its bucket. *)
Definition add_to_bucket (rnd : nat -> Z -> Z) (nNow : Z) (nId : Z) (source : CNetAddr) (am : CAddrMan) : outcome unit CAddrMan :=
  match mapInfo am !! nId with
  | None => Crash
  | Some info =>
    let nUBucket := GetNewBucket (nKey am) source info in
    if bool_decide (nId ∈ new_bucket am nUBucket) then mret am
    else
      let am := update_info nId (fun i => set_nRefCount (nRefCount i + 1) i) am in
      am ← (if Z.of_nat (base.size (new_bucket am nUBucket)) =? ADDRMAN_NEW_BUCKET_SIZE
            then ShrinkNew rnd nNow nUBucket am else mret am);
      mret (insert_to_new nUBucket nId am)
  end.

(** What [Add_] updates in a known entry. *)
Definition refresh (addr : CAddress) (nTimePenalty nNow : Z) (i : CAddrInfo) : CAddrInfo :=
  let fCurrentlyOnline := nNow - a_nTime addr <? 24 * 60 * 60 in
  let nUpdateInterval := if fCurrentlyOnline then 60 * 60 else 24 * 60 * 60 in
  let a := info_addr i in
  let a :=
    if negb (a_nTime addr =? 0) && ((a_nTime a =? 0) || (a_nTime a <? a_nTime addr - nUpdateInterval - nTimePenalty))
    then with_nTime (Z.max 0 (a_nTime addr - nTimePenalty)) a else a in
  set_addr (Addr (addr_service a) (Z.lor (a_nServices a) (a_nServices addr)) (a_nTime a) (a_nLastTry a)) i.

(** [Add_(addr, source, nTimePenalty)]: the result and the tables. *)
Definition Add_ (rnd : nat -> Z -> Z) (addr : CAddress) (source : CNetAddr) (nTimePenalty nNow : Z) (am : CAddrMan)
    : outcome unit (bool * CAddrMan) :=
  if negb (IsRoutable (addr_ip addr)) then mret (false, am)
  else
    match Find am (addr_ip addr) with
    | Some (nId, info) =>
      let info := refresh addr nTimePenalty nNow info in
      let am := update_info nId (fun _ => info) am in
      if (a_nTime addr =? 0) || (negb (info_nTime info =? 0) && (a_nTime addr <=? info_nTime info)) then mret (false, am)
      else if fInTried info then mret (false, am)
      else if nRefCount info =? ADDRMAN_NEW_BUCKETS_PER_ADDRESS then mret (false, am)
      else
        let nFactor := 2 ^ nRefCount info in
        if (1 <? nFactor) && negb (rnd 0%nat nFactor =? 0) then mret (false, am)
        else
          am ← add_to_bucket (fun k => rnd (S k)) nNow nId source am;
          mret (false, am)
    | None =>
      let '(nId, am) := Create am addr source in
      let am := update_info nId (fun i => set_addr (with_nTime (Z.max 0 (info_nTime i - nTimePenalty)) (info_addr i)) i) am in
      let am := set_new (nNew am + 1) (vvNew am) am in
      am ← add_to_bucket (fun k => rnd (S k)) nNow nId source am;
      mret (true, am)
    end.
End tables.

Definition Attempt_ (addr : CService) (nTime : Z) (am : CAddrMan) : CAddrMan :=
  match Find am (svc_ip addr) with
  | None => am
  | Some (nId, info) =>
    if negb (bool_decide (info_service info = addr)) then am
    else update_info nId (fun i =>
      AddrInfo (Addr (info_service i) (a_nServices (info_addr i)) (info_nTime i) nTime) (info_source i)
        (nLastSuccess i) (to_i32 (nAttempts i + 1)) (nRefCount i) (fInTried i) (nRandomPos i)) am
  end.

Definition Connected_ (addr : CService) (nTime : Z) (am : CAddrMan) : CAddrMan :=
  match Find am (svc_ip addr) with
  | None => am
  | Some (nId, info) =>
    if negb (bool_decide (info_service info = addr)) then am
    else if 20 * 60 <? nTime - info_nTime info then
      update_info nId (fun i => set_addr (with_nTime nTime (info_addr i)) i) am
    else am
  end.

(** [GetAddr_]: the tables and the addresses. *)
Fixpoint getaddr_loop (fuel : nat) (rnd : nat -> Z -> Z) (n : Z) (am : CAddrMan) (vAddr : list CAddress)
    : outcome unit (CAddrMan * list CAddress) :=
  match fuel with
  | O => mret (am, vAddr)
  | S fuel =>
    let nRndPos := rnd (Z.to_nat n) (zlen (vRandom am) - n) + n in
    am ← SwapRandom n nRndPos am;
    match (id ← vRandom am !! Z.to_nat n; mapInfo am !! id) with
    | None => Crash
    | Some info => getaddr_loop fuel rnd (n + 1) am (vAddr ++ [info_addr info])
    end
  end.

Definition GetAddr_ (rnd : nat -> Z -> Z) (am : CAddrMan) : outcome unit (CAddrMan * list CAddress) :=
  let nNodes := ADDRMAN_GETADDR_MAX_PCT * zlen (vRandom am) / 100 in
  let nNodes := if ADDRMAN_GETADDR_MAX <? nNodes then ADDRMAN_GETADDR_MAX else nNodes in
  getaddr_loop (Z.to_nat nNodes) rnd 0 am [].

(** [Select_]: the loop that draws a bucket and a position until the entry is
    accepted.  The two verdicts computed with floating-point chances, which
    table to use and whether to take the entry in a round, are arguments;
    [None] means that the rounds of the fuel end without an entry. *)
Fixpoint draw (fuel : nat) (rnd : nat -> Z -> Z) (k : nat) (table : list (list Z)) (m : gmap Z CAddrInfo)
    (accept : nat -> CAddrInfo -> bool) : outcome unit (option CAddrInfo) :=
  match fuel with
  | O => mret None
  | S fuel =>
    let bucket := nth (Z.to_nat (rnd (2 * k)%nat (zlen table))) table [] in
    if zlen bucket =? 0 then draw fuel rnd (S k) table m accept
    else
      match (id ← bucket !! Z.to_nat (rnd (2 * k + 1)%nat (zlen bucket)); m !! id) with
      | None => Crash
      | Some info => if accept k info then mret (Some info) else draw fuel rnd (S k) table m accept
      end
  end.

Definition Select_ (fuel : nat) (rnd : nat -> Z -> Z) (use_tried : bool) (accept : nat -> CAddrInfo -> bool) (am : CAddrMan)
    : outcome unit (option CAddress) :=
  if zlen (vRandom am) =? 0 then Ok (Some (CAddress_new (Service CNetAddr_new 0) 1))
  else
    info ← draw fuel rnd 0 (if use_tried then vvTried am else map set_order (vvNew am)) (mapInfo am) accept;
    Ok (option_map info_addr info).

(** ** [Check_] *)

Fixpoint check_entries (am : CAddrMan) (l : list (Z * CAddrInfo)) (setTried : gset Z) (mapNew : gmap Z Z)
    : outcome Z (gset Z * gmap Z Z) :=
  match l with
  | [] => mret (setTried, mapNew)
  | (n, info) :: l =>
    '(setTried, mapNew) ←
      (if fInTried info then
         _ ← fail_if (nLastSuccess info =? 0) (-1);
         _ ← fail_if (negb (nRefCount info =? 0)) (-2);
         mret ({[n]} ∪ setTried, mapNew)
       else
         _ ← fail_if ((nRefCount info <? 0) || (ADDRMAN_NEW_BUCKETS_PER_ADDRESS <? nRefCount info)) (-3);
         _ ← fail_if (nRefCount info =? 0) (-4);
         mret (setTried, <[n := nRefCount info]> mapNew));
    _ ← fail_if (negb (default 0 (mapAddr am !! info_ip info) =? n)) (-5);
    _ ← fail_if ((nRandomPos info <? 0) || (zlen (vRandom am) <=? nRandomPos info) ||
          negb (nth (Z.to_nat (nRandomPos info)) (vRandom am) 0 =? n)) (-14);
    _ ← fail_if (info_nLastTry info <? 0) (-6);
    _ ← fail_if (nLastSuccess info <? 0) (-8);
    check_entries am l setTried mapNew
  end.

Fixpoint check_tried (ids : list Z) (setTried : gset Z) : outcome Z (gset Z) :=
  match ids with
  | [] => mret setTried
  | id :: ids =>
    _ ← fail_if (negb (bool_decide (id ∈ setTried))) (-11);
    check_tried ids (setTried ∖ {[id]})
  end.

Fixpoint check_new (ids : list Z) (mapNew : gmap Z Z) : outcome Z (gmap Z Z) :=
  match ids with
  | [] => mret mapNew
  | id :: ids =>
    match mapNew !! id with
    | None => Err (-12)
    | Some n => check_new ids (if n - 1 =? 0 then delete id mapNew else <[id := n - 1]> mapNew)
    end
  end.

(** The entries of [mapInfo] by id. *)
Definition info_order (m : gmap Z CAddrInfo) : list (Z * CAddrInfo) :=
  omap (fun id => (fun i => (id, i)) <$> m !! id) (set_order (dom m)).

(** [Check_]: [Err] is the error code, [Ok] is zero. *)
Definition Check_ (am : CAddrMan) : outcome Z unit :=
  _ ← fail_if (negb (zlen (vRandom am) =? nTried am + nNew am)) (-7);
  '(setTried, mapNew) ← check_entries am (info_order (mapInfo am)) ∅ ∅;
  _ ← fail_if (negb (Z.of_nat (base.size setTried) =? nTried am)) (-9);
  _ ← fail_if (negb (Z.of_nat (base.size mapNew) =? nNew am)) (-10);
  setTried ← check_tried (concat (vvTried am)) setTried;
  mapNew ← check_new (concat (map set_order (vvNew am))) mapNew;
  _ ← fail_if (negb (Z.of_nat (base.size setTried) =? 0)) (-13);
  fail_if (negb (Z.of_nat (base.size mapNew) =? 0)) (-15).
