(* ===== verification/AddrManTables.v ===== *)
(** * The invariants of the address manager

    The consistency of its indexes ([mapInfo], [mapAddr], [vRandom]) and of
    its tables (the buckets, the flags and reference counts of the entries,
    the totals), each with the elementary steps that keep it.  A table may owe
    one entry a reference: [pend] is an id that is counted once more than it
    occurs, while it is on its way into a bucket. *)

From stdpp Require Import sorting.
From S2P Require Import Prelude Interp Serialize Transaction SigHash NetAddr AddrMan.

Local Open Scope Z_scope.

(** ** Counting entries *)

Definition count (P : CAddrInfo -> bool) (m : gmap Z CAddrInfo) : Z :=
  Z.of_nat (size (filter (fun kv => P kv.2 = true) m)).

Lemma count_insert_fresh P m k i : m !! k = None -> count P (<[k := i]> m) = count P m + Z.b2z (P i).
Proof.
  intros Hk. unfold count. destruct (P i) eqn:E.
  - rewrite map_filter_insert_True by done. rewrite map_size_insert_None; [cbn; lia|]. by apply map_lookup_filter_None_2; left.
  - rewrite map_filter_insert_not' by (cbn; congruence). cbn. lia.
Qed.

Lemma count_delete P m k i : m !! k = Some i -> count P (delete k m) = count P m - Z.b2z (P i).
Proof.
  intros Hk. rewrite <-(insert_delete_id m k i Hk) at 2. rewrite count_insert_fresh by apply lookup_delete_eq. lia.
Qed.

Lemma count_insert P m k i j : m !! k = Some j -> count P (<[k := i]> m) = count P m - Z.b2z (P j) + Z.b2z (P i).
Proof.
  intros Hk. rewrite <-insert_delete_eq, count_insert_fresh by apply lookup_delete_eq. by rewrite (count_delete _ _ _ j).
Qed.

Lemma count_total m : count fInTried m + count (fun i => negb (fInTried i)) m = Z.of_nat (size m).
Proof.
  induction m as [|k i m Hk IH] using map_ind; [done|].
  rewrite !count_insert_fresh, map_size_insert_None by done. destruct (fInTried i); cbn [Z.b2z negb]; lia.
Qed.

(** ** References *)

Definition refs (vn : list (gset Z)) (id : Z) : Z := Z.of_nat (length (filter (fun s => id ∈ s) vn)).

Lemma refs_nonneg vn id : 0 <= refs vn id.
Proof. unfold refs. lia. Qed.

Lemma refs_split vn b s id : vn !! b = Some s ->
  refs vn id = refs (take b vn) id + (if decide (id ∈ s) then 1 else 0) + refs (drop (S b) vn) id.
Proof.
  intros Hb. rewrite <-(take_drop_middle vn b s Hb) at 1. unfold refs. rewrite filter_app, filter_cons, length_app.
  destruct (decide (id ∈ s)); cbn [length]; lia.
Qed.

Lemma refs_alter vn b s id f : vn !! b = Some s ->
  refs (alter f b vn) id = refs vn id - (if decide (id ∈ s) then 1 else 0) + (if decide (id ∈ f s) then 1 else 0).
Proof.
  intros Hb. assert (b < length vn)%nat by (apply lookup_lt_Some in Hb; lia).
  rewrite (refs_split vn b s) by done.
  rewrite (refs_split (alter f b vn) b (f s)) by (by rewrite list_lookup_alter_eq, Hb).
  rewrite take_alter_ge, drop_alter_lt by lia. lia.
Qed.

Lemma refs_pos vn b s id : vn !! b = Some s -> id ∈ s -> 1 <= refs vn id.
Proof.
  intros Hb Hid. rewrite (refs_split vn b s) by done. rewrite decide_True by done.
  pose proof (refs_nonneg (take b vn) id). pose proof (refs_nonneg (drop (S b) vn) id). lia.
Qed.

Lemma refs_erased vn id : refs (map (fun s => s ∖ {[id]}) vn) id = 0.
Proof.
  unfold refs. induction vn as [|s vn IH]; [done|]. cbn [map]. rewrite filter_cons, decide_False; [exact IH|]. rewrite elem_of_difference, elem_of_singleton. tauto.
Qed.

Lemma refs_erased_ne vn id id' : id <> id' -> refs (map (fun s => s ∖ {[id]}) vn) id' = refs vn id'.
Proof.
  intros Hne. unfold refs. induction vn as [|s vn IH]; [done|]. cbn [map]. rewrite !filter_cons.
  destruct (decide (id' ∈ s)) as [H|H]; [rewrite decide_True|rewrite decide_False];
    rewrite ?elem_of_difference, ?elem_of_singleton; cbn [length]; [lia|split; [done|congruence]|lia|tauto].
Qed.

Lemma refs_exists vn id : 1 <= refs vn id -> exists b s, vn !! b = Some s /\ id ∈ s.
Proof.
  unfold refs. intros H. destruct (filter (fun s => id ∈ s) vn) as [|s l] eqn:E; [cbn in H; lia|].
  assert (s ∈ filter (fun s => id ∈ s) vn) as Hs by (rewrite E; left).
  apply list_elem_of_filter in Hs as [Hid Hs]. apply list_elem_of_lookup in Hs as [b Hb]. eauto.
Qed.

(** ** The tables *)

Section tables.
Context {SH : ScriptHashes} (key : list Z).
Implicit Types (m : gmap Z CAddrInfo) (vt : list (list Z)) (vn : list (gset Z)).

Lemma tried_bucket_range i : 0 <= GetTriedBucket key i < 256.
Proof. unfold GetTriedBucket. by apply Z.mod_pos_bound. Qed.

Lemma new_bucket_range src i : 0 <= GetNewBucket key src i < 256.
Proof. unfold GetNewBucket. by apply Z.mod_pos_bound. Qed.

(** An entry agrees with the buckets. *)
Definition entry_ok vt vn (pend : option Z) (id : Z) (i : CAddrInfo) : Prop :=
  if fInTried i then
    nRefCount i = 0 /\ nLastSuccess i <> 0 /\ refs vn id = 0 /\ pend <> Some id /\
    exists v, vt !! Z.to_nat (GetTriedBucket key i) = Some v /\ id ∈ v
  else nRefCount i = refs vn id + (if decide (pend = Some id) then 1 else 0) /\ 1 <= nRefCount i <= 8.

Record tables_ok m vt vn (nt nn : Z) (pend : option Z) : Prop := {
  to_lengths : length vt = 256%nat /\ length vn = 256%nat;
  to_tried : forall b v id, vt !! b = Some v -> id ∈ v ->
    exists i, m !! id = Some i /\ fInTried i = true /\ GetTriedBucket key i = Z.of_nat b;
  to_vectors : forall b v, vt !! b = Some v -> NoDup v /\ (length v <= 64)%nat;
  to_sizes : forall b s, vn !! b = Some s -> (size s <= 64)%nat;
  to_new : forall b s id, vn !! b = Some s -> id ∈ s -> is_Some (m !! id);
  to_pend : forall id, pend = Some id -> is_Some (m !! id);
  to_entry : forall id i, m !! id = Some i -> entry_ok vt vn pend id i;
  to_nt : nt = count fInTried m;
  to_nn : nn = count (fun i => negb (fInTried i)) m
}.

(** What the tables see of an entry. *)
Definition same_place (i j : CAddrInfo) : Prop :=
  info_service i = info_service j /\ fInTried i = fInTried j /\ nRefCount i = nRefCount j /\
  (nLastSuccess i <> 0 -> nLastSuccess j <> 0).

Lemma same_place_bucket i j : info_service i = info_service j -> GetTriedBucket key i = GetTriedBucket key j.
Proof. unfold GetTriedBucket, info_ip, addr_ip, info_service. by intros ->. Qed.

(** An entry changes in fields the tables do not see. *)
Lemma tables_update m vt vn nt nn pend id i j : tables_ok m vt vn nt nn pend -> m !! id = Some i -> same_place i j ->
  tables_ok (<[id := j]> m) vt vn nt nn pend.
Proof.
  intros [] Hi (Hs & Ht & Hr & Hl). pose proof (same_place_bucket i j Hs) as Hb.
  assert (forall id', is_Some (m !! id') -> is_Some (<[id := j]> m !! id')) as Hdom.
  { intros id' [x Hx]. rewrite lookup_insert. destruct (decide (id = id')); eauto. }
  split; auto.
  - intros b v id' Hv Hid. destruct (to_tried0 b v id' Hv Hid) as (i' & Hi' & Ht' & Hb').
    rewrite lookup_insert. destruct (decide (id = id')) as [<-|]; [|by eauto].
    exists j. simplify_eq. by rewrite <-Ht, <-Hb.
  - eauto.
  - intros id' i'. rewrite lookup_insert. destruct (decide (id = id')) as [<-|]; [|by eauto].
    intros [= <-]. specialize (to_entry0 id i Hi). unfold entry_ok in *. rewrite <-Ht, <-Hr, <-Hb.
    destruct (fInTried i); naive_solver.
  - rewrite (count_insert _ _ _ _ i) by done. rewrite <-Ht. lia.
  - rewrite (count_insert _ _ _ _ i) by done. rewrite <-Ht. lia.
Qed.

(** The order of the ids of a bucket does not matter. *)
Lemma tables_permute m vt vn nt nn pend b v v' : tables_ok m vt vn nt nn pend -> vt !! b = Some v -> v ≡ₚ v' ->
  tables_ok m (<[b := v']> vt) vn nt nn pend.
Proof.
  intros [] Hv Hp. pose proof (lookup_lt_Some _ _ _ Hv) as Hlt.
  assert (forall b' w, <[b := v']> vt !! b' = Some w -> exists w', vt !! b' = Some w' /\ w' ≡ₚ w) as Hback.
  { intros b' w. destruct (decide (b = b')) as [<-|].
    - rewrite list_lookup_insert_eq by done. intros [= <-]. eauto.
    - rewrite list_lookup_insert_ne by done. eauto. }
  split; auto.
  - by rewrite length_insert.
  - intros b' w id Hw Hid. destruct (Hback b' w Hw) as (w' & Hw' & Hpw). apply (to_tried0 b' w'); [done|]. by rewrite Hpw.
  - intros b' w Hw. destruct (Hback b' w Hw) as (w' & Hw' & Hpw). rewrite <-Hpw. eauto.
  - intros id i Hi. specialize (to_entry0 id i Hi). unfold entry_ok in *. destruct (fInTried i); [|done].
    destruct to_entry0 as (? & ? & ? & ? & w & Hw & Hid). split_and!; auto.
    destruct (decide (b = Z.to_nat (GetTriedBucket key i))) as [E|].
    + exists v'. subst b. rewrite list_lookup_insert_eq by done. split; [done|]. rewrite <-Hp. congruence.
    + exists w. by rewrite list_lookup_insert_ne.
Qed.

(** Only the entries of one id, and the references of ids other than those
    of a set, change. *)
Lemma entry_ok_refs vt vn vn' pend pend' id i :
  refs vn' id + (if decide (pend' = Some id) then 1 else 0) = refs vn id + (if decide (pend = Some id) then 1 else 0) ->
  entry_ok vt vn pend id i -> entry_ok vt vn' pend' id i.
Proof.
  unfold entry_ok. intros E. destruct (fInTried i).
  - intros (? & ? & H0 & Hp & ?). rewrite H0, (decide_False (P := pend = Some id)) in E by done.
    pose proof (refs_nonneg vn' id). destruct (decide (pend' = Some id)); [exfalso; lia|]. split_and!; auto; lia.
  - intros [-> ?]. by rewrite E.
Qed.

(** A bucket changes by an id: the buckets of the result. *)
Lemma bucket_alter vn b s f b' s' : vn !! b = Some s -> alter f b vn !! b' = Some s' ->
  (b' = b /\ s' = f s) \/ (b' <> b /\ vn !! b' = Some s').
Proof.
  intros Hb. destruct (decide (b = b')) as [<-|].
  - rewrite list_lookup_alter_eq, Hb. intros [= <-]. by left.
  - rewrite list_lookup_alter_ne by done. intros ?. right. split; congruence.
Qed.

(** An id leaves a bucket: the entry loses a reference ... *)
Lemma tables_unref m vt vn nt nn pend b s id i : tables_ok m vt vn nt nn pend -> vn !! b = Some s -> id ∈ s ->
  pend <> Some id -> m !! id = Some i -> nRefCount i <> 1 ->
  tables_ok (<[id := set_nRefCount (nRefCount i - 1) i]> m) vt (alter (fun s => s ∖ {[id]}) b vn) nt nn pend.
Proof.
  intros [] Hb Hid Hp Hi H1. pose proof (refs_pos vn b s id Hb Hid) as Hpos.
  pose proof (to_entry0 id i Hi) as He. unfold entry_ok in He.
  assert (fInTried i = false) as Ht by (destruct (fInTried i); [lia|done]). rewrite Ht, decide_False in He by done.
  assert (forall id', is_Some (m !! id') -> is_Some (<[id := set_nRefCount (nRefCount i - 1) i]> m !! id')) as Hdom.
  { intros id' [x Hx]. rewrite lookup_insert. destruct (decide (id = id')); eauto. }
  split; auto.
  - by rewrite length_alter.
  - intros b' v id' Hv Hid'. destruct (to_tried0 b' v id' Hv Hid') as (i' & Hi' & ?). exists i'.
    rewrite lookup_insert_ne; [done|]. intros ->. naive_solver congruence.
  - intros b' s' Hs'. destruct (bucket_alter _ _ _ _ _ _ Hb Hs') as [[-> ->]|[_ ?]]; [|by eauto].
    pose proof (to_sizes0 b s Hb). pose proof (subseteq_size (s ∖ {[id]}) s). set_solver by lia.
  - intros b' s' id' Hs' Hid'. apply Hdom.
    destruct (bucket_alter _ _ _ _ _ _ Hb Hs') as [[-> ->]|[_ ?]]; [|by eauto]. apply (to_new0 b s); set_solver.
  - intros id' i'. rewrite lookup_insert. destruct (decide (id = id')) as [<-|Hne].
    + intros [= <-]. unfold entry_ok. cbn. rewrite Ht, (refs_alter _ _ s) by done.
      rewrite decide_True, !decide_False by set_solver. lia.
    + intros Hi'. apply (entry_ok_refs vt vn _ pend); [|by auto]. rewrite (refs_alter _ _ s) by done.
      destruct (decide (id' ∈ s)); [rewrite (decide_True (P := id' ∈ s ∖ {[id]})) by set_solver|rewrite (decide_False (P := id' ∈ s ∖ {[id]})) by set_solver]; lia.
  - rewrite (count_insert _ _ _ _ i) by done. cbn. rewrite Ht. cbn. lia.
  - rewrite (count_insert _ _ _ _ i) by done. cbn. rewrite Ht. cbn. lia.
Qed.

(** ... or is deleted with the last one. *)
Lemma tables_delete m vt vn nt nn pend b s id i : tables_ok m vt vn nt nn pend -> vn !! b = Some s -> id ∈ s ->
  pend <> Some id -> m !! id = Some i -> nRefCount i = 1 ->
  tables_ok (delete id m) vt (alter (fun s => s ∖ {[id]}) b vn) nt (nn - 1) pend.
Proof.
  intros [] Hb Hid Hp Hi H1. pose proof (refs_pos vn b s id Hb Hid) as Hpos.
  pose proof (to_entry0 id i Hi) as He. unfold entry_ok in He.
  assert (fInTried i = false) as Ht by (destruct (fInTried i); [lia|done]). rewrite Ht, decide_False in He by done.
  assert (refs (alter (fun s => s ∖ {[id]}) b vn) id = 0) as Hzero.
  { rewrite (refs_alter _ _ s) by done. rewrite decide_True, decide_False by set_solver. lia. }
  split; auto.
  - by rewrite length_alter.
  - intros b' v id' Hv Hid'. destruct (to_tried0 b' v id' Hv Hid') as (i' & Hi' & ?). exists i'.
    rewrite lookup_delete_ne; [done|]. intros ->. naive_solver congruence.
  - intros b' s' Hs'. destruct (bucket_alter _ _ _ _ _ _ Hb Hs') as [[-> ->]|[_ ?]]; [|by eauto].
    pose proof (to_sizes0 b s Hb). pose proof (subseteq_size (s ∖ {[id]}) s). set_solver by lia.
  - intros b' s' id' Hs' Hid'. rewrite lookup_delete_ne.
    + destruct (bucket_alter _ _ _ _ _ _ Hb Hs') as [[-> ->]|[_ ?]]; [|by eauto]. apply (to_new0 b s); set_solver.
    + intros <-. pose proof (refs_pos _ _ _ _ Hs' Hid'). lia.
  - intros id' Hid'. rewrite lookup_delete_ne; [by auto|]. congruence.
  - intros id' i' Hi'. apply lookup_delete_Some in Hi' as [Hne Hi']. apply (entry_ok_refs vt vn _ pend); [|by auto].
    rewrite (refs_alter _ _ s) by done.
    destruct (decide (id' ∈ s)); [rewrite (decide_True (P := id' ∈ s ∖ {[id]})) by set_solver|rewrite (decide_False (P := id' ∈ s ∖ {[id]})) by set_solver]; lia.
  - rewrite (count_delete _ _ _ i) by done. rewrite Ht. cbn. lia.
  - rewrite (count_delete _ _ _ i) by done. rewrite Ht. cbn. lia.
Qed.

(** An entry is about to get one more reference. *)
Lemma tables_begin m vt vn nt nn id i : tables_ok m vt vn nt nn None -> m !! id = Some i ->
  fInTried i = false -> nRefCount i <> 8 -> tables_ok (<[id := set_nRefCount (nRefCount i + 1) i]> m) vt vn nt nn (Some id).
Proof.
  intros [] Hi Ht H8. pose proof (to_entry0 id i Hi) as He. unfold entry_ok in He. rewrite Ht in He.
  rewrite decide_False in He by done.
  assert (forall id', is_Some (m !! id') -> is_Some (<[id := set_nRefCount (nRefCount i + 1) i]> m !! id')) as Hdom.
  { intros id' [x Hx]. rewrite lookup_insert. destruct (decide (id = id')); eauto. }
  split; eauto.
  - intros b' v id' Hv Hid'. destruct (to_tried0 b' v id' Hv Hid') as (i' & Hi' & ?). exists i'.
    rewrite lookup_insert_ne; [done|]. intros ->. naive_solver congruence.
  - intros id' [= <-]. eauto.
  - intros id' i'. rewrite lookup_insert. destruct (decide (id = id')) as [<-|Hne].
    + intros [= <-]. unfold entry_ok. cbn. rewrite Ht, decide_True by done. lia.
    + intros Hi'. apply (entry_ok_refs vt vn _ None); [|by auto]. rewrite !decide_False by congruence. lia.
  - rewrite (count_insert _ _ _ _ i) by done. cbn. rewrite Ht. cbn. lia.
  - rewrite (count_insert _ _ _ _ i) by done. cbn. rewrite Ht. cbn. lia.
Qed.

(** A new entry with one reference to come. *)
Lemma tables_create m vt vn nt nn id i : tables_ok m vt vn nt nn None -> m !! id = None ->
  fInTried i = false -> nRefCount i = 1 -> tables_ok (<[id := i]> m) vt vn nt (nn + 1) (Some id).
Proof.
  intros [] Hi Ht H1.
  assert (refs vn id = 0) as H0.
  { pose proof (refs_nonneg vn id). destruct (decide (refs vn id = 0)); [done|].
    destruct (refs_exists vn id) as (b & s & Hb & Hid); [lia|]. destruct (to_new0 b s id Hb Hid). congruence. }
  assert (forall id', is_Some (m !! id') -> is_Some (<[id := i]> m !! id')) as Hdom.
  { intros id' [x Hx]. rewrite lookup_insert. destruct (decide (id = id')); eauto. }
  split; eauto.
  - intros b' v id' Hv Hid'. destruct (to_tried0 b' v id' Hv Hid') as (i' & Hi' & ?). exists i'.
    rewrite lookup_insert_ne; [done|]. congruence.
  - intros id' [= <-]. rewrite lookup_insert_eq. eauto.
  - intros id' i'. rewrite lookup_insert. destruct (decide (id = id')) as [<-|Hne].
    + intros [= <-]. unfold entry_ok. rewrite Ht, decide_True by done. lia.
    + intros Hi'. apply (entry_ok_refs vt vn _ None); [|by auto]. rewrite !decide_False by congruence. lia.
  - rewrite count_insert_fresh by done. rewrite Ht. cbn. lia.
  - rewrite count_insert_fresh by done. rewrite Ht. cbn. lia.
Qed.

(** The owed reference is put into a bucket. *)
Lemma tables_insert m vt vn nt nn b s id : tables_ok m vt vn nt nn (Some id) -> vn !! b = Some s -> id ∉ s ->
  (size s < 64)%nat -> tables_ok m vt (alter (fun s => {[id]} ∪ s) b vn) nt nn None.
Proof.
  intros [] Hb Hid Hlt. split; auto.
  - by rewrite length_alter.
  - intros b' s' Hs'. destruct (bucket_alter _ _ _ _ _ _ Hb Hs') as [[-> ->]|[_ ?]]; [|by eauto].
    rewrite size_union, size_singleton by set_solver. lia.
  - intros b' s' id' Hs' Hid'. destruct (bucket_alter _ _ _ _ _ _ Hb Hs') as [[-> ->]|[_ ?]]; [|by eauto].
    apply elem_of_union in Hid' as [->%elem_of_singleton|?]; eauto.
  - done.
  - intros id' i' Hi'. apply (entry_ok_refs vt vn _ (Some id)); [|by auto]. rewrite (refs_alter _ _ s) by done.
    destruct (decide (id = id')) as [<-|Hne].
    + rewrite (decide_True (P := id ∈ {[id]} ∪ s)) by set_solver. rewrite (decide_False (P := id ∈ s)) by done.
      rewrite (decide_True (P := Some id = Some id)) by done. rewrite decide_False by done. lia.
    + rewrite (decide_False (P := Some id = Some id')) by congruence. rewrite (decide_False (P := None = Some id')) by done.
      destruct (decide (id' ∈ s)); [rewrite (decide_True (P := id' ∈ {[id]} ∪ s)) by set_solver|rewrite (decide_False (P := id' ∈ {[id]} ∪ s)) by set_solver]; lia.
Qed.

(** An entry moves from the new buckets to its tried bucket. *)
Lemma tables_promote m vt vn nt nn pend v id i : tables_ok m vt vn nt nn pend -> m !! id = Some i ->
  fInTried i = false -> nLastSuccess i <> 0 -> pend <> Some id ->
  let b := Z.to_nat (GetTriedBucket key i) in
  vt !! b = Some v -> (length v < 64)%nat ->
  tables_ok (<[id := set_fInTried true (set_nRefCount 0 i)]> m) (<[b := v ++ [id]]> vt)
    (map (fun s => s ∖ {[id]}) vn) (nt + 1) (nn - 1) pend.
Proof.
  intros [] Hi Ht Hl Hp b Hv Hlen. pose proof (lookup_lt_Some _ _ _ Hv) as Hlt.
  assert (forall b' s', map (fun s => s ∖ {[id]}) vn !! b' = Some s' -> exists s, vn !! b' = Some s /\ s' = s ∖ {[id]}) as Hvn.
  { intros b' s' H. apply list_lookup_fmap_Some in H as (s & -> & H). eauto. }
  assert (forall b' v' id', vt !! b' = Some v' -> id' ∈ v' -> id' <> id) as Hnot.
  { intros b' v' id' Hv' Hid' ->. destruct (to_tried0 b' v' id Hv' Hid') as (? & ? & ? & _). congruence. }
  assert (forall id', is_Some (m !! id') -> is_Some (<[id := set_fInTried true (set_nRefCount 0 i)]> m !! id')) as Hdom.
  { intros id' [x Hx]. rewrite lookup_insert. destruct (decide (id = id')); eauto. }
  split; auto.
  - by rewrite length_insert, length_map.
  - intros b' v' id'. destruct (decide (b = b')) as [<-|].
    + rewrite list_lookup_insert_eq by done. intros [= <-] [Hid'|Hid']%elem_of_app.
      * destruct (to_tried0 b v id' Hv Hid') as (i' & ? & ?). exists i'. rewrite lookup_insert_ne by (intros ->; by eapply Hnot). done.
      * apply list_elem_of_singleton in Hid' as ->. rewrite lookup_insert_eq. eexists. split; [done|]. split; [done|].
        subst b. rewrite Z2Nat.id by apply tried_bucket_range. done.
    + rewrite list_lookup_insert_ne by done. intros Hv' Hid'.
      destruct (to_tried0 b' v' id' Hv' Hid') as (i' & ? & ?). exists i'. rewrite lookup_insert_ne by (intros ->; by eapply Hnot). done.
  - intros b' v'. destruct (decide (b = b')) as [<-|].
    + rewrite list_lookup_insert_eq by done. intros [= <-]. destruct (to_vectors0 b v Hv). split; [|rewrite length_app; cbn; lia].
      apply NoDup_app. split_and!; [done| |apply NoDup_singleton]. intros x Hx ->%list_elem_of_singleton. by eapply Hnot.
    + rewrite list_lookup_insert_ne by done. eauto.
  - intros b' s' (s & Hs & ->)%Hvn. pose proof (to_sizes0 b' s Hs). pose proof (subseteq_size (s ∖ {[id]}) s). set_solver by lia.
  - intros b' s' id' (s & Hs & ->)%Hvn Hid'. apply Hdom. apply (to_new0 b' s); set_solver.
  - intros id' i'. rewrite lookup_insert. destruct (decide (id = id')) as [<-|Hne].
    + intros [= <-]. unfold entry_ok. cbn. split_and!; auto using refs_erased.
      exists (v ++ [id]). change (GetTriedBucket key (set_fInTried true (set_nRefCount 0 i))) with (GetTriedBucket key i).
      fold b. rewrite list_lookup_insert_eq by done. split; [done|]. set_solver.
    + intros Hi'. specialize (to_entry0 id' i' Hi'). unfold entry_ok in *. rewrite refs_erased_ne by done.
      destruct (fInTried i'); [|done]. destruct to_entry0 as (? & ? & ? & ? & v' & Hv' & Hid'). split_and!; auto.
      destruct (decide (b = Z.to_nat (GetTriedBucket key i'))) as [E|].
      * exists (v ++ [id]). rewrite <-E, list_lookup_insert_eq by done. split; [done|]. set_solver by congruence.
      * exists v'. by rewrite list_lookup_insert_ne.
  - rewrite (count_insert _ _ _ _ i) by done. cbn. rewrite Ht. cbn. lia.
  - rewrite (count_insert _ _ _ _ i) by done. cbn. rewrite Ht. cbn. lia.
Qed.

(** An entry is evicted from its tried bucket, with one reference to come. *)
Lemma tables_evict m vt vn nt nn b v v' id i : tables_ok m vt vn nt nn None -> vt !! b = Some v -> v ≡ₚ id :: v' ->
  m !! id = Some i ->
  tables_ok (<[id := set_nRefCount 1 (set_fInTried false i)]> m) (<[b := v']> vt) vn (nt - 1) (nn + 1) (Some id).
Proof.
  intros [] Hv Hperm Hi. pose proof (lookup_lt_Some _ _ _ Hv) as Hlt.
  assert (id ∈ v) as Hin by (rewrite Hperm; left).
  destruct (to_vectors0 b v Hv) as [Hnd Hlen]. rewrite Hperm in Hnd, Hlen. apply NoDup_cons in Hnd as [Hnot Hnd]. cbn in Hlen.
  destruct (to_tried0 b v id Hv Hin) as (i0 & Hi0 & Ht & Hb). assert (i0 = i) as -> by congruence.
  pose proof (to_entry0 id i Hi) as He. unfold entry_ok in He. rewrite Ht in He. destruct He as (_ & _ & H0 & _).
  assert (forall id', is_Some (m !! id') -> is_Some (<[id := set_nRefCount 1 (set_fInTried false i)]> m !! id')) as Hdom.
  { intros id' [y Hy]. rewrite lookup_insert. destruct (decide (id = id')); eauto. }
  assert (forall b' w id', <[b := v']> vt !! b' = Some w -> id' ∈ w -> exists w', vt !! b' = Some w' /\ id' ∈ w' /\ id' <> id) as Hback.
  { intros b' w id'. destruct (decide (b = b')) as [<-|].
    - rewrite list_lookup_insert_eq by done. intros [= <-] Hid'. exists v. split_and!; [done|rewrite Hperm; by right|by intros ->].
    - rewrite list_lookup_insert_ne by done. intros Hw Hid'. exists w. split_and!; [done..|]. intros ->.
      destruct (to_tried0 b' w id Hw Hid') as (? & ? & _ & ?). simplify_eq. lia. }
  split; auto.
  - by rewrite length_insert.
  - intros b' w id' Hw Hid'. destruct (Hback b' w id' Hw Hid') as (w' & Hw' & Hin' & Hne).
    destruct (to_tried0 b' w' id' Hw' Hin') as (i' & ? & ?). exists i'. by rewrite lookup_insert_ne.
  - intros b' w. destruct (decide (b = b')) as [<-|].
    + rewrite list_lookup_insert_eq by done. intros [= <-]. split; [done|lia].
    + rewrite list_lookup_insert_ne by done. eauto.
  - eauto.
  - intros id' [= <-]. eauto.
  - intros id' i'. rewrite lookup_insert. destruct (decide (id = id')) as [<-|Hne].
    + intros [= <-]. unfold entry_ok. cbn. rewrite decide_True by done. lia.
    + intros Hi'. specialize (to_entry0 id' i' Hi'). unfold entry_ok in *. rewrite decide_False in * by congruence.
      destruct (fInTried i'); [|done]. destruct to_entry0 as (? & ? & ? & ? & w & Hw & Hid'). split_and!; auto; [congruence|].
      destruct (decide (b = Z.to_nat (GetTriedBucket key i'))) as [E|].
      * exists v'. rewrite <-E, list_lookup_insert_eq by done. split; [done|]. rewrite <-E, Hv in Hw. injection Hw as <-.
        rewrite Hperm in Hid'. apply elem_of_cons in Hid' as [->|?]; done.
      * exists w. by rewrite list_lookup_insert_ne.
  - rewrite (count_insert _ _ _ _ i) by done. cbn. rewrite Ht. cbn. lia.
  - rewrite (count_insert _ _ _ _ i) by done. cbn. rewrite Ht. cbn. lia.
Qed.
End tables.

(** ** The indexes *)

Record index_ok (m : gmap Z CAddrInfo) (ma : gmap CNetAddr Z) (vr : list Z) (nid : Z) : Prop := {
  io_info : forall id i, m !! id = Some i ->
    0 <= id < nid /\ ma !! info_ip i = Some id /\ 0 <= nRandomPos i /\ vr !! Z.to_nat (nRandomPos i) = Some id;
  io_addr : forall a id, ma !! a = Some id -> exists i, m !! id = Some i /\ info_ip i = a;
  io_random : forall p id, vr !! p = Some id -> exists i, m !! id = Some i /\ nRandomPos i = Z.of_nat p
}.

Section index.
Context (m : gmap Z CAddrInfo) (ma : gmap CNetAddr Z) (vr : list Z) (nid : Z) (OK : index_ok m ma vr nid).

Lemma index_update id i j : m !! id = Some i -> info_ip j = info_ip i -> nRandomPos j = nRandomPos i ->
  index_ok (<[id := j]> m) ma vr nid.
Proof.
  intros Hi Hip Hpos. destruct OK as [Hinfo Haddr Hrand]. split.
  - intros id' i'. rewrite lookup_insert. destruct (decide (id = id')) as [<-|]; [|by eauto].
    intros [= <-]. rewrite Hip, Hpos. eauto.
  - intros a id' Ha. destruct (Haddr a id' Ha) as (i' & Hi' & <-). rewrite lookup_insert.
    destruct (decide (id = id')) as [<-|]; [|by eauto]. exists j. split; congruence.
  - intros p id' Hp. destruct (Hrand p id' Hp) as (i' & Hi' & Hp'). rewrite lookup_insert.
    destruct (decide (id = id')) as [<-|]; [|by eauto]. exists j. split; congruence.
Qed.

Lemma index_swap p1 p2 id1 id2 i1 i2 : vr !! p1 = Some id1 -> vr !! p2 = Some id2 -> id1 <> id2 ->
  m !! id1 = Some i1 -> m !! id2 = Some i2 ->
  index_ok (<[id2 := set_nRandomPos (Z.of_nat p1) i2]> (<[id1 := set_nRandomPos (Z.of_nat p2) i1]> m)) ma
    (<[p2 := id1]> (<[p1 := id2]> vr)) nid.
Proof.
  intros Hp1 Hp2 Hne Hi1 Hi2. destruct OK as [Hinfo Haddr Hrand].
  assert (p1 <> p2) as Hpne by (intros ->; congruence).
  pose proof (lookup_lt_Some _ _ _ Hp1). pose proof (lookup_lt_Some _ _ _ Hp2). split.
  - intros id i. rewrite !lookup_insert. destruct (decide (id2 = id)) as [<-|]; [|destruct (decide (id1 = id)) as [<-|]].
    + intros [= <-]. destruct (Hinfo id2 i2 Hi2) as (? & ? & _). cbn. split_and!; [lia..|done|lia|].
      rewrite Nat2Z.id, list_lookup_insert_ne, list_lookup_insert_eq by done. done.
    + intros [= <-]. destruct (Hinfo id1 i1 Hi1) as (? & ? & _). cbn. split_and!; [lia..|done|lia|].
      rewrite Nat2Z.id, list_lookup_insert_eq by (by rewrite length_insert). done.
    + intros Hi. destruct (Hinfo id i Hi) as (? & ? & ? & ?). split_and!; [lia..|done|done|].
      rewrite !list_lookup_insert_ne by (intros ->; congruence). done.
  - intros a id Ha. destruct (Haddr a id Ha) as (i & Hi & <-). rewrite !lookup_insert.
    destruct (decide (id2 = id)) as [<-|]; [|destruct (decide (id1 = id)) as [<-|]]; [..|by eauto].
    + assert (i2 = i) as -> by congruence. by eexists.
    + assert (i1 = i) as -> by congruence. by eexists.
  - intros p id. destruct (decide (p2 = p)) as [<-|]; [|destruct (decide (p1 = p)) as [<-|]].
    + rewrite list_lookup_insert_eq by (by rewrite length_insert). intros [= <-].
      rewrite lookup_insert_ne, lookup_insert_eq by done. by eexists.
    + rewrite list_lookup_insert_ne, list_lookup_insert_eq by done. intros [= <-]. rewrite lookup_insert_eq. by eexists.
    + rewrite !list_lookup_insert_ne by done. intros Hp. destruct (Hrand p id Hp) as (i & Hi & Hpos).
      destruct (Hrand p1 id1 Hp1) as (? & ? & ?), (Hrand p2 id2 Hp2) as (? & ? & ?).
      rewrite !lookup_insert_ne by (intros ->; simplify_eq; lia). eauto.
Qed.

Lemma index_delete_last id i : m !! id = Some i -> nRandomPos i = zlen vr - 1 ->
  index_ok (delete id m) (delete (info_ip i) ma) (removelast vr) nid.
Proof.
  intros Hi Hlast. destruct OK as [Hinfo Haddr Hrand]. destruct (Hinfo id i Hi) as (_ & Hma & H0 & Hvr).
  destruct vr as [|x l _] using rev_ind; [done|]. rewrite removelast_last.
  rewrite zlen_app in Hlast. change (zlen [x]) with 1 in Hlast.
  assert (Z.to_nat (nRandomPos i) = length l) as Hpos by (unfold zlen in Hlast; lia).
  rewrite Hpos, lookup_app_r, Nat.sub_diag in Hvr by lia. injection Hvr as ->. split.
  - intros id' i' [Hne Hi']%lookup_delete_Some. destruct (Hinfo id' i' Hi') as (? & Hma' & ? & Hvr').
    split_and!; [lia..| |done|].
    + apply lookup_delete_Some. split; [|done]. intros E. rewrite <-E in Hma'. congruence.
    + rewrite lookup_app_l in Hvr'; [done|]. apply lookup_lt_Some in Hvr' as Hlt. rewrite length_app in Hlt. cbn in Hlt.
      destruct (decide (Z.to_nat (nRandomPos i') = length l)) as [E|]; [|lia].
      rewrite E, lookup_app_r, Nat.sub_diag in Hvr' by lia. injection Hvr' as ->. done.
  - intros a id' [Hne Ha]%lookup_delete_Some. destruct (Haddr a id' Ha) as (i' & Hi' & <-).
    exists i'. split; [|done]. rewrite lookup_delete_ne; [done|]. intros ->. congruence.
  - intros p id' Hp. destruct (Hrand p id') as (i' & Hi' & Hp'); [by apply lookup_app_l_Some|].
    exists i'. split; [|done]. rewrite lookup_delete_ne; [done|]. intros ->.
    apply lookup_lt_Some in Hp. assert (i' = i) as -> by congruence. lia.
Qed.

Lemma index_create i : m !! nid = None -> ma !! info_ip i = None -> 0 <= nid -> nRandomPos i = zlen vr ->
  index_ok (<[nid := i]> m) (<[info_ip i := nid]> ma) (vr ++ [nid]) (nid + 1).
Proof.
  intros Hm Hma H0 Hpos. destruct OK as [Hinfo Haddr Hrand]. split.
  - intros id' i'. rewrite lookup_insert. destruct (decide (nid = id')) as [<-|].
    + intros [= <-]. rewrite lookup_insert_eq, Hpos. pose proof (zlen_nonneg vr). split_and!; [lia..|done|lia|].
      unfold zlen. rewrite Nat2Z.id, lookup_app_r, Nat.sub_diag by lia. done.
    + intros Hi'. destruct (Hinfo id' i' Hi') as (? & Hma' & ? & Hvr). split_and!; [lia..| |done|by apply lookup_app_l_Some].
      rewrite lookup_insert_ne; [done|]. congruence.
  - intros a id'. rewrite lookup_insert. destruct (decide (info_ip i = a)) as [<-|].
    + intros [= <-]. rewrite lookup_insert_eq. eauto.
    + intros Ha. destruct (Haddr a id' Ha) as (i' & Hi' & <-). exists i'. rewrite lookup_insert_ne; [done|]. congruence.
  - intros p id' Hp. apply lookup_app_Some in Hp as [Hp|[Hle Hp]].
    + destruct (Hrand p id' Hp) as (i' & Hi' & ?). exists i'. rewrite lookup_insert_ne; [done|]. congruence.
    + apply list_lookup_singleton_Some in Hp as [Hp <-]. rewrite lookup_insert_eq. eexists. split; [done|].
      rewrite Hpos. unfold zlen. lia.
Qed.

Lemma index_NoDup : NoDup vr.
Proof.
  apply NoDup_alt. intros p q id Hp Hq. destruct (io_random _ _ _ _ OK p id Hp) as (i & Hi & Ep).
  destruct (io_random _ _ _ _ OK q id Hq) as (j & Hj & Eq). assert (i = j) as -> by congruence. lia.
Qed.

(** The vector lists every id once. *)
Lemma index_size : zlen vr = Z.of_nat (size m).
Proof.
  unfold zlen. f_equal. rewrite <-size_dom. rewrite <-(size_list_to_set (C := gset Z) vr index_NoDup). f_equal.
  apply set_eq. intros id. rewrite elem_of_list_to_set, elem_of_dom. split.
  - intros [p Hp]%list_elem_of_lookup. destruct (io_random _ _ _ _ OK p id Hp) as (i & Hi & _). eauto.
  - intros [i Hi]. destruct (io_info _ _ _ _ OK id i Hi) as (_ & _ & _ & H). by eapply list_elem_of_lookup_2.
Qed.
End index.
