(* ===== verification/AddrManProps.v ===== *)
(** * The address manager keeps its tables

    Every operation succeeds on consistent tables (none of its assertions
    fails), keeps them consistent, and [Check_], the consistency check the
    program has for debugging, finds nothing.  Only untried entries are
    deleted, and only to make room. *)

From stdpp Require Import sorting.
From S2P Require Import Prelude Interp Serialize Transaction SigHash NetAddr AddrMan AddrManTables.

Local Open Scope Z_scope.

(** The results of [GetRandInt] are in range. *)
Definition random_ok (rnd : nat -> Z -> Z) : Prop := forall k n, 0 < n -> 0 <= rnd k n < n.

Lemma random_ok_S rnd : random_ok rnd -> random_ok (fun k => rnd (S k)).
Proof. intros H k n. apply H. Qed.

Lemma elem_of_set_order (s : gset Z) id : id ∈ set_order s <-> id ∈ s.
Proof. unfold set_order. by rewrite (merge_sort_Permutation Z.le), elem_of_elements. Qed.

Lemma length_set_order (s : gset Z) : length (set_order s) = size s.
Proof. unfold set_order. by rewrite (merge_sort_Permutation Z.le). Qed.

Lemma NoDup_set_order (s : gset Z) : NoDup (set_order s).
Proof. unfold set_order. rewrite (merge_sort_Permutation Z.le). apply NoDup_elements. Qed.

Section props.
Context {SH : ScriptHashes}.

Record am_ok (pend : option Z) (am : CAddrMan) : Prop := {
  ok_index : index_ok (mapInfo am) (mapAddr am) (vRandom am) (nIdCount am);
  ok_tables : tables_ok (nKey am) (mapInfo am) (vvTried am) (vvNew am) (nTried am) (nNew am) pend;
  ok_times : map_Forall (fun _ i => 0 <= info_nLastTry i /\ 0 <= nLastSuccess i) (mapInfo am)
}.

(** The consistency of the address manager between operations. *)
Definition addrman_ok (am : CAddrMan) : Prop := am_ok None am.

(** What an entry stands for. *)
Definition same_peer (i j : CAddrInfo) : Prop := info_service j = info_service i /\ info_source j = info_source i.

Definition same_entry (i j : CAddrInfo) : Prop := same_peer i j /\ fInTried j = fInTried i.

#[export] Instance same_peer_preorder : PreOrder same_peer.
Proof. split; [done|]. intros i j k [E1 E2] [F1 F2]. split; congruence. Qed.

#[export] Instance same_entry_preorder : PreOrder same_entry.
Proof. split; [done|]. intros i j k [E1 E2] [F1 F2]. split; [by etrans|congruence]. Qed.

(** The entries but those of [gone] stay, up to [R]. *)
Definition stay (R : relation CAddrInfo) (gone : Z -> Prop) (m m' : gmap Z CAddrInfo) : Prop :=
  forall id i, m !! id = Some i -> gone id \/ exists j, m' !! id = Some j /\ R i j.

Lemma stay_refl R `{!PreOrder R} gone m : stay R gone m m.
Proof. intros id i Hi. right. by exists i. Qed.

Lemma stay_trans R `{!PreOrder R} gone m1 m2 m3 : stay R gone m1 m2 -> stay R gone m2 m3 -> stay R gone m1 m3.
Proof.
  intros H1 H2 id i Hi. destruct (H1 id i Hi) as [?|(j & Hj & E)]; [by left|].
  destruct (H2 id j Hj) as [?|(k & Hk & F)]; [by left|]. right. exists k. split; [done|]. by etrans.
Qed.

Lemma stay_update R `{!PreOrder R} gone m id i j : m !! id = Some i -> R i j -> stay R gone m (<[id := j]> m).
Proof.
  intros Hi HR id' i' Hi'. right. rewrite lookup_insert. destruct (decide (id = id')) as [<-|]; [|by exists i'].
  exists j. split; [done|]. by assert (i' = i) as -> by congruence.
Qed.

Lemma stay_delete R `{!PreOrder R} (gone : Z -> Prop) m id : gone id -> stay R gone m (delete id m).
Proof.
  intros Hg id' i' Hi'. destruct (decide (id = id')) as [<-|]; [by left|]. right. exists i'. by rewrite lookup_delete_ne.
Qed.

Lemma alter_entry (f : CAddrInfo -> CAddrInfo) id (m : gmap Z CAddrInfo) i : m !! id = Some i -> alter f id m = <[id := f i]> m.
Proof.
  intros Hi. apply map_eq. intros id'. rewrite lookup_insert. destruct (decide (id = id')) as [<-|].
  - by rewrite lookup_alter_eq, Hi.
  - by rewrite lookup_alter_ne.
Qed.

(** An entry changes in a way neither tables nor indexes see. *)
Lemma update_ok pend am id i f : am_ok pend am -> mapInfo am !! id = Some i -> same_place i (f i) ->
  nRandomPos (f i) = nRandomPos i -> 0 <= info_nLastTry (f i) -> 0 <= nLastSuccess (f i) ->
  am_ok pend (update_info id f am).
Proof.
  intros [HI HT Ht] Hi Hsame Hpos H1 H2. unfold update_info. rewrite (alter_entry _ _ _ i) by done. split; cbn.
  - apply (index_update _ _ _ _ HI id i); [done| |done]. destruct Hsame as [E _]. unfold info_ip, addr_ip, info_service in *. by rewrite E.
  - by apply (tables_update _ _ _ _ _ _ _ _ i).
  - apply map_Forall_insert_2; [by split|done].
Qed.

(** ** Exchanging positions *)

(** Entries but for their positions. *)
Definition moved (m m' : gmap Z CAddrInfo) : Prop := forall id, exists p, m' !! id = set_nRandomPos p <$> m !! id.

Lemma moved_refl m : moved m m.
Proof.
  intros id. destruct (m !! id) as [i|]; [|by exists 0]. exists (nRandomPos i). by destruct i.
Qed.

Lemma moved_Some m m' id j : moved m m' -> m' !! id = Some j -> exists i p, m !! id = Some i /\ j = set_nRandomPos p i.
Proof. intros Hm Hj. destruct (Hm id) as [p Hp]. rewrite Hj in Hp. destruct (m !! id) as [i|]; [|done]. injection Hp as ->. eauto. Qed.

Lemma moved_Some_r m m' id i : moved m m' -> m !! id = Some i -> exists p, m' !! id = Some (set_nRandomPos p i).
Proof. intros Hm Hi. destruct (Hm id) as [p Hp]. rewrite Hi in Hp. eauto. Qed.

Lemma moved_delete m m' id : (forall id', id' <> id -> exists p, m' !! id' = set_nRandomPos p <$> m !! id') -> moved (delete id m) (delete id m').
Proof.
  intros H id'. rewrite !lookup_delete. destruct (decide (id = id')) as [<-|]; [by exists 0|]. by apply H.
Qed.

Lemma moved_stay R `{!PreOrder R} (Hpos : forall i p, R i (set_nRandomPos p i)) gone m m' : moved m m' -> stay R gone m m'.
Proof. intros Hm id i Hi. right. destruct (moved_Some_r _ _ _ _ Hm Hi) as [p Hp]. eauto. Qed.

Lemma moved_count P m m' : (forall i p, P (set_nRandomPos p i) = P i) -> moved m m' -> count P m' = count P m.
Proof.
  intros HP Hm. unfold count. f_equal. rewrite <-!(size_dom (D := gset Z)). f_equal. apply set_eq. intros id.
  rewrite !elem_of_dom. split; intros [i Hi].
  - apply map_lookup_filter_Some in Hi as [Hi Ht]. destruct (moved_Some _ _ _ _ Hm Hi) as (j & p & Hj & ->).
    exists j. apply map_lookup_filter_Some. cbn in *. by rewrite HP in Ht.
  - apply map_lookup_filter_Some in Hi as [Hi Ht]. destruct (moved_Some_r _ _ _ _ Hm Hi) as [p Hj].
    eexists. apply map_lookup_filter_Some. split; [exact Hj|]. cbn in *. by rewrite HP.
Qed.

Lemma tables_moved key m m' vt vn nt nn pend : tables_ok key m vt vn nt nn pend -> moved m m' -> tables_ok key m' vt vn nt nn pend.
Proof.
  intros [] Hm.
  assert (forall id, is_Some (m !! id) -> is_Some (m' !! id)) as Hdom.
  { intros id [i Hi]. destruct (moved_Some_r _ _ _ _ Hm Hi) as [p Hp]. eauto. }
  split; auto.
  - intros b v id Hv Hid. destruct (to_tried b v id Hv Hid) as (i & Hi & Ht & Hb).
    destruct (moved_Some_r _ _ _ _ Hm Hi) as [p Hp]. eauto.
  - eauto.
  - intros id j Hj. destruct (moved_Some _ _ _ _ Hm Hj) as (i & p & Hi & ->). exact (to_entry id i Hi).
  - by rewrite (moved_count _ m).
  - by rewrite (moved_count _ m).
Qed.

Lemma moved_times m m' : map_Forall (fun _ i => 0 <= info_nLastTry i /\ 0 <= nLastSuccess i) m -> moved m m' ->
  map_Forall (fun _ i => 0 <= info_nLastTry i /\ 0 <= nLastSuccess i) m'.
Proof. intros H Hm id j Hj. destruct (moved_Some _ _ _ _ Hm Hj) as (i & p & Hi & ->). exact (H id i Hi). Qed.

Lemma SwapRandom_ok am p1 p2 : index_ok (mapInfo am) (mapAddr am) (vRandom am) (nIdCount am) ->
  0 <= p1 < zlen (vRandom am) -> 0 <= p2 < zlen (vRandom am) ->
  exists m v, SwapRandom p1 p2 am = Ok (set_vRandom v (set_mapInfo m am)) /\
    index_ok m (mapAddr am) v (nIdCount am) /\ moved (mapInfo am) m /\ zlen v = zlen (vRandom am) /\
    v !! Z.to_nat p2 = vRandom am !! Z.to_nat p1 /\ v !! Z.to_nat p1 = vRandom am !! Z.to_nat p2 /\
    (forall p, p <> Z.to_nat p1 -> p <> Z.to_nat p2 -> v !! p = vRandom am !! p).
Proof.
  intros HI H1 H2. unfold SwapRandom. destruct (Z.eqb_spec p1 p2) as [->|Hne].
  { exists (mapInfo am), (vRandom am). split_and!; try done; try (by destruct am); apply moved_refl. }
  assert ((0 <=? p1) = true) as -> by lia. assert ((0 <=? p2) = true) as -> by lia.
  destruct (lookup_lt_is_Some_2 (vRandom am) (Z.to_nat p1)) as [id1 E1]; [unfold zlen in *; lia|].
  destruct (lookup_lt_is_Some_2 (vRandom am) (Z.to_nat p2)) as [id2 E2]; [unfold zlen in *; lia|].
  rewrite E1, E2. destruct (io_random _ _ _ _ HI _ _ E1) as (i1 & Hi1 & Hp1), (io_random _ _ _ _ HI _ _ E2) as (i2 & Hi2 & Hp2).
  rewrite !bool_decide_true by eauto. cbn [assert_that mbind outcome_bind].
  assert (id1 <> id2) as Hid by (intros ->; assert (i1 = i2) as -> by congruence; lia).
  unfold update_info, set_mapInfo, set_vRandom. cbn. rewrite (alter_entry _ id1 _ i1) by done.
  rewrite (alter_entry _ id2 _ i2) by (by rewrite lookup_insert_ne). rewrite Z2Nat.id in Hp1, Hp2 by lia.
  eexists _, _. split; [done|]. split_and!.
  - pose proof (index_swap _ _ _ _ HI (Z.to_nat p1) (Z.to_nat p2) id1 id2 i1 i2) as HS.
    rewrite !Z2Nat.id in HS by lia. by apply HS.
  - intros id. rewrite !lookup_insert. destruct (decide (id2 = id)) as [<-|]; [exists p1; by rewrite Hi2|].
    destruct (decide (id1 = id)) as [<-|]; [exists p2; by rewrite Hi1|]. apply moved_refl.
  - unfold zlen. by rewrite !length_insert.
  - by rewrite list_lookup_insert_eq by (rewrite length_insert; by eapply lookup_lt_Some).
  - rewrite list_lookup_insert_ne by lia. by rewrite list_lookup_insert_eq by (by eapply lookup_lt_Some).
  - intros p Hq1 Hq2. by rewrite !list_lookup_insert_ne by done.
Qed.

(** ** Making room *)

(** An id leaves a bucket, with its entry if this was the last reference. *)
Lemma release_ok pend am b s id : am_ok pend am -> vvNew am !! b = Some s -> id ∈ s -> pend <> Some id ->
  exists am', release id am = Ok am' /\
    (let am'' := erase_from_new (Z.of_nat b) id am' in
     am_ok pend am'' /\ stay same_entry (fun x => x = id) (mapInfo am) (mapInfo am'') /\
     vvNew am'' = alter (fun s => s ∖ {[id]}) b (vvNew am) /\ nKey am'' = nKey am /\ nIdCount am'' = nIdCount am /\
     forall x i, mapInfo am !! x = Some i -> fInTried i = true -> x <> id).
Proof.
  intros HA Hb Hid Hp. pose proof HA as [HI HT Ht]. destruct (to_new _ _ _ _ _ _ _ HT b s id Hb Hid) as [i Hi].
  assert (fInTried i = false) as Hf.
  { pose proof (to_entry _ _ _ _ _ _ _ HT id i Hi) as He. unfold entry_ok in He. pose proof (refs_pos _ _ _ _ Hb Hid).
    destruct (fInTried i); [|done]. destruct He as (_ & _ & ? & _). lia. }
  assert (forall x j, mapInfo am !! x = Some j -> fInTried j = true -> x <> id) as Htried by (intros x j Hx Hj ->; congruence).
  unfold release. rewrite Hi. unfold update_info. rewrite (alter_entry _ _ _ i) by done.
  set (m1 := <[id := set_nRefCount (nRefCount i - 1) i]> (mapInfo am)).
  assert (index_ok m1 (mapAddr am) (vRandom am) (nIdCount am)) as HI1 by (by apply (index_update _ _ _ _ HI id i)).
  destruct (Z.eqb_spec (nRefCount i - 1) 0) as [E|E].
  - destruct (io_info _ _ _ _ HI id i Hi) as (_ & _ & Hpos & Hvr). apply lookup_lt_Some in Hvr as Hlt.
    change (vRandom (set_mapInfo m1 am)) with (vRandom am).
    destruct (SwapRandom_ok (set_mapInfo m1 am) (nRandomPos i) (zlen (vRandom am) - 1)) as (m2 & v & -> & HI2 & Hm & Hl & Hlast & _).
    { exact HI1. } { cbn. unfold zlen. lia. } { cbn. unfold zlen. lia. }
    cbn [mbind outcome_bind]. cbn in Hlast, Hl, Hm, HI2. cbn [vRandom set_vRandom].
    assert ((0 <? zlen v) = true) as -> by (unfold zlen in *; lia). cbn [assert_that mbind outcome_bind].
    eexists. split; [done|]. cbn.
    assert (m1 !! id = Some (set_nRefCount (nRefCount i - 1) i)) as Hm1 by apply lookup_insert_eq.
    destruct (moved_Some_r _ _ _ _ Hm Hm1) as [p Hm2].
    assert (moved (delete id (mapInfo am)) (delete id m2)) as Hmd.
    { apply moved_delete. intros x Hx. destruct (Hm x) as [q Hq]. exists q. rewrite Hq. subst m1. by rewrite lookup_insert_ne. }
    split_and!; try done.
    + split; cbn.
      * destruct (io_random _ _ _ _ HI2 (Z.to_nat (zlen (vRandom am) - 1)) id) as (i2 & Hi2 & Hp2); [by rewrite Hlast|].
        assert (i2 = set_nRandomPos p (set_nRefCount (nRefCount i - 1) i)) as -> by congruence.
        pose proof (index_delete_last _ _ _ _ HI2 id _ Hm2) as HD. apply HD. rewrite Hp2. unfold zlen in *. lia.
      * rewrite Nat2Z.id. apply (tables_moved _ (delete id (mapInfo am))); [|done].
        apply (tables_delete _ _ _ _ _ _ _ b s id i); try done. lia.
      * apply (moved_times (delete id (mapInfo am))); [|done]. by apply map_Forall_delete.
    + apply (stay_trans same_entry _ _ (delete id (mapInfo am))); [by apply stay_delete; [apply _|]|].
      apply moved_stay; [apply _|by intros|done].
    + by rewrite Nat2Z.id.
  - eexists. split; [done|]. cbn. rewrite Nat2Z.id. split_and!; try done.
    + split; cbn; [done| |].
      * rewrite Nat2Z.id. apply (tables_unref _ _ _ _ _ _ _ b s id i); try done. lia.
      * apply map_Forall_insert_2; [exact (Ht id i Hi)|done].
    + by apply (stay_update _ _ _ _ i).
Qed.

Lemma find_terrible_ok nNow m ids : Forall (fun id => is_Some (m !! id)) ids ->
  exists r, find_terrible nNow m ids = Ok r /\ match r with Some id => id ∈ ids | None => True end.
Proof.
  induction 1 as [|id ids [i Hi] _ (r & Hr & Hin)]; cbn; [by exists None|]. rewrite Hi.
  destruct (IsTerrible nNow i); [by exists (Some id); split; [|left]|].
  exists r. split; [done|]. destruct r; [by right|done].
Qed.

(** The oldest entry is one of those drawn. *)
Lemma find_oldest_ok m n ids nI nOldest : Forall (fun id => is_Some (m !! id) /\ id <> -1) ids ->
  (nOldest <> -1 -> is_Some (m !! nOldest)) -> (nOldest = -1 -> exists k, k ∈ n /\ nI <= k < nI + zlen ids) ->
  exists r, find_oldest m n ids nI nOldest = Ok r /\ (r ∈ ids \/ (r = nOldest /\ nOldest <> -1)).
Proof.
  intros H. revert nI nOldest. induction H as [|id ids [[i Hi] Hne] _ IH]; intros nI nOldest Hold Hk; cbn.
  - exists nOldest. split; [done|]. right. split; [done|]. intros E. destruct (Hk E) as (k & _ & ?). change (zlen []) with 0 in *. lia.
  - rewrite zlen_cons in Hk. case_bool_decide as Hin.
    + destruct (Z.eqb_spec nOldest (-1)) as [E|E].
      * destruct (IH (nI + 1) id) as (r & Hr & Hrin); [by eauto|done|]. exists r. split; [done|].
        destruct Hrin as [?|[-> _]]; [left; by right|left; left].
      * destruct (Hold E) as [o Ho]. rewrite Hi, Ho.
        destruct (IH (nI + 1) (if info_nTime i <? info_nTime o then id else nOldest)) as (r & Hr & Hrin).
        { intros _. destruct (_ <? _); eauto. } { destruct (_ <? _); done. }
        exists r. split; [done|]. destruct Hrin as [?|[-> Hn]]; [left; by right|].
        destruct (_ <? _); [left; left|by right].
    + destruct (IH (nI + 1) nOldest Hold) as (r & Hr & Hrin).
      { intros E. destruct (Hk E) as (k & Hkn & ?). exists k. split; [done|].
        destruct (decide (k = nI)) as [->|]; [done|lia]. }
      exists r. split; [done|]. destruct Hrin as [?|?]; [left; by right|by right].
Qed.

Lemma lookup_new_bucket am b s : vvNew am !! b = Some s -> new_bucket am (Z.of_nat b) = s.
Proof. intros H. unfold new_bucket. rewrite Nat2Z.id. by apply nth_lookup_Some. Qed.

(** A nonempty bucket whose ids are all known loses one. *)
Lemma ShrinkNew_ok rnd nNow pend am b s : random_ok rnd -> am_ok pend am -> vvNew am !! b = Some s -> s <> ∅ ->
  (forall id, pend = Some id -> id ∉ s) ->
  exists am' id, ShrinkNew rnd nNow (Z.of_nat b) am = Ok am' /\ am_ok pend am' /\ id ∈ s /\
    stay same_entry (fun x => x = id) (mapInfo am) (mapInfo am') /\
    vvNew am' = alter (fun s => s ∖ {[id]}) b (vvNew am) /\ nKey am' = nKey am /\ nIdCount am' = nIdCount am /\
    forall x i, mapInfo am !! x = Some i -> fInTried i = true -> x <> id.
Proof.
  intros Hrnd HA Hb Hs Hp. pose proof HA as [HI HT Ht]. pose proof (lookup_lt_Some _ _ _ Hb) as Hlt.
  unfold ShrinkNew. assert ((0 <=? Z.of_nat b) && (Z.of_nat b <? zlen (vvNew am)) = true) as -> by (unfold zlen; lia).
  cbn [assert_that mbind outcome_bind]. rewrite (lookup_new_bucket _ _ s) by done.
  assert (forall id, id ∈ set_order s -> is_Some (mapInfo am !! id) /\ id <> -1) as Hknown.
  { intros id Hid%elem_of_set_order. destruct (to_new _ _ _ _ _ _ _ HT b s id Hb Hid) as [i Hi]. split; [eauto|].
    destruct (io_info _ _ _ _ HI id i Hi) as [? _]. lia. }
  destruct (find_terrible_ok nNow (mapInfo am) (set_order s)) as (r & -> & Hr).
  { apply Forall_forall. intros id Hid. by apply Hknown. }
  cbn [mbind outcome_bind].
  assert (forall id, id ∈ s -> exists am', (am ← release id am; mret (erase_from_new (Z.of_nat b) id am)) = Ok am' /\ am_ok pend am' /\
    stay same_entry (fun x => x = id) (mapInfo am) (mapInfo am') /\ vvNew am' = alter (fun s => s ∖ {[id]}) b (vvNew am) /\
    nKey am' = nKey am /\ nIdCount am' = nIdCount am /\ forall x i, mapInfo am !! x = Some i -> fInTried i = true -> x <> id) as Hrel.
  { intros id Hid. destruct (release_ok pend am b s id HA Hb Hid) as (am' & -> & Hrest); [intros E; by apply (Hp id)|].
    eexists. split; [done|]. exact Hrest. }
  destruct r as [id|].
  - apply elem_of_set_order in Hr. destruct (Hrel id Hr) as (am' & -> & ? & ?). exists am', id. tauto.
  - set (n := Z.of_nat (size s)).
    assert (0 < n) as Hn by (pose proof (size_non_empty_iff s); set_solver by lia).
    destruct (find_oldest_ok (mapInfo am) [rnd 0%nat n; rnd 1%nat n; rnd 2%nat n; rnd 3%nat n] (set_order s) 0 (-1)) as (id & -> & Hid).
    { apply Forall_forall. exact Hknown. } { done. }
    { intros _. exists (rnd 0%nat n). split; [left|]. unfold zlen. rewrite length_set_order. fold n. apply Hrnd. lia. }
    destruct Hid as [Hid|[_ ?]]; [|done]. apply elem_of_set_order in Hid. cbn [mbind outcome_bind].
    destruct (Hrel id Hid) as (am' & -> & ? & ?). exists am', id. tauto.
Qed.

(** ** Choosing what to evict *)

Lemma insert_perm {A} (v : list A) j x y : v !! j = Some x -> x :: <[j := y]> v ≡ₚ y :: v.
Proof.
  revert j. induction v as [|z v IH]; intros [|j] H; try done; cbn in *.
  - injection H as ->. apply Permutation_swap.
  - rewrite Permutation_swap, IH by done. apply Permutation_swap.
Qed.

Lemma swap_perm {A} (v : list A) i j x y : (i <= j)%nat -> v !! i = Some y -> v !! j = Some x ->
  <[i := x]> (<[j := y]> v) ≡ₚ v.
Proof.
  revert i j. induction v as [|z v IH]; intros [|i] [|j] Hle Hi Hj; try done; cbn in *; [by simplify_eq|by simplify_eq; apply insert_perm|lia|].
  rewrite IH by (done || lia). done.
Qed.

Lemma select_loop_ok fuel rnd m i v nOldest nOldestPos : random_ok rnd ->
  Forall (fun id => is_Some (m !! id) /\ id <> -1) v ->
  (if decide (nOldest = -1) then (0 < fuel)%nat /\ (i < length v)%nat
   else is_Some (m !! nOldest) /\ 0 <= nOldestPos < zlen v) ->
  exists v' pos, select_loop fuel rnd m i v nOldest nOldestPos = Ok (v', pos) /\ v' ≡ₚ v /\ 0 <= pos < zlen v.
Proof.
  intros Hrnd. revert i v nOldest nOldestPos. induction fuel as [|fuel IH]; intros i v nOldest nOldestPos Hv Hold; cbn [select_loop].
  { case_decide; [lia|]. exists v, nOldestPos. by destruct Hold. }
  destruct (Nat.ltb_spec i (length v)) as [Hi|Hi].
  2: { case_decide; [lia|]. exists v, nOldestPos. by destruct Hold. }
  set (j := (Z.to_nat (rnd i (zlen v - Z.of_nat i)%Z) + i)%nat).
  assert (i <= j < length v)%nat as Hj.
  { subst j. pose proof (Hrnd i (zlen v - Z.of_nat i)) as H. unfold zlen in *. lia. }
  destruct (lookup_lt_is_Some_2 v j) as [x Hx]; [lia|]. destruct (lookup_lt_is_Some_2 v i) as [y Hy]; [lia|]. rewrite Hx, Hy.
  set (v1 := <[i := x]> (<[j := y]> v)). assert (v1 ≡ₚ v) as Hp by (apply swap_perm; [lia|done..]).
  assert (zlen v1 = zlen v) as Hl by (unfold zlen; by rewrite Hp).
  assert (Forall (fun id => is_Some (m !! id) /\ id <> -1) v1) as Hv1 by by rewrite Hp.
  destruct (Forall_lookup_1 _ _ _ _ Hv Hx) as [[ix Hix] Hne].
  assert (forall o p, is_Some (m !! o) -> 0 <= p < zlen v -> o <> -1 ->
    exists v' pos, select_loop fuel rnd m (S i) v1 o p = Ok (v', pos) /\ v' ≡ₚ v /\ 0 <= pos < zlen v) as Hrec.
  { intros o p Ho Hpp Hn. destruct (IH (S i) v1 o p Hv1) as (v' & pos & -> & Hp' & Hpos).
    - rewrite decide_False by done. by rewrite Hl.
    - exists v', pos. split_and!; [done|by etrans|lia|lia]. }
  assert (0 <= Z.of_nat j < zlen v) as Hjz by (unfold zlen; lia).
  destruct (Z.eqb_spec nOldest (-1)) as [E|E].
  - apply Hrec; eauto.
  - rewrite decide_False in Hold by done. destruct Hold as [[o Ho] Hpos]. rewrite Hix, Ho.
    destruct (nLastSuccess ix <? nLastSuccess o); apply Hrec; eauto.
Qed.

Lemma SelectTried_ok rnd am b v : random_ok rnd -> vvTried am !! b = Some v -> v <> [] ->
  Forall (fun id => is_Some (mapInfo am !! id) /\ id <> -1) v ->
  exists v' pos, SelectTried rnd (Z.of_nat b) am = Ok (pos, set_tried (nTried am) (<[b := v']> (vvTried am)) am) /\
    v' ≡ₚ v /\ 0 <= pos < zlen v.
Proof.
  intros Hrnd Hb Hne Hv. unfold SelectTried, tried_bucket. rewrite Nat2Z.id, (nth_lookup_Some _ _ _ _ Hb).
  destruct (select_loop_ok (Z.to_nat ADDRMAN_TRIED_ENTRIES_INSPECT_ON_EVICT) rnd (mapInfo am) 0 v (-1) (-1)) as (v' & pos & E & Hp & Hpos);
    [done|done| |].
  - rewrite decide_True by done. split; [vm_compute; lia|]. destruct v; [done|cbn; lia].
  - rewrite E. cbn [mbind outcome_bind]. exists v', pos. done.
Qed.

(** ** Moving an entry to the tried table *)

Lemma alter_bucket {A} (f : A -> A) b (l : list A) x : l !! b = Some x -> alter f b l = <[b := f x]> l.
Proof.
  intros H. pose proof (lookup_lt_Some _ _ _ H). apply list_eq. intros b'. destruct (decide (b = b')) as [<-|].
  - by rewrite list_lookup_alter_eq, H, list_lookup_insert_eq.
  - by rewrite list_lookup_alter_ne, list_lookup_insert_ne.
Qed.

Lemma lookup_tried_bucket am b v : vvTried am !! b = Some v -> tried_bucket am (Z.of_nat b) = v.
Proof. intros H. unfold tried_bucket. rewrite Nat2Z.id. by apply nth_lookup_Some. Qed.

Lemma delete_insert {A} (v : list A) pos x : delete pos (<[pos := x]> v) = delete pos v.
Proof. revert pos. induction v as [|z v IH]; intros [|pos]; cbn; [done..|]. f_equal. apply IH. Qed.

Lemma delete_insert_perm {A} (v : list A) pos x y : v !! pos = Some y -> delete pos v ++ [x] ≡ₚ <[pos := x]> v.
Proof.
  intros H. rewrite Permutation_app_comm. cbn. symmetry. rewrite (delete_Permutation (<[pos := x]> v) pos x).
  - by rewrite delete_insert.
  - apply list_lookup_insert_eq. by eapply lookup_lt_Some.
Qed.

(** The entry without its references. *)
Lemma erase_everywhere_eq am id i : addrman_ok am -> mapInfo am !! id = Some i -> fInTried i = false ->
  erase_everywhere id am = set_new (nNew am) (map (fun s => s ∖ {[id]}) (vvNew am)) (set_mapInfo (<[id := set_nRefCount 0 i]> (mapInfo am)) am).
Proof.
  intros [HI HT Ht] Hi Hf. pose proof (to_entry _ _ _ _ _ _ _ HT id i Hi) as He. unfold entry_ok in He. rewrite Hf in He.
  rewrite decide_False in He by done. unfold refs in He. unfold erase_everywhere, update_info.
  rewrite (alter_entry _ _ _ i) by done. by replace (nRefCount i - _) with 0 by lia.
Qed.

(** The case of a full bucket on the tables. *)
Lemma tables_replace key m vt vn nt nn v v' pos id i old io c s :
  tables_ok key m vt vn nt nn None -> m !! id = Some i -> fInTried i = false -> nLastSuccess i <> 0 ->
  let b := Z.to_nat (GetTriedBucket key i) in
  vt !! b = Some v -> v' ≡ₚ v -> v' !! pos = Some old -> m !! old = Some io ->
  map (fun s => s ∖ {[id]}) vn !! c = Some s -> (size s < 64)%nat ->
  old <> id /\
  tables_ok key (<[id := set_fInTried true (set_nRefCount 0 i)]> (<[old := set_nRefCount 1 (set_fInTried false io)]> m))
    (<[b := <[pos := id]> v']> vt) (alter (fun s => {[old]} ∪ s) c (map (fun s => s ∖ {[id]}) vn)) nt nn None.
Proof.
  intros HT Hi Hf Hl b Hv Hp Hold Hio Hc Hs. pose proof (lookup_lt_Some _ _ _ Hv) as Hlt.
  assert (old ∈ v) as Hin by (rewrite <-Hp; by eapply list_elem_of_lookup_2).
  destruct (to_tried _ _ _ _ _ _ _ HT b v old Hv Hin) as (io' & Hio' & Hot & _). assert (io' = io) as -> by congruence.
  assert (old <> id) as Hne by congruence. split; [done|].
  pose proof (to_entry _ _ _ _ _ _ _ HT old io Hio) as He. unfold entry_ok in He. rewrite Hot in He. destruct He as (_ & _ & Hr & _).
  assert (v ≡ₚ old :: delete pos v') as Hperm by (rewrite <-Hp; by apply delete_Permutation).
  pose proof (tables_evict key _ _ _ _ _ b v (delete pos v') old io HT Hv Hperm Hio) as T1.
  apply (tables_promote key _ _ _ _ _ _ (delete pos v') id i) in T1; try done.
  - fold b in T1. rewrite list_insert_insert_eq in T1.
    apply (tables_insert key _ _ _ _ _ c s old) in T1; try done.
    + replace (nt - 1 + 1) with nt in T1 by lia. replace (nn + 1 - 1) with nn in T1 by lia.
      rewrite <-(list_insert_insert_eq vt b (<[pos := id]> v') (delete pos v' ++ [id])).
      apply (tables_permute key _ _ _ _ _ _ b (delete pos v' ++ [id])); [done| |by eapply delete_insert_perm].
      by rewrite list_lookup_insert_eq.
    + intros Hos. apply list_lookup_fmap_Some in Hc as (s0 & -> & Hc). pose proof (refs_pos vn c s0 old Hc). set_solver by lia.
  - by rewrite lookup_insert_ne.
  - congruence.
  - fold b. by rewrite list_lookup_insert_eq.
  - destruct (to_vectors _ _ _ _ _ _ _ HT b v Hv) as [_ H64]. rewrite Hperm in H64. cbn in H64. lia.
Qed.

(** The ids of the tried buckets have entries. *)
Lemma tables_known am pend : am_ok pend am -> forall b v id, vvTried am !! b = Some v -> id ∈ v ->
  is_Some (mapInfo am !! id) /\ id <> -1.
Proof.
  intros [HI HT Ht] b v id Hv Hid. destruct (to_tried _ _ _ _ _ _ _ HT b v id Hv Hid) as (i & Hi & _). split; [eauto|].
  destruct (io_info _ _ _ _ HI id i Hi) as [? _]. lia.
Qed.

Lemma MakeTried_ok rnd am id i b s : random_ok rnd -> addrman_ok am -> vvNew am !! b = Some s -> id ∈ s ->
  mapInfo am !! id = Some i -> nLastSuccess i <> 0 ->
  exists am', MakeTried rnd id (Z.of_nat b) am = Ok am' /\ addrman_ok am' /\ nKey am' = nKey am /\
    stay same_peer (fun _ => False) (mapInfo am) (mapInfo am') /\
    exists j, mapInfo am' !! id = Some j /\ same_peer i j /\ fInTried j = true.
Proof.
  intros Hrnd HA Hb Hid Hi Hl. pose proof HA as [HI HT Ht].
  assert (fInTried i = false) as Hf.
  { pose proof (to_entry _ _ _ _ _ _ _ HT id i Hi) as He. unfold entry_ok in He. pose proof (refs_pos _ _ _ _ Hb Hid).
    destruct (fInTried i); [|done]. destruct He as (_ & _ & ? & _). lia. }
  unfold MakeTried. rewrite (lookup_new_bucket _ _ s), bool_decide_true by done. cbn [assert_that mbind outcome_bind].
  rewrite (erase_everywhere_eq am id i) by done.
  cbn [set_new set_mapInfo mapInfo nKey vvTried vvNew nNew nTried]. rewrite lookup_insert_eq.
  change (nRefCount (set_nRefCount 0 i) =? 0) with true. cbn [assert_that mbind outcome_bind].
  change (GetTriedBucket (nKey am) (set_nRefCount 0 i)) with (GetTriedBucket (nKey am) i).
  pose proof (tried_bucket_range (nKey am) i) as Hr. set (tb := GetTriedBucket (nKey am) i) in *.
  destruct (to_lengths _ _ _ _ _ _ _ HT) as [Lt Ln].
  destruct (lookup_lt_is_Some_2 (vvTried am) (Z.to_nat tb)) as [v Hv]; [lia|].
  unfold tried_bucket at 1. cbn [vvTried]. rewrite (nth_lookup_Some _ _ _ _ Hv).
  assert (forall x, info_ip (set_fInTried x (set_nRefCount 0 i)) = info_ip i) as Hip by done.
  destruct (Z.ltb_spec (zlen v) ADDRMAN_TRIED_BUCKET_SIZE) as [Hroom|Hfull].
  - eexists. split; [done|]. unfold update_info. cbn. rewrite (alter_entry _ _ _ (set_nRefCount 0 i)) by apply lookup_insert_eq.
    rewrite insert_insert_eq, (alter_bucket _ _ _ v) by done. split_and!; [split; cbn|done| |].
    + by apply (index_update _ _ _ _ HI id i).
    + apply (tables_promote (nKey am) _ _ _ _ _ _ v id i HT); try done. unfold ADDRMAN_TRIED_BUCKET_SIZE, zlen in Hroom. lia.
    + apply map_Forall_insert_2; [exact (Ht id i Hi)|done].
    + by apply (stay_update _ _ _ _ i).
    + eexists. split; [apply lookup_insert_eq|done].
  - match goal with |- context [SelectTried rnd tb ?a] => set (am1 := a) end.
    pose proof (tables_known am None HA) as Hknown.
    destruct (SelectTried_ok rnd am1 (Z.to_nat tb) v) as (v' & pos & E & Hp & Hpos); [done|done| | |].
    { intros ->. unfold ADDRMAN_TRIED_BUCKET_SIZE in Hfull. change (zlen []) with 0 in Hfull. lia. }
    { apply Forall_forall. intros x Hx. destruct (Hknown (Z.to_nat tb) v x Hv Hx) as [Hx1 Hx2]. split; [|done].
      cbn. rewrite lookup_insert. destruct (decide (id = x)); [eauto|done]. }
    rewrite Z2Nat.id in E by lia. rewrite E. cbn [mbind outcome_bind].
    pose proof (lookup_lt_Some _ _ _ Hv) as Hlt.
    set (am1' := set_tried _ _ am1). assert (tried_bucket am1' tb = v') as ->.
    { unfold tried_bucket. apply nth_lookup_Some. by apply list_lookup_insert_eq. }
    change (mapInfo am1') with (<[id := set_nRefCount 0 i]> (mapInfo am)). change (nKey am1') with (nKey am).
    assert (zlen v' = zlen v) as Hl' by (unfold zlen; by rewrite Hp).
    destruct (lookup_lt_is_Some_2 v' (Z.to_nat pos)) as [old Hold]; [unfold zlen in *; lia|]. rewrite Hold.
    assert (old ∈ v) as Hin by (rewrite <-Hp; by eapply list_elem_of_lookup_2).
    destruct (to_tried _ _ _ _ _ _ _ HT _ v old Hv Hin) as (io & Hio & Hot & _).
    assert (id <> old) as Hne by congruence. rewrite lookup_insert_ne, Hio by done.
    pose proof (new_bucket_range (nKey am) (info_source io) io) as Hc. set (c := GetNewBucket (nKey am) (info_source io) io) in *.
    set (vn1 := map (fun s => s ∖ {[id]}) (vvNew am)). assert (length vn1 = 256%nat) as Ln1 by by unfold vn1; rewrite length_map.
    set (am2 := update_info old _ am1'). change (new_bucket am2 c) with (nth (Z.to_nat c) vn1 ∅).
    destruct (lookup_lt_is_Some_2 vn1 (Z.to_nat c)) as [sc Hsc]; [lia|]. rewrite (nth_lookup_Some _ _ _ _ Hsc).
    assert (exists c' s', (if Z.of_nat (size sc) <? ADDRMAN_NEW_BUCKET_SIZE then insert_to_new c old am2 else insert_to_new (Z.of_nat b) old am2) =
      set_new (nNew am2) (alter (fun s => {[old]} ∪ s) c' vn1) am2 /\ vn1 !! c' = Some s' /\ (size s' < 64)%nat) as (c' & s' & -> & Hs' & Hsize).
    { destruct (Z.ltb_spec (Z.of_nat (size sc)) ADDRMAN_NEW_BUCKET_SIZE) as [Hlt'|_]; unfold ADDRMAN_NEW_BUCKET_SIZE in *.
      - exists (Z.to_nat c), sc. split_and!; [done|done|lia].
      - exists b, (s ∖ {[id]}). unfold insert_to_new. rewrite Nat2Z.id. split_and!; [done| |].
        + unfold vn1. rewrite list_lookup_fmap, Hb. done.
        + pose proof (to_sizes _ _ _ _ _ _ _ HT b s Hb). rewrite size_difference, size_singleton by set_solver.
          pose proof (size_non_empty_iff s). set_solver by lia. }
    destruct (tables_replace (nKey am) _ _ _ _ _ v v' (Z.to_nat pos) id i old io c' s' HT Hi Hf Hl Hv Hp Hold Hio Hs' Hsize) as [_ HT'].
    eexists. split; [done|]. unfold update_info. cbn.
    rewrite (alter_entry _ old _ io) by (by rewrite lookup_insert_ne).
    rewrite (alter_entry _ id _ (set_nRefCount 0 i)) by (rewrite lookup_insert_ne by done; apply lookup_insert_eq).
    rewrite (insert_insert_ne _ old id), insert_insert_eq by done. rewrite (insert_insert_ne _ id old), (insert_insert_ne _ old id) by done.
    rewrite (alter_bucket _ _ _ v') by (by rewrite list_lookup_insert_eq). rewrite list_insert_insert_eq. split_and!; [split; cbn|done| |].
    + assert (<[old := set_nRefCount 1 (set_fInTried false io)]> (mapInfo am) !! id = Some i) as Hi' by by rewrite lookup_insert_ne.
      pose proof (index_update _ _ _ _ HI old io (set_nRefCount 1 (set_fInTried false io)) Hio eq_refl eq_refl) as HI2.
      by apply (index_update _ _ _ _ HI2 id i).
    + by replace (nNew am - 1 + 1) with (nNew am) by lia.
    + apply map_Forall_insert_2; [exact (Ht id i Hi)|]. apply map_Forall_insert_2; [exact (Ht old io Hio)|done].
    + apply (stay_trans same_peer _ _ (<[old := set_nRefCount 1 (set_fInTried false io)]> (mapInfo am))).
      * by apply (stay_update _ _ _ _ io).
      * apply (stay_update _ _ _ _ i); [by rewrite lookup_insert_ne|done].
    + eexists. split; [apply lookup_insert_eq|done].
Qed.

(** ** The operations *)

Lemma Find_Some am a id i : index_ok (mapInfo am) (mapAddr am) (vRandom am) (nIdCount am) ->
  Find am a = Some (id, i) <-> mapInfo am !! id = Some i /\ info_ip i = a.
Proof.
  intros HI. unfold Find. split.
  - destruct (mapAddr am !! a) as [x|] eqn:Ha; [|done]. destruct (io_addr _ _ _ _ HI a x Ha) as (j & Hj & <-).
    rewrite Hj. by intros [= <- <-].
  - intros [Hi <-]. destruct (io_info _ _ _ _ HI id i Hi) as (_ & -> & _). by rewrite Hi.
Qed.

Lemma Find_None am a : index_ok (mapInfo am) (mapAddr am) (vRandom am) (nIdCount am) ->
  Find am a = None -> mapAddr am !! a = None.
Proof.
  intros HI. unfold Find. destruct (mapAddr am !! a) as [x|] eqn:Ha; [|done].
  destruct (io_addr _ _ _ _ HI a x Ha) as (j & -> & _). done.
Qed.

(** The search starts at the random bucket and goes around. *)
Lemma bucket_of_found nRnd id (vn : list (gset Z)) b s : vn !! b = Some s -> id ∈ s ->
  exists b' s', bucket_of nRnd id vn = Z.of_nat b' /\ vn !! b' = Some s' /\ id ∈ s'.
Proof.
  intros Hb Hid. pose proof (lookup_lt_Some _ _ _ Hb) as Hlt. unfold bucket_of. set (n := zlen vn).
  assert (0 < n /\ Z.of_nat b < n) as [Hn Hbn] by (unfold n, zlen; lia).
  destruct (list_find _ _) as [[k nB]|] eqn:E.
  - apply list_find_Some in E as (Hk & Hin & _). apply list_lookup_fmap_Some in Hk as (x & -> & _).
    pose proof (Z.mod_pos_bound (x + nRnd) n Hn). set (nB := (x + nRnd) mod n) in *. exists (Z.to_nat nB).
    destruct (lookup_lt_is_Some_2 vn (Z.to_nat nB)) as [s' Hs']; [unfold n, zlen in *; lia|].
    exists s'. rewrite Z2Nat.id by lia. split_and!; [done..|]. by rewrite (nth_lookup_Some _ _ _ _ Hs') in Hin.
  - exfalso. apply list_find_None in E. rewrite Forall_forall in E.
    assert (Z.of_nat b ∈ map (fun k => (k + nRnd) mod n) (seqZ 0 n)) as Hin.
    { apply list_elem_of_fmap. exists ((Z.of_nat b - nRnd) mod n). split.
      - rewrite Z.add_mod_idemp_l by lia. replace (Z.of_nat b - nRnd + nRnd) with (Z.of_nat b) by lia. by rewrite Z.mod_small by lia.
      - apply elem_of_seqZ. pose proof (Z.mod_pos_bound (Z.of_nat b - nRnd) n Hn). lia. }
    apply (E _ Hin). rewrite Nat2Z.id. by rewrite (nth_lookup_Some _ _ _ _ Hb).
Qed.

(** An entry that is not tried is in a new bucket. *)
Lemma untried_bucket am id i : addrman_ok am -> mapInfo am !! id = Some i -> fInTried i = false ->
  exists b s, vvNew am !! b = Some s /\ id ∈ s.
Proof.
  intros [HI HT Ht] Hi Hf. pose proof (to_entry _ _ _ _ _ _ _ HT id i Hi) as He. unfold entry_ok in He. rewrite Hf in He.
  rewrite decide_False in He by done. apply refs_exists. lia.
Qed.

Lemma Good_ok rnd addr nTime am : random_ok rnd -> addrman_ok am -> 0 < nTime ->
  exists am', Good_ rnd addr nTime am = Ok am' /\ addrman_ok am' /\
    stay same_peer (fun _ => False) (mapInfo am) (mapInfo am') /\
    forall id i, Find am (svc_ip addr) = Some (id, i) -> info_service i = addr ->
      exists j, mapInfo am' !! id = Some j /\ same_peer i j /\ fInTried j = true.
Proof.
  intros Hrnd HA Hpos. pose proof (ok_index _ _ HA) as HI. unfold Good_.
  destruct (Find am (svc_ip addr)) as [[id i]|] eqn:EF; [|exists am; split_and!; [done..|by apply stay_refl; apply _|done]].
  apply Find_Some in EF as [Hi Hip]; [|done].
  case_bool_decide as Hs; cbn [negb].
  2: { exists am. split_and!; [done..|by apply stay_refl; apply _|]. by intros id' i' [= <- <-] ?. }
  set (f := fun i => AddrInfo (Addr (info_service i) (a_nServices (info_addr i)) (to_u32 nTime) nTime) (info_source i)
          nTime 0 (nRefCount i) (fInTried i) (nRandomPos i)).
  assert (am_ok None (update_info id f am)) as HA1.
  { apply (update_ok _ _ _ i); try done; [|unfold f; cbn; lia..].
    unfold same_place, f. cbn. split_and!; [done..|lia]. }
  assert (mapInfo (update_info id f am) = <[id := f i]> (mapInfo am)) as Em by by apply alter_entry.
  assert (stay same_peer (fun _ => False) (mapInfo am) (mapInfo (update_info id f am))) as Hstay.
  { rewrite Em. by apply (stay_update _ _ _ _ i). }
  destruct (fInTried i) eqn:Ht.
  - eexists. split_and!; [done..|]. intros id' i' [= <- <-] _. exists (f i). rewrite Em, lookup_insert_eq. done.
  - assert (mapInfo (update_info id f am) !! id = Some (f i)) as Hfi by (rewrite Em; apply lookup_insert_eq).
    destruct (untried_bucket _ id (f i) HA1 Hfi Ht) as (b & s & Hb & Hid).
    destruct (bucket_of_found (rnd 0%nat (zlen (vvNew (update_info id f am)))) id _ b s Hb Hid) as (b' & s' & -> & Hb' & Hid').
    assert ((Z.of_nat b' =? -1) = false) as -> by (apply Z.eqb_neq; clear; lia).
    destruct (MakeTried_ok (fun k => rnd (S k)) _ id (f i) b' s' (random_ok_S _ Hrnd) HA1 Hb' Hid' Hfi) as (am' & -> & HA' & _ & Hst & j & Hj & Hp & Hjt);
      [cbn; lia|].
    exists am'. split_and!; [done|done|by apply (stay_trans same_peer _ _ (mapInfo (update_info id f am)))|].
    intros id' i' [= <- <-] _. exists j. done.
Qed.

Lemma stay_weaken R (P Q : Z -> Prop) m m' : (forall x, P x -> Q x) -> stay R P m m' -> stay R Q m m'.
Proof. intros H HS id i Hi. destruct (HS id i Hi) as [?|?]; [left; auto|by right]. Qed.

(** An entry that may be dropped: another one, and not a tried one. *)
Definition droppable (id : Z) (m : gmap Z CAddrInfo) (victim : option Z) : Prop :=
  victim <> Some id /\ forall x j, m !! x = Some j -> fInTried j = true -> victim <> Some x.

(** The owed reference goes into a bucket, which makes room if it is full. *)
Lemma put_ok rnd nNow id am b s : random_ok rnd -> am_ok (Some id) am -> vvNew am !! b = Some s -> id ∉ s ->
  exists am', (am ← (if Z.of_nat (size (new_bucket am (Z.of_nat b))) =? ADDRMAN_NEW_BUCKET_SIZE
                     then ShrinkNew rnd nNow (Z.of_nat b) am else mret am);
               mret (insert_to_new (Z.of_nat b) id am)) = Ok am' /\
    addrman_ok am' /\ exists victim, droppable id (mapInfo am) victim /\
      stay same_entry (fun x => victim = Some x) (mapInfo am) (mapInfo am').
Proof.
  intros Hrnd HA Hb Hid. rewrite (lookup_new_bucket _ _ s) by done.
  assert (forall am1 s1, am_ok (Some id) am1 -> vvNew am1 !! b = Some s1 -> id ∉ s1 -> (size s1 < 64)%nat ->
    addrman_ok (insert_to_new (Z.of_nat b) id am1)) as Hins.
  { intros am1 s1 [HI HT Ht] Hb1 Hid1 Hlt. split; [exact HI| |exact Ht]. cbn. rewrite Nat2Z.id. by apply (tables_insert _ _ _ _ _ _ _ s1). }
  destruct (Z.eqb_spec (Z.of_nat (size s)) ADDRMAN_NEW_BUCKET_SIZE) as [E|E].
  - unfold ADDRMAN_NEW_BUCKET_SIZE in E.
    destruct (ShrinkNew_ok rnd nNow (Some id) am b s Hrnd HA Hb) as (am1 & x & -> & HA1 & Hx & Hst & Hvn & _ & _ & Hno).
    { intros ->. rewrite size_empty in E. done. } { by intros id' [= <-]. }
    eexists. split; [done|]. split.
    + apply (Hins am1 (s ∖ {[x]})); [done| | |].
      * by rewrite Hvn, list_lookup_alter_eq, Hb.
      * set_solver.
      * rewrite size_difference, size_singleton by set_solver. lia.
    + exists (Some x). split; [split; [congruence|]|].
      * intros y j Hy Hj [= ->]. by apply (Hno y j).
      * apply (stay_weaken _ (fun y => y = x)); [congruence|]. exact Hst.
  - eexists. split; [done|]. split.
    + apply (Hins am s); try done. pose proof (to_sizes _ _ _ _ _ _ _ (ok_tables _ _ HA) b s Hb). unfold ADDRMAN_NEW_BUCKET_SIZE in E. lia.
    + exists None. split; [done|]. cbn. apply stay_refl. apply _.
Qed.

(** [add_to_bucket], for an entry that may get a reference. *)
Lemma add_to_bucket_ok rnd nNow id source am i : random_ok rnd -> mapInfo am !! id = Some i -> length (vvNew am) = 256%nat ->
  addrman_ok am \/ (forall b s, vvNew am !! b = Some s -> id ∉ s) ->
  am_ok (Some id) (update_info id (fun i => set_nRefCount (nRefCount i + 1) i) am) ->
  exists am', add_to_bucket rnd nNow id source am = Ok am' /\ addrman_ok am' /\
    exists victim, droppable id (mapInfo am) victim /\ stay same_entry (fun x => victim = Some x) (mapInfo am) (mapInfo am').
Proof.
  intros Hrnd Hi Hlen Hor Hpend. unfold add_to_bucket. rewrite Hi.
  pose proof (new_bucket_range (nKey am) source i) as Hb. set (b := GetNewBucket (nKey am) source i) in *.
  destruct (lookup_lt_is_Some_2 (vvNew am) (Z.to_nat b)) as [s Hs]; [lia|].
  replace b with (Z.of_nat (Z.to_nat b)) by lia. rewrite (lookup_new_bucket _ _ s) by done. case_bool_decide as Hin.
  - destruct Hor as [HA|Hno]; [|by destruct (Hno _ _ Hs)]. exists am. split_and!; [done|done|].
    exists None. split; [done|]. apply stay_refl. apply _.
  - destruct (put_ok rnd nNow id _ (Z.to_nat b) s Hrnd Hpend Hs Hin) as (am' & HE & HA' & victim & [Hd1 Hd2] & Hst).
    exists am'. split; [exact HE|]. split; [done|]. unfold update_info in *. cbn in Hd2, Hst. rewrite (alter_entry _ _ _ i) in Hd2, Hst by done.
    exists victim. split.
    + split; [done|]. intros x j Hx Hj. destruct (decide (x = id)) as [->|]; [done|].
      apply (Hd2 x j); [|done]. by rewrite lookup_insert_ne.
    + apply (stay_trans same_entry _ _ _ _) with (2 := Hst). by apply (stay_update _ _ _ _ i).
Qed.

(** What adding an address promises. *)
Definition added (a : CNetAddr) (am am' : CAddrMan) : Prop :=
  addrman_ok am' /\ is_Some (Find am' a) /\
  exists victim, (forall x j, mapInfo am !! x = Some j -> fInTried j = true -> victim <> Some x) /\
    stay same_entry (fun x => victim = Some x) (mapInfo am) (mapInfo am').

Lemma stay_Find (gone : Z -> Prop) am am' id i : addrman_ok am' -> stay same_entry gone (mapInfo am) (mapInfo am') ->
  mapInfo am !! id = Some i -> ~ gone id -> is_Some (Find am' (info_ip i)).
Proof.
  intros HA Hst Hi Hg. destruct (Hst id i Hi) as [?|(j & Hj & [Hs _] & _)]; [done|]. exists (id, j).
  apply Find_Some; [by eapply ok_index|]. split; [done|]. unfold info_ip, addr_ip, info_service in *. by rewrite Hs.
Qed.

(** A known address. *)
Lemma Add_known rnd nNow source am id i j : random_ok rnd -> addrman_ok am -> mapInfo am !! id = Some i ->
  same_place i j -> info_source j = info_source i -> nRandomPos j = nRandomPos i -> info_nLastTry j = info_nLastTry i -> nLastSuccess j = nLastSuccess i ->
  let am1 := update_info id (fun _ => j) am in
  added (info_ip i) am am1 /\
  (fInTried j = false -> nRefCount j <> 8 ->
   exists am', add_to_bucket rnd nNow id source am1 = Ok am' /\ added (info_ip i) am am').
Proof.
  intros Hrnd HA Hi Hsame Hsrc Hpos Hlt Hls am1. pose proof HA as [HI HT Ht]. destruct (Ht id i Hi) as [Ht1 Ht2].
  assert (addrman_ok am1) as HA1 by (apply (update_ok _ _ _ i); [done|done|done|done|lia|lia]).
  assert (mapInfo am1 = <[id := j]> (mapInfo am)) as Em by exact (alter_entry (fun _ => j) id (mapInfo am) i Hi).
  assert (same_entry i j) as Hse by (destruct Hsame as (? & ? & _); split; [split|]; congruence).
  assert (stay same_entry (fun _ => False) (mapInfo am) (mapInfo am1)) as Hst by (rewrite Em; by apply (stay_update _ _ _ _ i)).
  split.
  - split; [done|]. split; [exact (stay_Find (fun _ => False) am _ id i HA1 Hst Hi (fun H => H))|]. exists None. split; [done|]. by apply (stay_weaken _ (fun _ => False)).
  - intros Hf H8. assert (mapInfo am1 !! id = Some j) as Hj by (rewrite Em; apply lookup_insert_eq).
    pose proof HA1 as [HI1 HT1 Ht1'].
    destruct (add_to_bucket_ok rnd nNow id source am1 j Hrnd Hj) as (am' & HE & HA' & victim & [Hd1 Hd2] & Hst').
    + by destruct (to_lengths _ _ _ _ _ _ _ HT1).
    + by left.
    + unfold update_info. rewrite (alter_entry _ _ _ j) by done. split; cbn.
      * by apply (index_update _ _ _ _ HI1 id j).
      * by apply tables_begin.
      * apply map_Forall_insert_2; [exact (Ht1' id j Hj)|done].
    + exists am'. split; [done|]. split; [done|].
      assert (stay same_entry (fun x => victim = Some x) (mapInfo am) (mapInfo am')) as Hst2.
      { apply (stay_trans _ _ _ (mapInfo am1)); [|done]. by apply (stay_weaken _ (fun _ => False)). }
      split; [by apply (stay_Find (fun x => victim = Some x) am _ id)|]. exists victim. split; [|done]. intros x y Hx Hy.
      destruct (Hst x y Hx) as [[]|(z & Hz & _ & Hf')]. apply (Hd2 x z Hz). congruence.
Qed.

(** A new address. *)
Lemma Add_new rnd nNow addr source am t : random_ok rnd -> addrman_ok am -> Find am (addr_ip addr) = None ->
  0 <= nIdCount am < 2 ^ 31 - 1 ->
  let '(nId, am1) := Create am addr source in
  let am2 := update_info nId (fun i => set_addr (with_nTime (t i) (info_addr i)) i) am1 in
  let am3 := set_new (nNew am2 + 1) (vvNew am2) am2 in
  exists am', add_to_bucket rnd nNow nId source am3 = Ok am' /\ added (addr_ip addr) am am'.
Proof.
  intros Hrnd HA HF Hid. pose proof HA as [HI HT Ht]. apply Find_None in HF; [|done]. unfold Create.
  set (id := nIdCount am) in *. set (i0 := set_nRandomPos (zlen (vRandom am)) (CAddrInfo_new addr source)).
  set (i1 := set_addr (with_nTime (t i0) (info_addr i0)) i0).
  assert (mapInfo am !! id = None) as Hfresh.
  { destruct (mapInfo am !! id) as [x|] eqn:E; [|done]. destruct (io_info _ _ _ _ HI id x E) as [? _]. subst id. lia. }
  match goal with |- context [add_to_bucket rnd nNow id source ?a] => set (am3 := a) end. assert (mapInfo am3 = <[id := i1]> (mapInfo am)) as Em.
  { subst am3. cbn. rewrite (alter_entry _ _ _ i0) by apply lookup_insert_eq. by rewrite insert_insert_eq. }
  assert (mapInfo am3 !! id = Some i1) as Hi1 by (rewrite Em; apply lookup_insert_eq).
  assert (to_i32 (id + 1) = id + 1) as Hwrap by (unfold to_i32; rewrite Z.mod_small by lia; lia).
  destruct (add_to_bucket_ok rnd nNow id source am3 i1 Hrnd Hi1) as (am' & HE & HA' & victim & [Hd1 Hd2] & Hst).
  - by destruct (to_lengths _ _ _ _ _ _ _ HT).
  - right. intros b s Hb Hin. destruct (to_new _ _ _ _ _ _ _ HT b s id Hb Hin) as [x Hx]. congruence.
  - unfold update_info. rewrite (alter_entry _ _ _ i1) by done. rewrite Em, insert_insert_eq. split; cbn.
    + fold id. rewrite Hwrap. apply (index_create _ _ _ _ HI); [done|done|lia|done].
    + by apply tables_create.
    + apply map_Forall_insert_2; [|done]. cbn. lia.
  - exists am'. split; [done|]. rewrite Em in Hst, Hd2.
    assert (stay same_entry (fun x => victim = Some x) (mapInfo am) (mapInfo am')) as Hst2.
    { intros x y Hx. apply Hst. rewrite lookup_insert_ne; [done|]. intros ->. congruence. }
    split; [done|]. split.
    + destruct (Hst id i1) as [?|(j & Hj & [Hs _] & _)]; [apply lookup_insert_eq|done|].
      exists (id, j). apply Find_Some; [exact (ok_index _ _ HA')|]. split; [done|]. unfold info_ip, addr_ip, info_service in *. by rewrite Hs.
    + exists victim. split; [|done]. intros x y Hx Hy. apply (Hd2 x y); [|done].
      rewrite lookup_insert_ne; [done|]. intros ->. congruence.
Qed.

Lemma Add_ok rnd addr source nTimePenalty nNow am : random_ok rnd -> addrman_ok am -> 0 <= nIdCount am < 2 ^ 31 - 1 ->
  exists r am', Add_ rnd addr source nTimePenalty nNow am = Ok (r, am') /\
    r = IsRoutable (addr_ip addr) && bool_decide (Find am (addr_ip addr) = None) /\
    if IsRoutable (addr_ip addr) then added (addr_ip addr) am am' else am' = am.
Proof.
  intros Hrnd HA Hid. pose proof HA as [HI HT Ht]. unfold Add_.
  destruct (IsRoutable (addr_ip addr)) eqn:Hr; cbn [negb]; [|by exists false, am].
  destruct (Find am (addr_ip addr)) as [[id i]|] eqn:EF; rewrite ?andb_true_l.
  - rewrite bool_decide_false by done. pose proof EF as EF'. apply Find_Some in EF' as [Hi <-]; [|done].
    set (j := refresh addr nTimePenalty nNow i).
    destruct (Add_known (fun k => rnd (S k)) nNow source am id i j (random_ok_S _ Hrnd) HA Hi) as [H1 H2].
    1-5: by unfold j, refresh; cbn; repeat case_match.
    destruct (_ || _)%bool; [by eexists _, _|]. destruct (fInTried j) eqn:Hf; [by eexists _, _|].
    destruct (Z.eqb_spec (nRefCount j) ADDRMAN_NEW_BUCKETS_PER_ADDRESS) as [|H8]; [by eexists _, _|].
    destruct (_ && _)%bool; [by eexists _, _|].
    destruct (H2 eq_refl H8) as (am' & -> & Hadd). by eexists _, _.
  - rewrite bool_decide_true by done.
    pose proof (Add_new (fun k => rnd (S k)) nNow addr source am (fun i => Z.max 0 (info_nTime i - nTimePenalty)) (random_ok_S _ Hrnd) HA EF Hid) as H.
    destruct (Create am addr source) as [nId am1]. destruct H as (am' & -> & Hadd). by eexists _, _.
Qed.
End props.

(** * The address manager passes its own check

    The remaining operations on consistent tables, [Check_] (the debugging
    check of [addrman.cpp], which finds nothing in them), and the property
    over all of them. *)

Section props.
Context {SH : ScriptHashes}.

Lemma new_ok key : addrman_ok (CAddrMan_new key).
Proof.
  split; [split|split|]; cbn -[replicate]; try done.
  - intros b v id Hv. apply lookup_replicate in Hv as [-> _]. intros H. by apply elem_of_nil in H.
  - intros b v Hv. apply lookup_replicate in Hv as [-> _]. split; [constructor|cbn; lia].
  - intros b s Hs. apply lookup_replicate in Hs as [-> _]. rewrite size_empty. lia.
  - intros b s id Hs. apply lookup_replicate in Hs as [-> _]. set_solver.
Qed.

(** ** Entries found by their address *)

Lemma Attempt_ok addr nTime am : addrman_ok am -> 0 <= nTime ->
  addrman_ok (Attempt_ addr nTime am) /\ stay same_entry (fun _ => False) (mapInfo am) (mapInfo (Attempt_ addr nTime am)).
Proof.
  intros HA Hn. unfold Attempt_. destruct (Find am (svc_ip addr)) as [[id i]|] eqn:EF; [|by split; [|apply stay_refl; apply _]].
  apply Find_Some in EF as [Hi _]; [|by apply ok_index in HA]. case_bool_decide; cbn [negb]; [|by split; [|apply stay_refl; apply _]].
  split.
  - by apply (update_ok _ _ _ i); try done; apply (ok_times _ _ HA id i Hi).
  - unfold update_info. cbn. rewrite (alter_entry _ _ _ i) by done. by apply (stay_update _ _ _ _ i).
Qed.

Lemma Connected_ok addr nTime am : addrman_ok am ->
  addrman_ok (Connected_ addr nTime am) /\ stay same_entry (fun _ => False) (mapInfo am) (mapInfo (Connected_ addr nTime am)).
Proof.
  intros HA. unfold Connected_. destruct (Find am (svc_ip addr)) as [[id i]|] eqn:EF; [|by split; [|apply stay_refl; apply _]].
  apply Find_Some in EF as [Hi _]; [|by apply ok_index in HA]. case_bool_decide; cbn [negb]; [|by split; [|apply stay_refl; apply _]].
  case_match; [|by split; [|apply stay_refl; apply _]]. split.
  - by apply (update_ok _ _ _ i); try done; apply (ok_times _ _ HA id i Hi).
  - unfold update_info. cbn. rewrite (alter_entry _ _ _ i) by done. by apply (stay_update _ _ _ _ i).
Qed.

(** ** Drawing addresses *)

(** The loop of [GetAddr_] fixes one more position of [vRandom] per round. *)
Lemma getaddr_loop_ok fuel rnd n am vAddr : random_ok rnd -> addrman_ok am -> 0 <= n -> n + Z.of_nat fuel <= zlen (vRandom am) ->
  exists am' l, getaddr_loop fuel rnd n am vAddr = Ok (am', vAddr ++ l) /\ addrman_ok am' /\ length l = fuel /\
    moved (mapInfo am) (mapInfo am') /\ (forall p, (p < Z.to_nat n)%nat -> vRandom am' !! p = vRandom am !! p) /\
    forall k a, l !! k = Some a -> exists id i, vRandom am' !! (Z.to_nat n + k)%nat = Some id /\ mapInfo am' !! id = Some i /\ info_addr i = a.
Proof.
  intros Hrnd. revert n am vAddr. induction fuel as [|fuel IH]; intros n am vAddr HA Hn Hlen; cbn [getaddr_loop].
  { exists am, []. rewrite app_nil_r. split_and!; [done..|apply moved_refl|done|]. intros k a Hk. by rewrite lookup_nil in Hk. }
  pose proof (Hrnd (Z.to_nat n) (zlen (vRandom am) - n)) as Hr. set (q := rnd _ _ + n).
  destruct (SwapRandom_ok am n q (ok_index _ _ HA)) as (m & v & -> & HI & Hm & Hlv & _ & Hv & Hrest); [lia|lia|].
  cbn [mbind outcome_bind]. set (am1 := set_vRandom v (set_mapInfo m am)).
  assert (addrman_ok am1) as HA1.
  { split; [exact HI|by apply (tables_moved _ _ _ _ _ _ _ _ (ok_tables _ _ HA))|by apply (moved_times _ _ (ok_times _ _ HA))]. }
  destruct (lookup_lt_is_Some_2 v (Z.to_nat n)) as [id Hid]; [unfold zlen in *; lia|].
  destruct (io_random _ _ _ _ HI _ _ Hid) as (i & Hi & _). change (vRandom am1) with v. rewrite Hid.
  cbn [mbind option_bind]. change (mapInfo am1) with m. rewrite Hi.
  destruct (IH (n + 1) am1 (vAddr ++ [info_addr i]) HA1) as (am' & l & -> & HA' & Hl & Hm' & Hfix & Hall); [lia|cbn; lia|].
  replace (Z.to_nat (n + 1)) with (S (Z.to_nat n)) in * by lia.
  exists am', (info_addr i :: l). rewrite <-app_assoc. split_and!; [done|done|by cbn; rewrite Hl| | |].
  - intros id'. destruct (Hm' id') as [p Hp], (Hm id') as [p' Hp']. exists p. rewrite Hp. change (mapInfo am1) with m. rewrite Hp'.
    by destruct (mapInfo am !! id').
  - intros p Hp. rewrite Hfix by lia. apply Hrest; unfold q; lia.
  - intros [|k] a Hk.
    + injection Hk as <-. rewrite Nat.add_0_r. destruct (moved_Some_r _ _ id i Hm' Hi) as [p Hp]. exists id, (set_nRandomPos p i).
      split_and!; [|done|done]. by rewrite Hfix by lia.
    + destruct (Hall k a Hk) as (id' & i' & H1 & H2). exists id', i'. by rewrite <-Nat.add_succ_comm.
Qed.

(** The addresses are known ones, each once. *)
Lemma GetAddr_ok rnd am : random_ok rnd -> addrman_ok am ->
  exists am' l, GetAddr_ rnd am = Ok (am', l) /\ addrman_ok am' /\ moved (mapInfo am) (mapInfo am') /\
    zlen l = Z.min 2500 (23 * zlen (vRandom am) / 100) /\
    NoDup (map addr_ip l) /\ Forall (fun a => exists id i, mapInfo am !! id = Some i /\ info_addr i = a) l.
Proof.
  intros Hrnd HA. unfold GetAddr_, ADDRMAN_GETADDR_MAX, ADDRMAN_GETADDR_MAX_PCT.
  set (N := if 2500 <? _ then _ else _). assert (N = Z.min 2500 (23 * zlen (vRandom am) / 100)) as EN by (subst N; case_match; lia).
  assert (0 <= 23 * zlen (vRandom am) / 100 <= zlen (vRandom am)) as Hle by (unfold zlen; split; [apply Z.div_pos; lia|apply Z.div_le_upper_bound; lia]).
  destruct (getaddr_loop_ok (Z.to_nat N) rnd 0 am [] Hrnd HA) as (am' & l & -> & HA' & Hl & Hm & _ & Hall); [lia|lia|].
  exists am', l. split_and!; [done|done|done| | |].
  { change (zlen l) with (Z.of_nat (length l)). rewrite Hl, <-EN. lia. }
  - apply NoDup_alt. intros p q a Hp Hq. apply list_lookup_fmap_Some in Hp as (x & -> & Hp). apply list_lookup_fmap_Some in Hq as (y & Ea & Hq).
    destruct (Hall p x Hp) as (id & i & Hv & Hi & Ei), (Hall q y Hq) as (id' & i' & Hv' & Hi' & Ei').
    destruct (ok_index _ _ HA') as [Hinfo _ _]. destruct (Hinfo id i Hi) as (_ & Ha & _), (Hinfo id' i' Hi') as (_ & Ha' & _).
    unfold info_ip in Ha, Ha'. rewrite Ei in Ha. rewrite Ei' in Ha'. assert (id = id') as <- by congruence.
    pose proof (index_NoDup _ _ _ _ (ok_index _ _ HA')) as Hnd. rewrite NoDup_alt in Hnd. by apply (Hnd _ _ id).
  - apply Forall_forall. intros a [k Hk]%list_elem_of_lookup. destruct (Hall k a Hk) as (id & j & _ & Hj & <-).
    destruct (moved_Some _ _ _ _ Hm Hj) as (i & p & Hi & ->). by exists id, i.
Qed.

(** The draw of [Select_] never fails, returns an entry of its table, and
    ends with the first round whose bucket has entries and whose entry is
    accepted. *)
Lemma draw_ok fuel rnd k table m accept : random_ok rnd -> Forall (Forall (fun id => is_Some (m !! id))) table ->
  exists r, draw fuel rnd k table m accept = Ok r /\
    (forall i, r = Some i -> exists id, id ∈ concat table /\ m !! id = Some i) /\
    (forall n, (k <= n < k + fuel)%nat -> (forall i, accept n i = true) ->
      nth (Z.to_nat (rnd (2 * n)%nat (zlen table))) table [] <> [] -> is_Some r).
Proof.
  intros Hrnd Ht. revert k. induction fuel as [|fuel IH]; intros k; cbn [draw].
  { exists None. split_and!; [done|done|lia]. }
  set (b := nth _ table []). destruct (Z.eqb_spec (zlen b) 0) as [E|E].
  - assert (b = []) as Eb by (destruct b; [done|unfold zlen in E; cbn in E; lia]).
    destruct (IH (S k)) as (r & -> & H1 & H2). exists r. split_and!; [done|done|]. intros n Hn Ha Hb.
    apply (H2 n); [|done|done]. destruct (decide (n = k)) as [->|]; [by fold b in Hb|lia].
  - assert (0 < zlen b) as Hpos by (unfold zlen in *; lia). set (p := Z.to_nat _).
    assert (p < length b)%nat as Hp by (pose proof (Hrnd (2 * k + 1)%nat (zlen b) Hpos); unfold p, zlen in *; lia).
    destruct (lookup_lt_is_Some_2 b p Hp) as [id Hid]. rewrite Hid. cbn [mbind option_bind].
    assert (b ∈ table) as Hbt.
    { unfold b. destruct (nth_in_or_default (Z.to_nat (rnd (2 * k)%nat (zlen table))) table []) as [H|H]; [by apply list_elem_of_In|].
      fold b in H. rewrite H in Hpos. unfold zlen in Hpos. cbn in Hpos. lia. }
    rewrite Forall_forall in Ht. destruct (Forall_lookup_1 _ _ _ _ (Ht b Hbt) Hid) as [i Hi]. rewrite Hi.
    destruct (accept k i) eqn:Ha.
    + exists (Some i). split_and!; [done| |eauto]. intros ? [= <-]. exists id. split; [|done].
      apply list_elem_of_In, in_concat. exists b. split; [by apply list_elem_of_In|]. apply list_elem_of_In. by eapply list_elem_of_lookup_2.
    + destruct (IH (S k)) as (r & -> & H1 & H2). exists r. split_and!; [done|done|]. intros n Hn Hacc Hb.
      apply (H2 n); [|done|done]. destruct (decide (n = k)) as [->|]; [by rewrite Hacc in Ha|lia].
Qed.

Lemma Select_ok fuel rnd (tried : bool) accept am : random_ok rnd -> addrman_ok am ->
  let table := if tried then vvTried am else map set_order (vvNew am) in
  exists r, Select_ fuel rnd tried accept am = Ok r /\
    (forall a, r = Some a -> vRandom am <> [] -> exists id i, id ∈ concat table /\ mapInfo am !! id = Some i /\ info_addr i = a) /\
    (forall n, (n < fuel)%nat -> (forall i, accept n i = true) ->
      nth (Z.to_nat (rnd (2 * n)%nat (zlen table))) table [] <> [] -> is_Some r).
Proof.
  intros Hrnd [HI HT _] table. unfold Select_. fold table. destruct (Z.eqb_spec (zlen (vRandom am)) 0) as [E|_].
  { eexists. split_and!; [done| |by intros; eexists]. intros a _ Hne. destruct Hne. by destruct (vRandom am). }
  destruct (draw_ok fuel rnd 0 table (mapInfo am) accept Hrnd) as (r & -> & H1 & H2).
  - apply Forall_forall. intros l [b Hb]%list_elem_of_lookup. apply Forall_forall. intros id Hid. destruct tried.
    + destruct (to_tried _ _ _ _ _ _ _ HT b l id Hb Hid) as (i & Hi & _). eauto.
    + apply list_lookup_fmap_Some in Hb as (s & -> & Hs). rewrite elem_of_set_order in Hid. by apply (to_new _ _ _ _ _ _ _ HT b s).
  - exists (option_map info_addr r). split_and!; [done| |].
    + intros a Ha _. destruct r as [i|]; [|done]. injection Ha as <-. destruct (H1 i eq_refl) as (id & H3 & H4). eauto.
    + intros n Hn Ha Hb. destruct (H2 n) as [i ->]; [lia|done|done|]. by eexists.
Qed.
(** ** [Check_] *)

Lemma check_entries_ok am l st mn :
  am_ok None am -> Forall (fun ni => mapInfo am !! ni.1 = Some ni.2) l ->
  exists st' mn', check_entries am l st mn = Ok (st', mn') /\
    (forall id, id ∈ st' <-> id ∈ st \/ exists i, (id, i) ∈ l /\ fInTried i = true) /\
    (forall id i, (id, i) ∈ l -> fInTried i = false -> mn' !! id = Some (nRefCount i)) /\
    (forall id, mn' !! id = mn !! id \/ exists i, (id, i) ∈ l /\ fInTried i = false).
Proof.
  intros [HI HT Ht]. revert st mn. induction l as [|[n i] l IH]; intros st mn Hl; cbn [check_entries].
  { exists st, mn. split_and!; [done| | |by left].
    - intros id. split; [by left|]. intros [?|(i & Hi & _)]; [done|]. by apply elem_of_nil in Hi.
    - intros id i Hi. by apply elem_of_nil in Hi. }
  apply Forall_cons in Hl as [Hn Hl]. cbn in Hn.
  pose proof (to_entry _ _ _ _ _ _ _ HT n i Hn) as He. unfold entry_ok in He.
  destruct (io_info _ _ _ _ HI n i Hn) as (_ & Ha & Hp & Hv), (Ht n i Hn) as [Ht1 Ht2].
  rewrite Ha. cbn [default]. rewrite Z.eqb_refl, (nth_lookup_Some _ _ _ _ Hv), Z.eqb_refl.
  pose proof (lookup_lt_Some _ _ _ Hv). assert ((nRandomPos i <? 0) = false) as -> by lia.
  assert ((zlen (vRandom am) <=? nRandomPos i) = false) as -> by (unfold zlen; lia).
  assert ((info_nLastTry i <? 0) = false) as -> by lia. assert ((nLastSuccess i <? 0) = false) as -> by lia.
  destruct (fInTried i) eqn:Hf.
  - destruct He as (Hr & Hs & _). assert ((nLastSuccess i =? 0) = false) as -> by lia. rewrite Hr. cbn [fail_if mbind mret outcome_bind outcome_ret Z.eqb negb orb].
    destruct (IH ({[n]} ∪ st) mn Hl) as (st' & mn' & -> & H1 & H2 & H3). exists st', mn'. split_and!; [done| | |].
    + intros id. rewrite H1. split.
      * intros [?|(j & Hj & ?)]; [|right; exists j; split; [by right|done]].
        destruct (decide (id = n)) as [->|]; [right; exists i; split; [left|done]|left; set_solver].
      * intros [?|(j & Hj & ?)]; [left; set_solver|]. apply elem_of_cons in Hj as [[= -> ->]|Hj]; [left; set_solver|eauto].
    + intros id j Hj Hjf. apply elem_of_cons in Hj as [[= -> ->]|Hj]; [congruence|by apply H2].
    + intros id. destruct (H3 id) as [?|(j & Hj & ?)]; [by left|]. right. exists j. split; [by right|done].
  - destruct He as (_ & Hr). assert ((nRefCount i <? 0) = false) as -> by lia.
    assert ((ADDRMAN_NEW_BUCKETS_PER_ADDRESS <? nRefCount i) = false) as -> by (unfold ADDRMAN_NEW_BUCKETS_PER_ADDRESS; lia).
    assert ((nRefCount i =? 0) = false) as -> by lia. cbn [fail_if mbind mret outcome_bind outcome_ret Z.eqb negb orb].
    destruct (IH st (<[n := nRefCount i]> mn) Hl) as (st' & mn' & -> & H1 & H2 & H3). exists st', mn'. split_and!; [done| | |].
    + intros id. rewrite H1. split.
      * intros [?|(j & Hj & ?)]; [by left|]. right. exists j. split; [by right|done].
      * intros [?|(j & Hj & ?)]; [by left|]. apply elem_of_cons in Hj as [[= -> ->]|Hj]; [congruence|eauto].
    + intros id j Hj Hjf. apply elem_of_cons in Hj as [[= -> ->]|Hj]; [|by apply H2].
      destruct (H3 n) as [->|(j & Hj & Hjt)]; [by rewrite lookup_insert_eq|].
      rewrite Forall_forall in Hl. pose proof (Hl _ Hj) as E. cbn in E. assert (i = j) as -> by congruence. by apply H2.
    + intros id. destruct (H3 id) as [E|(j & Hj & ?)]; [|right; exists j; split; [by right|done]].
      destruct (decide (n = id)) as [<-|]; [right; exists i; split; [left|done]|left; by rewrite lookup_insert_ne in E].
Qed.

Lemma check_tried_ok ids (st : gset Z) : NoDup ids -> (forall id, id ∈ ids -> id ∈ st) -> check_tried ids st = Ok (st ∖ list_to_set ids).
Proof.
  revert st. induction ids as [|id ids IH]; intros st Hnd Hin; cbn [check_tried].
  { f_equal. set_solver. }
  apply NoDup_cons in Hnd as [Hn Hnd]. rewrite bool_decide_true by (apply Hin; left). cbn [negb fail_if mbind outcome_bind].
  rewrite IH; [f_equal; set_solver|done|]. intros x Hx. apply elem_of_difference. split; [apply Hin; by right|set_solver].
Qed.

(** How often an id occurs. *)
Definition occ (id : Z) (ids : list Z) : Z := Z.of_nat (length (filter (fun x => x = id) ids)).

Lemma occ_cons id x ids : occ id (x :: ids) = (if decide (x = id) then 1 else 0) + occ id ids.
Proof. unfold occ. rewrite filter_cons. destruct (decide (x = id)); cbn [length]; lia. Qed.

Lemma occ_app id l k : occ id (l ++ k) = occ id l + occ id k.
Proof. unfold occ. rewrite filter_app, length_app. lia. Qed.

Lemma occ_nonneg id ids : 0 <= occ id ids.
Proof. unfold occ. lia. Qed.

Lemma occ_set_order id s : occ id (set_order s) = if decide (id ∈ s) then 1 else 0.
Proof.
  assert (forall l, NoDup l -> occ id l = if decide (id ∈ l) then 1 else 0) as H.
  { induction l as [|x l IH]; intros Hnd; [by rewrite decide_False by (by intros ?%elem_of_nil)|].
    apply NoDup_cons in Hnd as [Hx Hnd]. rewrite occ_cons, IH by done. destruct (decide (x = id)) as [->|Hne].
    - rewrite decide_False by done. rewrite decide_True by left. done.
    - rewrite Z.add_0_l. apply decide_ext. rewrite elem_of_cons. intuition congruence. }
  rewrite H by apply NoDup_set_order. apply decide_ext. apply elem_of_set_order.
Qed.

(** The references of an id, counted over the buckets in order. *)
Lemma occ_refs id vn : occ id (concat (map set_order vn)) = refs vn id.
Proof.
  unfold refs. induction vn as [|s vn IH]; [done|]. cbn [map concat]. rewrite occ_app, occ_set_order, IH, filter_cons.
  destruct (decide (id ∈ s)); cbn [length]; lia.
Qed.

Lemma check_new_ok ids (mn : gmap Z Z) : (forall id, occ id ids = default 0 (mn !! id)) -> map_Forall (fun _ n => n <> 0) mn ->
  check_new ids mn = Ok ∅.
Proof.
  revert mn. induction ids as [|id ids IH]; intros mn Hocc Hmn; cbn [check_new].
  { unfold mret, outcome_ret. f_equal. apply map_empty. intros id. destruct (mn !! id) as [n|] eqn:E; [|done].
    specialize (Hocc id). rewrite E in Hocc. cbn in Hocc. by destruct (Hmn id n E). }
  pose proof (Hocc id) as Hid. rewrite occ_cons, decide_True in Hid by done. pose proof (occ_nonneg id ids).
  destruct (mn !! id) as [n|] eqn:E; cbn in Hid; [|lia]. apply IH.
  - intros x. specialize (Hocc x). rewrite occ_cons in Hocc. destruct (decide (id = x)) as [<-|Hne].
    + destruct (Z.eqb_spec (n - 1) 0); [rewrite lookup_delete_eq|rewrite lookup_insert_eq]; cbn; lia.
    + rewrite Z.add_0_l in Hocc. rewrite Hocc. by destruct (n - 1 =? 0); [rewrite lookup_delete_ne|rewrite lookup_insert_ne].
  - destruct (Z.eqb_spec (n - 1) 0); [by apply map_Forall_delete|by apply map_Forall_insert_2].
Qed.

Lemma NoDup_concat {A} (l : list (list A)) : (forall b v, l !! b = Some v -> NoDup v) ->
  (forall b c v w x, l !! b = Some v -> l !! c = Some w -> x ∈ v -> x ∈ w -> b = c) -> NoDup (concat l).
Proof.
  induction l as [|v l IH]; intros Hnd Hdis; [constructor|]. cbn [concat]. apply NoDup_app. split_and!.
  - by apply (Hnd 0%nat).
  - intros x Hx Hc. apply list_elem_of_In, in_concat in Hc as (w & Hw & Hxw). apply list_elem_of_In in Hxw.
    apply list_elem_of_In, list_elem_of_lookup in Hw as [c Hw]. by pose proof (Hdis 0%nat (S c) v w x eq_refl Hw Hx Hxw).
  - apply IH; [intros b; apply (Hnd (S b))|]. intros b c w1 w2 x H1 H2 H3 H4. by pose proof (Hdis (S b) (S c) w1 w2 x H1 H2 H3 H4) as [= ->].
Qed.

Lemma elem_of_info_order (m : gmap Z CAddrInfo) id i : (id, i) ∈ info_order m <-> m !! id = Some i.
Proof.
  unfold info_order. rewrite list_elem_of_omap. setoid_rewrite elem_of_set_order. split.
  - intros (x & _ & E). destruct (m !! x) as [j|] eqn:Ej; [|done]. by injection E as -> ->.
  - intros Hi. exists id. split; [by apply elem_of_dom|]. by rewrite Hi.
Qed.

Lemma Check_ok am : addrman_ok am -> Check_ am = Ok tt.
Proof.
  intros HA. pose proof HA as [HI HT _]. unfold Check_. rewrite (index_size _ _ _ _ HI), <-count_total, <-(to_nt _ _ _ _ _ _ _ HT), <-(to_nn _ _ _ _ _ _ _ HT), Z.eqb_refl.
  cbn [negb fail_if mbind outcome_bind].
  destruct (check_entries_ok am (info_order (mapInfo am)) ∅ ∅ HA) as (st & mn & -> & Hst & Hmn1 & Hmn2).
  { apply Forall_forall. intros [n i] Hn. by apply elem_of_info_order. }
  cbn [mbind outcome_bind]. setoid_rewrite elem_of_info_order in Hst. setoid_rewrite elem_of_info_order in Hmn1. setoid_rewrite elem_of_info_order in Hmn2.
  assert (Z.of_nat (size st) = nTried am) as ->.
  { rewrite (to_nt _ _ _ _ _ _ _ HT). unfold count. f_equal. rewrite <-size_dom. f_equal. apply set_eq. intros id.
    rewrite Hst, elem_of_dom. split.
    - intros [?|(i & Hi & Hf)]; [set_solver|]. exists i. by apply map_lookup_filter_Some.
    - intros [i [Hi Hf]%map_lookup_filter_Some]. right. by exists i. }
  assert (dom mn = dom (filter (fun kv => negb (fInTried kv.2) = true) (mapInfo am))) as Hdom.
  { apply set_eq. intros id. rewrite !elem_of_dom. split.
    - intros [n Hn]. destruct (Hmn2 id) as [E|(i & Hi & Hf)]; [by rewrite Hn, lookup_empty in E|]. exists i.
      apply map_lookup_filter_Some. split; [done|]. cbn. by rewrite Hf.
    - intros [i [Hi Hf]%map_lookup_filter_Some]. cbn in Hf. apply negb_true_iff in Hf. eauto. }
  assert (Z.of_nat (size mn) = nNew am) as ->.
  { rewrite (to_nn _ _ _ _ _ _ _ HT). unfold count. f_equal. by rewrite <-size_dom, Hdom, size_dom. }
  rewrite !Z.eqb_refl. cbn [negb fail_if mbind outcome_bind].
  rewrite check_tried_ok.
  2: { apply NoDup_concat; [intros b v Hv; by apply (to_vectors _ _ _ _ _ _ _ HT b v)|]. intros b c v w x Hb Hc Hv Hw.
       destruct (to_tried _ _ _ _ _ _ _ HT b v x Hb Hv) as (i & Hi & _ & E), (to_tried _ _ _ _ _ _ _ HT c w x Hc Hw) as (j & Hj & _ & E').
       assert (i = j) as -> by congruence. lia. }
  2: { intros id (v & Hv & Hid)%list_elem_of_In%in_concat. apply list_elem_of_In, list_elem_of_lookup in Hv as [b Hb].
       apply list_elem_of_In in Hid. apply Hst. right. destruct (to_tried _ _ _ _ _ _ _ HT b v id Hb Hid) as (i & Hi & Hf & _). eauto. }
  cbn [mbind outcome_bind]. rewrite check_new_ok.
  2: { intros id. rewrite occ_refs. destruct (mn !! id) as [n|] eqn:E; cbn.
       - destruct (Hmn2 id) as [E'|(i & Hi & Hf)]; [by rewrite E, lookup_empty in E'|].
         pose proof (Hmn1 id i Hi Hf) as E'. assert (n = nRefCount i) as -> by congruence.
         pose proof (to_entry _ _ _ _ _ _ _ HT id i Hi) as He. unfold entry_ok in He. rewrite Hf in He. rewrite decide_False in He by done. lia.
       - pose proof (refs_nonneg (vvNew am) id). destruct (decide (1 <= refs (vvNew am) id)) as [Hr|]; [|lia].
         apply refs_exists in Hr as (b & s & Hb & Hid). destruct (to_new _ _ _ _ _ _ _ HT b s id Hb Hid) as [i Hi].
         destruct (fInTried i) eqn:Hf; [|by rewrite (Hmn1 id i Hi Hf) in E].
         pose proof (to_entry _ _ _ _ _ _ _ HT id i Hi) as He. unfold entry_ok in He. rewrite Hf in He. lia. }
  2: { intros id n Hn. destruct (Hmn2 id) as [E'|(i & Hi & Hf)]; [by rewrite Hn, lookup_empty in E'|].
       pose proof (Hmn1 id i Hi Hf) as E'. pose proof (to_entry _ _ _ _ _ _ _ HT id i Hi) as He. unfold entry_ok in He. rewrite Hf in He.
       assert (n = nRefCount i) as -> by congruence. lia. }
  cbn [mbind outcome_bind]. assert (st ∖ list_to_set (concat (vvTried am)) = ∅) as ->.
  { apply set_eq. intros id. rewrite elem_of_difference, elem_of_list_to_set, Hst. split; [|set_solver].
    intros [[?|(i & Hi & Hf)] Hn]; [set_solver|]. destruct Hn.
    pose proof (to_entry _ _ _ _ _ _ _ HT id i Hi) as He. unfold entry_ok in He. rewrite Hf in He. destruct He as (_ & _ & _ & _ & v & Hv & Hid).
    apply list_elem_of_In, in_concat. exists v. split; apply list_elem_of_In; [by eapply list_elem_of_lookup_2|done]. }
  done.
Qed.
End props.

(** ** The property *)

Section consistent.
Context {SH : ScriptHashes}.

(** C17: the address manager is consistent from its construction on: every
    operation succeeds on consistent tables, whatever random numbers it
    draws, so that none of its assertions fails, and leaves consistent
    tables, in which [Check_] finds nothing.  [Add_] accepts routable
    addresses only, returns whether the address is new, and afterwards
    [Find] knows it; it drops at most one entry, which is not a tried one.
    [Good_] loses no entry and marks the one of its peer as tried;
    [Attempt_] and [Connected_] change neither.  [GetAddr_] returns 23
    percent of the addresses, 2500 at most, all known and pairwise
    different.  [Select_] only returns entries of the table it draws from,
    and ends with the first bucket that has entries and whose entry is
    accepted. *)
Theorem AddrMan_consistent rnd : random_ok rnd ->
  (forall key, addrman_ok (CAddrMan_new key)) /\
  forall am, addrman_ok am ->
    Check_ am = Ok tt /\
    (forall addr source nTimePenalty nNow, 0 <= nIdCount am < 2 ^ 31 - 1 ->
      exists r am', Add_ rnd addr source nTimePenalty nNow am = Ok (r, am') /\
        r = IsRoutable (addr_ip addr) && bool_decide (Find am (addr_ip addr) = None) /\
        if IsRoutable (addr_ip addr) then added (addr_ip addr) am am' else am' = am) /\
    (forall addr nTime, 0 < nTime ->
      exists am', Good_ rnd addr nTime am = Ok am' /\ addrman_ok am' /\
        stay same_peer (fun _ => False) (mapInfo am) (mapInfo am') /\
        forall id i, Find am (svc_ip addr) = Some (id, i) -> info_service i = addr ->
          exists j, mapInfo am' !! id = Some j /\ same_peer i j /\ fInTried j = true) /\
    (forall addr nTime, 0 <= nTime ->
      addrman_ok (Attempt_ addr nTime am) /\
      stay same_entry (fun _ => False) (mapInfo am) (mapInfo (Attempt_ addr nTime am)) /\
      addrman_ok (Connected_ addr nTime am) /\
      stay same_entry (fun _ => False) (mapInfo am) (mapInfo (Connected_ addr nTime am))) /\
    (exists am' l, GetAddr_ rnd am = Ok (am', l) /\ addrman_ok am' /\ moved (mapInfo am) (mapInfo am') /\
      zlen l = Z.min 2500 (23 * zlen (vRandom am) / 100) /\
      NoDup (map addr_ip l) /\ Forall (fun a => exists id i, mapInfo am !! id = Some i /\ info_addr i = a) l) /\
    (forall fuel (use_tried : bool) accept,
      let table := if use_tried then vvTried am else map set_order (vvNew am) in
      exists r, Select_ fuel rnd use_tried accept am = Ok r /\
        (forall a, r = Some a -> vRandom am <> [] -> exists id i, id ∈ concat table /\ mapInfo am !! id = Some i /\ info_addr i = a) /\
        (forall n, (n < fuel)%nat -> (forall i, accept n i = true) ->
          nth (Z.to_nat (rnd (2 * n)%nat (zlen table))) table [] <> [] -> is_Some r)).
Proof.
  intros Hrnd. split; [exact new_ok|]. intros am HA. split_and!.
  - by apply Check_ok.
  - intros. by apply Add_ok.
  - intros. by apply Good_ok.
  - intros addr nTime Hn. destruct (Attempt_ok addr nTime am HA Hn), (Connected_ok addr nTime am HA). done.
  - by apply GetAddr_ok.
  - intros. by apply Select_ok.
Qed.
End consistent.

(** A routable address, 12.34.56.78, that is added to an empty manager. *)
#[local] Instance prefix_hashes : ScriptHashes := {
  h_ripemd160 := firstn 20; h_sha1 := firstn 20; h_sha256 := firstn 32; h_hash160 := firstn 20; h_hash256 := firstn 32
}.

Definition sample_peer : CAddress := Addr (Service (pchIPv4 ++ [12; 34; 56; 78]) 8333) 1 1000000 0.
Definition zero_rnd (k : nat) (n : Z) : Z := 0.

Lemma AddrMan_consistent_witness :
  addrman_ok (CAddrMan_new []) /\
  exists am', Add_ zero_rnd sample_peer (addr_ip sample_peer) 0 1000000 (CAddrMan_new []) = Ok (true, am') /\
    is_Some (Find am' (addr_ip sample_peer)).
Proof.
  assert (random_ok zero_rnd) as Hrnd by (intros k n Hn; unfold zero_rnd; lia).
  destruct (AddrMan_consistent zero_rnd Hrnd) as [Hnew H]. split; [apply Hnew|].
  destruct (H _ (Hnew [])) as (_ & HAdd & _).
  destruct (HAdd sample_peer (addr_ip sample_peer) 0 1000000) as (r & am' & E & Er & Ha); [split; done|].
  exists am'. split; [rewrite E, Er; by vm_compute|].
  assert (IsRoutable (addr_ip sample_peer) = true) as Hr by by vm_compute.
  rewrite Hr in Ha. by destruct Ha as (_ & Hf & _).
Defined.
