(* ===== verification/Wallet.v ===== *)
(** * The wallet: transactions, balances and keys

    [wallet.h], [wallet.cpp] and the depth of a wallet transaction of
    [main.cpp]: the transactions of the wallet with the outputs that are
    spent, what the wallet owns, its available coins, the key pool, and the
    recording of a transaction it sends.  A [CWalletTx*] is the key of its
    entry of [mapWallet].  The wallet is one that is not encrypted.  The
    amounts that the class caches are computed anew; the flag
    [fMerkleVerified], a cache too, is left out, as are writing the records to
    the disk and notifying the user interface, the texts of accounts and
    stealth payments. *)

From stdpp Require Import sorting.
From S2P Require Import Prelude Opcode Interp Serialize Transaction SigHash Chain TxConnect Merkle Standard Policy Mempool Block ChainState Keys Sign.

Local Open Scope Z_scope.

(** ** Data *)

(** [CMerkleTx] and what [CWalletTx] adds to it. *)
Record CWalletTx : Type := WalletTx {
  w_tx : CTransaction;
  w_hashBlock : Z;
  w_vMerkleBranch : list Z;
  w_nIndex : Z;
  w_nTimeReceived : Z;
  w_nTimeSmart : Z;
  w_fFromMe : bool;
  vfSpent : list bool;
  w_nOrderPos : Z
}.

(** [CWalletTx(pwallet, tx)] *)
Definition CWalletTx_new (tx : CTransaction) : CWalletTx := WalletTx tx 0 [] (-1) 0 0 false [] (-1).

Record CKeyPool : Type := KeyPoolEntry { kp_nTime : Z; kp_vchPubKey : pubkey_bytes }.

(** An entry of [wtxOrdered]: a transaction or an accounting entry with its
    time. *)
Inductive ordered_item : Type := OrderedTx (hash : Z) | OrderedEntry (nTime : Z).

(** The members of [CWallet]: [mapTxSpends] lists the spenders of an outpoint
    in the order of insertion, [w_pool] are the key pool records of the
    database. *)
Record CWallet : Type := Wallet {
  w_keys : CBasicKeyStore;
  mapWallet : gmap Z CWalletTx;
  wtxOrdered : list (Z * ordered_item);
  nOrderPosNext : Z;
  mapTxSpends : gmap COutPoint (list Z);
  setLockedCoins : gset COutPoint;
  setKeyPool : gset Z;
  w_pool : gmap Z CKeyPool
}.

Definition set_mapWallet (m : gmap Z CWalletTx) (w : CWallet) : CWallet :=
  Wallet (w_keys w) m (wtxOrdered w) (nOrderPosNext w) (mapTxSpends w) (setLockedCoins w) (setKeyPool w) (w_pool w).
Definition set_order_next (l : list (Z * ordered_item)) (n : Z) (w : CWallet) : CWallet :=
  Wallet (w_keys w) (mapWallet w) l n (mapTxSpends w) (setLockedCoins w) (setKeyPool w) (w_pool w).
Definition set_spends (m : gmap COutPoint (list Z)) (w : CWallet) : CWallet :=
  Wallet (w_keys w) (mapWallet w) (wtxOrdered w) (nOrderPosNext w) m (setLockedCoins w) (setKeyPool w) (w_pool w).
Definition set_locked (s : gset COutPoint) (w : CWallet) : CWallet :=
  Wallet (w_keys w) (mapWallet w) (wtxOrdered w) (nOrderPosNext w) (mapTxSpends w) s (setKeyPool w) (w_pool w).
Definition set_keypool (s : gset Z) (p : gmap Z CKeyPool) (w : CWallet) : CWallet :=
  Wallet (w_keys w) (mapWallet w) (wtxOrdered w) (nOrderPosNext w) (mapTxSpends w) (setLockedCoins w) s p.
Definition set_keys (ks : CBasicKeyStore) (w : CWallet) : CWallet :=
  Wallet ks (mapWallet w) (wtxOrdered w) (nOrderPosNext w) (mapTxSpends w) (setLockedCoins w) (setKeyPool w) (w_pool w).

Definition set_vfSpent (v : list bool) (w : CWalletTx) : CWalletTx :=
  WalletTx (w_tx w) (w_hashBlock w) (w_vMerkleBranch w) (w_nIndex w) (w_nTimeReceived w) (w_nTimeSmart w) (w_fFromMe w) v (w_nOrderPos w).

(** The globals the wallet reads: the chain and the memory pool, the time,
    the locks of InstantX with their signatures, the settings. *)
Record WalletEnv : Type := {
  env_node : node;
  env_time : Z;
  env_spork_instantx : bool;
  fEnableInstantX : bool;
  mapTxLocks : gmap Z Z;
  nInstantXDepth : Z;
  env_nCoinbaseMaturity : Z;
  fConfChange : bool;
  fMasterNode : bool;
  stashedSendDenominations : list Z;
  nStashedsendRounds : Z;
  nTransactionFee : Z;
  nMinimumInputValue : Z
}.

(** The denominations [AppInit2] sets. *)
Definition init_denominations : list Z :=
  [1000 * COIN + 1000000; 100 * COIN + 100000; 10 * COIN + 10000; 1 * COIN + 1000; 10000000 + 100].

Definition STASHEDSEND_COLLATERAL : Z := 1000000.
Definition MASTERNODE_VALUE : Z := 10000.
Definition GetMNCollateral (nHeight : Z) : Z := MASTERNODE_VALUE.
Definition INSTANTX_SIGNATURES_REQUIRED : Z := 10.

(** The keys of a map or set in the order of its iterator. *)
Definition in_order (s : gset Z) : list Z := merge_sort Z.le (elements s).

(** ** Spent outputs *)

(** [vfSpent.resize(n)] *)
Definition resize (n : nat) (v : list bool) : list bool := take n v ++ replicate (n - length v) false.

(** [CWalletTx::MarkSpent], [MarkUnspent] and [IsSpent] *)
Definition set_spent_flag (b : bool) (nOut : Z) (w : CWalletTx) : outcome unit CWalletTx :=
  _ ← throw_if (zlen (vout (w_tx w)) <=? nOut);
  mret (set_vfSpent (<[Z.to_nat nOut := b]> (resize (length (vout (w_tx w))) (vfSpent w))) w).

Definition MarkSpent : Z -> CWalletTx -> outcome unit CWalletTx := set_spent_flag true.
Definition MarkUnspent : Z -> CWalletTx -> outcome unit CWalletTx := set_spent_flag false.

Definition wtx_IsSpent (nOut : Z) (w : CWalletTx) : outcome unit bool :=
  _ ← throw_if (zlen (vout (w_tx w)) <=? nOut);
  mret (nth (Z.to_nat nOut) (vfSpent w) false).

(** [CWalletTx::UpdateSpent]: the flags and whether one was set. *)
Fixpoint UpdateSpent (vfNewSpent vfSpent : list bool) : list bool * bool :=
  match vfNewSpent, vfSpent with
  | new :: vfNewSpent, old :: vfSpent =>
    let '(v, fReturn) := UpdateSpent vfNewSpent vfSpent in
    (new || old :: v, (new && negb old) || fReturn)
  | _, _ => (vfSpent, false)
  end.

(** ** Depth in the chain *)

Section wallet.
Context {SH : ScriptHashes}.

Section env.
Variable env : WalletEnv.

Definition GetDepthInMainChainINTERNAL (w : CWalletTx) : Z :=
  let s := env_node env in
  if (w_hashBlock w =? 0) || (w_nIndex w =? -1) then 0
  else
    match mapBlockIndex s !! w_hashBlock w with
    | None => 0
    | Some e =>
      if negb (IsInMainChain s (w_hashBlock w)) then 0
      else if negb (CheckMerkleBranch (tx_GetHash (w_tx w)) (w_vMerkleBranch w) (w_nIndex w) =? bi_hashMerkleRoot (e_index e)) then 0
      else height_of (mapBlockIndex s) (default 0 (g_pindexBest s)) - bi_nHeight (e_index e) + 1
    end.

Definition GetTransactionLockSignatures (hash : Z) : Z :=
  if negb (env_spork_instantx env) then -3
  else if negb (fEnableInstantX env) then -1
  else default (-1) (mapTxLocks env !! hash).

Definition GetDepthInMainChain (enableIX : bool) (w : CWalletTx) : Z :=
  let nResult := GetDepthInMainChainINTERNAL w in
  if (nResult =? 0) && negb (pool_exists (g_mempool (env_node env)) (tx_GetHash (w_tx w))) then -1
  else if enableIX && (nResult <? 10) && (INSTANTX_SIGNATURES_REQUIRED <=? GetTransactionLockSignatures (tx_GetHash (w_tx w)))
  then nInstantXDepth env + nResult
  else nResult.

Definition GetBlocksToMaturity (w : CWalletTx) : Z :=
  if negb (IsCoinBase (w_tx w) || IsCoinStake (w_tx w)) then 0
  else Z.max 0 (env_nCoinbaseMaturity env - GetDepthInMainChain true w).

Definition final_tx (tx : CTransaction) : bool := IsFinalTx (nBestHeight (env_node env)) (env_time env) tx 0 0.

Definition IsDenominatedAmount (nInputAmount : Z) : bool :=
  existsb (fun d => nInputAmount =? d) (stashedSendDenominations env).

Definition IsCollateralAmount (nInputAmount : Z) : bool :=
  negb (nInputAmount =? 0) && (Z.rem nInputAmount STASHEDSEND_COLLATERAL =? 0) &&
  (nInputAmount <? STASHEDSEND_COLLATERAL * 5) && (STASHEDSEND_COLLATERAL <? nInputAmount).

(** [vout[i].nValue == GetMNCollateral(pindexBest->nHeight)*COIN] *)
Definition IsMNCollateral (nValue : Z) : bool :=
  nValue =? GetMNCollateral (height_of (mapBlockIndex (env_node env)) (default 0 (g_pindexBest (env_node env)))) * COIN.

(** ** What is ours *)

Variable w : CWallet.

(** [IsMine(txout)]: the recursion goes through distinct scripts of the store,
    unless they form a cycle, where it does not end. *)
Definition IsMine_out (o : CTxOut) : outcome unit isminetype :=
  match IsMine (S (size (mapScripts (w_keys w)))) (w_keys w) (scriptPubKey o) with
  | Some m => mret m
  | None => Crash
  end.

(** A filter is a set of types: [ISMINE_SPENDABLE], [ISMINE_WATCH_ONLY] or
    [ISMINE_ALL]. *)
Definition isminefilter : Type := isminetype -> bool.
Definition only (m : isminetype) : isminefilter := fun m' => bool_decide (m = m').
Definition ISMINE_ALL : isminefilter := fun m => negb (bool_decide (m = ISMINE_NO)).

(** [IsMine(txin)] and [GetDebit(txin, filter)] *)
Definition prev_out (txin : CTxIn) : option CTxOut :=
  prev ← mapWallet w !! prevout_hash (prevout txin);
  vout (w_tx prev) !! Z.to_nat (prevout_n (prevout txin)).

Definition IsMine_in (txin : CTxIn) : outcome unit isminetype :=
  match prev_out txin with Some o => IsMine_out o | None => mret ISMINE_NO end.

Definition GetDebit_in (filter : isminefilter) (txin : CTxIn) : outcome unit Z :=
  match prev_out txin with
  | Some o => mine ← IsMine_out o; mret (if filter mine then nValue o else 0)
  | None => mret 0
  end.

(** [GetCredit(txout, filter)] *)
Definition GetCredit_out (filter : isminefilter) (o : CTxOut) : outcome unit Z :=
  _ ← throw_if (negb (MoneyRange (nValue o)));
  mine ← IsMine_out o;
  mret (if filter mine then nValue o else 0).

(** The sums of [GetDebit(tx, filter)] and [GetCredit(tx, filter)] *)
Fixpoint add_amounts {A} (amount : A -> outcome unit Z) (l : list A) (n : Z) : outcome unit Z :=
  match l with
  | [] => mret n
  | x :: l =>
    a ← amount x;
    let n := to_i64 (n + a) in
    _ ← throw_if (negb (MoneyRange n));
    add_amounts amount l n
  end.

Definition GetDebit_tx (filter : isminefilter) (tx : CTransaction) : outcome unit Z := add_amounts (GetDebit_in filter) (vin tx) 0.
Definition GetCredit_tx (filter : isminefilter) (tx : CTransaction) : outcome unit Z := add_amounts (GetCredit_out filter) (vout tx) 0.

(** [CWalletTx::IsFromMe(ISMINE_ALL)] *)
Definition wtx_IsFromMe (wtx : CWalletTx) : outcome unit bool :=
  match vin (w_tx wtx) with
  | [] => mret false
  | _ =>
    spendable ← GetDebit_tx (only ISMINE_SPENDABLE) (w_tx wtx);
    watch ← GetDebit_tx (only ISMINE_WATCH_ONLY) (w_tx wtx);
    mret (0 <? to_i64 (spendable + watch))
  end.

(** [CWalletTx::GetAvailableCredit] *)
Fixpoint available_credit (i : Z) (outs : list CTxOut) (wtx : CWalletTx) (nCredit : Z) : outcome unit Z :=
  match outs with
  | [] => mret nCredit
  | o :: outs =>
    spent ← wtx_IsSpent i wtx;
    nCredit ← (if spent : bool then mret nCredit
               else
                 c ← GetCredit_out (only ISMINE_SPENDABLE) o;
                 let n := to_i64 (nCredit + c) in
                 _ ← throw_if (negb (MoneyRange n));
                 mret n);
    available_credit (i + 1) outs wtx nCredit
  end.

Definition GetAvailableCredit (wtx : CWalletTx) : outcome unit Z :=
  if (IsCoinBase (w_tx wtx) || IsCoinStake (w_tx wtx)) && (0 <? GetBlocksToMaturity wtx) then mret 0
  else available_credit 0 (vout (w_tx wtx)) wtx 0.

(** [CWalletTx::IsTrusted]: the loop over the inputs. *)
Fixpoint trusted_inputs (ins : list CTxIn) : outcome unit bool :=
  match ins with
  | [] => mret true
  | txin :: ins =>
    match mapWallet w !! prevout_hash (prevout txin) with
    | None => mret false
    | Some parent =>
      match vout (w_tx parent) !! Z.to_nat (prevout_n (prevout txin)) with
      | None => Crash
      | Some parentOut =>
        mine ← IsMine_out parentOut;
        if bool_decide (mine = ISMINE_SPENDABLE) then trusted_inputs ins else mret false
      end
    end
  end.

Definition IsTrusted (wtx : CWalletTx) : outcome unit bool :=
  if negb (final_tx (w_tx wtx)) then mret false
  else
    let nDepth := GetDepthInMainChain true wtx in
    if 1 <=? nDepth then mret true
    else if nDepth <? 0 then mret false
    else if fConfChange env then mret false
    else
      mine ← wtx_IsFromMe wtx;
      if negb mine then mret false else trusted_inputs (vin (w_tx wtx)).

(** [CWallet::GetBalance] *)
Fixpoint balance_loop (l : list CWalletTx) (nTotal : Z) : outcome unit Z :=
  match l with
  | [] => mret nTotal
  | wtx :: l =>
    trusted ← IsTrusted wtx;
    if trusted : bool then c ← GetAvailableCredit wtx; balance_loop l (to_i64 (nTotal + c)) else balance_loop l nTotal
  end.
(** The entries of [mapWallet] in the order of their hashes. *)
Definition wallet_entries : list (Z * CWalletTx) :=
  omap (fun h => (fun wtx => (h, wtx)) <$> mapWallet w !! h) (in_order (dom (mapWallet w))).
Definition GetBalance : outcome unit Z := balance_loop (map snd wallet_entries) 0.

(** ** Available coins *)

Inductive AvailableCoinsType : Type := ALL_COINS | ONLY_DENOMINATED | ONLY_NOT10000IFMN | ONLY_NONDENOMINATED_NOT10000IFMN.

Record CCoinControl : Type := { destChange : CTxDestination; setSelected : gset COutPoint }.
Definition HasSelected (c : CCoinControl) : bool := negb (bool_decide (setSelected c = ∅)).
Definition IsSelected (c : CCoinControl) (o : COutPoint) : bool := bool_decide (o ∈ setSelected c).

(** [COutput]: the transaction is the key of its entry. *)
Record COutput : Type := Output { o_tx : Z; o_i : Z; o_nDepth : Z; o_fSpendable : bool }.

Definition IsLockedCoin (o : COutPoint) : bool := bool_decide (o ∈ setLockedCoins w).

(** The test of the type of coins. *)
Definition right_type (coin_type : AvailableCoinsType) (v : Z) : bool :=
  match coin_type with
  | ALL_COINS => true
  | ONLY_DENOMINATED => IsDenominatedAmount v
  | ONLY_NOT10000IFMN => negb (fMasterNode env && IsMNCollateral v)
  | ONLY_NONDENOMINATED_NOT10000IFMN =>
    negb (IsCollateralAmount v) && negb (IsDenominatedAmount v) && (if fMasterNode env then negb (IsMNCollateral v) else true)
  end.

(** The loop over the outputs of an entry. *)
Fixpoint available_outputs (coinControl : option CCoinControl) (coin_type : AvailableCoinsType) (h : Z) (wtx : CWalletTx) (nDepth : Z)
    (i : Z) (outs : list CTxOut) : outcome unit (list COutput) :=
  match outs with
  | [] => mret []
  | o :: outs =>
    if negb (right_type coin_type (nValue o)) then available_outputs coinControl coin_type h wtx nDepth (i + 1) outs
    else
      mine ← IsMine_out o;
      spent ← wtx_IsSpent i wtx;
      let outpoint := {| prevout_hash := h; prevout_n := i |} in
      l ← available_outputs coinControl coin_type h wtx nDepth (i + 1) outs;
      mret (if negb spent && negb (bool_decide (mine = ISMINE_NO)) && negb (IsLockedCoin outpoint) && (0 <? nValue o) &&
               match coinControl with Some c => negb (HasSelected c) || IsSelected c outpoint | None => true end
            then Output h i nDepth (bool_decide (mine = ISMINE_SPENDABLE)) :: l else l)
  end.

Definition available_of (fOnlyConfirmed : bool) (coinControl : option CCoinControl) (coin_type : AvailableCoinsType) (useIX : bool)
    (h : Z) (wtx : CWalletTx) : outcome unit (list COutput) :=
  if negb (final_tx (w_tx wtx)) then mret []
  else
    trusted ← (if fOnlyConfirmed then IsTrusted wtx else mret true);
    if negb trusted then mret []
    else if (IsCoinBase (w_tx wtx) && (0 <? GetBlocksToMaturity wtx)) || (IsCoinStake (w_tx wtx) && (0 <? GetBlocksToMaturity wtx)) then mret []
    else
      let nDepth := GetDepthInMainChain false wtx in
      if nDepth <=? 0 then mret []
      else if useIX && (nDepth <? 10) then mret []
      else available_outputs coinControl coin_type h wtx nDepth 0 (vout (w_tx wtx)).

Fixpoint available_loop (f : Z -> CWalletTx -> outcome unit (list COutput)) (l : list (Z * CWalletTx)) : outcome unit (list COutput) :=
  match l with
  | [] => mret []
  | (h, wtx) :: l => c ← f h wtx; cs ← available_loop f l; mret (c ++ cs)
  end.

Definition AvailableCoins (fOnlyConfirmed : bool) (coinControl : option CCoinControl) (coin_type : AvailableCoinsType) (useIX : bool)
    : outcome unit (list COutput) :=
  available_loop (available_of fOnlyConfirmed coinControl coin_type useIX) wallet_entries.

(** [AvailableCoinsForStaking] *)
Fixpoint staking_outputs (h : Z) (wtx : CWalletTx) (nDepth i : Z) (outs : list CTxOut) : outcome unit (list COutput) :=
  match outs with
  | [] => mret []
  | o :: outs =>
    mine ← IsMine_out o;
    spent ← wtx_IsSpent i wtx;
    l ← staking_outputs h wtx nDepth (i + 1) outs;
    mret (if negb spent && negb (bool_decide (mine = ISMINE_NO)) && (nMinimumInputValue env <=? nValue o)
          then Output h i nDepth (bool_decide (mine = ISMINE_SPENDABLE)) :: l else l)
  end.

Definition staking_of (nStakeMinAge nSpendTime h : Z) (wtx : CWalletTx) : outcome unit (list COutput) :=
  let nDepth := GetDepthInMainChain true wtx in
  if nDepth <? 1 then mret []
  else if nDepth <? 180 then mret []
  else if nSpendTime <? to_u32 (nTime (w_tx wtx) + nStakeMinAge) then mret []
  else if 0 <? GetBlocksToMaturity wtx then mret []
  else if existsb (fun o => IsDenominatedAmount (nValue o) || IsMNCollateral (nValue o) || IsCollateralAmount (nValue o)) (vout (w_tx wtx))
  then mret []
  else staking_outputs h wtx nDepth 0 (vout (w_tx wtx)).

Definition AvailableCoinsForStaking (nStakeMinAge nSpendTime : Z) : outcome unit (list COutput) :=
  available_loop (staking_of nStakeMinAge nSpendTime) wallet_entries.
End env.

(** ** The record of spent outpoints *)

(** [SyncMetaData]: the transactions of the range take the time and the flag
    of the one with the least [nOrderPos]. *)
Fixpoint oldest_of (m : gmap Z CWalletTx) (hashes : list Z) (nMinOrderPos : Z) (copyFrom : option Z) : outcome unit (option Z) :=
  match hashes with
  | [] => mret copyFrom
  | hash :: hashes =>
    match m !! hash with
    | None => Crash
    | Some wtx =>
      let n := to_i32 (w_nOrderPos wtx) in
      if n <? nMinOrderPos then oldest_of m hashes n (Some hash) else oldest_of m hashes nMinOrderPos copyFrom
    end
  end.

Definition copy_meta (from to : CWalletTx) : CWalletTx :=
  WalletTx (w_tx to) (w_hashBlock to) (w_vMerkleBranch to) (w_nIndex to) (w_nTimeReceived to) (w_nTimeSmart from) (w_fFromMe from)
    (vfSpent to) (w_nOrderPos to).

Definition SyncMetaData (hashes : list Z) (w : CWallet) : outcome unit CWallet :=
  copyFrom ← oldest_of (mapWallet w) hashes INT_MAX None;
  match copyFrom with
  | None => mret w
  | Some h =>
    match mapWallet w !! h with
    | None => Crash
    | Some from => mret (set_mapWallet (foldl (fun m hash => alter (copy_meta from) hash m) (mapWallet w) hashes) w)
    end
  end.

Definition AddToSpends_outpoint (outpoint : COutPoint) (wtxid : Z) (w : CWallet) : outcome unit CWallet :=
  let range := default [] (mapTxSpends w !! outpoint) ++ [wtxid] in
  SyncMetaData range (set_spends (<[outpoint := range]> (mapTxSpends w)) w).

Fixpoint add_spends (ins : list CTxIn) (wtxid : Z) (w : CWallet) : outcome unit CWallet :=
  match ins with
  | [] => mret w
  | txin :: ins => w ← AddToSpends_outpoint (prevout txin) wtxid w; add_spends ins wtxid w
  end.

Definition AddToSpends (wtxid : Z) (w : CWallet) : outcome unit CWallet :=
  match mapWallet w !! wtxid with
  | None => Crash
  | Some thisTx => if IsCoinBase (w_tx thisTx) then mret w else add_spends (vin (w_tx thisTx)) wtxid w
  end.

(** [CWallet::IsSpent] *)
Definition IsSpent (env : WalletEnv) (w : CWallet) (outpoint : COutPoint) : bool :=
  existsb (fun wtxid => match mapWallet w !! wtxid with
                        | Some wtx => 0 <=? GetDepthInMainChain env true wtx
                        | None => false
                        end) (default [] (mapTxSpends w !! outpoint)).

(** [CWallet::GetConflicts] *)
Definition GetConflicts (w : CWallet) (txid : Z) : gset Z :=
  match mapWallet w !! txid with
  | None => ∅
  | Some wtx =>
    foldl (fun result txin =>
      let range := default [] (mapTxSpends w !! prevout txin) in
      if zlen range <=? 1 then result else result ∪ list_to_set range) ∅ (vin (w_tx wtx))
  end.

(** [LockCoin], [UnlockCoin], [UnlockAllCoins] *)
Definition LockCoin (output : COutPoint) (w : CWallet) : CWallet := set_locked ({[output]} ∪ setLockedCoins w) w.
Definition UnlockCoin (output : COutPoint) (w : CWallet) : CWallet := set_locked (setLockedCoins w ∖ {[output]}) w.
Definition UnlockAllCoins (w : CWallet) : CWallet := set_locked ∅ w.

(** ** Recording transactions *)

(** Insertion into the multimap [wtxOrdered], behind equal keys. *)
Fixpoint insert_ordered (pos : Z) (x : ordered_item) (l : list (Z * ordered_item)) : list (Z * ordered_item) :=
  match l with
  | [] => [(pos, x)]
  | (p, y) :: l' => if p <=? pos then (p, y) :: insert_ordered pos x l' else (pos, x) :: l
  end.

(** The search for the last entry of the wallet that is not too far in the
    future, from the end of [wtxOrdered]: [latestEntry] and [latestNow]. *)
Fixpoint smart_time (m : gmap Z CWalletTx) (hash latestTolerated latestNow : Z) (l : list ordered_item) : Z * Z :=
  match l with
  | [] => (0, latestNow)
  | x :: l =>
    if match x with OrderedTx h => h =? hash | OrderedEntry _ => false end then smart_time m hash latestTolerated latestNow l
    else
      let nSmartTime :=
        match x with
        | OrderedTx h =>
          match m !! h with
          | Some pwtx => if w_nTimeSmart pwtx =? 0 then w_nTimeReceived pwtx else w_nTimeSmart pwtx
          | None => 0
          end
        | OrderedEntry t => t
        end in
      if nSmartTime <=? latestTolerated
      then (to_u32 nSmartTime, if latestNow <? nSmartTime then to_u32 nSmartTime else latestNow)
      else smart_time m hash latestTolerated latestNow l
  end.

(** A transaction that is new to the wallet. *)
Definition insert_new (env : WalletEnv) (hash : Z) (wtxIn : CWalletTx) (w : CWallet) : CWallet :=
  let nOrderPos := nOrderPosNext w in
  let wtxOrdered := insert_ordered nOrderPos (OrderedTx hash) (wtxOrdered w) in
  let nTimeReceived := to_u32 (env_time env) in
  let nTimeSmart :=
    if w_hashBlock wtxIn =? 0 then nTimeReceived
    else
      match mapBlockIndex (env_node env) !! w_hashBlock wtxIn with
      | None => nTimeReceived
      | Some e =>
        let '(latestEntry, latestNow) :=
          smart_time (mapWallet w) hash (to_u32 (nTimeReceived + 300)) nTimeReceived (rev (map snd wtxOrdered)) in
        Z.max latestEntry (Z.min (bi_nTime (e_index e)) latestNow)
      end in
  let wtx := WalletTx (w_tx wtxIn) (w_hashBlock wtxIn) (w_vMerkleBranch wtxIn) (w_nIndex wtxIn) nTimeReceived nTimeSmart
    (w_fFromMe wtxIn) (vfSpent wtxIn) nOrderPos in
  set_mapWallet (<[hash := wtx]> (mapWallet w)) (set_order_next wtxOrdered (nOrderPos + 1) w).

(** A transaction the wallet has. *)
Definition merge_wtx (wtxIn wtx : CWalletTx) : CWalletTx :=
  let hashBlock := if negb (w_hashBlock wtxIn =? 0) then w_hashBlock wtxIn else w_hashBlock wtx in
  let '(branch, nIndex) :=
    if negb (w_nIndex wtxIn =? -1) then (w_vMerkleBranch wtxIn, w_nIndex wtxIn) else (w_vMerkleBranch wtx, w_nIndex wtx) in
  WalletTx (w_tx wtx) hashBlock branch nIndex (w_nTimeReceived wtx) (w_nTimeSmart wtx) (w_fFromMe wtxIn || w_fFromMe wtx)
    (fst (UpdateSpent (vfSpent wtxIn) (vfSpent wtx))) (w_nOrderPos wtx).

Definition AddToWallet (env : WalletEnv) (wtxIn : CWalletTx) (fFromLoadWallet : bool) (w : CWallet) : outcome unit CWallet :=
  let hash := tx_GetHash (w_tx wtxIn) in
  if fFromLoadWallet then
    AddToSpends hash
      (set_mapWallet (<[hash := wtxIn]> (mapWallet w))
        (set_order_next (insert_ordered (w_nOrderPos wtxIn) (OrderedTx hash) (wtxOrdered w)) (nOrderPosNext w) w))
  else
    match mapWallet w !! hash with
    | None => mret (insert_new env hash wtxIn w)
    | Some wtx => mret (set_mapWallet (<[hash := merge_wtx wtxIn wtx]> (mapWallet w)) w)
    end.

(** [EraseFromWallet], of a wallet with a file. *)
Definition EraseFromWallet (hash : Z) (w : CWallet) : CWallet := set_mapWallet (delete hash (mapWallet w)) w.

(** The loop of [DisableTransaction] over the inputs. *)
Fixpoint unspend_inputs (ins : list CTxIn) (w : CWallet) : outcome unit CWallet :=
  match ins with
  | [] => mret w
  | txin :: ins =>
    let hash := prevout_hash (prevout txin) in
    match mapWallet w !! hash with
    | None => unspend_inputs ins w
    | Some prev =>
      match vout (w_tx prev) !! Z.to_nat (prevout_n (prevout txin)) with
      | None => unspend_inputs ins w
      | Some o =>
        mine ← IsMine_out w o;
        if bool_decide (mine = ISMINE_NO) then unspend_inputs ins w
        else
          prev ← MarkUnspent (prevout_n (prevout txin)) prev;
          unspend_inputs ins (set_mapWallet (<[hash := prev]> (mapWallet w)) w)
      end
    end
  end.

Definition DisableTransaction (tx : CTransaction) (w : CWallet) : outcome unit CWallet :=
  if negb (IsCoinStake tx) then mret w
  else
    nDebit ← GetDebit_tx w ISMINE_ALL tx;
    if negb (0 <? nDebit) then mret w else unspend_inputs (vin tx) w.

(** [FixSpentCoins]: the counters and the flags of one transaction, from its
    index record. *)
Fixpoint fix_outputs (w : CWallet) (fCheckOnly : bool) (txindex : CTxIndex) (n : Z) (outs : list CTxOut) (coin : CWalletTx) (nFound nBalance : Z)
    : outcome unit (CWalletTx * Z * Z) :=
  match outs with
  | [] => mret (coin, nFound, nBalance)
  | o :: outs =>
    mine ← IsMine_out w o;
    spent ← wtx_IsSpent n coin;
    let in_index := (n <? zlen (vSpent txindex)) && negb (pos_IsNull (nth (Z.to_nat n) (vSpent txindex) null_pos)) in
    if negb (bool_decide (mine = ISMINE_NO)) && negb (eqb spent in_index) then
      coin ← (if fCheckOnly then mret coin else set_spent_flag in_index n coin);
      fix_outputs w fCheckOnly txindex (n + 1) outs coin (nFound + 1) (to_i64 (nBalance + nValue o))
    else fix_outputs w fCheckOnly txindex (n + 1) outs coin nFound nBalance
  end.

Fixpoint fix_coins (txdb : tx_db) (fCheckOnly : bool) (l : list (Z * CWalletTx)) (nFound nBalance : Z) (w : CWallet)
    : outcome unit (CWallet * Z * Z) :=
  match l with
  | [] => mret (w, nFound, nBalance)
  | (h, coin) :: l =>
    match txdb !! tx_GetHash (w_tx coin) with
    | None => fix_coins txdb fCheckOnly l nFound nBalance w
    | Some txindex =>
      '(coin, nFound, nBalance) ← fix_outputs w fCheckOnly txindex 0 (vout (w_tx coin)) coin nFound nBalance;
      fix_coins txdb fCheckOnly l nFound nBalance (set_mapWallet (<[h := coin]> (mapWallet w)) w)
    end
  end.

Definition FixSpentCoins (txdb : tx_db) (fCheckOnly : bool) (w : CWallet) : outcome unit (CWallet * Z * Z) :=
  fix_coins txdb fCheckOnly (wallet_entries w) 0 0 w.

(** ** The key pool *)

Section keys.
Context {SECP : Secp256k1}.

(** The keys made, by the index they get, with the random bytes of the test
    of the key; the time. *)
Variables (newkey : Z -> CKey) (test_bytes : Z -> list Z) (now : Z).

Definition GenerateNewKey (nEnd : Z) (w : CWallet) : outcome unit (pubkey_bytes * CWallet) :=
  let secret := newkey nEnd in
  pubkey ← GetPubKey secret;
  ok ← VerifyPubKey secret (test_bytes nEnd) pubkey;
  _ ← assert_that ok;
  let ks := AddKeyPubKey (w_keys w) secret pubkey in
  let script := GetScriptForDestination (CKeyID (pubkey_GetID pubkey)) in
  mret (pubkey, set_keys (if HaveWatchOnly ks script then RemoveWatchOnly ks script else ks) w).

(** [TopUpKeyPool] with the target size. *)
Fixpoint top_up (fuel : nat) (nTargetSize : Z) (w : CWallet) : outcome unit CWallet :=
  match fuel with
  | O => Crash
  | S fuel =>
    if Z.of_nat (size (setKeyPool w)) <? nTargetSize + 1 then
      let nEnd := match last (in_order (setKeyPool w)) with Some n => n + 1 | None => 1 end in
      '(pubkey, w) ← GenerateNewKey nEnd w;
      top_up fuel nTargetSize (set_keypool ({[nEnd]} ∪ setKeyPool w) (<[nEnd := KeyPoolEntry now pubkey]> (w_pool w)) w)
    else mret w
  end.

Definition TopUpKeyPool (nTargetSize : Z) (w : CWallet) : outcome unit CWallet :=
  top_up (S (Z.to_nat (nTargetSize + 1))) nTargetSize w.

(** [ReserveKeyFromKeyPool]: [None] is the index -1. *)
Definition ReserveKeyFromKeyPool (nTargetSize : Z) (w : CWallet) : outcome unit (option (Z * CKeyPool) * CWallet) :=
  w ← TopUpKeyPool nTargetSize w;
  match head (in_order (setKeyPool w)) with
  | None => mret (None, w)
  | Some nIndex =>
    let w := set_keypool (setKeyPool w ∖ {[nIndex]}) (w_pool w) w in
    match w_pool w !! nIndex with
    | None => Throw
    | Some keypool =>
      _ ← throw_if (negb (HaveKey (w_keys w) (pubkey_GetID (kp_vchPubKey keypool))));
      _ ← assert_that (pubkey_IsValid (kp_vchPubKey keypool));
      mret (Some (nIndex, keypool), w)
    end
  end.

(** [KeepKey] and [ReturnKey] of the wallet *)
Definition KeepKey (nIndex : Z) (w : CWallet) : CWallet := set_keypool (setKeyPool w) (delete nIndex (w_pool w)) w.
Definition ReturnKey (nIndex : Z) (w : CWallet) : CWallet := set_keypool ({[nIndex]} ∪ setKeyPool w) (w_pool w) w.

(** [CReserveKey]: the index, -1 for none, and the key. *)
Record CReserveKey : Type := ReserveKey { rk_nIndex : Z; rk_vchPubKey : pubkey_bytes }.
Definition CReserveKey_new : CReserveKey := ReserveKey (-1) CPubKey_new.

(** [GetReservedKey]; the default key of the wallet stands in for an empty
    pool. *)
Definition GetReservedKey (nTargetSize : Z) (vchDefaultKey : pubkey_bytes) (r : CReserveKey) (w : CWallet)
    : outcome unit (option pubkey_bytes * CReserveKey * CWallet) :=
  '(ok, r, w) ←
    (if rk_nIndex r =? -1 then
       '(reserved, w) ← ReserveKeyFromKeyPool nTargetSize w;
       match reserved with
       | Some (nIndex, keypool) => mret (true, ReserveKey nIndex (kp_vchPubKey keypool), w)
       | None => if pubkey_IsValid vchDefaultKey then mret (true, ReserveKey (-1) vchDefaultKey, w) else mret (false, r, w)
       end
     else mret (true, r, w));
  if negb ok then mret (None, r, w)
  else
    _ ← assert_that (pubkey_IsValid (rk_vchPubKey r));
    mret (Some (rk_vchPubKey r), r, w).

Definition reserve_KeepKey (r : CReserveKey) (w : CWallet) : CReserveKey * CWallet :=
  (CReserveKey_new, if negb (rk_nIndex r =? -1) then KeepKey (rk_nIndex r) w else w).
Definition reserve_ReturnKey (r : CReserveKey) (w : CWallet) : CReserveKey * CWallet :=
  (CReserveKey_new, if negb (rk_nIndex r =? -1) then ReturnKey (rk_nIndex r) w else w).
End keys.

(** ** Committing a transaction *)

(** The loop over the inputs that marks the coins: [mapWallet[hash]] of an
    unknown transaction is a new entry without outputs, for which
    [MarkSpent] throws. *)
Fixpoint mark_inputs (ins : list CTxIn) (w : CWallet) : outcome unit CWallet :=
  match ins with
  | [] => mret w
  | txin :: ins =>
    let hash := prevout_hash (prevout txin) in
    match mapWallet w !! hash with
    | None => Throw
    | Some coin =>
      coin ← MarkSpent (prevout_n (prevout txin)) coin;
      mark_inputs ins (set_mapWallet (<[hash := coin]> (mapWallet w)) w)
    end
  end.

(** [CommitTransaction] up to the broadcast, without the search for stealth
    payments before it. *)
Definition CommitTransaction (env : WalletEnv) (wtxNew : CWalletTx) (r : CReserveKey) (w : CWallet) : outcome unit (CReserveKey * CWallet) :=
  let '(r, w) := reserve_KeepKey r w in
  w ← AddToWallet env wtxNew false w;
  w ← mark_inputs (vin (w_tx wtxNew)) w;
  mret (r, w).
End wallet.
