(* ===== verification/Payment.v ===== *)
(** * Choosing coins and creating transactions

    [wallet.cpp]: the rounds of mixing of an input, the stochastic subset sum,
    [SelectCoinsMinConf], [SelectCoins], [SelectCoinsForStaking] and
    [CreateTransaction].  Random numbers are arguments.  A coin is a value
    with the key of its transaction and the number of its output. *)

From stdpp Require Import sorting.
From S2P Require Import Prelude Opcode Script SigEncoding Interp Serialize Transaction SigHash Chain TxConnect Standard Policy Mempool Block ChainState Keys Sign Wallet.

Local Open Scope Z_scope.

Definition coin_id : Type := Z * Z.
Definition coin : Type := Z * coin_id.

Section select.
Context {SH : ScriptHashes}.
Variables (env : WalletEnv) (w : CWallet).

(** The output [coin.first->vout[coin.second]]; [None] is out of range. *)
Definition coin_out (c : coin_id) : option CTxOut :=
  wtx ← mapWallet w !! fst c; vout (w_tx wtx) !! Z.to_nat (snd c).

(** ** Rounds of mixing *)

(** [mDenomWtxes]: the rounds of the outputs of the transactions seen, -10
    where they are not known yet. *)
Abbreviation rounds_memo := (gmap Z (list Z)).

Definition set_rounds (hash nout n : Z) (memo : rounds_memo) : rounds_memo := alter (<[Z.to_nat nout := n]>) hash memo.

(** [GetRealInputStashedsendRounds(in, rounds)] for [rounds = 16 - fuel]. *)
Fixpoint GetRealInputStashedsendRounds (fuel : nat) (txin : CTxIn) (memo : rounds_memo) : outcome unit (Z * rounds_memo) :=
  let rounds := 16 - Z.of_nat fuel in
  match fuel with
  | O => mret (15, memo)
  | S fuel =>
    let hash := prevout_hash (prevout txin) in
    let nout := prevout_n (prevout txin) in
    match mapWallet w !! hash with
    | None => mret (rounds - 1, memo)
    | Some wtx =>
      '(known, memo) ←
        match memo !! hash with
        | None => mret (None, <[hash := map (fun _ => -10) (vout (w_tx wtx))]> memo)
        | Some vRounds =>
          match vRounds !! Z.to_nat nout with
          | None => Crash
          | Some n => mret (if n =? -10 then None else Some n, memo)
          end
        end;
      match known with
      | Some n => mret (n, memo)
      | None =>
        match vout (w_tx wtx) !! Z.to_nat nout with
        | None => mret (-4, memo)
        | Some o =>
          if IsCollateralAmount (nValue o) then mret (-3, set_rounds hash nout (-3) memo)
          else if negb (IsDenominatedAmount env (nValue o)) then mret (-2, set_rounds hash nout (-2) memo)
          else if negb (forallb (fun o => IsDenominatedAmount env (nValue o)) (vout (w_tx wtx))) then mret (0, set_rounds hash nout 0 memo)
          else
            '(nShortest, memo) ←
              (fix go (ins : list CTxIn) (nShortest : Z) (memo : rounds_memo) : outcome unit (Z * rounds_memo) :=
                 match ins with
                 | [] => mret (nShortest, memo)
                 | in2 :: ins =>
                   mine ← IsMine_in w in2;
                   if bool_decide (mine = ISMINE_NO) then go ins nShortest memo
                   else
                     '(n, memo) ← GetRealInputStashedsendRounds fuel in2 memo;
                     go ins (if (0 <=? n) && ((n <? nShortest) || (nShortest =? -10)) then n else nShortest) memo
                 end) (vin (w_tx wtx)) (-10) memo;
            let n := if nShortest =? -10 then 0 else if 15 <=? nShortest then 16 else nShortest + 1 in
            mret (n, set_rounds hash nout n memo)
        end
      end
    end
  end.

Definition GetInputStashedsendRounds (c : coin_id) (memo : rounds_memo) : outcome unit (Z * rounds_memo) :=
  let txin := {| prevout := {| prevout_hash := fst c; prevout_n := snd c |}; scriptSig := []; nSequence := UINT_MAX |} in
  '(n, memo) ← GetRealInputStashedsendRounds 16 txin memo;
  mret (if nStashedsendRounds env <? n then nStashedsendRounds env else n, memo).

(** ** [ApproximateBestSubset] *)

(** [vfIncluded], [nTotal], [fReachedTarget], [vfBest], [nBest] *)
Record subset : Type := Subset {
  vfIncluded : list bool; ss_nTotal : Z; fReachedTarget : bool; vfBest : list bool; nBest : Z
}.

Definition subset_step (vValue : list Z) (nTargetValue : Z) (choose : nat -> list bool -> bool) (s : subset) (i : nat) : subset :=
  if choose i (vfIncluded s) then
    let v := nth i vValue 0 in
    let nTotal := to_i64 (ss_nTotal s + v) in
    let vfIncluded' := <[i := true]> (vfIncluded s) in
    if nTargetValue <=? nTotal then
      let '(vfBest', nBest') := if nTotal <? nBest s then (vfIncluded', nTotal) else (vfBest s, nBest s) in
      Subset (<[i := false]> vfIncluded') (to_i64 (nTotal - v)) true vfBest' nBest'
    else Subset vfIncluded' nTotal (fReachedTarget s) (vfBest s) (nBest s)
  else s.

Definition subset_pass (vValue : list Z) (nTargetValue : Z) (choose : nat -> list bool -> bool) (s : subset) : subset :=
  foldl (subset_step vValue nTargetValue choose) s (seq 0 (length vValue)).

(** One repetition: the first pass includes what [rand] says, the second what
    is not included. *)
Definition subset_rep (vValue : list Z) (nTargetValue : Z) (rand : nat -> bool) (best : list bool * Z) : list bool * Z :=
  let s := Subset (replicate (length vValue) false) 0 false (fst best) (snd best) in
  let s := subset_pass vValue nTargetValue (fun i _ => rand i) s in
  let s := if fReachedTarget s then s
           else subset_pass vValue nTargetValue (fun i inc => negb (nth i inc false)) s in
  (vfBest s, nBest s).

Fixpoint subset_reps (iterations : nat) (vValue : list Z) (nTargetValue : Z) (rand : nat -> nat -> bool) (nRep : nat)
    (best : list bool * Z) : list bool * Z :=
  match iterations with
  | O => best
  | S iterations =>
    if snd best =? nTargetValue then best
    else subset_reps iterations vValue nTargetValue rand (S nRep) (subset_rep vValue nTargetValue (rand nRep) best)
  end.

(** [rand nRep i] is the bit of [insecure_rand()] for output [i] in repetition
    [nRep]. *)
Definition ApproximateBestSubset (vValue : list Z) (nTotalLower nTargetValue : Z) (rand : nat -> nat -> bool) : list bool * Z :=
  subset_reps 1000 vValue nTargetValue rand 0 (replicate (length vValue) true, nTotalLower).

(** ** [SelectCoinsMinConf] *)

(** What the loop over the coins finds: an exact coin, with which the
    function returns, or the smaller coins, their total and the least larger
    one. *)
Inductive scan_result : Type :=
| ScanExact (c : coin)
| ScanDone (vValue : list coin) (nTotalLower : Z) (coinLowestLarger : option coin).

Fixpoint scan_coins (tryDenom : nat) (nTargetValue nSpendTime nConfMine nConfTheirs : Z) (vCoins : list COutput)
    (vValue : list coin) (nTotalLower : Z) (coinLowestLarger : option coin) : outcome unit scan_result :=
  match vCoins with
  | [] => mret (ScanDone vValue nTotalLower coinLowestLarger)
  | output :: vCoins =>
    let next := scan_coins tryDenom nTargetValue nSpendTime nConfMine nConfTheirs vCoins in
    if negb (o_fSpendable output) then next vValue nTotalLower coinLowestLarger
    else
      match mapWallet w !! o_tx output with
      | None => Crash
      | Some pcoin =>
        fromMe ← wtx_IsFromMe w pcoin;
        if o_nDepth output <? (if fromMe : bool then nConfMine else nConfTheirs) then next vValue nTotalLower coinLowestLarger
        else if nSpendTime <? nTime (w_tx pcoin) then next vValue nTotalLower coinLowestLarger
        else
          match vout (w_tx pcoin) !! Z.to_nat (o_i output) with
          | None => Crash
          | Some o =>
            let n := nValue o in
            if Nat.eqb tryDenom 0 && IsDenominatedAmount env n then next vValue nTotalLower coinLowestLarger
            else
              let coin := (n, (o_tx output, o_i output)) in
              if n =? nTargetValue then mret (ScanExact coin)
              else if n <? to_i64 (nTargetValue + CENT) then next (vValue ++ [coin]) (to_i64 (nTotalLower + n)) coinLowestLarger
              else if n <? match coinLowestLarger with Some c => fst c | None => INT64_MAX end
              then next vValue nTotalLower (Some coin)
              else next vValue nTotalLower coinLowestLarger
          end
      end
  end.

(** [setCoinsRet] with [nValueRet] *)
Abbreviation selection := (gset coin_id * Z)%type.

Definition add_coin (s : selection) (c : coin) : selection := ({[snd c]} ∪ fst s, to_i64 (snd s + fst c)).

(** [less_then_denom] puts the denominated outputs last; [CompareValueOnly]
    from the end sorts by falling value. *)
Definition denom_of (output : COutput) : bool :=
  match coin_out (o_tx output, o_i output) with Some o => IsDenominatedAmount env (nValue o) | None => false end.
Definition denoms_last (a b : COutput) : Prop := denom_of a = true -> denom_of b = true.
#[global] Instance denoms_last_dec a b : Decision (denoms_last a b).
Proof. unfold denoms_last. apply _. Defined.
Definition falling (a b : coin) : Prop := fst b <= fst a.
#[global] Instance falling_dec a b : Decision (falling a b).
Proof. unfold falling. apply _. Defined.

(** The two calls of [ApproximateBestSubset]. *)
Definition two_subsets (vValue : list Z) (nTotalLower nTargetValue : Z) (rand1 rand2 : nat -> nat -> bool) : list bool * Z :=
  let nTargetCent := to_i64 (nTargetValue + CENT) in
  let '(vfBest, nBest) := ApproximateBestSubset vValue nTotalLower nTargetValue rand1 in
  if negb (nBest =? nTargetValue) && (nTargetCent <=? nTotalLower)
  then ApproximateBestSubset vValue nTotalLower nTargetCent rand2 else (vfBest, nBest).

(** What [SelectCoinsMinConf] decides from the coins found. *)
Definition choose_coins (nTargetValue : Z) (rand1 rand2 : nat -> nat -> bool) (vValue : list coin) (nTotalLower : Z)
    (coinLowestLarger : option coin) : bool * selection :=
  if nTotalLower =? nTargetValue then (true, foldl add_coin (∅, 0) vValue)
  else if nTotalLower <? nTargetValue then
    match coinLowestLarger with
    | None => (false, (∅, 0))
    | Some c => (true, add_coin (∅, 0) c)
    end
  else
    let vValue := merge_sort falling vValue in
    let nTargetCent := to_i64 (nTargetValue + CENT) in
    let '(vfBest, nBest) := two_subsets (map fst vValue) nTotalLower nTargetValue rand1 rand2 in
    let best := (true, foldl add_coin (∅, 0) (map fst (filter (fun p => snd p = true) (zip vValue vfBest)))) in
    match coinLowestLarger with
    | Some c =>
      if (negb (nBest =? nTargetValue) && (nBest <? nTargetCent)) || (fst c <=? nBest) then (true, add_coin (∅, 0) c) else best
    | None => best
    end.

(** The randomness of one call: the shuffle and the two series of bits. *)
Record select_random : Type := { shuffle : list COutput -> list COutput; rand1 : nat -> nat -> bool; rand2 : nat -> nat -> bool }.

(** The body of the loop over [tryDenom] returns on every branch, so there is
    no second round with [tryDenom] equal to 1. *)
Definition SelectCoinsMinConf (rnd : select_random) (nTargetValue nSpendTime nConfMine nConfTheirs : Z) (vCoins : list COutput)
    : outcome unit (bool * selection) :=
  let vCoins := merge_sort denoms_last (shuffle rnd vCoins) in
  found ← scan_coins 0 nTargetValue nSpendTime nConfMine nConfTheirs vCoins [] 0 None;
  match found with
  | ScanExact c => mret (true, add_coin (∅, 0) c)
  | ScanDone vValue nTotalLower coinLowestLarger =>
    mret (choose_coins nTargetValue (rand1 rnd) (rand2 rnd) vValue nTotalLower coinLowestLarger)
  end.

(** ** [SelectCoins] *)

(** The coins the user selected, or all denominated ones in the loop over one
    denomination; [None] in [limit] is no limit. *)
Fixpoint take_coins (mixed : bool) (want : Z -> Z -> bool) (l : list COutput) (s : selection) (memo : rounds_memo)
    : outcome unit (selection * rounds_memo) :=
  match l with
  | [] => mret (s, memo)
  | out :: l =>
    match coin_out (o_tx out, o_i out) with
    | None => Crash
    | Some o =>
      if negb (want (snd s) (nValue o)) then take_coins mixed want l s memo
      else
        '(enough, memo) ←
          (if mixed then '(n, memo) ← GetInputStashedsendRounds (o_tx out, o_i out) memo; mret (nStashedsendRounds env <=? n, memo)
           else mret (true, memo));
        if negb enough then take_coins mixed want l s memo
        else take_coins mixed want l (add_coin s (nValue o, (o_tx out, o_i out))) memo
    end
  end.

(** The loop over the denominations; [0.1*COIN+100] is added in double, which
    is exact for these amounts. *)
Fixpoint take_denominations (nTargetValue : Z) (ds : list Z) (vCoins : list COutput) (s : selection) (memo : rounds_memo)
    : outcome unit (selection * rounds_memo) :=
  match ds with
  | [] => mret (s, memo)
  | v :: ds =>
    '(s, memo) ← take_coins true (fun nValueRet n => (n =? v) && (nValueRet + n <? nTargetValue + 10000000 + 100)) vCoins s memo;
    take_denominations nTargetValue ds vCoins s memo
  end.

Definition is_denominated (t : AvailableCoinsType) : bool := match t with ONLY_DENOMINATED => true | _ => false end.

Definition SelectCoins (rnd : nat -> select_random) (nTargetValue nSpendTime : Z) (coinControl : option CCoinControl)
    (coin_type : AvailableCoinsType) (useIX : bool) (memo : rounds_memo) : outcome unit (bool * selection * rounds_memo) :=
  vCoins ← AvailableCoins env w true coinControl coin_type useIX;
  if match coinControl with Some c => HasSelected c | None => false end then
    '(s, memo) ← take_coins (is_denominated coin_type) (fun _ _ => true) (filter (fun o => o_fSpendable o = true) vCoins) (∅, 0) memo;
    mret (nTargetValue <=? snd s, s, memo)
  else if is_denominated coin_type then
    '(s, memo) ← take_denominations nTargetValue (stashedSendDenominations env) vCoins (∅, 0) memo;
    mret (nTargetValue <=? snd s, s, memo)
  else
    '(ok, s) ← SelectCoinsMinConf (rnd 0%nat) nTargetValue nSpendTime 1 10 vCoins;
    if ok : bool then mret (true, s, memo)
    else
      '(ok, s) ← SelectCoinsMinConf (rnd 1%nat) nTargetValue nSpendTime 1 1 vCoins;
      if ok : bool then mret (true, s, memo)
      else
        '(ok, s) ← SelectCoinsMinConf (rnd 2%nat) nTargetValue nSpendTime 0 1 vCoins;
        mret (ok, s, memo).

(** [SelectCoinsForStaking]: the loop, and the call, which is always true. *)
Fixpoint staking_loop (nTargetValue : Z) (vCoins : list COutput) (s : selection) : outcome unit selection :=
  match vCoins with
  | [] => mret s
  | output :: vCoins =>
    if negb (o_fSpendable output) then staking_loop nTargetValue vCoins s
    else if nTargetValue <=? snd s then mret s
    else
      match coin_out (o_tx output, o_i output) with
      | None => Crash
      | Some o =>
        let s' := add_coin s (nValue o, (o_tx output, o_i output)) in
        if nTargetValue <=? nValue o then mret s'
        else if nValue o <? to_i64 (nTargetValue + CENT) then staking_loop nTargetValue vCoins s'
        else staking_loop nTargetValue vCoins s
      end
  end.

Definition SelectCoinsForStaking (nStakeMinAge nTargetValue nSpendTime : Z) : outcome unit selection :=
  vCoins ← AvailableCoinsForStaking env w nStakeMinAge nSpendTime;
  staking_loop nTargetValue vCoins (∅, 0).
End select.

(** * Creating a transaction

    [CWallet::CreateTransaction]: the loop that chooses coins for the payments
    and the fee, adds the change, signs, and starts again with a higher fee
    when the one chosen is too low. *)

Section create.
Context {SH : ScriptHashes} {SECP : Secp256k1}.

(** [CTxOut::IsDust] *)
Definition IsDust (o : CTxOut) (nMinRelayTxFee : Z) : bool :=
  Z.quot (to_i64 (nValue o * 1000)) (3 * (txout_size o + 148)) <? nMinRelayTxFee.

(** The total of the payments; [None] when it gets negative on the way. *)
Fixpoint total_value (vecSend : list (list Z * Z)) (nValue : Z) : option Z :=
  match vecSend with
  | [] => Some nValue
  | (_, n) :: vecSend => if nValue <? 0 then None else total_value vecSend (to_i64 (nValue + n))
  end.

(** Whether an output to a payee is accepted. *)
Definition payee_ok (txout : CTxOut) : bool :=
  let special := txout_IsNull txout || (negb (txout_IsEmpty txout) && (nValue txout =? 0)) in
  let '(solved, whichType, _) := Solver (scriptPubKey txout) in
  if special && (negb solved || bool_decide (whichType = TX_NONSTANDARD)) then false
  else (special && bool_decide (whichType = TX_NULL_DATA)) || negb (IsDust txout MIN_RELAY_TX_FEE).

Definition payee_out (p : list Z * Z) : CTxOut := {| nValue := snd p; scriptPubKey := fst p |}.

(** The outputs to the payees, up to the first that is refused. *)
Fixpoint payee_outputs (vecSend : list (list Z * Z)) : bool * list CTxOut :=
  match vecSend with
  | [] => (true, [])
  | p :: vecSend =>
    if negb (payee_ok (payee_out p)) then (false, [])
    else let '(ok, outs) := payee_outputs vecSend in (ok, payee_out p :: outs)
  end.

(** The selected coins in the order of the set: by the pointer to their
    transaction, which [order] puts in some order. *)
Variable order : gset coin_id -> list coin_id.

Definition coin_input (c : coin_id) : CTxIn :=
  {| prevout := {| prevout_hash := fst c; prevout_n := snd c |}; scriptSig := []; nSequence := UINT_MAX |}.

(** The loop that signs the inputs; the boolean is false where one cannot be
    signed. *)
Fixpoint sign_inputs (w : CWallet) (coins : list coin_id) (nIn : Z) (tx : CTransaction) : outcome unit (bool * CTransaction) :=
  match coins with
  | [] => mret (true, tx)
  | c :: coins =>
    match mapWallet w !! fst c with
    | None => Crash
    | Some wtx =>
      '(ok, tx) ← SignSignature_from (w_keys w) (w_tx wtx) tx nIn SIGHASH_ALL;
      if ok : bool then sign_inputs w coins (nIn + 1) tx else mret (false, tx)
    end
  end.

(** The state of [CreateTransaction]: the wallet (its key pool), the reserved
    key, the transaction, the fee and the memory of the mixing rounds. *)
Record creation : Type := Creation {
  c_wallet : CWallet; c_key : CReserveKey; c_tx : CTransaction; nFeeRet : Z; c_memo : gmap Z (list Z)
}.

(** What is random or computed in double, for each round: the selection, the
    place of the change (a result of [GetRandInt]), whether the priority
    allows a free transaction. *)
Record round_random : Type := {
  rr_select : nat -> select_random; rr_change : Z -> Z; rr_free : CTransaction -> bool
}.

Variables (env : WalletEnv) (newkey : Z -> CKey) (test_bytes : Z -> list Z) (now nKeyPool : Z) (vchDefaultKey : pubkey_bytes).

(** The script of the change: the destination of the coin control or a key of
    the pool. *)
Definition change_script (coinControl : option CCoinControl) (key : CReserveKey) (w : CWallet)
    : outcome unit (list Z * CReserveKey * CWallet) :=
  let custom := match coinControl with Some c => destChange c | None => CNoDestination end in
  match custom with
  | CNoDestination =>
    '(vchPubKey, key, w) ← GetReservedKey newkey test_bytes now nKeyPool vchDefaultKey key w;
    match vchPubKey with
    | None => Crash
    | Some pub => mret (GetScriptForDestination (CKeyID (pubkey_GetID pub)), key, w)
    end
  | dest => mret (GetScriptForDestination dest, key, w)
  end.

(** The change: the outputs, the fee, the key and the wallet. *)
Definition add_change (rr : round_random) (coinControl : option CCoinControl) (nChange : Z) (outs : list CTxOut) (nFeeRet : Z)
    (key : CReserveKey) (w : CWallet) : outcome unit (list CTxOut * Z * CReserveKey * CWallet) :=
  if 0 <? nChange then
    '(scriptChange, key, w) ← change_script coinControl key w;
    let newTxOut := {| nValue := nChange; scriptPubKey := scriptChange |} in
    if IsDust newTxOut MIN_RELAY_TX_FEE then
      let '(key, w) := reserve_ReturnKey key w in
      mret (outs, to_i64 (nFeeRet + nChange), key, w)
    else
      let position := Z.to_nat (rr_change rr (zlen outs + 1)) in
      mret (take position outs ++ newTxOut :: drop position outs, nFeeRet, key, w)
  else
    let '(key, w) := reserve_ReturnKey key w in
    mret (outs, nFeeRet, key, w).

(** One round of the loop: [None] is another round with the higher fee, and a
    boolean the result. *)
Definition create_round (rr : round_random) (vecSend : list (list Z * Z)) (nValue : Z) (coinControl : option CCoinControl)
    (coin_type : AvailableCoinsType) (useIX : bool) (c : creation) : outcome unit (option bool * creation) :=
  let tx := with_vout (with_vin (c_tx c) []) [] in
  let nTotalValue := to_i64 (nValue + nFeeRet c) in
  let '(accepted, outs) := payee_outputs vecSend in
  let tx := with_vout tx outs in
  if negb accepted then mret (Some false, Creation (c_wallet c) (c_key c) tx (nFeeRet c) (c_memo c))
  else
    '(ok, s, memo) ← SelectCoins env (c_wallet c) (rr_select rr) nTotalValue (nTime tx) coinControl coin_type useIX (c_memo c);
    if negb ok then mret (Some false, Creation (c_wallet c) (c_key c) tx (nFeeRet c) memo)
    else
      let '(setCoins, nValueIn) := s in
      let nChange := to_i64 (to_i64 (nValueIn - nValue) - nFeeRet c) in
      let '(nFee, nChange) := if is_denominated coin_type then (to_i64 (nFeeRet c + nChange), 0) else (nFeeRet c, nChange) in
      '(outs, nFee, key, w) ← add_change rr coinControl nChange outs nFee (c_key c) (c_wallet c);
      let coins := order setCoins in
      let tx := with_vin (with_vout tx outs) (map coin_input coins) in
      '(signed, tx) ← sign_inputs w coins 0 tx;
      if negb signed then mret (Some false, Creation w key tx nFee memo)
      else
        let nBytes := tx_size tx in
        if MAX_STANDARD_TX_SIZE <=? nBytes then mret (Some false, Creation w key tx nFee memo)
        else
          let nPayFee := to_i64 (nTransactionFee env * (1 + nBytes / 1000)) in
          let nMinFee := GetMinFee tx nBytes (rr_free rr tx) GMF_SEND in
          if nFee <? Z.max nPayFee nMinFee then
            let nFee := Z.max nPayFee nMinFee in
            mret (None, Creation w key tx (if useIX then Z.max CENT nFee else nFee) memo)
          else mret (Some true, Creation w key tx nFee memo).

(** The loop; [None] is the end of the fuel. *)
Fixpoint create_loop (fuel : nat) (rnd : nat -> round_random) (vecSend : list (list Z * Z)) (nValue : Z) (coinControl : option CCoinControl)
    (coin_type : AvailableCoinsType) (useIX : bool) (c : creation) : outcome unit (option (bool * creation)) :=
  match fuel with
  | O => mret None
  | S fuel =>
    '(result, c) ← create_round (rnd fuel) vecSend nValue coinControl coin_type useIX c;
    match result with
    | Some b => mret (Some (b, c))
    | None => create_loop fuel rnd vecSend nValue coinControl coin_type useIX c
    end
  end.

Definition CreateTransaction (fuel : nat) (rnd : nat -> round_random) (vecSend : list (list Z * Z)) (coinControl : option CCoinControl)
    (coin_type : AvailableCoinsType) (useIX : bool) (c : creation) : outcome unit (option (bool * creation)) :=
  match total_value vecSend 0 with
  | None => mret (Some (false, c))
  | Some nValue =>
    if bool_decide (vecSend = []) || (nValue <? 0) then mret (Some (false, c))
    else
      let nFee := nTransactionFee env in
      let nFee := if useIX then Z.max CENT nFee else nFee in
      create_loop fuel rnd vecSend nValue coinControl coin_type useIX
        (Creation (c_wallet c) (c_key c) (c_tx c) nFee (c_memo c))
  end.
End create.
