(* ===== verification/SelectProps.v ===== *)
(** * Properties of the choice of coins

    The subset sum keeps a subset that reaches its target; a successful
    selection is a set of distinct available coins worth at least the target,
    and the selection fails only when the coins that may be used do not
    suffice.  Denominated coins are never used for ordinary payments. *)

From stdpp Require Import sorting.
From S2P Require Import Prelude Opcode Interp Serialize Transaction SigHash Chain TxConnect Standard Policy Mempool Block ChainState Hash Keys KeysProps Sign SignProps Wallet Payment.

Local Open Scope Z_scope.

(** ** Sums *)

Definition total (l : list Z) : Z := foldr Z.add 0 l.

Lemma total_app l k : total (l ++ k) = total l + total k.
Proof. induction l as [|x l IH]; cbn [app total foldr]; [done|]. fold (total (l ++ k)) (total l). lia. Qed.

#[export] Instance total_perm : Proper (Permutation ==> eq) total.
Proof. intros l k H. unfold total. induction H; cbn [foldr]; lia. Qed.

Lemma total_nonneg l : Forall (fun x => 0 <= x) l -> 0 <= total l.
Proof. induction 1 as [|x l Hx _ IH]; cbn [total foldr]; [done|]. fold (total l). lia. Qed.

Lemma total_filter_le {A} (f : A -> Z) (P : A -> Prop) `{!forall x, Decision (P x)} l :
  Forall (fun x => 0 <= f x) l -> 0 <= total (map f (filter P l)) <= total (map f l).
Proof.
  induction 1 as [|x l Hx _ IH]; [done|]. rewrite filter_cons. destruct (decide (P x)); cbn [map total foldr];
    fold (total (map f l)); try fold (total (map f (filter P l))); lia.
Qed.

Lemma total_elem {A} (f : A -> Z) l x : Forall (fun x => 0 <= f x) l -> x ∈ l -> f x <= total (map f l).
Proof.
  intros Hl [l1 [l2 ->]]%list_elem_of_split. apply Forall_app in Hl as [H1 H2]. apply Forall_cons in H2 as [_ H2].
  rewrite map_app, total_app. cbn [map total foldr]. fold (total (map f l2)).
  pose proof (total_nonneg (map f l1)) as N1. pose proof (total_nonneg (map f l2)) as N2.
  rewrite !Forall_map in N1, N2. specialize (N1 H1). specialize (N2 H2). lia.
Qed.

Lemma Forall_kept {A} (Q P : A -> Prop) `{!forall x, Decision (P x)} (l : list A) : Forall Q l -> Forall Q (filter P l).
Proof. rewrite !Forall_forall. intros HQ x [_ Hx]%list_elem_of_filter. by apply HQ. Qed.

Lemma filter_ext_in {A} (P Q : A -> Prop) `{!forall x, Decision (P x), !forall x, Decision (Q x)} (l : list A) :
  (forall x, x ∈ l -> P x <-> Q x) -> filter P l = filter Q l.
Proof.
  induction l as [|x l IH]; intros HPQ; [done|]. rewrite !filter_cons. rewrite (IH (fun y Hy => HPQ y ltac:(by right))).
  by rewrite (decide_ext (P x) (Q x)) by (apply HPQ; left).
Qed.

Lemma to_i64_small z : - 2 ^ 63 <= z < 2 ^ 63 -> to_i64 z = z.
Proof. intros H. apply to_i64_id. unfold INT64_MIN, INT64_MAX. lia. Qed.

(** ** The subset sum *)

(** The total of the included values. *)
Fixpoint picked (inc : list bool) (vs : list Z) : Z :=
  match inc, vs with
  | b :: inc, v :: vs => (if b then v else 0) + picked inc vs
  | _, _ => 0
  end.

Lemma picked_range inc vs : Forall (fun v => 0 <= v) vs -> 0 <= picked inc vs <= total vs.
Proof.
  intros H. pose proof (total_nonneg vs H) as Hn. revert inc Hn. induction H as [|v vs Hv Hvs IH]; intros [|b inc] Hn; cbn [picked]; [done..|].
  pose proof (total_nonneg vs Hvs) as Hn'. specialize (IH inc Hn'). change (total (v :: vs)) with (v + total vs). destruct b; lia.
Qed.

Lemma picked_insert inc vs i (b : bool) : (i < length inc)%nat -> length inc = length vs ->
  picked (<[i := b]> inc) vs = picked inc vs - (if nth i inc false then nth i vs 0 else 0) + (if b then nth i vs 0 else 0).
Proof.
  revert vs i. induction inc as [|c inc IH]; intros vs i Hi Hl; [cbn in Hi; lia|].
  destruct vs as [|v vs]; [done|]. destruct i as [|i]; cbn [insert list_insert picked nth].
  - destruct b, c; lia.
  - cbn in Hi, Hl. change (list_insert i b inc) with (<[i := b]> inc). rewrite IH by lia. lia.
Qed.

Lemma picked_false n vs : picked (replicate n false) vs = 0.
Proof. revert vs. induction n as [|n IH]; intros [|v vs]; cbn [replicate picked]; [done..|]. rewrite IH. done. Qed.

Lemma picked_true vs : picked (replicate (length vs) true) vs = total vs.
Proof. induction vs as [|v vs IH]; [done|]. cbn [length replicate picked total foldr]. by rewrite IH. Qed.

Section subset.
Context (vs : list Z) (T : Z) (Hvs : Forall (fun v => 0 <= v) vs) (Hbound : total vs < 2 ^ 63).

(** A choice that reaches the target. *)
Definition reaches (best : list bool * Z) : Prop :=
  length (fst best) = length vs /\ picked (fst best) vs = snd best /\ T <= snd best.

Definition subset_ok (s : subset) : Prop :=
  length (vfIncluded s) = length vs /\ picked (vfIncluded s) vs = ss_nTotal s /\ reaches (vfBest s, nBest s).

Lemma subset_step_ok choose s i : subset_ok s -> (i < length vs)%nat ->
  (choose i (vfIncluded s) = true -> nth i (vfIncluded s) false = false) ->
  subset_ok (subset_step vs T choose s i) /\
  forall j, (i < j)%nat -> nth j (vfIncluded (subset_step vs T choose s i)) false = nth j (vfIncluded s) false.
Proof.
  intros (Hl & Hp & Hb) Hi Hch. unfold subset_step. destruct (choose i (vfIncluded s)); [|done]. specialize (Hch eq_refl).
  assert (picked (<[i := true]> (vfIncluded s)) vs = ss_nTotal s + nth i vs 0) as Hp'.
  { rewrite picked_insert by lia. rewrite Hch. lia. }
  pose proof (picked_range (<[i := true]> (vfIncluded s)) vs Hvs). pose proof (picked_range (vfIncluded s) vs Hvs).
  rewrite (to_i64_small (ss_nTotal s + nth i vs 0)) by lia.
  assert (forall j b, (i < j)%nat -> nth j (<[i := b]> (vfIncluded s)) false = nth j (vfIncluded s) false) as Hj.
  { intros j b Hij. rewrite !nth_lookup. by rewrite list_lookup_insert_ne by lia. }
  destruct (Z.leb_spec T (ss_nTotal s + nth i vs 0)).
  - rewrite to_i64_small by lia. rewrite list_insert_insert_eq.
    assert (picked (<[i := false]> (vfIncluded s)) vs = ss_nTotal s) as Hp2 by (rewrite picked_insert by lia; rewrite Hch; lia).
    destruct (_ <? nBest s); (split; [|by intros; apply Hj]); split; cbn; rewrite ?length_insert; try done; split; try lia.
    + split_and!; cbn; rewrite ?length_insert; lia.
    + exact Hb.
  - split; [|by intros; apply Hj]. split; cbn; [by rewrite length_insert|]. split; [lia|exact Hb].
Qed.

(** A pass over indices that chooses only what is not included yet. *)
Lemma subset_pass_ok choose is_ s : subset_ok s -> Forall (fun i => (i < length vs)%nat) is_ -> StronglySorted lt is_ ->
  (forall i inc, choose i inc = true -> nth i inc false = false) \/ (forall j, j ∈ is_ -> nth j (vfIncluded s) false = false) ->
  subset_ok (foldl (subset_step vs T choose) s is_).
Proof.
  revert s. induction is_ as [|i is_ IH]; intros s Hs Hi Hsort Hch; [done|]. cbn [foldl].
  apply Forall_cons in Hi as [Hi His]. apply StronglySorted_inv in Hsort as [Hsort Hlt].
  destruct (subset_step_ok choose s i Hs Hi) as [Hs' Hkeep].
  { destruct Hch as [Hch|Hch]; [apply Hch|]. intros _. apply Hch. left. }
  apply IH; [done..|]. destruct Hch as [Hch|Hch]; [by left|]. right. intros j Hj. rewrite Hkeep; [apply Hch; by right|].
  rewrite Forall_forall in Hlt. by apply Hlt.
Qed.

Lemma StronglySorted_seq k n : StronglySorted lt (seq k n).
Proof. revert k. induction n as [|n IH]; intros k; cbn [seq]; constructor; [apply IH|]. apply Forall_forall. intros j Hj%elem_of_seq. lia. Qed.

Lemma subset_reps_ok iterations rand nRep best : reaches best -> reaches (subset_reps iterations vs T rand nRep best).
Proof.
  revert nRep best. induction iterations as [|k IH]; intros nRep best Hb; cbn [subset_reps]; [done|].
  destruct (_ =? T); [done|]. apply IH. unfold subset_rep. cbv zeta.
  set (s0 := Subset _ _ _ _ _). assert (subset_ok s0) as H0.
  { split; cbn; [by rewrite length_replicate|]. split; [apply picked_false|by destruct best]. }
  assert (Forall (fun i => (i < length vs)%nat) (seq 0 (length vs))) as Hseq by (apply Forall_forall; intros j Hj%elem_of_seq; lia).
  assert (subset_ok (subset_pass vs T (fun i _ => rand nRep i) s0)) as H1.
  { apply subset_pass_ok; [done..|apply StronglySorted_seq|]. right. intros j _. cbn. rewrite nth_lookup.
    destruct (replicate (length vs) false !! j) as [b|] eqn:E; [|done]. apply lookup_replicate in E as [-> _]. done. }
  destruct (fReachedTarget _); [apply H1|]. eapply subset_pass_ok; [exact H1|done|apply StronglySorted_seq|].
  left. intros i inc. by destruct (nth i inc false).
Qed.

(** The subset found is worth [nBest], which reaches the target. *)
Lemma ApproximateBestSubset_ok rand : T <= total vs -> reaches (ApproximateBestSubset vs (total vs) T rand).
Proof. intros H. apply subset_reps_ok. split_and!; cbn; [by rewrite length_replicate|apply picked_true|done]. Qed.
End subset.

(** ** Selections *)

(** The selection of a list of distinct coins. *)
Definition selection_of (l : list coin) : gset coin_id * Z := (list_to_set (map snd l), total (map fst l)).

Lemma fold_add_coin l s : 0 <= snd s -> Forall (fun c => 0 <= fst c) l -> snd s + total (map fst l) < 2 ^ 63 ->
  foldl add_coin s l = (fst s ∪ list_to_set (map snd l), snd s + total (map fst l)).
Proof.
  intros Hs Hl. revert s Hs. induction Hl as [|c l Hc Hl IH]; intros s Hs Hb; cbn [foldl map].
  { destruct s as [a b]. cbn. f_equal; [set_solver|unfold total; cbn; lia]. }
  change (total (map fst (c :: l))) with (fst c + total (map fst l)) in Hb.
  pose proof (total_nonneg (map fst l)) as Hn. rewrite Forall_map in Hn. specialize (Hn Hl).
  assert (add_coin s c = ({[snd c]} ∪ fst s, snd s + fst c)) as -> by (unfold add_coin; by rewrite to_i64_small by lia).
  rewrite IH by (cbn [fst snd]; lia). cbn [fst snd].
  change (total (fst c :: map fst l)) with (fst c + total (map fst l)). f_equal; [set_solver|lia].
Qed.

Lemma fold_add_selection l : Forall (fun c => 0 <= fst c) l -> total (map fst l) < 2 ^ 63 -> foldl add_coin (∅, 0) l = selection_of l.
Proof. intros Hl Hb. rewrite fold_add_coin by (cbn; done). unfold selection_of. cbn. f_equal. set_solver. Qed.

(** The coins of a choice are a part of the list, worth what is picked. *)
Lemma zip_choice (l : list coin) inc : length inc = length l ->
  map fst (filter (fun p => snd p = true) (zip l inc)) `sublist_of` l /\
  total (map fst (map fst (filter (fun p => snd p = true) (zip l inc)))) = picked inc (map fst l).
Proof.
  revert inc. induction l as [|c l IH]; intros [|b inc] Hl; [by split; [constructor|]|done|done|].
  destruct (IH inc) as [H1 H2]; [by injection Hl|].
  change (zip (c :: l) (b :: inc)) with ((c, b) :: zip l inc). rewrite filter_cons. cbn [snd]. destruct b.
  - rewrite decide_True by done. cbn [map fst]. split; [by apply sublist_skip|].
    unfold total in *. cbn [foldr picked]. by rewrite H2.
  - rewrite decide_False by done. cbn [map picked]. split; [by apply sublist_cons|]. by rewrite Z.add_0_l.
Qed.

Section choose.
Context (T : Z) (HT : 0 <= T) (vValue : list coin) (Hv : Forall (fun c => 0 <= fst c) vValue)
  (Hb : T + CENT + total (map fst vValue) < 2 ^ 63).

Lemma sorted_total : total (map fst (merge_sort falling vValue)) = total (map fst vValue).
Proof. by rewrite (merge_sort_Permutation falling). Qed.

Lemma choice_ok best T' : T <= T' -> reaches (map fst (merge_sort falling vValue)) T' best ->
  exists l, foldl add_coin (∅, 0) (map fst (filter (fun p => snd p = true) (zip (merge_sort falling vValue) (fst best)))) = selection_of l /\
    l ⊆+ vValue /\ T <= total (map fst l).
Proof.
  intros HT' (Hl & Hp & Hr). rewrite length_map in Hl. destruct (zip_choice (merge_sort falling vValue) (fst best) Hl) as [Hsub Htot].
  set (l := map fst (filter _ _)) in *.
  assert (l ⊆+ vValue) as Hlv by (rewrite <-(merge_sort_Permutation falling vValue); by apply sublist_submseteq).
  assert (Forall (fun c => 0 <= fst c) l) as Hn.
  { rewrite Forall_forall in *. intros c Hc. apply Hv. by eapply elem_of_submseteq. }
  exists l. split; [|split; [done|rewrite Htot, Hp; lia]]. apply fold_add_selection; [done|]. rewrite Htot.
  pose proof (picked_range (fst best) (map fst (merge_sort falling vValue))) as H. rewrite sorted_total in H.
  assert (Forall (fun v => 0 <= v) (map fst (merge_sort falling vValue))) as Hs.
  { rewrite Forall_map. by rewrite (merge_sort_Permutation falling). }
  specialize (H Hs). unfold CENT in *. lia.
Qed.

Lemma two_subsets_ok r1 r2 : T <= total (map fst vValue) ->
  exists T', T <= T' /\ reaches (map fst (merge_sort falling vValue)) T'
    (two_subsets (map fst (merge_sort falling vValue)) (total (map fst vValue)) T r1 r2).
Proof.
  intros Hge. unfold two_subsets. pose proof (total_nonneg (map fst vValue)) as Hn. rewrite Forall_map in Hn. specialize (Hn Hv).
  rewrite (to_i64_small (T + CENT)) by (unfold CENT in *; lia).
  assert (Forall (fun v => 0 <= v) (map fst (merge_sort falling vValue))) as Hs.
  { rewrite Forall_map. by rewrite (merge_sort_Permutation falling). }
  assert (forall T' r, T' <= total (map fst vValue) -> reaches (map fst (merge_sort falling vValue)) T'
    (ApproximateBestSubset (map fst (merge_sort falling vValue)) (total (map fst vValue)) T' r)) as Hreach.
  { intros T' r H. rewrite <-sorted_total. apply ApproximateBestSubset_ok; rewrite ?sorted_total; try done. unfold CENT in *. lia. }
  pose proof (Hreach T r1 Hge) as H1. destruct (ApproximateBestSubset _ _ T r1) as [v1 n1].
  destruct (negb (n1 =? T) && (T + CENT <=? total (map fst vValue))) eqn:Ec.
  - exists (T + CENT). split; [unfold CENT; lia|]. apply Hreach. apply andb_true_iff in Ec as [_ Ec]. lia.
  - exists T. split; [lia|done].
Qed.

(** What the decision is. *)
Lemma choose_coins_ok r1 r2 larger : (forall c, larger = Some c -> T <= fst c < 2 ^ 63) ->
  exists ok s, choose_coins T r1 r2 vValue (total (map fst vValue)) larger = (ok, s) /\
    (ok = false <-> total (map fst vValue) < T /\ larger = None) /\
    (ok = true -> exists l, s = selection_of l /\ T <= total (map fst l) /\ (l ⊆+ vValue \/ exists c, larger = Some c /\ l = [c])).
Proof.
  intros Hlarger. unfold choose_coins.
  assert (forall c, larger = Some c -> add_coin (∅, 0) c = selection_of [c] /\ T <= total (map fst [c])) as Hone.
  { intros c Hc. specialize (Hlarger c Hc). unfold add_coin, selection_of, total. cbn. rewrite to_i64_small by lia. split; [f_equal; lia|lia]. }
  destruct (Z.eqb_spec (total (map fst vValue)) T) as [E|E].
  { eexists _, _. split; [done|]. split; [split; [done|lia]|]. intros _. exists vValue. split; [|split; [lia|by left]].
    apply fold_add_selection; [done|]. unfold CENT in *. lia. }
  destruct (Z.ltb_spec (total (map fst vValue)) T) as [Hlt|Hge].
  { destruct larger as [c|]; eexists _, _; (split; [done|]).
    - split; [by split; [|intros [_ ?]]|]. intros _. destruct (Hone c eq_refl). exists [c]. split; [done|]. split; [done|]. right. by exists c.
    - split; [|done]. by split; [intros _; split|]. }
  destruct two_subsets_ok with (r1 := r1) (r2 := r2) as (T' & HT' & Hr); [done|].
  set (best := two_subsets _ _ _ _ _) in *.
  destruct (choice_ok best T' HT' Hr) as (l & Hl & Hsub & Htot). destruct best as [vb nb]. cbn [fst] in Hl.
  destruct larger as [c|]; [destruct (_ || _)|]; eexists _, _; (split; [done|]); (split; [by split; [|intros [? ?]; lia]|]); intros _.
  - destruct (Hone c eq_refl). exists [c]. split; [done|]. split; [done|]. right. by exists c.
  - exists l. split; [exact Hl|]. split; [done|]. by left.
  - exists l. split; [exact Hl|]. split; [done|]. by left.
Qed.
End choose.

(** ** The coins that may be used *)

Section coins.
Context {SH : ScriptHashes} (env : WalletEnv) (w : CWallet).

Definition out_id (o : COutput) : coin_id := (o_tx o, o_i o).
Definition amount (o : COutput) : Z := from_option nValue 0 (coin_out w (out_id o)).
Definition coin_of (o : COutput) : coin := (amount o, out_id o).

(** What the coins of a list have to be: outputs of the wallet with distinct
    ids and positive amounts, whose senders the wallet can tell. *)
Record coins_ok (l : list COutput) : Prop := {
  co_distinct : NoDup (map out_id l);
  co_coins : Forall (fun o => exists wtx out m, mapWallet w !! o_tx o = Some wtx /\
    vout (w_tx wtx) !! Z.to_nat (o_i o) = Some out /\ 0 < nValue out /\ wtx_IsFromMe w wtx = Ok m) l
}.

(** A coin [SelectCoinsMinConf] considers. *)
Definition eligible (nSpendTime nConfMine nConfTheirs : Z) (o : COutput) : bool :=
  o_fSpendable o &&
  match mapWallet w !! o_tx o with
  | Some wtx =>
    match wtx_IsFromMe w wtx with
    | Ok m => (if m : bool then nConfMine else nConfTheirs) <=? o_nDepth o
    | _ => false
    end && (nTime (w_tx wtx) <=? nSpendTime)
  | None => false
  end && negb (IsDenominatedAmount env (amount o)).

Lemma coins_ok_perm l k : l ≡ₚ k -> coins_ok l -> coins_ok k.
Proof. intros H [H1 H2]. split; [by rewrite <-H|by rewrite <-H]. Qed.

Lemma amount_pos l o : coins_ok l -> o ∈ l -> 0 < amount o.
Proof.
  intros [_ H] Ho. rewrite Forall_forall in H. destruct (H o Ho) as (wtx & out & m & Hw & Hout & Hpos & _).
  unfold amount, coin_out, out_id. cbn. rewrite Hw. cbn. by rewrite Hout.
Qed.

Section scan.
Context (T nSpendTime nConfMine nConfTheirs : Z) (HT : 0 <= T).

Abbreviation usable := (fun o => eligible nSpendTime nConfMine nConfTheirs o = true).
Abbreviation small := (fun o => eligible nSpendTime nConfMine nConfTheirs o = true /\ amount o < T + CENT).

(** What the loop finds. *)
Lemma scan_coins_ok l vV tot larger : coins_ok l -> 0 <= tot ->
  T + CENT + tot + total (map amount l) < 2 ^ 63 - 1 ->
  match scan_coins env w 0 T nSpendTime nConfMine nConfTheirs l vV tot larger with
  | Ok (ScanExact c) => exists o, o ∈ l /\ usable o /\ c = coin_of o /\ amount o = T
  | Ok (ScanDone v t g) =>
    v = vV ++ map coin_of (filter small l) /\ t = tot + total (map amount (filter small l)) /\
    (g = larger \/ exists o, o ∈ l /\ usable o /\ g = Some (coin_of o) /\ T + CENT <= amount o) /\
    (g = None -> larger = None /\ forall o, o ∈ l -> usable o -> amount o < T + CENT)
  | _ => False
  end.
Proof.
  intros Hok. pose proof (amount_pos l) as Hpos. revert vV tot larger. induction l as [|o l IH]; intros vV tot larger Ht Hb.
  { cbn [scan_coins]. unfold mret, outcome_ret. rewrite app_nil_r. unfold total. cbn. split_and!; [done|lia|by left|]. intros ->. split; [done|].
    intros o Ho. by apply elem_of_nil in Ho. }
  assert (coins_ok l) as Hokl.
  { destruct Hok as [H1 H2]. split; [by apply NoDup_cons in H1 as []|by apply Forall_cons in H2 as []]. }
  specialize (IH Hokl (fun o' => amount_pos l o' )). pose proof (Hpos o Hok ltac:(left)) as Ho.
  assert (0 <= total (map amount l)) as Hl0.
  { apply total_nonneg, Forall_map, Forall_forall. intros x Hx. pose proof (amount_pos l x Hokl Hx). lia. }
  change (total (map amount (o :: l))) with (amount o + total (map amount l)) in Hb.
  destruct Hok as [_ Hc]. apply Forall_cons in Hc as [(wtx & out & m & Hw & Hout & _ & Hm) _].
  assert (nValue out = amount o) as Ha by (unfold amount, coin_out, out_id; cbn; rewrite Hw; cbn; by rewrite Hout).
  assert (eligible nSpendTime nConfMine nConfTheirs o = o_fSpendable o && (((if m then nConfMine else nConfTheirs) <=? o_nDepth o) &&
    (nTime (w_tx wtx) <=? nSpendTime)) && negb (IsDenominatedAmount env (amount o))) as He by (unfold eligible; by rewrite Hw, Hm).
  (* the output is skipped *)
  assert (eligible nSpendTime nConfMine nConfTheirs o = false ->
    match scan_coins env w 0 T nSpendTime nConfMine nConfTheirs l vV tot larger with
    | Ok (ScanExact c) => exists o', o' ∈ o :: l /\ usable o' /\ c = coin_of o' /\ amount o' = T
    | Ok (ScanDone v t g) =>
      v = vV ++ map coin_of (filter small (o :: l)) /\ t = tot + total (map amount (filter small (o :: l))) /\
      (g = larger \/ exists o', o' ∈ o :: l /\ usable o' /\ g = Some (coin_of o') /\ T + CENT <= amount o') /\
      (g = None -> larger = None /\ forall o', o' ∈ o :: l -> usable o' -> amount o' < T + CENT)
    | _ => False
    end) as Hskip.
  { intros Hf. specialize (IH vV tot larger Ht ltac:(lia)). rewrite filter_cons, decide_False by (by rewrite Hf; intros []).
    destruct (scan_coins _ _ _ _ _ _ _ l vV tot larger) as [[c|v t g]| | |]; try done.
    - destruct IH as (o' & H1 & H2). exists o'. split; [by right|done].
    - destruct IH as (H1 & H2 & H3 & H4). split_and!; [done|done| |].
      + destruct H3 as [H3|(o' & H5 & H6)]; [by left|]. right. exists o'. split; [by right|done].
      + intros Hg. destruct (H4 Hg) as [H5 H6]. split; [done|]. intros o' Ho' Hu. apply elem_of_cons in Ho' as [->|Ho']; [congruence|auto]. }
  cbn [scan_coins]. rewrite Hw, Hm, Hout. cbn [mbind outcome_bind]. rewrite Ha.
  destruct (o_fSpendable o) eqn:Hs; cbn [negb]; [|by apply Hskip; rewrite He].
  destruct (Z.ltb_spec (o_nDepth o) (if m then nConfMine else nConfTheirs)) as [Hd|Hd].
  { apply Hskip. rewrite He. by apply Z.leb_gt in Hd as ->. }
  destruct (Z.ltb_spec nSpendTime (nTime (w_tx wtx))) as [Hn|Hn].
  { apply Hskip. rewrite He. apply Z.leb_gt in Hn as ->. by rewrite andb_false_r. }
  cbn [Nat.eqb andb]. destruct (IsDenominatedAmount env (amount o)) eqn:Hden; [by apply Hskip; rewrite He, andb_false_r|].
  assert (eligible nSpendTime nConfMine nConfTheirs o = true) as Hu.
  { rewrite He. apply Z.leb_le in Hd as ->. by apply Z.leb_le in Hn as ->. }
  clear Hskip. rewrite (to_i64_small (T + CENT)) by (unfold CENT in *; lia).
  destruct (Z.eqb_spec (amount o) T) as [E|E].
  { exists o. split_and!; [left|done|done|done]. }
  rewrite filter_cons. destruct (Z.ltb_spec (amount o) (T + CENT)) as [Hsm|Hlg].
  - rewrite decide_True by done. rewrite to_i64_small by (unfold CENT in *; lia).
    specialize (IH (vV ++ [coin_of o]) (tot + amount o) larger ltac:(lia) ltac:(lia)). change (amount o, (o_tx o, o_i o)) with (coin_of o).
    destruct (scan_coins _ _ _ _ _ _ _ l _ _ larger) as [[c|v t g]| | |]; try done.
    + destruct IH as (o' & H1 & H2). exists o'. split; [by right|done].
    + destruct IH as (H1 & H2 & H3 & H4). split_and!.
      * by rewrite H1, <-app_assoc.
      * rewrite H2. change (total (map amount (o :: ?x))) with (amount o + total (map amount x)). lia.
      * destruct H3 as [H3|(o' & H5 & H6)]; [by left|]. right. exists o'. split; [by right|done].
      * intros Hg. destruct (H4 Hg) as [H5 H6]. split; [done|]. intros o' Ho' Hu'. apply elem_of_cons in Ho' as [->|Ho']; [done|auto].
  - rewrite decide_False by lia. change (amount o, (o_tx o, o_i o)) with (coin_of o).
    assert (forall g0, (g0 = Some (coin_of o) \/ g0 = larger /\ larger <> None) ->
      match scan_coins env w 0 T nSpendTime nConfMine nConfTheirs l vV tot g0 with
      | Ok (ScanExact c) => exists o', o' ∈ o :: l /\ usable o' /\ c = coin_of o' /\ amount o' = T
      | Ok (ScanDone v t g) =>
        v = vV ++ map coin_of (filter small l) /\ t = tot + total (map amount (filter small l)) /\
        (g = larger \/ exists o', o' ∈ o :: l /\ usable o' /\ g = Some (coin_of o') /\ T + CENT <= amount o') /\
        (g = None -> larger = None /\ forall o', o' ∈ o :: l -> usable o' -> amount o' < T + CENT)
      | _ => False
      end) as Hgo.
    { intros g0 Hg0. specialize (IH vV tot g0 Ht ltac:(lia)).
      destruct (scan_coins _ _ _ _ _ _ _ l vV tot g0) as [[c|v t g]| | |]; try done.
      - destruct IH as (o' & H1 & H2). exists o'. split; [by right|done].
      - destruct IH as (H1 & H2 & H3 & H4). split_and!; [done|done| |].
        + destruct H3 as [H3|(o' & H5 & H6)]; [|right; exists o'; split; [by right|done]]. subst g.
          destruct Hg0 as [->|[-> _]]; [|by left]. right. exists o. split_and!; [left|done|done|lia].
        + intros Hg. destruct (H4 Hg) as [H5 _]. destruct Hg0 as [->|[-> ?]]; done. }
    destruct larger as [c|]; [destruct (amount o <? fst c)|].
    + apply Hgo. by left.
    + apply Hgo. by right.
    + destruct (Z.ltb_spec (amount o) INT64_MAX) as [_|Hge]; [apply Hgo; by left|]. unfold INT64_MAX in Hge. unfold CENT in *. lia.
Qed.
End scan.

(** ** Selections of available coins *)

(** The selection of some of the coins of a list. *)
Definition selects (l : list COutput) (s : gset coin_id * Z) : Prop :=
  exists l', l' ⊆+ l /\ s = (list_to_set (map out_id l'), total (map amount l')).

Lemma selects_perm l k s : l ≡ₚ k -> selects l s -> selects k s.
Proof. intros H (l' & Hl & E). exists l'. by rewrite <-H. Qed.

Lemma selects_coins l (l' : list COutput) c : l' ⊆+ l -> c ⊆+ map coin_of l' -> exists k, k ⊆+ l /\ selection_of c = (list_to_set (map out_id k), total (map amount k)).
Proof.
  intros Hl Hc. apply submseteq_Permutation in Hc as [k Hk].
  assert (exists l1, l1 ⊆+ l' /\ map coin_of l1 ≡ₚ c) as (l1 & Hl1 & Hperm).
  { symmetry in Hk. apply Permutation_map_inv in Hk as (l3 & E & Hp). symmetry in E. apply map_eq_app in E as (l1 & l2 & -> & <- & <-).
    exists l1. split; [|done]. rewrite Hp. by apply submseteq_inserts_r. }
  exists l1. split; [by etrans|]. unfold selection_of. f_equal.
  - apply set_eq. intros x. rewrite !elem_of_list_to_set, <-Hperm, map_map. done.
  - by rewrite <-Hperm, map_map.
Qed.

Section minconf.
Context (rnd : select_random) (Hrnd : forall l, shuffle rnd l ≡ₚ l).
Context (T nSpendTime nConfMine nConfTheirs : Z) (HT : 0 <= T) (vCoins : list COutput) (Hok : coins_ok vCoins)
  (Hb : T + CENT + total (map amount vCoins) < 2 ^ 63 - 1).

Abbreviation usable := (fun o => eligible nSpendTime nConfMine nConfTheirs o = true).

(** [SelectCoinsMinConf] succeeds exactly when the coins it may use suffice,
    and then with some of them. *)
Lemma SelectCoinsMinConf_ok : exists ok s,
  SelectCoinsMinConf env w rnd T nSpendTime nConfMine nConfTheirs vCoins = Ok (ok, s) /\
  (ok = true <-> T <= total (map amount (filter (fun o => eligible nSpendTime nConfMine nConfTheirs o = true) vCoins))) /\
  (ok = true -> selects (filter (fun o => eligible nSpendTime nConfMine nConfTheirs o = true) vCoins) s /\ T <= snd s).
Proof.
  unfold SelectCoinsMinConf. set (l := merge_sort (denoms_last env w) (shuffle rnd vCoins)).
  assert (l ≡ₚ vCoins) as Hl by (subst l; by rewrite (merge_sort_Permutation (denoms_last env w)), Hrnd).
  enough (exists ok s, (found ← scan_coins env w 0 T nSpendTime nConfMine nConfTheirs l [] 0 None;
      match found with
      | ScanExact c => mret (true, add_coin (∅, 0) c)
      | ScanDone vValue nTotalLower coinLowestLarger =>
        mret (choose_coins T (rand1 rnd) (rand2 rnd) vValue nTotalLower coinLowestLarger)
      end) = (Ok (ok, s) : outcome unit _) /\
    (ok = true <-> T <= total (map amount (filter (fun o => eligible nSpendTime nConfMine nConfTheirs o = true) l))) /\
    (ok = true -> selects (filter (fun o => eligible nSpendTime nConfMine nConfTheirs o = true) l) s /\ T <= snd s)) as (ok & s & H1 & H2 & H3).
  { exists ok, s. split; [exact H1|]. pose proof (filter_Permutation (fun o => eligible nSpendTime nConfMine nConfTheirs o = true) l vCoins Hl) as Hf.
    split; [|intros Hk; destruct (H3 Hk) as [H4 H5]; split; [exact (selects_perm _ _ _ Hf H4)|exact H5]].
    assert (total (map amount (filter (fun o => eligible nSpendTime nConfMine nConfTheirs o = true) l)) =
      total (map amount (filter (fun o => eligible nSpendTime nConfMine nConfTheirs o = true) vCoins))) as <-; [|exact H2].
    by apply total_perm, Permutation_map. }
  assert (coins_ok l) as Hokl by by apply (coins_ok_perm vCoins).
  assert (T + CENT + total (map amount l) < 2 ^ 63 - 1) as Hbl.
  { assert (total (map amount l) = total (map amount vCoins)) as ->; [|exact Hb]. by apply total_perm, Permutation_map. }
  clear Hl. clearbody l.
  pose proof (fun o => amount_pos l o Hokl) as Hpos.
  assert (Forall (fun o => 0 <= amount o) l) as Hnn by (apply Forall_forall; intros o Ho; specialize (Hpos o Ho); lia).
  pose proof (scan_coins_ok T nSpendTime nConfMine nConfTheirs HT l [] 0 None Hokl) as Hscan.
  specialize (Hscan ltac:(done) ltac:(lia)).
  destruct (scan_coins _ _ _ _ _ _ _ l [] 0 None) as [[c|vV t g]| | |]; try done; cbn [mbind outcome_bind].
  - destruct Hscan as (o & Ho & Hu & -> & E). exists true, (add_coin (∅, 0) (coin_of o)). split; [done|].
    assert (o ∈ filter usable l) as Hf by by apply list_elem_of_filter.
    assert (add_coin (∅, 0) (coin_of o) = (list_to_set (map out_id [o]), total (map amount [o]))) as ->.
    { unfold add_coin, total. cbn. rewrite to_i64_small by (specialize (Hpos o Ho); unfold CENT in *; pose proof (total_nonneg (map amount l)) as N; rewrite Forall_map in N; specialize (N Hnn); lia). by rewrite Z.add_0_r. }
    split.
    + split; [intros _|done]. rewrite <-E. apply total_elem; [|done]. by apply Forall_kept.
    + intros _. split; [|unfold total; cbn; lia]. exists [o]. split; [|done]. by apply singleton_submseteq_l.
  - destruct Hscan as (HvV & Htt & Hg & Hnone). cbn [app] in HvV. set (sm := filter (fun o => eligible nSpendTime nConfMine nConfTheirs o = true /\ amount o < T + CENT) l) in *.
    assert (sm ⊆+ filter usable l) as Hsm.
    { subst sm. clear. induction l as [|o l IH]; [done|]. rewrite !filter_cons.
      destruct (decide (eligible nSpendTime nConfMine nConfTheirs o = true /\ amount o < T + CENT)) as [[? ?]|?]; [rewrite decide_True by done; by apply submseteq_skip|].
      destruct (decide (eligible nSpendTime nConfMine nConfTheirs o = true)); [by apply submseteq_cons|done]. }
    assert (Forall (fun c => 0 <= fst c) vV) as HvVn.
    { rewrite HvV, Forall_map. apply Forall_kept. exact Hnn. }
    assert (total (map fst vV) = total (map amount sm)) as Hsum by by rewrite HvV, map_map.
    pose proof (total_filter_le amount (fun o => eligible nSpendTime nConfMine nConfTheirs o = true /\ amount o < T + CENT) l Hnn) as Hle. fold sm in Hle.
    rewrite Z.add_0_l in Htt. rewrite <-Hsum in Htt. subst t.
    destruct (choose_coins_ok T HT vV HvVn ltac:(lia) (rand1 rnd) (rand2 rnd) g) as (ok & s & -> & Hfail & Hsucc).
    { intros c Hc. destruct Hg as [->|(o & Ho & _ & -> & Ho')]; [done|]. injection Hc as <-. cbn.
      pose proof (total_elem amount l o Hnn Ho). pose proof (Hpos o Ho). unfold CENT in *. lia. }
    exists ok, s. split; [done|]. split.
    + rewrite <-not_false_iff_true, Hfail, Hsum. split.
      * intros Hn. destruct g as [c|].
        -- destruct Hg as [?|(o & Ho & Hu & _ & Ho')]; [done|]. etrans; [|apply (total_elem amount (filter usable l) o)].
           ++ unfold CENT in *; lia. ++ by apply Forall_kept. ++ by apply list_elem_of_filter.
        -- assert (T <= total (map amount sm)) as H by (destruct (decide (T <= total (map amount sm))); [done|destruct Hn; split; [lia|done]]).
           etrans; [exact H|]. apply submseteq_Permutation in Hsm as [k Hk]. rewrite Hk, map_app, total_app.
           assert (0 <= total (map amount k)); [|lia]. apply total_nonneg, Forall_map.
           assert (Forall (fun o => 0 <= amount o) (sm ++ k)) as Hfk by (rewrite <-Hk; by apply Forall_kept). by apply Forall_app in Hfk as [_ ?].
      * intros HTt [Hlt ->]. destruct (Hnone eq_refl) as [_ Hall].
        assert (filter usable l = sm) as E; [|rewrite E in HTt; lia]. subst sm. apply filter_ext_in. intros o Ho. split; [|by intros []]. intros Hu. split; [done|]. by apply Hall.
    + intros Hok1. destruct (Hsucc Hok1) as (c & -> & Htc & Hc). split; [|done].
      destruct Hc as [Hc|(c0 & Hg0 & ->)].
      * rewrite HvV in Hc. destruct (selects_coins (filter usable l) sm c Hsm Hc) as (k & Hk & E). exists k. by split.
      * destruct Hg as [->|(o & Ho & Hu & -> & _)]; [done|]. injection Hg0 as <-. exists [o]. split; [|done].
        apply singleton_submseteq_l. by apply list_elem_of_filter.
Qed.
End minconf.
End coins.

(** * Selections from the wallet

    What the available coins are, and what [SelectCoins] makes of them. *)

Section wallet.
Context {SH : ScriptHashes} (env : WalletEnv) (w : CWallet).

(** ** Available coins *)

(** An output of the wallet that may be spent. *)
Definition available (o : COutput) : Prop :=
  exists wtx out mine, mapWallet w !! o_tx o = Some wtx /\ 0 <= o_i o /\ vout (w_tx wtx) !! Z.to_nat (o_i o) = Some out /\
    0 < nValue out /\ wtx_IsSpent (o_i o) wtx = Ok false /\ (({| prevout_hash := o_tx o; prevout_n := o_i o |} : COutPoint) ∉ setLockedCoins w) /\
    IsMine_out w out = Ok mine /\ mine <> ISMINE_NO /\ o_fSpendable o = bool_decide (mine = ISMINE_SPENDABLE).

Lemma available_outputs_ok cc ct h wtx d i outs l : mapWallet w !! h = Some wtx -> 0 <= i ->
  drop (Z.to_nat i) (vout (w_tx wtx)) = outs ->
  available_outputs env w cc ct h wtx d i outs = Ok l ->
  Forall available l /\ Forall (fun o => o_tx o = h /\ i <= o_i o) l /\ NoDup (map out_id l).
Proof.
  intros Hw. revert i l. induction outs as [|o outs IH]; intros i l Hi Hd; cbn [available_outputs].
  { intros [= <-]. split_and!; constructor. }
  assert (vout (w_tx wtx) !! Z.to_nat i = Some o) as Ho.
  { rewrite <-(Nat.add_0_r (Z.to_nat i)), <-lookup_drop, Hd. done. }
  assert (drop (Z.to_nat (i + 1)) (vout (w_tx wtx)) = outs) as Hd'.
  { replace (Z.to_nat (i + 1)) with (Z.to_nat i + 1)%nat by lia. by rewrite <-drop_drop, Hd. }
  assert (forall l', Forall (fun o => o_tx o = h /\ i + 1 <= o_i o) l' -> Forall (fun o => o_tx o = h /\ i <= o_i o) l') as Hweak.
  { intros l' Hl'. eapply Forall_impl; [exact Hl'|]. intros x []. split; [done|lia]. }
  destruct (negb (right_type env ct (nValue o))).
  { intros E. destruct (IH (i + 1) l ltac:(lia) Hd' E) as (H1 & H2 & H3). split_and!; auto. }
  destruct (IsMine_out w o) as [mine| | |] eqn:Hm; [|done..]. cbn [mbind outcome_bind].
  destruct (wtx_IsSpent i wtx) as [spent| | |] eqn:Hs; [|done..]. cbn [mbind outcome_bind].
  destruct (available_outputs env w cc ct h wtx d (i + 1) outs) as [l'| | |] eqn:E; [|done..]. cbn [mbind outcome_bind].
  destruct (IH (i + 1) l' ltac:(lia) Hd' E) as (H1 & H2 & H3). intros [= <-].
  destruct (negb spent && _ && _ && _ && _) eqn:Hc; [|split_and!; auto].
  rewrite !andb_true_iff, !negb_true_iff, bool_decide_eq_false in Hc. destruct Hc as ((((Hsp & Hmine) & Hlock) & Hpos) & _).
  split_and!.
  - constructor; [|done]. exists wtx, o, mine. cbn. split_and!; try done; [lia|by rewrite Hs, Hsp|].
    unfold IsLockedCoin in Hlock. by apply bool_decide_eq_false in Hlock.
  - constructor; [by cbn|auto].
  - cbn. constructor; [|done]. intros (x & E' & Hx)%list_elem_of_fmap. rewrite Forall_forall in H2. destruct (H2 x Hx) as [_ Hlt].
    injection E' as _ E'. lia.
Qed.

Lemma available_of_ok c cc ct ix h wtx l : mapWallet w !! h = Some wtx -> available_of env w c cc ct ix h wtx = Ok l ->
  Forall available l /\ Forall (fun o => o_tx o = h) l /\ NoDup (map out_id l).
Proof.
  intros Hw. unfold available_of. assert (Forall available [] /\ Forall (fun o => o_tx o = h) [] /\ NoDup (map out_id [])) as Hnil by (split_and!; constructor).
  destruct (negb (final_tx env (w_tx wtx))); [by intros [= <-]|].
  destruct (if c then _ else _) as [trusted| | |]; [|done..]. cbn [mbind outcome_bind].
  repeat (destruct (_ : bool); [by intros [= <-]|]). intros H.
  destruct (available_outputs_ok cc ct h wtx _ 0 _ l Hw ltac:(done) eq_refl H) as (H1 & H2 & H3). split_and!; [done| |done].
  eapply Forall_impl; [exact H2|]. by intros x [].
Qed.

Lemma wallet_entries_ok : NoDup (map fst (wallet_entries w)) /\ Forall (fun e => mapWallet w !! fst e = Some (snd e)) (wallet_entries w).
Proof.
  unfold wallet_entries. assert (NoDup (in_order (dom (mapWallet w)))) as Hnd.
  { unfold in_order. rewrite (merge_sort_Permutation Z.le). apply NoDup_elements. }
  induction (in_order (dom (mapWallet w))) as [|h l IH]; [split; constructor|]. apply NoDup_cons in Hnd as [Hh Hnd].
  destruct (IH Hnd) as [H1 H2]. cbn [omap list_omap]. destruct (mapWallet w !! h) as [wtx|] eqn:E; cbn [fmap option_fmap option_map]; [|done].
  split; [|by constructor]. cbn [map fst]. constructor; [|done]. intros (x & -> & Hx)%list_elem_of_fmap.
  change (list_omap ?f ?l) with (omap f l) in Hx. apply list_elem_of_omap in Hx as (h' & Hh' & Ex). destruct (mapWallet w !! h'); [|done].
  by injection Ex as <-.
Qed.

Lemma available_loop_ok f l cs : NoDup (map fst l) -> Forall (fun e => mapWallet w !! fst e = Some (snd e)) l ->
  (forall h wtx c, mapWallet w !! h = Some wtx -> f h wtx = Ok c -> Forall available c /\ Forall (fun o => o_tx o = h) c /\ NoDup (map out_id c)) ->
  available_loop f l = Ok cs -> Forall available cs /\ NoDup (map out_id cs) /\ Forall (fun o => o_tx o ∈ map fst l) cs.
Proof.
  intros Hnd Hl Hf. revert cs. induction l as [|[h wtx] l IH]; intros cs; cbn [available_loop].
  { intros [= <-]. split_and!; constructor. }
  cbn [map fst] in Hnd. apply NoDup_cons in Hnd as [Hh Hnd]. apply Forall_cons in Hl as [Hw Hl]. cbn in Hw.
  destruct (f h wtx) as [c| | |] eqn:Ef; [|done..]. cbn [mbind outcome_bind].
  destruct (available_loop f l) as [cs'| | |]; [|done..]. cbn [mbind outcome_bind]. intros [= <-].
  destruct (Hf h wtx c Hw Ef) as (H1 & H2 & H3). destruct (IH Hnd Hl cs' eq_refl) as (H4 & H5 & H6). split_and!.
  - by apply Forall_app.
  - rewrite map_app. apply NoDup_app. split_and!; [done| |done]. intros x (a & -> & Ha)%list_elem_of_fmap (b & E & Hb)%list_elem_of_fmap.
    rewrite Forall_forall in H2, H6. specialize (H2 a Ha). specialize (H6 b Hb). injection E as E _. by rewrite <-E, H2 in H6.
  - cbn [map fst]. apply Forall_app. split; [eapply Forall_impl; [exact H2|]; intros x ->; left|].
    eapply Forall_impl; [exact H6|]. intros x Hx. by right.
Qed.

Lemma AvailableCoins_ok c cc ct ix l : AvailableCoins env w c cc ct ix = Ok l -> Forall available l /\ NoDup (map out_id l).
Proof.
  intros H. destruct wallet_entries_ok as [H1 H2].
  destruct (available_loop_ok _ _ l H1 H2 (available_of_ok c cc ct ix) H) as (H3 & H4 & _). done.
Qed.

(** The wallet can tell who sent its transactions. *)
Definition senders_known : Prop := forall h wtx, mapWallet w !! h = Some wtx -> exists m, wtx_IsFromMe w wtx = Ok m.

Lemma available_coins_ok l : senders_known -> Forall available l -> NoDup (map out_id l) -> coins_ok w l.
Proof.
  intros Hs Hl Hnd. split; [done|]. eapply Forall_impl; [exact Hl|]. intros o (wtx & out & mine & Hw & _ & Hout & Hpos & _).
  destruct (Hs _ _ Hw) as [m Hm]. by exists wtx, out, m.
Qed.

(** ** [SelectCoins] *)

Definition sel (l : list COutput) : gset coin_id * Z := (list_to_set (map out_id l), total (map (amount w) l)).

Lemma sel_snoc l o : 0 <= total (map (amount w) l) + amount w o < 2 ^ 63 -> add_coin (sel l) (amount w o, out_id o) = sel (l ++ [o]).
Proof.
  intros H. unfold sel, add_coin. cbn [fst snd]. rewrite to_i64_small by lia. rewrite !map_app, total_app, list_to_set_app_L. cbn [map]. unfold total at 3. cbn.
  f_equal; [set_solver|lia].
Qed.

(** The coins taken in one pass. *)
Lemma take_coins_ok mixed want l k memo s' memo' : Forall available l -> Forall (fun o => 0 <= amount w o) k ->
  total (map (amount w) (k ++ l)) < 2 ^ 63 ->
  take_coins env w mixed want l (sel k) memo = Ok (s', memo') ->
  exists k', k' `sublist_of` l /\ Forall (fun o => exists n, want n (amount w o) = true) k' /\ s' = sel (k ++ k').
Proof.
  intros Hl. revert k memo. induction Hl as [|o l Ho Hl IH]; intros k memo Hk Hb; cbn [take_coins].
  { intros [= <- <-]. exists []. rewrite app_nil_r. split_and!; constructor. }
  destruct Ho as (wtx & out & mine & Hw & _ & Hout & Hpos & _).
  assert (coin_out w (o_tx o, o_i o) = Some out) as Hc by (unfold coin_out; cbn; by rewrite Hw). rewrite Hc.
  assert (nValue out = amount w o) as Ha by (unfold amount, out_id; by rewrite Hc). rewrite Ha.
  assert (Forall (fun o => 0 <= amount w o) l) as Hln.
  { eapply Forall_impl; [exact Hl|]. intros x (wtx' & out' & mine' & Hw' & _ & Hout' & Hpos' & _). unfold amount, coin_out, out_id. cbn. rewrite Hw'. cbn. rewrite Hout'. cbn. lia. }
  pose proof (total_nonneg (map (amount w) l)) as Hn. rewrite Forall_map in Hn. specialize (Hn Hln).
  pose proof (total_nonneg (map (amount w) k)) as Hn'. rewrite Forall_map in Hn'. specialize (Hn' Hk).
  rewrite map_app, total_app in Hb. change (total (map (amount w) (o :: l))) with (amount w o + total (map (amount w) l)) in Hb.
  assert (forall memo, take_coins env w mixed want l (sel k) memo = Ok (s', memo') ->
    exists k', k' `sublist_of` o :: l /\ Forall (fun o => exists n, want n (amount w o) = true) k' /\ s' = sel (k ++ k')) as Hskip.
  { intros memo1 E. destruct (IH k memo1 Hk) as (k' & H1 & H2); [rewrite map_app, total_app; lia|done|]. exists k'. split; [by apply sublist_cons|done]. }
  destruct (want (snd (sel k)) (amount w o)) eqn:Hwant; cbn [negb]; [|by apply Hskip].
  destruct (if mixed then _ else _) as [[enough memo1]| | |]; [|done..]. cbn [mbind outcome_bind].
  destruct enough; cbn [negb]; [|by apply Hskip].
  change (o_tx o, o_i o) with (out_id o). rewrite sel_snoc by lia. intros E.
  destruct (IH (k ++ [o]) memo1) as (k' & H1 & H2 & H3).
  - apply Forall_app. split; [done|]. constructor; [lia|constructor].
  - rewrite <-app_assoc, map_app, total_app. cbn [app]. change (total (map (amount w) (o :: l))) with (amount w o + total (map (amount w) l)). lia.
  - exact E.
  - exists (o :: k'). split_and!; [by apply sublist_skip|constructor; [by eexists|done]|]. by rewrite H3, <-app_assoc.
Qed.

Lemma filter_disjoint_app {A} (P Q R : A -> Prop) `{!forall x, Decision (P x), !forall x, Decision (Q x), !forall x, Decision (R x)} (l : list A) :
  (forall x, R x <-> P x \/ Q x) -> (forall x, P x -> ~ Q x) -> filter P l ++ filter Q l ≡ₚ filter R l.
Proof.
  intros HR Hd. induction l as [|x l IH]; [done|]. rewrite !filter_cons.
  destruct (decide (P x)) as [HP|HP], (decide (Q x)) as [HQ|HQ].
  - by destruct (Hd x HP).
  - rewrite decide_True by (apply HR; by left). cbn [app]. by rewrite IH.
  - rewrite decide_True by (apply HR; by right). by rewrite <-Permutation_middle, IH.
  - by rewrite decide_False by (rewrite HR; tauto).
Qed.

Lemma sublist_kept {A} (P : A -> Prop) `{!forall x, Decision (P x)} (k l : list A) :
  k `sublist_of` l -> Forall P k -> k `sublist_of` filter P l.
Proof.
  induction 1 as [|x k l _ IH|x k l _ IH]; intros Hk; [constructor| |].
  - apply Forall_cons in Hk as [Hx Hk]. rewrite filter_cons, decide_True by done. apply sublist_skip. auto.
  - rewrite filter_cons. destruct (decide (P x)); [apply sublist_cons|]; auto.
Qed.

Lemma available_nonneg l : Forall available l -> Forall (fun o => 0 <= amount w o) l.
Proof.
  intros H. eapply Forall_impl; [exact H|]. intros o (wtx & out & mine & Hw & _ & Hout & Hpos & _).
  unfold amount, coin_out, out_id. cbn. rewrite Hw. cbn. rewrite Hout. cbn. lia.
Qed.

Lemma total_submseteq k l : Forall (fun o => 0 <= amount w o) l -> k ⊆+ l -> 0 <= total (map (amount w) k) <= total (map (amount w) l).
Proof.
  intros Hl [k' Hk]%submseteq_Permutation. assert (Forall (fun o => 0 <= amount w o) (k ++ k')) as [H1 H2]%Forall_app by by rewrite <-Hk.
  rewrite Hk, map_app, total_app. pose proof (total_nonneg (map (amount w) k)) as N1. pose proof (total_nonneg (map (amount w) k')) as N2.
  rewrite Forall_map in N1, N2. specialize (N1 H1). specialize (N2 H2). lia.
Qed.

(** The loop over the denominations takes no coin twice. *)
Lemma take_denominations_ok T ds vCoins done_ds k memo s' memo' : Forall available vCoins ->
  total (map (amount w) vCoins) < 2 ^ 62 -> NoDup (done_ds ++ ds) ->
  k ⊆+ filter (fun o => amount w o ∈ done_ds) vCoins ->
  take_denominations env w T ds vCoins (sel k) memo = Ok (s', memo') ->
  exists k', k' ⊆+ vCoins /\ s' = sel k'.
Proof.
  intros Hav Hb. pose proof (available_nonneg vCoins Hav) as Hnn.
  revert done_ds k memo. induction ds as [|v ds IH]; intros done_ds k memo Hds Hk; cbn [take_denominations].
  { intros [= <- <-]. exists k. split; [|done]. etrans; [exact Hk|]. apply sublist_submseteq, sublist_filter. }
  destruct (take_coins _ _ _ _ _ _ _) as [[s1 memo1]| | |] eqn:E; [|done..]. cbn [mbind outcome_bind]. intros Hrest.
  assert (k ⊆+ vCoins) as Hkv by (etrans; [exact Hk|]; apply sublist_submseteq, sublist_filter).
  pose proof (total_submseteq k vCoins Hnn Hkv) as Hkt.
  apply take_coins_ok in E as (k' & Hsub & Hwant & ->); [|done|..].
  2: { apply Forall_forall. intros o Ho. rewrite Forall_forall in Hnn. apply Hnn. by eapply elem_of_submseteq. }
  2: { rewrite map_app, total_app. lia. }
  apply (IH (done_ds ++ [v]) (k ++ k') memo1); [by rewrite <-app_assoc| |exact Hrest].
  assert (k' ⊆+ filter (fun o => amount w o = v) vCoins) as Hk'.
  { apply sublist_submseteq, sublist_kept; [done|]. eapply Forall_impl; [exact Hwant|]. intros o [n Hn]. apply andb_true_iff in Hn as [Hn _]. lia. }
  rewrite <-(filter_disjoint_app (fun o => amount w o ∈ done_ds) (fun o => amount w o = v) (fun o => amount w o ∈ done_ds ++ [v])).
  - by apply submseteq_app.
  - intros o. rewrite elem_of_app, list_elem_of_singleton. done.
  - intros o Hin Ev. apply NoDup_app in Hds as (_ & Hdis & _). destruct (Hdis _ Hin). rewrite Ev. left.
Qed.

(** The filter that ordinary payments apply at last. *)
Abbreviation payable nSpendTime := (fun o => eligible env w nSpendTime 0 1 o = true).

Section select.
Context (rnd : nat -> select_random) (Hrnd : forall k l, shuffle (rnd k) l ≡ₚ l).
Context (T nSpendTime : Z) (HT : 0 <= T) (cc : option CCoinControl) (ct : AvailableCoinsType) (ix : bool) (vCoins : list COutput)
  (Havail : AvailableCoins env w true cc ct ix = Ok vCoins) (Hsenders : senders_known)
  (Hb : T + CENT + total (map (amount w) vCoins) < 2 ^ 62).

(** What a success means. *)
Lemma SelectCoins_sound memo ok s memo' : NoDup (stashedSendDenominations env) ->
  SelectCoins env w rnd T nSpendTime cc ct ix memo = Ok (ok, s, memo') -> ok = true -> selects w vCoins s /\ T <= snd s.
Proof.
  intros Hds. unfold SelectCoins. rewrite Havail. cbn [mbind outcome_bind].
  destruct (AvailableCoins_ok _ _ _ _ _ Havail) as [Hav Hnd]. pose proof (available_nonneg vCoins Hav) as Hnn.
  pose proof (available_coins_ok vCoins Hsenders Hav Hnd) as Hok.
  assert (0 <= total (map (amount w) vCoins)) as Hn by (apply total_nonneg; by rewrite Forall_map).
  destruct (match cc with Some c => HasSelected c | None => false end).
  { destruct (take_coins _ _ _ _ _ _ _) as [[s1 memo1]| | |] eqn:E; [|done..]. cbn [mbind outcome_bind]. intros [= <- <- <-] Hle.
    change (∅ : gset coin_id, 0) with (sel []) in E. apply take_coins_ok in E as (k' & H1 & _ & ->).
    2: { by apply Forall_kept. } 2: { constructor. }
    2: { cbn [app]. pose proof (total_filter_le (amount w) (fun o => o_fSpendable o = true) vCoins Hnn). unfold CENT in *. lia. }
    split; [|lia]. exists k'. split; [|done]. etrans; [by apply sublist_submseteq|]. apply sublist_submseteq, sublist_filter. }
  destruct (is_denominated ct).
  { destruct (take_denominations _ _ _ _ _ _ _) as [[s1 memo1]| | |] eqn:E; [|done..]. cbn [mbind outcome_bind]. intros [= <- <- <-] Hle.
    change (∅ : gset coin_id, 0) with (sel []) in E. apply (take_denominations_ok T _ vCoins []) in E as (k' & H1 & ->).
    - split; [|lia]. by exists k'.
    - done.
    - unfold CENT in *. lia.
    - done.
    - apply submseteq_nil_l. }
  assert (forall (k : nat) c1 c2 s0, selects w (filter (fun o => eligible env w nSpendTime c1 c2 o = true) vCoins) s0 -> selects w vCoins s0) as Hsel.
  { intros _ c1 c2 s0 (k' & H1 & H2). exists k'. split; [|done]. etrans; [exact H1|]. apply sublist_submseteq, sublist_filter. }
  assert (forall k c1 c2, exists ok s, SelectCoinsMinConf env w (rnd k) T nSpendTime c1 c2 vCoins = Ok (ok, s) /\
    (ok = true -> selects w vCoins s /\ T <= snd s)) as Hmin.
  { intros k c1 c2. destruct (SelectCoinsMinConf_ok env w (rnd k) (Hrnd k) T nSpendTime c1 c2 HT vCoins Hok) as (ok0 & s0 & E & _ & H); [lia|].
    exists ok0, s0. split; [done|]. intros Ho. destruct (H Ho). split; [by eapply (Hsel k)|done]. }
  destruct (Hmin 0%nat 1 10) as (ok0 & s0 & -> & H0). cbn [mbind outcome_bind]. destruct ok0; [by intros [= <- <- <-] _; apply H0|].
  destruct (Hmin 1%nat 1 1) as (ok1 & s1 & -> & H1). cbn [mbind outcome_bind]. destruct ok1; [by intros [= <- <- <-] _; apply H1|].
  destruct (Hmin 2%nat 0 1) as (ok2 & s2 & -> & H2). cbn [mbind outcome_bind]. intros [= <- <- <-] Ho. by apply H2.
Qed.

(** When an ordinary payment finds coins. *)
Lemma SelectCoins_complete memo : (match cc with Some c => HasSelected c | None => false end) = false -> is_denominated ct = false ->
  exists ok s, SelectCoins env w rnd T nSpendTime cc ct ix memo = Ok (ok, s, memo) /\
    (ok = true <-> T <= total (map (amount w) (filter (payable nSpendTime) vCoins))) /\
    (ok = true -> selects w (filter (payable nSpendTime) vCoins) s /\ T <= snd s).
Proof.
  intros Hcc Hct. unfold SelectCoins. rewrite Havail. cbn [mbind outcome_bind]. rewrite Hcc, Hct.
  destruct (AvailableCoins_ok _ _ _ _ _ Havail) as [Hav Hnd]. pose proof (available_nonneg vCoins Hav) as Hnn.
  pose proof (available_coins_ok vCoins Hsenders Hav Hnd) as Hok.
  assert (forall k c1 c2, 0 <= c1 -> 1 <= c2 -> exists ok s, SelectCoinsMinConf env w (rnd k) T nSpendTime c1 c2 vCoins = Ok (ok, s) /\
    (ok = true -> T <= total (map (amount w) (filter (payable nSpendTime) vCoins)) /\
      selects w (filter (payable nSpendTime) vCoins) s /\ T <= snd s)) as Hmin.
  { intros k c1 c2 Hc1 Hc2. destruct (SelectCoinsMinConf_ok env w (rnd k) (Hrnd k) T nSpendTime c1 c2 HT vCoins Hok) as (ok0 & s0 & E & Hiff & H); [lia|].
    exists ok0, s0. split; [done|]. intros Ho. destruct (H Ho) as [(k' & Hk' & ->) Hle].
    assert (k' ⊆+ filter (payable nSpendTime) vCoins) as Hkp.
    { etrans; [exact Hk'|]. apply sublist_submseteq, sublist_kept; [apply sublist_filter|]. apply Forall_forall.
      intros o [He Ho']%list_elem_of_filter. revert He. unfold eligible. rewrite !andb_true_iff. intros [[Hsp He] Hd]. split_and!; try done.
      destruct (mapWallet w !! o_tx o) as [wtx|]; [|done]. apply andb_true_iff in He as [He Ht]. apply andb_true_iff. split; [|done].
      destruct (wtx_IsFromMe w wtx) as [m| | |]; [|done..]. destruct m; lia. }
    split; [|split; [by exists k'|done]]. cbn [snd] in Hle. etrans; [exact Hle|].
    apply (total_submseteq k' (filter (payable nSpendTime) vCoins)); [|done]. by apply Forall_kept. }
  destruct (Hmin 0%nat 1 10) as (ok0 & s0 & -> & H0); [lia..|]. cbn [mbind outcome_bind].
  destruct ok0; [exists true, s0; split; [done|]; destruct (H0 eq_refl) as (H1 & H2); by split|].
  destruct (Hmin 1%nat 1 1) as (ok1 & s1 & -> & H1); [lia..|]. cbn [mbind outcome_bind].
  destruct ok1; [exists true, s1; split; [done|]; destruct (H1 eq_refl) as (H2 & H3); by split|].
  destruct (SelectCoinsMinConf_ok env w (rnd 2%nat) (Hrnd 2%nat) T nSpendTime 0 1 HT vCoins Hok) as (ok2 & s2 & -> & H2 & H3); [lia|].
  cbn [mbind outcome_bind]. by exists ok2, s2.
Qed.
End select.
End wallet.

Lemma NoDup_selected {A B} (f : A -> B) (l k : list A) : l ⊆+ k -> NoDup (map f k) -> NoDup (map f l).
Proof.
  intros Hl Hk. pose proof (fmap_submseteq f l k Hl) as [k' Hk']%submseteq_Permutation.
  assert (NoDup (map f l ++ k')) as Hn by by rewrite <-Hk'. by apply NoDup_app in Hn as [].
Qed.

(** ** The choice of coins *)

(** C14: [SelectCoins] is sound and, for ordinary payments, complete.  Whatever
    the random bits and the shuffles are, the coins of a success are distinct
    spendable outputs of the wallet that [AvailableCoins] lists, [nValueRet]
    is exactly their total, and it reaches the target.  A payment without
    coins chosen by hand, and not of the type [ONLY_DENOMINATED], always comes
    to a decision, and it fails only when all the coins it may use (spendable,
    confirmed unless they come from the wallet itself, not newer than the
    payment, and not of a denomination) are together worth less than the
    target: the three filters, the exact match, the subset sums and the
    smallest larger coin together never miss coins that suffice. *)
Theorem SelectCoins_spec {SH : ScriptHashes} (env : WalletEnv) (w : CWallet) (rnd : nat -> select_random) (nTargetValue nSpendTime : Z)
    (cc : option CCoinControl) (ct : AvailableCoinsType) (useIX : bool) (vCoins : list COutput) memo
    (Hrnd : forall k l, shuffle (rnd k) l ≡ₚ l) (HT : 0 <= nTargetValue) (Hds : NoDup (stashedSendDenominations env))
    (Havail : AvailableCoins env w true cc ct useIX = Ok vCoins) (Hsenders : senders_known w)
    (Hb : nTargetValue + CENT + total (map (amount w) vCoins) < 2 ^ 62) :
  (forall s memo', SelectCoins env w rnd nTargetValue nSpendTime cc ct useIX memo = Ok (true, s, memo') ->
    exists l, l ⊆+ vCoins /\ NoDup (map out_id l) /\ Forall (available w) l /\
      fst s = list_to_set (map out_id l) /\ snd s = total (map (amount w) l) /\ nTargetValue <= snd s) /\
  (match cc with Some c => HasSelected c | None => false end = false -> is_denominated ct = false ->
    exists ok s, SelectCoins env w rnd nTargetValue nSpendTime cc ct useIX memo = Ok (ok, s, memo) /\
      (ok = true <-> nTargetValue <= total (map (amount w) (filter (fun o => eligible env w nSpendTime 0 1 o = true) vCoins)))).
Proof.
  split.
  - intros s memo' E. destruct (SelectCoins_sound env w rnd Hrnd nTargetValue nSpendTime HT cc ct useIX vCoins Havail Hsenders Hb _ _ _ _ Hds E eq_refl) as [(l & Hl & ->) Hle].
    destruct (AvailableCoins_ok env w _ _ _ _ _ Havail) as [Hav Hnd]. exists l. split_and!; try done.
    + by eapply NoDup_selected.
    + rewrite Forall_forall in *. intros o Ho. apply Hav. by eapply elem_of_submseteq.
  - intros Hcc Hct. destruct (SelectCoins_complete env w rnd Hrnd nTargetValue nSpendTime HT cc ct useIX vCoins Havail Hsenders Hb memo Hcc Hct) as (ok & s & H1 & H2 & _).
    by exists ok, s.
Qed.

(** ** A wallet of one transaction *)

#[local] Existing Instance crypto_hashes.

Definition toy_script : list Z := GetScriptForDestination (CKeyID toy_id).
Definition toy_coins : CTransaction := {| nVersion := 1; nTime := 100;
  vin := [{| prevout := {| prevout_hash := 7; prevout_n := 0 |}; scriptSig := []; nSequence := 0 |}];
  vout := [{| nValue := 2 * COIN; scriptPubKey := toy_script |}; {| nValue := 3 * COIN; scriptPubKey := toy_script |};
           {| nValue := COIN + 1000; scriptPubKey := toy_script |}]; nLockTime := 0 |}.
Definition toy_hash : Z := Eval vm_compute in tx_GetHash toy_coins.

Definition toy_wtx : CWalletTx := WalletTx toy_coins 9 [] 0 100 100 false [] 0.
Definition toy_wallet : CWallet := Wallet toy_store {[toy_hash := toy_wtx]} [(0, OrderedTx toy_hash)] 1 ∅ ∅ ∅ ∅.

Definition toy_node : node := {|
  mapBlockIndex := {[9 := {| e_index := {| bi_hash := 9; bi_nFile := 1; bi_nBlockPos := 8; bi_nChainTrust := 1; bi_nHeight := 5; bi_nMint := 0;
    bi_nMoneySupply := 0; bi_nFlags := 0; bi_nStakeModifier := 0; bi_bnStakeModifierV2 := 0; bi_prevoutStake := null_outpoint;
    bi_nStakeTime := 0; bi_hashProof := 0; bi_nVersion := 1; bi_hashMerkleRoot := toy_hash; bi_nTime := 100; bi_nBits := 0; bi_nNonce := 0 |};
    e_pprev := None; e_pnext := None |}]};
  setStakeSeen := ∅; pindexGenesisBlock := None; g_pindexBest := Some 9; hashBestChain := 9; nBestHeight := 5; nBestChainTrust := 1;
  nBestInvalidTrust := 0; database := {| db_tx := ∅; db_hashBestChain := 9; db_blockindex := ∅ |}; block_files := ∅;
  g_mempool := empty_pool 0 |}.

Definition toy_env : WalletEnv := {|
  env_node := toy_node; env_time := 200; env_spork_instantx := false; fEnableInstantX := false; mapTxLocks := ∅; nInstantXDepth := 1;
  env_nCoinbaseMaturity := 100; fConfChange := false; fMasterNode := false; stashedSendDenominations := init_denominations;
  nStashedsendRounds := 2; nTransactionFee := MIN_TX_FEE; nMinimumInputValue := 0 |}.

Definition toy_random : select_random := {| shuffle l := l; rand1 _ _ := true; rand2 _ _ := true |}.

Definition toy_available : list COutput := [Output toy_hash 0 1 true; Output toy_hash 1 1 true; Output toy_hash 2 1 true].

(** The wallet has no transaction that spends one of its own. *)
Lemma toy_senders w : mapWallet w = mapWallet toy_wallet -> senders_known w.
Proof.
  intros Hw h wtx E. rewrite Hw in E. cbn [mapWallet toy_wallet] in E. apply lookup_singleton_Some in E as [_ <-]. exists false.
  unfold wtx_IsFromMe, GetDebit_tx. cbn [vin w_tx toy_wtx toy_coins add_amounts].
  assert (forall f, GetDebit_in w f {| prevout := {| prevout_hash := 7; prevout_n := 0 |}; scriptSig := []; nSequence := 0 |} = Ok 0) as Hd.
  { intros f. unfold GetDebit_in, prev_out. rewrite Hw. cbn [prevout prevout_hash mapWallet toy_wallet].
    by rewrite lookup_singleton_ne by (by vm_compute). }
  by rewrite !Hd.
Qed.

(** Of 2, 3 and a denominated 1.00001 coins, 4 and 5 can be paid, 5.5 not. *)
Lemma SelectCoins_spec_witness :
  AvailableCoins toy_env toy_wallet true None ALL_COINS false = Ok toy_available /\
  forall T, T = 4 * COIN \/ T = 5 * COIN \/ T = 5 * COIN + 50000000 ->
  exists ok s, SelectCoins toy_env toy_wallet (fun _ => toy_random) T 150 None ALL_COINS false ∅ = Ok (ok, s, ∅) /\
    (ok = true <-> T <= 5 * COIN).
Proof.
  split; [by vm_compute|]. intros T HT.
  destruct (SelectCoins_spec toy_env toy_wallet (fun _ => toy_random) T 150 None ALL_COINS false toy_available ∅) as [_ H].
  - done.
  - destruct HT as [->|[->| ->]]; by vm_compute.
  - apply (bool_decide_unpack _). by vm_compute.
  - by vm_compute.
  - by apply toy_senders.
  - destruct HT as [->|[->| ->]]; by vm_compute.
  - destruct (H eq_refl eq_refl) as (ok & s & H1 & H2). exists ok, s. split; [exact H1|]. rewrite H2.
    assert (total (map (amount toy_wallet) (filter (fun o => eligible toy_env toy_wallet 150 0 1 o = true) toy_available)) = 5 * COIN) as ->; [by vm_compute|done].
Defined.
