(* ===== verification/PaymentProps.v ===== *)
(** * Properties of the transactions the wallet creates

    Signing an input keeps the inputs signed before it; a round of
    [CreateTransaction] keeps the balance of the transaction and gives back what
    is left as change; the fees tried
    rise through finitely many values, so that the loop ends. *)

From Stdlib Require Import FunctionalExtensionality.
From S2P Require Import Prelude Opcode Script SigEncoding Interp Serialize Transaction TransactionProps SigHash Chain TxConnect Standard Policy Mempool Block ChainState Hash Keys KeysProps Sign SignProps Wallet Payment SelectProps.

Local Open Scope Z_scope.

(** ** Signed inputs stay signed *)

Section signed.
Context {SH : ScriptHashes} {SECP : Secp256k1}.

(** The hash that is signed reads no [scriptSig] at all. *)
Lemma blank_scripts_ext c n l k : map prevout l = map prevout k -> map nSequence l = map nSequence k -> blank_scripts c n l = blank_scripts c n k.
Proof.
  intros Hp Hq. unfold blank_scripts.
  assert (map (fun txin => with_scriptSig txin []) l = map (fun txin => with_scriptSig txin []) k) as E.
  { revert k Hp Hq. induction l as [|x l IH]; intros [|y k] Hp Hq; [done..|]. cbn [map] in *. injection Hp as Hp1 Hp. injection Hq as Hq1 Hq.
    unfold with_scriptSig at 1 3. rewrite Hp1, Hq1. by rewrite (IH k). }
  rewrite E. set (d := {| prevout := null_outpoint; scriptSig := []; nSequence := UINT_MAX |}). f_equal. unfold with_scriptSig.
  pose proof (map_nth prevout l d n) as P1. pose proof (map_nth prevout k d n) as P2. rewrite Hp in P1.
  pose proof (map_nth nSequence l d n) as Q1. pose proof (map_nth nSequence k d n) as Q2. rewrite Hq in Q1.
  by rewrite <-P1, <-Q1, P2, Q2.
Qed.

Lemma SignatureHash_any_scriptSig code tx m s nIn ht : SignatureHash code (set_scriptSig tx m s) nIn ht = SignatureHash code tx nIn ht.
Proof.
  unfold SignatureHash, sighash_tx, set_scriptSig. cbn [vin with_vin].
  set (f := fun txin => {| prevout := prevout txin; scriptSig := s; nSequence := nSequence txin |}).
  assert (zlen (alter f m (vin tx)) = zlen (vin tx)) as -> by (unfold zlen; by rewrite length_alter).
  destruct (zlen (vin tx) <=? nIn); [done|].
  by rewrite (blank_scripts_ext _ _ (alter f m (vin tx)) (vin tx)) by by apply map_alter_id.
Qed.

Lemma signature_checker_any tx m s nIn : signature_checker (set_scriptSig tx m s) nIn = signature_checker tx nIn.
Proof.
  unfold signature_checker. f_equal. do 3 (apply functional_extensionality; intros ?). unfold SignatureChecker_CheckSig.
  destruct (CPubKey_of _); [|done]. destruct (_ : valtype); [done|]. by rewrite SignatureHash_any_scriptSig.
Qed.

(** An input whose script is accepted. *)
Definition input_signed (tx : CTransaction) (i : nat) (spk : list Z) : Prop :=
  exists txin, vin tx !! i = Some txin /\
    VerifyScript (SB := signature_checker tx (Z.of_nat i)) (scriptSig txin) spk STANDARD_SCRIPT_VERIFY_FLAGS = Ok tt.

Lemma input_signed_other tx m s i spk : i <> m -> input_signed tx i spk -> input_signed (set_scriptSig tx m s) i spk.
Proof.
  intros Hi (txin & H1 & H2). exists txin. rewrite signature_checker_any. split; [|done].
  unfold set_scriptSig. cbn [vin with_vin]. by rewrite list_lookup_alter, decide_False.
Qed.

(** [SignSignature] writes one [scriptSig], which is accepted on success. *)
Lemma SignSignature_writes ks spk tx i ht b tx' : (i < length (vin tx))%nat ->
  SignSignature ks spk tx (Z.of_nat i) ht = Ok (b, tx') ->
  (exists s, tx' = set_scriptSig tx i s) /\ (b = true -> input_signed tx' i spk).
Proof.
  intros Hi. unfold SignSignature. rewrite Nat2Z.id.
  destruct (assert_that _); [|done..]. cbn [mbind outcome_bind].
  destruct (Solver_sign _ _ _ _) as [[[ok wt] sig]| | |]; [|done..]. cbn [mbind outcome_bind].
  destruct ok; cbn [negb]; [|intros [= <- <-]; split; [by eexists|done]].
  assert (forall (b1 : bool) s1, (if negb b1 then mret (false, set_scriptSig tx i s1) else
      let scriptSig := match vin (set_scriptSig tx i s1) !! i with Some txin => scriptSig txin | None => [] end in
      ok ← verified (VerifyScript (SB := signature_checker (set_scriptSig tx i s1) (Z.of_nat i)) scriptSig spk STANDARD_SCRIPT_VERIFY_FLAGS);
      mret (ok, set_scriptSig tx i s1)) = (Ok (b, tx') : outcome unit (bool * CTransaction)) ->
    (exists s, tx' = set_scriptSig tx i s) /\ (b = true -> input_signed tx' i spk)) as Hlast.
  { intros b1 s1. destruct b1; cbn [negb]; [|intros [= <- <-]; split; [by eexists|done]]. cbv zeta.
    destruct (verified _) as [ok| | |] eqn:Ev; [|done..]. cbn [mbind outcome_bind]. intros [= <- <-]. split; [by eexists|].
    intros ->. unfold input_signed. destruct (lookup_lt_is_Some_2 (vin (set_scriptSig tx i s1)) i) as [txin Ht].
    { unfold set_scriptSig. cbn [vin with_vin]. by rewrite length_alter. }
    exists txin. split; [done|]. rewrite Ht in Ev. destruct (VerifyScript _ _ _) as [[]| | |]; done. }
  destruct (bool_decide _); [|apply (Hlast true)].
  destruct (Solver_sign _ _ _ _) as [[[ok2 wt2] sig2]| | |]; [|done..]. cbn [mbind outcome_bind mret outcome_ret].
  rewrite set_scriptSig_twice. apply Hlast.
Qed.

(** The loop that signs: the inputs it does not reach keep their state. *)
Lemma sign_inputs_ok w coins i tx b tx' :
  map prevout (drop i (vin tx)) = map (fun c => {| prevout_hash := fst c; prevout_n := snd c |}) coins ->
  (i + length coins)%nat = length (vin tx) ->
  sign_inputs w coins (Z.of_nat i) tx = Ok (b, tx') ->
  map prevout (vin tx') = map prevout (vin tx) /\ vout tx' = vout tx /\
  (b = true -> forall spks, length spks = i -> (forall j spk, spks !! j = Some spk -> input_signed tx j spk) ->
     exists outs, Forall2 (fun c o => coin_out w c = Some o) coins outs /\
       forall j spk, (spks ++ map scriptPubKey outs) !! j = Some spk -> input_signed tx' j spk).
Proof.
  revert i tx. induction coins as [|c coins IH]; intros i tx Hp Hl; cbn [sign_inputs].
  { intros [= <- <-]. split_and!; [done..|]. intros _ spks Hs H. exists []. split; [constructor|]. by rewrite app_nil_r. }
  cbn [length] in Hl. destruct (mapWallet w !! fst c) as [wtx|] eqn:Hw; [|done].
  unfold SignSignature_from. rewrite Nat2Z.id.
  destruct (vin tx !! i) as [txin|] eqn:Htx; [|done]. destruct (vout (w_tx wtx) !! _) as [o|] eqn:Ho; [|done].
  assert (coin_out w c = Some o) as Hc.
  { assert (prevout txin = {| prevout_hash := fst c; prevout_n := snd c |}) as E.
    { rewrite (drop_S _ _ _ Htx) in Hp. by injection Hp. }
    unfold coin_out. rewrite Hw. cbn. by rewrite E in Ho. }
  destruct (SignSignature _ _ _ _ _) as [[ok tx1]| | |] eqn:Es; [|done..]. cbn [mbind outcome_bind].
  apply SignSignature_writes in Es as [[s ->] Hok]; [|lia].
  assert (map prevout (vin (set_scriptSig tx i s)) = map prevout (vin tx)) as Hp1 by by apply map_alter_id.
  destruct ok; [|intros [= <- <-]; by split_and!]. replace (Z.of_nat i + 1) with (Z.of_nat (S i)) by lia. intros Hrest.
  destruct (IH (S i) (set_scriptSig tx i s)) as (H1 & H2 & H3); [..|exact Hrest|].
  { rewrite <-skipn_map, Hp1, skipn_map. rewrite (drop_S _ _ _ Htx) in Hp. by injection Hp. }
  { unfold set_scriptSig. cbn [vin with_vin]. rewrite length_alter. lia. }
  split; [by rewrite H1|]. split; [done|]. intros -> spks Hs Hsig.
  destruct (H3 eq_refl (spks ++ [scriptPubKey o])) as (outs & Houts & Hall).
  - rewrite length_app. cbn. lia.
  - intros j spk [Hj|[Hj E]]%lookup_app_Some.
    + apply input_signed_other; [apply lookup_lt_Some in Hj; lia|by apply Hsig].
    + apply list_lookup_singleton_Some in E as [Hj0 <-]. assert (j = i) as -> by lia. by apply Hok.
  - exists (o :: outs). split; [by constructor|]. intros j spk H. apply Hall. rewrite <-app_assoc. exact H.
Qed.
End signed.

(** ** The key pool leaves the coins alone *)

(** Wallets with the same transactions, locks and redeem scripts; the second
    may have more keys. *)
Record same_coins (w w' : CWallet) : Prop := {
  sc_wallet : mapWallet w' = mapWallet w;
  sc_locked : setLockedCoins w' = setLockedCoins w;
  sc_scripts : mapScripts (w_keys w') = mapScripts (w_keys w);
  sc_keys : forall id, HaveKey (w_keys w) id = true -> HaveKey (w_keys w') id = true
}.

#[export] Instance same_coins_refl : Reflexive same_coins.
Proof. done. Qed.
#[export] Instance same_coins_trans : Transitive same_coins.
Proof. intros a b c [H1 H2 H3 H7] [H4 H5 H6 H8]. split; [congruence..|]. intros id H. by apply H8, H7. Qed.

Section pool.
Context {SH : ScriptHashes} {SECP : Secp256k1}.
Variables (newkey : Z -> CKey) (test_bytes : Z -> list Z) (now : Z).

Lemma set_keypool_same s p w : same_coins w (set_keypool s p w).
Proof. done. Qed.

Lemma GenerateNewKey_same n w pub w' : GenerateNewKey newkey test_bytes n w = Ok (pub, w') -> same_coins w w'.
Proof.
  unfold GenerateNewKey. destruct (GetPubKey _) as [pk| | |]; [|done..]. cbn [mbind outcome_bind].
  destruct (VerifyPubKey _ _ _) as [ok| | |]; [|done..]. cbn [mbind outcome_bind]. destruct (assert_that ok); [|done..].
  intros [= <- <-]. split; [done..| |].
  - cbn. by destruct (HaveWatchOnly _ _).
  - intros id H. cbn [w_keys set_keys]. assert (HaveKey (AddKeyPubKey (w_keys w) (newkey n) pk) id = true) as H1.
    { unfold HaveKey in *. apply bool_decide_eq_true. apply bool_decide_eq_true in H. cbn [mapKeys AddKeyPubKey].
      destruct (decide (pubkey_GetID pk = id)) as [->|Hn]; [by rewrite lookup_insert_eq|by rewrite lookup_insert_ne]. }
    by destruct (HaveWatchOnly _ _).
Qed.

Lemma top_up_same fuel n w w' : top_up newkey test_bytes now fuel n w = Ok w' -> same_coins w w'.
Proof.
  revert w. induction fuel as [|fuel IH]; intros w; cbn [top_up]; [done|]. destruct (_ <? _); [|by intros [= <-]].
  destruct (GenerateNewKey _ _ _ _) as [[pub w1]| | |] eqn:E; [|done..]. cbn [mbind outcome_bind]. intros H%IH.
  apply GenerateNewKey_same in E. etrans; [exact E|]. etrans; [|exact H]. apply set_keypool_same.
Qed.

Lemma ReserveKey_same n w r w' : ReserveKeyFromKeyPool newkey test_bytes now n w = Ok (r, w') -> same_coins w w'.
Proof.
  unfold ReserveKeyFromKeyPool, TopUpKeyPool. destruct (top_up _ _ _ _ _ _) as [w1| | |] eqn:E; [|done..]. cbn [mbind outcome_bind].
  apply top_up_same in E. destruct (head _) as [i|]; [|by intros [= _ <-]]. destruct (_ !! i) as [k|]; [|done].
  destruct (throw_if _); [|done..]. cbn [mbind outcome_bind]. destruct (assert_that _); [|done..]. intros [= _ <-].
  etrans; [exact E|apply set_keypool_same].
Qed.

Lemma GetReservedKey_same n dk r w p r' w' : GetReservedKey newkey test_bytes now n dk r w = Ok (p, r', w') -> same_coins w w'.
Proof.
  unfold GetReservedKey. destruct (if rk_nIndex r =? -1 then _ else _) as [[[ok r1] w1]| | |] eqn:E; [|done..]. cbn [mbind outcome_bind].
  assert (same_coins w w1) as Hw.
  { destruct (rk_nIndex r =? -1); [|by injection E as _ _ <-].
    destruct (ReserveKeyFromKeyPool _ _ _ _ _) as [[res w2]| | |] eqn:E2; [|done..]. apply ReserveKey_same in E2. cbn [mbind outcome_bind] in E.
    destruct res as [[i kp]|]; [by injection E as _ _ <-|]. destruct (pubkey_IsValid dk); by injection E as _ _ <-. }
  destruct ok; cbn [negb]; [|by intros [= _ _ <-]]. destruct (assert_that _); [|done..]. by intros [= _ _ <-].
Qed.

Lemma reserve_ReturnKey_same r w : same_coins w (snd (reserve_ReturnKey r w)).
Proof. unfold reserve_ReturnKey. by destruct (negb _). Qed.

Variables (nKeyPool : Z) (dk : pubkey_bytes).

(** A key for the change: one of the wallet, the default key, or the one that
    was reserved before. *)
Variable key0 : CReserveKey.
Definition change_key (w : CWallet) (pub : pubkey_bytes) : Prop :=
  HaveKey (w_keys w) (pubkey_GetID pub) = true \/ pub = dk \/ rk_nIndex key0 <> -1 /\ pub = rk_vchPubKey key0.
Definition reserves (w : CWallet) (r : CReserveKey) : Prop := rk_nIndex r = -1 \/ change_key w (rk_vchPubKey r).

Lemma change_key_mono w w' pub : same_coins w w' -> change_key w pub -> change_key w' pub.
Proof. intros Hw [H|H]; [left; by apply Hw|by right]. Qed.
Lemma reserves_mono w w' r : same_coins w w' -> reserves w r -> reserves w' r.
Proof. intros Hw [H|H]; [by left|right; by eapply change_key_mono]. Qed.

Lemma ReserveKey_has n w i kp w' : ReserveKeyFromKeyPool newkey test_bytes now n w = Ok (Some (i, kp), w') ->
  HaveKey (w_keys w') (pubkey_GetID (kp_vchPubKey kp)) = true.
Proof.
  unfold ReserveKeyFromKeyPool. destruct (TopUpKeyPool _ _ _ _ _) as [w1| | |]; [|done..]. cbn [mbind outcome_bind].
  destruct (head _) as [j|]; [|done]. destruct (_ !! j) as [k|]; [|done].
  destruct (throw_if _) eqn:E; [|done..]. cbn [mbind outcome_bind]. destruct (assert_that _); [|done..]. intros [= _ <- <-].
  by destruct (HaveKey _ _).
Qed.

Lemma GetReservedKey_key n r w p r' w' : GetReservedKey newkey test_bytes now n dk r w = Ok (Some p, r', w') -> reserves w r ->
  pubkey_IsValid p = true /\ change_key w' p /\ reserves w' r'.
Proof.
  unfold GetReservedKey. destruct (if rk_nIndex r =? -1 then _ else _) as [[[ok r1] w1]| | |] eqn:E; [|done..]. cbn [mbind outcome_bind].
  destruct ok; cbn [negb]; [|done]. destruct (pubkey_IsValid (rk_vchPubKey r1)) eqn:Ev; [|done]. cbn [assert_that mbind outcome_bind].
  intros [= <- <- <-] Hr. assert (change_key w1 (rk_vchPubKey r1)) as Hk; [|by split_and!; [|done|right]].
  destruct (Z.eqb_spec (rk_nIndex r) (-1)) as [_|Hi]; [|injection E as <- <-; by destruct Hr].
  destruct (ReserveKeyFromKeyPool _ _ _ _ _) as [[res w2]| | |] eqn:E2; [|done..]. cbn [mbind outcome_bind] in E.
  destruct res as [[i kp]|]; [apply ReserveKey_has in E2; injection E as <- <-; by left|].
  destruct (pubkey_IsValid dk); [|done]. injection E as <- <-. by right; left.
Qed.

(** A script for the change: the destination of the coin control, or the hash
    of such a key. *)
Definition changes_to (cc : option CCoinControl) (w : CWallet) (s : list Z) : Prop :=
  match (match cc with Some c => destChange c | None => CNoDestination end) with
  | CNoDestination => exists pub, pubkey_IsValid pub = true /\ change_key w pub /\ s = GetScriptForDestination (CKeyID (pubkey_GetID pub))
  | dest => s = GetScriptForDestination dest
  end.

Lemma changes_to_mono cc w w' s : same_coins w w' -> changes_to cc w s -> changes_to cc w' s.
Proof.
  intros Hw. unfold changes_to. destruct (match cc with Some c => _ | None => _ end); try done.
  intros (pub & H1 & H2 & H3). exists pub. split_and!; [done|by eapply change_key_mono|done].
Qed.

Lemma change_script_ok cc key w s key' w' : change_script newkey test_bytes now nKeyPool dk cc key w = Ok (s, key', w') -> reserves w key ->
  changes_to cc w' s /\ reserves w' key'.
Proof.
  unfold change_script, changes_to. destruct (match cc with Some c => _ | None => _ end); try by intros [= <- <- <-].
  destruct (GetReservedKey _ _ _ _ _ _ _) as [[[p k] w1]| | |] eqn:E; [|done..]. cbn [mbind outcome_bind]. destruct p as [p|]; [|done].
  intros [= <- <- <-] Hr. apply GetReservedKey_key in E as (H1 & H2 & H3); [|done]. split; [by exists p|done].
Qed.

Lemma change_script_same cc key w s key' w' :
  change_script newkey test_bytes now nKeyPool dk cc key w = Ok (s, key', w') -> same_coins w w'.
Proof.
  unfold change_script. destruct (match cc with Some c => _ | None => _ end); try by intros [= _ _ <-].
  destruct (GetReservedKey _ _ _ _ _ _ _) as [[[p k] w1]| | |] eqn:E; [|done..]. cbn [mbind outcome_bind].
  apply GetReservedKey_same in E. destruct p; [|done]. by intros [= _ _ <-].
Qed.

(** What becomes of the rest [left] of the coins: nothing is left, or it is an
    output to a script for the change, or it goes to the fee when that output
    would be dust.  [extra] is what the fee gains. *)
Definition rest_goes (is_script : list Z -> Prop) (left : Z) (change : list CTxOut) (extra : Z) : Prop :=
  (left = 0 /\ change = [] /\ extra = 0) \/
  (0 < left /\ exists s, is_script s /\
     let o := {| nValue := left; scriptPubKey := s |} in
     if IsDust o MIN_RELAY_TX_FEE then change = [] /\ extra = left else change = [o] /\ extra = 0).

Lemma rest_goes_total is_script left change extra : rest_goes is_script left change extra -> total (map nValue change) + extra = left.
Proof.
  intros [(-> & -> & ->)|(_ & s & _ & H)]; [done|]. cbv zeta in H. destruct (IsDust _ _); destruct H as [-> ->]; unfold total; cbn; lia.
Qed.

Lemma add_change_ok rr cc nChange outs nFee key w outs' nFee' key' w' :
  add_change newkey test_bytes now nKeyPool dk rr cc nChange outs nFee key w = Ok (outs', nFee', key', w') -> 0 <= nChange -> - 2 ^ 63 <= nFee -> nFee + nChange < 2 ^ 63 ->
  reserves w key -> same_coins w w' /\ reserves w' key' /\
  exists change, (outs' ≡ₚ outs ++ change) /\ rest_goes (changes_to cc w') nChange change (nFee' - nFee).
Proof.
  unfold add_change. intros H Hc Hlo Hhi Hkey. destruct (Z.ltb_spec 0 nChange) as [Hpos|Hz].
  - destruct (change_script _ _ _ _ _ _ _ _) as [[[s k] w1]| | |] eqn:E; [|done..]. cbn [mbind outcome_bind] in H.
    destruct (change_script_ok _ _ _ _ _ _ E Hkey) as [Hs Hk]. apply change_script_same in E.
    set (o := {| nValue := nChange; scriptPubKey := s |}) in H. destruct (IsDust o MIN_RELAY_TX_FEE) eqn:Hd.
    + pose proof (reserve_ReturnKey_same k w1) as Hr. unfold reserve_ReturnKey in *. injection H as <- <- <- <-.
      rewrite to_i64_small by lia. split; [by etrans|]. split; [by left|]. exists []. rewrite app_nil_r. split; [done|]. right. split; [done|].
      exists s. split; [by eapply changes_to_mono|]. cbv zeta. fold o. rewrite Hd. split; [done|lia].
    + injection H as <- <- <- <-. split; [done|]. split; [done|]. exists [o]. split.
      * rewrite <-Permutation_middle, take_drop. apply Permutation_cons_append.
      * right. split; [done|]. exists s. split; [done|]. cbv zeta. fold o. rewrite Hd. split; [done|lia].
  - assert (nChange = 0) as -> by lia. pose proof (reserve_ReturnKey_same key w) as Hr. unfold reserve_ReturnKey in *.
    injection H as <- <- <- <-. split; [done|]. split; [by left|]. exists []. rewrite app_nil_r. split; [done|]. left. split_and!; [done|done|lia].
Qed.
End pool.

(** ** The fees tried *)

Section fees.
Variables (env : WalletEnv).

Definition size_classes : list Z := seqZ 0 (MAX_STANDARD_TX_SIZE / 1000 + 1).
Definition pay_fee (k : Z) : Z := to_i64 (nTransactionFee env * (1 + k)).
Definition fees : list Z := 0 :: CENT :: map pay_fee size_classes ++ map (fun k => MIN_TX_FEE * (1 + k)) size_classes.

Lemma size_class nBytes : 0 <= nBytes < MAX_STANDARD_TX_SIZE -> nBytes / 1000 ∈ size_classes.
Proof.
  intros H. apply elem_of_seqZ. split; [apply Z.div_pos; lia|].
  pose proof (Z.div_le_mono nBytes MAX_STANDARD_TX_SIZE 1000). lia.
Qed.

Lemma GetMinFee_fees tx nBytes free mode : mode <> GMF_RELAY -> 0 <= nBytes < MAX_STANDARD_TX_SIZE -> GetMinFee tx nBytes free mode ∈ fees.
Proof.
  intros Hm Hb. pose proof (size_class nBytes Hb) as Hk. pose proof (size_class 0 ltac:(vm_compute; split; congruence)) as H0. change (0 / 1000) with 0 in H0.
  assert (forall k, k ∈ size_classes -> MIN_TX_FEE * (1 + k) ∈ fees /\ MoneyRange (MIN_TX_FEE * (1 + k)) = true) as Hin.
  { intros k Hk'. split; [unfold fees; do 2 right; apply elem_of_app; right; apply list_elem_of_fmap; by exists k|].
    apply elem_of_seqZ in Hk'. unfold MoneyRange. change (MAX_STANDARD_TX_SIZE / 1000 + 1) with 2001 in Hk'. unfold MIN_TX_FEE, MAX_MONEY, COIN. lia. }
  unfold GetMinFee. assert (match mode with GMF_RELAY => MIN_RELAY_TX_FEE | _ => MIN_TX_FEE end = MIN_TX_FEE) as -> by by destruct mode.
  assert (forall n, n ∈ fees /\ MoneyRange n = true -> (if negb (MoneyRange n) then MAX_MONEY else n) ∈ fees) as Hr by (intros n [? ->]; done).
  apply Hr. destruct (_ && existsb _ _).
  - replace MIN_TX_FEE with (MIN_TX_FEE * (1 + 0)) by lia. by apply Hin.
  - destruct (free && _); [split; [left|done]|]. rewrite Z.mul_comm. by apply Hin.
Qed.

(** The fee of the next round. *)
Lemma next_fee_ok tx nBytes free useIX nFee : 0 <= nBytes < MAX_STANDARD_TX_SIZE ->
  let new := Z.max (to_i64 (nTransactionFee env * (1 + nBytes / 1000))) (GetMinFee tx nBytes free GMF_SEND) in
  nFee < new -> let new := (if (useIX : bool) then Z.max CENT new else new) in new ∈ fees /\ nFee < new.
Proof.
  intros Hb new Hlt. assert (new ∈ fees) as Hnew.
  { subst new. destruct (Z.max_spec (to_i64 (nTransactionFee env * (1 + nBytes / 1000))) (GetMinFee tx nBytes free GMF_SEND)) as [[_ ->]|[_ ->]].
    - by apply GetMinFee_fees.
    - unfold fees. do 2 right. apply elem_of_app. left. apply list_elem_of_fmap. exists (nBytes / 1000). split; [done|]. by apply size_class. }
  destruct useIX; [|done]. cbv zeta. destruct (Z.max_spec CENT new) as [[_ ->]|[? ->]]; [done|]. split; [right; left|lia].
Qed.

(** The fees that are left to try. *)
Definition fees_left (n : Z) : nat := length (filter (fun f => n < f) fees).

Lemma fees_left_drop n m : m ∈ fees -> n < m -> (fees_left m < fees_left n)%nat.
Proof.
  intros Hm Hn. unfold fees_left. apply Nat.lt_le_trans with (length (m :: filter (fun f => m < f) fees)); [cbn; lia|].
  revert Hm. generalize fees. intros l. induction l as [|f l IH]; intros Hm; [by apply elem_of_nil in Hm|].
  assert (forall k : list Z, (length (filter (fun f => (m < f)%Z) k) <= length (filter (fun f => (n < f)%Z) k))%nat) as Hle.
  { intros k. induction k as [|g k IHk]; [done|]. rewrite !filter_cons. destruct (decide (m < g)), (decide (n < g)); cbn; lia. }
  specialize (Hle l). rewrite !filter_cons. apply elem_of_cons in Hm as [<-|Hm].
  - rewrite decide_False, decide_True by lia. cbn. lia.
  - specialize (IH Hm). destruct (decide (m < f)), (decide (n < f)); cbn in *; lia.
Qed.
End fees.

(** ** What is created *)

Section created.
Context {SH : ScriptHashes} {SECP : Secp256k1}.

Definition value_spent (w : CWallet) (txin : CTxIn) : Z := from_option nValue 0 (prev_out w txin).

(** What a transaction has to pay: for its size, at the rate of the wallet and
    by the rules. *)
Definition fee_for (env : WalletEnv) (tx : CTransaction) (free : bool) : Z :=
  Z.max (to_i64 (nTransactionFee env * (1 + tx_size tx / 1000))) (GetMinFee tx (tx_size tx) free GMF_SEND).
Definition with_floor (useIX : bool) (n : Z) : Z := if useIX then Z.max CENT n else n.

(** A fee that a round starts with: that of the wallet, or what a transaction
    of standard size has to pay. *)
Definition asked (env : WalletEnv) (useIX : bool) (f : Z) : Prop :=
  f = with_floor useIX (nTransactionFee env) \/
  exists tx free, tx_size tx < MAX_STANDARD_TX_SIZE /\ f = with_floor useIX (fee_for env tx free).

(** A complete transaction of the wallet with the given payments and fee;
    [is_script] are the scripts the change may go to. *)
Record created (env : WalletEnv) (is_script : list Z -> Prop) (ct : AvailableCoinsType) (useIX : bool) (w : CWallet) (vecSend : list (list Z * Z))
    (tx : CTransaction) (nFee : Z) : Prop := {
  cr_distinct : NoDup (map prevout (vin tx));
  cr_unspent : exists w', same_coins w w' /\ Forall (fun txin => exists o, available w' o /\
    prevout txin = {| prevout_hash := o_tx o; prevout_n := o_i o |}) (vin tx);
  cr_signed : forall i txin, vin tx !! i = Some txin -> exists o, prev_out w txin = Some o /\ input_signed tx i (scriptPubKey o);
  cr_outputs : exists f change, asked env useIX f /\ (vout tx ≡ₚ map payee_out vecSend ++ change) /\
    let left := total (map (value_spent w) (vin tx)) - total (map snd vecSend) - f in
    if is_denominated ct then 0 <= left /\ change = [] /\ nFee = f + left else rest_goes is_script left change (nFee - f);
  cr_value : total (map (value_spent w) (vin tx)) = total (map nValue (vout tx)) + nFee;
  cr_fee : exists free, fee_for env tx free <= nFee;
  cr_size : tx_size tx < MAX_STANDARD_TX_SIZE
}.

Lemma payee_outputs_ok vecSend outs : payee_outputs vecSend = (true, outs) -> outs = map payee_out vecSend.
Proof.
  revert outs. induction vecSend as [|p vecSend IH]; intros outs; cbn [payee_outputs]; [by intros [= <-]|].
  destruct (payee_ok _); cbn [negb]; [|done]. destruct (payee_outputs vecSend) as [ok l]. intros [= -> <-]. cbn [map]. by rewrite (IH l).
Qed.

Context (env : WalletEnv) (w0 : CWallet).
Context (Hdenoms : NoDup (stashedSendDenominations env)) (Hfee : 0 <= nTransactionFee env <= 2 ^ 49).
Context (Hsenders : forall w, same_coins w0 w -> senders_known w).
Context (Hworth : forall ids, NoDup ids -> Forall (fun c => 0 <= snd c) ids -> total (map (fun c => from_option nValue 0 (coin_out w0 c)) ids) <= 2 ^ 60).

Lemma amount_same w o : same_coins w0 w -> amount w o = from_option nValue 0 (coin_out w0 (out_id o)).
Proof. intros [Hw _ _ _]. unfold amount, coin_out. by rewrite Hw. Qed.

(** A successful selection. *)
Lemma SelectCoins_selected w rnd T t cc ct ix memo s memo' : (forall k l, shuffle (rnd k) l ≡ₚ l) -> same_coins w0 w -> 0 <= T <= 2 ^ 61 ->
  SelectCoins env w rnd T t cc ct ix memo = Ok (true, s, memo') ->
  exists l, NoDup (map out_id l) /\ Forall (available w) l /\ s = (list_to_set (map out_id l), total (map (amount w) l)) /\ T <= snd s <= 2 ^ 60.
Proof.
  intros Hrnd Hw HT E. assert (forall l, NoDup (map out_id l) -> Forall (available w) l -> total (map (amount w) l) <= 2 ^ 60) as Hle.
  { intros l Hl Hl'. rewrite <-(Hworth (map out_id l) Hl), map_map.
    - apply Z.eq_le_incl. f_equal. apply map_ext. intros o. by apply amount_same.
    - rewrite Forall_map. eapply Forall_impl; [exact Hl'|]. by intros o (wtx & out & mine & _ & Hi & _). }
  destruct (AvailableCoins env w true cc ct ix) as [vCoins| | |] eqn:Ha; [|unfold SelectCoins in E; by rewrite Ha in E..].
  destruct (AvailableCoins_ok env w _ _ _ _ _ Ha) as [Hav Hnd].
  destruct (SelectCoins_sound env w rnd Hrnd T t (proj1 HT) cc ct ix vCoins Ha (Hsenders w Hw)) with (memo := memo) (memo' := memo') (s := s) (ok := true)
    as [(l & Hl & ->) Hge]; try done.
  { specialize (Hle vCoins Hnd Hav). unfold CENT. lia. }
  pose proof (NoDup_selected out_id l vCoins Hl Hnd) as Hndl.
  assert (Forall (available w) l) as Havl by (rewrite Forall_forall in *; intros o Ho; apply Hav; by eapply elem_of_submseteq).
  exists l. split_and!; try done. by apply Hle.
Qed.

(** The inputs made of a selection. *)
Lemma coins_spent w coins l ins : same_coins w0 w -> coins ≡ₚ map out_id l -> NoDup (map out_id l) -> Forall (available w) l ->
  map prevout ins = map (fun c => {| prevout_hash := fst c; prevout_n := snd c |}) coins ->
  NoDup (map prevout ins) /\
  Forall (fun txin => exists o, available w o /\ prevout txin = {| prevout_hash := o_tx o; prevout_n := o_i o |}) ins /\
  total (map (value_spent w0) ins) = total (map (amount w) l).
Proof.
  intros Hw Hc Hnd Hav Hp. split_and!.
  - rewrite Hp. apply NoDup_fmap_2; [|by rewrite Hc]. intros [a b] [a' b'] [= -> ->]. done.
  - apply Forall_forall. intros txin Hin. assert (prevout txin ∈ map prevout ins) as Hpi by (apply list_elem_of_fmap; eauto).
    rewrite Hp in Hpi. apply list_elem_of_fmap in Hpi as (c & -> & Hcin). rewrite Hc in Hcin. apply list_elem_of_fmap in Hcin as (o & -> & Ho).
    rewrite Forall_forall in Hav. exists o. by split; [apply Hav|].
  - assert (map (value_spent w0) ins = map (fun c => from_option nValue 0 (coin_out w0 c)) coins) as ->.
    { transitivity (map (fun p => from_option nValue 0 (coin_out w0 (prevout_hash p, prevout_n p))) (map prevout ins)); [by rewrite map_map|].
      rewrite Hp, map_map. by apply map_ext. }
    rewrite Hc, map_map. f_equal. apply map_ext. intros o. symmetry. by apply amount_same.
Qed.

Variables (newkey : Z -> CKey) (test_bytes : Z -> list Z) (now nKeyPool : Z) (dk : pubkey_bytes) (key0 : CReserveKey).
Context (order : gset coin_id -> list coin_id) (Horder : forall s, order s ≡ₚ elements s).
Context (vecSend : list (list Z * Z)) (nValue : Z) (Hvalue : 0 <= nValue <= 2 ^ 60) (Htotal : total (map snd vecSend) = nValue).

Abbreviation change_to cc w := (changes_to dk key0 cc w).

(** The signed transaction of a round. *)
Lemma sign_round cc ct ix f w w' l coins outs change fee tx tx' : same_coins w0 w -> same_coins w0 w' -> NoDup (map out_id l) -> Forall (available w) l ->
  coins ≡ₚ map out_id l -> asked env ix f -> (outs ≡ₚ map payee_out vecSend ++ change) ->
  let left := total (map (amount w) l) - nValue - f in
  (if is_denominated ct then 0 <= left /\ change = [] /\ fee = f + left else rest_goes (change_to cc w') left change (fee - f)) ->
  sign_inputs w' coins 0 (with_vin (with_vout tx outs) (map coin_input coins)) = Ok (true, tx') ->
  tx_size tx' < MAX_STANDARD_TX_SIZE -> (exists free, fee_for env tx' free <= fee) ->
  created env (change_to cc w') ct ix w0 vecSend tx' fee.
Proof.
  intros Hw Hw' Hnd Hav Hc Hf Houts left Hrest Hs Hsize Hfee'. set (tx1 := with_vin _ _) in Hs.
  assert (map prevout (vin tx1) = map (fun c => {| prevout_hash := fst c; prevout_n := snd c |}) coins) as Hp1 by (unfold tx1; cbn [vin with_vin]; by rewrite map_map).
  destruct (sign_inputs_ok w' coins 0 tx1 true tx' Hp1) as (Hp & Ho & Hsig); [by rewrite <-(length_map prevout), Hp1, length_map|exact Hs|].
  rewrite Hp1 in Hp. destruct (Hsig eq_refl [] eq_refl) as (os & Hos & Hall); [by intros|].
  destruct (coins_spent w coins l (vin tx') Hw Hc Hnd Hav Hp) as (H1 & H2 & H3). change (vout tx1) with outs in Ho. split; try done.
  - by exists w.
  - intros i txin Hi. assert (map prevout (vin tx') !! i = Some (prevout txin)) as E by (rewrite list_lookup_fmap; by rewrite Hi).
    rewrite Hp in E. apply list_lookup_fmap_Some in E as (c & E & Ec).
    destruct (Forall2_lookup_l _ _ _ _ _ Hos Ec) as (o & Hoi & Hco). exists o. split.
    + unfold prev_out. rewrite E. cbn. unfold coin_out in Hco. by rewrite (sc_wallet _ _ Hw') in Hco.
    + apply Hall. cbn [app]. rewrite list_lookup_fmap. by rewrite Hoi.
  - exists f, change. split; [done|]. rewrite Ho, H3, Htotal. done.
  - rewrite Ho, H3, Houts, map_app, total_app. assert (total (map Transaction.nValue (map payee_out vecSend)) = nValue) as -> by (rewrite map_map; exact Htotal).
    destruct (is_denominated ct); [destruct Hrest as (_ & -> & ->); unfold total at 2; cbn; subst left; lia|].
    apply rest_goes_total in Hrest. subst left. lia.
Qed.

Abbreviation round := (create_round order env newkey test_bytes now nKeyPool dk).

(** A creation under way. *)
Definition under_way (ix : bool) (c : creation) : Prop :=
  same_coins w0 (c_wallet c) /\ reserves dk key0 (c_wallet c) (c_key c) /\ 0 <= nFeeRet c <= 2 ^ 60 /\ asked env ix (nFeeRet c).

Lemma fees_range n : n ∈ fees env -> n <= 2 ^ 60.
Proof.
  unfold fees. intros [->|[->|[(k & -> & Hk)%list_elem_of_fmap|(k & -> & Hk)%list_elem_of_fmap]%elem_of_app]%elem_of_cons]%elem_of_cons; [done..| |].
  all: apply elem_of_seqZ in Hk; change (0 + (MAX_STANDARD_TX_SIZE / 1000 + 1)) with 2001 in Hk.
  - unfold pay_fee. rewrite to_i64_small by nia. nia.
  - unfold MIN_TX_FEE. lia.
Qed.

(** One round: the transaction is complete, or the next fee is higher. *)
Lemma create_round_ok rr cc ct ix c r c' : (forall k l, shuffle (rr_select rr k) l ≡ₚ l) -> under_way ix c ->
  round rr vecSend nValue cc ct ix c = Ok (r, c') ->
  match r with
  | None => under_way ix c' /\ nFeeRet c' ∈ fees env /\ nFeeRet c < nFeeRet c'
  | Some true => created env (change_to cc (c_wallet c')) ct ix w0 vecSend (c_tx c') (nFeeRet c')
  | Some false => True
  end.
Proof.
  intros Hrnd (Hw & Hkey & Hf & Hasked) H. unfold create_round in H.
  destruct (payee_outputs vecSend) as [acc outs] eqn:Ep. destruct acc; cbn [negb] in H; [|by injection H as <- <-].
  apply payee_outputs_ok in Ep as ->. rewrite (to_i64_small (nValue + nFeeRet c)) in H by lia.
  destruct (SelectCoins _ _ _ _ _ _ _ _ _) as [[[ok s] memo]| | |] eqn:Es; [|done..]. cbn [mbind outcome_bind] in H.
  destruct ok; cbn [negb] in H; [|by injection H as <- <-].
  apply (SelectCoins_selected _ _ _ _ _ _ _ _ _ _ Hrnd Hw) in Es as (l & Hnd & Hav & -> & Hge); [|lia]. cbn [snd] in Hge.
  rewrite (to_i64_small (total _ - nValue)) in H by lia. rewrite (to_i64_small (total _ - nValue - nFeeRet c)) in H by lia.
  set (change := total (map (amount (c_wallet c)) l) - nValue - nFeeRet c) in H.
  rewrite (to_i64_small (nFeeRet c + change)) in H by lia.
  destruct (if is_denominated ct then _ else _) as [fee1 ch1] eqn:E1.
  assert (0 <= change) as Hch0 by lia.
  destruct (add_change _ _ _ _ _ _ _ _ _ _ _ _) as [[[[outs fee] key] w]| | |] eqn:Ea; [|done..]. cbn [mbind outcome_bind] in H.
  apply (add_change_ok _ _ _ _ _ key0) in Ea as (Hw' & Hkey' & ch & Hperm & Hrest); [|destruct (is_denominated ct); injection E1 as <- <-; lia..|exact Hkey].
  assert (if is_denominated ct then 0 <= change /\ ch = [] /\ fee = nFeeRet c + change else rest_goes (change_to cc w) change ch (fee - nFeeRet c)) as Hgoes.
  { destruct (is_denominated ct); injection E1 as <- <-.
    - split; [done|]. destruct Hrest as [(_ & -> & Hx)|[? _]]; [split; [done|lia]|lia].
    - exact Hrest. }
  assert (nFeeRet c <= fee) as Hf2 by (destruct (is_denominated ct); [lia|]; destruct Hgoes as [?|(? & s & _ & Hx)]; [lia|]; cbv zeta in Hx; destruct (IsDust _ _); lia).
  clear E1 Hrest.
  destruct (sign_inputs _ _ _ _) as [[signed tx]| | |] eqn:Esig; [|done..]. cbn [mbind outcome_bind] in H.
  destruct signed; cbn [negb] in H; [|by injection H as <- <-].
  destruct (Z.leb_spec MAX_STANDARD_TX_SIZE (tx_size tx)) as [|Hsize]; [by injection H as <- <-|].
  assert (0 <= tx_size tx) as H0 by (rewrite <-zlen_ser_tx; apply zlen_nonneg).
  assert (same_coins w0 w) as Hw2 by by etrans.
  fold (fee_for env tx (rr_free rr tx)) in H. destruct (Z.ltb_spec fee (fee_for env tx (rr_free rr tx))) as [Hlt|Hok].
  - injection H as <- <-. destruct (next_fee_ok env tx (tx_size tx) (rr_free rr tx) ix fee (conj H0 Hsize) Hlt) as [Hin Hlt'].
    pose proof (Z.le_lt_trans _ _ _ Hf2 Hlt') as Hlt2. cbn [nFeeRet c_wallet]. split_and!; [|exact Hin|exact Hlt2].
    split; [done|]. split; [exact Hkey'|]. cbn [nFeeRet]. split; [split; [|by apply fees_range]|].
    { apply Z.lt_le_incl. eapply Z.le_lt_trans; [apply Hf|exact Hlt2]. }
    right. by exists tx, (rr_free rr tx).
  - injection H as <- <-. cbn [c_tx nFeeRet c_wallet].
    eapply (sign_round cc ct ix (nFeeRet c) (c_wallet c) w l _ outs ch fee); [done..| |exact Hasked|exact Hperm|exact Hgoes|exact Esig|done|by exists (rr_free rr tx)].
    rewrite Horder, elements_list_to_set by done. done.
Qed.

(** The loop: a transaction it returns is complete, and it ends once there are
    as many rounds as fees to try. *)
Lemma create_loop_ok rnd cc ct ix fuel c : (forall n k l, shuffle (rr_select (rnd n) k) l ≡ₚ l) -> under_way ix c ->
  (forall c', create_loop order env newkey test_bytes now nKeyPool dk fuel rnd vecSend nValue cc ct ix c = Ok (Some (true, c')) ->
    created env (change_to cc (c_wallet c')) ct ix w0 vecSend (c_tx c') (nFeeRet c')) /\
  ((fees_left env (nFeeRet c) < fuel)%nat ->
    create_loop order env newkey test_bytes now nKeyPool dk fuel rnd vecSend nValue cc ct ix c <> Ok None).
Proof.
  intros Hrnd. revert c. induction fuel as [|fuel IH]; intros c Hc; cbn [create_loop]; [split; [done|lia]|].
  destruct (create_round _ _ _ _ _ _ _ _ _ _ _ _ _ _) as [[r c1]| | |] eqn:E; [|done..]. cbn [mbind outcome_bind].
  apply create_round_ok in E; [|apply Hrnd|done]. destruct r as [[]|].
  - split; [|done]. by intros c' [= <-].
  - done.
  - destruct E as (Hc1 & Hin & Hlt). destruct (IH c1 Hc1) as [H1 H2]. split; [done|]. intros Hf. apply H2.
    pose proof (fees_left_drop env _ _ Hin Hlt). lia.
Qed.
End created.

Lemma total_value_ok vecSend n : Forall (fun p => 0 <= snd p) vecSend -> 0 <= n -> n + total (map snd vecSend) < 2 ^ 63 ->
  total_value vecSend n = Some (n + total (map snd vecSend)).
Proof.
  intros H. revert n. induction H as [|[s v] l Hv Hl IH]; intros n Hn Hb; cbn [total_value map].
  { f_equal. unfold total. cbn. lia. }
  cbn [map snd] in *. change (total (v :: map snd l)) with (v + total (map snd l)) in *.
  pose proof (total_nonneg (map snd l)) as Ht. rewrite Forall_map in Ht. specialize (Ht Hl).
  destruct (Z.ltb_spec n 0); [lia|]. rewrite to_i64_small by lia. rewrite IH by lia. f_equal. lia.
Qed.

(** ** [CreateTransaction] *)

Section theorems.
Context {SH : ScriptHashes} {SECP : Secp256k1} (env : WalletEnv).

(** The state in which the wallet is asked for a payment: amounts that do not
    overflow, known senders, distinct denominations. *)
Record can_create (w : CWallet) (vecSend : list (list Z * Z)) : Prop := {
  cc_denominations : NoDup (stashedSendDenominations env);
  cc_fee : 0 <= nTransactionFee env <= 2 ^ 49;
  cc_senders : forall w', same_coins w w' -> senders_known w';
  cc_worth : forall ids, NoDup ids -> Forall (fun c => 0 <= snd c) ids -> total (map (fun c => from_option nValue 0 (coin_out w c)) ids) <= 2 ^ 60;
  cc_amounts : Forall (fun p => 0 <= snd p) vecSend /\ total (map snd vecSend) <= 2 ^ 60
}.

Variables (newkey : Z -> CKey) (test_bytes : Z -> list Z) (now nKeyPool : Z) (dk : pubkey_bytes) (order : gset coin_id -> list coin_id)
  (rnd : nat -> round_random).

(** What both theorems below need of the call. *)
Lemma CreateTransaction_ok vecSend cc ct ix c fuel : (forall s, order s ≡ₚ elements s) -> (forall n k l, shuffle (rr_select (rnd n) k) l ≡ₚ l) ->
  can_create (c_wallet c) vecSend ->
  (forall c', CreateTransaction order env newkey test_bytes now nKeyPool dk fuel rnd vecSend cc ct ix c = Ok (Some (true, c')) ->
    created env (changes_to dk (c_key c) cc (c_wallet c')) ct ix (c_wallet c) vecSend (c_tx c') (nFeeRet c')) /\
  ((length (fees env) < fuel)%nat -> CreateTransaction order env newkey test_bytes now nKeyPool dk fuel rnd vecSend cc ct ix c <> Ok None).
Proof.
  intros Ho Hr [H1 H2 H3 H4 [H5 H6]]. unfold CreateTransaction. rewrite total_value_ok by (done || lia). rewrite Z.add_0_l.
  destruct (_ || _); [done|]. pose proof (total_nonneg (map snd vecSend)) as Hn. rewrite Forall_map in Hn. specialize (Hn H5).
  set (c1 := Creation _ _ _ _ _). assert (under_way env (c_wallet c) dk (c_key c) ix c1) as Hc1.
  { split; [done|]. split; [destruct (decide (rk_nIndex (c_key c) = -1)); [by left|right; right; by right]|]. cbn [nFeeRet c1]. split; [unfold CENT; destruct ix; lia|]. left. by destruct ix. }
  destruct (create_loop_ok env (c_wallet c) H1 H2 H3 H4 newkey test_bytes now nKeyPool dk (c_key c) order Ho vecSend (total (map snd vecSend)) (conj Hn H6) eq_refl
    rnd cc ct ix fuel c1 Hr Hc1) as [Ha Hb].
  split; [exact Ha|]. intros Hf. apply Hb. unfold fees_left. pose proof (length_filter (fun f => nFeeRet c1 < f) (fees env)). lia.
Qed.
End theorems.

(** C13: whatever the random choices are, a transaction [CreateTransaction]
    returns is complete: its inputs are distinct, unspent, unlocked outputs of
    the wallet; each input's script is accepted for the output it spends, with
    the final transaction; the inputs are worth exactly the outputs and the
    fee.  The last round started with a fee that was asked for, by the wallet or
    for a transaction of standard size; what the inputs are worth beyond
    the payments and that fee is, to the unit, one change output to the destination
    of the coin control, or else to the hash of a valid key that the wallet has
    (or its default key, or one that was reserved before), unless that output would be dust
    or the coins are denominated, when it goes to the fee; the other outputs are
    the payments.  The fee is at least what the wallet's rate and [GetMinFee]
    ask for the final size, and the size is standard. *)
Theorem CreateTransaction_complete {SH : ScriptHashes} {SECP : Secp256k1} (env : WalletEnv) newkey test_bytes now nKeyPool dk order
    (rnd : nat -> round_random) vecSend cc ct useIX c fuel c'
    (Horder : forall s, order s ≡ₚ elements s) (Hrnd : forall n k l, shuffle (rr_select (rnd n) k) l ≡ₚ l)
    (Hc : can_create env (c_wallet c) vecSend)
    (Hret : CreateTransaction order env newkey test_bytes now nKeyPool dk fuel rnd vecSend cc ct useIX c = Ok (Some (true, c'))) :
  created env (changes_to dk (c_key c) cc (c_wallet c')) ct useIX (c_wallet c) vecSend (c_tx c') (nFeeRet c').
Proof. by eapply CreateTransaction_ok. Qed.

(** C16: [CreateTransaction] ends: every round that is not the last raises the
    fee, even when the dust of the change went to it, and all fees tried are
    among the 4004 values that a fee per kilobyte can give for a standard
    size; more rounds than these do not happen. *)
Theorem CreateTransaction_terminates {SH : ScriptHashes} {SECP : Secp256k1} (env : WalletEnv) newkey test_bytes now nKeyPool dk order
    (rnd : nat -> round_random) vecSend cc ct useIX c fuel
    (Horder : forall s, order s ≡ₚ elements s) (Hrnd : forall n k l, shuffle (rr_select (rnd n) k) l ≡ₚ l)
    (Hc : can_create env (c_wallet c) vecSend) (Hfuel : 4004 < Z.of_nat fuel) :
  CreateTransaction order env newkey test_bytes now nKeyPool dk fuel rnd vecSend cc ct useIX c <> Ok None.
Proof. eapply CreateTransaction_ok; [done..|]. assert (length (fees env) = Z.to_nat 4004) as -> by by vm_compute. lia. Qed.

(** ** A payment of the wallet with three coins *)

#[local] Existing Instance toy_secp.
#[local] Existing Instance crypto_hashes.

(** Distinct things are worth no more than all that have a worth. *)
Lemma worth_bound {A} (P : A -> Prop) (val : A -> Z) (k ids : list A) `{!EqDecision A} : (forall x, P x -> x ∉ k -> val x = 0) ->
  Forall (fun x => 0 <= val x) k -> NoDup ids -> Forall P ids -> total (map val ids) <= total (map val k).
Proof.
  revert P k. induction ids as [|x ids IH]; intros P k Hz Hk Hnd HP.
  { apply total_nonneg. by rewrite Forall_map. }
  apply NoDup_cons in Hnd as [Hx Hnd]. apply Forall_cons in HP as [HPx HP]. cbn [map]. change (total (val x :: map val ids)) with (val x + total (map val ids)).
  destruct (decide (x ∈ k)) as [[k1 [k2 ->]]%list_elem_of_split|Hn].
  - rewrite <-Permutation_middle in *. cbn [map]. change (total (val x :: map val (k1 ++ k2))) with (val x + total (map val (k1 ++ k2))).
    apply Forall_cons in Hk as [_ Hk]. apply Zplus_le_compat_l, (IH (fun y => P y /\ y <> x)); [|done|done|].
    + intros y [Hy Hyx] Hn. apply Hz; [done|]. set_solver.
    + rewrite Forall_forall in *. intros y Hy. split; [by apply HP|]. by intros ->.
  - rewrite (Hz x HPx Hn). by apply (IH P).
Qed.

Lemma toy_worth ids : NoDup ids -> Forall (fun c => 0 <= snd c) ids -> total (map (fun c => from_option nValue 0 (coin_out toy_wallet c)) ids) <= 2 ^ 60.
Proof.
  intros Hnd Hpos. set (val := fun c => _). transitivity (total (map val [(toy_hash, 0); (toy_hash, 1); (toy_hash, 2)])); [|by vm_compute].
  apply (worth_bound (fun c : coin_id => 0 <= snd c)); [unfold coin_id; apply _| |apply (bool_decide_unpack _); by vm_compute|done|done].
  intros [h i] Hi Hn. cbn in Hi. unfold val, coin_out. cbn [fst snd]. unfold toy_wallet at 1. cbn [mapWallet].
  destruct (decide (h = toy_hash)) as [->|Hh]; [|by rewrite lookup_singleton_ne].
  rewrite lookup_singleton_eq. cbn [mbind option_bind w_tx toy_wtx toy_coins vout].
  rewrite (lookup_ge_None_2 _ (Z.to_nat i)); [done|]. cbn [length]. destruct (decide (i < 3)); [|lia]. destruct Hn.
  assert (i = 0 \/ i = 1 \/ i = 2) as [->|[-> | ->]] by lia; set_solver.
Qed.

(** The key for the change and the payment of 4 coins to another key. *)
Definition toy_newkey (n : Z) : CKey := {| fValid := true; fCompressed := true; key_vch := replicate 31 0 ++ [n + 6] |}.
Definition toy_round : round_random := {| rr_select _ := toy_random; rr_change _ := 0; rr_free _ := false |}.
Definition toy_payment : list (list Z * Z) := [(GetScriptForDestination (CKeyID (replicate 20 1)), 4 * COIN)].
Definition toy_creation : creation :=
  Creation toy_wallet CReserveKey_new {| nVersion := 1; nTime := 150; vin := []; vout := []; nLockTime := 0 |} 0 ∅.

Definition toy_created (fuel : nat) : outcome unit (option (bool * creation)) :=
  CreateTransaction elements toy_env toy_newkey (fun _ => replicate 8 0) 200 0 [] fuel (fun _ => toy_round) toy_payment None ALL_COINS false toy_creation.

Lemma toy_can_create : can_create toy_env (c_wallet toy_creation) toy_payment.
Proof.
  split.
  - apply (bool_decide_unpack _). by vm_compute.
  - by vm_compute.
  - intros w' [Hw _ _ _]. by apply toy_senders.
  - apply toy_worth.
  - split; [by repeat constructor|by vm_compute].
Qed.

Lemma toy_created_ok : exists c', toy_created 3 = Ok (Some (true, c')).
Proof.
  assert (match toy_created 3 with Ok (Some (true, _)) => True | _ => False end) as H by by vm_compute.
  destruct (toy_created 3) as [[[[] c']|]| | |]; [by exists c'|done..].
Qed.

Lemma CreateTransaction_complete_witness : exists c', toy_created 3 = Ok (Some (true, c')) /\
  created toy_env (changes_to [] CReserveKey_new None (c_wallet c')) ALL_COINS false toy_wallet toy_payment (c_tx c') (nFeeRet c').
Proof.
  destruct toy_created_ok as [c' E]. exists c'. split; [exact E|].
  apply (CreateTransaction_complete toy_env toy_newkey (fun _ => replicate 8 0) 200 0 [] elements (fun _ => toy_round) toy_payment None ALL_COINS false
    toy_creation 3 c'); [done|done|exact toy_can_create|exact E].
Defined.

Lemma CreateTransaction_terminates_witness : toy_created (Z.to_nat 4005) <> Ok None.
Proof.
  unfold toy_created. assert (4004 < Z.of_nat (Z.to_nat 4005)) as Hfuel by lia. revert Hfuel. generalize (Z.to_nat 4005). intros fuel Hfuel.
  exact (CreateTransaction_terminates toy_env toy_newkey (fun _ => replicate 8 0) 200 0 [] elements (fun _ => toy_round) toy_payment None ALL_COINS false
    toy_creation fuel (fun s => Permutation_refl _) (fun n k l => Permutation_refl _) toy_can_create Hfuel).
Defined.

(** * Committing a transaction

    [CommitTransaction] records the transaction and marks the outputs it
    spends, so that no later payment chooses them. *)

Section commit.
Context {SH : ScriptHashes}.

(** ** Spent flags *)

Lemma nth_resize n v i : nth i (resize n v) false = if (i <? n)%nat then nth i v false else false.
Proof.
  unfold resize. rewrite !nth_lookup. destruct (Nat.ltb_spec i n) as [Hi|Hi].
  - destruct (decide (i < length v)%nat) as [Hv|Hv].
    + by rewrite lookup_app_l, lookup_take_lt by (rewrite ?length_take; lia).
    + rewrite lookup_app_r by (rewrite length_take; lia). rewrite (lookup_ge_None_2 v) by lia.
      destruct (replicate _ _ !! _) as [b|] eqn:E; [|done]. by apply lookup_replicate in E as [-> _].
  - rewrite lookup_ge_None_2; [done|]. rewrite length_app, length_take, length_replicate. lia.
Qed.

Lemma length_resize n v : length (resize n v) = n.
Proof. unfold resize. rewrite length_app, length_take, length_replicate. lia. Qed.

(** An output of the wallet, and whether it is spent. *)
Definition has_output (w : CWallet) (p : COutPoint) : Prop :=
  exists wtx, mapWallet w !! prevout_hash p = Some wtx /\ 0 <= prevout_n p < zlen (vout (w_tx wtx)).
Definition spent (w : CWallet) (p : COutPoint) : Prop :=
  exists wtx, mapWallet w !! prevout_hash p = Some wtx /\ wtx_IsSpent (prevout_n p) wtx = Ok true.

Lemma MarkSpent_ok n wtx : 0 <= n < zlen (vout (w_tx wtx)) -> exists wtx', MarkSpent n wtx = Ok wtx' /\ w_tx wtx' = w_tx wtx /\
  forall m, 0 <= m < zlen (vout (w_tx wtx)) -> wtx_IsSpent m wtx' = if m =? n then Ok true else wtx_IsSpent m wtx.
Proof.
  intros Hn. unfold MarkSpent, set_spent_flag. destruct (Z.leb_spec (zlen (vout (w_tx wtx))) n) as [|_]; [lia|].
  cbn [throw_if mbind outcome_bind]. eexists. split; [done|]. split; [done|]. intros m Hm. unfold wtx_IsSpent. cbn [w_tx set_vfSpent vfSpent].
  destruct (Z.leb_spec (zlen (vout (w_tx wtx))) m) as [|_]; [lia|]. cbn [throw_if mbind outcome_bind]. unfold zlen in *.
  rewrite nth_lookup. destruct (Z.eqb_spec m n) as [->|Hne].
  - rewrite list_lookup_insert_eq by (rewrite length_resize; lia). done.
  - rewrite list_lookup_insert_ne by lia. rewrite <-nth_lookup, nth_resize. destruct (Nat.ltb_spec (Z.to_nat m) (length (vout (w_tx wtx)))); [done|lia].
Qed.

(** The loop marks the outputs of its inputs and nothing else. *)
Lemma mark_inputs_ok ins w : Forall (fun txin => has_output w (prevout txin)) ins ->
  exists w', mark_inputs ins w = Ok w' /\ setLockedCoins w' = setLockedCoins w /\ w_pool w' = w_pool w /\ setKeyPool w' = setKeyPool w /\
    (forall h, w_tx <$> mapWallet w' !! h = w_tx <$> mapWallet w !! h) /\
    (forall p, has_output w p -> spent w' p <-> p ∈ map prevout ins \/ spent w p).
Proof.
  revert w. induction ins as [|txin ins IH]; intros w Hins; cbn [mark_inputs].
  { exists w. split_and!; try done. intros p _. cbn. set_solver. }
  apply Forall_cons in Hins as [(wtx & Hw & Hn) Hins]. rewrite Hw.
  destruct (MarkSpent_ok (prevout_n (prevout txin)) wtx Hn) as (wtx' & -> & Htx & Hsp). cbn [mbind outcome_bind].
  set (w1 := set_mapWallet _ w).
  assert (forall h, w_tx <$> mapWallet w1 !! h = w_tx <$> mapWallet w !! h) as Hsame.
  { intros h. cbn [mapWallet w1 set_mapWallet]. destruct (decide (h = prevout_hash (prevout txin))) as [->|Hh].
    - by rewrite lookup_insert_eq, Hw; cbn; rewrite Htx.
    - by rewrite lookup_insert_ne. }
  assert (forall p, has_output w p -> has_output w1 p) as Hhas.
  { intros p (x & Hx & Hp). specialize (Hsame (prevout_hash p)). rewrite Hx in Hsame. apply fmap_Some in Hsame as (y & Hy & E).
    exists y. by rewrite <-E. }
  destruct (IH w1) as (w' & -> & H1 & H2 & H3 & H4 & H5).
  { eapply Forall_impl; [exact Hins|]. intros x. apply Hhas. }
  exists w'. split_and!; try done; [intros h; by rewrite H4|]. intros p Hp. rewrite (H5 p (Hhas p Hp)). cbn [map]. rewrite elem_of_cons.
  assert (spent w1 p <-> p = prevout txin \/ spent w p) as Hstep; [|rewrite Hstep; tauto].
  destruct Hp as (x & Hx & Hpn). unfold spent. cbn [mapWallet w1 set_mapWallet].
  destruct (decide (prevout_hash p = prevout_hash (prevout txin))) as [E|Hh].
  - rewrite E, lookup_insert_eq. rewrite E in Hx. simplify_eq. specialize (Hsp (prevout_n p) Hpn). split.
    + intros (y & [= <-] & Hy). rewrite Hsp in Hy. destruct (Z.eqb_spec (prevout_n p) (prevout_n (prevout txin))) as [En|_]; [left|right; eauto].
      destruct p, (prevout txin). cbn in *. by subst.
    + intros Hor. exists wtx'. split; [done|]. rewrite Hsp. destruct Hor as [->|(y & Hy & Hs)]; [by rewrite Z.eqb_refl|].
      rewrite Hw in Hy. injection Hy as <-. by destruct (_ =? _).
  - rewrite lookup_insert_ne by done. split; [by right|]. intros [->|H]; done.
Qed.

(** ** [CommitTransaction] *)

Lemma available_unspent w o : available w o -> ~ spent w {| prevout_hash := o_tx o; prevout_n := o_i o |}.
Proof. intros (wtx & out & mine & Hw & _ & _ & _ & Hs & _) (wtx' & Hw' & Hs'). cbn in *. congruence. Qed.

Lemma insert_new_ok env hash wtx w : mapWallet w !! hash = None -> exists wtx', insert_new env hash wtx w =
  set_mapWallet (<[hash := wtx']> (mapWallet w)) (set_order_next (insert_ordered (nOrderPosNext w) (OrderedTx hash) (wtxOrdered w)) (nOrderPosNext w + 1) w) /\
  w_tx wtx' = w_tx wtx /\ vfSpent wtx' = vfSpent wtx /\ w_nOrderPos wtx' = nOrderPosNext w.
Proof.
  intros _. unfold insert_new. destruct (w_hashBlock wtx =? 0); [by eexists|]. destruct (mapBlockIndex _ !! _); [|by eexists].
  destruct (smart_time _ _ _ _ _). by eexists.
Qed.

(** C15: a transaction that is new to the wallet and spends outputs of its
    transactions is always committed: the key reserved for the change leaves
    the pool for good, the transaction is in the wallet under its hash, with
    the next order position, and of the outputs the wallet had before exactly
    those it spends have become spent.  None of them is listed by
    [AvailableCoins] any more, whatever the chain, the type of coins and the
    coin control are. *)
Theorem CommitTransaction_spends (env : WalletEnv) (wtxNew : CWalletTx) (r : CReserveKey) (w : CWallet)
    (Hnew : mapWallet w !! tx_GetHash (w_tx wtxNew) = None)
    (Hins : Forall (fun txin => has_output w (prevout txin)) (vin (w_tx wtxNew))) :
  exists w' wtx, CommitTransaction env wtxNew r w = Ok (CReserveKey_new, w') /\
    mapWallet w' !! tx_GetHash (w_tx wtxNew) = Some wtx /\ w_tx wtx = w_tx wtxNew /\
    w_pool w' = (if rk_nIndex r =? -1 then w_pool w else delete (rk_nIndex r) (w_pool w)) /\
    (forall p, has_output w p -> spent w' p <-> p ∈ map prevout (vin (w_tx wtxNew)) \/ spent w p) /\
    (forall env' c cc ct ix l, AvailableCoins env' w' c cc ct ix = Ok l ->
       Forall (fun o => ({| prevout_hash := o_tx o; prevout_n := o_i o |} : COutPoint) ∉ map prevout (vin (w_tx wtxNew))) l).
Proof.
  unfold CommitTransaction, reserve_KeepKey. cbv zeta. set (w0 := if negb (rk_nIndex r =? -1) then KeepKey (rk_nIndex r) w else w).
  assert (mapWallet w0 = mapWallet w /\ w_pool w0 = (if rk_nIndex r =? -1 then w_pool w else delete (rk_nIndex r) (w_pool w))) as [Hm Hp].
  { subst w0. by destruct (rk_nIndex r =? -1). }
  unfold AddToWallet. rewrite Hm, Hnew. cbn [mbind outcome_bind mret outcome_ret]. set (hash := tx_GetHash (w_tx wtxNew)) in *.
  destruct (insert_new_ok env hash wtxNew w0) as (wtx1 & -> & Htx & _); [by rewrite Hm|]. set (w1 := set_mapWallet _ _).
  assert (forall p, has_output w p -> mapWallet w1 !! prevout_hash p = mapWallet w !! prevout_hash p) as Hkeep.
  { intros p (x & Hx & _). cbn [mapWallet w1 set_mapWallet set_order_next]. rewrite Hm. rewrite lookup_insert_ne; [done|]. intros E. by rewrite E, Hx in Hnew. }
  assert (forall p, has_output w p -> has_output w1 p) as Hhas by (intros p Hh; destruct Hh as (x & Hx & Hb); exists x; rewrite Hkeep; [done|by exists x]).
  destruct (mark_inputs_ok (vin (w_tx wtxNew)) w1) as (w' & -> & _ & H2 & _ & H4 & H5).
  { eapply Forall_impl; [exact Hins|]. intros x. apply Hhas. }
  cbn [mbind outcome_bind mret outcome_ret].
  assert (exists wtx, mapWallet w' !! hash = Some wtx /\ w_tx wtx = w_tx wtxNew) as (wtx & Hwtx & Htx').
  { specialize (H4 hash). assert (mapWallet w1 !! hash = Some wtx1) as E by (cbn; apply lookup_insert_eq).
    rewrite E in H4. apply fmap_Some in H4 as (x & Hx & Ex). exists x. split; [done|congruence]. }
  assert (forall p, has_output w p -> spent w' p <-> p ∈ map prevout (vin (w_tx wtxNew)) \/ spent w p) as Hsp.
  { intros p Hh. rewrite (H5 p (Hhas p Hh)). unfold spent. by rewrite (Hkeep p Hh). }
  exists w', wtx. split_and!; try done; [by rewrite H2; cbn|].
  intros env' c cc ct ix l Hl. apply AvailableCoins_ok in Hl as [Hav _]. eapply Forall_impl; [exact Hav|]. intros o Ho Hin.
  apply (available_unspent w' o Ho), Hsp; [|by left]. apply list_elem_of_fmap in Hin as (txin & E & Hin). rewrite E.
  rewrite Forall_forall in Hins. by apply Hins.
Qed.
End commit.

(** A payment of the wallet with three coins: the first is spent after it. *)
#[local] Existing Instance crypto_hashes.

Definition toy_pay : CTransaction := {| nVersion := 1; nTime := 150;
  vin := [{| prevout := {| prevout_hash := toy_hash; prevout_n := 0 |}; scriptSig := []; nSequence := UINT_MAX |}];
  vout := [{| nValue := COIN; scriptPubKey := toy_script |}]; nLockTime := 0 |}.

Lemma CommitTransaction_spends_witness : exists w', CommitTransaction toy_env (CWalletTx_new toy_pay) CReserveKey_new toy_wallet = Ok (CReserveKey_new, w') /\
  spent w' {| prevout_hash := toy_hash; prevout_n := 0 |} /\ ~ spent w' {| prevout_hash := toy_hash; prevout_n := 1 |}.
Proof.
  assert (forall n, 0 <= n < 3 -> has_output toy_wallet {| prevout_hash := toy_hash; prevout_n := n |}) as Hout.
  { intros n Hn. exists toy_wtx. split; [exact (lookup_singleton_eq (M := gmap Z) toy_hash toy_wtx)|exact Hn]. }
  destruct (CommitTransaction_spends toy_env (CWalletTx_new toy_pay) CReserveKey_new toy_wallet) as (w' & wtx & H1 & _ & _ & _ & H2 & _).
  - by vm_compute.
  - cbn. constructor; [by apply Hout|constructor].
  - clear wtx. exists w'. split; [exact H1|clear H1]. pose proof (Hout 0 ltac:(lia)) as H0. pose proof (Hout 1 ltac:(lia)) as H3. split.
    + apply (H2 _ H0). left. left.
    + rewrite (H2 _ H3). intros [Hin|(x & Hx & Hs)]; [by apply list_elem_of_singleton in Hin as [=]|]. change (({[toy_hash := toy_wtx]} : gmap Z CWalletTx) !! toy_hash = Some x) in Hx. apply lookup_singleton_Some in Hx as [_ <-]. discriminate Hs.
Defined.
