(* ===== verification/Coins.v ===== *)
(** * Views of the unspent outputs

    [coins.h] and [coins.cpp]: the coin, the interface [CCoinsView] as a class
    of operations, and [CCoinsViewCache], a cache over another view that
    collects changes and writes them to it in a batch.  A reading operation
    returns the view too, since it may fill a cache.  The memory a script
    takes is the allocator's: a function of the script.  The field [nRounds] of
    an output is left out, as everywhere. *)

From S2P Require Import Prelude Opcode Script Interp Serialize Transaction.

Local Open Scope Z_scope.

(** ** Coins *)

(** [Coin]: the output, [fCoinBase], and [nHeight], a field of 31 bits. *)
Record Coin : Type := mkCoin { out : CTxOut; fCoinBase : bool; nHeight : Z }.

#[export] Instance Coin_eq_dec : EqDecision Coin.
Proof. solve_decision. Defined.

Definition Coin_new (outIn : CTxOut) (nHeightIn : Z) (fCoinBaseIn : bool) : Coin := mkCoin outIn fCoinBaseIn (nHeightIn mod 2 ^ 31).
(** [Coin()], and [Clear] *)
Definition coinEmpty : Coin := mkCoin null_txout false 0.
Definition Coin_IsSpent (c : Coin) : bool := txout_IsNull (out c).

(** [CCoinsCacheEntry], with its two flags. *)
Record CCoinsCacheEntry : Type := CacheEntry { coin : Coin; DIRTY : bool; FRESH : bool }.
Definition CCoinsCacheEntry_new : CCoinsCacheEntry := CacheEntry coinEmpty false false.

(** ** The interface *)

(** The entries handed over by [BatchWrite], in the order of the iterator. *)
Abbreviation coins_list := (list (COutPoint * CCoinsCacheEntry)).

Class CCoinsView (V : Type) := {
  view_GetCoin : COutPoint -> V -> option Coin * V;
  view_HaveCoin : COutPoint -> V -> bool * V;
  view_GetBestBlock : V -> Z * V;
  view_BatchWrite : coins_list -> Z -> V -> outcome unit (bool * V)
}.

(** The class [CCoinsView] itself: no coins. *)
#[export] Instance no_coins : CCoinsView unit := {
  view_GetCoin _ v := (None, v);
  view_HaveCoin _ v := (false, v);
  view_GetBestBlock v := (0, v);
  view_BatchWrite _ _ v := Ok (false, v)
}.

(** ** The cache *)

Section cache.
Context {V : Type} {CV : CCoinsView V}.

(** The memory a coin takes. *)
Variable usage : list Z -> Z.
Definition DynamicMemoryUsage (c : Coin) : Z := usage (scriptPubKey (out c)).

(** The map of the cache is not ordered. *)
Variable order : gmap COutPoint CCoinsCacheEntry -> coins_list.

(** The members of [CCoinsViewCache]. *)
Record CCoinsViewCache : Type := ViewCache {
  base : V; hashBlock : Z; cacheCoins : gmap COutPoint CCoinsCacheEntry; cachedCoinsUsage : Z
}.

Definition CCoinsViewCache_new (baseIn : V) : CCoinsViewCache := ViewCache baseIn 0 ∅ 0.

Definition set_base (b : V) (c : CCoinsViewCache) : CCoinsViewCache := ViewCache b (hashBlock c) (cacheCoins c) (cachedCoinsUsage c).
Definition SetBestBlock (h : Z) (c : CCoinsViewCache) : CCoinsViewCache := ViewCache (base c) h (cacheCoins c) (cachedCoinsUsage c).
Definition set_cache (m : gmap COutPoint CCoinsCacheEntry) (used : Z) (c : CCoinsViewCache) : CCoinsViewCache :=
  ViewCache (base c) (hashBlock c) m (to_u64 used).

(** An entry is put in place of what there was, or taken out, with the memory
    counted. *)
Definition old_usage (o : COutPoint) (c : CCoinsViewCache) : Z :=
  match cacheCoins c !! o with Some e => DynamicMemoryUsage (coin e) | None => 0 end.
Definition put (o : COutPoint) (e : CCoinsCacheEntry) (c : CCoinsViewCache) : CCoinsViewCache :=
  set_cache (<[o := e]> (cacheCoins c)) (cachedCoinsUsage c - old_usage o c + DynamicMemoryUsage (coin e)) c.
Definition take_out (o : COutPoint) (c : CCoinsViewCache) : CCoinsViewCache :=
  set_cache (delete o (cacheCoins c)) (cachedCoinsUsage c - old_usage o c) c.

(** [FetchCoin]: the entry the iterator refers to. *)
Definition FetchCoin (o : COutPoint) (c : CCoinsViewCache) : option CCoinsCacheEntry * CCoinsViewCache :=
  match cacheCoins c !! o with
  | Some e => (Some e, c)
  | None =>
    let '(tmp, b) := view_GetCoin o (base c) in
    let c := set_base b c in
    match tmp with
    | None => (None, c)
    | Some tmp => let e := CacheEntry tmp false (Coin_IsSpent tmp) in (Some e, put o e c)
    end
  end.

Definition GetCoin (o : COutPoint) (c : CCoinsViewCache) : option Coin * CCoinsViewCache :=
  let '(it, c) := FetchCoin o c in
  (match it with Some e => if Coin_IsSpent (coin e) then None else Some (coin e) | None => None end, c).

Definition HaveCoin (o : COutPoint) (c : CCoinsViewCache) : bool * CCoinsViewCache :=
  let '(it, c) := FetchCoin o c in
  (match it with Some e => negb (Coin_IsSpent (coin e)) | None => false end, c).

Definition HaveCoinInCache (o : COutPoint) (c : CCoinsViewCache) : bool :=
  match cacheCoins c !! o with Some e => negb (Coin_IsSpent (coin e)) | None => false end.

Definition AccessCoin (o : COutPoint) (c : CCoinsViewCache) : Coin * CCoinsViewCache :=
  let '(it, c) := FetchCoin o c in
  (match it with Some e => coin e | None => coinEmpty end, c).

Definition AddCoin (o : COutPoint) (newcoin : Coin) (possible_overwrite : bool) (c : CCoinsViewCache) : outcome unit CCoinsViewCache :=
  _ ← assert_that (negb (Coin_IsSpent newcoin));
  if IsUnspendable (scriptPubKey (out newcoin)) then mret c
  else
    let it := default CCoinsCacheEntry_new (cacheCoins c !! o) in
    _ ← throw_if (negb possible_overwrite && negb (Coin_IsSpent (coin it)));
    let fresh := negb possible_overwrite && negb (DIRTY it) in
    mret (put o (CacheEntry newcoin true (FRESH it || fresh)) c).

(** [AddCoins] from output [i] on. *)
Fixpoint add_outputs (txid : Z) (nHeight : Z) (fCoinbase check : bool) (i : Z) (outs : list CTxOut) (c : CCoinsViewCache)
    : outcome unit CCoinsViewCache :=
  match outs with
  | [] => mret c
  | o :: outs =>
    let p := {| prevout_hash := txid; prevout_n := i |} in
    let '(overwrite, c) := if check then HaveCoin p c else (fCoinbase, c) in
    c ← AddCoin p (Coin_new o nHeight fCoinbase) overwrite c;
    add_outputs txid nHeight fCoinbase check (i + 1) outs c
  end.

(** [SpendCoin]: the flag, and the coin that [moveout] receives. *)
Definition SpendCoin (o : COutPoint) (c : CCoinsViewCache) : option Coin * CCoinsViewCache :=
  let '(it, c) := FetchCoin o c in
  match it with
  | None => (None, c)
  | Some e =>
    (Some (coin e),
     if FRESH e then take_out o c
     else set_cache (<[o := CacheEntry coinEmpty true false]> (cacheCoins c)) (cachedCoinsUsage c - old_usage o c) c)
  end.

Definition GetBestBlock (c : CCoinsViewCache) : Z * CCoinsViewCache :=
  if hashBlock c =? 0 then let '(h, b) := view_GetBestBlock (base c) in (h, SetBestBlock h (set_base b c))
  else (hashBlock c, c).

(** [BatchWrite]: one entry of the child, and all of them. *)
Definition batch_entry (o : COutPoint) (e : CCoinsCacheEntry) (c : CCoinsViewCache) : outcome unit CCoinsViewCache :=
  if negb (DIRTY e) then mret c
  else
    match cacheCoins c !! o with
    | None =>
      if FRESH e && Coin_IsSpent (coin e) then mret c
      else mret (put o (CacheEntry (coin e) true (FRESH e)) c)
    | Some us =>
      _ ← throw_if (FRESH e && negb (Coin_IsSpent (coin us)));
      if FRESH us && Coin_IsSpent (coin e) then mret (take_out o c)
      else mret (put o (CacheEntry (coin e) true (FRESH us)) c)
    end.

Fixpoint batch_entries (l : coins_list) (c : CCoinsViewCache) : outcome unit CCoinsViewCache :=
  match l with
  | [] => mret c
  | (o, e) :: l => c ← batch_entry o e c; batch_entries l c
  end.

Definition BatchWrite (mapCoins : coins_list) (hashBlockIn : Z) (c : CCoinsViewCache) : outcome unit (bool * CCoinsViewCache) :=
  c ← batch_entries mapCoins c;
  mret (true, SetBestBlock hashBlockIn c).

Definition Flush (c : CCoinsViewCache) : outcome unit (bool * CCoinsViewCache) :=
  '(fOk, b) ← view_BatchWrite (order (cacheCoins c)) (hashBlock c) (base c);
  mret (fOk, set_cache ∅ 0 (set_base b c)).

Definition Uncache (o : COutPoint) (c : CCoinsViewCache) : CCoinsViewCache :=
  match cacheCoins c !! o with
  | Some e => if negb (DIRTY e) && negb (FRESH e) then take_out o c else c
  | None => c
  end.

Definition GetCacheSize (c : CCoinsViewCache) : Z := to_u32 (Z.of_nat (size (cacheCoins c))).

(** The loops of [GetValueIn] and [HaveInputs]. *)
Fixpoint value_in (ins : list CTxIn) (nResult : Z) (c : CCoinsViewCache) : Z * CCoinsViewCache :=
  match ins with
  | [] => (nResult, c)
  | txin :: ins => let '(a, c) := AccessCoin (prevout txin) c in value_in ins (to_i64 (nResult + nValue (out a))) c
  end.
Definition GetValueIn (tx : CTransaction) (c : CCoinsViewCache) : Z * CCoinsViewCache :=
  if IsCoinBase tx then (0, c) else value_in (vin tx) 0 c.

Fixpoint have_inputs (ins : list CTxIn) (c : CCoinsViewCache) : bool * CCoinsViewCache :=
  match ins with
  | [] => (true, c)
  | txin :: ins => let '(b, c) := HaveCoin (prevout txin) c in if b then have_inputs ins c else (false, c)
  end.
Definition HaveInputs (tx : CTransaction) (c : CCoinsViewCache) : bool * CCoinsViewCache :=
  if IsCoinBase tx then (true, c) else have_inputs (vin tx) c.
End cache.

Arguments CCoinsViewCache V : clear implicits.
Arguments ViewCache {V}.

(** A cache is a view. *)
Definition cache_view {V} {CV : CCoinsView V} (usage : list Z -> Z) : CCoinsView (CCoinsViewCache V) := {|
  view_GetCoin := GetCoin usage;
  view_HaveCoin := HaveCoin usage;
  view_GetBestBlock := GetBestBlock;
  view_BatchWrite := BatchWrite usage
|}.

(** [AddCoins] *)
Definition AddCoins {SH : ScriptHashes} {V} {CV : CCoinsView V} (usage : list Z -> Z) (tx : CTransaction) (nHeight : Z) (check : bool)
    (c : CCoinsViewCache V) : outcome unit (CCoinsViewCache V) :=
  add_outputs usage (tx_GetHash tx) nHeight (IsCoinBase tx) check 0 (vout tx) c.

(** ** What a view promises *)

(** The unspent coins a view stands for, and the block they are at; reading
    changes neither, a batch of entries that keeps the discipline of the flag
    [FRESH] replaces what it marks as changed. *)
Definition unspent (e : CCoinsCacheEntry) : option Coin := if Coin_IsSpent (coin e) then None else Some (coin e).

(** A coin by its outpoint, changed by an entry. *)
Definition entries (l : coins_list) : gmap COutPoint CCoinsCacheEntry := list_to_map l.
Definition changed (l : coins_list) (coins : COutPoint -> option Coin) (o : COutPoint) : option Coin :=
  match entries l !! o with
  | Some e => if DIRTY e then unspent e else coins o
  | None => coins o
  end.

(** The entries of a child fit a view: what is fresh has no coin there, what
    is not changed is as it is there. *)
Definition entry_fits (coins : COutPoint -> option Coin) (o : COutPoint) (e : CCoinsCacheEntry) : Prop :=
  (FRESH e = true -> coins o = None) /\ (DIRTY e = false -> unspent e = coins o).

Class CoinsViewLaws (V : Type) {CV : CCoinsView V} := {
  view_ok : V -> Prop;
  coins_of : V -> COutPoint -> option Coin;
  best_of : V -> Z;
  same_view v v' := view_ok v' /\ (forall o, coins_of v' o = coins_of v o) /\ best_of v' = best_of v;
  coins_unspent v o c : view_ok v -> coins_of v o = Some c -> Coin_IsSpent c = false;
  GetCoin_law v o : view_ok v -> fst (view_GetCoin o v) = coins_of v o /\ same_view v (snd (view_GetCoin o v));
  HaveCoin_law v o : view_ok v -> fst (view_HaveCoin o v) = bool_decide (is_Some (coins_of v o)) /\ same_view v (snd (view_HaveCoin o v));
  GetBestBlock_law v : view_ok v -> fst (view_GetBestBlock v) = best_of v /\ same_view v (snd (view_GetBestBlock v));
  BatchWrite_law v l h : view_ok v -> NoDup l.*1 -> Forall (fun p => entry_fits (coins_of v) (fst p) (snd p)) l ->
    exists ok v', view_BatchWrite l h v = Ok (ok, v') /\
      (ok = true -> view_ok v' /\ (forall o, coins_of v' o = changed l (coins_of v) o) /\ (h <> 0 -> best_of v' = h))
}.
