(* ===== verification/CoinsProps.v ===== *)
(** * What the cache of coins promises

    A cache over a view that keeps its promise keeps it too ([cache_laws]), so
    that caches stack; histories of operations refine a store of slots, in
    which a coin is absent, gone but remembered, or present. *)

From S2P Require Import Prelude Opcode Script Interp Serialize Transaction Coins.

Local Open Scope Z_scope.

(** A database in memory is one. *)
Record mem_view : Type := MemView { mem_coins : gmap COutPoint Coin; mem_best : Z }.

Definition mem_entry (m : gmap COutPoint Coin) (p : COutPoint * CCoinsCacheEntry) : gmap COutPoint Coin :=
  if DIRTY (snd p) then match unspent (snd p) with Some c => <[fst p := c]> m | None => delete (fst p) m end else m.

#[export] Instance mem_view_view : CCoinsView mem_view := {
  view_GetCoin o v := (mem_coins v !! o, v);
  view_HaveCoin o v := (bool_decide (is_Some (mem_coins v !! o)), v);
  view_GetBestBlock v := (mem_best v, v);
  view_BatchWrite l h v := Ok (true, MemView (foldl mem_entry (mem_coins v) l) h)
}.

Lemma unspent_unspent e c : unspent e = Some c -> Coin_IsSpent c = false.
Proof. unfold unspent. destruct (Coin_IsSpent (coin e)) eqn:E; [done|]. by intros [= <-]. Qed.

Lemma mem_entries_ok l m : NoDup l.*1 -> forall o, foldl mem_entry m l !! o = changed l (fun o => m !! o) o.
Proof.
  revert m. induction l as [|[p e] l IH]; intros m Hnd o; [done|]. cbn [foldl]. apply NoDup_cons in Hnd as [Hp Hnd]. rewrite (IH _ Hnd).
  unfold changed, entries. rewrite list_to_map_cons. fold (entries l).
  assert (entries l !! p = None) as Hl by by apply not_elem_of_list_to_map.
  destruct (decide (o = p)) as [->|Ho].
  - rewrite Hl, lookup_insert_eq. unfold mem_entry. cbn. destruct (DIRTY e); [|done].
    destruct (unspent e); [apply lookup_insert_eq|apply lookup_delete_eq].
  - rewrite lookup_insert_ne by done.
    assert (mem_entry m (p, e) !! o = m !! o) as ->; [|done].
    unfold mem_entry. cbn. destruct (DIRTY e); [|done]. destruct (unspent e); [by rewrite lookup_insert_ne|by rewrite lookup_delete_ne].
Qed.

#[export] Instance mem_view_laws : CoinsViewLaws mem_view.
Proof.
  refine {| view_ok v := forall o c, mem_coins v !! o = Some c -> Coin_IsSpent c = false; coins_of v o := mem_coins v !! o; best_of := mem_best |}; cbn.
  - eauto.
  - done.
  - done.
  - done.
  - intros v l h Hv Hnd _. eexists true, _. split; [done|]. intros _. cbn. split_and!; [|by apply mem_entries_ok|done].
    intros o c. rewrite (mem_entries_ok l (mem_coins v) Hnd). unfold changed. destruct (entries l !! o) as [e|]; [|apply Hv].
    destruct (DIRTY e); [apply unspent_unspent|apply Hv].
Defined.

(** ** The cache keeps the promise *)

Section laws.
Context {V : Type} {CV : CCoinsView V} {LV : CoinsViewLaws V}.
Variable usage : list Z -> Z.
Variable order : gmap COutPoint CCoinsCacheEntry -> coins_list.

Abbreviation cache := (CCoinsViewCache V).

(** The coins a cache stands for. *)
Definition cache_coins (c : cache) (o : COutPoint) : option Coin :=
  match cacheCoins c !! o with Some e => unspent e | None => coins_of (base c) o end.
Definition cache_best (c : cache) : Z := if hashBlock c =? 0 then best_of (base c) else hashBlock c.

Definition total_usage (m : gmap COutPoint CCoinsCacheEntry) : Z :=
  foldr Z.add 0 (map (fun p => DynamicMemoryUsage usage (coin (snd p))) (map_to_list m)).

Record cache_ok (c : cache) : Prop := {
  co_base : view_ok (base c);
  co_fits : forall o e, cacheCoins c !! o = Some e -> entry_fits (coins_of (base c)) o e;
  co_usage : cachedCoinsUsage c = to_u64 (total_usage (cacheCoins c))
}.

#[local] Instance sum_perm : Proper (Permutation ==> eq) (foldr Z.add 0).
Proof. induction 1; cbn; lia. Qed.

Lemma total_usage_insert o e m : m !! o = None -> total_usage (<[o := e]> m) = DynamicMemoryUsage usage (coin e) + total_usage m.
Proof. intros Ho. unfold total_usage. by rewrite (map_to_list_insert m o e Ho). Qed.

Lemma total_usage_delete o m : total_usage m =
  match m !! o with Some e => DynamicMemoryUsage usage (coin e) | None => 0 end + total_usage (delete o m).
Proof.
  destruct (m !! o) as [e|] eqn:E; [|by rewrite delete_id].
  rewrite <-(total_usage_insert o) by apply lookup_delete_eq. by rewrite insert_delete_id.
Qed.

Lemma to_u64_sub a b : to_u64 (to_u64 a - b) = to_u64 (a - b).
Proof. unfold to_u64. apply Zminus_mod_idemp_l. Qed.

Lemma to_u64_sub_add a b d : to_u64 (to_u64 a - b + d) = to_u64 (a - b + d).
Proof. unfold to_u64. rewrite <-(Zplus_mod_idemp_l (a mod 2 ^ 64 - b)), Zminus_mod_idemp_l. apply Zplus_mod_idemp_l. Qed.

(** Putting an entry that fits, taking out one that stands for what the base
    has. *)
Lemma put_entry_ok o e c : cache_ok c -> entry_fits (coins_of (base c)) o e ->
  cache_ok (put usage o e c) /\ forall p, cache_coins (put usage o e c) p = if decide (p = o) then unspent e else cache_coins c p.
Proof.
  intros [H1 H2 H3] He. split.
  - split; [done| |].
    + intros p e'. cbn. destruct (decide (p = o)) as [->|Hp]; [rewrite lookup_insert_eq|rewrite lookup_insert_ne by done]; [by intros [= <-]|apply H2].
    + cbn. rewrite H3, to_u64_sub_add. f_equal. unfold old_usage.
      rewrite (total_usage_delete o (cacheCoins c)), <-(insert_delete_eq (cacheCoins c) o e).
      rewrite total_usage_insert by apply lookup_delete_eq. lia.
  - intros p. unfold cache_coins at 1. cbn. destruct (decide (p = o)) as [->|Hp]; [by rewrite lookup_insert_eq|]. by rewrite lookup_insert_ne.
Qed.

Lemma take_out_ok o c : cache_ok c ->
  cache_ok (take_out usage o c) /\ forall p, cache_coins (take_out usage o c) p = if decide (p = o) then coins_of (base c) o else cache_coins c p.
Proof.
  intros [H1 H2 H3]. split.
  - split; [done| |].
    + intros p e'. cbn. intros [_ Hp]%lookup_delete_Some. by apply H2.
    + cbn. rewrite H3, to_u64_sub. f_equal. unfold old_usage. rewrite (total_usage_delete o (cacheCoins c)). lia.
  - intros p. unfold cache_coins at 1. cbn. destruct (decide (p = o)) as [->|Hp]; [by rewrite lookup_delete_eq|]. by rewrite lookup_delete_ne.
Qed.

(** The base is read: it stays the same view. *)
Lemma set_base_ok b c : cache_ok c -> same_view (base c) b -> cache_ok (set_base b c) /\ forall p, cache_coins (set_base b c) p = cache_coins c p.
Proof.
  intros [H1 H2 H3] (Hb & Hc & _). split.
  - split; [done| |done]. intros o e He. destruct (H2 o e He) as [Hf Hd]. split; cbn; [rewrite Hc; exact Hf|rewrite Hc; exact Hd].
  - intros p. unfold cache_coins. cbn. by rewrite Hc.
Qed.

(** [FetchCoin] finds what the cache stands for and changes nothing of it. *)
Lemma FetchCoin_ok o c : cache_ok c ->
  let '(it, c') := FetchCoin usage o c in
  cache_ok c' /\ (forall p, cache_coins c' p = cache_coins c p) /\ cache_best c' = cache_best c /\ cacheCoins c' !! o = it /\
  cache_coins c o = match it with Some e => unspent e | None => None end.
Proof.
  intros Hc. unfold FetchCoin. destruct (cacheCoins c !! o) as [e|] eqn:E.
  { split_and!; try done. unfold cache_coins. by rewrite E. }
  pose proof (GetCoin_law (base c) o (co_base c Hc)) as [Hget Hsame]. destruct (view_GetCoin o (base c)) as [tmp b]. cbn [fst snd] in *.
  destruct (set_base_ok b c Hc Hsame) as [Hc1 Heq]. pose proof Hsame as (_ & Hcoins & Hbest).
  assert (cache_coins c o = tmp) as Ht by (unfold cache_coins; by rewrite E, Hget).
  destruct tmp as [tmp|].
  - assert (Coin_IsSpent tmp = false) as Hs by (eapply coins_unspent; [exact (co_base c Hc)|by rewrite <-Hget]).
    rewrite Hs. set (e := CacheEntry tmp false false). assert (unspent e = Some tmp) as Hu by (unfold unspent; cbn; by rewrite Hs).
    destruct (put_entry_ok o e (set_base b c) Hc1) as [Hc2 Hp].
    { split; [done|]. intros _. rewrite Hu. cbn. by rewrite Hcoins, <-Hget. }
    split_and!; [done| | | |by rewrite Ht, Hu].
    + intros p. rewrite Hp. destruct (decide (p = o)) as [->|]; [by rewrite Hu|apply Heq].
    + unfold cache_best. cbn. by rewrite Hbest.
    + cbn. apply lookup_insert_eq.
  - split_and!; [done|exact Heq| |done|done]. unfold cache_best. cbn. by rewrite Hbest.
Qed.

Lemma unspent_is_Some e : bool_decide (is_Some (unspent e)) = negb (Coin_IsSpent (coin e)).
Proof. unfold unspent. destruct (Coin_IsSpent (coin e)); [by apply bool_decide_eq_false; intros []|by apply bool_decide_eq_true]. Qed.

Lemma cache_coins_unspent c o x : cache_ok c -> cache_coins c o = Some x -> Coin_IsSpent x = false.
Proof.
  intros Hc. unfold cache_coins. destruct (cacheCoins c !! o) as [e|]; [apply unspent_unspent|]. apply coins_unspent, Hc.
Qed.

(** What reading keeps. *)
Definition same_cache (c c' : cache) : Prop := cache_ok c' /\ (forall p, cache_coins c' p = cache_coins c p) /\ cache_best c' = cache_best c.

Lemma GetCoin_ok o c : cache_ok c -> fst (GetCoin usage o c) = cache_coins c o /\ same_cache c (snd (GetCoin usage o c)).
Proof.
  intros Hc. unfold GetCoin. pose proof (FetchCoin_ok o c Hc) as H. destruct (FetchCoin usage o c) as [it c']. destruct H as (H1 & H2 & H3 & _ & H4).
  cbn. split; [|done]. rewrite H4. by destruct it.
Qed.

Lemma HaveCoin_ok o c : cache_ok c -> fst (HaveCoin usage o c) = bool_decide (is_Some (cache_coins c o)) /\ same_cache c (snd (HaveCoin usage o c)).
Proof.
  intros Hc. unfold HaveCoin. pose proof (FetchCoin_ok o c Hc) as H. destruct (FetchCoin usage o c) as [it c']. destruct H as (H1 & H2 & H3 & _ & H4).
  cbn. split; [|done]. rewrite H4. destruct it as [e|]; [by rewrite unspent_is_Some|done].
Qed.

Lemma GetBestBlock_ok c : cache_ok c -> fst (GetBestBlock c) = cache_best c /\ same_cache c (snd (GetBestBlock c)).
Proof.
  intros Hc. unfold GetBestBlock, cache_best. destruct (Z.eqb_spec (hashBlock c) 0) as [E|E].
  - pose proof (GetBestBlock_law (base c) (co_base c Hc)) as [H1 H2]. destruct (view_GetBestBlock (base c)) as [h b]. cbn [fst snd] in *.
    split; [done|]. destruct (set_base_ok b c Hc H2) as [Hc' Heq]. destruct H2 as (_ & _ & Hb).
    split_and!; [by destruct Hc'|exact Heq|]. unfold cache_best. cbn. rewrite E. cbn. rewrite Hb, H1. by destruct (Z.eqb_spec (best_of (base c)) 0).
  - split; [done|]. by split_and!.
Qed.


(** One entry of a child. *)
Lemma batch_entry_ok o e c : cache_ok c -> entry_fits (cache_coins c) o e ->
  exists c', batch_entry usage o e c = Ok c' /\ cache_ok c' /\
    forall p, cache_coins c' p = if decide (p = o) then (if DIRTY e then unspent e else cache_coins c o) else cache_coins c p.
Proof.
  intros Hc [Hf Hd]. unfold batch_entry. destruct (DIRTY e) eqn:Ed; cbn [negb].
  2: { exists c. split_and!; try done. intros p. by destruct (decide (p = o)) as [->|]. }
  assert (Coin_IsSpent (coin e) = true -> unspent e = None) as Hn by (intros E; unfold unspent; by rewrite E).
  destruct (cacheCoins c !! o) as [us|] eqn:E.
  - assert (cache_coins c o = unspent us) as Hus by (unfold cache_coins; by rewrite E).
    assert (FRESH e && negb (Coin_IsSpent (coin us)) = false) as ->.
    { destruct (FRESH e); [|done]. rewrite Hus in Hf. specialize (Hf eq_refl). unfold unspent in Hf. by destruct (Coin_IsSpent (coin us)). }
    cbn [throw_if mbind outcome_bind]. destruct (co_fits c Hc o us E) as [Huf Hud].
    destruct (FRESH us) eqn:Eu; [destruct (Coin_IsSpent (coin e)) eqn:Es|]; cbn [andb].
    + destruct (take_out_ok o c Hc) as [Ht Hp]. eexists. split_and!; [done|done|]. intros p. rewrite Hp, Hn by done. by rewrite Huf.
    + destruct (put_entry_ok o (CacheEntry (coin e) true true) c Hc) as [Ht Hp]; [split; [auto|done]|]. by eexists.
    + destruct (put_entry_ok o (CacheEntry (coin e) true false) c Hc) as [Ht Hp]; [by split|]. by eexists.
  - assert (cache_coins c o = coins_of (base c) o) as Hco by (unfold cache_coins; by rewrite E).
    destruct (FRESH e) eqn:Ef; [destruct (Coin_IsSpent (coin e)) eqn:Es|]; cbn [andb].
    + exists c. split_and!; try done. intros p. destruct (decide (p = o)) as [->|]; [|done]. by rewrite Hn, Hf.
    + destruct (put_entry_ok o (CacheEntry (coin e) true true) c Hc) as [Ht Hp]; [split; [|done]; intros _; rewrite <-Hco; auto|]. by eexists.
    + destruct (put_entry_ok o (CacheEntry (coin e) true false) c Hc) as [Ht Hp]; [by split|]. by eexists.
Qed.

Lemma batch_entries_ok l c : cache_ok c -> NoDup l.*1 -> Forall (fun p => entry_fits (cache_coins c) (fst p) (snd p)) l ->
  exists c', batch_entries usage l c = Ok c' /\ cache_ok c' /\ forall p, cache_coins c' p = changed l (cache_coins c) p.
Proof.
  revert c. induction l as [|[o e] l IH]; intros c Hc Hnd Hl; [by exists c|]. cbn [batch_entries].
  apply NoDup_cons in Hnd as [Ho Hnd]. apply Forall_cons in Hl as [He Hl]. cbn in He.
  destruct (batch_entry_ok o e c Hc He) as (c1 & -> & Hc1 & Hp). cbn [mbind outcome_bind].
  assert (entries l !! o = None) as Hlo by by apply not_elem_of_list_to_map.
  destruct (IH c1 Hc1 Hnd) as (c' & -> & Hc' & Hp').
  { rewrite Forall_forall in *. intros [p x] Hpx. specialize (Hl _ Hpx). cbn in *. unfold entry_fits. rewrite Hp, decide_False; [done|].
    intros ->. apply Ho. apply list_elem_of_fmap. by exists (o, x). }
  exists c'. split_and!; [done|done|]. intros p. rewrite Hp'. unfold changed. unfold entries at 2. rewrite list_to_map_cons. fold (entries l).
  destruct (decide (p = o)) as [->|Hpo].
  - rewrite Hlo, lookup_insert_eq, Hp. by rewrite decide_True.
  - rewrite lookup_insert_ne by done. rewrite Hp. by rewrite decide_False.
Qed.

(** A cache over a lawful view is a lawful view. *)
Definition cache_laws : @CoinsViewLaws cache (cache_view usage).
Proof.
  refine {| view_ok := cache_ok : cache -> Prop; coins_of := cache_coins; best_of := cache_best |}; cbn.
  - intros v o c. apply cache_coins_unspent.
  - intros v o. apply GetCoin_ok.
  - intros v o. apply HaveCoin_ok.
  - intros v. apply GetBestBlock_ok.
  - intros c l h Hc Hnd Hl. unfold BatchWrite. destruct (batch_entries_ok l c Hc Hnd Hl) as (c' & -> & [H1 H2 H3] & Hp).
    cbn [mbind outcome_bind]. eexists true, _. split; [done|]. intros _. split_and!; [by split|exact Hp|].
    intros Hh. unfold cache_best. cbn. by destruct (Z.eqb_spec h 0).
Defined.

Hypothesis order_ok : forall m, order m ≡ₚ map_to_list m.

(** Flushing gives the base what the cache stands for. *)
Lemma Flush_ok c : cache_ok c -> exists ok c', Flush order c = Ok (ok, c') /\
  (ok = true -> cache_ok c' /\ (forall o, coins_of (base c') o = cache_coins c o) /\ (hashBlock c <> 0 -> best_of (base c') = hashBlock c) /\
     cacheCoins c' = ∅).
Proof.
  intros [H1 H2 H3]. unfold Flush.
  assert (NoDup (order (cacheCoins c)).*1) as Hnd by (rewrite (order_ok (cacheCoins c)); apply NoDup_fst_map_to_list).
  assert (entries (order (cacheCoins c)) = cacheCoins c) as He.
  { unfold entries. rewrite (list_to_map_proper _ (map_to_list (cacheCoins c))) by (rewrite ?order_ok; done || apply NoDup_fst_map_to_list).
    apply list_to_map_to_list. }
  destruct (BatchWrite_law (base c) (order (cacheCoins c)) (hashBlock c) H1 Hnd) as (ok & b & -> & Hok).
  { apply Forall_forall. intros [o e] Hin. rewrite (order_ok (cacheCoins c)) in Hin. apply elem_of_map_to_list in Hin. by apply H2. }
  cbn [mbind outcome_bind]. eexists ok, _. split; [done|]. intros Ht. destruct (Hok Ht) as (Hb & Hc & Hh). cbn. split_and!; [|  |done|done].
  - by split.
  - intros o. rewrite Hc. unfold changed, cache_coins. rewrite He. destruct (cacheCoins c !! o) as [e|] eqn:E; [|done].
    destruct (DIRTY e) eqn:Ed; [done|]. symmetry. by apply (H2 o e E).
Qed.
End laws.

(** ** Histories *)

(** The operations on a cache, and what they return. *)
Inductive view_op : Type :=
| OpGet (o : COutPoint) | OpHave (o : COutPoint) | OpHaveInCache (o : COutPoint) | OpAccess (o : COutPoint)
| OpAdd (o : COutPoint) (c : Coin) (overwrite : bool) | OpSpend (o : COutPoint) | OpUncache (o : COutPoint) | OpGetBest | OpSetBest (h : Z).
Inductive view_answer : Type :=
| Nothing | Found (c : option Coin) | Held (b : bool) | Accessed (c : Coin) | Spent (moved : option Coin) | Block (h : Z).

Definition run_op {V} {CV : CCoinsView V} (usage : list Z -> Z) (op : view_op) (c : CCoinsViewCache V)
    : outcome unit (view_answer * CCoinsViewCache V) :=
  match op with
  | OpGet o => let '(r, c) := GetCoin usage o c in mret (Found r, c)
  | OpHave o => let '(b, c) := HaveCoin usage o c in mret (Held b, c)
  | OpHaveInCache o => let '(_, c) := HaveCoin usage o c in mret (Held (HaveCoinInCache o c), c)
  | OpAccess o => let '(x, c) := AccessCoin usage o c in mret (Accessed x, c)
  | OpAdd o x ow => c ← AddCoin usage o x ow c; mret (Nothing, c)
  | OpSpend o => let '(r, c) := SpendCoin usage o c in mret (Spent r, c)
  | OpUncache o => mret (Nothing, Uncache usage o c)
  | OpGetBest => let '(h, c) := GetBestBlock c in mret (Block h, c)
  | OpSetBest h => mret (Nothing, SetBestBlock h c)
  end.

Fixpoint run_ops {V} {CV : CCoinsView V} (usage : list Z -> Z) (ops : list view_op) (c : CCoinsViewCache V)
    : outcome unit (list view_answer * CCoinsViewCache V) :=
  match ops with
  | [] => mret ([], c)
  | op :: ops => '(a, c) ← run_op usage op c; '(l, c) ← run_ops usage ops c; mret (a :: l, c)
  end.

(** The same without a cache.  An outpoint has no coin, or one that is gone
    but still known, or a coin, which the base may have forgotten already when
    it is spent ([fresh]). *)
Inductive slot : Type := Absent | Gone | Present (c : Coin) (fresh : bool).

Definition coin_in (x : slot) : option Coin := match x with Present c _ => Some c | _ => None end.

Abbreviation view_spec := ((COutPoint -> slot) * Z)%type.
Definition set_slot (o : COutPoint) (x : slot) (s : view_spec) : view_spec := (fun p => if decide (p = o) then x else fst s p, snd s).

(** A spent coin is handed out once; what is handed out for one that is gone
    is empty, but reported as a success. *)
Definition spec_spend (x : slot) : option Coin * slot :=
  match x with
  | Absent => (None, Absent)
  | Gone => (Some coinEmpty, Gone)
  | Present c fresh => (Some c, if fresh then Absent else Gone)
  end.

(** A coin is added over another only with leave; [None] is a misuse. *)
Definition spec_add (x : slot) (c : Coin) (ow : bool) : option slot :=
  if Coin_IsSpent c then None
  else match x with
       | Present _ fresh => if negb ow then None else Some (if IsUnspendable (scriptPubKey (out c)) then x else Present c fresh)
       | Absent => Some (if IsUnspendable (scriptPubKey (out c)) then x else Present c (negb ow))
       | Gone => Some (if IsUnspendable (scriptPubKey (out c)) then x else Present c false)
       end.

(** [h0] is the block of the base. *)
Definition spec_op (h0 : Z) (op : view_op) (s : view_spec) : option (view_answer * view_spec) :=
  let '(f, h) := s in
  match op with
  | OpGet o => Some (Found (coin_in (f o)), s)
  | OpHave o | OpHaveInCache o => Some (Held (bool_decide (is_Some (coin_in (f o)))), s)
  | OpAccess o => Some (Accessed (default coinEmpty (coin_in (f o))), s)
  | OpAdd o x ow => y ← spec_add (f o) x ow; Some (Nothing, set_slot o y s)
  | OpSpend o => let '(r, y) := spec_spend (f o) in Some (Spent r, set_slot o y s)
  | OpUncache _ => Some (Nothing, s)
  | OpGetBest => Some (Block h, s)
  | OpSetBest h => Some (Nothing, (f, if h =? 0 then h0 else h))
  end.

Fixpoint spec_ops (h0 : Z) (ops : list view_op) (s : view_spec) : option (list view_answer * view_spec) :=
  match ops with
  | [] => Some ([], s)
  | op :: ops => '(a, s) ← spec_op h0 op s; '(l, s) ← spec_ops h0 ops s; Some (a :: l, s)
  end.

Definition spec_of (coins : COutPoint -> option Coin) (h : Z) : view_spec :=
  (fun o => match coins o with Some c => Present c false | None => Absent end, h).

Section histories.
Context {V : Type} {CV : CCoinsView V} {LV : CoinsViewLaws V}.
Variable usage : list Z -> Z.
Hypothesis usage_nil : usage [] = 0.

Definition entry_slot (e : CCoinsCacheEntry) : slot := if Coin_IsSpent (coin e) then Gone else Present (coin e) (FRESH e).
Definition slot_of (c : CCoinsViewCache V) (o : COutPoint) : slot :=
  match cacheCoins c !! o with
  | Some e => entry_slot e
  | None => match coins_of (base c) o with Some x => Present x false | None => Absent end
  end.

(** The entries a history leaves. *)
Definition tidy_entry (e : CCoinsCacheEntry) : Prop :=
  (Coin_IsSpent (coin e) = true -> e = CacheEntry coinEmpty true false) /\ (DIRTY e = false -> FRESH e = false).

(** The cache stands for a state. *)
Record stands_for (h0 : Z) (c : CCoinsViewCache V) (s : view_spec) : Prop := {
  sf_ok : cache_ok usage c;
  sf_tidy o e : cacheCoins c !! o = Some e -> tidy_entry e;
  sf_slots o : slot_of c o = fst s o;
  sf_best : cache_best c = snd s;
  sf_base : best_of (base c) = h0;
}.

Lemma slot_coin c o : cache_ok usage c -> coin_in (slot_of c o) = cache_coins c o.
Proof.
  intros Hc. unfold slot_of, cache_coins, entry_slot, unspent. destruct (cacheCoins c !! o) as [e|]; [by destruct (Coin_IsSpent (coin e))|].
  by destruct (coins_of (base c) o).
Qed.

Lemma stands_put h0 c s o e : stands_for h0 c s -> entry_fits (coins_of (base c)) o e -> tidy_entry e ->
  stands_for h0 (put usage o e c) (set_slot o (entry_slot e) s).
Proof.
  intros [H1 H2 H3 H4 H5] He Ht. destruct (put_entry_ok usage o e c H1 He) as [Hc _]. split; try done.
  - intros p e'. cbn. intros [[<- <-]|[_ H]]%lookup_insert_Some; [done|by eapply H2].
  - intros p. unfold slot_of. cbn. destruct (decide (p = o)) as [->|Hp]; [by rewrite lookup_insert_eq|].
    rewrite lookup_insert_ne by done. apply H3.
Qed.

Lemma stands_same h0 c s s' : stands_for h0 c s -> (forall o, fst s' o = fst s o) -> snd s' = snd s -> stands_for h0 c s'.
Proof. intros [H1 H2 H3 H4 H5] Hf Hs. split; try done; [intros o; by rewrite Hf|by rewrite Hs]. Qed.

Lemma set_slot_id o x s p : fst s o = x -> fst (set_slot o x s) p = fst s p.
Proof. intros <-. cbn. by destruct (decide (p = o)) as [->|]. Qed.

Lemma stands_take h0 c s o : stands_for h0 c s -> coins_of (base c) o = None -> stands_for h0 (take_out usage o c) (set_slot o Absent s).
Proof.
  intros [H1 H2 H3 H4 H5] Hn. destruct (take_out_ok usage o c H1) as [Hc _]. split; try done.
  - intros p e. cbn. intros [_ H]%lookup_delete_Some. by eapply H2.
  - intros p. unfold slot_of. cbn. destruct (decide (p = o)) as [->|Hp]; [by rewrite lookup_delete_eq, Hn|].
    rewrite lookup_delete_ne by done. apply H3.
Qed.

(** Fetching changes nothing and finds the slot. *)
Lemma FetchCoin_stands h0 c s o : stands_for h0 c s ->
  let '(it, c') := FetchCoin usage o c in
  stands_for h0 c' s /\ cacheCoins c' !! o = it /\
  match it with Some e => entry_slot e = fst s o /\ (FRESH e = true -> coins_of (base c') o = None) | None => fst s o = Absent end.
Proof.
  intros Hs. pose proof Hs as [H1 H2 H3 H4 H5]. unfold FetchCoin. destruct (cacheCoins c !! o) as [e|] eqn:E.
  { split_and!; [done|done| |by apply (co_fits _ _ H1)]. rewrite <-H3. unfold slot_of. by rewrite E. }
  pose proof (GetCoin_law (base c) o (co_base _ _ H1)) as [Hget Hsame]. destruct (view_GetCoin o (base c)) as [tmp b]. cbn [fst snd] in *.
  pose proof (set_base_ok usage b c H1 Hsame) as [Hc1 _]. pose proof Hsame as (_ & Hcoins & Hbest).
  assert (fst s o = match tmp with Some x => Present x false | None => Absent end) as Hsl.
  { rewrite <-H3. unfold slot_of. rewrite E, <-Hget. done. }
  assert (stands_for h0 (set_base b c) s) as Hs1.
  { split; try done.
    - intros p. rewrite <-H3. unfold slot_of. cbn. by rewrite Hcoins.
    - unfold cache_best in *. cbn. by rewrite Hbest.
    - cbn. by rewrite Hbest. }
  destruct tmp as [x|]; [|done].
  assert (Coin_IsSpent x = false) as Hx by (eapply coins_unspent; [exact (co_base _ _ H1)|by rewrite <-Hget]). rewrite Hx.
  set (e := CacheEntry x false false). assert (entry_slot e = Present x false) as He by (unfold entry_slot; cbn; by rewrite Hx).
  split_and!; [|cbn; apply lookup_insert_eq|by rewrite He|done].
  eapply stands_same; [apply (stands_put _ _ _ o e Hs1)| |done].
  - split; [done|]. intros _. unfold unspent. cbn. by rewrite Hx, Hcoins, <-Hget.
  - split; [cbn; by rewrite Hx|done].
  - intros p. symmetry. apply set_slot_id. by rewrite He.
Qed.

Lemma AddCoin_stands h0 c s o x ow y : stands_for h0 c s -> spec_add (fst s o) x ow = Some y ->
  exists c', AddCoin usage o x ow c = Ok c' /\ stands_for h0 c' (set_slot o y s).
Proof.
  intros Hs. pose proof Hs as [H1 H2 H3 H4 H5]. unfold spec_add, AddCoin. destruct (Coin_IsSpent x) eqn:Hx; [done|].
  cbn [negb assert_that mbind outcome_bind]. destruct (IsUnspendable _).
  { intros E. exists c. split; [done|]. eapply stands_same; [exact Hs| |done]. intros p. apply set_slot_id.
    destruct (fst s o), ow; cbn in E; congruence. }
  assert (forall fresh, (fresh = true -> coins_of (base c) o = None) ->
    stands_for h0 (put usage o (CacheEntry x true fresh) c) (set_slot o (Present x fresh) s)) as Hput.
  { intros fresh Hf. assert (Present x fresh = entry_slot (CacheEntry x true fresh)) as -> by (unfold entry_slot; cbn; by rewrite Hx).
    apply stands_put; [done|by split|split; [cbn; by rewrite Hx|done]]. }
  specialize (H3 o). unfold slot_of in H3. destruct (cacheCoins c !! o) as [e|] eqn:E; cbn [default from_option].
  - destruct (co_fits _ _ H1 o e E) as [Hfr Hcl]. destruct (H2 o e E) as [Htidy _]. rewrite <-H3. unfold entry_slot.
    destruct (Coin_IsSpent (coin e)) eqn:He.
    + specialize (Htidy eq_refl). subst e. intros [= <-]. destruct ow; (eexists; split; [reflexivity|]); by apply Hput.
    + destruct ow; [|done]. intros [= <-]. cbn [negb andb throw_if mbind outcome_bind]. eexists. split; [reflexivity|].
      rewrite orb_false_r. by apply Hput.
  - rewrite <-H3. destruct (coins_of (base c) o) as [z|] eqn:Eb; destruct ow; try done; intros [= <-];
      (eexists; split; [reflexivity|]); by apply Hput.
Qed.

Lemma SpendCoin_stands h0 c s o : stands_for h0 c s ->
  fst (SpendCoin usage o c) = fst (spec_spend (fst s o)) /\
  stands_for h0 (snd (SpendCoin usage o c)) (set_slot o (snd (spec_spend (fst s o))) s).
Proof.
  intros Hs. pose proof (FetchCoin_stands h0 c s o Hs) as HF. unfold SpendCoin. destruct (FetchCoin usage o c) as [it c1].
  destruct HF as (Hs1 & Hl & Hit). destruct it as [e|]; cbn [fst snd].
  2: { rewrite Hit. split; [done|]. eapply stands_same; [exact Hs1| |done]. intros p. by apply set_slot_id. }
  destruct Hit as [Hsl Hfr]. rewrite <-Hsl.
  assert (set_cache (<[o := CacheEntry coinEmpty true false]> (cacheCoins c1)) (cachedCoinsUsage c1 - old_usage usage o c1) c1 =
    put usage o (CacheEntry coinEmpty true false) c1) as Hput.
  { unfold put, set_cache, DynamicMemoryUsage. cbn [coin coinEmpty out scriptPubKey null_txout]. by rewrite usage_nil, Z.add_0_r. }
  destruct (sf_tidy _ _ _ Hs1 o e Hl) as [Htidy _].
  unfold entry_slot. destruct (Coin_IsSpent (coin e)) eqn:He; cbn [spec_spend fst snd].
  - specialize (Htidy eq_refl). subst e. cbn [coin FRESH] in *. split; [done|]. rewrite Hput.
    by apply (stands_put h0 c1 s o (CacheEntry coinEmpty true false)).
  - split; [done|]. destruct (FRESH e) eqn:Ef; [by apply stands_take; [|apply Hfr]|]. rewrite Hput.
    by apply (stands_put h0 c1 s o (CacheEntry coinEmpty true false)).
Qed.

Lemma run_op_ok h0 op c s a s' : stands_for h0 c s -> spec_op h0 op s = Some (a, s') ->
  exists c', run_op usage op c = Ok (a, c') /\ stands_for h0 c' s'.
Proof.
  intros Hs. destruct s as [f h].
  assert (forall o, coin_in (f o) = match fst (FetchCoin usage o c) with Some e => unspent e | None => None end) as Hread.
  { intros o. pose proof (FetchCoin_stands h0 c _ o Hs) as HF. destruct (FetchCoin usage o c) as [it c1]. destruct HF as (_ & _ & Hit). cbn [fst] in *.
    destruct it as [e|]; [|by rewrite Hit]. destruct Hit as [<- _]. unfold entry_slot, unspent. by destruct (Coin_IsSpent (coin e)). }
  destruct op as [o|o|o|o|o x ow|o|o| |h']; cbn [spec_op run_op].
  1-4: specialize (Hread o); pose proof (FetchCoin_stands h0 c _ o Hs) as HF; rewrite Hread; intros [= <- <-];
    unfold GetCoin, HaveCoin, AccessCoin; destruct (FetchCoin usage o c) as [it c1]; destruct HF as (Hs1 & Hl & Hit); cbn [fst snd] in *;
    exists c1; (split; [|exact Hs1]).
  - by destruct it.
  - destruct it as [e|]; [|done]. by rewrite unspent_is_Some.
  - unfold HaveCoinInCache. rewrite Hl. destruct it as [e|]; [|done]. by rewrite unspent_is_Some.
  - destruct it as [e|]; [|done]. destruct (sf_tidy _ _ _ Hs1 o e Hl) as [Ht _]. unfold unspent.
    destruct (Coin_IsSpent (coin e)) eqn:He; [|done]. by rewrite (Ht eq_refl).
  - destruct (spec_add (f o) x ow) as [y|] eqn:E; [|done]. intros [= <- <-].
    destruct (AddCoin_stands h0 c (f, h) o x ow y Hs E) as (c' & -> & Hc'). by exists c'.
  - pose proof (SpendCoin_stands h0 c (f, h) o Hs) as [H1 H2]. cbn [fst] in *. destruct (spec_spend (f o)) as [r y]. cbn [fst snd] in *.
    intros [= <- <-]. destruct (SpendCoin usage o c) as [r' c']. cbn [fst snd] in *. subst r'. by exists c'.
  - intros [= <- <-]. exists (Uncache usage o c). split; [done|]. unfold Uncache. destruct (cacheCoins c !! o) as [e|] eqn:E; [|done].
    destruct (negb (DIRTY e) && negb (FRESH e)) eqn:Eb; [|done]. apply andb_true_iff in Eb as [Ed _]. apply negb_true_iff in Ed.
    pose proof Hs as [H1 H2 H3 H4 H5]. destruct (take_out_ok usage o c H1) as [Hc _]. split; try done.
    + intros p e'. cbn. intros [_ H]%lookup_delete_Some. by eapply H2.
    + intros p. rewrite <-H3. unfold slot_of. cbn. destruct (decide (p = o)) as [->|Hp]; [|by rewrite lookup_delete_ne].
      rewrite lookup_delete_eq, E. destruct (H2 o e E) as [Htidy Hfr]. destruct (co_fits _ _ H1 o e E) as [_ Hcl].
      specialize (Hcl Ed). unfold unspent in Hcl. unfold entry_slot. destruct (Coin_IsSpent (coin e)) eqn:He.
      * rewrite (Htidy eq_refl) in Ed. done.
      * by rewrite <-Hcl, (Hfr Ed).
  - intros [= <- <-]. pose proof Hs as [Hs1 Hs2 Hs3 Hs4 Hs5]. unfold GetBestBlock, cache_best in *. cbn [snd] in *.
    destruct (Z.eqb_spec (hashBlock c) 0) as [E0|E0]; [|exists c; by rewrite Hs4].
    destruct (GetBestBlock_law (base c) (co_base _ _ Hs1)) as [Hg Hsame]. destruct (view_GetBestBlock (base c)) as [h' b]. cbn [fst snd] in *.
    destruct (set_base_ok usage b c Hs1 Hsame) as [Hc1 _]. pose proof Hsame as (_ & Hcoins & Hbest).
    exists (SetBestBlock h' (set_base b c)). rewrite Hg, Hs4. split; [done|]. split; [by destruct Hc1|done| | |by cbn; rewrite Hbest].
    + intros p. rewrite <-Hs3. unfold slot_of. cbn. by rewrite Hcoins.
    + unfold cache_best. cbn. rewrite Hbest, Hs4. by destruct (h =? 0).
  - intros [= <- <-]. pose proof Hs as [[Hs0 Hs0' Hs0''] Hs2 Hs3 Hs4 Hs5]. exists (SetBestBlock h' c). split; [done|]. split; [by split|done|done| |done].
    unfold cache_best. cbn. by rewrite Hs5.
Qed.

Lemma run_ops_ok h0 ops c s l s' : stands_for h0 c s -> spec_ops h0 ops s = Some (l, s') ->
  exists c', run_ops usage ops c = Ok (l, c') /\ stands_for h0 c' s'.
Proof.
  revert c s l. induction ops as [|op ops IH]; intros c s l Hc; cbn [spec_ops run_ops]; [intros [= <- <-]; by exists c|].
  intros H. destruct (spec_op h0 op s) as [[a s1]|] eqn:E1; [|done]. cbn [mbind option_bind] in H.
  destruct (spec_ops h0 ops s1) as [[l1 s2]|] eqn:E2; [|done]. injection H as <- <-.
  destruct (run_op_ok h0 op c s a s1 Hc E1) as (c1 & -> & Hc1). cbn [mbind outcome_bind].
  destruct (IH c1 s1 l1 Hc1 E2) as (c2 & -> & Hc2). by exists c2.
Qed.

Lemma new_stands b : view_ok b -> stands_for (best_of b) (CCoinsViewCache_new b) (spec_of (coins_of b) (best_of b)).
Proof. intros Hb. split; [by split|done|done|done|done]. Qed.
End histories.

(** C18: a cache over any view that keeps its promise gives, whatever operations
    are done on it, the answers of a store of slots without a cache.  An outpoint
    is absent, or its coin is gone but remembered, or it holds a coin, which is
    marked fresh when the base has none.  Reading gives the coin of the slot;
    adding gives a fresh coin where there was nothing, unless it may overwrite;
    spending gives the coin and reports success, leaves nothing of a fresh coin
    and otherwise remembers that it is gone; spending one that is absent fails,
    and spending one that is gone is reported as a success with an empty coin.
    Uncaching is invisible.  [Flush] then hands the base exactly the coins of the
    slots, and the memory counted is that of the entries throughout.  Coins are
    added over others only with leave.  The base may be a cache itself. *)
Theorem CCoinsViewCache_refines {V : Type} {CV : CCoinsView V} {LV : CoinsViewLaws V} (usage : list Z -> Z)
    (order : gmap COutPoint CCoinsCacheEntry -> coins_list) (b : V) ops l slots h
    (Hnil : usage [] = 0) (Horder : forall m, order m ≡ₚ map_to_list m) (Hb : view_ok b)
    (Hops : spec_ops (best_of b) ops (spec_of (coins_of b) (best_of b)) = Some (l, (slots, h))) :
  exists c ok c', run_ops usage ops (CCoinsViewCache_new b) = Ok (l, c) /\ cachedCoinsUsage c = to_u64 (total_usage usage (cacheCoins c)) /\
    Flush order c = Ok (ok, c') /\
    (ok = true -> view_ok (base c') /\ (forall o, coins_of (base c') o = coin_in (slots o)) /\ (hashBlock c <> 0 -> best_of (base c') = h) /\
      cacheCoins c' = ∅).
Proof.
  destruct (run_ops_ok usage Hnil _ ops _ _ l _ (new_stands usage b Hb) Hops) as (c & Hrun & [Hc _ Hf Hbest _]).
  destruct (Flush_ok usage order Horder c Hc) as (ok & c' & Hfl & Hok). exists c, ok, c'. split_and!; [done|by apply Hc|done|].
  intros Ht. destruct (Hok Ht) as (H1 & H2 & H3 & H4). split_and!; [by apply H1| | |done].
  - intros o. by rewrite H2, <-(slot_coin usage), Hf.
  - intros Hh. rewrite (H3 Hh). cbn [snd] in Hbest. rewrite <-Hbest. unfold cache_best. by destruct (Z.eqb_spec (hashBlock c) 0).
Qed.

(** A cache over a cache over a database with one coin, which is spent twice. *)
Definition toy_coin (n : Z) : Coin := Coin_new {| nValue := n; scriptPubKey := [n] |} 1 false.
Definition toy_point (n : Z) : COutPoint := {| prevout_hash := n; prevout_n := 0 |}.
Definition toy_view : CCoinsViewCache mem_view := CCoinsViewCache_new (MemView {[toy_point 1 := toy_coin 1]} 5).
Definition toy_history : list view_op :=
  [OpGet (toy_point 1); OpSpend (toy_point 1); OpSpend (toy_point 1); OpSpend (toy_point 4);
   OpAdd (toy_point 2) (toy_coin 2) false; OpAdd (toy_point 3) (toy_coin 3) false;
   OpSpend (toy_point 2); OpSpend (toy_point 2); OpHave (toy_point 1); OpAccess (toy_point 3); OpGetBest; OpSetBest 6].
Definition toy_answers : list view_answer :=
  [Found (Some (toy_coin 1)); Spent (Some (toy_coin 1)); Spent (Some coinEmpty); Spent None; Nothing; Nothing;
   Spent (Some (toy_coin 2)); Spent None; Held false; Accessed (toy_coin 3); Block 5; Nothing].
Definition toy_end : view_spec :=
  match spec_ops 5 toy_history (spec_of (coins_of (CoinsViewLaws := cache_laws zlen) toy_view) 5) with
  | Some (_, s) => s
  | None => (fun _ => Absent, 0)
  end.

Lemma CCoinsViewCache_refines_witness : exists c ok c',
  run_ops (CV := cache_view zlen) zlen toy_history (CCoinsViewCache_new toy_view) = Ok (toy_answers, c) /\
  Flush (CV := cache_view zlen) map_to_list c = Ok (ok, c') /\
  (ok = true -> cache_coins (base c') (toy_point 1) = None /\ cache_coins (base c') (toy_point 3) = Some (toy_coin 3)).
Proof.
  destruct (CCoinsViewCache_refines (LV := cache_laws zlen) zlen map_to_list toy_view toy_history toy_answers
    (fst toy_end) (snd toy_end))
    as (c & ok & c' & H1 & _ & H2 & H3); [done|done| |by vm_compute|].
  - split; [|done|done]. intros o x Hx. cbn in Hx. apply lookup_singleton_Some in Hx as [_ <-]. by vm_compute.
  - exists c, ok, c'. split_and!; [exact H1|exact H2|]. intros Ht. destruct (H3 Ht) as (_ & H4 & _). split.
    + etransitivity; [exact (H4 (toy_point 1))|by vm_compute].
    + etransitivity; [exact (H4 (toy_point 3))|by vm_compute].
Defined.
